(* ===== verification/_CoqProject ===== *)
-Q . S2P
Prelude.v
JsNumber.v
JsDate.v
Digest.v
Contracts.v
Plan.v
Capability.v
Json.v
Mission.v
Brief.v
Policy.v
Approval.v
Ledger.v
Regex.v
MemPolicy.v
MemContext.v
Memory.v
MemInvariant.v
MemReplay.v
MemPort.v
Model.v
Faculty.v
FacultyFacts.v
FacultyPins.v
Identity.v
IdentityFacts.v
Cognition.v
CognitionFacts.v
LedgerOracles.v
Assembly.v
MissionRun.v
MissionRunFacts.v
RepositoryRead.v
BriefRun.v
KernelWorkflow.v
KernelFacts.v
RunSample.v
GovernedSample.v
Schedule.v
SchedStore.v
SchedDriver.v
Health.v
Alerting.v
Outbox.v
Delivery.v
Codec.v
OAuthTokens.v
RateLimit.v
OAuthServer.v
OAuthTokenFacts.v
OAuthFacts.v
OAuthOnce.v
OAuthSample.v
McpServer.v
McpFacts.v
McpMission.v
