(* ===== verification/Prelude.v ===== *)
(** * KernelJSON verification library

    KernelJSON (src/) is a task kernel: it admits an intent, compiles it into a task and a
    plan, gates capabilities by policy and by human approval, runs the steps, and lets a task
    complete only on persisted evidence.  Around the kernel are a canonical memory, faculties and
    an identity that frame what a model is asked, a durable scheduler, a health model, an alerting
    path, two missions carried out by external model runtimes, and an operator server that lets a
    chat client read the ledger and start or cancel tasks.  This library translates that
    logic into Rocq and proves what the parts promise one another.

    ** The files, in dependency order, and the code each models

    - Prelude: the two effect monads, scope and tactics, JavaScript's Map, lists and sorting.
      [result] is a value or a thrown error; [prog S] is a method over a state, in which
      assignments made before a throw stay.
    - JsNumber: numbers as IEEE doubles, their reading and their writing.
    - JsDate: [Date] over the proleptic Gregorian calendar ([toISOString], [Date.parse]).
    - Digest: SHA-256, [JSON.stringify], digest and stableId (services/kernel/src/deterministic.ts,
      compiler/index.ts).
    - Contracts: packages/contracts/src common, identity, task, evidence, outcome, lifecycle.
    - Plan: plan.ts, planner/, executor/, compiler/, claude-md-check.ts.
    - Capability: packages/capabilities/src/index.ts, the registry and its text capabilities.
    - Json: [JSON.parse] (every number of the grammar included) and Zod schemas as readers of
      JSON values.
    - Mission, Brief: packages/contracts/src/mission.ts and brief.ts, and
      services/kernel/src/mission: reconcile, verify, brief, verify-brief.
    - Policy: services/kernel/src/policy.ts and policy-gate.ts.
    - Approval: services/kernel/src/approval-store.ts, packages/identity.
    - Ledger: services/kernel/src/ledger.ts, terminal.ts, execution-binding.ts.
    - Regex: regular expressions with a matcher and its semantics.
    - MemPolicy, MemContext, Memory: services/memory/src/canonical (policy, classify, assembler,
      service) and their contracts; MemInvariant: what every reachable memory satisfies;
      MemReplay: a request sent again through the entry points; MemPort: the port of a mission, the configuration and the Shared Brain.
    - Model: packages/contracts/src/model.ts, packages/models, services/kernel/src/models.ts.
    - Faculty, FacultyFacts, FacultyPins: packages/contracts/src/faculty.ts and
      services/kernel/src/faculty.
    - Identity, IdentityFacts: the documents as JSON and as stored jsonb, the digest contract and
      its SQL twin, the secret scan and the projection (packages/contracts/src/primary-identity.ts, services/kernel/src/identity).
    - Cognition, CognitionFacts: cognition-binding.ts, cognition-digests.ts, evidence-verify.ts.
    - LedgerOracles: what the ledger asks the faculty and identity evidence at a completion.
    - Assembly: prompts, the assembler of the analyst's request, evidence records.
    - MissionRun, MissionRunFacts: mission/run.ts.  RepositoryRead: the repository-read capability
      with its registry and verifiers.  BriefRun: the brief's prompts, message and run.
    - KernelWorkflow, KernelFacts: executor/workflow.ts, from a submission to its outcome.
    - RunSample, GovernedSample: whole runs on concrete inputs, and the theorems applied to them.
    - Schedule, SchedStore, SchedDriver: services/kernel/src/scheduler.
    - Health: services/kernel/src/health, except collection.
    - Alerting, Outbox, Delivery: services/kernel/src/alerting.
    - Codec: base64url, UTF-8 decoding, percent-decoding and forms, HMAC-SHA256.
    - OAuthTokens, RateLimit, OAuthServer: apps/mcp/src/oauth (tokens, profiles, google, rate-limit,
      server); OAuthTokenFacts, OAuthFacts, OAuthOnce: their theorems; OAuthSample: one connection
      from registration to revocation.
    - McpServer, McpFacts, McpMission: apps/mcp/src door, tools, protocol, server and main.

    A definition carries its source's name where Rocq allows it: the function [f] of a file
    is [f] here, a Zod schema [X] is the Record [X] with [X_parse] (and [X_json] or [x_json]
    for its JSON), a class is a Record of its private state and one definition per method.

    ** How the parts interact

    The workflow (KernelWorkflow) compiles and plans a submission (Plan), writes each event
    through the ledger and runs the recipe; a mission (MissionRun) is written against a record of
    its operations, so that its theorems hold over any ledger, reader, model ports, memory,
    faculties and identity, and the workflow supplies the real ones.  The planner's plan is stored
    with the task's events (Ledger, [PlanPayload]); the ledger's [write] calls the executor's
    [verifyPlanCompletion] (Plan), which for the two missions is [verifyMissionCompletion] and
    [verifyBriefCompletion] (Mission, Brief), all of which end in [assertCompletion] (Contracts),
    and two oracles over the pin tables (arguments of Ledger, given in LedgerOracles).  Faculty and
    identity tables live beside the ledger's own, behind the classes [FacultyTables] and
    [IdentityTables].  A mission's request is assembled from the memory's context (MemPort), the
    pinned faculty (Faculty) and the pinned identity projection (Identity, Cognition, Assembly).
    Capability digests bind policy evaluations (Policy) and approval tickets (Approval).  The
    schedule driver is written against three interfaces (classes with laws: store, admission
    gateway, timer runtime) that the in-memory implementations discharge; the delivery worker
    against two (outbox store, notifier).  The health report feeds the alert reducer, whose
    decisions become outbox rows.  The operator server (McpServer) is written against a record of the
    door's operations, [OperatorDoor], which its HTTP client implements, and takes its caller from
    the bearer check of the authorisation server (OAuthServer), whose requests and clock readings
    are the events of a transition system (OAuthFacts).

    ** What the theorems show

    - Completion.  A task the ledger calls COMPLETED has a COMPLETED outcome, an audit event and
      stored evidence for each criterion (Ledger); a run of the workflow that returns has left
      exactly its outcome and the status that goes with it (KernelFacts); a mission run emits one
      terminal event and asks for COMPLETED only after the whole chain of evidence
      (MissionRunFacts); the accepted outcome is the recipe's own value (Plan); a mission or a
      brief completes only on a judgement the kernel has made again from persisted, hashed text,
      equal to the one recorded
      (Mission, Brief), and on the faculty pins, the latch, the identity pin and the call binding
      its ledger holds (LedgerOracles); the lifecycle reaches COMPLETED only through VERIFYING
      (Contracts).
    - Durability.  A write happens once, the answer of [finish] is final (Ledger); an approval
      is resolved once (Approval); a fire is bound once (SchedStore); a replayed wake admits
      nothing (SchedDriver); an outbox row keeps its identity and payload (Delivery); a faculty
      pin and an identity latch are decided once (FacultyPins, CognitionFacts); a memory is an
      append-only history (MemInvariant) and a request sent again converges (MemReplay).
    - Authority.  The policy is default-deny (Policy); a grant comes from the named human for
      the exact scope (Approval); stale fences fail closed (SchedStore); a receipt is bound to
      its request (Capability, Model); canonical memory comes from an operator or a verified
      outcome, never from a model or the Shared Brain (MemInvariant, MemPort); a provider is
      called only with a live pin and the pinned identity block (FacultyPins, CognitionFacts).
    - The operator's boundary.  Whatever a chat client sends, the server uses the door for nothing
      but its ten tools' arguments, and for an act only on a token of ChatGPT's own client
      (McpFacts), and the mission that runs is the one asked for (McpMission); a token is accepted exactly when this server signed it for that purpose
      (OAuthTokenFacts); a code exists only after the owner's sign-in and consent, redirects stay
      on the allow-list (OAuthFacts); a code is redeemed once and a refresh token presented twice
      ends its family (OAuthOnce); requests per window are bounded (RateLimit).
    - Termination, liveness and bounds.  The dependency order and the objective grammar end on
      every input (Plan, Mission); a wake re-arms (SchedDriver); queued rows settle (Delivery); a
      context stays inside its budget and drops nothing silently (MemContext, MemPort).
    - Equivalence and refinement.  Due windows are the windows of their specification
      (Schedule); the delivery worker refines an abstract protocol (Delivery); the TypeScript and
      the SQL canonical texts are equal on integral documents, and part on a stored numeral such
      as 1.0 (IdentityFacts); the credential scan is exact (MemPolicy).
    - Observation.  A HEALTHY report means every check was made and passed (Health); alert
      decisions follow the grammar of an episode (Alerting).
    - Reading back.  A task is accepted exactly when its fields say so, and what is stored of it
      parses to itself (Contracts); runtime JSON is read back bare
      or fenced (Mission, Json).

    ** Representation, bounds and fuel

    A string is its UTF-8 encoding; [s.length] counts UTF-16 code units.  A JSON
    number is a double: an integer, or a dyadic fraction or an infinity (JsNumber), rounded when
    it is read and written with the fewest digits that are read back.  A number the schemas make
    an integer is Z, at the width JavaScript gives it where it matters: SHA-256 works on 32-bit
    words, held in machine integers, and instants outside the range of [Date] are out of the theorems'
    hypotheses.  Loops that are not structural carry fuel, and each is shown to have enough:
    plan resolution runs as many rounds as there are ids, the executor's order as many as there
    are steps, the interval loops as many as the horizon holds windows, JSON.parse twice the
    length of its text, the directive loop the length of the objective.  The search for the
    digits of a number stops at seventeen, which identify every double (a fact of IEEE 754 that
    is not proved here; the integers up to 2^53 do not use it).

    PostgreSQL transactions are functions that restore the tables on a throw ([transact]), so
    concurrent calls are sequences of whole transactions, which is what the row and advisory
    locks of the code enforce; a port of the workflow may do any such operation beside the task.
    The tables keep primary and unique keys and the triggers that decide an operation; of the
    foreign keys, those of the faculty pins and of the identity latches are checked (the ones to
    rows a trigger has just read cannot fail), the others are not modelled.  Restate's [ctx.run] runs its step once: the journal that makes a
    replay repeat the recorded values is the SDK's.

    ** Parameters

    What is not under src/ is an argument: [randomUUID], the clock, Unicode case mapping and
    normalisation, URL parsing and validity, [Number] of a text, random tokens, time-zone
    wall clocks, locale comparison, [fetch] and the other transports.  Zod and
    [JSON.parse] are written out as the code relies on them.

    ** Not modelled

    - The other Restate handlers (workflow.ts, golden-, policy-, autonomous- and
      identity-workflow.ts) and the identity store they write to.
    - PostgreSQL implementations of the scheduler's and the alerting's stores, and the health
      collector: SQL over tables the reference in-memory stores stand for.
    - The HTTP and subprocess adapters of packages/runtimes, the sealed repository reader and
      the Telegram channel: glue around third-party services.  The process entry of apps/mcp.
    - The ledger's afterCommit hook, which runs after the transaction. *)

From Stdlib Require Export ZArith Lia ZifyBool Bool Permutation Sorted Ascii.
From stdpp Require Export base tactics list strings gmap pretty.

#[export] Set Default Goal Selector "!".

Declare Scope js_scope.
Delimit Scope js_scope with js.

(** JavaScript's [===] on values with decidable equality. *)
Notation "a === b" := (bool_decide (a = b)) (at level 70, no associativity) : js_scope.
Notation "a !== b" := (negb (bool_decide (a = b))) (at level 70, no associativity) : js_scope.

(** ** Thrown errors and the two effect monads *)

(** A JavaScript exception: the class that was thrown and its message. *)
Record exn := Exn { exn_class : string; exn_message : string }.

#[export] Instance exn_eq_dec : EqDecision exn.
Proof. solve_decision. Defined.

(** [throw new Error(msg)] *)
Definition js_error (msg : string) : exn := Exn "Error" msg.

(** Zod's rejection; the message is the first issue's. *)
Definition zod_error (msg : string) : exn := Exn "ZodError" msg.

(** The value or the exception of a fallible computation. *)
Inductive result (A : Type) : Type :=
  | Ok (a : A)
  | Throw (e : exn).
Arguments Ok {_} _.
Arguments Throw {_} _.

#[export] Instance result_ret : MRet result := fun A a => Ok a.
#[export] Instance result_bind : MBind result := fun A B f m =>
  match m with Ok a => f a | Throw e => Throw e end.
#[export] Instance result_fmap : FMap result := fun A B f m =>
  match m with Ok a => Ok (f a) | Throw e => Throw e end.

#[export] Instance result_eq_dec {A} `{EqDecision A} : EqDecision (result A).
Proof. solve_decision. Defined.

Definition is_ok {A} (r : result A) : bool :=
  match r with Ok _ => true | Throw _ => false end.

Definition result_list {A} (r : result A) : list A :=
  match r with Ok a => [a] | Throw _ => [] end.

(** [if (!c) throw e] *)
Definition ensure (c : bool) (e : exn) : result unit := if c then Ok tt else Throw e.

(** An async method over an object's private state: assignments made before a
    [throw] stay. *)
Definition prog (S A : Type) : Type := S -> S * result A.

#[export] Instance prog_ret {S} : MRet (prog S) := fun A a s => (s, Ok a).
#[export] Instance prog_bind {S} : MBind (prog S) := fun A B f m s =>
  match m s with
  | (s', Ok a) => f a s'
  | (s', Throw e) => (s', Throw e)
  end.

Definition get_st {S} : prog S S := fun s => (s, Ok s).
Definition put_st {S} (s : S) : prog S unit := fun _ => (s, Ok tt).
Definition throw_st {S A} (e : exn) : prog S A := fun s => (s, Throw e).
Definition lift_result {S A} (r : result A) : prog S A := fun s => (s, r).

Lemma ensure_ok {B} c e (k : unit → result B) b :
  (ensure c e ≫= k) = Ok b → c = true ∧ k tt = Ok b.
Proof. by destruct c. Qed.

Lemma bind_ok {A B} (m : result A) (f : A → result B) b :
  (m ≫= f) = Ok b → ∃ a, m = Ok a ∧ f a = Ok b.
Proof. destruct m as [a|]; [by exists a|done]. Qed.

Lemma pbind_ok {S A B} (m : prog S A) (f : A → prog S B) s s' b :
  (m ≫= f) s = (s', Ok b) → ∃ a s1, m s = (s1, Ok a) ∧ f a s1 = (s', Ok b).
Proof.
  unfold mbind, prog_bind. destruct (m s) as [s1 [a|]]; [|done]. by exists a, s1.
Qed.

Lemma pbind_run {S A B} (m : prog S A) (f : A → prog S B) s s1 a :
  m s = (s1, Ok a) → (m ≫= f) s = f a s1.
Proof. unfold mbind, prog_bind. by intros ->. Qed.

Lemma lift_ok {S A} (r : result A) (s s' : S) a :
  lift_result r s = (s', Ok a) → s' = s ∧ r = Ok a.
Proof. by intros [= -> ->]. Qed.

Lemma Ok_inj {A} (a b : A) : Ok a = Ok b → a = b.
Proof. by intros [=]. Qed.

Lemma ret_ok {S A} (a b : A) (s s' : S) : (mret a : prog S A) s = (s', Ok b) → s' = s ∧ b = a.
Proof. by intros [= -> ->]. Qed.

Lemma get_bind {S B} (k : S → prog S B) s : (get_st ≫= k) s = k s s.
Proof. done. Qed.

(** A guard that lets the program go on. *)
Lemma check_ok {S} c e (s s' : S) u : lift_result (ensure c e) s = (s', Ok u) → s' = s ∧ c = true.
Proof. intros [-> H]%lift_ok. by destruct c. Qed.

Lemma lift_bind_throw {S A B} (r : result A) (k : A → prog S B) s s' e :
  (lift_result r ≫= k) s = (s', Throw e) → s' = s ∨ ∃ a, k a s = (s', Throw e).
Proof. destruct r as [a|]; [right; by exists a|intros [= <- _]; by left]. Qed.

Lemma pbind_throw {S A B} (m : prog S A) (k : A → prog S B) s s' e :
  (m ≫= k) s = (s', Throw e) → m s = (s', Throw e) ∨ ∃ a s1, m s = (s1, Ok a) ∧ k a s1 = (s', Throw e).
Proof.
  unfold mbind, prog_bind. destruct (m s) as [s1 [a|e1]]; [right; by exists a, s1|intros [= <- <-]; by left].
Qed.

(** A string that is present and not empty: JavaScript's truthiness on [string | null]. *)
Definition truthy (c : option string) : option string :=
  match c with
  | Some s => if decide (s = EmptyString) then None else Some s
  | None => None
  end.

(** String append is a monoid. *)
Lemma str_app_assoc (a b c : string) : (a +:+ b) +:+ c = a +:+ (b +:+ c).
Proof. induction a as [|x a IH]; [done|]. exact (f_equal (String x) IH). Qed.

Lemma str_app_nil_r (a : string) : a +:+ EmptyString = a.
Proof. induction a as [|x a IH]; [done|]. exact (f_equal (String x) IH). Qed.

Lemma str_app_length (a b : string) :
  String.length (a +:+ b) = (String.length a + String.length b)%nat.
Proof. induction a as [|x a IH]; [done|]. exact (f_equal S IH). Qed.

(** ** Tactics *)

(** Invert a bind that returned normally, or a guard that passed. *)
Ltac inv_ok :=
  repeat match goal with
  | H : Ok _ = Ok _ |- _ => injection H as H; try subst
  | H : Throw _ = Ok _ |- _ => discriminate H
  | H : Ok _ = Throw _ |- _ => discriminate H
  | H : Some _ = Some _ |- _ => injection H as H; try subst
  | H : (_, _) = (_, _) |- _ => injection H as H; try subst
  | H : ensure ?c _ ≫= _ = Ok _ |- _ =>
      destruct c eqn:?; simpl in H; [|discriminate H]
  | H : (?m ≫= _) = Ok _ |- _ =>
      let a := fresh "a" in destruct m as [a|] eqn:?; simpl in H; [|discriminate H]
  end.

(** Turn boolean tests of the code into propositions. *)
Ltac to_prop :=
  repeat match goal with
  | H : andb _ _ = true |- _ => apply andb_true_iff in H; destruct H
  | H : orb _ _ = false |- _ => apply orb_false_iff in H; destruct H
  | H : negb _ = true |- _ => apply negb_true_iff in H
  | H : negb _ = false |- _ => apply negb_false_iff in H
  | H : bool_decide _ = true |- _ => apply bool_decide_eq_true in H
  | H : bool_decide _ = false |- _ => apply bool_decide_eq_false in H
  | H : Z.eqb _ _ = true |- _ => apply Z.eqb_eq in H
  | H : Z.eqb _ _ = false |- _ => apply Z.eqb_neq in H
  | H : Z.leb _ _ = true |- _ => apply Z.leb_le in H
  | H : Z.leb _ _ = false |- _ => apply Z.leb_gt in H
  | H : Z.ltb _ _ = true |- _ => apply Z.ltb_lt in H
  | H : Z.ltb _ _ = false |- _ => apply Z.ltb_ge in H
  end.

(** Split on the scrutinee of the outermost [match] or [if] of the goal. *)
Ltac split_match :=
  match goal with
  | |- context [match ?x with _ => _ end] =>
      lazymatch x with context [match _ with _ => _ end] => fail | _ => destruct x eqn:? end
  end.

(** Linear arithmetic with division and remainder. *)
Ltac zdiv := Z.to_euclidean_division_equations; lia.

Create HintDb kj discriminated.
Create Rewrite HintDb kj.

(** ** A JavaScript [Map]: insertion-ordered, one entry per key *)

Section jsmap.
Context {K V : Type} `{EqDecision K}.
Implicit Types (m : list (K * V)) (k : K) (v : V).

(** [map.get(k)] *)
Fixpoint map_get m k : option V :=
  match m with
  | [] => None
  | (k', v) :: m' => if bool_decide (k = k') then Some v else map_get m' k
  end.

(** [map.set(k, v)]: an existing key keeps its place. *)
Fixpoint map_set m k v : list (K * V) :=
  match m with
  | [] => [(k, v)]
  | (k', v') :: m' =>
      if bool_decide (k = k') then (k', v) :: m' else (k', v') :: map_set m' k v
  end.

(** [map.delete(k)] *)
Fixpoint map_delete m k : list (K * V) :=
  match m with
  | [] => []
  | (k', v') :: m' =>
      if bool_decide (k = k') then m' else (k', v') :: map_delete m' k
  end.

Definition map_has m k : bool := match map_get m k with Some _ => true | None => false end.
Definition map_values m : list V := m.*2.
Definition map_keys m : list K := m.*1.

Lemma map_get_set_eq m k v : map_get (map_set m k v) k = Some v.
Proof.
  induction m as [|[k' v'] m IH]; simpl; [by rewrite bool_decide_true|].
  case_bool_decide; subst; simpl.
  - by rewrite bool_decide_true.
  - by rewrite bool_decide_false.
Qed.

Lemma map_get_set_ne m k k' v : k ≠ k' → map_get (map_set m k v) k' = map_get m k'.
Proof.
  intros Hne. induction m as [|[j w] m IH]; simpl.
  - by rewrite bool_decide_false.
  - case_bool_decide; subst; simpl.
    + by rewrite !(bool_decide_false (k' = j)) by congruence.
    + by rewrite IH.
Qed.

Lemma map_get_set m k k' v :
  map_get (map_set m k v) k' = if bool_decide (k = k') then Some v else map_get m k'.
Proof.
  case_bool_decide; subst; [apply map_get_set_eq|by apply map_get_set_ne].
Qed.

Lemma map_get_elem m k v : map_get m k = Some v → (k, v) ∈ m.
Proof.
  induction m as [|[j w] m IH]; simpl; [done|].
  case_bool_decide; intros; simplify_eq; [left|right; auto].
Qed.

Lemma map_get_not_elem m k : map_get m k = None → k ∉ map_keys m.
Proof.
  induction m as [|[j w] m IH]; simpl; [intros _ Hin; by apply elem_of_nil in Hin|].
  case_bool_decide; [done|]. intros Hn [?|?]%elem_of_cons; [done|].
  by apply IH.
Qed.

Lemma map_elem_get m k v : NoDup (map_keys m) → (k, v) ∈ m → map_get m k = Some v.
Proof.
  induction m as [|[j w] m IH]; simpl; [by intros _ ?%elem_of_nil|].
  intros [Hj Hm]%NoDup_cons [?|?]%elem_of_cons; simplify_eq.
  - by rewrite bool_decide_true.
  - rewrite bool_decide_false; [by apply IH|].
    intros ->. apply Hj. apply list_elem_of_fmap. by exists (j, v).
Qed.

Lemma map_keys_set m k v :
  map_keys (map_set m k v) = if map_has m k then map_keys m else map_keys m ++ [k].
Proof.
  unfold map_has. induction m as [|[j w] m IH]; simpl; [done|].
  case_bool_decide; subst; simpl; [done|].
  rewrite IH. by destruct (map_get m k).
Qed.

Lemma map_set_NoDup m k v : NoDup (map_keys m) → NoDup (map_keys (map_set m k v)).
Proof.
  intros Hm. rewrite map_keys_set. unfold map_has.
  destruct (map_get m k) eqn:Hk; [done|].
  apply NoDup_app; split_and!; [done| |apply NoDup_singleton].
  intros x Hx ->%list_elem_of_singleton. by eapply map_get_not_elem.
Qed.

(** The entries of an updated map: the new one, and the old ones at other keys. *)
Lemma map_set_elem m k v j w :
  (j, w) ∈ map_set m k v → (j, w) = (k, v) ∨ (j, w) ∈ m.
Proof.
  induction m as [|[i x] m IH]; simpl; [by rewrite list_elem_of_singleton; left|].
  case_bool_decide; subst; rewrite !elem_of_cons; naive_solver.
Qed.

Lemma map_set_Forall (P : K * V → Prop) m k v :
  Forall P m → P (k, v) → Forall P (map_set m k v).
Proof.
  intros Hm Hk. apply Forall_forall. intros [j w] [->|Hin]%map_set_elem; [done|].
  by eapply Forall_forall in Hm.
Qed.

Lemma map_set_length m k v :
  length (map_set m k v) = if map_has m k then length m else S (length m).
Proof.
  unfold map_has. induction m as [|[j w] m IH]; simpl; [done|].
  case_bool_decide; subst; simpl; [done|]. rewrite IH. by destruct (map_get m k).
Qed.

Lemma map_get_delete_ne m k j : k ≠ j → map_get (map_delete m k) j = map_get m j.
Proof.
  intros Hne. induction m as [|[i x] m IH]; simpl; [done|].
  case_bool_decide; subst; simpl.
  - by rewrite (bool_decide_false (j = i)) by congruence.
  - by rewrite IH.
Qed.

Lemma map_get_delete_eq m k : NoDup (map_keys m) → map_get (map_delete m k) k = None.
Proof.
  induction m as [|[i x] m IH]; simpl; [done|]. intros [Hi Hm]%NoDup_cons.
  case_bool_decide; subst; simpl.
  - destruct (map_get m i) eqn:Hg; [|done].
    apply map_get_elem in Hg. exfalso. apply Hi. apply list_elem_of_fmap. by exists (i, v).
  - rewrite bool_decide_false by done. by apply IH.
Qed.
End jsmap.

#[export] Hint Rewrite @map_get_set_eq : kj.
#[export] Hint Resolve map_set_NoDup map_get_elem : kj.
#[export] Hint Rewrite @map_get_set_ne using congruence : kj.

(** The map seen as a finite map. *)
Section map_view.
Context {V : Type}.
Implicit Types (m : list (string * V)) (k : string) (v : V).

Lemma list_to_map_get m k : (list_to_map m : gmap string V) !! k = map_get m k.
Proof.
  induction m as [|[j w] m IH]; simpl; [done|]. case_bool_decide as Hk; subst.
  - by rewrite lookup_insert_eq.
  - by rewrite lookup_insert_ne.
Qed.

Lemma list_to_map_set m k v : list_to_map (map_set m k v) =@{gmap string V} <[k := v]> (list_to_map m).
Proof.
  apply map_eq. intros j. rewrite list_to_map_get, map_get_set, lookup_insert, list_to_map_get.
  by repeat case_decide || case_bool_decide.
Qed.
End map_view.

(** ** [Array.prototype.sort]: stable, driven by a comparison function *)

Section jssort.
Context {A : Type} (cmp : A → A → Z).

(** [x] precedes the elements of the sorted tail in the input, so it stays
    before those that compare equal. *)
Fixpoint sort_insert (x : A) (l : list A) : list A :=
  match l with
  | [] => [x]
  | y :: l' => if (cmp x y <=? 0)%Z then x :: y :: l' else y :: sort_insert x l'
  end.

Definition js_sort (l : list A) : list A := foldr sort_insert [] l.

Lemma sort_insert_perm x l : sort_insert x l ≡ₚ x :: l.
Proof.
  induction l as [|y l IH]; simpl; [done|].
  destruct (cmp x y <=? 0)%Z; [done|]. rewrite IH. by constructor.
Qed.

Lemma js_sort_perm l : js_sort l ≡ₚ l.
Proof.
  induction l as [|x l IH]; simpl; [done|]. by rewrite sort_insert_perm, IH.
Qed.

Lemma js_sort_length l : length (js_sort l) = length l.
Proof. apply Permutation_length, js_sort_perm. Qed.

Lemma js_sort_elem x l : x ∈ js_sort l ↔ x ∈ l.
Proof. by rewrite js_sort_perm. Qed.

Definition cmp_le (x y : A) : Prop := (cmp x y <= 0)%Z.

Hypothesis cmp_total : ∀ x y, (cmp x y <= 0 ∨ cmp y x <= 0)%Z.
Hypothesis cmp_trans : ∀ x y z, cmp_le x y → cmp_le y z → cmp_le x z.

Lemma sort_insert_sorted x l :
  StronglySorted cmp_le l → StronglySorted cmp_le (sort_insert x l).
Proof.
  induction l as [|y l IH]; simpl; intros Hs; [by repeat constructor|].
  apply StronglySorted_inv in Hs as [Hl Hy].
  destruct (Z.leb_spec (cmp x y) 0) as [Hle|Hgt].
  - constructor; [by constructor|]. constructor; [done|].
    eapply Forall_impl; [exact Hy|]. intros z Hz. by eapply cmp_trans.
  - constructor; [by apply IH|]. rewrite sort_insert_perm.
    constructor; [|done]. destruct (cmp_total x y); [lia|done].
Qed.

Lemma js_sort_sorted l : StronglySorted cmp_le (js_sort l).
Proof. induction l as [|x l IH]; simpl; [constructor|by apply sort_insert_sorted]. Qed.
End jssort.

(** Sorting by a numeric key, [(a, b) => key(a) - key(b)]. *)
Lemma js_sort_by_key_sorted {A} (key : A → Z) l :
  StronglySorted (λ a b, key a <= key b)%Z (js_sort (λ a b, key a - key b)%Z l).
Proof.
  pose proof (js_sort_sorted (λ a b, key a - key b)%Z
    ltac:(intros; lia) ltac:(unfold cmp_le; intros; lia) l) as Hs.
  induction Hs as [|x l' _ IH Hx]; constructor; [done|].
  eapply Forall_impl; [exact Hx|]. unfold cmp_le. intros; lia.
Qed.

(** Sorting depends on the comparisons of the list's own elements only. *)
Lemma sort_insert_ext {A} (c1 c2 : A → A → Z) x l :
  (∀ y, y ∈ l → (c1 x y <=? 0) = (c2 x y <=? 0))%Z → sort_insert c1 x l = sort_insert c2 x l.
Proof.
  induction l as [|y l IH]; intros H; [done|]. simpl. rewrite H by left.
  destruct (_ <=? _)%Z; [done|]. f_equal. apply IH. intros z Hz. apply H. by right.
Qed.

Lemma js_sort_ext {A} (c1 c2 : A → A → Z) l :
  (∀ x y, x ∈ l → y ∈ l → c1 x y = c2 x y) → js_sort c1 l = js_sort c2 l.
Proof.
  induction l as [|x l IH]; intros H; [done|]. simpl.
  rewrite IH by (intros y z Hy Hz; apply H; by right).
  apply sort_insert_ext. intros y Hy. rewrite H; [done|left|right]. by apply js_sort_elem in Hy.
Qed.

(** For a list without repetitions the comparison of an element with itself is never asked. *)
Lemma js_sort_ext_nodup {A} (c1 c2 : A → A → Z) l :
  NoDup l → (∀ x y, x ∈ l → y ∈ l → x ≠ y → (c1 x y <=? 0) = (c2 x y <=? 0))%Z → js_sort c1 l = js_sort c2 l.
Proof.
  induction l as [|x l IH]; intros Hl H; [done|]. apply NoDup_cons in Hl as [Hx Hl]. simpl.
  rewrite IH by (done || (intros y z Hy Hz; apply H; by right)).
  apply sort_insert_ext. intros y Hy. apply js_sort_elem in Hy. apply H; [left|by right|]. by intros ->.
Qed.

(** A symmetric relation between all the pairs of a list does not see its order. *)
Lemma ForallOrdPairs_perm {A} (R : A → A → Prop) l l' :
  (∀ x y, R x y → R y x) → l ≡ₚ l' → ForallOrdPairs R l → ForallOrdPairs R l'.
Proof.
  intros Hsym. induction 1 as [|x l l' Hp IH|x y l|l1 l2 l3 _ IH1 _ IH2]; intros H; [done| | |auto].
  - inversion H; subst. constructor; [by rewrite <- Hp|auto].
  - inversion H as [|? ? Hy Hl]; subst. inversion Hl as [|? ? Hx Hl']; subst. apply Forall_cons in Hy as [Hyx Hy].
    repeat constructor; auto.
Qed.

Lemma NoDup_map_inj {A B} (f : A → B) l x y :
  NoDup (map f l) → x ∈ l → y ∈ l → f x = f y → x = y.
Proof.
  induction l as [|z l IH]; simpl; [by intros _ ?%elem_of_nil|].
  intros [Hz Hl]%NoDup_cons [->|Hx]%elem_of_cons [->|Hy]%elem_of_cons Hf; [done| | |auto].
  - destruct Hz. rewrite Hf. by apply list_elem_of_fmap_2.
  - destruct Hz. rewrite <- Hf. by apply list_elem_of_fmap_2.
Qed.

(** ** [Array.prototype.filter] with a predicate *)

Lemma elem_of_filter_bool {A} (f : A → bool) l x : x ∈ List.filter f l ↔ x ∈ l ∧ f x = true.
Proof. by rewrite !list_elem_of_In, filter_In. Qed.

Lemma filter_map_NoDup {A B} (f : A → bool) (g : A → B) l :
  NoDup (map g l) → NoDup (map g (List.filter f l)).
Proof.
  induction l as [|x l IH]; simpl; [done|]. intros [Hx Hl]%NoDup_cons.
  destruct (f x); simpl; [|auto]. apply NoDup_cons. split; [|auto].
  intros (y & E & Hy)%list_elem_of_fmap. apply elem_of_filter_bool in Hy as [Hy _]. apply Hx.
  apply list_elem_of_fmap. by exists y.
Qed.
