(* ===== verification/JsNumber.v ===== *)
(** * JavaScript numbers

    A number is an IEEE 754 double.  Those that are integers are [Z]; the others are a dyadic
    fraction in lowest terms, or infinite ([NaN] and the sign of zero are in no JSON text).
    Reading rounds a decimal to the nearest double, ties to even; [Number::toString] writes the
    fewest digits that are read back. *)

From S2P Require Import Prelude.
Local Open Scope Z_scope.

(** [Dyadic m k] is m / 2^k, m odd and k > 0. *)
Inductive float := Dyadic (m : Z) (k : nat) | Infinite (negative : bool).

#[export] Instance float_eq_dec : EqDecision float.
Proof. solve_decision. Defined.

Inductive number := Int (n : Z) | Float (f : float).

#[export] Instance number_eq_dec : EqDecision number.
Proof. solve_decision. Defined.

(** ** Reading *)

(** The integer nearest to num / den, ties to even. *)
Definition nearest (num den : Z) : Z :=
  let q := num / den in
  match (2 * (num mod den) ?= den) with
  | Lt => q
  | Gt => q + 1
  | Eq => if Z.even q then q else q + 1
  end.

(** q / 2^k in lowest terms. *)
Fixpoint lowest (q : Z) (k : nat) : number :=
  match k with
  | O => Int q
  | S k' => if Z.even q then lowest (q / 2) k' else Float (Dyadic q k)
  end.

(** The double nearest to num / den, for num >= 0 and den > 0: 53 bits, the exponent at least
    -1074, and infinite from 2^1024. *)
Definition nearest_double (num den : Z) : number :=
  if num =? 0 then Int 0
  else
    let l := Z.log2 num - Z.log2 den in
    let below := if 0 <=? l then num <? den * 2 ^ l else num * 2 ^ (- l) <? den in
    let e := Z.max (-1074) (l - (if below then 53 else 52)) in
    if 0 <=? e then
      let n := nearest num (den * 2 ^ e) * 2 ^ e in
      if 2 ^ 1024 <=? n then Float (Infinite false) else Int n
    else lowest (nearest (num * 2 ^ (- e)) den) (Z.to_nat (- e)).

(** Up to here every integer is a double. *)
Definition exact_bound : Z := 9007199254740992.

(** The number of the text whose digits are [m] and whose exponent is [k], for m >= 0. *)
Definition of_decimal (m k : Z) : number :=
  if (k =? 0) && (m <=? exact_bound) then Int m
  else if 0 <=? k then nearest_double (m * 10 ^ k) 1 else nearest_double m (10 ^ (- k)).

Definition negate (x : number) : number :=
  match x with
  | Int n => Int (- n)
  | Float (Dyadic m k) => Float (Dyadic (- m) k)
  | Float (Infinite b) => Float (Infinite (negb b))
  end.

(** ** Writing *)

(** num / den < 10^n *)
Definition below_power (num den n : Z) : bool := if 0 <=? n then num <? den * 10 ^ n else num * 10 ^ (- n) <? den.

(** The least n with num / den < 10^n: it is near the binary logarithm times log 2. *)
Definition magnitude (num den : Z) : Z :=
  default 0 (List.find (below_power num den) (seqZ ((Z.log2 num - Z.log2 den) * 30103 / 100000 - 1) 5)).

(** The integers around (num / den) / 10^t, the nearer first. *)
Definition around (num den t : Z) : list Z :=
  let '(a, b) := if 0 <=? t then (num, den * 10 ^ t) else (num * 10 ^ (- t), den) in
  let q := nearest a b in
  [q; if q * b <=? a then q + 1 else q - 1].

(** The digits and the exponent n of the value 0.digits * 10^n: the fewest digits, at least [k],
    that read back as [x], which is num / den; seventeen are enough. *)
Fixpoint digits_from (fuel : nat) (x : number) (num den n k : Z) : option (string * Z) :=
  match fuel with
  | O => None
  | S fuel' =>
      match List.find (λ s, (0 <? s) && bool_decide (of_decimal s (n - k) = x)) (around num den (n - k)) with
      | Some s => Some (if s =? 10 ^ k then (pretty 1, n + 1) else (pretty s, n))
      | None => digits_from fuel' x num den n (k + 1)
      end
  end.

Definition shortest (x : number) (num den : Z) : option (string * Z) := digits_from 17 x num den (magnitude num den) 1.

Definition zeros (n : Z) : string := String.string_of_list_ascii (repeat "0"%char (Z.to_nat n)).

(** [Number::toString] of a positive number from its digits. *)
Definition decimal_text (digits : string) (n : Z) : string :=
  let k := Z.of_nat (String.length digits) in
  let part a b := String.substring (Z.to_nat a) (Z.to_nat (b - a)) digits in
  if (k <=? n) && (n <=? 21) then digits +:+ zeros (n - k)
  else if (0 <? n) && (n <=? 21) then part 0 n +:+ "." +:+ part n k
  else if (-6 <? n) && (n <=? 0) then "0." +:+ zeros (- n) +:+ digits
  else part 0 1 +:+ (if k =? 1 then EmptyString else "." +:+ part 1 k) +:+ (if 0 <? n - 1 then "e+" else "e-") +:+ pretty (Z.abs (n - 1)).

Definition positive_text (x : number) (num den : Z) : string :=
  match shortest x num den with Some (digits, n) => decimal_text digits n | None => EmptyString end.

Definition signed (m : Z) (text : string) : string := if m <? 0 then "-" +:+ text else text.

Definition int_text (n : Z) : string :=
  if Z.abs n <=? exact_bound then pretty n else signed n (positive_text (Int (Z.abs n)) (Z.abs n) 1).

Definition float_text (f : float) : string :=
  match f with
  | Dyadic m k => signed m (positive_text (Float (Dyadic (Z.abs m) k)) (Z.abs m) (2 ^ Z.of_nat k))
  | Infinite b => if b then "-Infinity" else "Infinity"
  end.

(** ** Comparisons *)

(** [x <= n] for an integer n. *)
Definition number_leb (x : number) (n : Z) : bool :=
  match x with
  | Int m => m <=? n
  | Float (Dyadic m k) => m <=? n * 2 ^ Z.of_nat k
  | Float (Infinite b) => b
  end.

(** [x >= 0] *)
Definition nonnegative (x : number) : bool :=
  match x with Int n => 0 <=? n | Float (Dyadic m _) => 0 <=? m | Float (Infinite b) => negb b end.

Definition finite (x : number) : bool := match x with Float (Infinite _) => false | _ => true end.

Definition text_of (m k : Z) : string := match of_decimal m k with Int n => int_text n | Float f => float_text f end.

(** What node writes for these literals. *)
Example texts_of_doubles :
  map (λ mk, text_of mk.1 mk.2)
    [(1, -1); (30000000000000004, -17); (5, 20); (1, 21); (5, -7); (123456, -3); (15, -1); (10, -1); (1152921504606846976, 0);
     (9007199254740993, 0); (1000000000000000055511151231257827, -34); (5, -324); (1, 400); (2, -324); (123, -8)]
  = ["0.1"; "0.30000000000000004"; "500000000000000000000"; "1e+21"; "5e-7"; "123.456"; "1.5"; "1"; "1152921504606847000";
     "9007199254740992"; "0.1"; "5e-324"; "Infinity"; "0"; "0.00000123"].
Proof. vm_compute. reflexivity. Qed.

(** An integer small enough is written with all its digits. *)
Lemma int_text_exact n : Z.abs n ≤ exact_bound → int_text n = pretty n.
Proof. intros H. unfold int_text. by rewrite (proj2 (Z.leb_le _ _) H). Qed.

Lemma of_decimal_exact m : m ≤ exact_bound → of_decimal m 0 = Int m.
Proof. intros H. unfold of_decimal. by rewrite (proj2 (Z.leb_le _ _) H). Qed.

(** ** Reading an integer *)

Lemma nearest_exact n den : 0 < den → nearest (n * den) den = n.
Proof.
  intros H. unfold nearest. rewrite Z.div_mul, Z.mod_mul by lia.
  by rewrite (proj2 (Z.compare_lt_iff (2 * 0) den) H).
Qed.

Lemma nearest_above num den : num / den ≤ nearest num den.
Proof. unfold nearest. destruct (_ ?= _); [destruct (Z.even _)|..]; lia. Qed.

Lemma lowest_exact m k : lowest (m * 2 ^ Z.of_nat k) k = Int m.
Proof.
  induction k as [|k IH]; [by rewrite Z.mul_1_r|]. cbn [lowest].
  assert (m * 2 ^ Z.of_nat (S k) = m * 2 ^ Z.of_nat k * 2) as -> by (rewrite Nat2Z.inj_succ, Z.pow_succ_r by lia; ring).
  by rewrite Z.div_mul, Z.even_mul, orb_true_r.
Qed.

(** An integer below 2^53 is read exactly, however many zeros follow its point. *)
Lemma nearest_double_exact m den : 0 ≤ m < 2 ^ 53 → 0 < den → nearest_double (m * den) den = Int m.
Proof.
  intros Hm Hd. unfold nearest_double. destruct (m * den =? 0) eqn:H0; [f_equal; nia|]. apply Z.eqb_neq in H0.
  set (l := Z.log2 (m * den) - Z.log2 den). set (below := if 0 <=? l then _ else _). set (e := Z.max _ _).
  assert (He : e ≤ 0).
  { assert (l ≤ Z.log2 m + 1) as Hl by (subst l; pose proof (Z.log2_mul_above m den); lia).
    assert (Z.log2 m < 53) as H53 by (apply Z.log2_lt_pow2; nia).
    destruct below eqn:Hb; [subst e; lia|]. subst below. destruct (0 <=? l) eqn:Hp; [|subst e; lia].
    apply Z.ltb_ge in Hb. apply Z.leb_le in Hp. assert (2 ^ l < 2 ^ 53) by nia.
    apply Z.pow_lt_mono_r_iff in H; subst e; lia. }
  clearbody e. clear below l. destruct (0 <=? e) eqn:Hz.
  - assert (e = 0) as -> by lia. rewrite Z.pow_0_r, !Z.mul_1_r, nearest_exact by done.
    rewrite (proj2 (Z.leb_gt _ _)); [done|]. transitivity (2 ^ 53); [lia|by apply Z.pow_lt_mono_r].
  - replace (m * den * 2 ^ (- e)) with (m * 2 ^ (- e) * den) by ring. rewrite nearest_exact by done.
    assert (2 ^ (- e) = 2 ^ Z.of_nat (Z.to_nat (- e))) as -> by (f_equal; lia). by rewrite lowest_exact.
Qed.

(** A larger integer is read as an integer at least as large as 2^53, or as infinite. *)
Lemma nearest_double_large m : exact_bound < m →
  match nearest_double m 1 with Int n => exact_bound ≤ n | Float f => f = Infinite false end.
Proof.
  intros Hm. unfold nearest_double. destruct (m =? 0) eqn:H0; [unfold exact_bound in Hm; lia|].
  rewrite (eq_refl : Z.log2 1 = 0), Z.sub_0_r. pose proof (Z.log2_spec m ltac:(unfold exact_bound in Hm; lia)) as [Hlo Hhi].
  assert (53 ≤ Z.log2 m) as H53 by (apply Z.log2_le_pow2; unfold exact_bound in *; lia).
  rewrite (proj2 (Z.leb_le 0 (Z.log2 m))) by lia. rewrite (proj2 (Z.ltb_ge m (1 * 2 ^ Z.log2 m))) by lia.
  rewrite Z.max_r, (proj2 (Z.leb_le 0 (Z.log2 m - 52))) by lia. rewrite Z.mul_1_l.
  set (e := Z.log2 m - 52). assert (2 ^ Z.log2 m = 2 ^ 52 * 2 ^ e) as Hl by (rewrite <- Z.pow_add_r by lia; f_equal; lia).
  assert (0 < 2 ^ e) by (apply Z.pow_pos_nonneg; lia).
  assert (2 ^ 52 ≤ m / 2 ^ e) by (apply Z.div_le_lower_bound; lia).
  pose proof (nearest_above m (2 ^ e)). destruct (_ <=? _); [done|]. unfold exact_bound.
  assert (2 ^ 1 ≤ 2 ^ e) by (apply Z.pow_le_mono_r; lia). nia.
Qed.
