(* ===== verification/JsDate.v ===== *)
(** * The JavaScript [Date] operations the program uses

    Instants are milliseconds since the Unix epoch, as integers ([Date]'s time
    value).  [Date.UTC], the UTC getters, [toISOString] and [Date.parse] are
    written out over the proleptic Gregorian calendar of ECMA-262; the last two
    are inverse on the years 0000-9999, and there the order of the ISO strings
    is the order of the instants (the code compares such strings with [<=]). *)

From S2P Require Import Prelude.
Local Open Scope Z_scope.

Definition msPerDay : Z := 86400000.

(** ** Calendar arithmetic *)

(** The day [doe] of a 400-year era, from the year [yoe] of the era and the day
    [doy] of that year, years starting in March; and the year back. *)
Definition doe_of (yoe doy : Z) : Z := yoe * 365 + yoe / 4 - yoe / 100 + doy.
Definition yoe_of (doe : Z) : Z := (doe - doe / 1460 + doe / 36524 - doe / 146096) / 365.

(** Days from 1970-01-01 to the given civil date.  [d] may lie outside the
    month: ECMA's MakeDay is linear in the day. *)
Definition days_from_civil (y m d : Z) : Z :=
  let y' := if m <=? 2 then y - 1 else y in
  let doy := (153 * ((m + 9) mod 12) + 2) / 5 + d - 1 in
  y' / 400 * 146097 + doe_of (y' mod 400) doy - 719468.

Definition civil_from_days (z : Z) : Z * Z * Z :=
  let doe := (z + 719468) mod 146097 in
  let yoe := yoe_of doe in
  let doy := doe - doe_of yoe 0 in
  let mp := (5 * doy + 2) / 153 in
  let d := doy - (153 * mp + 2) / 5 + 1 in
  let m := if mp <? 10 then mp + 3 else mp - 9 in
  (yoe + (z + 719468) / 146097 * 400 + (if m <=? 2 then 1 else 0), m, d).

Definition is_leap (y : Z) : bool :=
  (y mod 4 =? 0) && (negb (y mod 100 =? 0) || (y mod 400 =? 0)).

Definition days_in_month (y m : Z) : Z :=
  if m =? 2 then (if is_leap y then 29 else 28)
  else if (m =? 4) || (m =? 6) || (m =? 9) || (m =? 11) then 30 else 31.

Definition valid_civil (y m d : Z) : Prop :=
  1 <= m <= 12 ∧ 1 <= d <= days_in_month y m.

(** Both directions go through the year that starts in March: [yoe] is the year
    of the 400-year era and [doy] the day of that year. *)
Definition era_day (yoe doy : Z) : Prop :=
  0 <= yoe < 400 ∧ 0 <= doy < 366 ∧
  (doy = 365 → yoe = 399 ∨ yoe mod 4 = 3 ∧ yoe mod 100 <> 99).

(** A year of the era as century, four-year cycle and year of the cycle. *)
Lemma yoe_split yoe :
  0 <= yoe < 400 →
  ∃ c q r, yoe = 100 * c + 4 * q + r ∧ 0 <= c < 4 ∧ 0 <= q < 25 ∧ 0 <= r < 4 ∧
    yoe / 4 = 25 * c + q ∧ yoe / 100 = c ∧ yoe mod 4 = r ∧ yoe mod 100 = 4 * q + r.
Proof.
  intros Hy. exists (yoe / 100), (yoe mod 100 / 4), (yoe mod 4).
  zdiv.
Qed.

Lemma yoe_of_doe yoe doy :
  era_day yoe doy →
  0 <= doe_of yoe doy < 146097 ∧ yoe_of (doe_of yoe doy) = yoe.
Proof.
  intros (Hy & Hd & Hleap). unfold yoe_of, doe_of.
  destruct (yoe_split yoe Hy) as (c & q & r & -> & Hc & Hq & Hr & E4 & E100 & Em4 & Em100).
  rewrite E4, E100. rewrite Em4, Em100 in Hleap. clear E4 E100 Em4 Em100 Hy.
  set (doe := (100 * c + 4 * q + r) * 365 + (25 * c + q) - c + doy).
  assert (Hx : doe / 1460 = 25 * c + q + (24 * c + q + 365 * r + doy) / 1460).
  { subst doe. rewrite <- Z.div_add_l by lia. f_equal. lia. }
  assert (Hdoe : doe = 36524 * c + 1461 * q + 365 * r + doy) by (subst doe; lia).
  assert (Hlast : doe / 36524 - doe / 146096 = c).
  { clear Hx. zdiv. }
  split; [lia|].
  symmetry.
  apply Z.div_unique_pos with (r := doy - (24 * c + q + 365 * r + doy) / 1460); [|lia].
  clear Hx Hlast Hdoe. clearbody doe. zdiv.
Qed.

Lemma doe_split doe :
  0 <= doe < 146097 → ∃ yoe doy, era_day yoe doy ∧ doe = doe_of yoe doy.
Proof.
  intros Hd.
  pose (c := Z.min 3 (doe / 36524)). pose (q := (doe - 36524 * c) / 1461).
  pose (r := Z.min 3 ((doe - 36524 * c - 1461 * q) / 365)).
  assert (Hc : 0 <= c < 4 ∧ 0 <= doe - 36524 * c ∧ (c < 3 → doe - 36524 * c < 36524) ∧
    doe - 36524 * c <= 36524) by (subst c; zdiv).
  assert (Hq : 0 <= q < 25 ∧ 0 <= doe - 36524 * c - 1461 * q < 1461)
    by (subst q; clearbody c; zdiv).
  clearbody c q.
  assert (Hr : 0 <= r < 4 ∧ 0 <= doe - 36524 * c - 1461 * q - 365 * r < 366 ∧
    (r < 3 → doe - 36524 * c - 1461 * q - 365 * r < 365))
    by (subst r; zdiv).
  clearbody r. exists (100 * c + 4 * q + r), (doe - 36524 * c - 1461 * q - 365 * r).
  assert (Hy : 0 <= 100 * c + 4 * q + r < 400) by lia.
  unfold era_day, doe_of. split; [|zdiv].
  split_and!; try lia. intros Heq. zdiv.
Qed.

Lemma yoe_of_bounds doe :
  0 <= doe < 146097 → era_day (yoe_of doe) (doe - doe_of (yoe_of doe) 0).
Proof.
  intros (yoe & doy & He & ->)%doe_split.
  destruct (yoe_of_doe yoe doy He) as [_ ->].
  unfold doe_of. replace (_ - _) with doy by lia. done.
Qed.

(** The day of the March-based year, by month. *)
Lemma month_cases (m : Z) (P : Z → Prop) :
  P 1 → P 2 → P 3 → P 4 → P 5 → P 6 → P 7 → P 8 → P 9 → P 10 → P 11 → P 12 →
  1 <= m <= 12 → P m.
Proof.
  intros. assert (Hm : m = 1 ∨ m = 2 ∨ m = 3 ∨ m = 4 ∨ m = 5 ∨ m = 6 ∨ m = 7 ∨ m = 8
    ∨ m = 9 ∨ m = 10 ∨ m = 11 ∨ m = 12) by lia.
  repeat (destruct Hm as [->|Hm]; [assumption|]). by subst m.
Qed.

Lemma is_leap_spec y :
  is_leap y = true ↔ y mod 4 = 0 ∧ (y mod 100 <> 0 ∨ y mod 400 = 0).
Proof.
  unfold is_leap.
  destruct (Z.eqb_spec (y mod 4) 0), (Z.eqb_spec (y mod 100) 0), (Z.eqb_spec (y mod 400) 0);
    simpl; split; intros; try done; lia.
Qed.

(** The day of the year and the month arithmetic invert each other. *)
Definition doy_of (m d : Z) : Z := (153 * ((m + 9) mod 12) + 2) / 5 + d - 1.

Lemma month_of_doy y m d :
  valid_civil y m d →
  let doy := doy_of m d in
  0 <= doy < 366 ∧ (doy = 365 → m = 2 ∧ is_leap y = true) ∧
  let mp := (5 * doy + 2) / 153 in
  (if mp <? 10 then mp + 3 else mp - 9) = m ∧ doy - (153 * mp + 2) / 5 + 1 = d.
Proof.
  unfold valid_civil, days_in_month. intros [Hm Hd].
  assert (Hl : 28 <= (if is_leap y then 29 else 28) <= 29) by (destruct (is_leap y); lia).
  assert (Hl' : (if is_leap y then 29 else 28) = 29 → is_leap y = true) by (by destruct (is_leap y)).
  revert Hd Hl Hl'. unfold doy_of.
  generalize (is_leap y) as lp. intros lp. generalize (if lp then 29 else 28).
  intros feb. cbv zeta. pattern m. apply month_cases; [..|exact Hm]; intros Hd Hl Hl'; simpl in Hd;
    repeat match goal with |- context [(153 * ((?k + 9) mod 12) + 2) / 5] =>
      let v := eval vm_compute in ((153 * ((k + 9) mod 12) + 2) / 5) in
      change ((153 * ((k + 9) mod 12) + 2) / 5) with v end;
    match goal with |- context [_ - (153 * ?e + 2) / 5 + 1 = _ ] =>
      match goal with |- context [_ → ?k = 2 ∧ _] =>
        let v := eval vm_compute in ((k + 9) mod 12) in replace e with v by zdiv end end;
    (split; [lia|]); (split; [intros; split; [lia|apply Hl'; lia]|]); (split; [done|zdiv]).
Qed.

Lemma doy_month doy :
  0 <= doy < 366 →
  let mp := (5 * doy + 2) / 153 in
  let m := if mp <? 10 then mp + 3 else mp - 9 in
  let d := doy - (153 * mp + 2) / 5 + 1 in
  1 <= m <= 12 ∧ doy_of m d = doy ∧
  1 <= d <= (if m =? 2 then 29 else if (m =? 4) || (m =? 6) || (m =? 9) || (m =? 11) then 30 else 31) ∧
  (m = 2 → d = 29 → doy = 365).
Proof.
  intros Hd mp. subst mp.
  assert (Hmp : 0 <= (5 * doy + 2) / 153 < 12) by (zdiv).
  assert (Hdoy : 153 * ((5 * doy + 2) / 153) <= 5 * doy + 2 < 153 * ((5 * doy + 2) / 153) + 153)
    by (zdiv).
  revert Hmp Hdoy. generalize ((5 * doy + 2) / 153). intros mp Hmp.
  assert (Hk : mp = 12 - 12 ∨ 1 <= mp <= 12) by lia.
  destruct Hk as [->|Hk]; [|revert Hmp; pattern mp; apply month_cases; [..|exact Hk]; intros Hmp];
    unfold doy_of; simpl; intros Hdoy; try lia;
    split_and!; zdiv.
Qed.

Lemma civil_from_days_from_civil y m d :
  valid_civil y m d → civil_from_days (days_from_civil y m d) = (y, m, d).
Proof.
  intros Hv. destruct (month_of_doy y m d Hv) as (Hdoy & Hleap & Hm & Hd).
  unfold days_from_civil, civil_from_days. fold (doy_of m d).
  set (y' := if m <=? 2 then y - 1 else y).
  assert (He : era_day (y' mod 400) (doy_of m d)).
  { split; [apply Z.mod_pos_bound; lia|]. split; [exact Hdoy|].
    intros Heq. destruct (Hleap Heq) as [-> Hl%is_leap_spec].
    subst y'. simpl. clear -Hl. zdiv. }
  destruct (yoe_of_doe _ _ He) as [Hb Hy].
  replace (y' / 400 * 146097 + doe_of (y' mod 400) (doy_of m d) - 719468 + 719468)
    with (y' / 400 * 146097 + doe_of (y' mod 400) (doy_of m d)) by lia.
  rewrite (Z.add_comm (_ * _)), Z.mod_add, Z.mod_small, Hy by lia.
  rewrite Z.div_add, Z.div_small by lia.
  replace (doe_of (y' mod 400) (doy_of m d) - doe_of (y' mod 400) 0)
    with (doy_of m d) by (unfold doe_of; lia).
  rewrite Hm, Hd. f_equal. f_equal.
  assert (y' = y' mod 400 + y' / 400 * 400) by (pose proof (Z.div_mod y' 400); lia).
  subst y'. destruct (m <=? 2); lia.
Qed.

Lemma civil_from_days_spec z y m d :
  civil_from_days z = (y, m, d) → valid_civil y m d ∧ days_from_civil y m d = z.
Proof.
  unfold civil_from_days.
  set (doe := (z + 719468) mod 146097). set (era := (z + 719468) / 146097).
  assert (Hdoe : 0 <= doe < 146097) by (subst doe; apply Z.mod_pos_bound; lia).
  destruct (yoe_of_bounds doe Hdoe) as (Hy & Hdoy & Hleap).
  set (yoe := yoe_of doe) in *. set (doy := doe - doe_of yoe 0) in *.
  destruct (doy_month doy Hdoy) as (Hm & Hdoyof & Hd & H29).
  intros [= Ey Em Ed].
  assert (Hz : z = era * 146097 + doe - 719468) by (subst era doe; pose proof (Z.div_mod (z + 719468) 146097); lia).
  rewrite Em, Ed in Hd, Hdoyof, H29. rewrite Em in Hm, Ey.
  assert (Hy' : (if m <=? 2 then y - 1 else y) = yoe + era * 400)
    by (destruct (m <=? 2); lia).
  split.
  - split; [lia|]. unfold days_in_month. destruct (Z.eqb_spec m 2) as [->|]; [|lia].
    destruct (is_leap y) eqn:El; [lia|].
    assert (d <> 29); [|lia]. intros ->.
    specialize (H29 eq_refl eq_refl). specialize (Hleap H29). simpl in Hy'.
    assert (is_leap y = true); [|congruence]. apply is_leap_spec.
    clear -Hy' Hleap Hy. zdiv.
  - unfold days_from_civil. fold (doy_of m d). rewrite Hy', Hdoyof.
    rewrite Z.div_add, Z.mod_add, Z.div_small, Z.mod_small by lia.
    subst doy. unfold doe_of in *. lia.
Qed.

(** ** The calendar order is the order of day numbers *)

Definition lex (c d : comparison) : comparison := match c with Eq => d | _ => c end.

Definition civil_cmp (a b : Z * Z * Z) : comparison :=
  let '(y1, m1, d1) := a in
  let '(y2, m2, d2) := b in
  lex (y1 ?= y2) (lex (m1 ?= m2) (d1 ?= d2)).

(** Days before 1 March of year [y] (shifted): leap days counted by division. *)
Definition march (y : Z) : Z := 365 * y + y / 4 - y / 100 + y / 400.

Lemma days_from_civil_march y m d :
  days_from_civil y m d =
  (if m <=? 2 then march (y - 1) else march y) + doy_of m d - 719468.
Proof.
  unfold days_from_civil. fold (doy_of m d). generalize (doy_of m d). intros doy.
  destruct (m <=? 2); unfold march, doe_of; zdiv.
Qed.

Lemma march_step y : march y - march (y - 1) = if is_leap y then 366 else 365.
Proof.
  unfold march. destruct (is_leap y) eqn:E.
  - apply is_leap_spec in E. zdiv.
  - assert (y mod 4 <> 0 ∨ (y mod 100 = 0 ∧ y mod 400 <> 0)).
    { destruct (decide (y mod 4 = 0)), (decide (y mod 100 = 0)), (decide (y mod 400 = 0));
        try (left; done); try (right; done);
        exfalso; assert (is_leap y = true) by (apply is_leap_spec; tauto); congruence. }
    zdiv.
Qed.

Lemma march_mono y1 y2 : y1 <= y2 → march y1 + 365 * (y2 - y1) <= march y2.
Proof. intros. unfold march. zdiv. Qed.

Definition doy_table (m : Z) : Z :=
  if m =? 1 then 306 else if m =? 2 then 337 else if m =? 3 then 0 else if m =? 4 then 31
  else if m =? 5 then 61 else if m =? 6 then 92 else if m =? 7 then 122 else if m =? 8 then 153
  else if m =? 9 then 184 else if m =? 10 then 214 else if m =? 11 then 245 else 275.

Lemma doy_of_table m d : 1 <= m <= 12 → doy_of m d = doy_table m + d - 1.
Proof.
  intros Hm. unfold doy_of. pattern m. by apply month_cases.
Qed.

Lemma days_lt_next_year y m d :
  valid_civil y m d →
  march (y - 1) + 306 <= days_from_civil y m d + 719468 < march y + 306.
Proof.
  intros [Hm Hd]. rewrite days_from_civil_march, doy_of_table by done.
  pose proof (march_step y) as Hs. unfold days_in_month in Hd. revert Hd.
  pattern m. apply month_cases; [..|exact Hm]; unfold doy_table; simpl;
    destruct (is_leap y); lia.
Qed.

Lemma days_month_lt y m1 d1 m2 d2 :
  valid_civil y m1 d1 → valid_civil y m2 d2 → m1 < m2 →
  days_from_civil y m1 d1 < days_from_civil y m2 d2.
Proof.
  intros [Hm1 Hd1] [Hm2 Hd2].
  rewrite !days_from_civil_march, !doy_of_table by done.
  pose proof (march_step y) as Hs. unfold days_in_month in *. revert Hd1 Hd2 Hs.
  generalize (march y), (march (y - 1)), (is_leap y). intros A B l.
  pattern m1. apply month_cases; [..|exact Hm1]; intros Hd1; 
    pattern m2; (apply month_cases; [..|exact Hm2]); unfold doy_table; simpl in *;
    intros; try lia; destruct l; lia.
Qed.

Lemma days_from_civil_lt y1 m1 d1 y2 m2 d2 :
  valid_civil y1 m1 d1 → valid_civil y2 m2 d2 →
  civil_cmp (y1, m1, d1) (y2, m2, d2) = Lt →
  days_from_civil y1 m1 d1 < days_from_civil y2 m2 d2.
Proof.
  intros Hv1 Hv2. unfold civil_cmp, lex.
  destruct (Z.compare_spec y1 y2) as [<-|Hy|Hy]; [|intros _|done].
  - destruct (Z.compare_spec m1 m2) as [<-|Hm|Hm]; [|intros _|done].
    + intros Hd. rewrite Z.compare_lt_iff in Hd. rewrite !days_from_civil_march. unfold doy_of.
      generalize ((153 * ((m1 + 9) mod 12) + 2) / 5). intros. destruct (m1 <=? 2); lia.
    + by apply days_month_lt.
  - pose proof (days_lt_next_year _ _ _ Hv1). pose proof (days_lt_next_year _ _ _ Hv2).
    pose proof (march_mono y1 (y2 - 1)). lia.
Qed.

Lemma civil_cmp_antisym a b : civil_cmp b a = CompOpp (civil_cmp a b).
Proof.
  destruct a as [[y1 m1] d1], b as [[y2 m2] d2]. unfold civil_cmp, lex.
  rewrite (Z.compare_antisym y1), (Z.compare_antisym m1), (Z.compare_antisym d1).
  by destruct (y1 ?= y2), (m1 ?= m2), (d1 ?= d2).
Qed.

Lemma civil_from_days_cmp z1 z2 :
  civil_cmp (civil_from_days z1) (civil_from_days z2) = (z1 ?= z2).
Proof.
  destruct (civil_from_days z1) as [[y1 m1] d1] eqn:E1.
  destruct (civil_from_days z2) as [[y2 m2] d2] eqn:E2.
  destruct (civil_from_days_spec _ _ _ _ E1) as [Hv1 H1].
  destruct (civil_from_days_spec _ _ _ _ E2) as [Hv2 H2]. subst z1 z2.
  destruct (civil_cmp _ _) eqn:Ec.
  - unfold civil_cmp, lex in Ec.
    destruct (Z.compare_spec y1 y2), (Z.compare_spec m1 m2), (Z.compare_spec d1 d2);
      simplify_eq. symmetry. apply Z.compare_refl.
  - symmetry. apply Z.compare_lt_iff. by apply days_from_civil_lt.
  - symmetry. apply Z.compare_gt_iff. apply days_from_civil_lt; [done..|].
    by rewrite civil_cmp_antisym, Ec.
Qed.

(** ** Fixed-width decimal fields *)

Definition digit_char (n : Z) : ascii := Ascii.ascii_of_N (Z.to_N (48 + n)).

Definition char_digit (c : ascii) : option Z :=
  let n := Z.of_N (Ascii.N_of_ascii c) in
  if (48 <=? n) && (n <=? 57) then Some (n - 48) else None.

(** The [w] low decimal digits of [n]. *)
Fixpoint digits (w : nat) (n : Z) : string :=
  match w with
  | O => EmptyString
  | S w' => String (digit_char (n / 10 ^ Z.of_nat w' mod 10)) (digits w' n)
  end.

Fixpoint read_digits (w : nat) (acc : Z) (s : string) : option (Z * string) :=
  match w with
  | O => Some (acc, s)
  | S w' =>
      match s with
      | String c s' => d ← char_digit c; read_digits w' (acc * 10 + d) s'
      | EmptyString => None
      end
  end.

Definition expect (c : ascii) (s : string) : option string :=
  match s with
  | String c' s' => if bool_decide (c = c') then Some s' else None
  | EmptyString => None
  end.

Lemma digit_range d : 0 <= d < 10 →
  d = 0 ∨ d = 1 ∨ d = 2 ∨ d = 3 ∨ d = 4 ∨ d = 5 ∨ d = 6 ∨ d = 7 ∨ d = 8 ∨ d = 9.
Proof. lia. Qed.

Lemma char_digit_char d : 0 <= d < 10 → char_digit (digit_char d) = Some d.
Proof.
  intros Hd%digit_range. repeat destruct Hd as [->|Hd]; subst; reflexivity.
Qed.

Lemma append_cons c s r : String c s +:+ r = String c (s +:+ r).
Proof. reflexivity. Qed.

Lemma read_digits_digits w : ∀ acc n r,
  read_digits w acc (digits w n +:+ r) =
  Some (acc * 10 ^ Z.of_nat w + n mod 10 ^ Z.of_nat w, r).
Proof.
  induction w as [|w IH]; intros acc n r.
  { simpl. rewrite Z.mod_1_r. do 2 f_equal. lia. }
  cbn [digits read_digits]. rewrite append_cons.
  rewrite char_digit_char by (apply Z.mod_pos_bound; lia). cbn [mbind option_bind].
  rewrite IH, Nat2Z.inj_succ, Z.pow_succ_r by lia.
  rewrite (Z.mul_comm 10 (10 ^ Z.of_nat w)), Z.rem_mul_r by lia.
  do 2 f_equal. ring.
Qed.

(** Lexicographic comparison of strings of equal-width fields. *)
Lemma string_compare_cons c s d t :
  String.compare (String c s) (String d t) =
  lex (Ascii.compare c d) (String.compare s t).
Proof. simpl. by destruct (Ascii.compare c d). Qed.

Lemma string_compare_char c s t :
  String.compare (String c s) (String c t) = String.compare s t.
Proof.
  rewrite string_compare_cons. unfold Ascii.compare. by rewrite N.compare_refl.
Qed.

Lemma digit_char_compare d e :
  0 <= d < 10 → 0 <= e < 10 → Ascii.compare (digit_char d) (digit_char e) = (d ?= e).
Proof.
  intros Hd%digit_range He%digit_range.
  repeat destruct Hd as [->|Hd]; subst; repeat destruct He as [->|He]; subst; reflexivity.
Qed.

Lemma digits_compare w : ∀ n m r s,
  String.compare (digits w n +:+ r) (digits w m +:+ s) =
  lex (n mod 10 ^ Z.of_nat w ?= m mod 10 ^ Z.of_nat w) (String.compare r s).
Proof.
  induction w as [|w IH]; intros n m r s.
  { cbn. by rewrite !Z.mod_1_r. }
  cbn [digits]. rewrite !append_cons.
  rewrite string_compare_cons, IH, digit_char_compare by (apply Z.mod_pos_bound; lia).
  rewrite Nat2Z.inj_succ, Z.pow_succ_r, (Z.mul_comm 10) by lia.
  rewrite !Z.rem_mul_r by lia.
  set (B := 10 ^ Z.of_nat w). assert (HB : 0 < B) by (apply Z.pow_pos_nonneg; lia).
  pose proof (Z.mod_pos_bound n B HB). pose proof (Z.mod_pos_bound m B HB).
  revert H H0. generalize (n mod B), (m mod B), (n / B mod 10), (m / B mod 10).
  intros a b p q Ha Hb. unfold lex.
  destruct (Z.compare_spec p q) as [<-|Hlt|Hgt].
  - destruct (Z.compare_spec a b) as [<-|Hlt|Hgt].
    + by rewrite Z.compare_refl.
    + rewrite (proj2 (Z.compare_lt_iff _ _)) by lia. done.
    + rewrite (proj2 (Z.compare_gt_iff _ _)) by lia. done.
  - rewrite (proj2 (Z.compare_lt_iff _ _)) by nia. done.
  - rewrite (proj2 (Z.compare_gt_iff _ _)) by nia. done.
Qed.

(** ** [toISOString] and [Date.parse] *)

(** [YYYY-MM-DDTHH:mm:ss.sssZ], with a signed six-digit year outside 0-9999. *)
Definition iso_year (y : Z) : string :=
  if (0 <=? y) && (y <=? 9999) then digits 4 y
  else String (if y <? 0 then "-"%char else "+"%char) (digits 6 (Z.abs y)).

Definition toISOString (t : Z) : string :=
  let '(y, m, d) := civil_from_days (t / msPerDay) in
  let ms := t mod msPerDay in
  iso_year y +:+ String "-" (digits 2 m +:+ String "-" (digits 2 d +:+
  String "T" (digits 2 (ms / 3600000) +:+ String ":" (digits 2 (ms / 60000 mod 60) +:+
  String ":" (digits 2 (ms / 1000 mod 60) +:+ String "." (digits 3 (ms mod 1000) +:+
  String "Z" EmptyString)))))).

(** Fraction digits: the first three count, later ones are dropped. *)
Fixpoint read_fraction (s : string) (scale acc : Z) : Z * string :=
  match s with
  | String c s' =>
      match char_digit c with
      | Some d => read_fraction s' (scale / 10) (acc + d * scale)
      | None => (acc, s)
      end
  | EmptyString => (acc, s)
  end.

(** [Z] or [+HH:mm] / [-HH:mm], as minutes east; then the end of the string. *)
Definition read_offset (s : string) : option Z :=
  match s with
  | String "Z" EmptyString => Some 0
  | String c s1 =>
      if bool_decide (c = "+"%char ∨ c = "-"%char) then
        '(h, s2) ← read_digits 2 0 s1; s3 ← expect ":" s2; '(m, s4) ← read_digits 2 0 s3;
        if bool_decide (s4 = EmptyString) && (h <=? 23) && (m <=? 59)
        then Some ((if bool_decide (c = "-"%char) then -1 else 1) * (h * 60 + m))
        else None
      else None
  | EmptyString => None
  end.

(** Optional [:ss] and [.sss] *)
Definition read_seconds (s : string) : option (Z * Z * string) :=
  match expect ":" s with
  | None => Some (0, 0, s)
  | Some s1 =>
      '(sec, s2) ← read_digits 2 0 s1;
      match expect "." s2 with
      | None => Some (sec, 0, s2)
      | Some s3 => let '(ms, s4) := read_fraction s3 100 0 in Some (sec, ms, s4)
      end
  end.

Definition MakeTime (h mi s ms : Z) : Z := h * 3600000 + mi * 60000 + s * 1000 + ms.

(** [Date.parse] on the ECMA date-time format with a zone; [None] is [NaN]. *)
Definition Date_parse (s : string) : option Z :=
  '(y, s) ← read_digits 4 0 s; s ← expect "-" s;
  '(m, s) ← read_digits 2 0 s; s ← expect "-" s;
  '(d, s) ← read_digits 2 0 s; s ← expect "T" s;
  '(h, s) ← read_digits 2 0 s; s ← expect ":" s;
  '(mi, s) ← read_digits 2 0 s;
  '(sec, ms, s) ← read_seconds s;
  off ← read_offset s;
  if (1 <=? m) && (m <=? 12) && (1 <=? d) && (d <=? 31) && (mi <=? 59) && (sec <=? 59)
     && ((h <=? 23) || ((h =? 24) && (mi =? 0) && (sec =? 0) && (ms =? 0)))
  then Some (days_from_civil y m d * msPerDay + MakeTime h mi sec ms - off * 60000)
  else None.

(** [Date.UTC(y, month-1, d, h, mi, s)]; years 0-99 mean 1900-1999. *)
Definition Date_UTC (y m d h mi s : Z) : Z :=
  let yr := if (0 <=? y) && (y <=? 99) then 1900 + y else y in
  days_from_civil yr m d * msPerDay + MakeTime h mi s 0.

(** [getUTCDay()]: 1970-01-01 was a Thursday. *)
Definition getUTCDay (t : Z) : Z := (t / msPerDay + 4) mod 7.

(** Instants whose ISO form has a four-digit year. *)
Definition iso_range (t : Z) : Prop := -62167219200000 <= t < 253402300800000.

Lemma year_mono z1 z2 y1 m1 d1 y2 m2 d2 :
  civil_from_days z1 = (y1, m1, d1) → civil_from_days z2 = (y2, m2, d2) → z1 <= z2 → y1 <= y2.
Proof.
  intros E1 E2 Hz. pose proof (civil_from_days_cmp z1 z2) as Hc. rewrite E1, E2 in Hc.
  unfold civil_cmp, lex in Hc. destruct (Z.compare_spec y1 y2); [lia..|].
  symmetry in Hc. rewrite Z.compare_gt_iff in Hc. lia.
Qed.

Lemma iso_range_year t y m d :
  iso_range t → civil_from_days (t / msPerDay) = (y, m, d) → 0 <= y <= 9999.
Proof.
  unfold iso_range, msPerDay. intros Ht E.
  assert (E0 : civil_from_days (-719528) = (0, 1, 1)) by reflexivity.
  assert (E1 : civil_from_days 2932896 = (9999, 12, 31)) by reflexivity.
  split; [eapply year_mono; [exact E0|exact E|]|eapply year_mono; [exact E|exact E1|]]; zdiv.
Qed.

Lemma days_in_month_le y m : days_in_month y m <= 31.
Proof.
  unfold days_in_month. repeat case_match; lia.
Qed.

(** The fields of an instant. *)
Lemma time_fields ms :
  0 <= ms < msPerDay →
  0 <= ms / 3600000 < 24 ∧ 0 <= ms / 60000 mod 60 < 60 ∧ 0 <= ms / 1000 mod 60 < 60 ∧
  0 <= ms mod 1000 < 1000 ∧
  MakeTime (ms / 3600000) (ms / 60000 mod 60) (ms / 1000 mod 60) (ms mod 1000) = ms.
Proof. unfold msPerDay, MakeTime. intros Hms. zdiv. Qed.

Lemma read_digits_small w n r :
  0 <= n < 10 ^ Z.of_nat w → read_digits w 0 (digits w n +:+ r) = Some (n, r).
Proof. intros Hn. rewrite read_digits_digits, Z.mod_small by done. done. Qed.

Lemma read_digits_2 n r : 0 <= n < 100 → read_digits 2 0 (digits 2 n +:+ r) = Some (n, r).
Proof. exact (read_digits_small 2 n r). Qed.

Lemma read_digits_4 n r : 0 <= n < 10000 → read_digits 4 0 (digits 4 n +:+ r) = Some (n, r).
Proof. exact (read_digits_small 4 n r). Qed.

Lemma expect_same c s : expect c (String c s) = Some s.
Proof. simpl. by rewrite bool_decide_true. Qed.

Lemma read_fraction_3 n r :
  0 <= n < 1000 →
  read_fraction (digits 3 n +:+ String "Z" r) 100 0 = (n, String "Z" r).
Proof.
  intros Hn. cbn [digits]. rewrite !append_cons. cbn [read_fraction].
  rewrite !char_digit_char by (apply Z.mod_pos_bound; lia).
  change (Z.of_nat 2) with 2. change (Z.of_nat 1) with 1. change (Z.of_nat 0) with 0.
  change (10 ^ 2) with 100. change (10 ^ 1) with 10. change (10 ^ 0) with 1.
  change (100 / 10) with 10. change (10 / 10) with 1.
  change (EmptyString +:+ String "Z" r) with (String "Z" r). cbn [read_fraction].
  change (char_digit "Z") with (@None Z). cbv match. f_equal. zdiv.
Qed.

(** [Date.parse] reads back what [toISOString] printed. *)
Lemma Date_parse_toISOString t : iso_range t → Date_parse (toISOString t) = Some t.
Proof.
  intros Ht. unfold toISOString.
  destruct (civil_from_days (t / msPerDay)) as [[y m] d] eqn:E.
  pose proof (iso_range_year _ _ _ _ Ht E) as Hy.
  destruct (civil_from_days_spec _ _ _ _ E) as [[Hm Hd] Hdays].
  pose proof (days_in_month_le y m).
  destruct (time_fields (t mod msPerDay)) as (Hh & Hmi & Hs & Hms & Htime).
  { apply Z.mod_pos_bound. done. }
  revert Hh Hmi Hs Hms Htime. generalize (t mod msPerDay / 3600000), 
    (t mod msPerDay / 60000 mod 60), (t mod msPerDay / 1000 mod 60), (t mod msPerDay mod 1000).
  intros h mi s ms Hh Hmi Hs Hms Htime.
  unfold iso_year. replace ((0 <=? y) && (y <=? 9999)) with true by lia.
  unfold Date_parse, read_seconds.
  rewrite read_digits_4 by lia. cbn [mbind option_bind].
  repeat (rewrite expect_same; cbn [mbind option_bind];
    rewrite read_digits_2 by lia; cbn [mbind option_bind]).
  rewrite expect_same. cbv iota beta. rewrite read_fraction_3 by lia.
  cbn [read_offset mbind option_bind].
  match goal with |- context [if ?c then _ else _] => replace c with true by lia end.
  rewrite Htime, Hdays. f_equal. pose proof (Z.div_mod t msPerDay). unfold msPerDay in *. lia.
Qed.

(** On four-digit years, comparing ISO strings is comparing instants. *)
Lemma digits_lex w a b r s :
  0 <= a < 10 ^ Z.of_nat w → 0 <= b < 10 ^ Z.of_nat w →
  String.compare (digits w a +:+ r) (digits w b +:+ s) = lex (a ?= b) (String.compare r s).
Proof. intros. by rewrite digits_compare, !Z.mod_small. Qed.

Lemma lex_assoc a b c : lex a (lex b c) = lex (lex a b) c.
Proof. by destruct a. Qed.

Lemma lex_eq a : lex a Eq = a.
Proof. by destruct a. Qed.

(** Splitting a number by a positive divisor preserves the order. *)
Lemma compare_div_mod k a b :
  0 < k → lex (a / k ?= b / k) (a mod k ?= b mod k) = (a ?= b).
Proof.
  intros Hk. pose proof (Z.div_mod a k). pose proof (Z.div_mod b k).
  pose proof (Z.mod_pos_bound a k). pose proof (Z.mod_pos_bound b k).
  unfold lex. destruct (Z.compare_spec (a / k) (b / k)) as [He|Hlt|Hgt].
  - destruct (Z.compare_spec (a mod k) (b mod k)); symmetry;
      [apply Z.compare_eq_iff|apply Z.compare_lt_iff|apply Z.compare_gt_iff]; nia.
  - symmetry. apply Z.compare_lt_iff. nia.
  - symmetry. apply Z.compare_gt_iff. nia.
Qed.

Lemma time_compare a b :
  0 <= a → 0 <= b →
  lex (a / 3600000 ?= b / 3600000) (lex (a / 60000 mod 60 ?= b / 60000 mod 60)
    (lex (a / 1000 mod 60 ?= b / 1000 mod 60) (a mod 1000 ?= b mod 1000))) = (a ?= b).
Proof.
  intros Ha Hb. rewrite !lex_assoc.
  replace (a / 3600000) with (a / 60000 / 60) by zdiv.
  replace (b / 3600000) with (b / 60000 / 60) by zdiv.
  rewrite (compare_div_mod 60) by lia.
  replace (a / 60000) with (a / 1000 / 60) by zdiv.
  replace (b / 60000) with (b / 1000 / 60) by zdiv.
  rewrite (compare_div_mod 60) by lia. by apply compare_div_mod.
Qed.

Lemma toISOString_compare t1 t2 :
  iso_range t1 → iso_range t2 →
  String.compare (toISOString t1) (toISOString t2) = (t1 ?= t2).
Proof.
  intros Ht1 Ht2. unfold toISOString.
  destruct (civil_from_days (t1 / msPerDay)) as [[y1 m1] d1] eqn:E1.
  destruct (civil_from_days (t2 / msPerDay)) as [[y2 m2] d2] eqn:E2.
  pose proof (iso_range_year _ _ _ _ Ht1 E1). pose proof (iso_range_year _ _ _ _ Ht2 E2).
  destruct (civil_from_days_spec _ _ _ _ E1) as [[Hm1 Hd1] _].
  destruct (civil_from_days_spec _ _ _ _ E2) as [[Hm2 Hd2] _].
  pose proof (days_in_month_le y1 m1). pose proof (days_in_month_le y2 m2).
  destruct (time_fields (t1 mod msPerDay)) as (?&?&?&?&_); [by apply Z.mod_pos_bound|].
  destruct (time_fields (t2 mod msPerDay)) as (?&?&?&?&_); [by apply Z.mod_pos_bound|].
  unfold iso_year. replace ((0 <=? y1) && (y1 <=? 9999)) with true by lia.
  replace ((0 <=? y2) && (y2 <=? 9999)) with true by lia.
  assert (B4 : 10 ^ Z.of_nat 4 = 10000) by reflexivity.
  assert (B3 : 10 ^ Z.of_nat 3 = 1000) by reflexivity.
  assert (B2 : 10 ^ Z.of_nat 2 = 100) by reflexivity.
  repeat (rewrite digits_lex by (rewrite ?B4, ?B3, ?B2; lia); rewrite string_compare_char).
  change (String.compare EmptyString EmptyString) with Eq. rewrite lex_eq.
  rewrite time_compare by (apply Z.mod_pos_bound; done).
  pose proof (civil_from_days_cmp (t1 / msPerDay) (t2 / msPerDay)) as Hc.
  rewrite E1, E2 in Hc. unfold civil_cmp in Hc.
  rewrite !lex_assoc in *. rewrite Hc. by apply compare_div_mod.
Qed.

(** JavaScript's [<=] on strings (code units; the compared strings are ASCII). *)
Definition str_le (a b : string) : bool :=
  match String.compare a b with Gt => false | _ => true end.

Lemma str_le_iso t1 t2 :
  iso_range t1 → iso_range t2 → str_le (toISOString t1) (toISOString t2) = (t1 <=? t2).
Proof.
  intros. unfold str_le. rewrite toISOString_compare by done. by rewrite Z.leb_compare.
Qed.

Lemma toISOString_inj t1 t2 :
  iso_range t1 → iso_range t2 → toISOString t1 = toISOString t2 → t1 = t2.
Proof.
  intros H1 H2 He. apply Z.compare_eq_iff. rewrite <- toISOString_compare by done.
  rewrite He, toISOString_compare by done. apply Z.compare_refl.
Qed.

Example iso_example : toISOString 1789488000123 = "2026-09-15T16:00:00.123Z".
Proof. reflexivity. Qed.

Example parse_example : Date_parse "2026-09-15T18:30:00.1239+02:30" = Some 1789488000123.
Proof. reflexivity. Qed.

#[export] Hint Rewrite str_le_iso using done : kj.
#[export] Hint Resolve Date_parse_toISOString : kj.

(** Outside the four-digit years [toISOString] writes a sign, which
    [Date_parse] of this form does not read. *)
Lemma toISOString_range t : is_Some (Date_parse (toISOString t)) → iso_range t.
Proof.
  intros [x Hx]. unfold toISOString in Hx.
  destruct (civil_from_days (t / msPerDay)) as [[y m] d] eqn:E. unfold iso_year in Hx.
  destruct ((0 <=? y) && (y <=? 9999)) eqn:Hy.
  2: { unfold Date_parse in Hx. rewrite append_cons in Hx. cbn [read_digits] in Hx.
       by destruct (y <? 0). }
  assert (E0 : civil_from_days (-719529) = (-1, 12, 31)) by reflexivity.
  assert (E1 : civil_from_days 2932897 = (10000, 1, 1)) by reflexivity.
  unfold iso_range, msPerDay in *. split.
  - destruct (Z.le_gt_cases (-62167219200000) t) as [|Hlt]; [done|].
    enough (y <= -1) by lia. eapply year_mono; [exact E|exact E0|]. zdiv.
  - destruct (Z.lt_ge_cases t 253402300800000) as [|Hge]; [done|].
    enough (10000 <= y) by lia. eapply year_mono; [exact E1|exact E|]. zdiv.
Qed.
