(* ===== verification/Digest.v ===== *)
(** * Content digests: [createHash("sha256")], [JSON.stringify], [stableId]

    Node's SHA-256 is written out from FIPS 180-4 over 32-bit words (machine integers
    masked to 32 bits after every addition and shift); its constants are computed from the
    primes the standard derives them from.  Strings are their UTF-8 encodings,
    so [update(s, "utf8")] hashes the bytes of the string.  On top of it:
    [digest] (services/kernel/src/deterministic.ts) and [stableId]
    (services/kernel/src/compiler/index.ts). *)

From Corelib Require Import PrimInt63.
From S2P Require Import Prelude JsNumber.
Local Open Scope Z_scope.

(** ** SHA-256 *)
Module Sha256.

(** The machine integers' operations, with their symbols. *)
#[local] Infix "<<" := PrimInt63.lsl (at level 30) : uint63_scope.
#[local] Infix ">>" := PrimInt63.lsr (at level 30) : uint63_scope.
#[local] Infix "land" := PrimInt63.land (at level 40, left associativity) : uint63_scope.
#[local] Infix "lor" := PrimInt63.lor (at level 40, left associativity) : uint63_scope.
#[local] Infix "lxor" := PrimInt63.lxor (at level 40, left associativity) : uint63_scope.
#[local] Infix "+" := PrimInt63.add : uint63_scope.
#[local] Infix "-" := PrimInt63.sub : uint63_scope.

(** A 32-bit word is one of the kernel's 63-bit machine integers below 2^32. *)
Definition word_of (n : Z) : int :=
  let fix go p := match p with xH => 1 | xO p => go p << 1 | xI p => (go p << 1) lor 1 end%uint63 in
  match n with Zpos p => go p | _ => 0%uint63 end.

Fixpoint low_bits (n : nat) (x : int) : Z :=
  match n with
  | O => 0
  | S n' => (if PrimInt63.eqb (x land 1)%uint63 1%uint63 then 1 else 0) + 2 * low_bits n' (x >> 1)%uint63
  end.
Definition value_of (w : int) : Z := low_bits 32 w.

(** [x mod 2^32], as a mask. *)
Definition wrap (x : int) : int := (x land 4294967295)%uint63.
Definition add32 (x y : int) : int := wrap (x + y)%uint63.
Definition rotr (n x : int) : int := ((x >> n) lor wrap (x << (32 - n)))%uint63.
Definition not32 (x : int) : int := (4294967295 - x)%uint63.

Definition choose (e f g : int) : int := ((e land f) lxor (not32 e land g))%uint63.
Definition majority (a b c : int) : int := ((a land b) lxor ((a land c) lxor (b land c)))%uint63.
Definition big_sigma0 (x : int) : int := (rotr 2 x lxor (rotr 13 x lxor rotr 22 x))%uint63.
Definition big_sigma1 (x : int) : int := (rotr 6 x lxor (rotr 11 x lxor rotr 25 x))%uint63.
Definition small_sigma0 (x : int) : int := (rotr 7 x lxor (rotr 18 x lxor (x >> 3)))%uint63.
Definition small_sigma1 (x : int) : int := (rotr 17 x lxor (rotr 19 x lxor (x >> 10)))%uint63.

(** The first [n] primes, by trial division. *)
Fixpoint first_primes (fuel : nat) (c : Z) (found : list Z) (n : nat) : list Z :=
  match fuel, n with
  | S fuel', S n' =>
      if forallb (λ p, negb (c mod p =? 0)) found
      then first_primes fuel' (c + 1) (found ++ [c]) n'
      else first_primes fuel' (c + 1) found n
  | _, _ => found
  end.

(** Integer cube root by bisection on the bits, highest first. *)
Fixpoint cbrt_bits (bits : nat) (r x : Z) : Z :=
  match bits with
  | O => r
  | S b =>
      let r' := r + 2 ^ Z.of_nat b in
      cbrt_bits b (if r' * r' * r' <=? x then r' else r) x
  end.

(** The first 32 bits of the fractional parts of the cube roots of the first 64
    primes and of the square roots of the first 8. *)
Definition round_constants : list int :=
  Eval vm_compute in map (λ p, word_of (Z.land 4294967295 (cbrt_bits 36 0 (p * 2 ^ 96)))) (first_primes 400 2 [] 64).
Definition initial_state : list int :=
  Eval vm_compute in map (λ p, word_of (Z.land 4294967295 (Z.sqrt (p * 2 ^ 64)))) (first_primes 30 2 [] 8).

(** One round on the eight working variables. *)
Definition round (st : list int) (kw : int * int) : list int :=
  match st with
  | [a; b; c; d; e; f; g; h] =>
      let t1 := wrap (h + big_sigma1 e + choose e f g + kw.1 + kw.2)%uint63 in
      let t2 := wrap (big_sigma0 a + majority a b c)%uint63 in
      [add32 t1 t2; a; b; c; add32 d t1; e; f; g]
  | _ => st
  end.

(** The message schedule; the window holds the last sixteen words, oldest first. *)
Fixpoint schedule (n : nat) (window : list int) : list int :=
  match n with
  | O => []
  | S n' =>
      match window with
      | w0 :: rest =>
          let next := wrap (w0 + small_sigma0 (nth 1 window 0) + nth 9 window 0 + small_sigma1 (nth 14 window 0))%uint63 in
          w0 :: schedule n' (rest ++ [next])
      | [] => []
      end
  end.

Definition compress (st block : list int) : list int :=
  zip_with add32 st (fold_left round (zip_with pair round_constants (schedule 64 block)) st).

(** Four bytes to a big-endian word. *)
Fixpoint words (bs : list Z) : list int :=
  match bs with
  | a :: b :: c :: d :: bs' => word_of (a * 16777216 + b * 65536 + c * 256 + d) :: words bs'
  | _ => []
  end.

Definition be_bytes (w : nat) (n : Z) : list Z :=
  map (λ i, n / 256 ^ Z.of_nat i mod 256) (rev (seq 0 w)).

Definition pad (bs : list Z) : list Z :=
  let len := Z.of_nat (length bs) in
  bs ++ [128] ++ repeat 0 (Z.to_nat ((55 - len) mod 64)) ++ be_bytes 8 (len * 8).

Fixpoint blocks (fuel : nat) (ws st : list int) : list int :=
  match fuel with
  | O => st
  | S fuel' =>
      match ws with
      | [] => st
      | _ => blocks fuel' (drop 16 ws) (compress st (take 16 ws))
      end
  end.

Definition string_bytes (s : string) : list Z :=
  map (λ c, Z.of_N (N_of_ascii c)) (String.list_ascii_of_string s).

(** The eight words of the digest. *)
Definition sha256_words (s : string) : list Z :=
  let ws := words (pad (string_bytes s)) in map value_of (blocks (length ws) ws initial_state).

Definition hex_digit (n : Z) : ascii :=
  ascii_of_N (Z.to_N (if n <? 10 then 48 + n else 87 + n)).

(** Eight lowercase hexadecimal digits, as a list of characters. *)
Definition hex_word (x : Z) : list ascii :=
  map (λ i, hex_digit (x / 16 ^ Z.of_nat i mod 16)) (rev (seq 0 8)).

(** [createHash("sha256").update(s, "utf8").digest("hex")] *)
Definition sha256_hex (s : string) : string :=
  String.string_of_list_ascii (concat (map hex_word (sha256_words s))).

Example sha256_abc :
  sha256_hex "abc" = "ba7816bf8f01cfea414140de5dae2223b00361a396177a9cb410ff61f20015ad".
Proof. vm_compute. reflexivity. Qed.

(** *** The digest is always 64 lowercase hexadecimal digits *)

Definition is_hex (c : ascii) : bool :=
  let n := N_of_ascii c in ((48 <=? n) && (n <=? 57) || (97 <=? n) && (n <=? 102))%N.

Lemma round_length st kw : length st = 8%nat → length (round st kw) = 8%nat.
Proof. intros H. by do 9 (destruct st as [|? st]; try done). Qed.

Lemma fold_round_length kws : ∀ st, length st = 8%nat → length (fold_left round kws st) = 8%nat.
Proof. induction kws; intros st H; simpl; [done|]. by apply IHkws, round_length. Qed.

Lemma blocks_length fuel : ∀ ws st, length st = 8%nat → length (blocks fuel ws st) = 8%nat.
Proof.
  induction fuel as [|fuel IH]; intros ws st H; simpl; [done|].
  destruct ws; [done|]. apply IH. unfold compress.
  rewrite length_zip_with, fold_round_length by done. lia.
Qed.

Lemma hex_digit_is_hex n : 0 <= n < 16 → is_hex (hex_digit n) = true.
Proof.
  intros Hn. assert (n ∈ seqZ 0 16) as Hin by (by apply elem_of_seqZ; lia).
  assert (Forall (λ n, is_hex (hex_digit n) = true) (seqZ 0 16)) as Hall.
  { by repeat constructor. }
  by eapply Forall_forall in Hall.
Qed.

Lemma hex_word_length x : length (hex_word x) = 8%nat.
Proof. done. Qed.

Lemma hex_word_is_hex x : Forall (λ c, is_hex c = true) (hex_word x).
Proof.
  unfold hex_word. apply Forall_fmap. apply Forall_forall. intros i _.
  apply hex_digit_is_hex, Z.mod_pos_bound. lia.
Qed.

Definition digest_chars (s : string) : list ascii := concat (map hex_word (sha256_words s)).

Lemma digest_chars_length s : length (digest_chars s) = 64%nat.
Proof.
  unfold digest_chars, sha256_words. rewrite map_map.
  assert (H : length (blocks (length (words (pad (string_bytes s))))
     (words (pad (string_bytes s))) initial_state) = 8%nat) by (by apply blocks_length).
  revert H. generalize (blocks (length (words (pad (string_bytes s))))
    (words (pad (string_bytes s))) initial_state).
  intros l Hl. do 9 (destruct l as [|? l]; try done).
Qed.

Lemma digest_chars_is_hex s : Forall (λ c, is_hex c = true) (digest_chars s).
Proof.
  unfold digest_chars. induction (sha256_words s) as [|w ws IH]; cbn [map concat]; [constructor|].
  apply Forall_app; split; [apply hex_word_is_hex|done].
Qed.

End Sha256.

(** ** [JSON.stringify] *)

(** A JSON value. *)
Inductive json : Type :=
  | JNull
  | JBool (b : bool)
  | JNum (n : Z)
  | JStr (s : string)
  | JArr (l : list json)
  | JObj (fields : list (string * json))
  | JFloat (f : float).

Definition dquote : ascii := ascii_of_N 34.
Definition backslash : ascii := ascii_of_N 92.

(** The escape of one character inside a JSON string. *)
Definition json_escape (c : ascii) : string :=
  let n := N_of_ascii c in
  let esc x := String backslash (String x EmptyString) in
  if (n =? 34)%N then esc dquote else if (n =? 92)%N then esc backslash
  else if (n =? 8)%N then esc "b"%char else if (n =? 9)%N then esc "t"%char
  else if (n =? 10)%N then esc "n"%char else if (n =? 12)%N then esc "f"%char
  else if (n =? 13)%N then esc "r"%char
  else if (n <? 32)%N then
    String backslash (String "u" (String "0" (String "0"
      (String (Sha256.hex_digit (Z.of_N n / 16)) (String (Sha256.hex_digit (Z.of_N n mod 16)) EmptyString)))))
  else String c EmptyString.

Fixpoint json_chars (s : string) : string :=
  match s with
  | EmptyString => EmptyString
  | String c s' => json_escape c +:+ json_chars s'
  end.

Definition json_quote (s : string) : string :=
  String dquote (json_chars s +:+ String dquote EmptyString).

Fixpoint join (sep : string) (l : list string) : string :=
  match l with
  | [] => EmptyString
  | [x] => x
  | x :: l' => x +:+ sep +:+ join sep l'
  end.

Fixpoint stringify (v : json) : string :=
  match v with
  | JNull => "null"
  | JBool true => "true"
  | JBool false => "false"
  | JNum n => int_text n
  | JStr s => json_quote s
  | JArr l => "[" +:+ join "," (map stringify l) +:+ "]"
  | JObj fs => "{" +:+ join "," (map (λ kv, json_quote kv.1 +:+ ":" +:+ stringify kv.2) fs) +:+ "}"
  | JFloat (Infinite _) => "null"
  | JFloat f => float_text f
  end.

(** [digest(value)] of deterministic.ts *)
Definition digest (value : json) : string := Sha256.sha256_hex (stringify value).

(** [s.slice(a, b)] on an ASCII string, [0 <= a <= b]. *)
Definition slice (a b : nat) (s : string) : string := String.substring a (b - a) s.

(** [stableId(value)] of compiler/index.ts: a content-derived UUID. *)
Definition stableId (value : json) : string :=
  let h := digest (JArr [JStr "kerneljson:phase4:v1"; value]) in
  slice 0 8 h +:+ "-" +:+ slice 8 12 h +:+ "-8" +:+ slice 13 16 h +:+ "-a" +:+
  slice 17 20 h +:+ "-" +:+ slice 20 32 h.

(** [z.uuid()]: 8-4-4-4-12 hexadecimal digits with version 1-8 and the RFC variant, or one of
    the two ids the standard keeps apart. *)
Definition uuid_char (i : nat) (c : ascii) : bool :=
  let hexU := Sha256.is_hex c || ((65 <=? N_of_ascii c) && (N_of_ascii c <=? 70))%N in
  match i with
  | 8 | 13 | 18 | 23 => bool_decide (c = "-"%char)
  | 14 => ((49 <=? N_of_ascii c) && (N_of_ascii c <=? 56))%N
  | 19 => bool_decide (c ∈ ["8"; "9"; "a"; "b"; "A"; "B"]%char)
  | _ => hexU
  end%nat.

Definition rfc_uuid (s : string) : bool :=
  let cs := String.list_ascii_of_string s in
  bool_decide (length cs = 36%nat) && forallb (λ ic, uuid_char ic.1 ic.2) (imap pair cs).

Definition NIL_UUID : string := "00000000-0000-0000-0000-000000000000".
Definition MAX_UUID : string := "ffffffff-ffff-ffff-ffff-ffffffffffff".

Definition is_uuid (s : string) : bool := rfc_uuid s || bool_decide (s = NIL_UUID) || bool_decide (s = MAX_UUID).

(** Cut a list into single cells, given its length. *)
Lemma is_hex_uuid c : Sha256.is_hex c = true →
  (Sha256.is_hex c || ((65 <=? N_of_ascii c) && (N_of_ascii c <=? 70))%N) = true.
Proof. by intros ->. Qed.

Lemma stableId_rfc value : rfc_uuid (stableId value) = true.
Proof.
  unfold stableId, digest, Sha256.sha256_hex.
  fold (Sha256.digest_chars (stringify (JArr [JStr "kerneljson:phase4:v1"; value]))).
  pose proof (Sha256.digest_chars_length (stringify (JArr [JStr "kerneljson:phase4:v1"; value]))) as Hl.
  pose proof (Sha256.digest_chars_is_hex (stringify (JArr [JStr "kerneljson:phase4:v1"; value]))) as Hh.
  revert Hl Hh. generalize (Sha256.digest_chars (stringify (JArr [JStr "kerneljson:phase4:v1"; value]))).
  intros cs Hl Hh.
  do 64 (destruct cs as [|? cs]; [discriminate Hl|]). destruct cs; [|discriminate Hl].
  repeat (apply Forall_cons in Hh as [?%is_hex_uuid Hh]).
  unfold rfc_uuid. cbv -[Sha256.is_hex N_of_ascii N.leb orb andb].
  repeat match goal with H : _ = true |- _ => rewrite H; clear H end. reflexivity.
Qed.

Lemma stableId_uuid value : is_uuid (stableId value) = true.
Proof. unfold is_uuid. by rewrite stableId_rfc. Qed.

#[global] Arguments Sha256.sha256_hex : simpl never.
#[global] Arguments digest : simpl never.
#[global] Arguments stableId : simpl never.
