(* ===== verification/Contracts.v ===== *)
(** * The wire contracts (packages/contracts/src) and the task lifecycle

    Each Zod object schema is a Record with the schema's fields; [X_parse] is
    [X.parse]: it trims the [Text] fields and throws when a field or a
    refinement is violated.  What Zod checks by shape alone (the field is a
    string, no unknown field) is the Record's type here.  [Task], [Evidence],
    [Outcome] and lifecycle.ts's [assertTransition] and [assertCompletion]
    follow. *)

From S2P Require Import Prelude JsNumber JsDate Digest.
Local Open Scope Z_scope.
Local Open Scope js_scope.

(** ** [String.prototype.trim] on UTF-8 *)

(** The code points ECMA-262 calls white space or line terminators, encoded. *)
Definition js_spaces : list (list Z) :=
  [[9]; [10]; [11]; [12]; [13]; [32]; [194; 160]; [225; 154; 128]; [226; 128; 168];
   [226; 128; 169]; [226; 128; 175]; [226; 129; 159]; [227; 128; 128]; [239; 187; 191]]
  ++ map (λ k, [226; 128; 128 + k]) (seqZ 0 11).

Fixpoint strip_prefix (p s : list Z) : option (list Z) :=
  match p, s with
  | [], _ => Some s
  | a :: p', b :: s' => if a =? b then strip_prefix p' s' else None
  | _ :: _, [] => None
  end.

Fixpoint first_some {A B} (f : A → option B) (l : list A) : option B :=
  match l with
  | [] => None
  | x :: l' => match f x with Some y => Some y | None => first_some f l' end
  end.

Fixpoint strip_spaces (fuel : nat) (seps : list (list Z)) (s : list Z) : list Z :=
  match fuel with
  | O => s
  | S fuel' =>
      match first_some (λ p, strip_prefix p s) seps with
      | Some s' => strip_spaces fuel' seps s'
      | None => s
      end
  end.

Definition bytes_string (bs : list Z) : string :=
  String.string_of_list_ascii (map (λ n, ascii_of_N (Z.to_N n)) bs).

(** Fuel: every step removes at least one byte. *)
Definition js_trim (s : string) : string :=
  let bs := Sha256.string_bytes s in
  let front := strip_spaces (length bs) js_spaces bs in
  let back := strip_spaces (length bs) (map (@rev Z) js_spaces) (rev front) in
  bytes_string (rev back).

(** ** common.ts *)

Definition Id_ok (s : string) : bool := is_uuid s.

(** [z.iso.datetime({ offset: true })]: a real calendar date, hours 0-23, and at
    least one digit after a decimal point. *)
Definition Timestamp_ok (s : string) : bool :=
  match Date_parse s, read_digits 4 0 s, read_digits 2 0 (String.substring 5 2 s),
        read_digits 2 0 (String.substring 8 2 s), read_digits 2 0 (String.substring 11 2 s) with
  | Some _, Some (y, _), Some (m, _), Some (d, _), Some (h, _) =>
      (d <=? days_in_month y m) && (h <=? 23) &&
      (negb (bool_decide (String.get 19 s = Some "."%char)) ||
       match String.get 20 s with Some c => bool_decide (is_Some (char_digit c)) | None => false end)
  | _, _, _, _, _ => false
  end.

(** [z.string().trim().min(1)] *)
Definition Text_parse (s : string) : result string :=
  let t := js_trim s in
  if t === EmptyString then Throw (zod_error "too_small") else Ok t.

Fixpoint parse_all {A} (f : A → result A) (l : list A) : result (list A) :=
  match l with
  | [] => Ok []
  | x :: l' => y ← f x; ys ← parse_all f l'; Ok (y :: ys)
  end.

Inductive RiskClass := LOW | MEDIUM | HIGH | CRITICAL_RISK.
Record CapabilityRef := { cap_id : string; cap_version : string }.

(** ** identity.ts *)

Inductive PrincipalKind := HUMAN | SERVICE.
Record PrincipalRef := { principal_id : string; principal_kind : PrincipalKind }.
Record TraceRef := { tr_traceId : string; tr_correlationId : string; tr_spanId : option string }.

#[export] Instance RiskClass_eq_dec : EqDecision RiskClass.
Proof. solve_decision. Defined.
#[export] Instance CapabilityRef_eq_dec : EqDecision CapabilityRef.
Proof. solve_decision. Defined.
#[export] Instance PrincipalKind_eq_dec : EqDecision PrincipalKind.
Proof. solve_decision. Defined.
#[export] Instance PrincipalRef_eq_dec : EqDecision PrincipalRef.
Proof. solve_decision. Defined.
#[export] Instance TraceRef_eq_dec : EqDecision TraceRef.
Proof. solve_decision. Defined.

Definition ok_or (c : bool) (msg : string) : result unit := ensure c (zod_error msg).

Definition CapabilityRef_parse (c : CapabilityRef) : result CapabilityRef :=
  ok_or (Id_ok (cap_id c)) "capability id";;
  v ← Text_parse (cap_version c); Ok {| cap_id := cap_id c; cap_version := v |}.

Definition TraceRef_parse (t : TraceRef) : result TraceRef :=
  ok_or (Id_ok (tr_traceId t) && Id_ok (tr_correlationId t)) "trace";;
  match tr_spanId t with
  | None => Ok t
  | Some s => s' ← Text_parse s;
      Ok {| tr_traceId := tr_traceId t; tr_correlationId := tr_correlationId t; tr_spanId := Some s' |}
  end.

(** [Date.parse] compared: a NaN makes every comparison false. *)
Definition date_lt (a b : string) : bool :=
  match Date_parse a, Date_parse b with Some x, Some y => x <? y | _, _ => false end.
Definition date_le (a b : string) : bool :=
  match Date_parse a, Date_parse b with Some x, Some y => x <=? y | _, _ => false end.

Lemma date_le_iso a b :
  iso_range a → iso_range b → date_le (toISOString a) (toISOString b) = (a <=? b).
Proof. intros. unfold date_le. by rewrite !Date_parse_toISOString. Qed.

Lemma date_lt_iso a b :
  iso_range a → iso_range b → date_lt (toISOString a) (toISOString b) = (a <? b).
Proof. intros. unfold date_lt. by rewrite !Date_parse_toISOString. Qed.

(** What [toISOString] writes is a valid [Timestamp]. *)
Lemma read_digits_2_end n : 0 <= n < 100 → read_digits 2 0 (digits 2 n) = Some (n, EmptyString).
Proof. intros. rewrite <- (str_app_nil_r (digits 2 n)). by apply read_digits_2. Qed.

Lemma toISOString_Timestamp_ok t : iso_range t → Timestamp_ok (toISOString t) = true.
Proof.
  intros Ht. unfold Timestamp_ok. rewrite Date_parse_toISOString by done.
  unfold toISOString. destruct (civil_from_days (t / msPerDay)) as [[y m] d] eqn:E.
  pose proof (iso_range_year _ _ _ _ Ht E) as Hy.
  destruct (civil_from_days_spec _ _ _ _ E) as [[Hm Hd] Hdays].
  pose proof (days_in_month_le y m).
  destruct (time_fields (t mod msPerDay)) as (Hh & _); [by apply Z.mod_pos_bound|].
  unfold iso_year. replace ((0 <=? y) && (y <=? 9999)) with true by lia.
  rewrite read_digits_4 by lia.
  match goal with |- context [String.substring 5 2 ?s] =>
    change (String.substring 5 2 s) with (digits 2 m);
    change (String.substring 8 2 s) with (digits 2 d);
    change (String.substring 11 2 s) with (digits 2 (t mod msPerDay / 3600000));
    change (String.get 19 s) with (Some "."%char);
    change (String.get 20 s) with (Some (digit_char (t mod msPerDay mod 1000 / 10 ^ 2 mod 10))) end.
  rewrite !read_digits_2_end by lia. rewrite (bool_decide_true (Some _ = _)) by done.
  rewrite char_digit_char by (apply Z.mod_pos_bound; lia).
  rewrite (bool_decide_true (is_Some _)) by (by eexists). lia.
Qed.

(** ** task.ts *)

Inductive TaskStatus :=
  | RECEIVED | COMPILED | READY | RUNNING | WAITING | APPROVAL_REQUIRED
  | VERIFYING | COMPLETED | FAILED | CANCELLED.

#[export] Instance TaskStatus_eq_dec : EqDecision TaskStatus.
Proof. solve_decision. Defined.

Record Budget := { amount : number; currency : string }.

Record Task := {
  task_id : string;
  task_parentTaskId : option string;
  task_principal : PrincipalRef;
  task_tenant : string;                 (* TenantRef.id *)
  task_objective : string;
  task_acceptanceCriteria : list string;
  task_constraints : list string;
  task_riskClass : RiskClass;
  task_budget : option Budget;
  task_deadline : option string;
  task_status : TaskStatus;
  task_traceId : string;
  task_createdAt : string;
  task_startedAt : option string;
  task_completedAt : option string
}.

#[export] Instance Budget_eq_dec : EqDecision Budget.
Proof. solve_decision. Defined.
#[export] Instance Task_eq_dec : EqDecision Task.
Proof. solve_decision. Defined.

Definition opt_ok {A} (f : A → bool) (o : option A) : bool :=
  match o with Some x => f x | None => true end.

Definition is_upper (c : ascii) : bool := ((65 <=? N_of_ascii c) && (N_of_ascii c <=? 90))%N.

Definition Budget_ok (b : Budget) : bool :=
  nonnegative (amount b) && finite (amount b) &&
  match String.list_ascii_of_string (currency b) with
  | [a; c; d] => is_upper a && is_upper c && is_upper d
  | _ => false
  end.

(** The [superRefine] of [Task]: none of its four issues is raised. *)
Definition Task_refined (t : Task) : bool :=
  negb (task_parentTaskId t === Some (task_id t)) &&
  negb ((task_status t === COMPLETED) && (task_completedAt t === None)) &&
  negb (match task_startedAt t with
        | Some s => date_lt s (task_createdAt t) | None => false end) &&
  negb (match task_completedAt t with
        | Some c => date_lt c (from_option id (task_createdAt t) (task_startedAt t))
        | None => false end).

Definition Task_parse (t : Task) : result Task :=
  ok_or (Id_ok (task_id t) && opt_ok Id_ok (task_parentTaskId t)
         && Id_ok (principal_id (task_principal t)) && Id_ok (task_tenant t)) "task ids";;
  obj ← Text_parse (task_objective t);
  crit ← parse_all Text_parse (task_acceptanceCriteria t);
  ok_or (negb (crit === [])) "acceptanceCriteria";;
  cons ← parse_all Text_parse (task_constraints t);
  ok_or (opt_ok Budget_ok (task_budget t) && opt_ok Timestamp_ok (task_deadline t)
         && Id_ok (task_traceId t) && Timestamp_ok (task_createdAt t)
         && opt_ok Timestamp_ok (task_startedAt t)
         && opt_ok Timestamp_ok (task_completedAt t)) "task fields";;
  ok_or (Task_refined t) "task refinement";;
  Ok {| task_id := task_id t; task_parentTaskId := task_parentTaskId t;
        task_principal := task_principal t; task_tenant := task_tenant t;
        task_objective := obj; task_acceptanceCriteria := crit; task_constraints := cons;
        task_riskClass := task_riskClass t; task_budget := task_budget t;
        task_deadline := task_deadline t; task_status := task_status t;
        task_traceId := task_traceId t; task_createdAt := task_createdAt t;
        task_startedAt := task_startedAt t; task_completedAt := task_completedAt t |}.

Inductive StepKind :=
  | DETERMINISTIC_FUNCTION | TOOL_CALL | LLM_CALL | AGENT_LOOP | PARALLEL_MAP
  | SANDBOX_EXEC | HUMAN_APPROVAL | WAIT_FOR_EVENT | SCHEDULE | SUBWORKFLOW.

#[export] Instance StepKind_eq_dec : EqDecision StepKind.
Proof. solve_decision. Defined.

Record RetryPolicy := { maxAttempts : Z; backoffMs : Z }.

Record TaskStep := {
  step_id : string;
  step_taskId : string;
  step_kind : StepKind;
  step_status : TaskStatus;
  step_dependencies : list string;
  step_requiredCapabilities : list CapabilityRef;
  step_riskClass : RiskClass;
  step_retryPolicy : RetryPolicy;
  step_timeout : option Z;
  step_input : json;
  step_output : option json;
  step_idempotencyKey : option string
}.

Definition opt_parse {A} (f : A → result A) (o : option A) : result (option A) :=
  match o with Some x => y ← f x; Ok (Some y) | None => Ok None end.

Definition TaskStep_parse (s : TaskStep) : result TaskStep :=
  ok_or (Id_ok (step_id s) && Id_ok (step_taskId s) && forallb Id_ok (step_dependencies s)) "step ids";;
  caps ← parse_all CapabilityRef_parse (step_requiredCapabilities s);
  ok_or ((1 <=? maxAttempts (step_retryPolicy s)) && (0 <=? backoffMs (step_retryPolicy s))
         && opt_ok (λ t, 1 <=? t) (step_timeout s)) "step limits";;
  key ← opt_parse Text_parse (step_idempotencyKey s);
  ok_or (negb (bool_decide (step_id s ∈ step_dependencies s))) "Step cannot depend on itself";;
  Ok {| step_id := step_id s; step_taskId := step_taskId s; step_kind := step_kind s;
        step_status := step_status s; step_dependencies := step_dependencies s;
        step_requiredCapabilities := caps; step_riskClass := step_riskClass s;
        step_retryPolicy := step_retryPolicy s; step_timeout := step_timeout s;
        step_input := step_input s; step_output := step_output s;
        step_idempotencyKey := key |}.

(** ** evidence.ts *)

Inductive EvidenceType := DETERMINISTIC_RESULT | TOOL_RECEIPT | ARTIFACT | HUMAN_DECISION.

#[export] Instance EvidenceType_eq_dec : EqDecision EvidenceType.
Proof. solve_decision. Defined.

Record Evidence := {
  ev_id : string;
  ev_taskId : string;
  ev_stepId : option string;
  ev_type : EvidenceType;
  ev_source : string;
  ev_ref : option string;
  ev_uri : option string;
  ev_digest : option string;
  ev_capturedAt : string;
  ev_metadata : list (string * json)
}.

Definition Digest_ok (s : string) : bool :=
  let cs := String.list_ascii_of_string s in
  bool_decide (length cs = 64%nat) && forallb Sha256.is_hex cs.

(** [z.url()] is Zod's own; [url_ok] stands for it. *)
Definition Evidence_parse (url_ok : string → bool) (e : Evidence) : result Evidence :=
  ok_or (Id_ok (ev_id e) && Id_ok (ev_taskId e) && opt_ok Id_ok (ev_stepId e)) "evidence ids";;
  src ← Text_parse (ev_source e);
  ref ← opt_parse Text_parse (ev_ref e);
  ok_or (opt_ok url_ok (ev_uri e) && opt_ok Digest_ok (ev_digest e)
         && Timestamp_ok (ev_capturedAt e)) "evidence fields";;
  ok_or (negb (ref === None) || opt_ok (λ u, negb (u === EmptyString)) (ev_uri e)
           && negb (ev_uri e === None) || negb (ev_digest e === None))
    "Evidence requires a machine-checkable reference or digest";;
  Ok {| ev_id := ev_id e; ev_taskId := ev_taskId e; ev_stepId := ev_stepId e;
        ev_type := ev_type e; ev_source := src; ev_ref := ref; ev_uri := ev_uri e;
        ev_digest := ev_digest e; ev_capturedAt := ev_capturedAt e;
        ev_metadata := ev_metadata e |}.

(** ** outcome.ts *)

Inductive OutcomeStatus := O_COMPLETED | O_FAILED | O_CANCELLED.

#[export] Instance OutcomeStatus_eq_dec : EqDecision OutcomeStatus.
Proof. solve_decision. Defined.

Record AcceptanceResult := {
  ar_criterion : string;
  ar_passed : bool;
  ar_evidenceRefs : list string
}.

Record Outcome := {
  out_taskId : string;
  out_status : OutcomeStatus;
  out_acceptanceResults : list AcceptanceResult;
  out_evidenceRefs : list string;
  out_summary : string;
  out_completedAt : string
}.

Definition AcceptanceResult_parse (r : AcceptanceResult) : result AcceptanceResult :=
  c ← Text_parse (ar_criterion r);
  ok_or (forallb Id_ok (ar_evidenceRefs r)) "evidenceRefs";;
  Ok {| ar_criterion := c; ar_passed := ar_passed r; ar_evidenceRefs := ar_evidenceRefs r |}.

(** The two issues of the [superRefine], each as "not raised". *)
Definition Outcome_evidenced (o : Outcome) : bool :=
  negb ((out_status o === O_COMPLETED) &&
    ((out_evidenceRefs o === []) || bool_decide (length (out_acceptanceResults o) = 0%nat) ||
     existsb (λ r, negb (ar_passed r) || (ar_evidenceRefs r === [])) (out_acceptanceResults o))).

Definition Outcome_refs_listed (o : Outcome) : bool :=
  negb (existsb (λ r, existsb (λ i, negb (bool_decide (i ∈ out_evidenceRefs o))) (ar_evidenceRefs r))
         (out_acceptanceResults o)).

Definition Outcome_parse (o : Outcome) : result Outcome :=
  ok_or (Id_ok (out_taskId o)) "taskId";;
  rs ← parse_all AcceptanceResult_parse (out_acceptanceResults o);
  ok_or (forallb Id_ok (out_evidenceRefs o)) "evidenceRefs";;
  summary ← Text_parse (out_summary o);
  ok_or (Timestamp_ok (out_completedAt o)) "completedAt";;
  ok_or (Outcome_evidenced o) "Completion requires evidence for every acceptance result";;
  ok_or (Outcome_refs_listed o) "Acceptance evidence missing from outcome";;
  Ok {| out_taskId := out_taskId o; out_status := out_status o; out_acceptanceResults := rs;
        out_evidenceRefs := out_evidenceRefs o; out_summary := summary;
        out_completedAt := out_completedAt o |}.

(** ** lifecycle.ts *)

Definition transitions (s : TaskStatus) : list TaskStatus :=
  match s with
  | RECEIVED => [COMPILED; FAILED; CANCELLED]
  | COMPILED => [READY; APPROVAL_REQUIRED; FAILED; CANCELLED]
  | READY => [RUNNING; CANCELLED; FAILED]
  | RUNNING => [WAITING; APPROVAL_REQUIRED; VERIFYING; FAILED; CANCELLED]
  | WAITING => [RUNNING; FAILED; CANCELLED]
  | APPROVAL_REQUIRED => [READY; RUNNING; FAILED; CANCELLED]
  | VERIFYING => [COMPLETED; FAILED; CANCELLED]
  | COMPLETED => []
  | FAILED => []
  | CANCELLED => []
  end.

Definition status_name (s : TaskStatus) : string :=
  match s with
  | RECEIVED => "RECEIVED" | COMPILED => "COMPILED" | READY => "READY" | RUNNING => "RUNNING"
  | WAITING => "WAITING" | APPROVAL_REQUIRED => "APPROVAL_REQUIRED" | VERIFYING => "VERIFYING"
  | COMPLETED => "COMPLETED" | FAILED => "FAILED" | CANCELLED => "CANCELLED"
  end.

Definition assertTransition (from to : TaskStatus) : result unit :=
  ensure (bool_decide (to ∈ transitions from))
    (js_error ("Invalid task transition: " +:+ status_name from +:+ " -> " +:+ status_name to)).

Definition passing (c : string) (rs : list AcceptanceResult) : list AcceptanceResult :=
  filter (λ r, ar_criterion r = c ∧ ar_passed r = true) rs.

(** The verifier passes only evidence it checked itself in [verified]. *)
Definition assertCompletion (task : Task) (outcome : Outcome) (verified : list Evidence)
  : result unit :=
  Outcome_parse outcome;;
  assertTransition (task_status task) COMPLETED;;
  ensure ((out_taskId outcome === task_id task) && (out_status outcome === O_COMPLETED))
    (js_error "Outcome does not complete this task");;
  ensure (bool_decide (length (task_acceptanceCriteria task) = length (out_acceptanceResults outcome))
     && negb (existsb (λ c, negb (bool_decide (length (passing c (out_acceptanceResults outcome)) = 1%nat)))
               (task_acceptanceCriteria task)))
    (js_error "Acceptance criteria mismatch");;
  ensure (negb (existsb (λ i, negb (existsb (λ e, (ev_id e === i) && (ev_taskId e === task_id task)) verified))
            (out_evidenceRefs outcome)))
    (js_error "Evidence not verified for this task").

(** ** The lifecycle as a state machine *)

Inductive task_step : TaskStatus → TaskStatus → Prop :=
  | task_step_intro from to : assertTransition from to = Ok tt → task_step from to.

(** A run: the statuses a task has been in, oldest first, each reached from the
    one before through [assertTransition], from [RECEIVED]. *)
Inductive task_run : list TaskStatus → TaskStatus → Prop :=
  | run_start : task_run [] RECEIVED
  | run_step past from to : task_run past from → task_step from to → task_run (past ++ [from]) to.

Lemma assertTransition_ok from to :
  assertTransition from to = Ok tt ↔ to ∈ transitions from.
Proof.
  unfold assertTransition, ensure. case_bool_decide; split; done.
Qed.

Lemma task_step_elem from to : task_step from to ↔ to ∈ transitions from.
Proof.
  split; [intros []; by apply assertTransition_ok|].
  intros H. constructor. by apply assertTransition_ok.
Qed.

(** What the history of a status must contain. *)
Definition history_of (s : TaskStatus) : list TaskStatus :=
  match s with
  | READY | APPROVAL_REQUIRED | RUNNING => [COMPILED]
  | WAITING | VERIFYING | COMPLETED => [COMPILED; RUNNING]
  | _ => []
  end.

Ltac case_status :=
  repeat match goal with
  | H : _ ∈ _ :: _ |- _ => apply elem_of_cons in H as [H|H]
  | H : _ ∈ [] |- _ => by apply elem_of_nil in H
  end; simplify_eq.

Lemma run_history past s : task_run past s → Forall (λ h, h ∈ past) (history_of s).
Proof.
  induction 1 as [|past from to Hrun IH Hstep]; [constructor|].
  apply task_step_elem in Hstep. rewrite Forall_forall in IH. apply Forall_forall.
  intros h Hh. apply elem_of_app.
  destruct from; simpl in *; case_status; simpl in *; case_status;
    try (right; apply elem_of_cons; by left); left; apply IH; repeat constructor.
Qed.

(** A task reaches COMPLETED only out of VERIFYING, after having been
    COMPILED and RUNNING ("no evidence means no COMPLETED state" rests on this
    order), and the run that got there cannot be extended: COMPLETED is final. *)
Theorem completed_only_through_verification past :
  task_run past COMPLETED →
  (∃ pre, past = pre ++ [VERIFYING] ∧ task_run pre VERIFYING ∧ COMPILED ∈ pre ∧ RUNNING ∈ pre)
  ∧ ∀ to, ¬ task_step COMPLETED to.
Proof.
  intros Hrun. split.
  - inversion Hrun as [|pre from to Hpre Hstep]; subst.
    apply task_step_elem in Hstep.
    destruct from; simpl in Hstep; case_status.
    exists pre. split_and!; [done|done|..]; apply run_history in Hpre;
      rewrite Forall_forall in Hpre; apply Hpre; repeat constructor.
  - intros to Hto%task_step_elem. simpl in Hto. case_status.
Qed.

Lemma completed_only_through_verification_witness :
  ∃ pre, [RECEIVED; COMPILED; READY; RUNNING; VERIFYING] = pre ++ [VERIFYING]
         ∧ COMPILED ∈ pre ∧ RUNNING ∈ pre.
Proof.
  assert (H : task_run [RECEIVED; COMPILED; READY; RUNNING; VERIFYING] COMPLETED).
  { change [RECEIVED; COMPILED; READY; RUNNING; VERIFYING]
      with (((((([] ++ [RECEIVED]) ++ [COMPILED]) ++ [READY]) ++ [RUNNING]) ++ [VERIFYING])).
    repeat (eapply run_step; [|constructor; reflexivity]). constructor. }
  destruct (completed_only_through_verification _ H) as [(pre & E & _ & H1 & H2) _].
  exists pre. split; [exact E|]. split; [exact H1|exact H2].
Defined.

(** *** Stored contracts re-parse to themselves *)

(** Run one step of a parser whose result is known. *)
Ltac parse_step H := rewrite H; cbn [mbind result_bind ensure ok_or].

Lemma strip_prefix_app p s t : strip_prefix p s = Some t ↔ s = p ++ t.
Proof.
  revert s. induction p as [|a p IH]; intros s; simpl; [naive_solver|].
  destruct s as [|b s]; [done|]. destruct (a =? b) eqn:E; to_prop; subst.
  - rewrite IH. naive_solver.
  - naive_solver.
Qed.

Lemma first_some_None {A B} (f : A → option B) l : first_some f l = None ↔ ∀ x, x ∈ l → f x = None.
Proof.
  induction l as [|x l IH]; simpl; [set_solver|]. destruct (f x) eqn:E.
  - split; [done|]. intros H. rewrite H in E by left. done.
  - rewrite IH. set_solver.
Qed.

Lemma first_some_Some {A B} (f : A → option B) l y : first_some f l = Some y → ∃ x, x ∈ l ∧ f x = Some y.
Proof.
  induction l as [|x l IH]; simpl; [done|]. destruct (f x) eqn:E.
  - intros [= <-]. exists x. split; [left|done].
  - intros (x' & ? & ?)%IH. exists x'. split; [by right|done].
Qed.

(** No separator starts [s]. *)
Definition unspaced (seps : list (list Z)) (s : list Z) : Prop := first_some (λ p, strip_prefix p s) seps = None.

Lemma strip_spaces_spec fuel seps s :
  Forall (λ p, p ≠ []) seps → (length s ≤ fuel)%nat →
  unspaced seps (strip_spaces fuel seps s) ∧ ∃ pre, s = pre ++ strip_spaces fuel seps s.
Proof.
  intros Hs. revert s. induction fuel as [|fuel IH]; intros s Hl; simpl.
  - destruct s; [|simpl in Hl; lia]. split; [|by exists []]. apply first_some_None.
    intros p Hp. rewrite Forall_forall in Hs. specialize (Hs p Hp). by destruct p.
  - destruct (first_some _ seps) as [t|] eqn:E; [|split; [done|by exists []]].
    apply first_some_Some in E as (p & Hp & ->%strip_prefix_app). rewrite Forall_forall in Hs.
    specialize (Hs p Hp). destruct (IH t) as (? & pre & Ht).
    { destruct p; [done|]. simpl in Hl. rewrite length_app in Hl. lia. }
    split; [done|]. exists (p ++ pre). by rewrite <- app_assoc, <- Ht.
Qed.

Lemma strip_spaces_unspaced fuel seps s : unspaced seps s → strip_spaces fuel seps s = s.
Proof. unfold unspaced. destruct fuel; simpl; [done|]. by intros ->. Qed.

Lemma unspaced_prefix seps s t : unspaced seps (s ++ t) → unspaced seps s.
Proof.
  unfold unspaced. rewrite !first_some_None. intros H p Hp. specialize (H p Hp).
  destruct (strip_prefix p s) as [u|] eqn:E; [|done]. apply strip_prefix_app in E as ->.
  rewrite <- app_assoc in H. rewrite (proj2 (strip_prefix_app _ _ _) eq_refl) in H. done.
Qed.

Lemma bytes_string_bytes bs : Forall (λ b, 0 <= b < 256) bs → Sha256.string_bytes (bytes_string bs) = bs.
Proof.
  intros H. unfold Sha256.string_bytes, bytes_string. rewrite String.list_ascii_of_string_of_list_ascii.
  induction H as [|b bs Hb _ IH]; simpl; [done|]. rewrite IH, N_ascii_embedding by lia. f_equal. lia.
Qed.

Lemma string_bytes_range s : Forall (λ b, 0 <= b < 256) (Sha256.string_bytes s).
Proof.
  unfold Sha256.string_bytes. apply Forall_map, Forall_forall. intros c _. simpl.
  pose proof (N_ascii_bounded c). lia.
Qed.

Lemma bytes_of_string s : bytes_string (Sha256.string_bytes s) = s.
Proof.
  unfold bytes_string, Sha256.string_bytes. rewrite map_map.
  rewrite (map_ext _ id); [rewrite map_id; apply String.string_of_list_ascii_of_string|].
  intros c. rewrite N2Z.id. apply ascii_N_embedding.
Qed.

(** No space at either end. *)
Definition trimmed (s : string) : Prop :=
  unspaced js_spaces (Sha256.string_bytes s) ∧ unspaced (map (@rev Z) js_spaces) (rev (Sha256.string_bytes s)).

Lemma js_trim_id s : trimmed s → js_trim s = s.
Proof.
  intros [Hf Hb]. unfold js_trim. rewrite (strip_spaces_unspaced _ js_spaces) by done.
  rewrite (strip_spaces_unspaced _ (map (@rev Z) js_spaces) _ Hb). by rewrite rev_involutive, bytes_of_string.
Qed.

Lemma js_trim_trimmed s : trimmed (js_trim s).
Proof.
  assert (Hn : Forall (λ p, p ≠ []) js_spaces) by (by repeat constructor).
  assert (Hn' : Forall (λ p, p ≠ []) (map (@rev Z) js_spaces)) by (by repeat constructor).
  unfold js_trim, trimmed. pose proof (string_bytes_range s) as Hr. set (bs := Sha256.string_bytes s) in *.
  destruct (strip_spaces_spec (length bs) js_spaces bs Hn) as (HF & pre & Hpre); [done|].
  set (F := strip_spaces (length bs) js_spaces bs) in *.
  destruct (strip_spaces_spec (length bs) (map (@rev Z) js_spaces) (rev F) Hn') as (HB & post & Hpost).
  { rewrite length_rev, Hpre, length_app. lia. }
  set (B := strip_spaces (length bs) (map (@rev Z) js_spaces) (rev F)) in *.
  assert (HFB : F = rev B ++ rev post) by (by rewrite <- rev_app_distr, <- Hpost, rev_involutive).
  assert (HrB : Forall (λ b, 0 <= b < 256) (rev B)).
  { rewrite Hpre, HFB in Hr. apply Forall_app in Hr as [_ Hr]. by apply Forall_app in Hr as [? _]. }
  clearbody B F. rewrite (bytes_string_bytes _ HrB), rev_involutive.
  split; [|exact HB]. apply (unspaced_prefix _ _ (rev post)). rewrite <- HFB. exact HF.
Qed.

Lemma js_trim_idem s : js_trim (js_trim s) = js_trim s.
Proof. apply js_trim_id, js_trim_trimmed. Qed.

Lemma Text_parse_idem s t : Text_parse s = Ok t → Text_parse t = Ok t.
Proof.
  unfold Text_parse. case_bool_decide; [done|]. intros <-%Ok_inj. rewrite js_trim_idem.
  by rewrite bool_decide_false.
Qed.

Lemma parse_all_idem {A} (f : A → result A) l l' :
  (∀ x y, f x = Ok y → f y = Ok y) → parse_all f l = Ok l' → parse_all f l' = Ok l'.
Proof.
  intros Hf. revert l'. induction l as [|x l IH]; intros l'; cbn [parse_all]; [by intros <-%Ok_inj|].
  intros (y & Hy & (ys & Hys & <-%Ok_inj)%bind_ok)%bind_ok. cbn [parse_all].
  by rewrite (Hf _ _ Hy), (IH _ Hys).
Qed.

Lemma parse_all_nil {A} (f : A → result A) l l' : parse_all f l = Ok l' → l' = [] ↔ l = [].
Proof.
  destruct l as [|x l]; cbn [parse_all]; [by intros <-%Ok_inj|].
  by intros (y & _ & (ys & _ & <-%Ok_inj)%bind_ok)%bind_ok.
Qed.

Lemma parse_all_elem {A} (f : A → result A) l l' y :
  parse_all f l = Ok l' → y ∈ l' → ∃ x, x ∈ l ∧ f x = Ok y.
Proof.
  revert l'. induction l as [|x l IH]; intros l'; cbn [parse_all].
  { intros <-%Ok_inj ?%elem_of_nil. done. }
  intros (z & Hz & (zs & Hzs & <-%Ok_inj)%bind_ok)%bind_ok [->|Hy]%elem_of_cons.
  - exists x. split; [left|done].
  - destruct (IH zs Hzs Hy) as (x' & ? & ?). exists x'. split; [by right|done].
Qed.

Lemma parse_all_length {A} (f : A → result A) l l' : parse_all f l = Ok l' → length l' = length l.
Proof.
  revert l'. induction l as [|x l IH]; intros l'; cbn [parse_all]; [by intros <-%Ok_inj|].
  intros (y & _ & (ys & Hys & <-%Ok_inj)%bind_ok)%bind_ok. simpl. by rewrite (IH _ Hys).
Qed.

Lemma Task_parse_idem t t' : Task_parse t = Ok t' → Task_parse t' = Ok t'.
Proof.
  unfold Task_parse, ok_or. intros [H1 H]%ensure_ok.
  apply bind_ok in H as (obj & H2%Text_parse_idem & H). apply bind_ok in H as (crit & H3 & H).
  apply ensure_ok in H as [H4 H]. apply bind_ok in H as (cons & H5%parse_all_idem & H); [|by apply Text_parse_idem].
  apply ensure_ok in H as [H6 H]. apply ensure_ok in H as [H7 H]. apply Ok_inj in H as <-.
  apply parse_all_idem in H3; [|by apply Text_parse_idem]. unfold Task_refined in *.
  cbn [task_id task_parentTaskId task_principal task_tenant task_objective task_acceptanceCriteria task_constraints
    task_budget task_deadline task_status task_traceId task_createdAt task_startedAt task_completedAt].
  parse_step H1. parse_step H2. parse_step H3. parse_step H4. parse_step H5. parse_step H6. by parse_step H7.
Qed.

(** What the schema of a task asks for: identifiers, trimmed texts, a budget, timestamps in order. *)
Record valid_task (t : Task) : Prop := {
  vt_ids : Forall (λ s, Id_ok s = true)
    (task_id t :: principal_id (task_principal t) :: task_tenant t :: task_traceId t :: option_list (task_parentTaskId t));
  vt_parent : task_parentTaskId t ≠ Some (task_id t);
  vt_texts : Forall (λ s, js_trim s ≠ EmptyString) (task_objective t :: task_acceptanceCriteria t ++ task_constraints t);
  vt_criteria : task_acceptanceCriteria t ≠ [];
  vt_budget : ∀ b, task_budget t = Some b → nonnegative (amount b) = true ∧ finite (amount b) = true ∧
    ∃ x y z, String.list_ascii_of_string (currency b) = [x; y; z] ∧ Forall (λ c, is_upper c = true) [x; y; z];
  vt_times : Forall (λ s, Timestamp_ok s = true)
    (task_createdAt t :: option_list (task_deadline t) ++ option_list (task_startedAt t) ++ option_list (task_completedAt t));
  vt_completed : task_status t = COMPLETED → is_Some (task_completedAt t);
  vt_started : ∀ s x y, task_startedAt t = Some s → Date_parse (task_createdAt t) = Some x → Date_parse s = Some y → x ≤ y;
  vt_ended : ∀ e x y, task_completedAt t = Some e →
    Date_parse (default (task_createdAt t) (task_startedAt t)) = Some x → Date_parse e = Some y → x ≤ y
}.

(** The task with its texts trimmed. *)
Definition trimmed_task (t : Task) : Task :=
  {| task_id := task_id t; task_parentTaskId := task_parentTaskId t; task_principal := task_principal t; task_tenant := task_tenant t;
     task_objective := js_trim (task_objective t); task_acceptanceCriteria := map js_trim (task_acceptanceCriteria t);
     task_constraints := map js_trim (task_constraints t); task_riskClass := task_riskClass t; task_budget := task_budget t;
     task_deadline := task_deadline t; task_status := task_status t; task_traceId := task_traceId t;
     task_createdAt := task_createdAt t; task_startedAt := task_startedAt t; task_completedAt := task_completedAt t |}.

Lemma Text_parse_exact s t : Text_parse s = Ok t ↔ js_trim s ≠ EmptyString ∧ t = js_trim s.
Proof.
  unfold Text_parse. case_bool_decide as E; (split; [|by intros [? ->]]); [done|]. by intros <-%Ok_inj.
Qed.

Lemma texts_exact l l' : parse_all Text_parse l = Ok l' ↔ Forall (λ s, js_trim s ≠ EmptyString) l ∧ l' = map js_trim l.
Proof.
  revert l'. induction l as [|s l IH]; intros l'; cbn [parse_all map].
  { split; [by intros <-%Ok_inj|by intros [_ ->]]. }
  split.
  - intros (t & [Ht ->]%Text_parse_exact & (ts & [Hts ->]%IH & <-%Ok_inj)%bind_ok)%bind_ok. by split; [constructor|].
  - intros [[Hs Hl]%Forall_cons_1 ->]. rewrite (proj2 (Text_parse_exact s _) (conj Hs eq_refl)).
    cbn [mbind result_bind]. by rewrite (proj2 (IH _) (conj Hl eq_refl)).
Qed.

Lemma opt_ok_forall {A} (f : A → bool) o : opt_ok f o = true ↔ Forall (λ x, f x = true) (option_list o).
Proof. destruct o as [x|]; cbn; [by rewrite Forall_singleton|done]. Qed.

Lemma not_before a b : date_lt a b = false ↔ ∀ x y, Date_parse b = Some x → Date_parse a = Some y → x ≤ y.
Proof.
  unfold date_lt. destruct (Date_parse a) as [y|], (Date_parse b) as [x|]; try by split. split.
  - intros H%Z.ltb_ge x' y' [= <-] [= <-]. done.
  - intros H. apply Z.ltb_ge. by apply H.
Qed.

Lemma Budget_ok_exact b : Budget_ok b = true ↔ nonnegative (amount b) = true ∧ finite (amount b) = true ∧
  ∃ x y z, String.list_ascii_of_string (currency b) = [x; y; z] ∧ Forall (λ c, is_upper c = true) [x; y; z].
Proof.
  unfold Budget_ok. rewrite !andb_true_iff. split.
  - intros [[? ?] Hc]. split_and!; try done. destruct (String.list_ascii_of_string _) as [|x [|y [|z [|? ?]]]]; try done.
    exists x, y, z. split; [done|]. to_prop. by repeat constructor.
  - intros (? & ? & x & y & z & -> & Hc). split; [done|]. rewrite !Forall_cons in Hc. destruct Hc as (-> & -> & -> & _). done.
Qed.

Lemma Task_refined_exact t : Task_refined t = true ↔ task_parentTaskId t ≠ Some (task_id t) ∧
  (task_status t = COMPLETED → is_Some (task_completedAt t)) ∧
  (∀ s x y, task_startedAt t = Some s → Date_parse (task_createdAt t) = Some x → Date_parse s = Some y → x ≤ y) ∧
  (∀ e x y, task_completedAt t = Some e →
     Date_parse (default (task_createdAt t) (task_startedAt t)) = Some x → Date_parse e = Some y → x ≤ y).
Proof.
  unfold Task_refined. rewrite !andb_true_iff, !negb_true_iff, bool_decide_eq_false.
  assert (Hc : (task_status t === COMPLETED) && (task_completedAt t === None) = false ↔ (task_status t = COMPLETED → is_Some (task_completedAt t))).
  { rewrite andb_false_iff, !bool_decide_eq_false, <- not_eq_None_Some. destruct (decide (task_status t = COMPLETED)); tauto. }
  assert (Ho : ∀ o b, match o with Some s => date_lt s b | None => false end = false ↔
    ∀ s x y, o = Some s → Date_parse b = Some x → Date_parse s = Some y → x ≤ y).
  { intros [s|] b; [|by split]. rewrite not_before. split; [intros H s' x y [= <-]; apply H|intros H x y; by apply H]. }
  rewrite Hc, !Ho. tauto.
Qed.

(** C37: The task contract, exactly.  [Task.parse] accepts a task precisely when its
    identifiers are UUIDs and it is not its own parent; its objective, criteria and
    constraints are not blank and there is a criterion; its budget, if any, is a finite
    amount that is not negative in a currency of three capitals; its times are timestamps, a
    COMPLETED task has its time of completion, and start and completion do not precede what
    comes before them.  What it returns is the task with its texts trimmed, which it accepts
    again unchanged. *)
Theorem Task_parse_exact t t' :
  (Task_parse t = Ok t' ↔ valid_task t ∧ t' = trimmed_task t) ∧ (Task_parse t = Ok t' → Task_parse t' = Ok t').
Proof.
  split; [|apply Task_parse_idem]. unfold Task_parse, ok_or. split.
  - intros [H1 H]%ensure_ok. apply bind_ok in H as (obj & [Ho ->]%Text_parse_exact & H).
    apply bind_ok in H as (crit & [Hcr ->]%texts_exact & H). apply ensure_ok in H as [Hn H].
    apply bind_ok in H as (cons & [Hco ->]%texts_exact & H). apply ensure_ok in H as [H2 H].
    apply ensure_ok in H as [(Hp & Hd & Hs & He)%Task_refined_exact <-%Ok_inj]. split; [|done].
    repeat match goal with
    | H : _ && _ = true |- _ => apply andb_true_iff in H as [? ?]
    | H : opt_ok _ _ = true |- _ => apply opt_ok_forall in H
    end.
    constructor; try done.
    + rewrite !Forall_cons. by split_and!.
    + constructor; [done|]. by apply Forall_app.
    + intros E. by rewrite E in Hn.
    + intros b Eb. apply Budget_ok_exact. match goal with H : Forall _ (option_list (task_budget t)) |- _ => rewrite Eb in H; by inversion H end.
    + constructor; [done|]. by rewrite !Forall_app.
  - intros [[Hi Hp Ht Hn Hb Htm Hc Hs He] ->]. rewrite !Forall_cons in Hi. destruct Hi as (I1 & I2 & I3 & I4 & I5).
    rewrite Forall_cons, Forall_app in Ht. destruct Ht as (T1 & T2 & T3). rewrite Forall_cons, !Forall_app in Htm.
    destruct Htm as (M1 & M2 & M3 & M4). rewrite <- !opt_ok_forall in *.
    rewrite I1, I2, I3, I5. cbn [andb ensure mbind result_bind]. rewrite (proj2 (Text_parse_exact _ _) (conj T1 eq_refl)).
    cbn [mbind result_bind]. rewrite (proj2 (texts_exact _ _) (conj T2 eq_refl)). cbn [mbind result_bind].
    rewrite (bool_decide_false (map js_trim (task_acceptanceCriteria t) = [])) by (intros E%map_eq_nil; done).
    cbn [negb ensure mbind result_bind]. rewrite (proj2 (texts_exact _ _) (conj T3 eq_refl)). cbn [mbind result_bind].
    assert (opt_ok Budget_ok (task_budget t) = true) as ->.
    { destruct (task_budget t) as [b|]; [|done]. apply Budget_ok_exact. by apply Hb. }
    rewrite M1, M2, M3, M4, I4. cbn [andb ensure mbind result_bind].
    by rewrite (proj2 (Task_refined_exact t)).
Qed.

Lemma AcceptanceResult_parse_idem r r' : AcceptanceResult_parse r = Ok r' → AcceptanceResult_parse r' = Ok r'.
Proof.
  unfold AcceptanceResult_parse, ok_or. intros (c & H1%Text_parse_idem & H)%bind_ok.
  apply ensure_ok in H as [H2 <-%Ok_inj].
  cbn [ar_criterion ar_evidenceRefs ar_passed]. parse_step H1. by parse_step H2.
Qed.

Lemma existsb_parse_all {A} (f : A → result A) (g : A → bool) l l' :
  (∀ x y, f x = Ok y → g y = g x) → parse_all f l = Ok l' → existsb g l' = existsb g l.
Proof.
  intros Hf. revert l'. induction l as [|x l IH]; intros l'; cbn [parse_all]; [by intros <-%Ok_inj|].
  intros (y & Hy & (ys & Hys & <-%Ok_inj)%bind_ok)%bind_ok. simpl. by rewrite (Hf _ _ Hy), (IH _ Hys).
Qed.

Lemma AcceptanceResult_parse_fields r r' :
  AcceptanceResult_parse r = Ok r' → ar_passed r' = ar_passed r ∧ ar_evidenceRefs r' = ar_evidenceRefs r.
Proof.
  unfold AcceptanceResult_parse, ok_or. intros (c & _ & H)%bind_ok. by apply ensure_ok in H as [_ <-%Ok_inj].
Qed.

Lemma accepted_same x y :
  AcceptanceResult_parse x = Ok y →
  negb (ar_passed y) || (ar_evidenceRefs y === []) = negb (ar_passed x) || (ar_evidenceRefs x === []).
Proof. by intros [-> ->]%AcceptanceResult_parse_fields. Qed.

Lemma listed_same (refs : list string) x y :
  AcceptanceResult_parse x = Ok y →
  existsb (λ i, negb (bool_decide (i ∈ refs))) (ar_evidenceRefs y) =
  existsb (λ i, negb (bool_decide (i ∈ refs))) (ar_evidenceRefs x).
Proof. by intros [_ ->]%AcceptanceResult_parse_fields. Qed.

Lemma Outcome_parse_idem o o' : Outcome_parse o = Ok o' → Outcome_parse o' = Ok o'.
Proof.
  unfold Outcome_parse, ok_or. intros [H1 H]%ensure_ok. apply bind_ok in H as (rs & H2 & H).
  apply ensure_ok in H as [H3 H]. apply bind_ok in H as (sm & H4%Text_parse_idem & H).
  apply ensure_ok in H as [H5 H]. apply ensure_ok in H as [H6 H]. apply ensure_ok in H as [H7 <-%Ok_inj].
  pose proof (parse_all_idem _ _ _ AcceptanceResult_parse_idem H2) as H2'.
  unfold Outcome_evidenced, Outcome_refs_listed in *.
  cbn [out_taskId out_status out_acceptanceResults out_evidenceRefs out_summary out_completedAt].
  parse_step H1. parse_step H2'. parse_step H3. parse_step H4. parse_step H5.
  rewrite (existsb_parse_all _ _ _ _ accepted_same H2), (existsb_parse_all _ _ _ _ (listed_same (out_evidenceRefs o)) H2),
    (parse_all_length _ _ _ H2). parse_step H6. by parse_step H7.
Qed.

(** *** assertCompletion *)

Lemma existsb_negb_false {A} (f : A → bool) l :
  negb (existsb (λ x, negb (f x)) l) = true ↔ Forall (λ x, f x = true) l.
Proof.
  induction l as [|x l IH]; simpl; [by split; constructor|].
  rewrite negb_orb, negb_involutive, andb_true_iff, Forall_cons, IH. done.
Qed.

Lemma existsb_elem {A} (f : A → bool) l :
  existsb f l = true ↔ ∃ x, x ∈ l ∧ f x = true.
Proof.
  rewrite existsb_exists. split; intros (x & Hx & Hf); exists x; split; try done;
    by apply list_elem_of_In.
Qed.

Lemma passing_one c rs :
  length (passing c rs) = 1%nat → ∃ r, r ∈ rs ∧ ar_criterion r = c ∧ ar_passed r = true.
Proof.
  unfold passing. intros Hl.
  destruct (filter _ rs) as [|r [|]] eqn:E; try discriminate.
  assert (Hr : r ∈ r :: []) by left. rewrite <- E in Hr.
  apply list_elem_of_filter in Hr as [[? ?] ?]. eauto.
Qed.

Lemma Outcome_parse_ok o o' :
  Outcome_parse o = Ok o' →
  Outcome_evidenced o = true ∧ Outcome_refs_listed o = true ∧ Timestamp_ok (out_completedAt o) = true.
Proof.
  unfold Outcome_parse, ok_or. intros H. inv_ok. done.
Qed.

(** An accepted completion rests on at least one verified record. *)
Lemma assertCompletion_one task outcome verified :
  assertCompletion task outcome verified = Ok tt →
  task_status task = VERIFYING ∧ ∃ e, e ∈ verified.
Proof.
  unfold assertCompletion. intros H.
  destruct (Outcome_parse outcome) as [o'|] eqn:Hp; [|discriminate].
  apply Outcome_parse_ok in Hp as (Hev & _). cbn in H.
  destruct (assertTransition _ _) as [[]|] eqn:Ht; [|discriminate].
  apply assertTransition_ok in Ht. cbn in H. inv_ok.
  destruct (negb (existsb _ (out_evidenceRefs outcome))) eqn:Hver; [|discriminate].
  apply existsb_negb_false in Hver.
  split; [destruct (task_status task); simpl in Ht; case_status; done|].
  to_prop. unfold Outcome_evidenced in Hev.
  match goal with Hs : out_status outcome = _ |- _ => rewrite Hs in Hev end.
  rewrite (bool_decide_true (O_COMPLETED = O_COMPLETED)) in Hev by done. simpl in Hev.
  destruct (out_evidenceRefs outcome) as [|i refs]; [by rewrite bool_decide_true in Hev|].
  apply Forall_cons in Hver as [Hi _]. apply existsb_elem in Hi as (e & He & _). eauto.
Qed.

Lemma assertCompletion_cited task outcome verified :
  assertCompletion task outcome verified = Ok tt →
  task_status task = VERIFYING ∧ out_status outcome = O_COMPLETED ∧ out_taskId outcome = task_id task ∧
  length (out_acceptanceResults outcome) = length (task_acceptanceCriteria task) ∧
  ∀ c, c ∈ task_acceptanceCriteria task →
    ∃ r, r ∈ out_acceptanceResults outcome ∧ ar_criterion r = c ∧ ar_passed r = true ∧
      ar_evidenceRefs r ≠ [] ∧
      ∀ i, i ∈ ar_evidenceRefs r → ∃ e, e ∈ verified ∧ ev_id e = i ∧ ev_taskId e = task_id task.
Proof.
  unfold assertCompletion. intros H.
  destruct (Outcome_parse outcome) as [o'|] eqn:Hp; [|discriminate].
  apply Outcome_parse_ok in Hp as (Hev & Hrefs & _). cbn in H.
  destruct (assertTransition _ _) as [[]|] eqn:Ht; [|discriminate].
  apply assertTransition_ok in Ht. cbn in H. inv_ok.
  destruct (negb (existsb _ (out_evidenceRefs outcome))) eqn:Hver; [|discriminate].
  rewrite existsb_negb_false in Hver.
  apply andb_true_iff in Heqb as [Hid Hst], Heqb0 as [Hlen H3].
  apply existsb_negb_false in H3. to_prop.
  split_and!; [destruct (task_status task); simpl in Ht; case_status; done|done|done|done|].
  intros c Hc. rewrite Forall_forall in H3. specialize (H3 c Hc).
  apply bool_decide_eq_true, passing_one in H3 as (r & Hr & Hcr & Hpr).
  exists r. split_and!; [done|done|done|..].
  - intros Hnil. unfold Outcome_evidenced in Hev. rewrite Hst in Hev.
    rewrite bool_decide_true in Hev by done. simpl in Hev.
    apply negb_true_iff, orb_false_iff in Hev as [_ Hev].
    assert (existsb (λ r0, negb (ar_passed r0) || (ar_evidenceRefs r0 === [])) (out_acceptanceResults outcome) = true);
      [|congruence].
    apply existsb_elem. exists r. split; [done|]. by rewrite Hnil, orb_true_r.
  - intros i Hi. unfold Outcome_refs_listed in Hrefs.
    assert (Hl : i ∈ out_evidenceRefs outcome).
    { destruct (decide (i ∈ out_evidenceRefs outcome)) as [|Hn]; [done|].
      apply negb_true_iff in Hrefs. rewrite <- not_true_iff_false in Hrefs. destruct Hrefs.
      apply existsb_elem. exists r. split; [done|]. apply existsb_elem. exists i.
      by rewrite bool_decide_false. }
    rewrite Forall_forall in Hver. specialize (Hver i Hl).
    apply existsb_elem in Hver as (e & He & Hb). to_prop. eauto.
Qed.

(** A completion is accepted only for the task being verified, and then
    every acceptance criterion has a passing result whose evidence is not empty
    and consists of evidence the verifier checked for this very task. *)
Theorem assertCompletion_evidence task outcome verified :
  assertCompletion task outcome verified = Ok tt →
  task_status task = VERIFYING ∧ out_taskId outcome = task_id task ∧
  length (out_acceptanceResults outcome) = length (task_acceptanceCriteria task) ∧
  ∀ c, c ∈ task_acceptanceCriteria task →
    ∃ r, r ∈ out_acceptanceResults outcome ∧ ar_criterion r = c ∧ ar_passed r = true ∧
      ar_evidenceRefs r ≠ [] ∧
      ∀ i, i ∈ ar_evidenceRefs r → ∃ e, e ∈ verified ∧ ev_id e = i ∧ ev_taskId e = task_id task.
Proof. intros (? & _ & ? & ? & ?)%assertCompletion_cited. by split_and!. Qed.

(** A concrete task under verification, used by the witnesses. *)
Definition sample_id (n : Z) : string := "00000000-0000-4000-8000-0000000000" +:+ digits 2 n.

Definition sample_task (st : TaskStatus) (criterion : string) : Task :=
  {| task_id := sample_id 1; task_parentTaskId := None;
     task_principal := {| principal_id := sample_id 2; principal_kind := HUMAN |};
     task_tenant := sample_id 3; task_objective := "abc";
     task_acceptanceCriteria := [criterion]; task_constraints := [];
     task_riskClass := LOW; task_budget := None; task_deadline := None; task_status := st;
     task_traceId := sample_id 4; task_createdAt := "2026-09-15T16:00:00.000Z";
     task_startedAt := None; task_completedAt := None |}.

Definition sample_evidence : Evidence :=
  {| ev_id := sample_id 5; ev_taskId := sample_id 1; ev_stepId := None;
     ev_type := DETERMINISTIC_RESULT; ev_source := "kernel"; ev_ref := Some "r"; ev_uri := None;
     ev_digest := None; ev_capturedAt := "2026-09-15T16:00:01.000Z"; ev_metadata := [] |}.

Definition sample_outcome : Outcome :=
  {| out_taskId := sample_id 1; out_status := O_COMPLETED;
     out_acceptanceResults :=
       [{| ar_criterion := "done"; ar_passed := true; ar_evidenceRefs := [sample_id 5] |}];
     out_evidenceRefs := [sample_id 5]; out_summary := "ok";
     out_completedAt := "2026-09-15T16:00:02.000Z" |}.

Lemma assertCompletion_evidence_witness :
  ∃ r, r ∈ out_acceptanceResults sample_outcome ∧ ar_passed r = true.
Proof.
  destruct (assertCompletion_evidence (sample_task VERIFYING "done") sample_outcome [sample_evidence])
    as (_ & _ & _ & Hc); [vm_compute; reflexivity|].
  destruct (Hc "done") as (r & Hr & _ & Hp & _); [left|].
  exists r. split; [exact Hr|exact Hp].
Defined.

Lemma Task_parse_exact_witness :
  ∃ t, Task_parse (sample_task VERIFYING " done ") = Ok t ∧ Task_parse t = Ok t ∧ task_acceptanceCriteria t = ["done"] ∧
    valid_task (sample_task VERIFYING " done ").
Proof.
  assert (Hp : Task_parse (sample_task VERIFYING " done ") = Ok (sample_task VERIFYING "done")) by (vm_compute; reflexivity).
  destruct (Task_parse_exact (sample_task VERIFYING " done ") (sample_task VERIFYING "done")) as [Hv Hi].
  exists (sample_task VERIFYING "done"). split; [exact Hp|]. split; [exact (Hi Hp)|]. split; [reflexivity|].
  exact (proj1 (proj1 Hv Hp)).
Defined.
