(* ===== verification/Plan.v ===== *)
(** * Plans: the execution graph, the planner and the deterministic executor

    packages/contracts/src/plan.ts ([ExecutionPlan] and its [superRefine]),
    services/kernel/src/planner/index.ts, the recipe functions of
    services/kernel/src/deterministic.ts and services/kernel/src/executor/index.ts,
    and [compileIntent] of services/kernel/src/compiler/index.ts. *)

From S2P Require Import Prelude JsNumber JsDate Digest Contracts.
Local Open Scope Z_scope.
Local Open Scope js_scope.

(** ** plan.ts *)

Inductive RecipeId :=
  | UppercaseReverse | Uppercase | RepositoryRead | ClaudeMdCheck
  | RepoAnalysisMission | IdentityChange | MorningBrief.

#[export] Instance RecipeId_eq_dec : EqDecision RecipeId.
Proof. solve_decision. Defined.

Definition recipe_name (r : RecipeId) : string :=
  match r with
  | UppercaseReverse => "uppercase-reverse/v1"
  | Uppercase => "uppercase/v1"
  | RepositoryRead => "repository-read/v1"
  | ClaudeMdCheck => "claude_md_check/v1"
  | RepoAnalysisMission => "repo-analysis-mission/v1"
  | IdentityChange => "identity-change/v1"
  | MorningBrief => "morning-brief/v1"
  end.

Inductive Operation :=
  | OP_UPPERCASE | OP_REVERSE | OP_WAIT_FOR_EVENT | OP_REPOSITORY_READ | OP_GITHUB_EVIDENCE
  | OP_RUNTIME_ANALYSE | OP_RUNTIME_REVIEW | OP_RECONCILE | OP_IDENTITY_GOVERN.

#[export] Instance Operation_eq_dec : EqDecision Operation.
Proof. solve_decision. Defined.

Inductive StepInput :=
  | TASK_OBJECTIVE
  | STEP_OUTPUT (stepId : string).

#[export] Instance StepInput_eq_dec : EqDecision StepInput.
Proof. solve_decision. Defined.

Record PlanStep := {
  ps_id : string;
  ps_taskId : string;
  ps_operation : Operation;
  ps_dependencies : list string;
  ps_input : StepInput
}.

#[export] Instance PlanStep_eq_dec : EqDecision PlanStep.
Proof. solve_decision. Defined.

(** The [version] field is the literal 1. *)
Record ExecutionPlan := {
  plan_taskId : string;
  plan_recipe : RecipeId;
  plan_steps : list PlanStep;
  plan_resultStepId : string
}.

(** A JavaScript [Set] of strings, in insertion order. *)
Definition set_add (s : list string) (x : string) : list string :=
  if bool_decide (x ∈ s) then s else s ++ [x].

Definition to_set (l : list string) : list string := fold_left set_add l [].

Definition deps_in (s : PlanStep) (resolved : list string) : bool :=
  forallb (λ d, bool_decide (d ∈ resolved)) (ps_dependencies s).

Definition ready (resolved : list string) (s : PlanStep) : bool :=
  negb (bool_decide (ps_id s ∈ resolved)) && deps_in s resolved.

(** The resolution loop: [true] when every id gets resolved, [false] when a round
    finds no ready step.  Every round resolves a new id, so as many rounds as
    ids are enough fuel. *)
Fixpoint resolves (fuel : nat) (steps : list PlanStep) (ids resolved : list string) : bool :=
  if (length resolved <? length ids)%nat then
    match fuel with
    | O => false
    | S fuel' =>
        match List.filter (ready resolved) steps with
        | [] => false
        | rs => resolves fuel' steps ids (fold_left set_add (map ps_id rs) resolved)
        end
    end
  else true.

Definition find_step (steps : list PlanStep) (i : string) : option PlanStep :=
  List.find (λ s, ps_id s === i) steps.

(** [visit]: the ids a step depends on, itself included.  The call depth is
    bounded by the number of steps: each level adds the id of another step. *)
Fixpoint visit (fuel : nat) (steps : list PlanStep) (i : string) (ancestors : list string)
  : list string :=
  if bool_decide (i ∈ ancestors) then ancestors
  else
    match fuel with
    | O => ancestors ++ [i]
    | S fuel' =>
        match find_step steps i with
        | None => ancestors ++ [i]
        | Some s => fold_left (λ anc d, visit fuel' steps d anc) (ps_dependencies s) (ancestors ++ [i])
        end
    end.

(** The issues of [superRefine], in the order they are added. *)
Definition issue (c : bool) (msg : string) : list string := if c then [msg] else [].

Definition step_issues (plan : ExecutionPlan) (ids : list string) (s : PlanStep) : list string :=
  issue (ps_taskId s !== plan_taskId plan) "Step belongs to another task" ++
  issue (negb (bool_decide (length (to_set (ps_dependencies s)) = length (ps_dependencies s))))
    "Duplicate dependencies" ++
  issue (existsb (λ d, negb (bool_decide (d ∈ ids)) || (d === ps_id s)) (ps_dependencies s))
    "Invalid dependency" ++
  issue (match ps_input s with
         | STEP_OUTPUT i => negb (bool_decide (i ∈ ps_dependencies s))
         | TASK_OBJECTIVE => false end)
    "Input must reference a direct dependency".

Definition plan_issues (plan : ExecutionPlan) : list string :=
  let steps := plan_steps plan in
  let ids := to_set (map ps_id steps) in
  issue (negb (bool_decide (length ids = length steps))) "Duplicate step IDs" ++
  issue (negb (bool_decide (plan_resultStepId plan ∈ ids))) "Unknown result step" ++
  concat (map (step_issues plan ids) steps) ++
  issue (negb (resolves (length ids) steps ids [])) "Graph contains a cycle or unresolved dependency" ++
  (let ancestors := visit (S (length steps)) steps (plan_resultStepId plan) [] in
   issue (existsb (λ s, negb (bool_decide (ps_id s ∈ ancestors))) steps)
     "Step does not contribute to result").

Definition PlanStep_ok (s : PlanStep) : bool :=
  Id_ok (ps_id s) && Id_ok (ps_taskId s) && forallb Id_ok (ps_dependencies s) &&
  match ps_input s with STEP_OUTPUT i => Id_ok i | TASK_OBJECTIVE => true end.

Definition ExecutionPlan_parse (plan : ExecutionPlan) : result ExecutionPlan :=
  ok_or (Id_ok (plan_taskId plan) && forallb PlanStep_ok (plan_steps plan)
         && (1 <=? length (plan_steps plan))%nat && (length (plan_steps plan) <=? 32)%nat
         && Id_ok (plan_resultStepId plan)) "plan fields";;
  match plan_issues plan with
  | [] => Ok plan
  | m :: _ => Throw (zod_error m)
  end.

(** ** planner/index.ts *)

Definition id_compare (a b : PlanStep) : Z :=
  match String.compare (ps_id a) (ps_id b) with Lt => -1 | Gt => 1 | Eq => 0 end.

(** [next] is [undefined] when no step is ready, and reading [next.id] throws. *)
Fixpoint ordered_loop (fuel : nat) (steps : list PlanStep) (done : list string)
    (acc : list PlanStep) : result (list PlanStep) :=
  if (length acc <? length steps)%nat then
    match fuel with
    | O => Throw (js_error "out of fuel")
    | S fuel' =>
        match js_sort id_compare (List.filter (ready done) steps) with
        | [] => Throw (Exn "TypeError" "Cannot read properties of undefined (reading 'id')")
        | next :: _ => ordered_loop fuel' steps (set_add done (ps_id next)) (acc ++ [next])
        end
    end
  else Ok acc.

Definition orderedSteps (raw : ExecutionPlan) : result (list PlanStep) :=
  plan ← ExecutionPlan_parse raw;
  ordered_loop (length (plan_steps plan)) (plan_steps plan) [] [].

(** ** deterministic.ts *)

Definition CRITERION : string := "Output equals reverse(uppercase(trim(objective)))".

(** The bytes of a UTF-8 string cut into code points: a byte 128-191 continues
    the code point before it.  [Array.from(s)] iterates code points. *)
Fixpoint code_points (bs : list Z) : list (list Z) :=
  match bs with
  | [] => []
  | b :: bs' =>
      match code_points bs' with
      | (c :: cp) :: rest =>
          if (128 <=? c) && (c <? 192) then (b :: c :: cp) :: rest else [b] :: (c :: cp) :: rest
      | cps => [b] :: cps
      end
  end.

(** [Array.from(input).reverse().join("")] *)
Definition stepB (input : string) : string :=
  bytes_string (concat (rev (code_points (Sha256.string_bytes input)))).

(** ** compiler/index.ts *)

Definition criteria (r : RecipeId) : string :=
  match r with
  | UppercaseReverse => CRITERION
  | Uppercase => "Output equals uppercase(trim(objective))"
  | RepositoryRead => "repository.read returns content_sha256 (64 hex) with mutations_detected=0"
  | ClaudeMdCheck =>
      "repository.read of CLAUDE.md returns content_sha256 == approved digest with mutations_detected=0"
  | RepoAnalysisMission =>
      "An independent reviewer accepts an analysis whose head SHA and cited paths match the GitHub evidence, re-derived from persisted evidence"
  | IdentityChange =>
      "The identity-change task completes only once a corresponding identity_activations row exists, bound to this exact task id, with a governance class independently derived by the database from the actual document diff"
  | MorningBrief =>
      "An independent reviewer accepts a brief whose every item cites references present in the captured activity evidence, re-derived from persisted evidence"
  end.

Record IntentEnvelope := {
  in_id : string;
  in_principal : PrincipalRef;
  in_tenant : string;
  in_source : string;
  in_objective : string;
  in_attachments : list string;
  in_contextRefs : list string;
  in_receivedAt : string;
  in_trace : TraceRef
}.

Definition IntentEnvelope_parse (i : IntentEnvelope) : result IntentEnvelope :=
  ok_or (Id_ok (in_id i) && Id_ok (principal_id (in_principal i)) && Id_ok (in_tenant i)) "intent ids";;
  src ← Text_parse (in_source i);
  obj ← Text_parse (in_objective i);
  att ← parse_all Text_parse (in_attachments i);
  refs ← parse_all Text_parse (in_contextRefs i);
  ok_or (Timestamp_ok (in_receivedAt i)) "receivedAt";;
  tr ← TraceRef_parse (in_trace i);
  Ok {| in_id := in_id i; in_principal := in_principal i; in_tenant := in_tenant i;
        in_source := src; in_objective := obj; in_attachments := att; in_contextRefs := refs;
        in_receivedAt := in_receivedAt i; in_trace := tr |}.

Record KernelSubmission := { sub_intent : IntentEnvelope; sub_recipe : RecipeId }.

Definition KernelSubmission_parse (s : KernelSubmission) : result KernelSubmission :=
  i ← IntentEnvelope_parse (sub_intent s); Ok {| sub_intent := i; sub_recipe := sub_recipe s |}.

(** The task identity: a function of the tenant, the intent and the recipe. *)
Definition compiled_task_id (i : IntentEnvelope) (r : RecipeId) : string :=
  stableId (JObj [("tenant", JStr (in_tenant i)); ("intentId", JStr (in_id i));
                  ("recipe", JStr (recipe_name r))]).

Section compiler.
(** The objective grammars of the mission, brief and identity-change recipes
    (mission.ts, brief.ts, primary-identity.ts), which reject at admission. *)
Context (parse_objective : RecipeId → string → result unit).

Definition compileIntent (raw : KernelSubmission) : result (Task * KernelSubmission) :=
  submission ← KernelSubmission_parse raw;
  let intent := sub_intent submission in
  let recipe := sub_recipe submission in
  (if recipe === RepoAnalysisMission then parse_objective recipe (in_objective intent) else Ok tt);;
  (if recipe === MorningBrief then parse_objective recipe (in_objective intent) else Ok tt);;
  (if recipe === IdentityChange then parse_objective recipe (in_objective intent) else Ok tt);;
  ensure ((in_attachments intent === []) && (in_contextRefs intent === []))
    (js_error "Attachments and context references are not supported by these recipes");;
  task ← Task_parse
    {| task_id := compiled_task_id intent recipe; task_parentTaskId := None;
       task_principal := in_principal intent; task_tenant := in_tenant intent;
       task_objective := in_objective intent; task_acceptanceCriteria := [criteria recipe];
       task_constraints := []; task_riskClass := LOW; task_budget := None; task_deadline := None;
       task_status := RECEIVED; task_traceId := tr_traceId (in_trace intent);
       task_createdAt := in_receivedAt intent; task_startedAt := None; task_completedAt := None |};
  Ok (task, submission).
End compiler.

(** ** planner/index.ts: planTask and projectStep *)

Definition operations (r : RecipeId) : list Operation :=
  match r with
  | UppercaseReverse => [OP_UPPERCASE; OP_WAIT_FOR_EVENT; OP_REVERSE]
  | RepoAnalysisMission | MorningBrief =>
      [OP_GITHUB_EVIDENCE; OP_RUNTIME_ANALYSE; OP_RUNTIME_REVIEW; OP_RECONCILE]
  | RepositoryRead | ClaudeMdCheck => [OP_REPOSITORY_READ]
  | IdentityChange => [OP_IDENTITY_GOVERN]
  | Uppercase => [OP_UPPERCASE]
  end.

Definition plan_step_id (taskId : string) (r : RecipeId) (index : Z) : string :=
  stableId (JArr [JStr taskId; JStr (recipe_name r); JNum index]).

Definition plan_step (taskId : string) (r : RecipeId) (index : nat) (op : Operation) : PlanStep :=
  let previous := plan_step_id taskId r (Z.of_nat index - 1) in
  {| ps_id := plan_step_id taskId r (Z.of_nat index);
     ps_taskId := taskId;
     ps_operation := op;
     ps_dependencies := if (index =? 0)%nat then [] else [previous];
     ps_input := if (index =? 0)%nat then TASK_OBJECTIVE else STEP_OUTPUT previous |}.

Definition planTask (raw : Task) (recipe : RecipeId) : result ExecutionPlan :=
  task ← Task_parse raw;
  ensure (negb ((task_riskClass task !== LOW) || (task_constraints task !== [])
                || (task_budget task !== None) || (task_deadline task !== None)
                || (task_acceptanceCriteria task !== [criteria recipe])))
    (js_error "Task requirements do not match recipe");;
  let steps := imap (plan_step (task_id task) recipe) (operations recipe) in
  ExecutionPlan_parse
    {| plan_taskId := task_id task; plan_recipe := recipe; plan_steps := steps;
       plan_resultStepId := from_option ps_id EmptyString (last steps) |}.

Definition input_json (i : StepInput) : json :=
  match i with
  | TASK_OBJECTIVE => JObj [("source", JStr "TASK_OBJECTIVE")]
  | STEP_OUTPUT s => JObj [("source", JStr "STEP_OUTPUT"); ("stepId", JStr s)]
  end.

Definition projectStep (s : PlanStep) : result TaskStep :=
  TaskStep_parse
    {| step_id := ps_id s; step_taskId := ps_taskId s;
       step_kind :=
         match ps_operation s with
         | OP_WAIT_FOR_EVENT => WAIT_FOR_EVENT
         | OP_REPOSITORY_READ => SANDBOX_EXEC
         | OP_GITHUB_EVIDENCE => TOOL_CALL
         | OP_RUNTIME_ANALYSE | OP_RUNTIME_REVIEW => LLM_CALL
         | _ => DETERMINISTIC_FUNCTION
         end;
       step_status := READY; step_dependencies := ps_dependencies s;
       step_requiredCapabilities :=
         match ps_operation s with
         | OP_REPOSITORY_READ =>
             [{| cap_id := "60000000-0000-4000-8000-000000000003"; cap_version := "1.0.0" |}]
         | OP_GITHUB_EVIDENCE =>
             [{| cap_id := "60000000-0000-4000-8000-0000000000a1"; cap_version := "1.0.0" |}]
         | _ => []
         end;
       step_riskClass := LOW; step_retryPolicy := {| maxAttempts := 1; backoffMs := 0 |};
       step_timeout := None; step_input := input_json (ps_input s); step_output := None;
       step_idempotencyKey := Some (ps_taskId s +:+ ":" +:+ ps_id s) |}.

(** ** executor/index.ts *)

Section executor.
(** [String.prototype.toUpperCase]: the Unicode tables are the engine's. *)
Context (toUpperCase : string → string).

Definition stepA (input : string) : string := toUpperCase (js_trim input).

Definition resolveInput (step : PlanStep) (task : Task) (outputs : gmap string string)
  : result string :=
  ensure (ps_taskId step === task_id task) (js_error "Step/task mismatch");;
  match ps_input step with
  | TASK_OBJECTIVE => Ok (task_objective task)
  | STEP_OUTPUT i =>
      match outputs !! i with
      | Some v => if bool_decide (i ∈ ps_dependencies step) then Ok v
                  else Throw (js_error "Dependency output is not available")
      | None => Throw (js_error "Dependency output is not available")
      end
  end.

Definition executeFunction (op : Operation) (input : string) : result string :=
  match op with
  | OP_UPPERCASE => Ok (stepA input)
  | OP_REVERSE => Ok (stepB input)
  | _ => Throw (js_error "Operation requires durable workflow handling")
  end.

(** The independent expected-result calculation of [verifyPlanCompletion]. *)
Definition expected_output (op : Operation) (input : string) : string :=
  match op with
  | OP_UPPERCASE => stepA input
  | OP_REVERSE => stepB input
  | _ => input
  end.

Fixpoint expected_outputs (task : Task) (nodes : list PlanStep) (outputs : gmap string string)
  : result (gmap string string) :=
  match nodes with
  | [] => Ok outputs
  | node :: rest =>
      input ← resolveInput node task outputs;
      expected_outputs task rest (<[ps_id node := expected_output (ps_operation node) input]> outputs)
  end.
End executor.

(** ** verifyPlanCompletion *)

Definition operation_name (op : Operation) : string :=
  match op with
  | OP_UPPERCASE => "UPPERCASE" | OP_REVERSE => "REVERSE" | OP_WAIT_FOR_EVENT => "WAIT_FOR_EVENT"
  | OP_REPOSITORY_READ => "REPOSITORY_READ" | OP_GITHUB_EVIDENCE => "GITHUB_EVIDENCE"
  | OP_RUNTIME_ANALYSE => "RUNTIME_ANALYSE" | OP_RUNTIME_REVIEW => "RUNTIME_REVIEW"
  | OP_RECONCILE => "RECONCILE" | OP_IDENTITY_GOVERN => "IDENTITY_GOVERN"
  end.

(** The JSON of parsed contracts, keys in schema order, absent options left out. *)
Definition plan_step_json (s : PlanStep) : json :=
  JObj [("id", JStr (ps_id s)); ("taskId", JStr (ps_taskId s));
        ("operation", JStr (operation_name (ps_operation s)));
        ("dependencies", JArr (map JStr (ps_dependencies s))); ("input", input_json (ps_input s))].

Definition plan_json (p : ExecutionPlan) : json :=
  JObj [("version", JNum 1); ("taskId", JStr (plan_taskId p));
        ("recipe", JStr (recipe_name (plan_recipe p)));
        ("steps", JArr (map plan_step_json (plan_steps p)));
        ("resultStepId", JStr (plan_resultStepId p))].

Definition kind_name (k : StepKind) : string :=
  match k with
  | DETERMINISTIC_FUNCTION => "DETERMINISTIC_FUNCTION" | TOOL_CALL => "TOOL_CALL"
  | LLM_CALL => "LLM_CALL" | AGENT_LOOP => "AGENT_LOOP" | PARALLEL_MAP => "PARALLEL_MAP"
  | SANDBOX_EXEC => "SANDBOX_EXEC" | HUMAN_APPROVAL => "HUMAN_APPROVAL"
  | WAIT_FOR_EVENT => "WAIT_FOR_EVENT" | SCHEDULE => "SCHEDULE" | SUBWORKFLOW => "SUBWORKFLOW"
  end.

Definition risk_name (r : RiskClass) : string :=
  match r with
  | LOW => "LOW" | MEDIUM => "MEDIUM" | HIGH => "HIGH" | CRITICAL_RISK => "CRITICAL"
  end.

Definition opt_field (k : string) (o : option json) : list (string * json) :=
  match o with Some v => [(k, v)] | None => [] end.

Definition task_step_json (s : TaskStep) : json :=
  JObj ([("id", JStr (step_id s)); ("taskId", JStr (step_taskId s));
         ("kind", JStr (kind_name (step_kind s))); ("status", JStr (status_name (step_status s)));
         ("dependencies", JArr (map JStr (step_dependencies s)));
         ("requiredCapabilities",
           JArr (map (λ c, JObj [("id", JStr (cap_id c)); ("version", JStr (cap_version c))])
                  (step_requiredCapabilities s)));
         ("riskClass", JStr (risk_name (step_riskClass s)));
         ("retryPolicy", JObj [("maxAttempts", JNum (maxAttempts (step_retryPolicy s)));
                               ("backoffMs", JNum (backoffMs (step_retryPolicy s)))])]
        ++ opt_field "timeout" (JNum <$> step_timeout s)
        ++ [("input", step_input s)]
        ++ opt_field "output" (step_output s)
        ++ opt_field "idempotencyKey" (JStr <$> step_idempotencyKey s)).

(** [{ ...base, status: "COMPLETED", input, output }] *)
Definition completed_step (base : TaskStep) (input output : string) : TaskStep :=
  {| step_id := step_id base; step_taskId := step_taskId base; step_kind := step_kind base;
     step_status := COMPLETED; step_dependencies := step_dependencies base;
     step_requiredCapabilities := step_requiredCapabilities base;
     step_riskClass := step_riskClass base; step_retryPolicy := step_retryPolicy base;
     step_timeout := step_timeout base; step_input := JStr input; step_output := Some (JStr output);
     step_idempotencyKey := step_idempotencyKey base |}.

(** [e.metadata[k] === s] *)
Definition meta_is (e : Evidence) (k s : string) : bool :=
  match map_get (ev_metadata e) k with Some (JStr t) => t === s | _ => false end.

Record ClaudeMdReceipt := {
  targetPath : option json;
  contentSha256 : option json;
  mutationsDetected : option json
}.

(** [/(^|[/\\])CLAUDE\.md$/.test(targetPath.trim())] *)
Definition targetIsClaudeMd (v : option json) : bool :=
  match v with
  | Some (JStr p) =>
      let cs := rev (Sha256.string_bytes (js_trim p)) in
      match strip_prefix (rev (Sha256.string_bytes "CLAUDE.md")) cs with
      | Some [] => true
      | Some (c :: _) => (c =? 47) || (c =? 92)
      | None => false
      end
  | _ => false
  end.

Definition assertClaudeMdReceipt (receipt : ClaudeMdReceipt) (approved : string) : list string :=
  issue (negb (Digest_ok approved)) "APPROVED_DIGEST_SHAPE" ++
  issue (negb (targetIsClaudeMd (targetPath receipt))) "TARGET_NOT_CLAUDE_MD" ++
  issue (match mutationsDetected receipt with
         | None => false | Some (JNum n) => negb (n =? 0) | Some _ => true end)
    "MUTATIONS_DETECTED" ++
  match contentSha256 receipt with
  | Some (JStr sha) =>
      if Digest_ok sha then issue (Digest_ok approved && (sha !== approved)) "CLAUDE_MD_DRIFT"
      else ["CONTENT_SHA256"]
  | _ => ["CONTENT_SHA256"]
  end.

Section verify_completion.
Context (toUpperCase : string → string) (url_ok : string → bool).
(** The mission and brief verifiers of services/kernel/src/mission. *)
Context (verifyMissionCompletion verifyBriefCompletion :
  Task → Outcome → ExecutionPlan → list TaskStep → list Evidence → result unit).

(** The loop over the ordered nodes: recompute each output and compare the
    persisted step with the step it implies. *)
Fixpoint verify_steps (task : Task) (steps : list TaskStep) (nodes : list PlanStep)
    (outputs : gmap string string) : result (gmap string string) :=
  match nodes with
  | [] => Ok outputs
  | node :: rest =>
      input ← resolveInput node task outputs;
      let output := expected_output toUpperCase (ps_operation node) input in
      base ← projectStep node;
      match List.find (λ s, step_id s === ps_id node) steps with
      | None => Throw (js_error "Persisted step does not match verified execution")
      | Some step =>
          expected ← TaskStep_parse (completed_step base input output);
          ensure (digest (task_step_json step) === digest (task_step_json expected))
            (js_error "Persisted step does not match verified execution");;
          verify_steps task steps rest (<[ps_id node := output]> outputs)
      end
  end.

Definition plan_metadata (planDigest input output : string) : list (string * json) :=
  [("planDigest", JStr planDigest); ("input", JStr input); ("output", JStr output)].

Definition plan_evidence_ok (task : Task) (plan : ExecutionPlan) (output : string) (e : Evidence)
  : bool :=
  (ev_taskId e === task_id task) && (ev_stepId e === Some (plan_resultStepId plan)) &&
  (ev_type e === DETERMINISTIC_RESULT) && (ev_source e === "kerneljson:plan/v1") &&
  (ev_digest e === Some (digest (JObj (plan_metadata (digest (plan_json plan)) (task_objective task) output)))) &&
  bool_decide (length (ev_metadata e) = 3%nat) &&
  meta_is e "planDigest" (digest (plan_json plan)) && meta_is e "input" (task_objective task) &&
  meta_is e "output" output.

Definition verify_capability (task : Task) (outcome : Outcome) (node : PlanStep)
    (steps : list TaskStep) (records : list Evidence) (approved : option string) : result unit :=
  parsed ← parse_all (Evidence_parse url_ok) records;
  match List.find (λ e, (ev_stepId e === Some (ps_id node)) && (ev_type e === TOOL_RECEIPT)) parsed with
  | None => Throw (js_error "Missing capability receipt evidence")
  | Some receipt =>
      let md := ev_metadata receipt in
      match assertClaudeMdReceipt
          {| targetPath := map_get md "target_path"; contentSha256 := map_get md "content_sha256";
             mutationsDetected := map_get md "mutations_detected" |}
          (from_option id EmptyString approved) with
      | [] =>
          ensure (match map_get md "content_sha256" with
                  | Some (JStr sha) => ev_digest receipt === Some sha | _ => false end)
            (js_error "Receipt digest does not match content hash");;
          match List.find (λ s, step_id s === ps_id node) steps with
          | None => Throw (js_error "Persisted capability step does not match completion")
          | Some step =>
              ensure ((step_status step === COMPLETED) && (step_kind step === SANDBOX_EXEC))
                (js_error "Persisted capability step does not match completion");;
              assertCompletion task outcome [receipt]
          end
      | failures => Throw (js_error ("Capability completion rejected: " +:+ join "," failures))
      end
  end.

Definition verifyPlanCompletion (task : Task) (outcome : Outcome) (rawPlan : ExecutionPlan)
    (storedSteps : list TaskStep) (records : list Evidence) (approved : option string)
  : result unit :=
  plan ← ExecutionPlan_parse rawPlan;
  expected ← planTask task (plan_recipe plan);
  ensure (digest (plan_json plan) === digest (plan_json expected))
    (js_error "Stored plan does not match the versioned recipe");;
  steps ← parse_all TaskStep_parse storedSteps;
  ensure (bool_decide (length steps = length (plan_steps plan)))
    (js_error "Missing or extra persisted steps");;
  if plan_recipe plan === RepoAnalysisMission then verifyMissionCompletion task outcome plan steps records
  else if plan_recipe plan === MorningBrief then verifyBriefCompletion task outcome plan steps records
  else
    nodes ← orderedSteps plan;
    match List.find (λ n, ps_operation n === OP_REPOSITORY_READ) nodes with
    | Some node => verify_capability task outcome node steps records approved
    | None =>
        outputs ← verify_steps task steps nodes ∅;
        let output := from_option id EmptyString (outputs !! plan_resultStepId plan) in
        parsed ← parse_all (Evidence_parse url_ok) records;
        ensure (out_summary outcome === output)
          (js_error "Outcome does not match verified result");;
        assertCompletion task outcome (List.filter (plan_evidence_ok task plan output) parsed)
    end.
End verify_completion.

#[global] Arguments plan_step_id : simpl never.
#[global] Arguments stepB : simpl never.
#[global] Arguments js_trim : simpl never.
#[global] Arguments js_error : simpl never.
#[global] Arguments TaskStep_parse : simpl never.
#[global] Arguments projectStep : simpl never.
#[global] Arguments Task_parse : simpl never.

(** ** Sets of ids *)

Lemma elem_of_set_add s x y : y ∈ set_add s x ↔ y ∈ s ∨ y = x.
Proof.
  unfold set_add. case_bool_decide; [intuition (subst; auto)|].
  rewrite elem_of_app, list_elem_of_singleton. done.
Qed.

Lemma set_add_NoDup s x : NoDup s → NoDup (set_add s x).
Proof.
  unfold set_add. case_bool_decide; [done|]. intros Hs.
  apply NoDup_app; split_and!; [done| |apply NoDup_singleton].
  by intros y Hy ->%list_elem_of_singleton.
Qed.

Lemma elem_of_add_all l s y : y ∈ fold_left set_add l s ↔ y ∈ s ∨ y ∈ l.
Proof.
  revert s. induction l as [|x l IH]; intros s; simpl; [rewrite elem_of_nil; tauto|].
  rewrite IH, elem_of_set_add, elem_of_cons. tauto.
Qed.

Lemma add_all_NoDup l s : NoDup s → NoDup (fold_left set_add l s).
Proof. revert s. induction l; intros s Hs; simpl; auto using set_add_NoDup. Qed.

Lemma elem_of_to_set l y : y ∈ to_set l ↔ y ∈ l.
Proof. unfold to_set. rewrite elem_of_add_all, elem_of_nil. tauto. Qed.

Lemma to_set_NoDup l : NoDup (to_set l).
Proof. apply add_all_NoDup, NoDup_nil_2. Qed.

(** A list whose set has as many elements as the list has no duplicates. *)
Lemma add_all_length l s :
  NoDup s → (length (fold_left set_add l s) <= length s + length l)%nat ∧
  (length (fold_left set_add l s) = (length s + length l)%nat → NoDup l ∧ Forall (λ x, x ∉ s) l).
Proof.
  revert s. induction l as [|x l IH]; intros s Hs; simpl.
  { split; [lia|]. intros _. split; [apply NoDup_nil_2|constructor]. }
  destruct (IH (set_add s x) (set_add_NoDup _ _ Hs)) as [Hle Heq].
  assert (Hl : length (set_add s x) = (if bool_decide (x ∈ s) then length s else S (length s))%nat).
  { unfold set_add. case_bool_decide; [done|]. rewrite length_app. simpl. lia. }
  rewrite Hl in *. case_bool_decide as Hx; [split; lia|].
  split; [lia|]. intros He. destruct Heq as [Hnd Hall]; [lia|].
  rewrite Forall_forall in Hall. split.
  - apply NoDup_cons. split; [|done]. intros Hin. eapply Hall; [exact Hin|].
    apply elem_of_set_add. by right.
  - constructor; [done|]. apply Forall_forall. intros y Hy Hys. eapply Hall; [exact Hy|].
    apply elem_of_set_add. by left.
Qed.

Lemma to_set_length_NoDup l : length (to_set l) = length l → NoDup l.
Proof.
  intros H. by destruct (add_all_length l [] (NoDup_nil_2)) as [_ [? _]].
Qed.

Lemma NoDup_to_set_length l : NoDup l → length (to_set l) = length l.
Proof.
  intros Hl. apply Permutation_length, NoDup_Permutation; [apply to_set_NoDup|done|].
  intros x. apply elem_of_to_set.
Qed.

(** ** Topological orders *)

(** Ids listed so that every step comes after its dependencies. *)
Inductive Topo (steps : list PlanStep) : list string → Prop :=
  | Topo_nil : Topo steps []
  | Topo_snoc l s :
      Topo steps l → s ∈ steps → Forall (λ d, d ∈ l) (ps_dependencies s) →
      Topo steps (l ++ [ps_id s]).

Lemma ready_spec dn s :
  ready dn s = true ↔ (ps_id s ∉ dn) ∧ Forall (λ d, d ∈ dn) (ps_dependencies s).
Proof.
  unfold ready, deps_in. rewrite andb_true_iff, negb_true_iff, bool_decide_eq_false.
  rewrite forallb_forall, Forall_forall. split; intros [H1 H2]; split; try done; intros d Hd.
  - specialize (H2 d). rewrite bool_decide_eq_true in H2. apply H2. by apply list_elem_of_In.
  - apply bool_decide_eq_true, H2. by apply list_elem_of_In.
Qed.

Lemma Topo_add_all steps rs l :
  Topo steps l → Forall (λ s, s ∈ steps ∧ Forall (λ d, d ∈ l) (ps_dependencies s)) rs →
  Topo steps (fold_left set_add (map ps_id rs) l).
Proof.
  intros Hl Hrs. revert l Hl Hrs. induction rs as [|s rs IH]; intros l Hl Hrs; simpl; [done|].
  apply Forall_cons in Hrs as [[Hs Hd] Hrs].
  apply IH.
  - unfold set_add. case_bool_decide; [done|]. by constructor.
  - eapply Forall_impl; [exact Hrs|]. intros r [Hr Hdr]. split; [done|].
    eapply Forall_impl; [exact Hdr|]. intros d Hd'. apply elem_of_set_add. by left.
Qed.

Lemma submset_length (l k : list string) :
  NoDup l → (∀ x, x ∈ l → x ∈ k) → (length l <= length k)%nat.
Proof. intros Hl Hk. apply submseteq_length. by apply NoDup_submseteq. Qed.

Lemma full_set (l ids : list string) :
  NoDup l → NoDup ids → (∀ x, x ∈ l → x ∈ ids) → (length ids <= length l)%nat →
  ∀ x, x ∈ ids → x ∈ l.
Proof.
  intros Hl Hids Hsub Hlen x Hx.
  assert (Hp : l ≡ₚ ids). { apply submseteq_length_Permutation; [by apply NoDup_submseteq|done]. }
  by rewrite Hp.
Qed.

(** When the resolution loop succeeds there is a topological order of all ids. *)
Lemma resolves_topo fuel steps resolved :
  let ids := to_set (map ps_id steps) in
  Topo steps resolved → NoDup resolved → (∀ x, x ∈ resolved → x ∈ ids) →
  resolves fuel steps ids resolved = true →
  ∃ l, Topo steps l ∧ ∀ s, s ∈ steps → ps_id s ∈ l.
Proof.
  intros ids. revert resolved. induction fuel as [|fuel IH]; intros resolved Ht Hnd Hsub H;
    simpl in H; destruct (Nat.ltb_spec (length resolved) (length ids)) as [Hlt|Hge]; try done.
  1, 3: exists resolved; split; [done|]; intros s Hs;
    apply (full_set resolved ids); try done; [apply to_set_NoDup|];
    apply elem_of_to_set, list_elem_of_fmap; eauto.
  destruct (List.filter (ready resolved) steps) as [|r rs] eqn:E; [done|].
  change (resolves fuel steps ids (fold_left set_add (map ps_id (r :: rs)) resolved) = true) in H.
  rewrite <- E in H. apply IH in H; [done|..].
  - apply Topo_add_all; [done|]. apply Forall_forall.
    intros s [Hs [_ Hd]%ready_spec]%elem_of_filter_bool. done.
  - by apply add_all_NoDup.
  - intros x [Hx|Hx]%elem_of_add_all; [by apply Hsub|].
    apply list_elem_of_fmap in Hx as (s & -> & [Hs _]%elem_of_filter_bool).
    apply elem_of_to_set, list_elem_of_fmap. eauto.
Qed.

(** Given a topological order, some step is always ready until all are done. *)
Lemma Topo_progress steps l done :
  Topo steps l → (∀ x, x ∈ l → x ∈ done) ∨ ∃ s, s ∈ steps ∧ ready done s = true.
Proof.
  induction 1 as [|l s Hl [IH|IH] Hs Hd]; [left; by intros x ?%elem_of_nil| |by right].
  destruct (decide (ps_id s ∈ done)) as [Hin|Hout].
  - left. intros x [Hx| ->%list_elem_of_singleton]%elem_of_app; auto.
  - right. exists s. split; [done|]. apply ready_spec. split; [done|].
    eapply Forall_impl; [exact Hd|]. auto.
Qed.

Lemma ExecutionPlan_parse_ok p p' :
  ExecutionPlan_parse p = Ok p' → p' = p ∧ plan_issues p = [].
Proof.
  unfold ExecutionPlan_parse, ok_or. intros H. inv_ok.
  destruct (plan_issues p) eqn:E; [by simplify_eq|done].
Qed.

Lemma issue_nil c m : issue c m = [] → c = false.
Proof. by destruct c. Qed.

Lemma plan_issues_nil p :
  plan_issues p = [] →
  NoDup (map ps_id (plan_steps p)) ∧
  plan_resultStepId p ∈ map ps_id (plan_steps p) ∧
  Forall (λ s, ps_taskId s = plan_taskId p ∧ NoDup (ps_dependencies s) ∧
    match ps_input s with STEP_OUTPUT i => i ∈ ps_dependencies s | TASK_OBJECTIVE => True end)
    (plan_steps p) ∧
  ∃ l, Topo (plan_steps p) l ∧ ∀ s, s ∈ plan_steps p → ps_id s ∈ l.
Proof.
  unfold plan_issues. intros H.
  apply app_eq_nil in H as [H1%issue_nil H]. apply app_eq_nil in H as [H2%issue_nil H].
  apply app_eq_nil in H as [H3 H]. apply app_eq_nil in H as [H4%issue_nil _].
  to_prop. split_and!.
  - apply to_set_length_NoDup. by rewrite H1, length_map.
  - by rewrite elem_of_to_set in H2.
  - apply Forall_forall. intros s Hs.
    assert (Hi : step_issues p (to_set (map ps_id (plan_steps p))) s = []).
    { destruct (step_issues p _ s) as [|m ms] eqn:Es; [done|].
      assert (Hm : m ∈ concat (map (step_issues p (to_set (map ps_id (plan_steps p)))) (plan_steps p))).
      { apply list_elem_of_In, in_concat. exists (m :: ms). split; [|by left].
        apply in_map_iff. exists s. split; [done|]. by apply list_elem_of_In. }
      rewrite H3 in Hm. by apply elem_of_nil in Hm. }
    unfold step_issues in Hi.
    apply app_eq_nil in Hi as [I1%issue_nil Hi]. apply app_eq_nil in Hi as [I2%issue_nil Hi].
    apply app_eq_nil in Hi as [_ I4%issue_nil]. to_prop.
    split_and!; [done|by apply to_set_length_NoDup|].
    destruct (ps_input s); [done|]. by to_prop.
  - eapply (resolves_topo _ _ []); [constructor|apply NoDup_nil_2|by intros x ?%elem_of_nil|done].
Qed.

(** ** orderedSteps *)

(** Every step comes after the steps whose ids it depends on. *)
Definition topological (l : list PlanStep) : Prop :=
  ∀ pre s post, l = pre ++ s :: post → Forall (λ d, d ∈ map ps_id pre) (ps_dependencies s).

Lemma topological_snoc l s :
  topological l → Forall (λ d, d ∈ map ps_id l) (ps_dependencies s) → topological (l ++ [s]).
Proof.
  intros Hl Hs pre s' post E.
  destruct post as [|p post _] using rev_ind.
  - apply app_inj_tail in E as [-> ->]. done.
  - rewrite app_comm_cons, app_assoc in E. apply app_inj_tail in E as [E _].
    by eapply Hl.
Qed.

(** A ready step exists, so [next] is one. *)
Lemma next_ready steps l dn :
  Topo steps l → (∃ s, s ∈ steps ∧ ps_id s ∉ dn) → (∀ s, s ∈ steps → ps_id s ∈ l) →
  ∃ next rest, js_sort id_compare (List.filter (ready dn) steps) = next :: rest ∧
    next ∈ steps ∧ ready dn next = true.
Proof.
  intros Ht (s & Hs & Hout) Hall.
  destruct (Topo_progress steps l dn Ht) as [Hdone|(r & Hr & Hready)].
  { destruct Hout. apply Hdone, Hall, Hs. }
  destruct (js_sort id_compare _) as [|next rest] eqn:E.
  - assert (Hin : r ∈ js_sort id_compare (List.filter (ready dn) steps)).
    { apply js_sort_elem, elem_of_filter_bool. done. }
    rewrite E in Hin. by apply elem_of_nil in Hin.
  - assert (Hin : next ∈ js_sort id_compare (List.filter (ready dn) steps)).
    { rewrite E. left. }
    apply js_sort_elem, elem_of_filter_bool in Hin. eauto.
Qed.

Lemma ordered_loop_ok fuel steps l acc :
  Topo steps l → (∀ s, s ∈ steps → ps_id s ∈ l) → NoDup (map ps_id steps) →
  NoDup (map ps_id acc) → (∀ s, s ∈ acc → s ∈ steps) → topological acc →
  (length steps <= fuel + length acc)%nat →
  ∃ out, ordered_loop fuel steps (map ps_id acc) acc = Ok out ∧ out ≡ₚ steps ∧ topological out.
Proof.
  intros Ht Hall Hnd. revert acc. induction fuel as [|fuel IH]; intros acc Hacc Hsub Htop Hf; simpl;
    destruct (Nat.ltb_spec (length acc) (length steps)) as [Hlt|Hge]; try lia.
  1, 3: exists acc; split_and!; try done; apply submseteq_length_Permutation; [|lia];
    apply NoDup_submseteq; [by eapply NoDup_fmap_1|done].
  destruct (next_ready steps l (map ps_id acc)) as (next & rest & E & Hin & Hready); try done.
  { destruct (decide (Exists (λ s, ps_id s ∉ map ps_id acc) steps)) as [Hex|Hno];
      [by apply Exists_exists in Hex|exfalso].
    assert (Hs : submseteq (map ps_id steps) (map ps_id acc)).
    { apply NoDup_submseteq; [done|]. intros x (s & -> & Hs)%list_elem_of_fmap.
      destruct (decide (ps_id s ∈ map ps_id acc)); [done|].
      destruct Hno. apply Exists_exists. eauto. }
    apply submseteq_length in Hs. rewrite !length_map in Hs. lia. }
  rewrite E. apply ready_spec in Hready as [Hfresh Hdeps].
  assert (Hadd : set_add (map ps_id acc) (ps_id next) = map ps_id (acc ++ [next])).
  { unfold set_add. rewrite bool_decide_false by done. by rewrite map_app. }
  rewrite Hadd. apply IH.
  - rewrite map_app. apply NoDup_app. split_and!; [done| |apply NoDup_singleton].
    by intros x Hx ->%list_elem_of_singleton.
  - intros s [?| ->%list_elem_of_singleton]%elem_of_app; auto.
  - by apply topological_snoc.
  - rewrite length_app. simpl. lia.
Qed.

Lemma orderedSteps_ok plan :
  ExecutionPlan_parse plan = Ok plan →
  ∃ nodes, orderedSteps plan = Ok nodes ∧ nodes ≡ₚ plan_steps plan ∧ topological nodes.
Proof.
  intros Hp. pose proof Hp as Hq. apply ExecutionPlan_parse_ok in Hq as [_ Hi].
  apply plan_issues_nil in Hi as (Hnd & _ & _ & l & Ht & Hall).
  unfold orderedSteps. rewrite Hp. simpl.
  apply (ordered_loop_ok _ _ l []); try done; [apply NoDup_nil_2|by intros s ?%elem_of_nil| |].
  - intros pre s post E. by destruct pre.
  - simpl. lia.
Qed.

(** C34: on a plan the contract accepts, [orderedSteps] terminates without an
    error and returns exactly the plan's steps, each after all the steps it
    depends on: the graph check of the schema (no cycle, no unknown
    dependency) is what the planner's loop relies on. *)
Theorem orderedSteps_topological plan :
  ExecutionPlan_parse plan = Ok plan →
  ∃ nodes, orderedSteps plan = Ok nodes ∧
    Permutation nodes (plan_steps plan) ∧
    ∀ pre s post d, nodes = pre ++ s :: post → d ∈ ps_dependencies s → d ∈ map ps_id pre.
Proof.
  intros (nodes & E & Hperm & Htop)%orderedSteps_ok. exists nodes. split_and!; [done|done|].
  intros pre s post d Hn Hd. specialize (Htop pre s post Hn).
  rewrite Forall_forall in Htop. by apply Htop.
Qed.

(** ** Executing a plan in order *)

Section execution.
Context (toUpperCase : string → string).

Definition input_declared (s : PlanStep) : Prop :=
  match ps_input s with STEP_OUTPUT i => i ∈ ps_dependencies s | TASK_OBJECTIVE => True end.

Lemma expected_outputs_ok task nodes : ∀ pre outputs,
  topological (pre ++ nodes) →
  Forall (λ s, ps_taskId s = task_id task ∧ input_declared s) nodes →
  (∀ d, d ∈ map ps_id pre → is_Some (outputs !! d)) →
  ∃ outputs', expected_outputs toUpperCase task nodes outputs = Ok outputs' ∧
    ∀ d, d ∈ map ps_id (pre ++ nodes) → is_Some (outputs' !! d).
Proof.
  induction nodes as [|n nodes IH]; intros pre outputs Htop Hn Hpre; simpl.
  { exists outputs. rewrite app_nil_r. done. }
  apply Forall_cons in Hn as [[Htask Hin] Hn].
  assert (Hdeps : Forall (λ d, d ∈ map ps_id pre) (ps_dependencies n)) by (by eapply Htop).
  assert (Hr : ∃ v, resolveInput n task outputs = Ok v).
  { unfold resolveInput. rewrite bool_decide_true by done. simpl.
    unfold input_declared in Hin. destruct (ps_input n) as [|i]; [eauto|].
    rewrite Forall_forall in Hdeps. destruct (Hpre i) as [v ->]; [auto|].
    rewrite bool_decide_true by done. eauto. }
  destruct Hr as [v ->]. simpl.
  destruct (IH (pre ++ [n]) (<[ps_id n := expected_output toUpperCase (ps_operation n) v]> outputs))
    as (out & E & Hout).
  - by rewrite <- app_assoc.
  - done.
  - intros d Hd. rewrite map_app in Hd. destruct (decide (d = ps_id n)) as [->|Hne].
    + rewrite lookup_insert_eq. eauto.
    + rewrite lookup_insert_ne by done. apply Hpre.
      apply elem_of_app in Hd as [?|?%list_elem_of_singleton]; done.
  - exists out. split; [done|]. by rewrite <- app_assoc in Hout.
Qed.

(** A valid plan of the task runs to the end over [orderedSteps]: every
    input resolves (no "Dependency output is not available") and the result
    step has an output. *)
Theorem valid_plan_executes task plan :
  ExecutionPlan_parse plan = Ok plan → plan_taskId plan = task_id task →
  ∃ nodes outputs out, orderedSteps plan = Ok nodes ∧
    expected_outputs toUpperCase task nodes ∅ = Ok outputs ∧
    outputs !! plan_resultStepId plan = Some out.
Proof.
  intros Hp Ht.
  destruct (orderedSteps_ok plan Hp) as (nodes & E & Hperm & Htop).
  pose proof Hp as Hq. apply ExecutionPlan_parse_ok in Hq as [_ Hi].
  apply plan_issues_nil in Hi as (_ & Hres & Hsteps & _).
  destruct (expected_outputs_ok task nodes [] ∅) as (outs & Eo & Ho); [done| |by intros d ?%elem_of_nil|].
  { rewrite Hperm. eapply Forall_impl; [exact Hsteps|].
    intros s (Hid & _ & Hin). split; [congruence|exact Hin]. }
  destruct (Ho (plan_resultStepId plan)) as [out Eout].
  { simpl. by rewrite Hperm. }
  eauto 6.
Qed.

Lemma verify_steps_expected task steps nodes : ∀ outputs outs,
  verify_steps toUpperCase task steps nodes outputs = Ok outs →
  expected_outputs toUpperCase task nodes outputs = Ok outs.
Proof.
  induction nodes as [|n nodes IH]; intros outputs outs; [done|].
  cbn [verify_steps expected_outputs].
  destruct (resolveInput n task outputs) as [v|]; [|discriminate].
  destruct (projectStep n) as [base|]; [|discriminate]. cbn [mbind result_bind].
  destruct (List.find _ steps) as [st|]; [|discriminate].
  destruct (TaskStep_parse _) as [ex|]; [|discriminate]. cbn [mbind result_bind].
  case_bool_decide; [apply IH|discriminate].
Qed.

(** A three-step chain has one topological order. *)
Lemma chain3_order s0 s1 s2 l :
  l ≡ₚ [s0; s1; s2] → topological l →
  ps_dependencies s1 = [ps_id s0] → ps_dependencies s2 = [ps_id s1] →
  ps_id s0 ≠ ps_id s1 → l = [s0; s1; s2].
Proof.
  intros Hp Ht H1 H2 Hne.
  destruct l as [|x l]; [by apply Permutation_nil_cons in Hp|].
  assert (Hx : Forall (λ d, d ∈ []) (ps_dependencies x)) by (by eapply (Ht [])).
  assert (Hxin : x ∈ [s0; s1; s2]) by (rewrite <- Hp; left).
  assert (x = s0) as ->.
  { rewrite Forall_forall in Hx.
    apply elem_of_cons in Hxin as [->|[->|[->|?%elem_of_nil]%elem_of_cons]%elem_of_cons]; try done.
    - destruct (not_elem_of_nil (ps_id s0)). apply Hx. rewrite H1. left.
    - destruct (not_elem_of_nil (ps_id s1)). apply Hx. rewrite H2. left. }
  apply Permutation_cons_inv in Hp.
  destruct l as [|y l]; [by apply Permutation_nil_cons in Hp|].
  assert (Hy : Forall (λ d, d ∈ [ps_id s0]) (ps_dependencies y)) by (by eapply (Ht [s0])).
  assert (Hyin : y ∈ [s1; s2]) by (rewrite <- Hp; left).
  assert (y = s1) as ->.
  { rewrite Forall_forall in Hy.
    apply elem_of_cons in Hyin as [->|[->|?%elem_of_nil]%elem_of_cons]; try done.
    specialize (Hy (ps_id s1)). rewrite H2, !list_elem_of_singleton in Hy.
    destruct Hne. by rewrite Hy. }
  apply Permutation_cons_inv, Permutation_singleton_r in Hp. by subst.
Qed.

(** The value of a text recipe on an objective. *)
Definition recipe_output (r : RecipeId) (objective : string) : string :=
  match r with
  | UppercaseReverse => stepB (stepA toUpperCase objective)
  | _ => stepA toUpperCase objective
  end.

Lemma planTask_ok task r plan :
  planTask task r = Ok plan →
  ExecutionPlan_parse plan = Ok plan ∧ plan_recipe plan = r ∧
  plan_steps plan = imap (plan_step (task_id task) r) (operations r) ∧
  plan_resultStepId plan = from_option ps_id EmptyString (last (plan_steps plan)).
Proof.
  unfold planTask. destruct (Task_parse task) as [t'|] eqn:Et; simpl; [|done].
  assert (task_id t' = task_id task) as ->.
  { unfold Task_parse in Et. unfold ok_or in Et. inv_ok. done. }
  destruct (ensure _ _) as [[]|]; simpl; [|done]. intros H.
  pose proof H as H'. apply ExecutionPlan_parse_ok in H' as [-> _]. done.
Qed.

Lemma text_recipe_outputs task r plan nodes outs :
  r = Uppercase ∨ r = UppercaseReverse →
  planTask task r = Ok plan → orderedSteps plan = Ok nodes →
  expected_outputs toUpperCase task nodes ∅ = Ok outs →
  outs !! plan_resultStepId plan = Some (recipe_output r (task_objective task)).
Proof.
  intros Hr (Hp & _ & Hsteps & Hres)%planTask_ok Hnodes Hout.
  pose proof Hp as Hi. apply ExecutionPlan_parse_ok in Hi as [_ (Hnd & _)%plan_issues_nil].
  destruct (orderedSteps_ok plan Hp) as (nodes' & E & Hperm & Htop).
  rewrite Hnodes in E. injection E as <-. rewrite Hsteps in Hperm, Hnd, Hres. rewrite Hres.
  destruct Hr as [-> | ->]; cbn [operations imap last map] in *.
  - apply Permutation_singleton_r in Hperm. subst nodes. revert Hout. cbn [expected_outputs].
    unfold resolveInput. cbn. rewrite !(bool_decide_true (task_id task = task_id task)) by done. cbn.
    intros Ho. apply Ok_inj in Ho. subst. by rewrite lookup_insert_eq.
  - apply chain3_order in Hperm; [|done|done|done|].
    2: { simpl in Hnd. apply NoDup_cons in Hnd as [Hn _]. intros He. simpl in He. apply Hn. rewrite He. apply list_elem_of_here. }
    subst nodes. revert Hout. cbn. unfold resolveInput. cbn.
    rewrite !(bool_decide_true (task_id task = task_id task)) by done. cbn.
    change (Z.of_nat 1 - 1) with (Z.of_nat 0). change (Z.of_nat 2 - 1) with (Z.of_nat 1).
    do 2 (rewrite ?lookup_insert_eq; cbn; rewrite ?bool_decide_true by left; cbn).
    intros Ho. apply Ok_inj in Ho. subst. by rewrite lookup_insert_eq.
Qed.
End execution.

Section verified.
Context (toUpperCase : string → string) (url_ok : string → bool).
Context (verifyMission verifyBrief :
  Task → Outcome → ExecutionPlan → list TaskStep → list Evidence → result unit).

(** What [verifyPlanCompletion] accepts for the two text recipes is the
    recipe's own value.  When the stored plan is the recipe's plan (the code
    compares digests), an accepted outcome's summary is
    reverse(uppercase(trim(objective))), or uppercase(trim(objective)), and a
    persisted evidence record bound to this task and to the plan's result step
    carries that output, the objective and the plan digest. *)
Theorem verifyPlanCompletion_output task outcome plan expected stored records approved :
  plan_recipe plan = Uppercase ∨ plan_recipe plan = UppercaseReverse →
  planTask task (plan_recipe plan) = Ok expected →
  (digest (plan_json plan) = digest (plan_json expected) → plan = expected) →
  verifyPlanCompletion toUpperCase url_ok verifyMission verifyBrief
    task outcome plan stored records approved = Ok tt →
  let output := recipe_output toUpperCase (plan_recipe plan) (task_objective task) in
  task_status task = VERIFYING ∧ out_summary outcome = output ∧
  ∃ e, ev_taskId e = task_id task ∧ ev_stepId e = Some (plan_resultStepId plan) ∧
    ev_digest e = Some (digest (JObj (plan_metadata (digest (plan_json plan)) (task_objective task) output))) ∧
    map_get (ev_metadata e) "output" = Some (JStr output).
Proof.
  intros Hr Hplan Hcol H output. unfold verifyPlanCompletion in H.
  destruct (ExecutionPlan_parse plan) as [p|] eqn:Hp; [|discriminate]. cbn [mbind result_bind] in H.
  apply ExecutionPlan_parse_ok in Hp as Hp'. destruct Hp' as [-> _]. rewrite Hplan in H. cbn in H.
  apply ensure_ok in H as [Hd%bool_decide_eq_true H]. specialize (Hcol Hd). subst expected. cbn in H.
  destruct (parse_all TaskStep_parse stored) as [steps|]; [|discriminate]. cbn in H.
  apply ensure_ok in H as [_ H]. cbn in H.
  rewrite !bool_decide_false in H by (destruct Hr as [E|E]; rewrite E; done). cbn in H.
  destruct (orderedSteps_ok plan Hp) as (nodes & Hn & Hperm & _). rewrite Hn in H. cbn in H.
  destruct (List.find _ nodes) as [n|] eqn:Hfind.
  { exfalso. apply find_some in Hfind as [Hin Hop]. to_prop.
    apply list_elem_of_In in Hin. rewrite Hperm in Hin.
    destruct (planTask_ok _ _ _ Hplan) as (_ & _ & Hsteps & _). rewrite Hsteps in Hin.
    apply list_elem_of_lookup in Hin as [i Hi]. rewrite list_lookup_imap in Hi.
    destruct (operations _ !! i) as [op|] eqn:Eop; [|discriminate].
    injection Hi as <-. simpl in Hop. subst op. apply list_elem_of_lookup_2 in Eop.
    destruct Hr as [E|E]; rewrite E in Eop; cbn in Eop; case_status. }
  destruct (verify_steps _ _ _ _ _) as [outs|] eqn:Hv; [|discriminate]. cbn in H.
  apply verify_steps_expected in Hv.
  assert (Ho : outs !! plan_resultStepId plan = Some output) by (by eapply text_recipe_outputs).
  rewrite Ho in H. cbn in H.
  destruct (parse_all (Evidence_parse url_ok) records) as [recs|]; [|discriminate]. cbn in H.
  apply ensure_ok in H as [Hsum%bool_decide_eq_true H]. cbn in H.
  destruct (assertCompletion_one _ _ _ H) as (Hst & e & He).
  split_and!; [done|done|]. exists e.
  apply elem_of_filter_bool in He as [_ He]. unfold plan_evidence_ok in He. to_prop.
  split_and!; try done. unfold meta_is in *.
  destruct (map_get (ev_metadata e) "output") as [[]|]; try discriminate. by to_prop; subst.
Qed.
End verified.

(** ** A concrete plan *)

(** [toUpperCase] on ASCII. *)
Fixpoint ascii_upper (s : string) : string :=
  match s with
  | EmptyString => EmptyString
  | String c s' =>
      let n := Z.of_nat (nat_of_ascii c) in
      String (if (97 <=? n) && (n <=? 122) then ascii_of_nat (Z.to_nat (n - 32)) else c) (ascii_upper s')
  end.

Definition upper_task (st : TaskStatus) : Task := sample_task st (criteria Uppercase).

Definition sample_step : PlanStep :=
  {| ps_id := sample_id 6; ps_taskId := sample_id 1; ps_operation := OP_UPPERCASE;
     ps_dependencies := []; ps_input := TASK_OBJECTIVE |}.
Definition sample_step2 : PlanStep :=
  {| ps_id := sample_id 7; ps_taskId := sample_id 1; ps_operation := OP_REVERSE;
     ps_dependencies := [sample_id 6]; ps_input := STEP_OUTPUT (sample_id 6) |}.
Definition sample_plan : ExecutionPlan :=
  {| plan_taskId := sample_id 1; plan_recipe := UppercaseReverse;
     plan_steps := [sample_step2; sample_step]; plan_resultStepId := sample_id 7 |}.

Lemma orderedSteps_topological_witness :
  orderedSteps sample_plan = Ok [sample_step; sample_step2] ∧
  ∃ nodes, orderedSteps sample_plan = Ok nodes ∧ Permutation nodes (plan_steps sample_plan).
Proof.
  split; [vm_compute; reflexivity|].
  destruct (orderedSteps_topological sample_plan) as (nodes & E & Hp & _); [vm_compute; reflexivity|].
  exists nodes. split; [exact E|exact Hp].
Defined.

Lemma valid_plan_executes_witness :
  ∃ nodes outputs out, orderedSteps sample_plan = Ok nodes ∧
    expected_outputs ascii_upper (upper_task RUNNING) nodes ∅ = Ok outputs ∧
    outputs !! plan_resultStepId sample_plan = Some out.
Proof.
  apply (valid_plan_executes ascii_upper (upper_task RUNNING) sample_plan);
    vm_compute; reflexivity.
Defined.

Definition upper_plan : ExecutionPlan :=
  let s := plan_step (sample_id 1) Uppercase 0 OP_UPPERCASE in
  {| plan_taskId := sample_id 1; plan_recipe := Uppercase; plan_steps := [s];
     plan_resultStepId := ps_id s |}.

Definition upper_stored : list TaskStep :=
  result_list ((λ base, completed_step base "abc" "ABC") <$>
    projectStep (plan_step (sample_id 1) Uppercase 0 OP_UPPERCASE)).

Definition upper_evidence : Evidence :=
  let md := plan_metadata (digest (plan_json upper_plan)) "abc" "ABC" in
  {| ev_id := sample_id 5; ev_taskId := sample_id 1; ev_stepId := Some (plan_resultStepId upper_plan);
     ev_type := DETERMINISTIC_RESULT; ev_source := "kerneljson:plan/v1"; ev_ref := Some "r";
     ev_uri := None; ev_digest := Some (digest (JObj md));
     ev_capturedAt := "2026-09-15T16:00:01.000Z"; ev_metadata := md |}.

Definition upper_outcome : Outcome :=
  {| out_taskId := sample_id 1; out_status := O_COMPLETED;
     out_acceptanceResults :=
       [{| ar_criterion := criteria Uppercase; ar_passed := true; ar_evidenceRefs := [sample_id 5] |}];
     out_evidenceRefs := [sample_id 5]; out_summary := "ABC";
     out_completedAt := "2026-09-15T16:00:02.000Z" |}.

Lemma verifyPlanCompletion_output_witness :
  ∃ e, ev_taskId e = sample_id 1 ∧ map_get (ev_metadata e) "output" = Some (JStr "ABC").
Proof.
  destruct (verifyPlanCompletion_output ascii_upper (λ _, true) (λ _ _ _ _ _, Ok tt) (λ _ _ _ _ _, Ok tt)
    (upper_task VERIFYING) upper_outcome upper_plan upper_plan upper_stored [upper_evidence] None)
    as (_ & _ & e & He & _ & _ & Ho).
  - left. reflexivity.
  - vm_compute; reflexivity.
  - intros _. reflexivity.
  - vm_compute; reflexivity.
  - exists e. split; [exact He|exact Ho].
Defined.
