(* ===== verification/Capability.v ===== *)
(** * The capability registry (packages/capabilities/src/index.ts)

    [capabilityDigest] over canonical JSON, the registry's constructor, lookup,
    [execute] and [verify], and the two built-in text capabilities.  A Zod schema
    is the function its [safeParse] is ([json → option json]); the JSON schema
    [z.toJSONSchema] derives from it is a field of the definition.  [freeze]
    is the identity on immutable values.  The theorems: the digest does not
    depend on the order of object keys, and a receipt the registry accepts is
    bound to its request and carries a verified output. *)

From stdpp Require Import sorting.
From S2P Require Import Prelude JsNumber JsDate Digest Contracts Plan.
Local Open Scope Z_scope.
Local Open Scope js_scope.

(** ** Contracts: capability.ts, capability-invocation.ts *)

Inductive ImplementationType :=
  | DETERMINISTIC | MCP | API | SKILL | SANDBOX | IMPL_HUMAN | HYBRID.

#[export] Instance ImplementationType_eq_dec : EqDecision ImplementationType.
Proof. solve_decision. Defined.

Record Capability := {
  meta_id : string;
  meta_version : string;
  meta_description : string;
  meta_inputSchemaRef : string;
  meta_outputSchemaRef : string;
  meta_riskClass : RiskClass;
  meta_permissions : list string;
  meta_implementationType : ImplementationType;
  meta_verificationRequirements : list string
}.

Definition Capability_parse (c : Capability) : result Capability :=
  ok_or (Id_ok (meta_id c)) "capability id";;
  version ← Text_parse (meta_version c);
  description ← Text_parse (meta_description c);
  inputRef ← Text_parse (meta_inputSchemaRef c);
  outputRef ← Text_parse (meta_outputSchemaRef c);
  perms ← parse_all Text_parse (meta_permissions c);
  reqs ← parse_all Text_parse (meta_verificationRequirements c);
  ok_or (negb (reqs === [])) "verificationRequirements";;
  Ok {| meta_id := meta_id c; meta_version := version; meta_description := description;
        meta_inputSchemaRef := inputRef; meta_outputSchemaRef := outputRef;
        meta_riskClass := meta_riskClass c; meta_permissions := perms;
        meta_implementationType := meta_implementationType c;
        meta_verificationRequirements := reqs |}.

Record CapabilityInvocation := {
  inv_runId : string;
  inv_taskId : string;
  inv_stepId : string;
  inv_trace : TraceRef;
  inv_capability : CapabilityRef;
  inv_idempotencyKey : string;
  inv_input : json
}.

(** [s.length]: UTF-16 code units.  A UTF-8 continuation byte adds none, the lead
    byte of a four-byte sequence adds two. *)
Definition js_length (s : string) : Z :=
  foldr (λ b n, (if (128 <=? b) && (b <? 192) then 0 else if 240 <=? b then 2 else 1) + n) 0
    (Sha256.string_bytes s).

(** [Text.max(256)] *)
Definition Key_parse (s : string) : result string :=
  k ← Text_parse s; ok_or (js_length k <=? 256) "too_big";; Ok k.

Definition CapabilityInvocation_parse (i : CapabilityInvocation) : result CapabilityInvocation :=
  ok_or (Id_ok (inv_runId i) && Id_ok (inv_taskId i) && Id_ok (inv_stepId i)) "invocation ids";;
  trace ← TraceRef_parse (inv_trace i);
  cap ← CapabilityRef_parse (inv_capability i);
  key ← Key_parse (inv_idempotencyKey i);
  Ok {| inv_runId := inv_runId i; inv_taskId := inv_taskId i; inv_stepId := inv_stepId i;
        inv_trace := trace; inv_capability := cap; inv_idempotencyKey := key;
        inv_input := inv_input i |}.

Record CapabilityResult := {
  res_runId : string;
  res_taskId : string;
  res_stepId : string;
  res_trace : TraceRef;
  res_capability : CapabilityRef;
  res_idempotencyKey : string;
  res_requestDigest : string;
  res_descriptorDigest : string;
  res_output : json;
  res_outputDigest : string       (* the field [verification] is always "PASSED" *)
}.

Definition CapabilityResult_parse (r : CapabilityResult) : result CapabilityResult :=
  ok_or (Id_ok (res_runId r) && Id_ok (res_taskId r) && Id_ok (res_stepId r)) "result ids";;
  trace ← TraceRef_parse (res_trace r);
  cap ← CapabilityRef_parse (res_capability r);
  key ← Key_parse (res_idempotencyKey r);
  ok_or (Digest_ok (res_requestDigest r) && Digest_ok (res_descriptorDigest r)
         && Digest_ok (res_outputDigest r)) "result digests";;
  Ok {| res_runId := res_runId r; res_taskId := res_taskId r; res_stepId := res_stepId r;
        res_trace := trace; res_capability := cap; res_idempotencyKey := key;
        res_requestDigest := res_requestDigest r; res_descriptorDigest := res_descriptorDigest r;
        res_output := res_output r; res_outputDigest := res_outputDigest r |}.

(** ** [capabilityDigest] *)

(** [Object.keys(v).sort()]: by UTF-16 code units; on UTF-8 bytes the order is the
    same below U+10000. *)
Definition key_compare {A} (a b : string * A) : Z :=
  match String.compare a.1 b.1 with Lt => -1 | Gt => 1 | Eq => 0 end.

Fixpoint canonical (v : json) : string :=
  match v with
  | JArr l => "[" +:+ join "," (map canonical l) +:+ "]"
  | JObj fs =>
      "{" +:+ join "," (map (λ kv, json_quote kv.1 +:+ ":" +:+ kv.2)
                          (js_sort key_compare (map (λ kv, (kv.1, canonical kv.2)) fs))) +:+ "}"
  | _ => stringify v
  end.

Definition capabilityDigest (v : json) : string := Sha256.sha256_hex (canonical v).

Definition ref_json (c : CapabilityRef) : json :=
  JObj [("id", JStr (cap_id c)); ("version", JStr (cap_version c))].

Definition trace_json (t : TraceRef) : json :=
  JObj ([("traceId", JStr (tr_traceId t)); ("correlationId", JStr (tr_correlationId t))]
        ++ opt_field "spanId" (JStr <$> tr_spanId t)).

Definition kind_name (k : PrincipalKind) : string :=
  match k with HUMAN => "HUMAN" | SERVICE => "SERVICE" end.

Definition principal_json (p : PrincipalRef) : json :=
  JObj [("id", JStr (principal_id p)); ("kind", JStr (kind_name (principal_kind p)))].

Definition invocation_json (i : CapabilityInvocation) : json :=
  JObj [("runId", JStr (inv_runId i)); ("taskId", JStr (inv_taskId i));
        ("stepId", JStr (inv_stepId i)); ("trace", trace_json (inv_trace i));
        ("capability", ref_json (inv_capability i));
        ("idempotencyKey", JStr (inv_idempotencyKey i)); ("input", inv_input i)].

Definition risk_name (r : RiskClass) : string :=
  match r with LOW => "LOW" | MEDIUM => "MEDIUM" | HIGH => "HIGH" | CRITICAL_RISK => "CRITICAL" end.

Definition impl_name (t : ImplementationType) : string :=
  match t with
  | DETERMINISTIC => "DETERMINISTIC" | MCP => "MCP" | API => "API" | SKILL => "SKILL"
  | SANDBOX => "SANDBOX" | IMPL_HUMAN => "HUMAN" | HYBRID => "HYBRID"
  end.

Definition capability_json (c : Capability) : json :=
  JObj [("id", JStr (meta_id c)); ("version", JStr (meta_version c));
        ("description", JStr (meta_description c));
        ("inputSchemaRef", JStr (meta_inputSchemaRef c));
        ("outputSchemaRef", JStr (meta_outputSchemaRef c));
        ("riskClass", JStr (risk_name (meta_riskClass c)));
        ("permissions", JArr (map JStr (meta_permissions c)));
        ("implementationType", JStr (impl_name (meta_implementationType c)));
        ("verificationRequirements", JArr (map JStr (meta_verificationRequirements c)))].

(** ** The registry *)

Record CapabilityDefinition := {
  def_metadata : Capability;
  def_inputSchema : json → option json;    (* inputSchema.safeParse *)
  def_inputJsonSchema : json;              (* z.toJSONSchema(inputSchema) *)
  def_outputSchema : json → option json;
  def_outputJsonSchema : json;
  def_execute : json → result json;
  def_verify : json → json → result bool
}.

Record CapabilityDescriptor := {
  desc_metadata : Capability;
  desc_inputSchema : json;
  desc_outputSchema : json;
  desc_digest : string
}.

Record Entry := { entry_definition : CapabilityDefinition; entry_descriptor : CapabilityDescriptor }.

Inductive RegistryMode := BUILTIN | RUNTIME.

#[export] Instance RegistryMode_eq_dec : EqDecision RegistryMode.
Proof. solve_decision. Defined.

Definition cap_error (code : string) : exn := Exn "CapabilityError" code.

Definition ref_key (id version : string) : string := id +:+ "@" +:+ version.

(** [/^\d+\.\d+\.\d+$/] *)
Fixpoint span_digits (s : string) : nat * string :=
  match s with
  | String c s' =>
      match char_digit c with
      | Some _ => let '(n, r) := span_digits s' in (S n, r)
      | None => (O, s)
      end
  | EmptyString => (O, s)
  end.

Definition semver_ok (s : string) : bool :=
  let '(a, s) := span_digits s in
  match expect "." s with
  | None => false
  | Some s =>
      let '(b, s) := span_digits s in
      match expect "." s with
      | None => false
      | Some s =>
          let '(c, s) := span_digits s in
          (1 <=? a)%nat && (1 <=? b)%nat && (1 <=? c)%nat && (s === EmptyString)
      end
  end.

Definition with_metadata (d : CapabilityDefinition) (m : Capability) : CapabilityDefinition :=
  {| def_metadata := m; def_inputSchema := def_inputSchema d;
     def_inputJsonSchema := def_inputJsonSchema d; def_outputSchema := def_outputSchema d;
     def_outputJsonSchema := def_outputJsonSchema d; def_execute := def_execute d;
     def_verify := def_verify d |}.

(** One turn of the constructor's loop. *)
Definition register (mode : RegistryMode) (entries : list (string * Entry))
    (definition : CapabilityDefinition) : result (list (string * Entry)) :=
  metadata ← Capability_parse (def_metadata definition);
  ensure (semver_ok (meta_version metadata)) (cap_error "UNSUPPORTED_CAPABILITY");;
  (if mode === BUILTIN then
     ensure (negb ((meta_implementationType metadata !== DETERMINISTIC) ||
                   (meta_riskClass metadata !== LOW) || (meta_permissions metadata !== [])))
       (cap_error "UNSUPPORTED_CAPABILITY")
   else
     ensure (negb (negb (bool_decide (meta_implementationType metadata ∈ [DETERMINISTIC; API; SANDBOX; SKILL])) ||
                   ((meta_riskClass metadata !== LOW) && (meta_riskClass metadata !== MEDIUM))))
       (cap_error "UNSUPPORTED_CAPABILITY");;
     ensure (negb ((meta_implementationType metadata === DETERMINISTIC) &&
                   (meta_permissions metadata !== [])))
       (cap_error "UNSUPPORTED_CAPABILITY"));;
  let key := ref_key (meta_id metadata) (meta_version metadata) in
  ensure (negb (map_has entries key)) (cap_error "DUPLICATE_VERSION");;
  let descriptor :=
    {| desc_metadata := metadata; desc_inputSchema := def_inputJsonSchema definition;
       desc_outputSchema := def_outputJsonSchema definition;
       desc_digest := capabilityDigest
         (JObj [("metadata", capability_json metadata);
                ("inputSchema", def_inputJsonSchema definition);
                ("outputSchema", def_outputJsonSchema definition)]) |} in
  Ok (map_set entries key
        {| entry_definition := with_metadata definition metadata; entry_descriptor := descriptor |}).

Fixpoint register_all (mode : RegistryMode) (entries : list (string * Entry))
    (ds : list CapabilityDefinition) : result (list (string * Entry)) :=
  match ds with
  | [] => Ok entries
  | d :: ds' => entries' ← register mode entries d; register_all mode entries' ds'
  end.

(** [new CapabilityRegistry(definitions, mode)] *)
Definition CapabilityRegistry (ds : list CapabilityDefinition) (mode : RegistryMode)
  : result (list (string * Entry)) := register_all mode [] ds.

Definition entry (registry : list (string * Entry)) (ref : CapabilityRef) : result Entry :=
  match map_get registry (ref_key (cap_id ref) (cap_version ref)) with
  | Some e => Ok e
  | None => Throw (cap_error "NOT_FOUND")
  end.

Definition describe (registry : list (string * Entry)) (ref : CapabilityRef)
  : result CapabilityDescriptor := e ← entry registry ref; Ok (entry_descriptor e).

Record Prepared := { pr_request : CapabilityInvocation; pr_entry : Entry; pr_input : json }.

Definition prepare (registry : list (string * Entry)) (raw : CapabilityInvocation) : result Prepared :=
  match CapabilityInvocation_parse raw with
  | Throw _ => Throw (cap_error "INVALID_REQUEST")
  | Ok request =>
      e ← entry registry (inv_capability request);
      match def_inputSchema (entry_definition e) (inv_input request) with
      | None => Throw (cap_error "INVALID_INPUT")
      | Some input =>
          ensure (capabilityDigest input === capabilityDigest (inv_input request))
            (cap_error "INVALID_INPUT");;
          Ok {| pr_request := request; pr_entry := e; pr_input := input |}
      end
  end.

Definition receipt_bound (request : CapabilityInvocation) (e : Entry) (r : CapabilityResult) : bool :=
  (res_runId r === inv_runId request) && (res_taskId r === inv_taskId request) &&
  (res_stepId r === inv_stepId request) &&
  (capabilityDigest (trace_json (res_trace r)) === capabilityDigest (trace_json (inv_trace request))) &&
  (capabilityDigest (ref_json (res_capability r)) === capabilityDigest (ref_json (inv_capability request))) &&
  (res_idempotencyKey r === inv_idempotencyKey request) &&
  (res_requestDigest r === capabilityDigest (invocation_json request)) &&
  (res_descriptorDigest r === desc_digest (entry_descriptor e)) &&
  (res_outputDigest r === capabilityDigest (res_output r)).

Definition verify (registry : list (string * Entry)) (raw : CapabilityInvocation)
    (rawResult : CapabilityResult) : result CapabilityResult :=
  p ← prepare registry raw;
  match CapabilityResult_parse rawResult with
  | Throw _ => Throw (cap_error "INVALID_RECEIPT")
  | Ok res =>
      ensure (receipt_bound (pr_request p) (pr_entry p) res) (cap_error "INVALID_RECEIPT");;
      match def_outputSchema (entry_definition (pr_entry p)) (res_output res) with
      | None => Throw (cap_error "INVALID_OUTPUT")
      | Some output =>
          ensure (capabilityDigest output === capabilityDigest (res_output res))
            (cap_error "INVALID_OUTPUT");;
          (* a verifier that throws counts as not verified *)
          ensure (match def_verify (entry_definition (pr_entry p)) (pr_input p) output with
                  | Ok b => b | Throw _ => false end) (cap_error "VERIFICATION_FAILED");;
          Ok res
      end
  end.

Definition execute (registry : list (string * Entry)) (raw : CapabilityInvocation)
  : result CapabilityResult :=
  p ← prepare registry raw;
  let request := pr_request p in
  let d := entry_definition (pr_entry p) in
  match def_execute d (pr_input p) with
  | Throw _ => Throw (cap_error "IMPLEMENTATION_FAILED")
  | Ok out =>
      match def_outputSchema d out with
      | None => Throw (cap_error "INVALID_OUTPUT")
      | Some output =>
          res ← CapabilityResult_parse
            {| res_runId := inv_runId request; res_taskId := inv_taskId request;
               res_stepId := inv_stepId request; res_trace := inv_trace request;
               res_capability := inv_capability request;
               res_idempotencyKey := inv_idempotencyKey request;
               res_requestDigest := capabilityDigest (invocation_json request);
               res_descriptorDigest := desc_digest (entry_descriptor (pr_entry p));
               res_output := output; res_outputDigest := capabilityDigest output |};
          verify registry request res
      end
  end.

(** ** The built-in text capabilities *)

Definition UPPERCASE : CapabilityRef :=
  {| cap_id := "60000000-0000-4000-8000-000000000001"; cap_version := "1.0.0" |}.
Definition REVERSE : CapabilityRef :=
  {| cap_id := "60000000-0000-4000-8000-000000000002"; cap_version := "1.0.0" |}.

(** [z.strictObject({ text: z.string().max(n) })]: exactly one field. *)
Definition text_schema (max : Z) (v : json) : option json :=
  match v with
  | JObj [(k, JStr t)] => if (k === "text") && (js_length t <=? max) then Some v else None
  | _ => None
  end.

Definition TextInput : json → option json := text_schema 16384.
Definition TextOutput : json → option json := text_schema 49152.

(** [TextInput.parse(v).text] *)
Definition text_of (schema : json → option json) (v : json) : result string :=
  match schema v with
  | Some (JObj [(_, JStr t)]) => Ok t
  | _ => Throw (zod_error "text")
  end.

Definition text_value (t : string) : json := JObj [("text", JStr t)].

(** [for (const point of input) expected = point + expected] *)
Definition reverse_loop (input : string) : string :=
  fold_left (λ expected point, bytes_string point +:+ expected)
    (code_points (Sha256.string_bytes input)) EmptyString.

Section builtins.
Context (toUpperCase : string → string).
(** [z.toJSONSchema] of the two text schemas. *)
Context (inputJsonSchema outputJsonSchema : json).

Definition definition (ref : CapabilityRef) (description : string)
    (execute : string → string) (verify : string → string → bool) : CapabilityDefinition :=
  {| def_metadata :=
       {| meta_id := cap_id ref; meta_version := cap_version ref; meta_description := description;
          meta_inputSchemaRef := "kerneljson:text-input/v1";
          meta_outputSchemaRef := "kerneljson:text-output/v1"; meta_riskClass := LOW;
          meta_permissions := []; meta_implementationType := DETERMINISTIC;
          meta_verificationRequirements := ["recompute-text/v1"] |};
     def_inputSchema := TextInput; def_inputJsonSchema := inputJsonSchema;
     def_outputSchema := TextOutput; def_outputJsonSchema := outputJsonSchema;
     def_execute := λ input, t ← text_of TextInput input; Ok (text_value (execute t));
     def_verify := λ input output,
       i ← text_of TextInput input; o ← text_of TextOutput output; Ok (verify i o) |}.

Definition uppercase_definition : CapabilityDefinition :=
  definition UPPERCASE "Trim and uppercase text" (λ t, toUpperCase (js_trim t))
    (λ input output, output === toUpperCase (js_trim input)).

Definition reverse_definition : CapabilityDefinition :=
  definition REVERSE "Reverse Unicode code points" stepB
    (λ input output, output === reverse_loop input).

Definition createBuiltinRegistry : result (list (string * Entry)) :=
  CapabilityRegistry [uppercase_definition; reverse_definition] BUILTIN.
End builtins.

(** ** Canonical JSON does not depend on key order *)

Lemma string_compare_le s t : String.compare s t ≠ Gt ↔ String.le s t.
Proof. unfold String.le, String.leb. destruct (String.compare s t); simpl; split; done. Qed.

Lemma key_compare_le {A} (a b : string * A) : cmp_le key_compare a b ↔ String.le a.1 b.1.
Proof.
  rewrite <- string_compare_le. unfold cmp_le, key_compare.
  destruct (String.compare a.1 b.1); split; intros; try lia; done.
Qed.

Lemma sort_keys_sorted {A} (l : list (string * A)) :
  StronglySorted (cmp_le key_compare) (js_sort key_compare l).
Proof.
  apply js_sort_sorted.
  - intros x y. change (cmp_le key_compare x y ∨ cmp_le key_compare y x).
    rewrite !key_compare_le. apply String.le_total.
  - intros x y z. rewrite !key_compare_le. apply transitivity.
Qed.

Lemma sort_keys_perm {A} (l l' : list (string * A)) :
  NoDup l.*1 → l ≡ₚ l' → js_sort key_compare l = js_sort key_compare l'.
Proof.
  intros Hnd Hp. eapply StronglySorted_unique_strong; [|apply sort_keys_sorted..|].
  - intros [k x] [k' y] Hx Hy. rewrite !key_compare_le. intros H1 H2.
    pose proof (anti_symm String.le k k' H1 H2) as <-. f_equal.
    apply js_sort_elem in Hx. apply js_sort_elem in Hy. rewrite <- Hp in Hy.
    apply (map_elem_get l) in Hx; [|done]. apply (map_elem_get l) in Hy; [|done]. congruence.
  - by rewrite !js_sort_perm.
Qed.

(** Two JSON objects with the same fields in a different order have the same
    [capabilityDigest], whatever the fields: what PostgreSQL's jsonb does to a
    stored object (it reorders the keys) cannot change a receipt's digest. *)
Theorem capabilityDigest_key_order fs fs' :
  NoDup fs.*1 → fs ≡ₚ fs' → capabilityDigest (JObj fs) = capabilityDigest (JObj fs').
Proof.
  intros Hnd Hp. unfold capabilityDigest. cbn [canonical].
  rewrite (sort_keys_perm (map _ fs) (map (λ kv, (kv.1, canonical kv.2)) fs')); [done| |].
  - rewrite <- list_fmap_compose. done.
  - by rewrite Hp.
Qed.

(** ** What the constructor guarantees *)

Definition entry_ok (mode : RegistryMode) (ke : string * Entry) : Prop :=
  let d := entry_descriptor ke.2 in
  let m := desc_metadata d in
  ke.1 = ref_key (meta_id m) (meta_version m) ∧
  def_metadata (entry_definition ke.2) = m ∧
  desc_digest d = capabilityDigest (JObj [("metadata", capability_json m);
                    ("inputSchema", desc_inputSchema d); ("outputSchema", desc_outputSchema d)]) ∧
  (mode = BUILTIN → meta_implementationType m = DETERMINISTIC ∧ meta_riskClass m = LOW) ∧
  (meta_implementationType m = DETERMINISTIC → meta_permissions m = []).

Lemma register_ok mode entries d entries' :
  register mode entries d = Ok entries' →
  ∃ ke, entry_ok mode ke ∧ map_has entries ke.1 = false ∧ entries' = map_set entries ke.1 ke.2.
Proof.
  unfold register. intros (m & _ & H)%bind_ok.
  apply ensure_ok in H as [_ H]. apply bind_ok in H as ([] & Hmode & H).
  apply ensure_ok in H as [Hnew H]. apply Ok_inj in H as <-.
  eexists (_, _). split_and!; [| |reflexivity]; [|by to_prop].
  unfold entry_ok. simpl. split_and!; [done|done|done| |].
  - intros ->. destruct (meta_implementationType m), (meta_riskClass m); by inv_ok.
  - intros Hd. rewrite Hd in Hmode.
    destruct mode, (meta_riskClass m), (meta_permissions m); by inv_ok.
Qed.

Lemma register_all_ok mode ds : ∀ entries reg,
  Forall (entry_ok mode) entries → NoDup (map_keys entries) →
  register_all mode entries ds = Ok reg →
  Forall (entry_ok mode) reg ∧ NoDup (map_keys reg) ∧ (length reg = length entries + length ds)%nat.
Proof.
  induction ds as [|d ds IH]; intros entries reg Hok Hnd; cbn [register_all].
  { intros ->%Ok_inj. split_and!; [done|done|simpl; lia]. }
  intros (es & ([k e] & Hke & Hnew & ->)%register_ok & H)%bind_ok. simpl in *.
  apply IH in H as (? & ? & Hl); [|by apply map_set_Forall|by apply map_set_NoDup].
  split_and!; [done|done|]. rewrite Hl, map_set_length, Hnew. lia.
Qed.

(** A registry that was constructed holds one entry per definition, each under
    its own id@version key with a descriptor digest over exactly its metadata and
    schemas; a built-in registry holds only LOW-risk deterministic capabilities
    with no permissions, whatever definitions it was given. *)
Theorem registry_entries_safe ds mode reg :
  CapabilityRegistry ds mode = Ok reg →
  length reg = length ds ∧ NoDup (map_keys reg) ∧
  ∀ ref d, describe reg ref = Ok d →
    ref_key (cap_id ref) (cap_version ref) = ref_key (meta_id (desc_metadata d)) (meta_version (desc_metadata d)) ∧
    desc_digest d = capabilityDigest (JObj [("metadata", capability_json (desc_metadata d));
                      ("inputSchema", desc_inputSchema d); ("outputSchema", desc_outputSchema d)]) ∧
    (mode = BUILTIN → meta_implementationType (desc_metadata d) = DETERMINISTIC ∧
       meta_riskClass (desc_metadata d) = LOW ∧ meta_permissions (desc_metadata d) = []).
Proof.
  intros (Hok & Hnd & Hl)%register_all_ok; [|constructor|constructor].
  split_and!; [done|done|]. intros ref d. unfold describe, entry.
  destruct (map_get reg _) as [e|] eqn:E; [|done]. intros <-%Ok_inj.
  apply map_get_elem in E. eapply Forall_forall in Hok; [|exact E].
  destruct Hok as (Hk & _ & Hd & Hb & Hp). simpl in *. split_and!; [done|done|].
  intros Hm. destruct (Hb Hm). auto.
Qed.

(** ** Receipts *)

(** C35: a receipt [verify] accepts answers a well-formed invocation of a
    registered capability: it names that run, task, step and idempotency key,
    its digests are those of the request, of the entry's descriptor and of its
    own output, and the definition's verifier said [true] of a value with the
    output's digest. *)
Theorem verify_sound reg raw rawResult r :
  verify reg raw rawResult = Ok r →
  ∃ request e input output,
    CapabilityInvocation_parse raw = Ok request ∧
    entry reg (inv_capability request) = Ok e ∧
    res_runId r = inv_runId request ∧ res_taskId r = inv_taskId request ∧
    res_stepId r = inv_stepId request ∧ res_idempotencyKey r = inv_idempotencyKey request ∧
    res_requestDigest r = capabilityDigest (invocation_json request) ∧
    res_descriptorDigest r = desc_digest (entry_descriptor e) ∧
    res_outputDigest r = capabilityDigest (res_output r) ∧
    def_inputSchema (entry_definition e) (inv_input request) = Some input ∧
    def_outputSchema (entry_definition e) (res_output r) = Some output ∧
    capabilityDigest output = res_outputDigest r ∧
    def_verify (entry_definition e) input output = Ok true.
Proof.
  unfold verify, prepare. intros (p & Hp & H)%bind_ok.
  destruct (CapabilityInvocation_parse raw) as [request|] eqn:Er; [|done].
  apply bind_ok in Hp as (e & He & Hp).
  destruct (def_inputSchema _ _) as [input|] eqn:Ei; [|done].
  apply ensure_ok in Hp as [_ <-%Ok_inj]. cbn [pr_request pr_entry pr_input] in H.
  destruct (CapabilityResult_parse rawResult) as [res|]; [|done].
  apply ensure_ok in H as [Hb H]. unfold receipt_bound in Hb. to_prop.
  destruct (def_outputSchema _ _) as [output|] eqn:Eo; [|done].
  apply ensure_ok in H as [Hd H]. apply ensure_ok in H as [Hv <-%Ok_inj]. to_prop.
  exists request, e, input, output.
  destruct (def_verify _ _ _) as [b|] eqn:Ev; [|done]. subst b.
  split_and!; try done. congruence.
Qed.

Lemma text_schema_some max v w :
  text_schema max v = Some w → ∃ t, v = text_value t ∧ w = v ∧ (js_length t <= max)%Z.
Proof.
  unfold text_schema. destruct v as [| | | | |[|[k []] []]|]; try done.
  destruct (_ && _) eqn:E; [|done]. to_prop. intros [= <-]. subst. eauto.
Qed.

Lemma text_of_value schema max t :
  schema = text_schema max → js_length t <= max → text_of schema (text_value t) = Ok t.
Proof.
  intros -> Hl. unfold text_of, text_schema, text_value.
  rewrite bool_decide_true by done. by rewrite (proj2 (Z.leb_le _ _) Hl).
Qed.

Lemma string_of_list_app l l' :
  String.string_of_list_ascii (l ++ l') =
  String.string_of_list_ascii l +:+ String.string_of_list_ascii l'.
Proof. induction l as [|c l IH]; simpl; [done|]. by rewrite IH. Qed.

Lemma bytes_string_app a b : bytes_string (a ++ b) = bytes_string a +:+ bytes_string b.
Proof. unfold bytes_string. by rewrite map_app, string_of_list_app. Qed.

(** The verifier's loop and the implementation's reverse agree. *)
Lemma reverse_loop_stepB s : reverse_loop s = stepB s.
Proof.
  unfold reverse_loop, stepB. generalize (code_points (Sha256.string_bytes s)) as cps.
  assert (H : ∀ cps acc, fold_left (λ expected point, bytes_string point +:+ expected) cps acc
     = bytes_string (concat (rev cps)) +:+ acc).
  { induction cps as [|p cps IH]; intros acc; simpl; [done|].
    rewrite IH, concat_app. simpl. rewrite app_nil_r, bytes_string_app. by rewrite str_app_assoc. }
  intros cps. rewrite H. by rewrite str_app_nil_r.
Qed.

Lemma sha256_hex_ok s : Digest_ok (Sha256.sha256_hex s) = true.
Proof.
  unfold Digest_ok, Sha256.sha256_hex. rewrite String.list_ascii_of_string_of_list_ascii.
  fold (Sha256.digest_chars s). rewrite bool_decide_true by apply Sha256.digest_chars_length.
  simpl. apply forallb_forall. intros c Hc. apply list_elem_of_In in Hc.
  by eapply Forall_forall in Hc; [|apply Sha256.digest_chars_is_hex].
Qed.

Lemma capabilityDigest_ok v : Digest_ok (capabilityDigest v) = true.
Proof. apply sha256_hex_ok. Qed.

(** A receipt made of the fields of a parsed invocation parses. *)
Lemma CapabilityResult_parse_of i r :
  CapabilityInvocation_parse i = Ok i →
  res_runId r = inv_runId i → res_taskId r = inv_taskId i → res_stepId r = inv_stepId i →
  res_trace r = inv_trace i → res_capability r = inv_capability i →
  res_idempotencyKey r = inv_idempotencyKey i →
  Digest_ok (res_requestDigest r) = true → Digest_ok (res_descriptorDigest r) = true →
  Digest_ok (res_outputDigest r) = true →
  CapabilityResult_parse r = Ok r.
Proof.
  destruct i as [run task step trace cap key input], r as [run' task' step' trace' cap' key' q d o od].
  unfold CapabilityInvocation_parse, CapabilityResult_parse. simpl.
  unfold ok_or. intros [Hids H]%ensure_ok -> -> -> -> -> -> -> -> ->.
  rewrite Hids. cbn [mbind result_bind ensure].
  apply bind_ok in H as (tr & Htr & H). apply bind_ok in H as (c & Hc & H).
  apply bind_ok in H as (k & Hk & H). apply Ok_inj in H. injection H as -> -> ->.
  by rewrite Htr, Hc, Hk.
Qed.

Section builtin_theorems.
Context (toUpperCase : string → string) (inJ outJ : json).

(** What the two text capabilities compute. *)
Definition text_function (ref : CapabilityRef) (t : string) : string :=
  if decide (ref = UPPERCASE) then toUpperCase (js_trim t) else stepB t.

Definition make_entry (d : CapabilityDefinition) : Entry :=
  {| entry_definition := d;
     entry_descriptor :=
       {| desc_metadata := def_metadata d; desc_inputSchema := def_inputJsonSchema d;
          desc_outputSchema := def_outputJsonSchema d;
          desc_digest := capabilityDigest
            (JObj [("metadata", capability_json (def_metadata d));
                   ("inputSchema", def_inputJsonSchema d);
                   ("outputSchema", def_outputJsonSchema d)]) |} |}.

Lemma register_text entries ref description ex vr :
  ref = UPPERCASE ∨ ref = REVERSE → Text_parse description = Ok description →
  let d := definition inJ outJ ref description ex vr in
  let key := ref_key (cap_id ref) (cap_version ref) in
  map_has entries key = false →
  register BUILTIN entries d = Ok (map_set entries key (make_entry d)).
Proof.
  intros Hr Hd d key Hk. unfold register.
  assert (Capability_parse (def_metadata d) = Ok (def_metadata d)) as ->.
  { unfold d, Capability_parse. cbn [definition def_metadata meta_id meta_version
      meta_description meta_inputSchemaRef meta_outputSchemaRef meta_permissions
      meta_verificationRequirements]. rewrite Hd.
    destruct Hr as [-> | ->]; vm_compute; reflexivity. }
  cbn [mbind result_bind].
  assert (semver_ok (meta_version (def_metadata d)) = true) as ->
    by (destruct Hr as [-> | ->]; reflexivity).
  cbn. unfold key in Hk. by rewrite Hk.
Qed.

Lemma builtin_keys_ne :
  ref_key (cap_id REVERSE) (cap_version REVERSE) ≠ ref_key (cap_id UPPERCASE) (cap_version UPPERCASE).
Proof. by vm_compute. Qed.

Lemma builtin_descriptions : Text_parse "Trim and uppercase text" = Ok "Trim and uppercase text" ∧
  Text_parse "Reverse Unicode code points" = Ok "Reverse Unicode code points".
Proof. split; vm_compute; reflexivity. Qed.

Lemma register_two mode d1 d2 es1 es2 es :
  register mode [] d1 = Ok es1 → register mode es1 d2 = Ok es2 → es2 = es →
  CapabilityRegistry [d1; d2] mode = Ok es.
Proof.
  intros H1 H2 <-. unfold CapabilityRegistry. cbn [register_all].
  rewrite H1. cbn [mbind result_bind]. by rewrite H2.
Qed.

(** The built-in registry: its two entries. *)
Lemma createBuiltinRegistry_eq :
  createBuiltinRegistry toUpperCase inJ outJ =
    Ok [(ref_key (cap_id UPPERCASE) (cap_version UPPERCASE),
         make_entry (uppercase_definition toUpperCase inJ outJ));
        (ref_key (cap_id REVERSE) (cap_version REVERSE), make_entry (reverse_definition inJ outJ))].
Proof.
  destruct builtin_descriptions as [Hu Hr]. eapply register_two.
  - apply (register_text []); [by left|done|done].
  - apply register_text; [by right|done|].
    unfold map_has. cbn [map_get map_set]. by rewrite bool_decide_false by apply builtin_keys_ne.
  - cbn [map_set]. by rewrite bool_decide_false by apply builtin_keys_ne.
Qed.

Lemma builtin_entry reg ref e :
  createBuiltinRegistry toUpperCase inJ outJ = Ok reg → entry reg ref = Ok e →
  e = make_entry (uppercase_definition toUpperCase inJ outJ) ∧
    ref_key (cap_id ref) (cap_version ref) = ref_key (cap_id UPPERCASE) (cap_version UPPERCASE) ∨
  e = make_entry (reverse_definition inJ outJ) ∧
    ref_key (cap_id ref) (cap_version ref) = ref_key (cap_id REVERSE) (cap_version REVERSE).
Proof.
  rewrite createBuiltinRegistry_eq. intros <-%Ok_inj. unfold entry. cbn [map_get].
  case_bool_decide; [intros <-%Ok_inj; by left|].
  case_bool_decide; [intros <-%Ok_inj; by right|done].
Qed.
Lemma text_of_inv schema max v t :
  schema = text_schema max → text_of schema v = Ok t → v = text_value t.
Proof.
  intros -> H. unfold text_of in H.
  destruct (text_schema max v) as [w|] eqn:E; [|done].
  apply text_schema_some in E as (t' & -> & -> & _). by apply Ok_inj in H as ->.
Qed.

Lemma invocation_capability raw request :
  CapabilityInvocation_parse raw = Ok request →
  inv_capability raw = UPPERCASE ∨ inv_capability raw = REVERSE →
  inv_capability request = inv_capability raw ∧ inv_input request = inv_input raw.
Proof.
  unfold CapabilityInvocation_parse. intros (? & _ & H)%bind_ok Hc.
  apply bind_ok in H as (? & _ & H). apply bind_ok in H as (cap & Hcap & H).
  apply bind_ok in H as (? & _ & <-%Ok_inj). split; [|done]. simpl.
  assert (Hp : CapabilityRef_parse (inv_capability raw) = Ok (inv_capability raw)).
  { destruct Hc as [-> | ->]; vm_compute; reflexivity. }
  rewrite Hp in Hcap. by apply Ok_inj in Hcap.
Qed.

Lemma builtin_definition reg ref e :
  createBuiltinRegistry toUpperCase inJ outJ = Ok reg → ref = UPPERCASE ∨ ref = REVERSE →
  entry reg ref = Ok e →
  def_inputSchema (entry_definition e) = TextInput ∧
  def_outputSchema (entry_definition e) = TextOutput ∧
  Digest_ok (desc_digest (entry_descriptor e)) = true ∧
  (∀ v, def_execute (entry_definition e) v =
          (t ← text_of TextInput v; Ok (text_value (text_function ref t)))) ∧
  (∀ v w, def_verify (entry_definition e) v w =
          (i ← text_of TextInput v; o ← text_of TextOutput w; Ok (o === text_function ref i))).
Proof.
  intros Hreg Hr He. unfold text_function.
  destruct (builtin_entry _ _ _ Hreg He) as [[-> Hk]|[-> Hk]]; destruct Hr as [-> | ->];
    try by (exfalso; revert Hk; vm_compute; discriminate).
  - destruct (decide (UPPERCASE = UPPERCASE)); [|done]. split_and!; try done. apply sha256_hex_ok.
  - destruct (decide (REVERSE = UPPERCASE)); [done|].
    split_and!; [done|done|apply sha256_hex_ok|done|].
    intros v w. cbn [make_entry entry_definition reverse_definition definition def_verify].
    destruct (text_of TextInput v) as [i|]; [|done]. cbn [mbind result_bind].
    destruct (text_of TextOutput w) as [o|]; [|done]. cbn [mbind result_bind].
    by rewrite reverse_loop_stepB.
Qed.

(** The only receipts the built-in registry accepts for [UPPERCASE] and
    [REVERSE] carry the function's value: whoever built the receipt, the input was
    [{text: t}] and the output is [{text: uppercase(trim(t))}], or the code points
    of [t] reversed. *)
Theorem builtin_receipt_output reg raw rawResult r :
  createBuiltinRegistry toUpperCase inJ outJ = Ok reg →
  inv_capability raw = UPPERCASE ∨ inv_capability raw = REVERSE →
  verify reg raw rawResult = Ok r →
  ∃ t, inv_input raw = text_value t ∧
       res_output r = text_value (text_function (inv_capability raw) t).
Proof.
  intros Hreg Hc Hv. unfold verify, prepare in Hv.
  apply bind_ok in Hv as (p & Hp & Hv).
  destruct (CapabilityInvocation_parse raw) as [request|] eqn:Er; [|done].
  destruct (invocation_capability _ _ Er Hc) as [Ec Ei].
  apply bind_ok in Hp as (e & He & Hp). rewrite Ec in He.
  destruct (builtin_definition _ _ _ Hreg Hc He) as (Hin & Hout & _ & _ & Hver).
  rewrite Hin, Ei in Hp.
  destruct (TextInput (inv_input raw)) as [input|] eqn:Et; [|done].
  apply ensure_ok in Hp as [_ <-%Ok_inj]. cbn [pr_request pr_entry pr_input] in Hv.
  destruct (CapabilityResult_parse rawResult) as [res|]; [|done].
  apply ensure_ok in Hv as [_ Hv]. rewrite Hout in Hv.
  destruct (TextOutput (res_output res)) as [output|] eqn:Eo; [|done].
  apply ensure_ok in Hv as [_ Hv]. apply ensure_ok in Hv as [Hok <-%Ok_inj].
  rewrite Hver in Hok.
  apply text_schema_some in Et as (t & Et & -> & Hl). apply text_schema_some in Eo as (o & Eo & -> & Hl').
  rewrite Et, Eo in Hok. rewrite (text_of_value TextInput _ _ eq_refl Hl), (text_of_value TextOutput _ _ eq_refl Hl') in Hok.
  cbn in Hok. to_prop. exists t. by rewrite Eo, Hok.
Qed.

Lemma execute_text reg raw t :
  createBuiltinRegistry toUpperCase inJ outJ = Ok reg →
  inv_capability raw = UPPERCASE ∨ inv_capability raw = REVERSE →
  CapabilityInvocation_parse raw = Ok raw → inv_input raw = text_value t →
  js_length t <= 16384 → js_length (text_function (inv_capability raw) t) <= 49152 →
  ∃ r, execute reg raw = Ok r ∧ verify reg raw r = Ok r ∧
    res_output r = text_value (text_function (inv_capability raw) t).
Proof.
  intros Hreg Hc Hraw Hin Hl Hlo.
  assert (He : ∃ e, entry reg (inv_capability raw) = Ok e).
  { rewrite createBuiltinRegistry_eq in Hreg. apply Ok_inj in Hreg as <-. unfold entry. cbn [map_get].
    destruct Hc as [-> | ->]; [rewrite bool_decide_true by done; eauto|].
    rewrite bool_decide_false by apply builtin_keys_ne. rewrite bool_decide_true by done. eauto. }
  destruct He as [e He].
  destruct (builtin_definition _ _ _ Hreg Hc He) as (HI & HO & Hdg & Hex & Hver).
  assert (HTI : TextInput (text_value t) = Some (text_value t)).
  { unfold TextInput, text_schema, text_value. rewrite bool_decide_true by done.
    by rewrite (proj2 (Z.leb_le _ _) Hl). }
  set (o := text_function (inv_capability raw) t) in *.
  assert (HTO : TextOutput (text_value o) = Some (text_value o)).
  { unfold TextOutput, text_schema, text_value. rewrite bool_decide_true by done.
    by rewrite (proj2 (Z.leb_le _ _) Hlo). }
  assert (Hprep : prepare reg raw = Ok {| pr_request := raw; pr_entry := e; pr_input := text_value t |}).
  { unfold prepare. rewrite Hraw, He. cbn [mbind result_bind]. rewrite HI, Hin, HTI.
    by rewrite bool_decide_true by done. }
  unfold execute. rewrite Hprep. cbn [mbind result_bind pr_request pr_entry pr_input].
  rewrite Hex, (text_of_value TextInput _ _ eq_refl Hl). cbn [mbind result_bind]. fold o. rewrite HO, HTO.
  match goal with |- context [CapabilityResult_parse ?x] => set (res := x) end.
  assert (Hres : CapabilityResult_parse res = Ok res).
  { apply (CapabilityResult_parse_of raw); try done; apply sha256_hex_ok. }
  rewrite Hres. cbn [mbind result_bind].
  enough (verify reg raw res = Ok res) as Hv by (exists res; by rewrite Hv).
  unfold verify. rewrite Hprep. cbn [mbind result_bind pr_request pr_entry pr_input]. rewrite Hres.
  assert (receipt_bound raw e res = true) as ->.
  { unfold receipt_bound, res. cbn [res_runId res_taskId res_stepId res_trace res_capability
      res_idempotencyKey res_requestDigest res_descriptorDigest res_output res_outputDigest].
    by rewrite !(bool_decide_true (_ = _)) by reflexivity. }
  cbn [ensure mbind result_bind]. rewrite HO. unfold res at 1 2. cbn [res_output]. rewrite HTO.
  rewrite bool_decide_true by done. cbn [ensure mbind result_bind].
  rewrite Hver, (text_of_value TextInput _ _ eq_refl Hl). cbn [mbind result_bind].
  rewrite (text_of_value TextOutput _ _ eq_refl Hlo). cbn [mbind result_bind].
  by rewrite bool_decide_true.
Qed.
(** [execute] is total on what the text capabilities accept: a well-formed
    invocation of either on [{text: t}], with the input and the result within the
    schemas' length limits, returns a receipt, and its output is the function's
    value. *)
Theorem builtin_execute_ok reg raw t :
  createBuiltinRegistry toUpperCase inJ outJ = Ok reg →
  inv_capability raw = UPPERCASE ∨ inv_capability raw = REVERSE →
  CapabilityInvocation_parse raw = Ok raw → inv_input raw = text_value t →
  js_length t <= 16384 → js_length (text_function (inv_capability raw) t) <= 49152 →
  ∃ r, execute reg raw = Ok r ∧ res_output r = text_value (text_function (inv_capability raw) t).
Proof.
  intros Hreg Hc Hraw Hin Hl Hlo.
  destruct (execute_text reg raw t Hreg Hc Hraw Hin Hl Hlo) as (r & Hr & _ & Ho). by exists r.
Qed.
End builtin_theorems.

(** ** A concrete invocation *)

Definition sample_invocation (ref : CapabilityRef) : CapabilityInvocation :=
  {| inv_runId := sample_id 1; inv_taskId := sample_id 2; inv_stepId := sample_id 3;
     inv_trace := {| tr_traceId := sample_id 4; tr_correlationId := sample_id 5; tr_spanId := None |};
     inv_capability := ref; inv_idempotencyKey := "k"; inv_input := text_value "abc" |}.

Lemma sample_receipt ref :
  ref = UPPERCASE ∨ ref = REVERSE →
  ∃ reg r, createBuiltinRegistry ascii_upper JNull JNull = Ok reg ∧
    verify reg (sample_invocation ref) r = Ok r.
Proof.
  intros Hr. eexists. rewrite createBuiltinRegistry_eq.
  destruct (execute_text ascii_upper JNull JNull _ (sample_invocation ref) "abc"
    (createBuiltinRegistry_eq _ _ _) Hr) as (r & _ & Hv & _).
  1-4: by destruct Hr as [-> | ->]; vm_compute.
  exists r. split; [done|exact Hv].
Qed.

Lemma capabilityDigest_key_order_witness :
  capabilityDigest (JObj [("b", JNum 1); ("a", JNull)]) = capabilityDigest (JObj [("a", JNull); ("b", JNum 1)]).
Proof.
  apply capabilityDigest_key_order; [|constructor].
  apply (bool_decide_unpack (NoDup ["b"; "a"])). reflexivity.
Defined.

Lemma registry_entries_safe_witness : ∃ reg,
  createBuiltinRegistry ascii_upper JNull JNull = Ok reg ∧ length reg = 2%nat.
Proof.
  eexists. split; [apply createBuiltinRegistry_eq|].
  exact (proj1 (registry_entries_safe _ BUILTIN _ (createBuiltinRegistry_eq ascii_upper JNull JNull))).
Defined.

Lemma verify_sound_witness : ∃ reg r e,
  verify reg (sample_invocation REVERSE) r = Ok r ∧
  res_descriptorDigest r = desc_digest (entry_descriptor e).
Proof.
  destruct (sample_receipt REVERSE (or_intror eq_refl)) as (reg & r & _ & Hv).
  destruct (verify_sound reg _ r r Hv) as (q & e & i & o & _ & _ & _ & _ & _ & _ & _ & Hd & _).
  exists reg, r, e. split; [exact Hv|exact Hd].
Defined.

Lemma builtin_receipt_output_witness : ∃ r t,
  inv_input (sample_invocation UPPERCASE) = text_value t ∧
  res_output r = text_value (text_function ascii_upper UPPERCASE t).
Proof.
  destruct (sample_receipt UPPERCASE (or_introl eq_refl)) as (reg & r & Hreg & Hv).
  destruct (builtin_receipt_output ascii_upper JNull JNull reg (sample_invocation UPPERCASE) r r Hreg
    (or_introl eq_refl) Hv) as (t & Hi & Ho).
  exists r, t. split; [exact Hi|exact Ho].
Defined.

Lemma builtin_execute_ok_witness : ∃ reg r,
  execute reg (sample_invocation UPPERCASE) = Ok r ∧
  res_output r = text_value (text_function ascii_upper UPPERCASE "abc").
Proof.
  eexists.
  apply (builtin_execute_ok ascii_upper JNull JNull _ (sample_invocation UPPERCASE) "abc"
    (createBuiltinRegistry_eq ascii_upper JNull JNull)).
  - left. reflexivity.
  - vm_compute. reflexivity.
  - reflexivity.
  - vm_compute. discriminate.
  - vm_compute. discriminate.
Defined.

