(* ===== verification/Json.v ===== *)
(** * JSON texts and schemas read from them

    [JSON.parse] as the code uses it on the text a model runtime returns
    (services/kernel/src/mission/reconcile.ts, parseRuntimeJson), and Zod schemas as
    readers of a JSON value.  The parser follows the JSON grammar on UTF-8: a number that
    is not an integer has no [json] value and is refused, as no schema here has a place for
    one; a lone surrogate escape is read as U+FFFD, which is what its UTF-8 encoding is.
    The theorem: [JSON.parse] inverts [JSON.stringify] on values whose objects have
    distinct keys. *)

From S2P Require Import Prelude JsNumber JsDate Digest Contracts Plan Capability.
Local Open Scope Z_scope.
Local Open Scope js_scope.

(** ** JSON.parse *)

Definition is_ws (c : ascii) : bool := bool_decide (N_of_ascii c ∈ [32; 9; 10; 13]%N).

Fixpoint skip_ws (s : string) : string :=
  match s with
  | String c s' => if is_ws c then skip_ws s' else s
  | EmptyString => s
  end.

(** [code] as UTF-8 bytes. *)
Definition utf8 (code : Z) : string :=
  bytes_string
    (if code <? 128 then [code]
     else if code <? 2048 then [192 + code / 64; 128 + code mod 64]
     else if (55296 <=? code) && (code <? 57344) then [239; 191; 189]
     else if code <? 65536 then [224 + code / 4096; 128 + code / 64 mod 64; 128 + code mod 64]
     else [240 + code / 262144; 128 + code / 4096 mod 64; 128 + code / 64 mod 64; 128 + code mod 64]).

Definition hex_value (c : ascii) : option Z :=
  let n := Z.of_N (N_of_ascii c) in
  if (48 <=? n) && (n <=? 57) then Some (n - 48)
  else if (97 <=? n) && (n <=? 102) then Some (n - 87)
  else if (65 <=? n) && (n <=? 70) then Some (n - 55) else None.

Definition hex4 (a b c d : ascii) : option Z :=
  x ← hex_value a; y ← hex_value b; z ← hex_value c; w ← hex_value d; Some (((x * 16 + y) * 16 + z) * 16 + w).

(** The one-character escapes. *)
Definition short_escape (e : ascii) : option ascii :=
  let n := N_of_ascii e in
  if (n =? 34)%N || (n =? 92)%N || (n =? 47)%N then Some e
  else if (n =? 98)%N then Some (ascii_of_N 8) else if (n =? 116)%N then Some (ascii_of_N 9)
  else if (n =? 110)%N then Some (ascii_of_N 10) else if (n =? 102)%N then Some (ascii_of_N 12)
  else if (n =? 114)%N then Some (ascii_of_N 13) else None.

Definition prepend (p : string) (r : option (string * string)) : option (string * string) :=
  match r with Some (x, rest) => Some (p +:+ x, rest) | None => None end.

(** The characters of a string up to its closing quote, and what follows it. *)
Fixpoint parse_chars (s : string) : option (string * string) :=
  match s with
  | EmptyString => None
  | String c s1 =>
      if bool_decide (c = dquote) then Some (EmptyString, s1)
      else if bool_decide (c = backslash) then
        match s1 with
        | EmptyString => None
        | String e s2 =>
            match short_escape e with
            | Some x => prepend (String x EmptyString) (parse_chars s2)
            | None =>
                if bool_decide (e = "u"%char) then
                  match s2 with
                  | String h1 (String h2 (String h3 (String h4 s6))) =>
                      match hex4 h1 h2 h3 h4 with
                      | None => None
                      | Some hi =>
                          if (55296 <=? hi) && (hi <? 56320) then
                            match s6 with
                            | String b (String u (String l1 (String l2 (String l3 (String l4 s12))))) =>
                                match hex4 l1 l2 l3 l4 with
                                | Some lo =>
                                    if bool_decide (b = backslash) && bool_decide (u = "u"%char) &&
                                       (56320 <=? lo) && (lo <? 57344)
                                    then prepend (utf8 (65536 + (hi - 55296) * 1024 + (lo - 56320))) (parse_chars s12)
                                    else prepend (utf8 hi) (parse_chars s6)
                                | None => prepend (utf8 hi) (parse_chars s6)
                                end
                            | _ => prepend (utf8 hi) (parse_chars s6)
                            end
                          else prepend (utf8 hi) (parse_chars s6)
                      end
                  | _ => None
                  end
                else None
            end
        end
      else if (N_of_ascii c <? 32)%N then None
      else prepend (String c EmptyString) (parse_chars s1)
  end.

(** Decimal digits from [acc]; the number of digits read. *)
Fixpoint eat_digits (acc : Z) (n : nat) (s : string) : Z * nat * string :=
  match s with
  | String c s' =>
      match char_digit c with
      | Some d => eat_digits (acc * 10 + d) (S n) s'
      | None => (acc, n, s)
      end
  | EmptyString => (acc, n, s)
  end.

Definition char_is (c : ascii) (s : string) : bool :=
  match s with String x _ => bool_decide (x = c) | EmptyString => false end.

Definition drop_char (s : string) : string := match s with String _ s' => s' | EmptyString => s end.

(** The exponent after [e] or [E]. *)
Definition parse_exponent (s : string) : option (Z * string) :=
  let signed := char_is "+"%char s || char_is "-"%char s in
  let '(x, n, r) := eat_digits 0 0 (if signed then drop_char s else s) in
  if (n =? 0)%nat then None else Some (if char_is "-"%char s then - x else x, r).

(** The digits, fraction and exponent of a number, without its sign. *)
Definition parse_unsigned (s : string) : option (number * string) :=
  let '(m, n, r) := eat_digits 0 0 s in
  if (n =? 0)%nat || (char_is "0"%char s && (1 <? n)%nat) then None
  else
    '(m, k, r) ← (match r with
      | String "."%char r' =>
          let '(m', n', r'') := eat_digits m 0 r' in
          if (n' =? 0)%nat then None else Some (m', - Z.of_nat n', r'')
      | _ => Some (m, 0, r)
      end);
    '(k, r) ← (match r with
      | String c r' => if bool_decide (c = "e"%char) || bool_decide (c = "E"%char)
                       then '(x, r'') ← parse_exponent r'; Some (k + x, r'') else Some (k, r)
      | EmptyString => Some (k, r)
      end);
    Some (of_decimal m k, r).

Definition parse_number (s : string) : option (number * string) :=
  match s with
  | String "-"%char s' => '(v, r) ← parse_unsigned s'; Some (negate v, r)
  | _ => parse_unsigned s
  end.

Fixpoint strip_text (p s : string) : option string :=
  match p, s with
  | EmptyString, _ => Some s
  | String a p', String b s' => if bool_decide (a = b) then strip_text p' s' else None
  | _, _ => None
  end.

(** The own properties of an object literal: a repeated key keeps its first place and takes
    the last value. *)
Definition object_of (members : list (string * json)) : list (string * json) :=
  fold_left (λ m kv, map_set m kv.1 kv.2) members [].

Definition json_of_number (x : number) : json := match x with Int n => JNum n | Float f => JFloat f end.

(** [v ?? other] *)
Definition nullish (v : option json) (other : json) : json := match v with None | Some JNull => other | Some x => x end.

(** Fuel: two calls per character of the text are enough (see [parse_stringify]). *)
Fixpoint parse_value (fuel : nat) (s : string) : option (json * string) :=
  match fuel with
  | O => None
  | S fuel' =>
      let s := skip_ws s in
      match s with
      | EmptyString => None
      | String c r =>
          if bool_decide (c = dquote) then '(x, r) ← parse_chars r; Some (JStr x, r)
          else if bool_decide (c = "["%char) then
            if char_is "]"%char (skip_ws r) then Some (JArr [], drop_char (skip_ws r))
            else '(l, r) ← parse_elements fuel' r; Some (JArr l, r)
          else if bool_decide (c = "{"%char) then
            if char_is "}"%char (skip_ws r) then Some (JObj [], drop_char (skip_ws r))
            else '(l, r) ← parse_members fuel' r; Some (JObj (object_of l), r)
          else
            match strip_text "null" s, strip_text "true" s, strip_text "false" s with
            | Some r, _, _ => Some (JNull, r)
            | _, Some r, _ => Some (JBool true, r)
            | _, _, Some r => Some (JBool false, r)
            | _, _, _ => '(x, r) ← parse_number s; Some (json_of_number x, r)
            end
      end
  end
with parse_elements (fuel : nat) (s : string) : option (list json * string) :=
  match fuel with
  | O => None
  | S fuel' =>
      '(v, r) ← parse_value fuel' s;
      match skip_ws r with
      | String ","%char r' => '(l, r'') ← parse_elements fuel' r'; Some (v :: l, r'')
      | String "]"%char r' => Some ([v], r')
      | _ => None
      end
  end
with parse_members (fuel : nat) (s : string) : option (list (string * json) * string) :=
  match fuel with
  | O => None
  | S fuel' =>
      match skip_ws s with
      | String q r =>
          if bool_decide (q = dquote) then
            '(k, r) ← parse_chars r;
            match skip_ws r with
            | String ":"%char r =>
                '(v, r) ← parse_value fuel' r;
                match skip_ws r with
                | String ","%char r' => '(l, r'') ← parse_members fuel' r'; Some ((k, v) :: l, r'')
                | String "}"%char r' => Some ([(k, v)], r')
                | _ => None
                end
            | _ => None
            end
          else None
      | EmptyString => None
      end
  end.

Definition JSON_parse (s : string) : result json :=
  match parse_value (2 * String.length s + 2) s with
  | Some (v, r) => if bool_decide (skip_ws r = EmptyString) then Ok v else Throw (Exn "SyntaxError" "JSON.parse")
  | None => Throw (Exn "SyntaxError" "JSON.parse")
  end.

(** ** Reading back what [JSON.stringify] writes *)

(** Induction over a JSON value and its parts. *)
Section json_induction.
Context (P : json → Prop).
Context (Hnull : P JNull) (Hbool : ∀ b, P (JBool b)) (Hnum : ∀ n, P (JNum n)) (Hstr : ∀ s, P (JStr s)).
Context (Harr : ∀ l, Forall P l → P (JArr l)) (Hobj : ∀ fs, Forall (λ kv, P kv.2) fs → P (JObj fs)) (Hfloat : ∀ f, P (JFloat f)).

Fixpoint json_induct (v : json) : P v :=
  match v with
  | JNull => Hnull
  | JBool b => Hbool b
  | JNum n => Hnum n
  | JStr s => Hstr s
  | JArr l => Harr l ((fix go l : Forall P l := match l with [] => List.Forall_nil _ | x :: l' => @List.Forall_cons _ P x l' (json_induct x) (go l') end) l)
  | JObj fs => Hobj fs ((fix go l : Forall (λ kv, P kv.2) l := match l with [] => List.Forall_nil _ | x :: l' => @List.Forall_cons _ (λ kv, P kv.2) x l' (json_induct x.2) (go l') end) fs)
  | JFloat f => Hfloat f
  end.
End json_induction.

(** Every object of the value has distinct keys, as a JavaScript object has, and every number
    is an integer of at most 2^53, which is written with all its digits. *)
Inductive json_wf : json → Prop :=
  | wf_null : json_wf JNull
  | wf_bool b : json_wf (JBool b)
  | wf_num n : Z.abs n ≤ exact_bound → json_wf (JNum n)
  | wf_str s : json_wf (JStr s)
  | wf_arr l : Forall json_wf l → json_wf (JArr l)
  | wf_obj fs : NoDup fs.*1 → Forall (λ kv, json_wf kv.2) fs → json_wf (JObj fs).

(** What may follow a value: nothing that would continue a number. *)
Definition stops (s : string) : Prop :=
  match s with
  | EmptyString => True
  | String c _ => char_digit c = None ∧ c ∉ ["."; "e"; "E"]%char
  end.

Lemma char_induct (Q : ascii → Prop) : (∀ n, (n < 256)%N → Q (ascii_of_N n)) → ∀ c, Q c.
Proof. intros H c. rewrite <- (ascii_N_embedding c). apply H, N_ascii_bounded. Qed.

Lemma parse_chars_escape c r : parse_chars (json_escape c +:+ r) = prepend (String c EmptyString) (parse_chars r).
Proof. destruct c as [[] [] [] [] [] [] [] []]; reflexivity. Qed.

Lemma parse_chars_quoted s r : parse_chars (json_chars s +:+ String dquote r) = Some (s, r).
Proof.
  induction s as [|c s IH]; [done|]. cbn [json_chars]. rewrite str_app_assoc, parse_chars_escape, IH. done.
Qed.

Lemma pretty_go_app x s r : pretty_N_go x s +:+ r = pretty_N_go x (s +:+ r).
Proof.
  revert s. induction (N.lt_wf_0 x) as [x _ IH]; intros s.
  assert (x = 0 ∨ 0 < x)%N as [->|Hx] by lia; [by rewrite !pretty_N_go_0|].
  rewrite !(pretty_N_go_step x) by done. rewrite IH by (by apply N.div_lt). done.
Qed.

Lemma digit_of_pretty n : (n < 10)%N → char_digit (pretty_N_char n) = Some (Z.of_N n).
Proof. intros Hn. destruct n as [|[[[[]|[]|]|[[]|[]|]|]|[[[]|[]|]|[[]|[]|]|]|]]; try done; lia. Qed.

Lemma eat_pretty x : ∀ s n, ∃ k, ((0 < x)%N → (1 ≤ k)%nat) ∧
  eat_digits 0 n (pretty_N_go x s) = eat_digits (Z.of_N x) (n + k) s.
Proof.
  induction (N.lt_wf_0 x) as [x _ IH]; intros s n.
  assert (x = 0 ∨ 0 < x)%N as [->|Hx] by lia.
  { exists 0%nat. split; [lia|]. by rewrite pretty_N_go_0, Nat.add_0_r. }
  rewrite pretty_N_go_step by done.
  destruct (IH (x / 10)%N (N.div_lt x 10 Hx eq_refl) (String (pretty_N_char (x mod 10)) s) n) as (k & _ & ->).
  exists (S k). split; [lia|]. cbn [eat_digits]. rewrite digit_of_pretty by (by apply N.mod_lt).
  rewrite Nat.add_succ_r. f_equal. pose proof (N.div_mod x 10). lia.
Qed.

Lemma pretty_head x : ∀ s, (0 < x)%N → ∃ c t, pretty_N_go x s = String c t ∧ c ≠ "0"%char ∧ is_Some (char_digit c).
Proof.
  induction (N.lt_wf_0 x) as [x _ IH]; intros s Hx. rewrite pretty_N_go_step by done.
  assert (x < 10 ∨ 10 ≤ x)%N as [Hs|Hl] by lia.
  - rewrite N.div_small, N.mod_small, pretty_N_go_0 by done. eexists _, _. split; [done|].
    rewrite digit_of_pretty by done. split; [|by eexists].
    destruct x as [|[[[[]|[]|]|[[]|[]|]|]|[[[]|[]|]|[[]|[]|]|]|]]; try done; lia.
  - apply IH; [by apply N.div_lt|]. apply N.div_str_pos. lia.
Qed.

Lemma stops_eat acc n r : stops r → eat_digits acc n r = (acc, n, r).
Proof. destruct r as [|c r]; simpl; [done|]. by intros [-> _]. Qed.

Lemma unsigned_stops m n r s :
  eat_digits 0 0 s = (m, n, r) → stops r → (1 ≤ n)%nat → char_is "0" s && (1 <? n)%nat = false →
  parse_unsigned s = Some (of_decimal m 0, r).
Proof.
  intros He Hr Hn H0. unfold parse_unsigned. rewrite He, H0, orb_false_r.
  assert ((n =? 0)%nat = false) as -> by (apply Nat.eqb_neq; lia).
  destruct r as [|c r]; [done|].
  destruct Hr as [_ Hc]. rewrite !not_elem_of_cons in Hc. destruct Hc as (H1 & H2 & H3 & _).
  destruct c as [[] [] [] [] [] [] [] []]; try reflexivity; done.
Qed.

Lemma parse_pretty_N x r : stops r → parse_unsigned (pretty x +:+ r) = Some (of_decimal (Z.of_N x) 0, r).
Proof.
  intros Hr. unfold pretty, pretty_N. destruct (decide (x = 0)%N) as [->|Hx].
  - apply (unsigned_stops 0 1 r); [|done|lia|done]. change (eat_digits 0 1 r = (0, 1%nat, r)). by apply stops_eat.
  - rewrite pretty_go_app. change (EmptyString +:+ r) with r. destruct (eat_pretty x r 0) as (k & Hk & He). specialize (Hk ltac:(lia)).
    destruct (pretty_head x r ltac:(lia)) as (c & t & Ec & Hc & _).
    apply (unsigned_stops _ k); [by rewrite He, stops_eat|done|done|].
    rewrite Ec. cbn. by rewrite bool_decide_false.
Qed.

Lemma parse_pretty n r : stops r → Z.abs n ≤ exact_bound → parse_number (pretty n +:+ r) = Some (Int n, r).
Proof.
  intros Hr Hn. destruct n as [|p|p].
  - exact (parse_pretty_N 0 r Hr).
  - pose proof (parse_pretty_N (Npos p) r Hr) as H. rewrite of_decimal_exact in H by exact Hn. unfold pretty, pretty_N in *. rewrite decide_False in H by done.
    destruct (pretty_head (Npos p) EmptyString eq_refl) as (c & t & Ec & _ & Hc).
    change (pretty_Z (Z.pos p)) with (pretty_N (Npos p)). unfold pretty_N. rewrite decide_False by done.
    rewrite Ec in *. unfold parse_number. rewrite append_cons in *.
    destruct c as [[] [] [] [] [] [] [] []]; try exact H; by destruct Hc.
  - change (pretty (Z.neg p)) with (String "-" (pretty (Npos p))). rewrite append_cons.
    cbn [parse_number]. rewrite parse_pretty_N, of_decimal_exact by done. done.
Qed.

Lemma digit_not c : is_Some (char_digit c) ∨ c = "-"%char →
  is_ws c = false ∧ c ∉ [dquote; "["; "]"; "{"; "}"; "n"; "t"; "f"]%char.
Proof.
  intros Hc. destruct c as [[] [] [] [] [] [] [] []]; try (split; [reflexivity|by vm_compute; intros H; set_solver]).
  all: exfalso; destruct Hc as [[x Hx]|Hx]; by vm_compute in Hx.
Qed.

Lemma number_head (n : Z) r : ∃ c t, pretty n +:+ r = String c t ∧ (is_Some (char_digit c) ∨ c = "-"%char).
Proof.
  destruct n as [|p|p].
  - eexists _, _. split; [reflexivity|]. left. by eexists.
  - change (pretty (Z.pos p)) with (pretty_N (Npos p)). unfold pretty_N. rewrite decide_False by done.
    destruct (pretty_head (Npos p) EmptyString eq_refl) as (c & t & -> & _ & Hc). exists c, (t +:+ r). eauto.
  - eexists _, _. split; [reflexivity|]. by right.
Qed.

Lemma skip_ws_head c t : is_ws c = false → skip_ws (String c t) = String c t.
Proof. cbn. by intros ->. Qed.

(** The first character of a written value. *)
Lemma value_head v : json_wf v → ∃ c t, stringify v = String c t ∧ is_ws c = false ∧ c ≠ "]"%char.
Proof.
  destruct v as [|[]|n|s|l|fs|f]; intros Hw; try by (eexists _, _; split_and!; [reflexivity|reflexivity|done]).
  2: by inversion Hw.
  inversion Hw as [| |? Hn| | |]; subst. cbn [stringify]. rewrite int_text_exact by done.
  destruct (number_head n EmptyString) as (c & t & E & Hc). rewrite str_app_nil_r in E. exists c, t.
  destruct (digit_not c Hc) as [? Hnot]. split_and!; [done|done|set_solver].
Qed.

Lemma skip_ws_value v r : json_wf v → skip_ws (stringify v +:+ r) = stringify v +:+ r.
Proof. intros Hw. destruct (value_head v Hw) as (c & t & -> & Hc & _). rewrite append_cons. by apply skip_ws_head. Qed.

Definition entry_text (kv : string * json) : string := json_quote kv.1 +:+ ":" +:+ stringify kv.2.

(** A value is read back whatever follows it. *)
Definition reads (v : json) : Prop :=
  json_wf v → ∀ fuel rest, stops rest → (2 * String.length (stringify v) ≤ fuel)%nat →
    parse_value fuel (stringify v +:+ rest) = Some (v, rest).

Lemma comma_app x : "," +:+ x = String "," x.
Proof. done. Qed.

Lemma stops_comma r : stops (String "," r).
Proof. split; [done|]. vm_compute. set_solver. Qed.
Lemma stops_bracket r : stops (String "]" r).
Proof. split; [done|]. vm_compute. set_solver. Qed.
Lemma stops_brace r : stops (String "}" r).
Proof. split; [done|]. vm_compute. set_solver. Qed.

(** The side conditions of the readers. *)
Ltac reader := first [exact (stops_comma _)|exact (stops_bracket _)|exact (stops_brace _)|lia|done].

Lemma parse_number_value n : reads (JNum n).
Proof.
  intros Hwf fuel rest Hr Hf. destruct (value_head (JNum n) Hwf) as (c0 & t0 & E0 & _). rewrite E0 in Hf.
  inversion Hwf as [| |? Hn| | |]; subst. clear Hwf. destruct fuel as [|fuel]; [simpl in Hf; lia|].
  cbn [stringify parse_value]. rewrite int_text_exact by done.
  pose proof (parse_pretty n rest Hr Hn) as Hp. destruct (number_head n rest) as (c & t & E & Hc). rewrite E in *.
  apply digit_not in Hc as [Hw Hc]. rewrite skip_ws_head by done. rewrite !not_elem_of_cons in Hc.
  destruct Hc as (H1 & H2 & H3 & H4 & H5 & H6 & H7 & H8 & _). cbn [strip_text].
  rewrite !bool_decide_false by congruence. by rewrite Hp.
Qed.

Lemma parse_elements_join l :
  Forall reads l → Forall json_wf l → l ≠ [] → ∀ fuel rest,
  (2 * String.length (join "," (map stringify l)) + 1 ≤ fuel)%nat →
  parse_elements fuel (join "," (map stringify l) +:+ String "]" rest) = Some (l, rest).
Proof.
  induction 1 as [|v l Hv Hl IH]; [done|]. intros [Hwf Hwfs]%Forall_cons _ fuel rest Hf.
  destruct fuel as [|fuel]; [lia|]. destruct l as [|w l].
  - cbn [map join] in *. cbn [parse_elements]. rewrite Hv by reader. done.
  - cbn [map] in *. change (join "," (stringify v :: stringify w :: map stringify l)) with
      (stringify v +:+ "," +:+ join "," (stringify w :: map stringify l)) in *.
    rewrite !str_app_length in Hf. cbn [String.length] in Hf. rewrite !str_app_assoc. cbn [parse_elements].
    rewrite Hv by reader. cbn -[join map stringify parse_elements String.append skip_ws].
    rewrite comma_app, skip_ws_head by done. by rewrite IH by reader.
Qed.

Lemma parse_members_join fs :
  Forall (λ kv, reads kv.2) fs → Forall (λ kv, json_wf kv.2) fs → fs ≠ [] → ∀ fuel rest,
  (2 * String.length (join "," (map entry_text fs)) + 1 ≤ fuel)%nat →
  parse_members fuel (join "," (map entry_text fs) +:+ String "}" rest) = Some (fs, rest).
Proof.
  induction 1 as [|[k v] fs Hv Hl IH]; [done|]. intros [Hwf Hwfs]%Forall_cons _ fuel rest Hf. cbn [snd] in *.
  destruct fuel as [|fuel]; [lia|].
  assert (Hent : ∀ tail, (2 * String.length (stringify v) ≤ fuel)%nat → stops tail →
    parse_members (S fuel) (entry_text (k, v) +:+ tail) =
      match skip_ws tail with
      | String ","%char r' => '(l, r'') ← parse_members fuel r'; Some ((k, v) :: l, r'')
      | String "}"%char r' => Some ([(k, v)], r')
      | _ => None
      end).
  { intros tail Hlen Htail. unfold entry_text, json_quote. cbn [fst snd]. rewrite str_app_assoc, append_cons, !str_app_assoc.
    cbn [parse_members]. rewrite skip_ws_head by done. rewrite bool_decide_true by done.
    rewrite append_cons, parse_chars_quoted.
    cbn -[stringify parse_value parse_members String.append skip_ws].
    change (EmptyString +:+ ":" +:+ ?x) with (String ":" x). rewrite skip_ws_head by done. by rewrite Hv by reader. }
  destruct fs as [|w fs].
  - cbn [map join] in *. unfold entry_text, json_quote in Hf. cbn [fst snd String.length] in Hf.
    rewrite !str_app_length in Hf. by rewrite Hent by reader.
  - cbn [map] in *. change (join "," (entry_text (k, v) :: entry_text w :: map entry_text fs)) with
      (entry_text (k, v) +:+ "," +:+ join "," (entry_text w :: map entry_text fs)) in *.
    rewrite !str_app_length in Hf. unfold entry_text at 1, json_quote at 1 in Hf.
    cbn [fst snd String.length] in Hf. rewrite !str_app_length in Hf. rewrite !str_app_assoc.
    rewrite Hent by reader. rewrite comma_app, skip_ws_head by done. by rewrite IH by reader.
Qed.

Lemma object_of_fresh (fs m : list (string * json)) : NoDup (m ++ fs).*1 → fold_left (λ m kv, map_set m kv.1 kv.2) fs m = m ++ fs.
Proof.
  revert m. induction fs as [|[k v] fs IH]; intros m Hn; cbn [fold_left fst snd]; [by rewrite app_nil_r|].
  assert (map_set m k v = m ++ [(k, v)]) as ->.
  { rewrite fmap_app in Hn. apply NoDup_app in Hn as (_ & Hn & _). clear IH.
    induction m as [|[k' v'] m IHm]; [done|]. simpl. rewrite bool_decide_false.
    - rewrite IHm; [done|]. intros x Hx. apply Hn. by right.
    - intros ->. apply (Hn k'); [left|left]. }
  rewrite IH; rewrite <- app_assoc; done.
Qed.

Lemma parse_stringify v : reads v.
Proof.
  induction v as [|b|n|s|l IH|fs IH|f] using json_induct.
  - intros _ [|fuel] rest Hr Hf; [simpl in Hf; lia|done].
  - intros _ [|fuel] rest Hr Hf; [destruct b; simpl in Hf; lia|by destruct b].
  - apply parse_number_value.
  - intros _ [|fuel] rest Hr Hf; [simpl in Hf; lia|]. cbn [stringify]. unfold json_quote. rewrite append_cons, str_app_assoc.
    cbn [parse_value]. rewrite skip_ws_head by done. rewrite bool_decide_true by done.
    rewrite append_cons. by rewrite parse_chars_quoted.
  - intros Hwf fuel rest Hr Hf. inversion Hwf as [| | | |l' Hl|]; subst. cbn [stringify] in *.
    rewrite !str_app_length in Hf. cbn [String.length] in Hf. destruct fuel as [|fuel]; [lia|].
    rewrite !str_app_assoc. change ("]" +:+ rest) with (String "]" rest). rewrite !append_cons.
    change (EmptyString +:+ ?x) with x. destruct l as [|v l]; [done|].
    cbn [parse_value]. rewrite skip_ws_head by done. rewrite (bool_decide_false ("["%char = dquote)) by (by vm_compute). rewrite bool_decide_true by done.
    assert (char_is "]" (skip_ws (join "," (map stringify (v :: l)) +:+ String "]" rest)) = false) as ->.
    { apply Forall_cons in Hl as [Hv _]. destruct (value_head v Hv) as (c & t & E & Hw & Hc). cbn [map]. destruct (map stringify l); cbn [join];
        rewrite E, ?append_cons, skip_ws_head by done; cbn; by rewrite bool_decide_false. }
    by rewrite parse_elements_join by reader.
  - intros Hwf fuel rest Hr Hf. inversion Hwf as [| | | | |fs' Hn Hl]; subst. cbn [stringify] in *.
    fold entry_text in *. change (λ kv : string * json, json_quote kv.1 +:+ ":" +:+ stringify kv.2) with entry_text in *.
    rewrite !str_app_length in Hf. cbn [String.length] in Hf. destruct fuel as [|fuel]; [lia|].
    rewrite !str_app_assoc. change ("}" +:+ rest) with (String "}" rest). rewrite !append_cons.
    change (EmptyString +:+ ?x) with x. destruct fs as [|[k v] fs]; [done|].
    cbn [parse_value]. rewrite skip_ws_head by done. rewrite !bool_decide_false by (by vm_compute). rewrite bool_decide_true by done.
    assert (char_is "}" (skip_ws (join "," (map entry_text ((k, v) :: fs)) +:+ String "}" rest)) = false) as ->.
    { cbn [map]. destruct (map entry_text fs); done. }
    rewrite parse_members_join by reader. cbn. unfold object_of. by rewrite object_of_fresh.
  - intros Hwf. inversion Hwf.
Qed.

Lemma JSON_parse_stringify v : json_wf v → JSON_parse (stringify v) = Ok v.
Proof.
  intros Hwf. unfold JSON_parse. pose proof (parse_stringify v Hwf (2 * String.length (stringify v) + 2)%nat EmptyString I) as H.
  rewrite str_app_nil_r in H. rewrite H by lia. done.
Qed.

(** ** Schemas as readers *)

Definition fields := list (string * json).

(** [z.strictObject({ keys })]: the fields, none of them unknown. *)
Definition z_strict (keys : list string) (v : json) : result fields :=
  match v with
  | JObj fs => ensure (forallb (λ kv, bool_decide (kv.1 ∈ keys)) fs) (zod_error "unrecognized_keys");; Ok fs
  | _ => Throw (zod_error "invalid_type")
  end.

(** A required field. *)
Definition z_field {A} (fs : fields) (k : string) (schema : json → result A) : result A :=
  match map_get fs k with Some v => schema v | None => Throw (zod_error k) end.

Definition z_string (ok : string → bool) (v : json) : result string :=
  match v with JStr s => ensure (ok s) (zod_error "invalid_string");; Ok s | _ => Throw (zod_error "invalid_type") end.

(** [z.string().min(lo).max(hi)] *)
Definition z_text (lo hi : Z) : json → result string :=
  z_string (λ s, (lo <=? js_length s) && (js_length s <=? hi)).

(** [z.string().trim().min(lo).max(hi)] *)
Definition z_trimmed (lo hi : Z) (v : json) : result string :=
  match v with JStr s => z_text lo hi (JStr (js_trim s)) | _ => Throw (zod_error "invalid_type") end.

Definition z_boolean (v : json) : result bool :=
  match v with JBool b => Ok b | _ => Throw (zod_error "invalid_type") end.

(** [z.number().int().min(lo).max(hi)]; without a maximum the bound is that of a safe integer. *)
Definition max_safe : Z := 9007199254740991.
Definition z_int (lo hi : Z) (v : json) : result Z :=
  match v with
  | JNum n => ensure ((lo <=? n) && (n <=? hi)) (zod_error "invalid_number");; Ok n
  | _ => Throw (zod_error "invalid_type")
  end.

(** [z.number()]: any finite number. *)
Definition number_of (v : json) : result number :=
  match v with
  | JNum n => Ok (Int n)
  | JFloat f => ensure (finite (Float f)) (zod_error "invalid_type");; Ok (Float f)
  | _ => Throw (zod_error "invalid_type")
  end.

(** [z.number().nonnegative()] *)
Definition z_nonnegative (v : json) : result number :=
  x ← number_of v; ensure (nonnegative x) (zod_error "too_small");; Ok x.

Definition z_nullable {A} (schema : json → result A) (v : json) : result (option A) :=
  match v with JNull => Ok None | _ => x ← schema v; Ok (Some x) end.

Fixpoint map_all {A B} (f : A → result B) (l : list A) : result (list B) :=
  match l with
  | [] => Ok []
  | x :: l' => y ← f x; ys ← map_all f l'; Ok (y :: ys)
  end.

Definition z_array {A} (lo hi : Z) (schema : json → result A) (v : json) : result (list A) :=
  match v with
  | JArr l => xs ← map_all schema l;
      ensure ((lo <=? Z.of_nat (length xs)) && (Z.of_nat (length xs) <=? hi)) (zod_error "array_size");; Ok xs
  | _ => Throw (zod_error "invalid_type")
  end.

(** [z.enum(names)] *)
Definition z_enum {A} (names : list (string * A)) (v : json) : result A :=
  match v with
  | JStr s => match map_get names s with Some x => Ok x | None => Throw (zod_error "invalid_value") end
  | _ => Throw (zod_error "invalid_type")
  end.

(** The name of an enum's value. *)
Definition enum_name {A} `{EqDecision A} (names : list (string * A)) (x : A) : string :=
  from_option fst EmptyString (List.find (λ kv, kv.2 === x) names).

(** [z.literal(n)] of a number, and [z.literal(word)] of a string. *)
Definition z_number (n : Z) : json → result Z := z_int n n.
Definition z_literal (word : string) : json → result string := z_string (λ s, s === word).

(** An optional field: absent, or read by the schema. *)
Definition z_optional {A} (fs : fields) (k : string) (schema : json → result A) : result (option A) :=
  match map_get fs k with Some v => x ← schema v; Ok (Some x) | None => Ok None end.

(** [/^[0-9a-f]{lo,hi}$/] *)
Definition hex_text (lo hi : Z) (s : string) : bool :=
  let n := Z.of_nat (String.length s) in
  (lo <=? n) && (n <=? hi) && forallb Sha256.is_hex (String.list_ascii_of_string s).

Definition Sha40_ok : string → bool := hex_text 40 40.
Definition Sha256_ok : string → bool := hex_text 64 64.

Definition opt_json {A} (f : A → json) (o : option A) : json := match o with Some x => f x | None => JNull end.

Definition is_alpha (c : ascii) : bool :=
  let n := N_of_ascii c in ((65 <=? n) && (n <=? 90) || (97 <=? n) && (n <=? 122))%N.
Definition is_num (c : ascii) : bool := let n := N_of_ascii c in ((48 <=? n) && (n <=? 57))%N.

(** [/^[A-Za-z0-9<others>]{1,max}$/] *)
Definition token_ok (others : list ascii) (max : Z) (s : string) : bool :=
  let cs := String.list_ascii_of_string s in
  (1 <=? Z.of_nat (length cs)) && (Z.of_nat (length cs) <=? max) &&
  forallb (λ c, is_alpha c || is_num c || bool_decide (c ∈ others)) cs.

(** [s.slice(0, n)] in UTF-16 code units; half of a cut pair is U+FFFD. *)
Fixpoint take16 (n : Z) (cps : list (list Z)) : list (list Z) :=
  match cps with
  | [] => []
  | cp :: rest =>
      let w := match cp with b :: _ => if 240 <=? b then 2 else 1 | [] => 0 end in
      if w <=? n then cp :: take16 (n - w) rest else if n =? 1 then [[239; 191; 189]] else []
  end.
Definition slice16 (n : Z) (s : string) : string :=
  bytes_string (concat (take16 n (code_points (Sha256.string_bytes s)))).

(** [s.split(sep)] *)
Fixpoint split_from (sep : ascii) (acc : list ascii) (s : list ascii) : list string :=
  match s with
  | [] => [String.string_of_list_ascii (rev acc)]
  | c :: s' => if c === sep then String.string_of_list_ascii (rev acc) :: split_from sep [] s'
               else split_from sep (c :: acc) s'
  end.
Definition split (sep : ascii) (s : string) : list string := split_from sep [] (String.list_ascii_of_string s).

(** *** Schemas read back what they have read *)

Definition rereads {A} (schema : json → result A) (enc : A → json) : Prop :=
  ∀ v x, schema v = Ok x → schema (enc x) = Ok x.

Lemma z_field_ok {A} fs k (schema : json → result A) x : z_field fs k schema = Ok x → ∃ v, schema v = Ok x.
Proof. unfold z_field. destruct (map_get fs k); [eauto|done]. Qed.

Lemma rereads_string ok : rereads (z_string ok) JStr.
Proof. intros [| | |s| | |] x; try done. cbn. intros H. apply ensure_ok in H as [Hok <-%Ok_inj]. by rewrite Hok. Qed.

Lemma rereads_boolean : rereads z_boolean JBool.
Proof. intros [] x; try done. Qed.

Lemma rereads_int lo hi : rereads (z_int lo hi) JNum.
Proof. intros [| |n| | | |] x; try done. cbn. intros H. apply ensure_ok in H as [Hok <-%Ok_inj]. by rewrite Hok. Qed.

Lemma number_of_finite v x : number_of v = Ok x → finite x.
Proof.
  destruct v as [| |n| | | |f]; try done; unfold number_of; [by intros <-%Ok_inj|].
  intros [Hf <-%Ok_inj]%ensure_ok. by rewrite Hf.
Qed.

Lemma number_of_json x : finite x → number_of (json_of_number x) = Ok x.
Proof. destruct x as [n|[m k|b]]; done. Qed.

Lemma rereads_nonnegative : rereads z_nonnegative json_of_number.
Proof.
  intros v x. unfold z_nonnegative. intros (y & Hy & [Hn <-%Ok_inj]%ensure_ok)%bind_ok.
  rewrite (number_of_json _ (number_of_finite _ _ Hy)). cbn [mbind result_bind]. by rewrite Hn.
Qed.

Lemma rereads_nullable {A} (schema : json → result A) enc :
  rereads schema enc → (∀ x, enc x ≠ JNull) → rereads (z_nullable schema) (opt_json enc).
Proof.
  intros Hs Hn v o H. assert (Ho : o = None ∨ ∃ x, o = Some x ∧ schema v = Ok x).
  { destruct v; cbn in H; try (apply bind_ok in H as (x & Hx & <-%Ok_inj); right; by exists x).
    apply Ok_inj in H as <-. by left. }
  destruct Ho as [->|(x & -> & Hx)]; [done|]. apply Hs in Hx. cbn. specialize (Hn x).
  unfold z_nullable. destruct (enc x); try done; by rewrite Hx.
Qed.

Lemma rereads_nullable_number schema :
  rereads schema json_of_number → rereads (z_nullable schema) (opt_json json_of_number).
Proof. intros H. apply rereads_nullable; [exact H|]. by intros []. Qed.

Lemma rereads_array {A} lo hi (schema : json → result A) enc :
  rereads schema enc → rereads (z_array lo hi schema) (λ l, JArr (map enc l)).
Proof.
  intros Hs [| | | |l| |] xs; try done. cbn. intros (ys & Hys & H)%bind_ok. apply ensure_ok in H as [Hok <-%Ok_inj].
  assert (map_all schema (map enc ys) = Ok ys) as ->.
  { clear Hok. revert ys Hys. induction l as [|v l IH]; intros ys; cbn; [by intros <-%Ok_inj|].
    intros (y & Hy & (ys' & Hys & <-%Ok_inj)%bind_ok)%bind_ok. cbn. by rewrite (Hs _ _ Hy), (IH _ Hys). }
  cbn. by rewrite Hok.
Qed.

Lemma rereads_text lo hi : rereads (z_text lo hi) JStr.
Proof. apply rereads_string. Qed.

Lemma z_field_at {A} fs k (schema : json → result A) v x :
  schema v = Ok x → map_get fs k = Some v → z_field fs k schema = Ok x.
Proof. unfold z_field. by intros ? ->. Qed.

Lemma rereads_literal word : rereads (z_literal word) JStr.
Proof. apply rereads_string. Qed.

Lemma rereads_number n : rereads (z_number n) JNum.
Proof. apply rereads_int. Qed.

Lemma z_literal_ok word v x : z_literal word v = Ok x → x = word.
Proof. destruct v; try done. cbn. intros H. apply ensure_ok in H as [Hw <-%Ok_inj]. by to_prop. Qed.

Lemma z_number_ok n v x : z_number n v = Ok x → x = n.
Proof. destruct v; try done. cbn. intros H. apply ensure_ok in H as [Hw <-%Ok_inj]. to_prop. lia. Qed.

(** An enum whose words name their values. *)
Lemma rereads_enum {A} `{EqDecision A} (names : list (string * A)) :
  forallb (λ kv, map_get names (enum_name names kv.2) === Some kv.2) names = true →
  rereads (z_enum names) (λ x, JStr (enum_name names x)).
Proof.
  intros Hn [| | |s| | |] x; try done. cbn. destruct (map_get names s) as [y|] eqn:E; [|done]. intros <-%Ok_inj.
  apply map_get_elem in E. rewrite forallb_forall in Hn.
  specialize (Hn (s, y)). rewrite <- list_elem_of_In in Hn. specialize (Hn E). to_prop. simpl in Hn. by rewrite Hn.
Qed.

Lemma z_optional_ok {A} fs k (schema : json → result A) o x :
  z_optional fs k schema = Ok o → o = Some x → ∃ v, schema v = Ok x.
Proof.
  unfold z_optional. destruct (map_get fs k) as [v|]; [|by intros <-%Ok_inj].
  intros (y & Hy & <-%Ok_inj)%bind_ok [= ->]. eauto.
Qed.

(** An object of the schema's own keys passes the strict test. *)
Ltac read_strict :=
  cbn [z_strict forallb fst]; rewrite !bool_decide_true by (by repeat (left || right)); cbn [mbind result_bind ensure andb].

Create HintDb rereads discriminated.
#[export] Hint Resolve rereads_string rereads_text rereads_boolean rereads_int rereads_nonnegative rereads_nullable rereads_nullable_number rereads_array rereads_literal rereads_number : rereads.
#[export] Hint Extern 1 (rereads (z_enum _) _) => (apply rereads_enum; vm_compute; reflexivity) : rereads.
#[export] Hint Extern 1 (∀ x, _ ≠ JNull) => (intros ?; discriminate) : rereads.

(** Invert the reading of an object, field by field. *)
Ltac reread_fields H :=
  repeat (let F := fresh "F" in apply bind_ok in H as (? & F & H); apply z_field_ok in F as [? F];
    match type of F with ?s _ = Ok _ =>
      let R := fresh "R" in eassert (rereads s _) as R by (eauto with rereads); apply R in F; clear R
    end);
  apply Ok_inj in H as <-.

(** Read the fields of an encoded object again. *)
Ltac read_fields :=
  repeat match goal with |- (z_field _ ?k ?s ≫= _) = _ =>
    match goal with F : s _ = Ok _ |- _ =>
      rewrite (z_field_at _ k s _ _ F) by reflexivity; cbn [mbind result_bind]
    end
  end.

(** A literal that was read is the literal. *)
Ltac settle_literals :=
  repeat match goal with
  | F : z_literal ?w (JStr ?x) = Ok ?x |- _ => is_var x; apply z_literal_ok in F as E; subst x
  | F : z_number ?n (JNum ?x) = Ok ?x |- _ => is_var x; apply z_number_ok in F as E; subst x
  end.

(** The schema of an object reads back what it has read. *)
Ltac reread_object parse enc :=
  let H := fresh in intros v x; unfold parse at 1; intros (fs & _ & H)%bind_ok; reread_fields H; settle_literals;
  unfold parse, enc; read_strict; by read_fields.
