(* ===== verification/Mission.v ===== *)
(** * The repository-analysis mission (packages/contracts/src/mission.ts,
    services/kernel/src/mission/reconcile.ts, evidence.ts and verify.ts)

    The objective grammar, the wire contracts of the two model runtimes, the kernel's own
    judgement of an analysis ([reconcileMission], thirteen named checks) and the ledger's
    backstop ([verifyMissionCompletion]), which repeats that judgement from the persisted
    evidence.  [toLowerCase] on arbitrary text is a parameter.  The theorems: what an
    accepted reconciliation establishes about the analysis, that a completion the backstop
    lets through has such a reconciliation behind it, and that runtime text is read back
    as the JSON that was written, bare or in one fence. *)

From S2P Require Import Prelude JsNumber JsDate Digest Contracts Plan Capability Json.
Local Open Scope Z_scope.
Local Open Scope js_scope.

(** ** mission.ts *)

Definition MISSION_RUNTIME_FAMILIES : list string := ["anthropic"; "x-ai"; "deepseek"].

(** [s.indexOf(c)]: the text before the first [c] and the text after it. *)
Fixpoint cut_at (c : ascii) (s : string) : option (string * string) :=
  match s with
  | EmptyString => None
  | String x s' =>
      if bool_decide (x = c) then Some (EmptyString, s')
      else match cut_at c s' with Some (a, b) => Some (String x a, b) | None => None end
  end.

(** [s.slice(s.lastIndexOf(c) + 1)] *)
Fixpoint after_last (c : ascii) (s : string) : string :=
  match s with
  | EmptyString => EmptyString
  | String x s' =>
      match cut_at c s' with
      | Some _ => after_last c s'
      | None => if bool_decide (x = c) then s' else s
      end
  end.

(** Letters, digits and the characters of [others]. *)
Definition chars_ok (others : list ascii) (s : string) : bool :=
  forallb (λ c, is_alpha c || is_num c || bool_decide (c ∈ others)) (String.list_ascii_of_string s).

Definition RepoSlug_ok (s : string) : bool :=
  match cut_at "/" s with
  | Some (String c owner, name) =>
      (is_alpha c || is_num c) && chars_ok ["-"%char] owner && (String.length owner <=? 38)%nat &&
      token_ok ["."; "_"; "-"]%char 100 name && (name !== ".") && (name !== "..")
  | _ => false
  end.

Definition DEFAULT_MISSION_QUESTION : string :=
  "Summarise the architecture, the main components, the biggest risks and the most important gaps.".
Definition MISSION_OUTPUT_SCHEMA : string := "repo-analysis-findings/v2".
Definition MISSION_DEFAULT_MAX_FINDINGS : Z := 8.
Definition MISSION_HARD_MAX_FINDINGS : Z := 12.

(** The [outputSchema] field is the literal. *)
Record MissionContract := { requestedFindings : option Z; minFindings : Z; maxFindings : Z }.

#[export] Instance MissionContract_eq_dec : EqDecision MissionContract.
Proof. solve_decision. Defined.

Definition in_findings (n : Z) : bool := (1 <=? n) && (n <=? MISSION_HARD_MAX_FINDINGS).

Definition MissionContract_ok (c : MissionContract) : bool :=
  opt_ok in_findings (requestedFindings c) && in_findings (minFindings c) && in_findings (maxFindings c) &&
  (minFindings c <=? maxFindings c) &&
  opt_ok (λ r, (minFindings c =? r) && (maxFindings c =? r)) (requestedFindings c).

Definition MissionContract_parse (c : MissionContract) : result MissionContract :=
  ok_or (MissionContract_ok c) "MissionContract";; Ok c.

(** The token pattern on a trimmed text: its first token and, trimmed, the rest; no match
    on the empty text. *)
Fixpoint first_token (bs : list Z) : list Z * list Z :=
  match bs with
  | [] => ([], [])
  | b :: bs' =>
      match first_some (λ p, strip_prefix p bs) js_spaces with
      | Some _ => ([], bs)
      | None => let '(t, r) := first_token bs' in (b :: t, r)
      end
  end.

Definition split_token (text : string) : option (string * string) :=
  match first_token (Sha256.string_bytes text) with
  | ([], _) => None
  | (t, r) => Some (bytes_string t, js_trim (bytes_string r))
  end.

(** ASCII case folding: [/i] on the letters of a pattern. *)
Fixpoint ascii_lower (s : string) : string :=
  match s with
  | EmptyString => EmptyString
  | String c s' =>
      let n := N_of_ascii c in
      String (if (65 <=? n)%N && (n <=? 90)%N then ascii_of_N (n + 32) else c) (ascii_lower s')
  end.

(** [DIRECTIVE], ignoring case: whether the key is [findings], and the value. *)
Definition directive (token : string) : option (bool * string) :=
  match cut_at "=" token with
  | Some (key, value) =>
      if ascii_lower key === "findings" then Some (true, value)
      else if ascii_lower key === "max-findings" then Some (false, value) else None
  | None => None
  end.

(** [/^\d{1,2}$/.test(v) ? Number(v) : 0] *)
Definition count_of (v : string) : Z :=
  let '(n, k, r) := eat_digits 0 0 v in
  if (1 <=? k)%nat && (k <=? 2)%nat && (r === EmptyString) then n else 0.

(** The directive loop; each round drops a token, so the bytes of the text are enough fuel. *)
Fixpoint directives (fuel : nat) (rest : string) (exact atMost : option Z) : result (string * option Z * option Z) :=
  match fuel with
  | O => Throw (js_error "out of fuel")
  | S fuel' =>
      match split_token rest with
      | None => Ok (rest, exact, atMost)
      | Some (token, rest') =>
          match directive token with
          | None => Ok (rest, exact, atMost)
          | Some (isExact, v) =>
              let key := if isExact then "findings" else "max-findings" in
              let n := count_of v in
              ensure (in_findings n) (js_error ("Mission " +:+ key +:+ " must be a whole number from 1 to 12"));;
              ensure (match (if isExact then exact else atMost) with Some _ => false | None => true end)
                (js_error ("Mission " +:+ key +:+ " is set twice"));;
              if isExact then directives fuel' rest' (Some n) atMost
              else directives fuel' rest' exact (Some n)
          end
      end
  end.

Record MissionObjective := { mo_repo : string; mo_question : string; mo_contract : MissionContract }.

Definition parseMissionObjective (objective : string) : result MissionObjective :=
  match split_token (js_trim objective) with
  | None => Throw (js_error "Mission objective must start with owner/repo")
  | Some (repo, rest) =>
      ensure (RepoSlug_ok repo) (zod_error "RepoSlug");;
      '(rest, exact, atMost) ← directives (S (String.length rest)) rest None None;
      ensure (match exact, atMost with Some _, Some _ => false | _, _ => true end)
        (js_error "Mission findings= and max-findings= cannot both be set");;
      let question := if rest === EmptyString then DEFAULT_MISSION_QUESTION else rest in
      ensure (js_length question <=? 2000) (js_error "Mission question is too long");;
      contract ← MissionContract_parse
        {| requestedFindings := exact; minFindings := default 1 exact;
           maxFindings := match exact with Some n => n | None => default MISSION_DEFAULT_MAX_FINDINGS atMost end |};
      Ok {| mo_repo := repo; mo_question := question; mo_contract := contract |}
  end.

Record TreeEntry := { ge_path : string; ge_isBlob : bool; ge_sha : string }.
Record Readme := { rm_path : string; rm_sha256 : string; rm_excerpt : string }.

Record GithubFacts := {
  gf_repo : string; gf_private : bool; gf_defaultBranch : string; gf_headSha : string;
  gf_headCommitDate : string; gf_headCommitMessage : string; gf_language : option string; gf_sizeKb : Z;
  gf_pushedAt : option string; gf_openIssues : Z; gf_tree : list TreeEntry; gf_treeTruncated : bool;
  gf_readme : option Readme
}.

Definition TreeEntry_parse (v : json) : result TreeEntry :=
  fs ← z_strict ["path"; "type"; "sha"] v;
  path ← z_field fs "path" (z_text 1 300);
  type ← z_field fs "type" (z_enum [("blob", true); ("tree", false)]);
  sha ← z_field fs "sha" (z_string Sha40_ok);
  Ok {| ge_path := path; ge_isBlob := type; ge_sha := sha |}.

Definition Readme_parse (v : json) : result Readme :=
  fs ← z_strict ["path"; "sha256"; "excerpt"] v;
  path ← z_field fs "path" (z_text 1 300);
  sha ← z_field fs "sha256" (z_string Sha256_ok);
  excerpt ← z_field fs "excerpt" (z_text 0 6000);
  Ok {| rm_path := path; rm_sha256 := sha; rm_excerpt := excerpt |}.

Definition GithubFacts_parse (v : json) : result GithubFacts :=
  fs ← z_strict ["repo"; "private"; "defaultBranch"; "headSha"; "headCommitDate"; "headCommitMessage"; "language";
                 "sizeKb"; "pushedAt"; "openIssues"; "tree"; "treeTruncated"; "readme"] v;
  repo ← z_field fs "repo" (z_string RepoSlug_ok);
  private ← z_field fs "private" z_boolean;
  branch ← z_field fs "defaultBranch" (z_text 1 200);
  head ← z_field fs "headSha" (z_string Sha40_ok);
  date ← z_field fs "headCommitDate" (z_string Timestamp_ok);
  message ← z_field fs "headCommitMessage" (z_text 0 300);
  language ← z_field fs "language" (z_nullable (z_text 0 80));
  size ← z_field fs "sizeKb" (z_int 0 max_safe);
  pushed ← z_field fs "pushedAt" (z_nullable (z_string Timestamp_ok));
  issues ← z_field fs "openIssues" (z_int 0 max_safe);
  tree ← z_field fs "tree" (z_array 0 1000 TreeEntry_parse);
  truncated ← z_field fs "treeTruncated" z_boolean;
  readme ← z_field fs "readme" (z_nullable Readme_parse);
  Ok {| gf_repo := repo; gf_private := private; gf_defaultBranch := branch; gf_headSha := head;
        gf_headCommitDate := date; gf_headCommitMessage := message; gf_language := language; gf_sizeKb := size;
        gf_pushedAt := pushed; gf_openIssues := issues; gf_tree := tree; gf_treeTruncated := truncated;
        gf_readme := readme |}.

Definition tree_entry_json (e : TreeEntry) : json :=
  JObj [("path", JStr (ge_path e)); ("type", JStr (if ge_isBlob e then "blob" else "tree")); ("sha", JStr (ge_sha e))].

Definition readme_json (r : Readme) : json :=
  JObj [("path", JStr (rm_path r)); ("sha256", JStr (rm_sha256 r)); ("excerpt", JStr (rm_excerpt r))].

Definition facts_json (f : GithubFacts) : json :=
  JObj [("repo", JStr (gf_repo f)); ("private", JBool (gf_private f)); ("defaultBranch", JStr (gf_defaultBranch f));
        ("headSha", JStr (gf_headSha f)); ("headCommitDate", JStr (gf_headCommitDate f));
        ("headCommitMessage", JStr (gf_headCommitMessage f)); ("language", opt_json JStr (gf_language f));
        ("sizeKb", JNum (gf_sizeKb f)); ("pushedAt", opt_json JStr (gf_pushedAt f));
        ("openIssues", JNum (gf_openIssues f));
        ("tree", JArr (map tree_entry_json (gf_tree f)));
        ("treeTruncated", JBool (gf_treeTruncated f));
        ("readme", opt_json readme_json (gf_readme f))].

Record FindingEvidence := { fe_path : string; fe_blobSha : string }.

#[export] Instance FindingEvidence_eq_dec : EqDecision FindingEvidence.
Proof. solve_decision. Defined.

Record Finding := { fi_title : string; fi_detail : string; fi_evidence : list FindingEvidence }.
Record MissionAnalysis := { ma_headSha : string; ma_summary : string; ma_findings : list Finding }.

Definition FindingEvidence_parse (v : json) : result FindingEvidence :=
  fs ← z_strict ["path"; "blobSha"] v;
  path ← z_field fs "path" (z_text 1 300);
  sha ← z_field fs "blobSha" (z_string (hex_text 12 40));
  Ok {| fe_path := path; fe_blobSha := sha |}.

Definition Finding_parse (v : json) : result Finding :=
  fs ← z_strict ["title"; "detail"; "evidence"] v;
  title ← z_field fs "title" (z_trimmed 3 160);
  detail ← z_field fs "detail" (z_trimmed 10 1200);
  evidence ← z_field fs "evidence" (z_array 0 8 FindingEvidence_parse);
  Ok {| fi_title := title; fi_detail := detail; fi_evidence := evidence |}.

Definition MissionAnalysis_parse (v : json) : result MissionAnalysis :=
  fs ← z_strict ["headSha"; "summary"; "findings"] v;
  head ← z_field fs "headSha" (z_string Sha40_ok);
  summary ← z_field fs "summary" (z_trimmed 20 4000);
  findings ← z_field fs "findings" (z_array 1 MISSION_HARD_MAX_FINDINGS Finding_parse);
  Ok {| ma_headSha := head; ma_summary := summary; ma_findings := findings |}.

Inductive Verdict := V_approve | V_approve_with_notes | V_reject.

#[export] Instance Verdict_eq_dec : EqDecision Verdict.
Proof. solve_decision. Defined.

Record MissionReview := {
  mr_reviewed : string; mr_verdict : Verdict; mr_unsupported : list Z; mr_notes : list string
}.

Definition MissionReview_parse (v : json) : result MissionReview :=
  fs ← z_strict ["reviewedAnalysisSha256"; "verdict"; "unsupportedFindings"; "notes"] v;
  reviewed ← z_field fs "reviewedAnalysisSha256" (z_string Sha256_ok);
  verdict ← z_field fs "verdict" (z_enum [("approve", V_approve); ("approve_with_notes", V_approve_with_notes);
                                          ("reject", V_reject)]);
  unsupported ← z_field fs "unsupportedFindings" (z_array 0 12 (z_int 0 11));
  notes ← z_field fs "notes" (z_array 0 10 (z_trimmed 1 400));
  Ok {| mr_reviewed := reviewed; mr_verdict := verdict; mr_unsupported := unsupported; mr_notes := notes |}.

Definition RECONCILE_CHECKS : list string :=
  ["analysis_schema_valid"; "analysis_head_sha_matches_evidence"; "analysis_finding_count_within_contract";
   "analysis_findings_cited"; "analysis_paths_exist_in_evidence"; "analysis_evidence_binds_to_commit";
   "review_schema_valid"; "review_binds_to_analysis"; "analyst_runtime_allowed"; "reviewer_runtime_allowed";
   "reviewer_is_independent"; "review_verdict_acceptable"; "review_flags_no_unsupported_findings"].

Record Independence := {
  ind_analystProvider : string; ind_reviewerProvider : string; ind_analystFamily : string;
  ind_reviewerFamily : string; ind_crossProvider : bool; ind_crossFamily : bool
}.

(** [checks] is the list of (name, passed). *)
Record MissionReconciliation := {
  mc_accepted : bool; mc_checks : list (string * bool); mc_contract : MissionContract; mc_findingCount : Z;
  mc_findingEvidenceDigests : list string; mc_githubDigest : string; mc_analysisDigest : string;
  mc_reviewDigest : string; mc_analystModel : string; mc_reviewerModel : string; mc_independence : Independence
}.

Definition within (lo hi : Z) (s : string) : bool := (lo <=? js_length s) && (js_length s <=? hi).

Definition Independence_ok (i : Independence) : bool :=
  within 1 64 (ind_analystProvider i) && within 1 64 (ind_reviewerProvider i) &&
  within 0 64 (ind_analystFamily i) && within 0 64 (ind_reviewerFamily i).

(** The fields and the two refinements: the checks in order, the decision follows them. *)
Definition MissionReconciliation_ok (r : MissionReconciliation) : bool :=
  MissionContract_ok (mc_contract r) &&
  (0 <=? mc_findingCount r) && (mc_findingCount r <=? MISSION_HARD_MAX_FINDINGS) &&
  forallb Sha256_ok (mc_findingEvidenceDigests r) &&
  (Z.of_nat (length (mc_findingEvidenceDigests r)) <=? MISSION_HARD_MAX_FINDINGS) &&
  Sha256_ok (mc_githubDigest r) && Sha256_ok (mc_analysisDigest r) && Sha256_ok (mc_reviewDigest r) &&
  within 0 256 (mc_analystModel r) && within 0 256 (mc_reviewerModel r) && Independence_ok (mc_independence r) &&
  bool_decide ((mc_checks r).*1 = RECONCILE_CHECKS) &&
  Bool.eqb (mc_accepted r) (forallb snd (mc_checks r)).

(** [MissionReconciliation.parse] of a value built by the kernel. *)
Definition MissionReconciliation_check (r : MissionReconciliation) : result MissionReconciliation :=
  ensure (MissionReconciliation_ok r) (zod_error "MissionReconciliation");; Ok r.

Definition Independence_parse (v : json) : result Independence :=
  fs ← z_strict ["analystProvider"; "reviewerProvider"; "analystFamily"; "reviewerFamily"; "crossProvider"; "crossFamily"] v;
  ap ← z_field fs "analystProvider" (z_text 1 64);
  rp ← z_field fs "reviewerProvider" (z_text 1 64);
  af ← z_field fs "analystFamily" (z_text 0 64);
  rf ← z_field fs "reviewerFamily" (z_text 0 64);
  cp ← z_field fs "crossProvider" z_boolean;
  cf ← z_field fs "crossFamily" z_boolean;
  Ok {| ind_analystProvider := ap; ind_reviewerProvider := rp; ind_analystFamily := af; ind_reviewerFamily := rf;
        ind_crossProvider := cp; ind_crossFamily := cf |}.

Definition check_parse (names : list string) (v : json) : result (string * bool) :=
  fs ← z_strict ["name"; "passed"] v;
  name ← z_field fs "name" (z_string (λ s, bool_decide (s ∈ names)));
  passed ← z_field fs "passed" z_boolean;
  Ok (name, passed).

Definition MissionContract_read (v : json) : result MissionContract :=
  fs ← z_strict ["outputSchema"; "requestedFindings"; "minFindings"; "maxFindings"] v;
  _ ← z_field fs "outputSchema" (z_string (λ s, s === MISSION_OUTPUT_SCHEMA));
  requested ← z_field fs "requestedFindings" (z_nullable (z_int 1 MISSION_HARD_MAX_FINDINGS));
  lo ← z_field fs "minFindings" (z_int 1 MISSION_HARD_MAX_FINDINGS);
  hi ← z_field fs "maxFindings" (z_int 1 MISSION_HARD_MAX_FINDINGS);
  MissionContract_parse {| requestedFindings := requested; minFindings := lo; maxFindings := hi |}.

Definition decision_names : list (string * bool) := [("ACCEPTED", true); ("REJECTED", false)].

(** [MissionReconciliation.parse] of persisted metadata. *)
Definition MissionReconciliation_parse (v : json) : result MissionReconciliation :=
  fs ← z_strict ["decision"; "checks"; "contract"; "findingCount"; "findingEvidenceDigests"; "githubDigest";
                 "analysisDigest"; "reviewDigest"; "analystModel"; "reviewerModel"; "independence"] v;
  accepted ← z_field fs "decision" (z_enum decision_names);
  checks ← z_field fs "checks" (z_array 13 13 (check_parse RECONCILE_CHECKS));
  contract ← z_field fs "contract" MissionContract_read;
  count ← z_field fs "findingCount" (z_int 0 MISSION_HARD_MAX_FINDINGS);
  digests ← z_field fs "findingEvidenceDigests" (z_array 0 MISSION_HARD_MAX_FINDINGS (z_string Sha256_ok));
  gh ← z_field fs "githubDigest" (z_string Sha256_ok);
  an ← z_field fs "analysisDigest" (z_string Sha256_ok);
  rv ← z_field fs "reviewDigest" (z_string Sha256_ok);
  am ← z_field fs "analystModel" (z_text 0 256);
  rm ← z_field fs "reviewerModel" (z_text 0 256);
  ind ← z_field fs "independence" Independence_parse;
  MissionReconciliation_check
    {| mc_accepted := accepted; mc_checks := checks; mc_contract := contract; mc_findingCount := count;
       mc_findingEvidenceDigests := digests; mc_githubDigest := gh; mc_analysisDigest := an; mc_reviewDigest := rv;
       mc_analystModel := am; mc_reviewerModel := rm; mc_independence := ind |}.

Definition independence_json (i : Independence) : json :=
  JObj [("analystProvider", JStr (ind_analystProvider i)); ("reviewerProvider", JStr (ind_reviewerProvider i));
        ("analystFamily", JStr (ind_analystFamily i)); ("reviewerFamily", JStr (ind_reviewerFamily i));
        ("crossProvider", JBool (ind_crossProvider i)); ("crossFamily", JBool (ind_crossFamily i))].

Definition checks_json (l : list (string * bool)) : json :=
  JArr (map (λ c, JObj [("name", JStr c.1); ("passed", JBool c.2)]) l).

Definition decision_word (accepted : bool) : string := if accepted then "ACCEPTED" else "REJECTED".

Definition contract_json (c : MissionContract) : json :=
  JObj [("outputSchema", JStr MISSION_OUTPUT_SCHEMA); ("requestedFindings", opt_json JNum (requestedFindings c));
        ("minFindings", JNum (minFindings c)); ("maxFindings", JNum (maxFindings c))].

Definition reconciliation_json (r : MissionReconciliation) : json :=
  JObj [("decision", JStr (decision_word (mc_accepted r))); ("checks", checks_json (mc_checks r));
        ("contract", contract_json (mc_contract r)); ("findingCount", JNum (mc_findingCount r));
        ("findingEvidenceDigests", JArr (map JStr (mc_findingEvidenceDigests r)));
        ("githubDigest", JStr (mc_githubDigest r)); ("analysisDigest", JStr (mc_analysisDigest r));
        ("reviewDigest", JStr (mc_reviewDigest r)); ("analystModel", JStr (mc_analystModel r));
        ("reviewerModel", JStr (mc_reviewerModel r)); ("independence", independence_json (mc_independence r))].

(** ** reconcile.ts *)

Definition sha256Text (text : string) : string := Sha256.sha256_hex text.

(** The whitespace after the opening fence, up to its last newline: what follows that newline. *)
Fixpoint after_last_newline (fuel : nat) (bs : list Z) (best : option (list Z)) : option (list Z) :=
  match fuel with
  | O => best
  | S fuel' =>
      match first_some (λ p, strip_prefix p bs) js_spaces with
      | None => best
      | Some bs' => after_last_newline fuel' bs' (if bool_decide (head bs = Some 10) then Some bs' else best)
      end
  end.

Definition fence_bytes : list Z := Sha256.string_bytes "```".

(** The body of a text that is one fenced block, optionally labelled [json]. *)
Definition fenced (trimmed : string) : option string :=
  match strip_prefix fence_bytes (Sha256.string_bytes trimmed) with
  | None => None
  | Some r =>
      let r := default r (strip_prefix (Sha256.string_bytes "json") r) in
      body ← after_last_newline (length r) r None;
      inner ← strip_prefix (rev (10 :: fence_bytes)) (rev body);
      Some (bytes_string (rev inner))
  end.

Definition parseRuntimeJson (text : string) : result json :=
  let trimmed := js_trim text in
  JSON_parse (match fenced trimmed with Some body => body | None => trimmed end).

Definition tryParse {A} (parse : json → result A) (text : string) : option A :=
  match (v ← parseRuntimeJson text; parse v) with Ok x => Some x | Throw _ => None end.

Definition parseAnalysis : string → option MissionAnalysis := tryParse MissionAnalysis_parse.
Definition parseReview : string → option MissionReview := tryParse MissionReview_parse.

Record ReconcileInput := {
  ri_facts : GithubFacts; ri_contract : MissionContract; ri_analysisText : string; ri_analystModel : string;
  ri_analystProvider : string; ri_reviewText : string; ri_reviewerModel : string; ri_reviewerProvider : string
}.

(** [new Map(entries)] *)
Definition map_of {V} (entries : list (string * V)) : list (string * V) :=
  fold_left (λ m kv, map_set m kv.1 kv.2) entries [].

(** [full.startsWith(prefix)] *)
Definition starts_with (prefix full : string) : bool := match strip_text prefix full with Some _ => true | None => false end.

Definition bind (tree : list (string * string)) (item : FindingEvidence) : option string :=
  match map_get tree (fe_path item) with
  | Some full => if starts_with (fe_blobSha item) full then Some full else None
  | None => None
  end.

(** The evidence a finding stands on: each cited path with its object id, sorted by path. *)
Definition grounded_evidence (tree : list (string * string)) (f : Finding) : list (string * string) :=
  js_sort key_compare (map_of (map (λ e, (fe_path e, default EmptyString (bind tree e))) (fi_evidence f))).

Definition finding_json (headSha : string) (tree : list (string * string)) (f : Finding) : json :=
  JObj [("headSha", JStr headSha);
        ("evidence", JArr (map (λ p, JObj [("path", JStr p.1); ("sha", JStr p.2)]) (grounded_evidence tree f)))].

Section reconcile.
Context (toLowerCase : string → string).

(** [slash > 0 ? model.slice(0, slash) : model.split("-")[0]] *)
Definition modelFamily (model : string) : string :=
  toLowerCase
    (match cut_at "/" model with
     | Some (String c f, _) => String c f
     | _ => match cut_at "-" model with Some (f, _) => f | None => model end
     end).

Definition modelSlug (model : string) : string := toLowerCase (after_last "/" model).

Definition sameModel (a b : string) : bool := modelSlug a === modelSlug b.

Definition runtimeAllowed (model : string) : bool := bool_decide (modelFamily model ∈ MISSION_RUNTIME_FAMILIES).

Definition if_some {A} (o : option A) (f : A → bool) : bool := match o with Some x => f x | None => false end.

Definition independence (analystModel analystProvider reviewerModel reviewerProvider : string) : Independence :=
  {| ind_analystProvider := analystProvider; ind_reviewerProvider := reviewerProvider;
     ind_analystFamily := modelFamily analystModel; ind_reviewerFamily := modelFamily reviewerModel;
     ind_crossProvider := analystProvider !== reviewerProvider;
     ind_crossFamily := modelFamily analystModel !== modelFamily reviewerModel |}.

(** The thirteen results, in the order of [RECONCILE_CHECKS]. *)
Definition reconcile_results (facts : GithubFacts) (contract : MissionContract) (input : ReconcileInput)
    (tree : list (string * string)) (analysis : option MissionAnalysis) (review : option MissionReview) : list bool :=
  let findings := match analysis with Some a => ma_findings a | None => [] end in
  let cited := concat (map fi_evidence findings) in
  let has e := map_has tree (fe_path e) in
  let headMatches := if_some analysis (λ a, ma_headSha a === gf_headSha facts) in
  let n := Z.of_nat (length findings) in
  [match analysis with Some _ => true | None => false end;
   headMatches;
   if_some analysis (λ _, (minFindings contract <=? n) && (n <=? maxFindings contract));
   if_some analysis (λ _, forallb (λ f, negb (fi_evidence f === [])) findings);
   if_some analysis (λ _, forallb has cited);
   headMatches && forallb (λ e, negb (has e) || bool_decide (is_Some (bind tree e))) cited;
   match review with Some _ => true | None => false end;
   if_some review (λ r, mr_reviewed r === sha256Text (ri_analysisText input));
   runtimeAllowed (ri_analystModel input);
   runtimeAllowed (ri_reviewerModel input);
   negb (sameModel (ri_analystModel input) (ri_reviewerModel input));
   if_some review (λ r, mr_verdict r !== V_reject);
   if_some review (λ r, mr_unsupported r === [])].

(** [allCited && pathsExist && bound] *)
Definition grounded (results : list bool) : bool :=
  match results with
  | _ :: _ :: _ :: allCited :: pathsExist :: bound :: _ => allCited && pathsExist && bound
  | _ => false
  end.

Definition reconcileMission (input : ReconcileInput) : result MissionReconciliation :=
  facts ← GithubFacts_parse (facts_json (ri_facts input));
  contract ← MissionContract_parse (ri_contract input);
  let analysis := parseAnalysis (ri_analysisText input) in
  let review := parseReview (ri_reviewText input) in
  let tree := map_of (map (λ e, (ge_path e, ge_sha e)) (gf_tree facts)) in
  let findings := match analysis with Some a => ma_findings a | None => [] end in
  let results := reconcile_results facts contract input tree analysis review in
  let digests := if grounded results
    then map (λ f, capabilityDigest (finding_json (gf_headSha facts) tree f)) findings else [] in
  let checks := zip RECONCILE_CHECKS results in
  MissionReconciliation_check
    {| mc_accepted := forallb snd checks; mc_checks := checks; mc_contract := contract;
       mc_findingCount := Z.of_nat (length findings); mc_findingEvidenceDigests := digests;
       mc_githubDigest := capabilityDigest (facts_json facts);
       mc_analysisDigest := sha256Text (ri_analysisText input); mc_reviewDigest := sha256Text (ri_reviewText input);
       mc_analystModel := ri_analystModel input; mc_reviewerModel := ri_reviewerModel input;
       mc_independence := independence (ri_analystModel input) (ri_analystProvider input)
                            (ri_reviewerModel input) (ri_reviewerProvider input) |}.

Definition missionSummary (a : MissionAnalysis) : string := slice16 500 ("Accepted: " +:+ ma_summary a).

Definition failedCheckNames (rec : MissionReconciliation) : list string :=
  (List.filter (λ c, negb c.2) (mc_checks rec)).*1.

(** ** evidence.ts and verify.ts *)

Definition SOURCE_github : string := "kerneljson:github-read/v1".
Definition SOURCE_analyst : string := "kerneljson:runtime/analyst".
Definition SOURCE_reviewer : string := "kerneljson:runtime/reviewer".
Definition SOURCE_reconcile : string := "kerneljson:mission-reconcile/v1".

Definition github_output (headSha factsDigest : string) : json :=
  JObj [("facts_digest", JStr factsDigest); ("head_sha", JStr headSha)].
Definition runtime_output (digest : string) : json := JObj [("output_digest", JStr digest)].
Definition reconcile_output (accepted : bool) : json := JObj [("decision", JStr (decision_word accepted))].

Definition fail {A} (who why : string) : result A := Throw (js_error (who +:+ " completion rejected: " +:+ why)).

(** [one(stepId, type, source)] *)
Definition one_evidence (who : string) (evidence : list Evidence) (stepId : string) (type : EvidenceType)
    (source : string) : result Evidence :=
  match List.filter (λ e, (ev_stepId e === Some stepId) && (ev_type e === type) && (ev_source e === source)) evidence with
  | [e] => Ok e
  | _ => fail who ("expected exactly one " +:+ source +:+ " evidence")
  end.

(** [text(e)]: the runtime text, which must hash to the recorded digest. *)
Definition runtime_text (who : string) (e : Evidence) : result string :=
  match map_get (ev_metadata e) "text" with
  | Some (JStr t) => if ev_digest e === Some (sha256Text t) then Ok t
                     else fail who "runtime text does not match its digest"
  | _ => fail who "runtime text does not match its digest"
  end.

(** A string of the metadata; the mission accepts an empty model, the provider is never empty. *)
Definition md_string (who key label : string) (nonempty : bool) (e : Evidence) : result string :=
  match map_get (ev_metadata e) key with
  | Some (JStr s) => if nonempty && (s === EmptyString) then fail who ("missing " +:+ label) else Ok s
  | _ => fail who ("missing " +:+ label)
  end.

Fixpoint verify_outputs (who : string) (steps : list TaskStep) (expected : list (PlanStep * json)) : result unit :=
  match expected with
  | [] => Ok tt
  | (node, output) :: rest =>
      match List.find (λ s, step_id s === ps_id node) steps with
      | None => fail who "a planned step is missing or not completed"
      | Some stored =>
          planned ← projectStep node;
          ensure ((step_status stored === COMPLETED) && (step_kind stored === step_kind planned))
            (js_error (who +:+ " completion rejected: a planned step is missing or not completed"));;
          ensure (capabilityDigest (default JNull (step_output stored)) === capabilityDigest output)
            (js_error (who +:+ " completion rejected: step output does not match evidence"));;
          verify_outputs who steps rest
      end
  end.

Definition text_compare (a b : string) : Z := match String.compare a b with Lt => -1 | Gt => 1 | Eq => 0 end.

(** The outcome cites exactly these evidence rows. *)
Definition same_evidence (outcome : Outcome) (es : list Evidence) : bool :=
  js_sort text_compare (out_evidenceRefs outcome) === js_sort text_compare (map ev_id es).

Definition require (who : string) (c : bool) (why : string) : result unit :=
  ensure c (js_error (who +:+ " completion rejected: " +:+ why)).

Context (url_ok : string → bool).

Definition verifyMissionCompletion (task : Task) (outcome : Outcome) (plan : ExecutionPlan)
    (steps : list TaskStep) (records : list Evidence) : result unit :=
  let who := "Mission" in
  require who (plan_recipe plan === RepoAnalysisMission) "wrong recipe";;
  nodes ← orderedSteps plan;
  match nodes with
  | [github; analyst; reviewer; reconcile] =>
      evidence ← parse_all (Evidence_parse url_ok) records;
      e1 ← one_evidence who evidence (ps_id github) TOOL_RECEIPT SOURCE_github;
      e2 ← one_evidence who evidence (ps_id analyst) ARTIFACT SOURCE_analyst;
      e3 ← one_evidence who evidence (ps_id reviewer) ARTIFACT SOURCE_reviewer;
      e4 ← one_evidence who evidence (ps_id reconcile) DETERMINISTIC_RESULT SOURCE_reconcile;
      facts ← z_field (ev_metadata e1) "facts" GithubFacts_parse;
      let factsDigest := capabilityDigest (facts_json facts) in
      require who ((ev_digest e1 === Some factsDigest) && meta_is e1 "content_sha256" factsDigest)
        "github digest mismatch";;
      require who (meta_is e1 "head_sha" (gf_headSha facts)) "github head sha mismatch";;
      objective ← parseMissionObjective (task_objective task);
      require who (toLowerCase (gf_repo facts) === toLowerCase (mo_repo objective))
        "evidence is for a different repository";;
      analysisText ← runtime_text who e2;
      reviewText ← runtime_text who e3;
      require who (meta_is e2 "role" "analyst" && meta_is e2 "subject_digest" factsDigest)
        "analyst evidence is not bound to the github evidence";;
      require who (meta_is e3 "role" "reviewer" &&
                   match ev_digest e2 with Some g => meta_is e3 "subject_digest" g | None => false end)
        "reviewer evidence is not bound to the analysis";;
      analystModel ← md_string who "response_model" "response model" false e2;
      analystProvider ← md_string who "provider" "provider" true e2;
      reviewerModel ← md_string who "response_model" "response model" false e3;
      reviewerProvider ← md_string who "provider" "provider" true e3;
      recomputed ← reconcileMission
        {| ri_facts := facts; ri_contract := mo_contract objective; ri_analysisText := analysisText;
           ri_analystModel := analystModel; ri_analystProvider := analystProvider; ri_reviewText := reviewText;
           ri_reviewerModel := reviewerModel; ri_reviewerProvider := reviewerProvider |};
      persisted ← MissionReconciliation_parse (JObj (ev_metadata e4));
      let recDigest := capabilityDigest (reconciliation_json recomputed) in
      require who ((capabilityDigest (reconciliation_json persisted) === recDigest) && (ev_digest e4 === Some recDigest))
        "persisted reconciliation does not match the recomputed one";;
      require who (mc_accepted recomputed) "reconciliation did not accept the mission";;
      verify_outputs who steps
        [(github, github_output (gf_headSha facts) factsDigest);
         (analyst, runtime_output (default EmptyString (ev_digest e2)));
         (reviewer, runtime_output (default EmptyString (ev_digest e3)));
         (reconcile, reconcile_output (mc_accepted recomputed))];;
      require who (match parseAnalysis analysisText with
                   | Some a => out_summary outcome === missionSummary a | None => false end)
        "outcome summary is not the verified one";;
      require who (same_evidence outcome [e1; e2; e3; e4]) "outcome evidence set mismatch";;
      assertCompletion task outcome [e1; e2; e3; e4]
  | _ => fail who "unexpected plan shape"
  end.
End reconcile.

(** ** What a completion rests on *)

(** The verified records are records that were given, up to the fields that name them. *)
Definition rests_on (records verified : list Evidence) : Prop :=
  ∀ v, v ∈ verified → ∃ r, r ∈ records ∧ ev_id r = ev_id v ∧ ev_taskId r = ev_taskId v.

(** A recipe's verifier accepts only what [assertCompletion] accepts of the records given. *)
Definition verifier_sound (verify : Task → Outcome → ExecutionPlan → list TaskStep → list Evidence → result unit) : Prop :=
  ∀ task o p steps records, verify task o p steps records = Ok tt →
    ∃ verified, rests_on records verified ∧ assertCompletion task o verified = Ok tt.

Lemma Evidence_parse_ids url_ok e e' : Evidence_parse url_ok e = Ok e' → ev_id e' = ev_id e ∧ ev_taskId e' = ev_taskId e.
Proof.
  unfold Evidence_parse, ok_or. intros [_ H]%ensure_ok. apply bind_ok in H as (src & _ & H).
  apply bind_ok in H as (ref & _ & H). apply ensure_ok in H as [_ H]. apply ensure_ok in H as [_ H].
  by apply Ok_inj in H as <-.
Qed.

Lemma parsed_rests_on url_ok records parsed :
  parse_all (Evidence_parse url_ok) records = Ok parsed → rests_on records parsed.
Proof.
  intros H v Hv. destruct (parse_all_elem _ _ _ _ H Hv) as (r & Hr & [-> ->]%Evidence_parse_ids). by exists r.
Qed.

Lemma rests_on_sub records parsed verified :
  (∀ v, v ∈ verified → v ∈ parsed) → rests_on records parsed → rests_on records verified.
Proof. intros Hs Hr v Hv. apply Hr, Hs, Hv. Qed.

Lemma one_evidence_elem who evidence stepId type source e :
  one_evidence who evidence stepId type source = Ok e →
  e ∈ evidence ∧ ev_stepId e = Some stepId ∧ ev_type e = type ∧ ev_source e = source.
Proof.
  unfold one_evidence. destruct (List.filter _ evidence) as [|x [|]] eqn:E; try done. intros <-%Ok_inj.
  assert (Hx : x ∈ [x]) by left. rewrite <- E in Hx. apply elem_of_filter_bool in Hx as [Hx Hc]. by to_prop.
Qed.

(** ** Properties *)

(** *** Runtime text is read back *)

Lemma string_bytes_app a b : Sha256.string_bytes (a +:+ b) = Sha256.string_bytes a ++ Sha256.string_bytes b.
Proof. induction a as [|c a IH]; [done|]. exact (f_equal (cons _) IH). Qed.

Definition newline : string := String (ascii_of_N 10) EmptyString.
Definition fence_open : string := "```json" +:+ newline.
Definition fence_close : string := newline +:+ "```".

Lemma object_text fs : ∃ mid, Sha256.string_bytes (stringify (JObj fs)) = 123 :: mid ++ [125].
Proof.
  cbn [stringify]. rewrite !string_bytes_app. eexists. reflexivity.
Qed.

Lemma trimmed_text s b mid e :
  Sha256.string_bytes s = b :: mid ++ [e] → b ∈ [96; 123] → e ∈ [96; 125] → js_trim s = s.
Proof.
  intros Hs Hb He. apply js_trim_id; split; rewrite Hs.
  - rewrite !elem_of_cons in Hb. destruct Hb as [->|[->|?%elem_of_nil]]; [done|done|done].
  - cbn [rev]. rewrite rev_app_distr. cbn [rev app].
    rewrite !elem_of_cons in He. destruct He as [->|[->|?%elem_of_nil]]; [done|done|done].
Qed.

Lemma fenced_text s mid :
  Sha256.string_bytes s = 123 :: mid → fenced (fence_open +:+ s +:+ fence_close) = Some s.
Proof.
  intros Hs. unfold fenced. rewrite !string_bytes_app, Hs.
  change (Sha256.string_bytes fence_open) with (fence_bytes ++ [106; 115; 111; 110; 10]).
  change (Sha256.string_bytes fence_close) with (10 :: fence_bytes).
  rewrite <- app_assoc. rewrite (proj2 (strip_prefix_app _ _ _) eq_refl).
  change (Sha256.string_bytes "json") with [106; 115; 111; 110].
  cbn [app]. cbn [strip_prefix Z.eqb Pos.eqb default from_option id].
  assert (∀ f x t, after_last_newline (S f) (123 :: t) x = x) as Hstop by done.
  cbn [length]. change (after_last_newline (S ?f) (10 :: ?t) None) with (after_last_newline f t (Some t)).
  rewrite Hstop. cbn [mbind option_bind].
  change (123 :: mid ++ 10 :: fence_bytes) with ((123 :: mid) ++ (10 :: fence_bytes)).
  rewrite rev_app_distr, (proj2 (strip_prefix_app _ _ _) eq_refl). cbn [mbind option_bind].
  by rewrite rev_involutive, <- Hs, bytes_of_string.
Qed.

(** What a model runtime writes is what the kernel reads: the JSON of an object,
    alone or as one fenced block, parses to that object. *)
Theorem runtime_json_roundtrip fs :
  json_wf (JObj fs) →
  parseRuntimeJson (stringify (JObj fs)) = Ok (JObj fs) ∧
  parseRuntimeJson (fence_open +:+ stringify (JObj fs) +:+ fence_close) = Ok (JObj fs).
Proof.
  intros Hwf. destruct (object_text fs) as [mid Hm]. unfold parseRuntimeJson.
  pose proof (JSON_parse_stringify _ Hwf) as Hp. generalize dependent (stringify (JObj fs)). intros s Hm Hp. split.
  - rewrite (trimmed_text s 123 mid 125) by (done || set_solver).
    assert (fenced s = None) as ->; [|done]. unfold fenced. by rewrite Hm.
  - rewrite (trimmed_text _ 96 ([96; 96; 106; 115; 111; 110; 10] ++ Sha256.string_bytes s ++ [10; 96; 96]) 96);
      [|rewrite !string_bytes_app, <- !app_assoc; done|set_solver|set_solver].
    by rewrite (fenced_text s (mid ++ [125])).
Qed.

(** *** The persisted facts are read back *)

Definition type_names : list (string * bool) := [("blob", true); ("tree", false)].

Lemma TreeEntry_rereads : rereads TreeEntry_parse tree_entry_json.
Proof.
  assert (rereads (z_enum type_names) (λ b : bool, JStr (if b then "blob" else "tree"))) as Ht by (by intros v []).
  intros v x. unfold TreeEntry_parse. intros (fs & _ & H)%bind_ok. fold type_names in *. reread_fields H.
  unfold tree_entry_json. read_strict. by read_fields.
Qed.

Lemma Readme_rereads : rereads Readme_parse readme_json.
Proof.
  intros v x. unfold Readme_parse. intros (fs & _ & H)%bind_ok. reread_fields H.
  unfold readme_json. read_strict. by read_fields.
Qed.

#[local] Hint Resolve TreeEntry_rereads Readme_rereads : rereads.

Lemma GithubFacts_parse_again v f : GithubFacts_parse v = Ok f → GithubFacts_parse (facts_json f) = Ok f.
Proof.
  unfold GithubFacts_parse at 1. intros (fs & _ & H)%bind_ok. reread_fields H.
  unfold GithubFacts_parse, facts_json. read_strict. by read_fields.
Qed.

Section accepted.
Context (toLowerCase : string → string) (url_ok : string → bool).

Lemma map_of_elem {V} (entries : list (string * V)) k v : map_get (map_of entries) k = Some v → (k, v) ∈ entries.
Proof.
  unfold map_of. intros H%map_get_elem. revert H. cut (∀ m, (k, v) ∈ fold_left (λ m kv, map_set m kv.1 kv.2) entries m →
    (k, v) ∈ m ∨ (k, v) ∈ entries); [intros H Hk; destruct (H [] Hk) as [?%elem_of_nil|?]; done|].
  induction entries as [|[k' v'] es IH]; intros m; cbn [fold_left]; [auto|].
  intros [Hm|He]%IH; [|right; by right]. apply map_set_elem in Hm as [[= -> ->]|Hm]; [right; left|by left].
Qed.

(** A finding is grounded when it cites evidence, and every citation names a path of the
    captured tree and a prefix of the object id the tree holds for it. *)
Definition grounded_in (facts : GithubFacts) (f : Finding) : Prop :=
  fi_evidence f ≠ [] ∧
  ∀ c, c ∈ fi_evidence f → ∃ entry, entry ∈ gf_tree facts ∧ ge_path entry = fe_path c ∧
    starts_with (fe_blobSha c) (ge_sha entry) = true.

(** What the kernel's judgement requires of the analysis and of its review. *)
Definition sound_mission (facts : GithubFacts) (contract : MissionContract)
    (analysisText analystModel reviewText reviewerModel : string) (a : MissionAnalysis) (r : MissionReview) : Prop :=
  parseAnalysis analysisText = Some a ∧ ma_headSha a = gf_headSha facts ∧
  minFindings contract ≤ Z.of_nat (length (ma_findings a)) ≤ maxFindings contract ∧
  Forall (grounded_in facts) (ma_findings a) ∧
  parseReview reviewText = Some r ∧ mr_reviewed r = sha256Text analysisText ∧
  mr_verdict r ≠ V_reject ∧ mr_unsupported r = [] ∧
  modelFamily toLowerCase analystModel ∈ MISSION_RUNTIME_FAMILIES ∧
  modelFamily toLowerCase reviewerModel ∈ MISSION_RUNTIME_FAMILIES ∧
  modelSlug toLowerCase analystModel ≠ modelSlug toLowerCase reviewerModel.

Lemma bind_tree facts c full :
  bind (map_of (map (λ e, (ge_path e, ge_sha e)) (gf_tree facts))) c = Some full →
  ∃ entry, entry ∈ gf_tree facts ∧ ge_path entry = fe_path c ∧ starts_with (fe_blobSha c) (ge_sha entry) = true.
Proof.
  unfold bind. destruct (map_get _ _) as [x|] eqn:E; [|done]. apply map_of_elem in E.
  destruct (starts_with _ _) eqn:Es; [|done]. intros [= ->].
  apply list_elem_of_fmap in E as (entry & [= -> ->] & Hin). by exists entry.
Qed.

Lemma reconcile_results_sound facts contract input tree a r :
  tree = map_of (map (λ e, (ge_path e, ge_sha e)) (gf_tree facts)) →
  forallb id (reconcile_results toLowerCase facts contract input tree a r) = true →
  ∃ a' r', a = Some a' ∧ r = Some r' ∧ ma_headSha a' = gf_headSha facts ∧
    minFindings contract ≤ Z.of_nat (length (ma_findings a')) ≤ maxFindings contract ∧
    Forall (grounded_in facts) (ma_findings a') ∧ mr_reviewed r' = sha256Text (ri_analysisText input) ∧
    mr_verdict r' ≠ V_reject ∧ mr_unsupported r' = [] ∧
    modelFamily toLowerCase (ri_analystModel input) ∈ MISSION_RUNTIME_FAMILIES ∧
    modelFamily toLowerCase (ri_reviewerModel input) ∈ MISSION_RUNTIME_FAMILIES ∧
    modelSlug toLowerCase (ri_analystModel input) ≠ modelSlug toLowerCase (ri_reviewerModel input).
Proof.
  intros Ht H. unfold reconcile_results in H. cbn [forallb id] in H.
  destruct a as [a|]; [|done]. destruct r as [r|]; [|by rewrite !andb_false_r in H].
  cbn [if_some] in H. unfold runtimeAllowed, sameModel in H. to_prop. exists a, r. split_and!; try done.
  apply Forall_forall. intros f Hf. rewrite forallb_forall in *. split.
  - apply list_elem_of_In in Hf.
    match goal with Hn : ∀ x, In x (ma_findings a) → negb _ = true |- _ => specialize (Hn f Hf) end. by to_prop.
  - intros c Hc.
    assert (Hin : In c (concat (map fi_evidence (ma_findings a)))).
    { apply in_concat. exists (fi_evidence f). split; [apply in_map; by apply list_elem_of_In|by apply list_elem_of_In]. }
    match goal with H1 : ∀ x, In x _ → map_has tree _ = true, H2 : ∀ x, In x _ → _ || _ = true |- _ =>
      specialize (H1 c Hin); specialize (H2 c Hin); rewrite H1 in H2; cbn in H2; apply bool_decide_eq_true in H2 as [full Hb] end.
    subst tree. by eapply bind_tree.
Qed.

Lemma forallb_zip (l : list string) (l' : list bool) :
  length l = length l' → forallb snd (zip l l') = forallb id l'.
Proof. revert l'. induction l as [|x l IH]; intros [|b l'] [=]; [done|]. simpl. by rewrite IH. Qed.

Lemma reconcileMission_ok input rec :
  reconcileMission toLowerCase input = Ok rec → mc_accepted rec = true →
  ∃ facts a r, GithubFacts_parse (facts_json (ri_facts input)) = Ok facts ∧
    sound_mission facts (ri_contract input) (ri_analysisText input) (ri_analystModel input)
      (ri_reviewText input) (ri_reviewerModel input) a r ∧
    mc_findingCount rec = Z.of_nat (length (ma_findings a)).
Proof.
  unfold reconcileMission. intros (facts & Hf & H)%bind_ok.
  apply bind_ok in H as (contract & Hc & H). unfold MissionContract_parse, ok_or in Hc.
  apply ensure_ok in Hc as [_ <-%Ok_inj]. cbv zeta in H. unfold MissionReconciliation_check in H.
  apply ensure_ok in H as [_ <-%Ok_inj]. cbn [mc_accepted mc_findingCount].
  rewrite forallb_zip by done. intros H. exists facts.
  destruct (reconcile_results_sound _ _ _ _ _ _ eq_refl H) as (a & r & Ha & Hr & Hrest). rewrite Ha.
  exists a, r. split; [done|]. split; [|done]. unfold sound_mission. destruct_and! Hrest. by split_and!.
Qed.

(** C12: an accepted mission is grounded and independently reviewed.  When the kernel's
    reconciliation accepts, the analysis parses and names the captured head, the number of
    findings lies within the contract, every finding cites evidence and every citation names
    a path of the captured tree with a prefix of its object id, the review parses, is of this
    very analysis text, does not reject and flags nothing, and the two models are of allowed
    families and are not the same model. *)
Theorem accepted_mission_grounded input rec :
  reconcileMission toLowerCase input = Ok rec → mc_accepted rec = true →
  ∃ facts a r, GithubFacts_parse (facts_json (ri_facts input)) = Ok facts ∧
    sound_mission facts (ri_contract input) (ri_analysisText input) (ri_analystModel input)
      (ri_reviewText input) (ri_reviewerModel input) a r ∧
    mc_findingCount rec = Z.of_nat (length (ma_findings a)).
Proof. exact (reconcileMission_ok input rec). Qed.

(** What stands behind a mission the backstop lets complete: the four evidence rows, and
    the kernel's own judgement of the texts they carry. *)
Record verified_mission (task : Task) (outcome : Outcome) (evidence : list Evidence)
    (e1 e2 e3 e4 : Evidence) (facts : GithubFacts) (objective : MissionObjective)
    (analysisText reviewText analystModel reviewerModel : string) (rec : MissionReconciliation)
    (a : MissionAnalysis) (r : MissionReview) : Prop := {
  vm_rows : Forall (λ e, e ∈ evidence) [e1; e2; e3; e4];
  vm_sources : map ev_source [e1; e2; e3; e4] = [SOURCE_github; SOURCE_analyst; SOURCE_reviewer; SOURCE_reconcile];
  vm_facts : z_field (ev_metadata e1) "facts" GithubFacts_parse = Ok facts ∧
             ev_digest e1 = Some (capabilityDigest (facts_json facts)) ∧ meta_is e1 "head_sha" (gf_headSha facts) = true;
  vm_objective : parseMissionObjective (task_objective task) = Ok objective;
  vm_repo : toLowerCase (gf_repo facts) = toLowerCase (mo_repo objective);
  vm_analysis : map_get (ev_metadata e2) "text" = Some (JStr analysisText) ∧ ev_digest e2 = Some (sha256Text analysisText);
  vm_review : map_get (ev_metadata e3) "text" = Some (JStr reviewText) ∧ ev_digest e3 = Some (sha256Text reviewText);
  vm_models : map_get (ev_metadata e2) "response_model" = Some (JStr analystModel) ∧
              map_get (ev_metadata e3) "response_model" = Some (JStr reviewerModel);
  vm_judged : sound_mission facts (mo_contract objective) analysisText analystModel reviewText reviewerModel a r;
  vm_chain : meta_is e2 "role" "analyst" = true ∧ meta_is e2 "subject_digest" (capabilityDigest (facts_json facts)) = true ∧
             meta_is e3 "role" "reviewer" = true ∧ meta_is e3 "subject_digest" (sha256Text analysisText) = true;
  vm_recomputed : ∃ ap rp,
    map_get (ev_metadata e2) "provider" = Some (JStr ap) ∧ map_get (ev_metadata e3) "provider" = Some (JStr rp) ∧
    reconcileMission toLowerCase
      {| ri_facts := facts; ri_contract := mo_contract objective; ri_analysisText := analysisText;
         ri_analystModel := analystModel; ri_analystProvider := ap; ri_reviewText := reviewText;
         ri_reviewerModel := reviewerModel; ri_reviewerProvider := rp |} = Ok rec;
  vm_accepted : mc_accepted rec = true;
  vm_recorded : ∃ persisted, MissionReconciliation_parse (JObj (ev_metadata e4)) = Ok persisted ∧
    capabilityDigest (reconciliation_json persisted) = capabilityDigest (reconciliation_json rec) ∧
    ev_digest e4 = Some (capabilityDigest (reconciliation_json rec));
  vm_summary : out_summary outcome = missionSummary a;
  vm_cited : Permutation (out_evidenceRefs outcome) (map ev_id [e1; e2; e3; e4]);
  vm_asserted : assertCompletion task outcome [e1; e2; e3; e4] = Ok tt
}.

Lemma runtime_text_ok who e t : runtime_text who e = Ok t →
  map_get (ev_metadata e) "text" = Some (JStr t) ∧ ev_digest e = Some (sha256Text t).
Proof.
  unfold runtime_text. destruct (map_get _ _) as [[]|]; try done. case_bool_decide; [|done]. by intros <-%Ok_inj.
Qed.

Lemma md_string_ok who k l b e s : md_string who k l b e = Ok s → map_get (ev_metadata e) k = Some (JStr s).
Proof.
  unfold md_string. destruct (map_get _ _) as [[]|]; try done. destruct (_ && _); [done|]. by intros <-%Ok_inj.
Qed.

Lemma same_evidence_perm o es : same_evidence o es = true → Permutation (out_evidenceRefs o) (map ev_id es).
Proof.
  unfold same_evidence. intros H%bool_decide_eq_true.
  rewrite <- (js_sort_perm text_compare (out_evidenceRefs o)), H. apply js_sort_perm.
Qed.

Lemma require_ok {B} who c why (k : unit → result B) b :
  (require who c why ≫= k) = Ok b → c = true ∧ k tt = Ok b.
Proof. apply ensure_ok. Qed.

Lemma verifyMissionCompletion_ok task outcome plan steps records :
  verifyMissionCompletion toLowerCase url_ok task outcome plan steps records = Ok tt →
  ∃ evidence e1 e2 e3 e4 facts objective at_ rt am rm rec a r,
    parse_all (Evidence_parse url_ok) records = Ok evidence ∧
    verified_mission task outcome evidence e1 e2 e3 e4 facts objective at_ rt am rm rec a r.
Proof.
  unfold verifyMissionCompletion. intros [_ H]%require_ok. apply bind_ok in H as (nodes & _ & H).
  destruct nodes as [|n1 [|n2 [|n3 [|n4 [|]]]]]; try done.
  apply bind_ok in H as (evidence & Hev & H).
  apply bind_ok in H as (e1 & (Hi1 & _ & _ & Hs1)%one_evidence_elem & H).
  apply bind_ok in H as (e2 & (Hi2 & _ & _ & Hs2)%one_evidence_elem & H).
  apply bind_ok in H as (e3 & (Hi3 & _ & _ & Hs3)%one_evidence_elem & H).
  apply bind_ok in H as (e4 & (Hi4 & _ & _ & Hs4)%one_evidence_elem & H).
  apply bind_ok in H as (facts & Hfield & H). destruct (z_field_ok _ _ _ _ Hfield) as [v Hf]. apply GithubFacts_parse_again in Hf.
  apply require_ok in H as [Hd H]. apply require_ok in H as [Hhead H]. apply bind_ok in H as (objective & Ho & H).
  apply require_ok in H as [Hr H]. apply bind_ok in H as (at_ & Ha%runtime_text_ok & H).
  apply bind_ok in H as (rt & Hrt%runtime_text_ok & H). apply require_ok in H as [Hc2 H]. apply require_ok in H as [Hc3 H].
  apply bind_ok in H as (am & Ham%md_string_ok & H). apply bind_ok in H as (ap & Hap%md_string_ok & H).
  apply bind_ok in H as (rm & Hrm%md_string_ok & H). apply bind_ok in H as (rp & Hrp%md_string_ok & H).
  apply bind_ok in H as (rec & Hrec & H). apply bind_ok in H as (persisted & Hpers & H).
  apply require_ok in H as [Hp H]. apply require_ok in H as [Hacc H]. apply bind_ok in H as ([] & _ & H).
  apply require_ok in H as [Hsum H]. apply require_ok in H as [Hids%same_evidence_perm H].
  destruct (reconcileMission_ok _ _ Hrec Hacc) as (facts' & a & r & Hf' & Hs & _).
  cbn [ri_facts ri_contract ri_analysisText ri_analystModel ri_reviewText ri_reviewerModel] in Hf', Hs.
  rewrite Hf in Hf'. apply Ok_inj in Hf' as <-. destruct Ha as [Hat Had]. rewrite Had in Hc3.
  exists evidence, e1, e2, e3, e4, facts, objective, at_, rt, am, rm, rec, a, r. split; [done|]. to_prop.
  split; try done; [by repeat constructor|cbn; by rewrite Hs1, Hs2, Hs3, Hs4| | |].
  - by exists ap, rp.
  - by exists persisted.
  - destruct Hs as [Hpa _]. rewrite Hpa in Hsum. by to_prop.
Qed.

Lemma mission_verifier_sound : verifier_sound (verifyMissionCompletion toLowerCase url_ok).
Proof.
  intros task o p steps records
    (ev & e1 & e2 & e3 & e4 & f & ob & at_ & rt & am & rm & rec & a & r & Hp & Hv)%verifyMissionCompletion_ok.
  exists [e1; e2; e3; e4]. split; [|apply (vm_asserted _ _ _ _ _ _ _ _ _ _ _ _ _ _ _ _ Hv)].
  apply (rests_on_sub _ ev); [|by apply (parsed_rests_on url_ok)].
  pose proof (vm_rows _ _ _ _ _ _ _ _ _ _ _ _ _ _ _ _ Hv) as Hr. by rewrite Forall_forall in Hr.
Qed.

(** C4: the workflow cannot approve itself.  When the ledger's backstop lets a mission
    complete, four of the persisted evidence rows stand behind it: facts about the very
    repository the task's objective names; an analysis text, bound to those facts, and a
    review text, bound to that analysis, each hashing to its recorded digest; and a recorded
    judgement.  The kernel's own judgement of those facts and texts, under the contract the
    objective states, accepts them as grounded and independently reviewed, and the digest of
    its JSON is the digest of the recorded judgement's.  The outcome says what the analysis
    says, and cites these four rows and no others. *)
Theorem mission_completion_rederived task outcome plan steps records :
  verifyMissionCompletion toLowerCase url_ok task outcome plan steps records = Ok tt →
  ∃ evidence e1 e2 e3 e4 facts objective analysisText reviewText analystModel reviewerModel rec a r,
    parse_all (Evidence_parse url_ok) records = Ok evidence ∧
    verified_mission task outcome evidence e1 e2 e3 e4 facts objective analysisText reviewText
      analystModel reviewerModel rec a r.
Proof. apply verifyMissionCompletion_ok. Qed.
End accepted.

(** *** The objective grammar *)

Lemma strip_spaces_length fuel seps s : (length (strip_spaces fuel seps s) ≤ length s)%nat.
Proof.
  revert s. induction fuel as [|fuel IH]; intros s; cbn [strip_spaces]; [done|].
  destruct (first_some _ seps) as [t|] eqn:E; [|done]. apply first_some_Some in E as (p & _ & ->%strip_prefix_app).
  rewrite length_app. specialize (IH t). lia.
Qed.

Lemma bytes_string_length bs : String.length (bytes_string bs) = length bs.
Proof. unfold bytes_string. induction bs as [|b bs IH]; [done|]. exact (f_equal S IH). Qed.

Lemma string_bytes_length s : length (Sha256.string_bytes s) = String.length s.
Proof. induction s as [|c s IH]; [done|]. exact (f_equal S IH). Qed.

Lemma js_trim_length s : (String.length (js_trim s) ≤ String.length s)%nat.
Proof.
  unfold js_trim. rewrite bytes_string_length, length_rev. etransitivity; [apply strip_spaces_length|].
  rewrite length_rev. etransitivity; [apply strip_spaces_length|]. by rewrite string_bytes_length.
Qed.

Lemma first_token_app bs : bs = (first_token bs).1 ++ (first_token bs).2.
Proof.
  induction bs as [|b bs IH]; [done|]. cbn [first_token]. destruct (first_some _ js_spaces); [done|].
  destruct (first_token bs) as [t r]. cbn in *. by rewrite <- IH.
Qed.

Lemma split_token_shorter text tok rest :
  split_token text = Some (tok, rest) → (String.length rest < String.length text)%nat.
Proof.
  unfold split_token. pose proof (first_token_app (Sha256.string_bytes text)) as H.
  destruct (first_token _) as [[|b t] r]; [done|]. intros [= <- <-]. cbn [fst snd] in H.
  pose proof (js_trim_length (bytes_string r)) as Hl. rewrite bytes_string_length in Hl.
  rewrite <- (string_bytes_length text), H, length_app. cbn. lia.
Qed.

Definition out_of_fuel : exn := js_error "out of fuel".

Ltac not_fuel := cbn [ensure mbind result_bind]; unfold out_of_fuel, js_error, zod_error; discriminate.

Lemma mission_error s : js_error ("Mission " +:+ s) ≠ out_of_fuel.
Proof. unfold out_of_fuel, js_error. intros H. injection H as H. discriminate H. Qed.

(** The directives read so far are counts. *)
Definition counts_ok (exact atMost : option Z) : bool := opt_ok in_findings exact && opt_ok in_findings atMost.

Lemma directives_spec fuel rest exact atMost :
  (String.length rest < fuel)%nat → counts_ok exact atMost = true →
  match directives fuel rest exact atMost with
  | Ok (_, e, m) => counts_ok e m = true
  | Throw e => e ≠ out_of_fuel
  end.
Proof.
  revert rest exact atMost. induction fuel as [|fuel IH]; intros rest exact atMost Hl Hc; [lia|].
  cbn [directives]. destruct (split_token rest) as [[token rest']|] eqn:Es; [|done].
  apply split_token_shorter in Es. destruct (directive token) as [[[] v]|]; [| |done].
  all: destruct (in_findings (count_of v)) eqn:Hn; [cbn [ensure mbind result_bind]|apply mission_error].
  all: match goal with |- context [match ?o with Some _ => false | None => true end] => destruct o eqn:? end; [apply mission_error|].
  all: cbn [ensure mbind result_bind]; apply IH; [lia|]; unfold counts_ok in *; cbn [opt_ok] in *; rewrite Hn.
  - by apply andb_true_iff in Hc as [_ ->].
  - by apply andb_true_iff in Hc as [-> _].
Qed.

(** An objective is read or refused, and what is read is bounded: the directive loop
    ends on every text, the repository is a valid slug, the question is at most 2000 code
    units long, and the number of findings the contract asks for lies between 1 and 12,
    with both bounds equal to the count when one was set. *)
Theorem objective_bounded objective :
  match parseMissionObjective objective with
  | Ok o => RepoSlug_ok (mo_repo o) = true ∧ js_length (mo_question o) ≤ 2000 ∧
      1 ≤ minFindings (mo_contract o) ∧ minFindings (mo_contract o) ≤ maxFindings (mo_contract o) ∧
      maxFindings (mo_contract o) ≤ 12 ∧
      requestedFindings (mo_contract o) ∈ [None; Some (minFindings (mo_contract o))] ∧
      (requestedFindings (mo_contract o) = None ∨ minFindings (mo_contract o) = maxFindings (mo_contract o))
  | Throw e => e ≠ out_of_fuel
  end.
Proof.
  unfold parseMissionObjective. destruct (split_token _) as [[repo rest]|]; [|not_fuel].
  destruct (RepoSlug_ok repo) eqn:Hr; [cbn [ensure mbind result_bind]|not_fuel].
  pose proof (directives_spec (S (String.length rest)) rest None None ltac:(lia) eq_refl) as Hd.
  destruct (directives _ _ _ _) as [[[text e] m]|ex]; [cbn [mbind result_bind]|exact Hd].
  match goal with |- context [ensure ?c (js_error "Mission findings= and max-findings= cannot both be set")] =>
    destruct c end; [cbn [ensure mbind result_bind]|not_fuel].
  set (q := if text === EmptyString then _ else _).
  destruct (js_length q <=? 2000) eqn:Hq; [cbn [ensure mbind result_bind]|not_fuel].
  unfold MissionContract_parse, ok_or. set (c := {| requestedFindings := e |}).
  destruct (MissionContract_ok c) eqn:Hc; [|not_fuel]. cbn [ensure mbind result_bind mo_repo mo_question mo_contract].
  unfold MissionContract_ok, in_findings, MISSION_HARD_MAX_FINDINGS in Hc. to_prop. split_and!; try done.
  all: destruct e as [n|]; cbn [requestedFindings minFindings maxFindings opt_ok default] in *; to_prop; subst; set_solver.
Qed.

(** ** A concrete mission *)

Definition sha_a : string := "aaaaaaaaaaaaaaaaaaaaaaaaaaaaaaaaaaaaaaaa".
Definition sha_b : string := "bbbbbbbbbbbbbbbbbbbbbbbbbbbbbbbbbbbbbbbb".

Definition sample_facts : GithubFacts :=
  {| gf_repo := "acme/app"; gf_private := false; gf_defaultBranch := "main"; gf_headSha := sha_a;
     gf_headCommitDate := "2026-09-15T16:00:00.000Z"; gf_headCommitMessage := "m"; gf_language := None; gf_sizeKb := 1;
     gf_pushedAt := None; gf_openIssues := 0;
     gf_tree := [{| ge_path := "README.md"; ge_isBlob := true; ge_sha := sha_b |}]; gf_treeTruncated := false;
     gf_readme := None |}.

Definition sample_analysis : json :=
  JObj [("headSha", JStr sha_a); ("summary", JStr "A small application with one readme.");
        ("findings", JArr [JObj [("title", JStr "Readme"); ("detail", JStr "There is only a readme.");
           ("evidence", JArr [JObj [("path", JStr "README.md"); ("blobSha", JStr "bbbbbbbbbbbb")]])]])].

Definition sample_analysisText : string := stringify sample_analysis.

Definition sample_reviewText : string :=
  stringify (JObj [("reviewedAnalysisSha256", JStr (sha256Text sample_analysisText)); ("verdict", JStr "approve");
                   ("unsupportedFindings", JArr []); ("notes", JArr [])]).

Definition sample_contract : MissionContract := {| requestedFindings := Some 1; minFindings := 1; maxFindings := 1 |}.

Definition sample_reconcile : ReconcileInput :=
  {| ri_facts := sample_facts; ri_contract := sample_contract; ri_analysisText := sample_analysisText;
     ri_analystModel := "anthropic/claude-x"; ri_analystProvider := "openrouter"; ri_reviewText := sample_reviewText;
     ri_reviewerModel := "x-ai/grok-4"; ri_reviewerProvider := "openrouter" |}.

Definition sample_reconciliation : list MissionReconciliation :=
  result_list (reconcileMission ascii_lower sample_reconcile).

Lemma sample_accepted : ∃ rec, reconcileMission ascii_lower sample_reconcile = Ok rec ∧ mc_accepted rec = true.
Proof. eexists. split; [vm_compute; reflexivity|reflexivity]. Qed.

Lemma accepted_mission_grounded_witness : ∃ a r,
  sound_mission ascii_lower sample_facts sample_contract sample_analysisText "anthropic/claude-x"
    sample_reviewText "x-ai/grok-4" a r.
Proof.
  destruct sample_accepted as (rec & Hr & Ha).
  destruct (accepted_mission_grounded ascii_lower sample_reconcile rec Hr Ha) as (facts & a & r & Hf & Hs & _).
  assert (Hf' : GithubFacts_parse (facts_json sample_facts) = Ok sample_facts) by (vm_compute; reflexivity).
  change (ri_facts sample_reconcile) with sample_facts in Hf. rewrite Hf' in Hf. apply Ok_inj in Hf. subst facts.
  exists a, r. exact Hs.
Defined.

Definition sample_object : fields := [("a", JArr [JNum (-7); JStr "x"]); ("b", JNull)].

Lemma runtime_json_roundtrip_witness :
  parseRuntimeJson (fence_open +:+ stringify (JObj sample_object) +:+ fence_close) = Ok (JObj sample_object).
Proof.
  refine (proj2 (runtime_json_roundtrip sample_object _)). constructor.
  - cbn. repeat constructor; set_solver.
  - repeat constructor; cbn; unfold exact_bound; lia.
Defined.

Definition mission_task : Task :=
  let t := sample_task VERIFYING (criteria RepoAnalysisMission) in
  {| task_id := task_id t; task_parentTaskId := None; task_principal := task_principal t;
     task_tenant := task_tenant t; task_objective := "acme/app findings=1 What should we fix first?";
     task_acceptanceCriteria := task_acceptanceCriteria t; task_constraints := []; task_riskClass := LOW;
     task_budget := None; task_deadline := None; task_status := VERIFYING; task_traceId := task_traceId t;
     task_createdAt := task_createdAt t; task_startedAt := None; task_completedAt := None |}.

Definition mission_plans : list ExecutionPlan := result_list (planTask mission_task RepoAnalysisMission).

Definition mission_evidence (n : Z) (node : PlanStep) (type : EvidenceType) (source digest : string)
    (md : fields) : Evidence :=
  {| ev_id := sample_id n; ev_taskId := sample_id 1; ev_stepId := Some (ps_id node); ev_type := type;
     ev_source := source; ev_ref := None; ev_uri := None; ev_digest := Some digest;
     ev_capturedAt := "2026-09-15T16:00:01.000Z"; ev_metadata := md |}.

Definition runtime_md (role subject model text : string) : fields :=
  [("role", JStr role); ("subject_digest", JStr subject); ("response_model", JStr model);
   ("provider", JStr "openrouter"); ("text", JStr text)].

Definition mission_step (node : PlanStep) (output : json) : list TaskStep :=
  map (λ s, {| step_id := step_id s; step_taskId := step_taskId s; step_kind := step_kind s;
     step_status := COMPLETED; step_dependencies := step_dependencies s;
     step_requiredCapabilities := step_requiredCapabilities s; step_riskClass := step_riskClass s;
     step_retryPolicy := step_retryPolicy s; step_timeout := step_timeout s; step_input := step_input s;
     step_output := Some output; step_idempotencyKey := step_idempotencyKey s |}) (result_list (projectStep node)).

Definition mission_outcome : Outcome :=
  {| out_taskId := sample_id 1; out_status := O_COMPLETED;
     out_acceptanceResults := [{| ar_criterion := criteria RepoAnalysisMission; ar_passed := true;
       ar_evidenceRefs := map sample_id [31; 32; 33; 34] |}];
     out_evidenceRefs := map sample_id [34; 31; 32; 33]; out_summary := "Accepted: A small application with one readme.";
     out_completedAt := "2026-09-15T16:00:02.000Z" |}.

(** The persisted rows of the sample mission, given its plan's steps and its reconciliation. *)
Definition mission_rows (nodes : list PlanStep) (rec : MissionReconciliation) : list Evidence * list TaskStep :=
  let fd := capabilityDigest (facts_json sample_facts) in
  let ad := sha256Text sample_analysisText in
  let rd := sha256Text sample_reviewText in
  match nodes, reconciliation_json rec with
  | [n1; n2; n3; n4], JObj md =>
      ([mission_evidence 31 n1 TOOL_RECEIPT SOURCE_github fd
          [("facts", facts_json sample_facts); ("content_sha256", JStr fd); ("head_sha", JStr sha_a)];
        mission_evidence 32 n2 ARTIFACT SOURCE_analyst ad (runtime_md "analyst" fd "anthropic/claude-x" sample_analysisText);
        mission_evidence 33 n3 ARTIFACT SOURCE_reviewer rd (runtime_md "reviewer" ad "x-ai/grok-4" sample_reviewText);
        mission_evidence 34 n4 DETERMINISTIC_RESULT SOURCE_reconcile (capabilityDigest (reconciliation_json rec)) md],
       mission_step n1 (github_output sha_a fd) ++ mission_step n2 (runtime_output ad) ++
       mission_step n3 (runtime_output rd) ++ mission_step n4 (reconcile_output true))
  | _, _ => ([], [])
  end.

Definition case_of (plans : list ExecutionPlan) (recs : list MissionReconciliation)
  : ExecutionPlan * (list Evidence * list TaskStep) :=
  match plans, recs with
  | [plan], [rec] => (plan, match orderedSteps plan with Ok nodes => mission_rows nodes rec | Throw _ => ([], []) end)
  | _, _ => (upper_plan, ([], []))
  end.

Definition mission_case := case_of mission_plans sample_reconciliation.

Lemma mission_verifies :
  verifyMissionCompletion ascii_lower (λ _, true) mission_task mission_outcome mission_case.1
    mission_case.2.2 mission_case.2.1 = Ok tt.
Proof. vm_compute. reflexivity. Qed.

Lemma mission_completion_rederived_witness : ∃ evidence e1 e2 e3 e4 facts objective at_ rt am rm rec a r,
  verified_mission ascii_lower mission_task mission_outcome evidence e1 e2 e3 e4 facts objective at_ rt am rm rec a r.
Proof.
  generalize mission_case mission_verifies. intros c Hc.
  destruct (mission_completion_rederived ascii_lower (λ _, true) mission_task mission_outcome c.1 c.2.2 c.2.1 Hc)
    as (ev & e1 & e2 & e3 & e4 & f & ob & at_ & rt & am & rm & rec & a & r & _ & Hv).
  exists ev, e1, e2, e3, e4, f, ob, at_, rt, am, rm, rec, a, r. exact Hv.
Defined.
