(* ===== verification/Brief.v ===== *)
(** * The morning brief (packages/contracts/src/brief.ts,
    services/kernel/src/mission/brief.ts and verify-brief.ts)

    The brief has the shape of the repository mission: activity facts, an analyst's text, a
    reviewer's text and the kernel's judgement, whose eleven checks are about citations.
    What a reviewer flags is withheld, and the brief still completes when an item is left.
    The prompts and the operator message are in BriefRun.v.  The theorems: what an accepted
    brief establishes, and that the ledger's backstop has made that judgement again from the
    persisted rows. *)

From S2P Require Import Prelude JsNumber JsDate Digest Contracts Plan Capability Json Mission.
Local Open Scope Z_scope.
Local Open Scope js_scope.

(** ** brief.ts (contracts) *)

(** [/^morning brief(?:\s+...{1,200})?$/i] on the trimmed objective: the words, then nothing, or
    white space and a label of at most 200 code units. *)
Definition parseBriefObjective (objective : string) : result string :=
  let text := js_trim objective in
  let fail := Throw (js_error ("A morning brief objective must start with " +:+ json_quote "morning brief")) in
  match strip_prefix (Sha256.string_bytes "morning brief") (Sha256.string_bytes (ascii_lower text)) with
  | None => fail
  | Some _ =>
      let rest := drop 13 (Sha256.string_bytes text) in
      let label := js_trim (bytes_string rest) in
      match rest with
      | [] => Ok EmptyString
      | _ =>
          if bool_decide (first_some (λ p, strip_prefix p rest) js_spaces = None) then fail
          else if js_length label <=? 200 then Ok label else fail
      end
  end.

Definition BRIEF_MAX_ACTIVE_REPOS : Z := 25.
Definition BRIEF_MAX_COMMITS : Z := 20.
Definition BRIEF_MAX_PULLS : Z := 10.
Definition BRIEF_MAX_ITEMS : Z := 12.

Record BriefCommit := { bc_sha : string; bc_date : string; bc_author : string; bc_message : string }.

Record BriefPull := {
  bp_number : Z; bp_title : string; bp_author : string; bp_draft : bool; bp_updatedAt : string
}.

Record BriefCiRun := {
  ci_runId : Z; ci_name : string; ci_status : string; ci_conclusion : option string; ci_headSha : string;
  ci_updatedAt : string
}.

Record BriefActiveRepo := {
  ar_repo : string; ar_private : bool; ar_defaultBranch : string; ar_pushedAt : string;
  ar_commits : list BriefCommit; ar_commitsTruncated : bool; ar_openPulls : option (list BriefPull);
  ar_pullsTruncated : bool; ar_ci : option BriefCiRun
}.

Record GithubActivity := {
  ga_windowStart : string; ga_windowEnd : string; ga_reposVisible : Z; ga_reposVisibleTruncated : bool;
  ga_active : list BriefActiveRepo; ga_activeTruncated : bool
}.

Record TaskCount := { tc_recipe : string; tc_status : string; tc_count : Z }.
Record LastCanary := { lc_taskId : string; lc_status : string; lc_createdAt : string }.
Record KernelState := { ks_tasks : list TaskCount; ks_lastCanary : option LastCanary }.

Record BriefFacts := { bf_github : GithubActivity; bf_githubDigest : string; bf_kernel : KernelState }.

Definition BriefCommit_parse (v : json) : result BriefCommit :=
  fs ← z_strict ["sha"; "date"; "author"; "message"] v;
  sha ← z_field fs "sha" (z_string Sha40_ok);
  date ← z_field fs "date" (z_string Timestamp_ok);
  author ← z_field fs "author" (z_text 0 100);
  message ← z_field fs "message" (z_text 0 200);
  Ok {| bc_sha := sha; bc_date := date; bc_author := author; bc_message := message |}.

Definition commit_json (c : BriefCommit) : json :=
  JObj [("sha", JStr (bc_sha c)); ("date", JStr (bc_date c)); ("author", JStr (bc_author c));
        ("message", JStr (bc_message c))].

Definition BriefPull_parse (v : json) : result BriefPull :=
  fs ← z_strict ["number"; "title"; "author"; "draft"; "updatedAt"] v;
  number ← z_field fs "number" (z_int 1 max_safe);
  title ← z_field fs "title" (z_text 0 200);
  author ← z_field fs "author" (z_text 0 100);
  draft ← z_field fs "draft" z_boolean;
  updated ← z_field fs "updatedAt" (z_string Timestamp_ok);
  Ok {| bp_number := number; bp_title := title; bp_author := author; bp_draft := draft; bp_updatedAt := updated |}.

Definition pull_json (p : BriefPull) : json :=
  JObj [("number", JNum (bp_number p)); ("title", JStr (bp_title p)); ("author", JStr (bp_author p));
        ("draft", JBool (bp_draft p)); ("updatedAt", JStr (bp_updatedAt p))].

Definition BriefCiRun_parse (v : json) : result BriefCiRun :=
  fs ← z_strict ["runId"; "name"; "status"; "conclusion"; "headSha"; "updatedAt"] v;
  runId ← z_field fs "runId" (z_int 1 max_safe);
  name ← z_field fs "name" (z_text 0 200);
  status ← z_field fs "status" (z_text 0 40);
  conclusion ← z_field fs "conclusion" (z_nullable (z_text 0 40));
  head ← z_field fs "headSha" (z_string Sha40_ok);
  updated ← z_field fs "updatedAt" (z_string Timestamp_ok);
  Ok {| ci_runId := runId; ci_name := name; ci_status := status; ci_conclusion := conclusion; ci_headSha := head;
        ci_updatedAt := updated |}.

Definition ci_json (c : BriefCiRun) : json :=
  JObj [("runId", JNum (ci_runId c)); ("name", JStr (ci_name c)); ("status", JStr (ci_status c));
        ("conclusion", opt_json JStr (ci_conclusion c)); ("headSha", JStr (ci_headSha c));
        ("updatedAt", JStr (ci_updatedAt c))].

Definition BriefActiveRepo_parse (v : json) : result BriefActiveRepo :=
  fs ← z_strict ["repo"; "private"; "defaultBranch"; "pushedAt"; "commits"; "commitsTruncated"; "openPulls";
                 "pullsTruncated"; "ci"] v;
  repo ← z_field fs "repo" (z_string RepoSlug_ok);
  private ← z_field fs "private" z_boolean;
  branch ← z_field fs "defaultBranch" (z_text 1 200);
  pushed ← z_field fs "pushedAt" (z_string Timestamp_ok);
  commits ← z_field fs "commits" (z_array 0 BRIEF_MAX_COMMITS BriefCommit_parse);
  commitsTruncated ← z_field fs "commitsTruncated" z_boolean;
  pulls ← z_field fs "openPulls" (z_nullable (z_array 0 BRIEF_MAX_PULLS BriefPull_parse));
  pullsTruncated ← z_field fs "pullsTruncated" z_boolean;
  ci ← z_field fs "ci" (z_nullable BriefCiRun_parse);
  Ok {| ar_repo := repo; ar_private := private; ar_defaultBranch := branch; ar_pushedAt := pushed;
        ar_commits := commits; ar_commitsTruncated := commitsTruncated; ar_openPulls := pulls;
        ar_pullsTruncated := pullsTruncated; ar_ci := ci |}.

Definition repo_json (r : BriefActiveRepo) : json :=
  JObj [("repo", JStr (ar_repo r)); ("private", JBool (ar_private r)); ("defaultBranch", JStr (ar_defaultBranch r));
        ("pushedAt", JStr (ar_pushedAt r)); ("commits", JArr (map commit_json (ar_commits r)));
        ("commitsTruncated", JBool (ar_commitsTruncated r));
        ("openPulls", opt_json (λ l, JArr (map pull_json l)) (ar_openPulls r));
        ("pullsTruncated", JBool (ar_pullsTruncated r)); ("ci", opt_json ci_json (ar_ci r))].

Definition GithubActivity_parse (v : json) : result GithubActivity :=
  fs ← z_strict ["windowStart"; "windowEnd"; "reposVisible"; "reposVisibleTruncated"; "active"; "activeTruncated"] v;
  start ← z_field fs "windowStart" (z_string Timestamp_ok);
  stop ← z_field fs "windowEnd" (z_string Timestamp_ok);
  visible ← z_field fs "reposVisible" (z_int 0 max_safe);
  visibleTruncated ← z_field fs "reposVisibleTruncated" z_boolean;
  active ← z_field fs "active" (z_array 0 BRIEF_MAX_ACTIVE_REPOS BriefActiveRepo_parse);
  truncated ← z_field fs "activeTruncated" z_boolean;
  Ok {| ga_windowStart := start; ga_windowEnd := stop; ga_reposVisible := visible;
        ga_reposVisibleTruncated := visibleTruncated; ga_active := active; ga_activeTruncated := truncated |}.

Definition activity_json (g : GithubActivity) : json :=
  JObj [("windowStart", JStr (ga_windowStart g)); ("windowEnd", JStr (ga_windowEnd g));
        ("reposVisible", JNum (ga_reposVisible g)); ("reposVisibleTruncated", JBool (ga_reposVisibleTruncated g));
        ("active", JArr (map repo_json (ga_active g))); ("activeTruncated", JBool (ga_activeTruncated g))].

Definition TaskCount_parse (v : json) : result TaskCount :=
  fs ← z_strict ["recipe"; "status"; "count"] v;
  recipe ← z_field fs "recipe" (z_text 0 80);
  status ← z_field fs "status" (z_text 0 20);
  count ← z_field fs "count" (z_int 1 max_safe);
  Ok {| tc_recipe := recipe; tc_status := status; tc_count := count |}.

Definition task_count_json (t : TaskCount) : json :=
  JObj [("recipe", JStr (tc_recipe t)); ("status", JStr (tc_status t)); ("count", JNum (tc_count t))].

Definition LastCanary_parse (v : json) : result LastCanary :=
  fs ← z_strict ["taskId"; "status"; "createdAt"] v;
  taskId ← z_field fs "taskId" (z_string Id_ok);
  status ← z_field fs "status" (z_text 0 20);
  created ← z_field fs "createdAt" (z_string Timestamp_ok);
  Ok {| lc_taskId := taskId; lc_status := status; lc_createdAt := created |}.

Definition canary_json (c : LastCanary) : json :=
  JObj [("taskId", JStr (lc_taskId c)); ("status", JStr (lc_status c)); ("createdAt", JStr (lc_createdAt c))].

Definition KernelState_parse (v : json) : result KernelState :=
  fs ← z_strict ["tasks"; "lastCanary"] v;
  tasks ← z_field fs "tasks" (z_array 0 64 TaskCount_parse);
  canary ← z_field fs "lastCanary" (z_nullable LastCanary_parse);
  Ok {| ks_tasks := tasks; ks_lastCanary := canary |}.

Definition kernel_json (k : KernelState) : json :=
  JObj [("tasks", JArr (map task_count_json (ks_tasks k))); ("lastCanary", opt_json canary_json (ks_lastCanary k))].

Definition BriefFacts_parse (v : json) : result BriefFacts :=
  fs ← z_strict ["github"; "githubDigest"; "kernel"] v;
  github ← z_field fs "github" GithubActivity_parse;
  digest ← z_field fs "githubDigest" (z_string Sha256_ok);
  kernel ← z_field fs "kernel" KernelState_parse;
  Ok {| bf_github := github; bf_githubDigest := digest; bf_kernel := kernel |}.

Definition brief_facts_json (f : BriefFacts) : json :=
  JObj [("github", activity_json (bf_github f)); ("githubDigest", JStr (bf_githubDigest f));
        ("kernel", kernel_json (bf_kernel f))].

Record BriefItem := { bi_title : string; bi_detail : string; bi_refs : list string }.
Record BriefAnalysis := { ba_windowEnd : string; ba_headline : string; ba_items : list BriefItem }.

Definition BriefItem_parse (v : json) : result BriefItem :=
  fs ← z_strict ["title"; "detail"; "refs"] v;
  title ← z_field fs "title" (z_trimmed 3 120);
  detail ← z_field fs "detail" (z_trimmed 10 600);
  refs ← z_field fs "refs" (z_array 0 8 (z_text 1 200));
  Ok {| bi_title := title; bi_detail := detail; bi_refs := refs |}.

Definition BriefAnalysis_parse (v : json) : result BriefAnalysis :=
  fs ← z_strict ["windowEnd"; "headline"; "items"] v;
  stop ← z_field fs "windowEnd" (z_string Timestamp_ok);
  headline ← z_field fs "headline" (z_trimmed 10 300);
  items ← z_field fs "items" (z_array 1 BRIEF_MAX_ITEMS BriefItem_parse);
  Ok {| ba_windowEnd := stop; ba_headline := headline; ba_items := items |}.

Definition BRIEF_RECONCILE_CHECKS : list string :=
  ["brief_schema_valid"; "brief_window_matches_evidence"; "brief_items_cited"; "brief_refs_exist_in_evidence";
   "review_schema_valid"; "review_binds_to_analysis"; "analyst_runtime_allowed"; "reviewer_runtime_allowed";
   "reviewer_is_independent"; "review_verdict_acceptable"; "review_leaves_supported_items"].

Record BriefReconciliation := {
  br_accepted : bool; br_checks : list (string * bool); br_itemCount : Z; br_withheldItems : list Z;
  br_factsDigest : string; br_analysisDigest : string; br_reviewDigest : string; br_analystModel : string;
  br_reviewerModel : string; br_independence : Independence
}.

Definition item_index (n : Z) : bool := (0 <=? n) && (n <=? BRIEF_MAX_ITEMS - 1).

Definition BriefReconciliation_ok (r : BriefReconciliation) : bool :=
  (0 <=? br_itemCount r) && (br_itemCount r <=? BRIEF_MAX_ITEMS) &&
  forallb item_index (br_withheldItems r) && (Z.of_nat (length (br_withheldItems r)) <=? BRIEF_MAX_ITEMS) &&
  Sha256_ok (br_factsDigest r) && Sha256_ok (br_analysisDigest r) && Sha256_ok (br_reviewDigest r) &&
  within 0 256 (br_analystModel r) && within 0 256 (br_reviewerModel r) && Independence_ok (br_independence r) &&
  bool_decide ((br_checks r).*1 = BRIEF_RECONCILE_CHECKS) &&
  Bool.eqb (br_accepted r) (forallb snd (br_checks r)).

Definition BriefReconciliation_check (r : BriefReconciliation) : result BriefReconciliation :=
  ensure (BriefReconciliation_ok r) (zod_error "BriefReconciliation");; Ok r.

Definition BriefReconciliation_parse (v : json) : result BriefReconciliation :=
  fs ← z_strict ["decision"; "checks"; "itemCount"; "withheldItems"; "factsDigest"; "analysisDigest"; "reviewDigest";
                 "analystModel"; "reviewerModel"; "independence"] v;
  accepted ← z_field fs "decision" (z_enum decision_names);
  checks ← z_field fs "checks" (z_array 11 11 (check_parse BRIEF_RECONCILE_CHECKS));
  count ← z_field fs "itemCount" (z_int 0 BRIEF_MAX_ITEMS);
  withheld ← z_field fs "withheldItems" (z_array 0 BRIEF_MAX_ITEMS (z_int 0 (BRIEF_MAX_ITEMS - 1)));
  fd ← z_field fs "factsDigest" (z_string Sha256_ok);
  an ← z_field fs "analysisDigest" (z_string Sha256_ok);
  rv ← z_field fs "reviewDigest" (z_string Sha256_ok);
  am ← z_field fs "analystModel" (z_text 0 256);
  rm ← z_field fs "reviewerModel" (z_text 0 256);
  ind ← z_field fs "independence" Independence_parse;
  BriefReconciliation_check
    {| br_accepted := accepted; br_checks := checks; br_itemCount := count; br_withheldItems := withheld;
       br_factsDigest := fd; br_analysisDigest := an; br_reviewDigest := rv; br_analystModel := am;
       br_reviewerModel := rm; br_independence := ind |}.

Definition brief_reconciliation_json (r : BriefReconciliation) : json :=
  JObj [("decision", JStr (decision_word (br_accepted r))); ("checks", checks_json (br_checks r));
        ("itemCount", JNum (br_itemCount r)); ("withheldItems", JArr (map JNum (br_withheldItems r)));
        ("factsDigest", JStr (br_factsDigest r)); ("analysisDigest", JStr (br_analysisDigest r));
        ("reviewDigest", JStr (br_reviewDigest r)); ("analystModel", JStr (br_analystModel r));
        ("reviewerModel", JStr (br_reviewerModel r)); ("independence", independence_json (br_independence r))].

(** ** brief.ts (kernel) *)

Definition BRIEF_SOURCE_facts : string := "kerneljson:github-activity/v1".
Definition BRIEF_SOURCE_reconcile : string := "kerneljson:brief-reconcile/v1".

Definition short (sha : string) : string := slice16 12 sha.

(** [/^\[([^[\]]+)\]$/]: the text inside one pair of brackets. *)
Definition unbracketed (s : string) : string :=
  match String.list_ascii_of_string s with
  | "["%char :: cs =>
      match rev cs with
      | "]"%char :: inner =>
          if negb (bool_decide (inner = [])) && negb (bool_decide ("["%char ∈ inner)) && negb (bool_decide ("]"%char ∈ inner))
          then String.string_of_list_ascii (rev inner) else s
      | _ => s
      end
  | _ => s
  end.

Definition normaliseRef (ref : string) : string := js_trim (unbracketed (js_trim ref)).

Definition repo_refs (r : BriefActiveRepo) : list string :=
  [("repo:" +:+ ar_repo r)] ++
  map (λ c, "commit:" +:+ ar_repo r +:+ "@" +:+ short (bc_sha c)) (ar_commits r) ++
  map (λ p, "pr:" +:+ ar_repo r +:+ "#" +:+ pretty (bp_number p)) (default [] (ar_openPulls r)) ++
  match ar_ci r with Some _ => ["ci:" +:+ ar_repo r] | None => [] end.

(** The set of references the evidence supports, used through membership. *)
Definition briefRefs (facts : BriefFacts) (memoryIds : list string) : list string :=
  ["scan"; "kj:tasks"] ++
  match ks_lastCanary (bf_kernel facts) with Some _ => ["kj:canary"] | None => [] end ++
  concat (map repo_refs (ga_active (bf_github facts))) ++
  map (λ i, "memory:" +:+ slice16 8 i) memoryIds.

Definition parseBrief : string → option BriefAnalysis := tryParse BriefAnalysis_parse.

Record BriefReconcileInput := {
  bri_facts : BriefFacts; bri_memoryIds : list string; bri_analysisText : string; bri_analystModel : string;
  bri_analystProvider : string; bri_reviewText : string; bri_reviewerModel : string; bri_reviewerProvider : string
}.

(** [Date.parse(a) === Date.parse(b)]: a NaN equals nothing. *)
Definition same_instant (a b : string) : bool :=
  match Date_parse a, Date_parse b with Some x, Some y => x =? y | _, _ => false end.

Definition item_supported (r : MissionReview) (i : nat) : bool := negb (bool_decide (Z.of_nat i ∈ mr_unsupported r)).

Section brief.
Context (toLowerCase : string → string).

(** The eleven results, in the order of [BRIEF_RECONCILE_CHECKS]. *)
Definition brief_results (facts : BriefFacts) (input : BriefReconcileInput)
    (brief : option BriefAnalysis) (review : option MissionReview) : list bool :=
  let refs := briefRefs facts (bri_memoryIds input) in
  let items := match brief with Some b => ba_items b | None => [] end in
  let n := length items in
  [match brief with Some _ => true | None => false end;
   if_some brief (λ b, same_instant (ba_windowEnd b) (ga_windowEnd (bf_github facts)));
   if_some brief (λ _, forallb (λ i, negb (bi_refs i === [])) items);
   if_some brief (λ _, forallb (λ i, forallb (λ r, bool_decide (normaliseRef r ∈ refs)) (bi_refs i)) items);
   match review with Some _ => true | None => false end;
   if_some review (λ r, mr_reviewed r === sha256Text (bri_analysisText input));
   runtimeAllowed toLowerCase (bri_analystModel input);
   runtimeAllowed toLowerCase (bri_reviewerModel input);
   negb (sameModel toLowerCase (bri_analystModel input) (bri_reviewerModel input));
   if_some review (λ r, mr_verdict r !== V_reject);
   if_some review (λ r, if_some brief (λ _,
     forallb (λ i, i <? Z.of_nat n) (mr_unsupported r) && existsb (item_supported r) (seq 0 n)))].

Definition num_compare (a b : Z) : Z := a - b.

(** [[...new Set(l)].sort((x, y) => x - y)] *)
Definition sorted_set (l : list Z) : list Z :=
  js_sort num_compare (fold_left (λ s x, if bool_decide (x ∈ s) then s else s ++ [x]) l []).

Definition reconcileBrief (input : BriefReconcileInput) : result BriefReconciliation :=
  facts ← BriefFacts_parse (brief_facts_json (bri_facts input));
  let brief := parseBrief (bri_analysisText input) in
  let review := parseReview (bri_reviewText input) in
  let items := match brief with Some b => ba_items b | None => [] end in
  let checks := zip BRIEF_RECONCILE_CHECKS (brief_results facts input brief review) in
  BriefReconciliation_check
    {| br_accepted := forallb snd checks; br_checks := checks; br_itemCount := Z.of_nat (length items);
       br_withheldItems := match review with Some r => sorted_set (mr_unsupported r) | None => [] end;
       br_factsDigest := capabilityDigest (brief_facts_json facts);
       br_analysisDigest := sha256Text (bri_analysisText input); br_reviewDigest := sha256Text (bri_reviewText input);
       br_analystModel := bri_analystModel input; br_reviewerModel := bri_reviewerModel input;
       br_independence := independence toLowerCase (bri_analystModel input) (bri_analystProvider input)
                            (bri_reviewerModel input) (bri_reviewerProvider input) |}.

(** [new Set(withheldItems).size] *)
Definition set_size (l : list Z) : Z :=
  Z.of_nat (length (fold_left (λ s x, if bool_decide (x ∈ s) then s else s ++ [x]) l [])).

Definition briefHeadline (b : BriefAnalysis) (withheldItems : list Z) : string :=
  let withheld := set_size withheldItems in
  if withheld =? 0 then ba_headline b
  else
    let n := Z.of_nat (length (ba_items b)) in
    pretty (n - withheld) +:+ " of " +:+ pretty n +:+
    " items passed review; the model's headline is not shown because " +:+
    (if withheld =? 1 then "an item was" else "items were") +:+ " withheld.".

Definition briefSummary (b : BriefAnalysis) (withheldItems : list Z) : string :=
  slice16 500 ("Brief accepted: " +:+ briefHeadline b withheldItems).

Definition briefFailedChecks (rec : BriefReconciliation) : list string :=
  (List.filter (λ c, negb c.2) (br_checks rec)).*1.

(** ** verify-brief.ts *)

(** The memory ids of the analyst's evidence.  A context without a list of memories is read as
    none; a list of something else than objects makes the code throw. *)
Definition briefMemoryIds (e : Evidence) : result (list string) :=
  match map_get (ev_metadata e) "memory_context" with
  | Some (JObj ctx) =>
      match map_get ctx "memories" with
      | None | Some JNull => Ok []
      | Some (JArr l) =>
          ids ← map_all (λ m, match m with
            | JNull => Throw (Exn "TypeError" "Cannot read properties of null")
            | JObj fs => Ok (match map_get fs "memory_id" with Some (JStr i) => [i] | _ => [] end)
            | _ => Ok [] end) l;
          Ok (concat ids)
      | Some _ => Throw (Exn "TypeError" "map is not a function")
      end
  | _ => Ok []
  end.

Definition brief_facts_output (factsDigest : string) : json := JObj [("facts_digest", JStr factsDigest)].

Context (url_ok : string → bool).

Definition verifyBriefCompletion (task : Task) (outcome : Outcome) (plan : ExecutionPlan)
    (steps : list TaskStep) (records : list Evidence) : result unit :=
  let who := "Brief" in
  require who (plan_recipe plan === MorningBrief) "wrong recipe";;
  nodes ← orderedSteps plan;
  match nodes with
  | [gather; analyst; reviewer; reconcile] =>
      evidence ← parse_all (Evidence_parse url_ok) records;
      e1 ← one_evidence who evidence (ps_id gather) TOOL_RECEIPT BRIEF_SOURCE_facts;
      e2 ← one_evidence who evidence (ps_id analyst) ARTIFACT SOURCE_analyst;
      e3 ← one_evidence who evidence (ps_id reviewer) ARTIFACT SOURCE_reviewer;
      e4 ← one_evidence who evidence (ps_id reconcile) DETERMINISTIC_RESULT BRIEF_SOURCE_reconcile;
      facts ← z_field (ev_metadata e1) "facts" BriefFacts_parse;
      let factsDigest := capabilityDigest (brief_facts_json facts) in
      require who ((ev_digest e1 === Some factsDigest) && meta_is e1 "content_sha256" factsDigest)
        "facts digest mismatch";;
      activity ← GithubActivity_parse (activity_json (bf_github facts));
      require who (capabilityDigest (activity_json activity) === bf_githubDigest facts)
        "github activity digest mismatch";;
      analysisText ← runtime_text who e2;
      reviewText ← runtime_text who e3;
      require who (meta_is e2 "role" "analyst" && meta_is e2 "subject_digest" factsDigest)
        "analyst evidence is not bound to the facts";;
      require who (meta_is e3 "role" "reviewer" &&
                   match ev_digest e2 with Some g => meta_is e3 "subject_digest" g | None => false end)
        "reviewer evidence is not bound to the brief";;
      memoryIds ← briefMemoryIds e2;
      analystModel ← md_string who "response_model" "response_model" true e2;
      analystProvider ← md_string who "provider" "provider" true e2;
      reviewerModel ← md_string who "response_model" "response_model" true e3;
      reviewerProvider ← md_string who "provider" "provider" true e3;
      recomputed ← reconcileBrief
        {| bri_facts := facts; bri_memoryIds := memoryIds; bri_analysisText := analysisText;
           bri_analystModel := analystModel; bri_analystProvider := analystProvider; bri_reviewText := reviewText;
           bri_reviewerModel := reviewerModel; bri_reviewerProvider := reviewerProvider |};
      persisted ← BriefReconciliation_parse (JObj (ev_metadata e4));
      let recDigest := capabilityDigest (brief_reconciliation_json recomputed) in
      require who ((capabilityDigest (brief_reconciliation_json persisted) === recDigest) &&
                   (ev_digest e4 === Some recDigest))
        "persisted reconciliation does not match the recomputed one";;
      require who (br_accepted recomputed) "reconciliation did not accept the brief";;
      verify_outputs who steps
        [(gather, brief_facts_output factsDigest);
         (analyst, runtime_output (default EmptyString (ev_digest e2)));
         (reviewer, runtime_output (default EmptyString (ev_digest e3)));
         (reconcile, reconcile_output (br_accepted recomputed))];;
      require who (match parseBrief analysisText with
                   | Some b => out_summary outcome === briefSummary b (br_withheldItems recomputed)
                   | None => false end)
        "outcome summary is not the verified one";;
      require who (same_evidence outcome [e1; e2; e3; e4]) "outcome evidence set mismatch";;
      assertCompletion task outcome [e1; e2; e3; e4]
  | _ => fail who "unexpected plan shape"
  end.
End brief.

(** ** Properties *)

(** *** The persisted facts are read back *)

Lemma BriefCommit_rereads : rereads BriefCommit_parse commit_json.
Proof. reread_object BriefCommit_parse commit_json. Qed.
#[local] Hint Resolve BriefCommit_rereads : rereads.
Lemma BriefPull_rereads : rereads BriefPull_parse pull_json.
Proof. reread_object BriefPull_parse pull_json. Qed.
#[local] Hint Resolve BriefPull_rereads : rereads.
Lemma BriefCiRun_rereads : rereads BriefCiRun_parse ci_json.
Proof. reread_object BriefCiRun_parse ci_json. Qed.
#[local] Hint Resolve BriefCiRun_rereads : rereads.
Lemma BriefActiveRepo_rereads : rereads BriefActiveRepo_parse repo_json.
Proof. reread_object BriefActiveRepo_parse repo_json. Qed.
#[local] Hint Resolve BriefActiveRepo_rereads : rereads.
Lemma GithubActivity_rereads : rereads GithubActivity_parse activity_json.
Proof. reread_object GithubActivity_parse activity_json. Qed.
#[local] Hint Resolve GithubActivity_rereads : rereads.
Lemma TaskCount_rereads : rereads TaskCount_parse task_count_json.
Proof. reread_object TaskCount_parse task_count_json. Qed.
#[local] Hint Resolve TaskCount_rereads : rereads.
Lemma LastCanary_rereads : rereads LastCanary_parse canary_json.
Proof. reread_object LastCanary_parse canary_json. Qed.
#[local] Hint Resolve LastCanary_rereads : rereads.
Lemma KernelState_rereads : rereads KernelState_parse kernel_json.
Proof. reread_object KernelState_parse kernel_json. Qed.
#[local] Hint Resolve KernelState_rereads : rereads.
Lemma BriefFacts_rereads : rereads BriefFacts_parse brief_facts_json.
Proof. reread_object BriefFacts_parse brief_facts_json. Qed.
#[local] Hint Resolve BriefFacts_rereads : rereads.

Section accepted.
Context (toLowerCase : string → string) (url_ok : string → bool).

(** What the kernel's judgement requires of a brief and of its review. *)
Definition sound_brief (facts : BriefFacts) (memoryIds : list string)
    (analysisText analystModel reviewText reviewerModel : string) (b : BriefAnalysis) (r : MissionReview) : Prop :=
  parseBrief analysisText = Some b ∧
  same_instant (ba_windowEnd b) (ga_windowEnd (bf_github facts)) = true ∧
  Forall (λ i, bi_refs i ≠ [] ∧ ∀ ref, ref ∈ bi_refs i → normaliseRef ref ∈ briefRefs facts memoryIds) (ba_items b) ∧
  parseReview reviewText = Some r ∧ mr_reviewed r = sha256Text analysisText ∧ mr_verdict r ≠ V_reject ∧
  Forall (λ i, i < Z.of_nat (length (ba_items b))) (mr_unsupported r) ∧
  (∃ i : nat, (i < length (ba_items b))%nat ∧ Z.of_nat i ∉ mr_unsupported r) ∧
  modelFamily toLowerCase analystModel ∈ MISSION_RUNTIME_FAMILIES ∧
  modelFamily toLowerCase reviewerModel ∈ MISSION_RUNTIME_FAMILIES ∧
  modelSlug toLowerCase analystModel ≠ modelSlug toLowerCase reviewerModel.

Lemma brief_results_sound facts input :
  let b := parseBrief (bri_analysisText input) in let r := parseReview (bri_reviewText input) in
  forallb id (brief_results toLowerCase facts input b r) = true →
  ∃ b' r', sound_brief facts (bri_memoryIds input) (bri_analysisText input) (bri_analystModel input)
    (bri_reviewText input) (bri_reviewerModel input) b' r' ∧ b = Some b' ∧ r = Some r'.
Proof.
  cbv zeta. unfold sound_brief. set (pb := parseBrief _). set (pr := parseReview _). clearbody pb pr.
  unfold brief_results. cbn [forallb id]. intros H.
  destruct pb as [b|]; [|done]. destruct pr as [r|]; [|by rewrite !andb_false_r in H].
  cbn [if_some] in H. unfold runtimeAllowed, sameModel in H. to_prop. exists b, r. split; [|done]. split_and!; try done.
  - rewrite forallb_forall in *. apply Forall_forall. intros i Hi%list_elem_of_In.
    repeat match goal with Hx : ∀ x, In x (ba_items b) → _ = true |- _ => specialize (Hx i Hi) end. to_prop.
    split; [done|]. intros ref Href%list_elem_of_In. rewrite forallb_forall in *.
    match goal with Hx : ∀ x, In x (bi_refs i) → _ = true |- _ => specialize (Hx ref Href) end. by to_prop.
  - rewrite forallb_forall in *. apply Forall_forall. intros i Hi%list_elem_of_In.
    match goal with Hx : ∀ x, In x (mr_unsupported r) → _ = true |- _ => specialize (Hx i Hi) end. by to_prop.
  - match goal with Hx : existsb _ _ = true |- _ => apply existsb_exists in Hx as (i & Hi%in_seq & Hs) end.
    unfold item_supported in Hs. to_prop. exists i. split; [lia|done].
Qed.

Lemma reconcileBrief_ok input rec :
  reconcileBrief toLowerCase input = Ok rec → br_accepted rec = true →
  ∃ facts b r, BriefFacts_parse (brief_facts_json (bri_facts input)) = Ok facts ∧
    sound_brief facts (bri_memoryIds input) (bri_analysisText input) (bri_analystModel input)
      (bri_reviewText input) (bri_reviewerModel input) b r ∧
    br_withheldItems rec = sorted_set (mr_unsupported r).
Proof.
  unfold reconcileBrief. intros (facts & Hf & H)%bind_ok. cbv zeta in H. unfold BriefReconciliation_check in H.
  apply ensure_ok in H as [_ <-%Ok_inj]. cbn [br_accepted br_withheldItems]. rewrite forallb_zip by done.
  intros (b & r & Hs & _ & Hr)%brief_results_sound. rewrite Hr. by exists facts, b, r.
Qed.

(** What stands behind a brief the backstop lets complete. *)
Record verified_brief (task : Task) (outcome : Outcome) (evidence : list Evidence) (e1 e2 e3 e4 : Evidence)
    (facts : BriefFacts) (memoryIds : list string) (analysisText reviewText analystModel reviewerModel : string)
    (rec : BriefReconciliation) (b : BriefAnalysis) (r : MissionReview) : Prop := {
  vb_rows : Forall (λ e, e ∈ evidence) [e1; e2; e3; e4];
  vb_facts : ev_digest e1 = Some (capabilityDigest (brief_facts_json facts)) ∧
             bf_githubDigest facts = capabilityDigest (activity_json (bf_github facts));
  vb_memory : briefMemoryIds e2 = Ok memoryIds;
  vb_analysis : map_get (ev_metadata e2) "text" = Some (JStr analysisText) ∧ ev_digest e2 = Some (sha256Text analysisText);
  vb_review : map_get (ev_metadata e3) "text" = Some (JStr reviewText) ∧ ev_digest e3 = Some (sha256Text reviewText);
  vb_models : map_get (ev_metadata e2) "response_model" = Some (JStr analystModel) ∧
              map_get (ev_metadata e3) "response_model" = Some (JStr reviewerModel);
  vb_judged : sound_brief facts memoryIds analysisText analystModel reviewText reviewerModel b r;
  vb_recorded : br_accepted rec = true ∧ ev_digest e4 = Some (capabilityDigest (brief_reconciliation_json rec));
  vb_summary : out_summary outcome = briefSummary b (sorted_set (mr_unsupported r));
  vb_cited : Permutation (out_evidenceRefs outcome) (map ev_id [e1; e2; e3; e4]);
  vb_asserted : assertCompletion task outcome [e1; e2; e3; e4] = Ok tt
}.

Lemma verifyBriefCompletion_ok task outcome plan steps records :
  verifyBriefCompletion toLowerCase url_ok task outcome plan steps records = Ok tt →
  ∃ evidence e1 e2 e3 e4 facts ids at_ rt am rm rec b r,
    parse_all (Evidence_parse url_ok) records = Ok evidence ∧
    verified_brief task outcome evidence e1 e2 e3 e4 facts ids at_ rt am rm rec b r.
Proof.
  unfold verifyBriefCompletion. intros [_ H]%require_ok. apply bind_ok in H as (nodes & _ & H).
  destruct nodes as [|n1 [|n2 [|n3 [|n4 [|]]]]]; try done.
  apply bind_ok in H as (evidence & Hev & H).
  apply bind_ok in H as (e1 & (Hi1 & _)%one_evidence_elem & H).
  apply bind_ok in H as (e2 & (Hi2 & _)%one_evidence_elem & H).
  apply bind_ok in H as (e3 & (Hi3 & _)%one_evidence_elem & H).
  apply bind_ok in H as (e4 & (Hi4 & _)%one_evidence_elem & H).
  apply bind_ok in H as (facts & Hf & H). apply z_field_ok in Hf as [v Hf].
  apply require_ok in H as [Hd H]. apply bind_ok in H as (activity & Hact & H). apply require_ok in H as [Hg H].
  assert (activity = bf_github facts) as ->.
  { unfold BriefFacts_parse in Hf. apply bind_ok in Hf as (fs & _ & Hf). apply bind_ok in Hf as (g & Hgp & Hf).
    apply z_field_ok in Hgp as [w Hgp]. apply GithubActivity_rereads in Hgp.
    apply bind_ok in Hf as (dg & _ & Hf). apply bind_ok in Hf as (k & _ & <-%Ok_inj).
    cbn [bf_github] in Hact. rewrite Hgp in Hact. by apply Ok_inj in Hact. }
  apply BriefFacts_rereads in Hf.
  apply bind_ok in H as (at_ & Ha%runtime_text_ok & H). apply bind_ok in H as (rt & Hrt%runtime_text_ok & H).
  apply require_ok in H as [_ H]. apply require_ok in H as [_ H]. apply bind_ok in H as (ids & Hids & H).
  apply bind_ok in H as (am & Ham%md_string_ok & H). apply bind_ok in H as (ap & _ & H).
  apply bind_ok in H as (rm & Hrm%md_string_ok & H). apply bind_ok in H as (rp & _ & H).
  apply bind_ok in H as (rec & Hrec & H). apply bind_ok in H as (persisted & _ & H).
  apply require_ok in H as [Hp H]. apply require_ok in H as [Hacc H]. apply bind_ok in H as ([] & _ & H).
  apply require_ok in H as [Hsum H]. apply require_ok in H as [Hcited%same_evidence_perm H].
  destruct (reconcileBrief_ok _ _ Hrec Hacc) as (facts' & b & r & Hf' & Hs & Hw).
  cbn [bri_facts bri_memoryIds bri_analysisText bri_analystModel bri_reviewText bri_reviewerModel] in Hf', Hs.
  rewrite Hf in Hf'. apply Ok_inj in Hf' as <-.
  exists evidence, e1, e2, e3, e4, facts, ids, at_, rt, am, rm, rec, b, r. split; [done|]. to_prop.
  destruct Hs as [Hpb Hs]. rewrite Hpb, Hw in Hsum. to_prop. split; try done; by repeat constructor.
Qed.

Lemma brief_verifier_sound : verifier_sound (verifyBriefCompletion toLowerCase url_ok).
Proof.
  intros task o p steps records
    (ev & e1 & e2 & e3 & e4 & f & ids & at_ & rt & am & rm & rec & b & r & Hp & Hv)%verifyBriefCompletion_ok.
  exists [e1; e2; e3; e4]. split; [|apply (vb_asserted _ _ _ _ _ _ _ _ _ _ _ _ _ _ _ _ Hv)].
  apply (rests_on_sub _ ev); [|by apply (parsed_rests_on url_ok)].
  pose proof (vb_rows _ _ _ _ _ _ _ _ _ _ _ _ _ _ _ _ Hv) as Hr. by rewrite Forall_forall in Hr.
Qed.

(** C13: nothing uncited or unreviewed is delivered as a brief.  When the ledger's backstop
    lets a brief complete, the persisted rows carry facts and texts that hash to their
    recorded digests, and the judgement made again from them accepted the brief: it is about
    the window of the facts, every item cites references the evidence supports, another model
    has reviewed this very text without rejecting it, what it flagged are items of the brief,
    and at least one item is left.  The outcome's summary hides the headline when one is withheld. *)
Theorem brief_completion_rederived task outcome plan steps records :
  verifyBriefCompletion toLowerCase url_ok task outcome plan steps records = Ok tt →
  ∃ evidence e1 e2 e3 e4 facts memoryIds analysisText reviewText analystModel reviewerModel rec b r,
    parse_all (Evidence_parse url_ok) records = Ok evidence ∧
    verified_brief task outcome evidence e1 e2 e3 e4 facts memoryIds analysisText reviewText
      analystModel reviewerModel rec b r.
Proof. apply verifyBriefCompletion_ok. Qed.
End accepted.

(** ** A concrete brief *)

Definition sample_activity : GithubActivity :=
  {| ga_windowStart := "2026-09-14T16:00:00.000Z"; ga_windowEnd := "2026-09-15T16:00:00.000Z"; ga_reposVisible := 1;
     ga_reposVisibleTruncated := false;
     ga_active := [{| ar_repo := "acme/app"; ar_private := false; ar_defaultBranch := "main";
       ar_pushedAt := "2026-09-15T12:00:00.000Z";
       ar_commits := [{| bc_sha := sha_a; bc_date := "2026-09-15T12:00:00.000Z"; bc_author := "j"; bc_message := "fix" |}];
       ar_commitsTruncated := false; ar_openPulls := None; ar_pullsTruncated := false; ar_ci := None |}];
     ga_activeTruncated := false |}.

Definition sample_brief_facts : BriefFacts :=
  {| bf_github := sample_activity; bf_githubDigest := capabilityDigest (activity_json sample_activity);
     bf_kernel := {| ks_tasks := []; ks_lastCanary := None |} |}.

Definition sample_briefText : string :=
  stringify (JObj [("windowEnd", JStr "2026-09-15T16:00:00.000Z"); ("headline", JStr "One fix landed.");
    ("items", JArr [
      JObj [("title", JStr "Fix in app"); ("detail", JStr "A fix was committed."); ("refs", JArr [JStr "[commit:acme/app@aaaaaaaaaaaa]"])];
      JObj [("title", JStr "Quiet day"); ("detail", JStr "Nothing else moved."); ("refs", JArr [JStr "scan"])]])]).

Definition sample_briefReview : string :=
  stringify (JObj [("reviewedAnalysisSha256", JStr (sha256Text sample_briefText)); ("verdict", JStr "approve_with_notes");
                   ("unsupportedFindings", JArr [JNum 1]); ("notes", JArr [])]).

Definition brief_task : Task :=
  let t := sample_task VERIFYING (criteria MorningBrief) in
  {| task_id := task_id t; task_parentTaskId := None; task_principal := task_principal t;
     task_tenant := task_tenant t; task_objective := "morning brief";
     task_acceptanceCriteria := task_acceptanceCriteria t; task_constraints := []; task_riskClass := LOW;
     task_budget := None; task_deadline := None; task_status := VERIFYING; task_traceId := task_traceId t;
     task_createdAt := task_createdAt t; task_startedAt := None; task_completedAt := None |}.

Definition brief_outcome : Outcome :=
  {| out_taskId := sample_id 1; out_status := O_COMPLETED;
     out_acceptanceResults := [{| ar_criterion := criteria MorningBrief; ar_passed := true;
       ar_evidenceRefs := map sample_id [31; 32; 33; 34] |}];
     out_evidenceRefs := map sample_id [31; 32; 33; 34];
     out_summary := "Brief accepted: 1 of 2 items passed review; the model's headline is not shown because an item was withheld.";
     out_completedAt := "2026-09-15T16:00:02.000Z" |}.

Definition brief_rows (nodes : list PlanStep) (rec : BriefReconciliation) : list Evidence * list TaskStep :=
  let fd := capabilityDigest (brief_facts_json sample_brief_facts) in
  let ad := sha256Text sample_briefText in
  let rd := sha256Text sample_briefReview in
  match nodes, brief_reconciliation_json rec with
  | [n1; n2; n3; n4], JObj md =>
      ([mission_evidence 31 n1 TOOL_RECEIPT BRIEF_SOURCE_facts fd
          [("facts", brief_facts_json sample_brief_facts); ("content_sha256", JStr fd)];
        mission_evidence 32 n2 ARTIFACT SOURCE_analyst ad (runtime_md "analyst" fd "deepseek-v4-pro" sample_briefText);
        mission_evidence 33 n3 ARTIFACT SOURCE_reviewer rd (runtime_md "reviewer" ad "x-ai/grok-4" sample_briefReview);
        mission_evidence 34 n4 DETERMINISTIC_RESULT BRIEF_SOURCE_reconcile (capabilityDigest (brief_reconciliation_json rec)) md],
       mission_step n1 (brief_facts_output fd) ++ mission_step n2 (runtime_output ad) ++
       mission_step n3 (runtime_output rd) ++ mission_step n4 (reconcile_output true))
  | _, _ => ([], [])
  end.

Definition brief_case_of (plans : list ExecutionPlan) (recs : list BriefReconciliation)
  : ExecutionPlan * (list Evidence * list TaskStep) :=
  match plans, recs with
  | [plan], [rec] => (plan, match orderedSteps plan with Ok nodes => brief_rows nodes rec | Throw _ => ([], []) end)
  | _, _ => (upper_plan, ([], []))
  end.

Definition brief_case :=
  brief_case_of (result_list (planTask brief_task MorningBrief)) (result_list (reconcileBrief ascii_lower
    {| bri_facts := sample_brief_facts; bri_memoryIds := []; bri_analysisText := sample_briefText;
       bri_analystModel := "deepseek-v4-pro"; bri_analystProvider := "openrouter"; bri_reviewText := sample_briefReview;
       bri_reviewerModel := "x-ai/grok-4"; bri_reviewerProvider := "openrouter" |})).

Lemma brief_verifies :
  verifyBriefCompletion ascii_lower (λ _, true) brief_task brief_outcome brief_case.1
    brief_case.2.2 brief_case.2.1 = Ok tt.
Proof. vm_compute. reflexivity. Qed.

Lemma brief_completion_rederived_witness : ∃ evidence e1 e2 e3 e4 facts ids at_ rt am rm rec b r,
  verified_brief ascii_lower brief_task brief_outcome evidence e1 e2 e3 e4 facts ids at_ rt am rm rec b r.
Proof.
  generalize brief_case brief_verifies. intros c Hc.
  destruct (brief_completion_rederived ascii_lower (λ _, true) brief_task brief_outcome c.1 c.2.2 c.2.1 Hc)
    as (ev & e1 & e2 & e3 & e4 & f & ids & at_ & rt & am & rm & rec & b & r & _ & Hv).
  exists ev, e1, e2, e3, e4, f, ids, at_, rt, am, rm, rec, b, r. exact Hv.
Defined.
