(* ===== verification/Policy.v ===== *)
(** * Policy evaluation (services/kernel/src/policy.ts, packages/contracts/src/policy-gate.ts)

    The rule set and its two refinements, the evaluation record and its
    refinement, and [evaluatePolicy].  The theorems: the gate is default-deny
    (an ALLOW has a matching rule, a bound scope and a supported LOW-risk
    capability), its decision does not depend on the order of the rules, and
    it always returns an evaluation whose approval fields are well formed. *)

From S2P Require Import Prelude JsNumber JsDate Digest Contracts Plan Capability.
Local Open Scope Z_scope.
Local Open Scope js_scope.

Inductive Decision := ALLOW | DENY | APPROVAL_NEEDED.

#[export] Instance Decision_eq_dec : EqDecision Decision.
Proof. solve_decision. Defined.

(** ** Rules *)

Record PolicyRule := {
  rule_tenantId : string;
  rule_principalId : string;
  rule_capability : CapabilityRef;
  rule_effect : Decision;
  rule_approver : option PrincipalRef;
  rule_ttlMs : option Z
}.

Record PolicyRules := { rules_version : string; rules_rules : list PolicyRule }.

Definition is_human (p : option PrincipalRef) : bool :=
  match p with Some a => principal_kind a === HUMAN | None => false end.

(** The [superRefine] of a rule: no issue.  [!r.ttlMs] also catches 0. *)
Definition PolicyRule_refined (r : PolicyRule) : bool :=
  negb (if rule_effect r === APPROVAL_NEEDED
        then negb (is_human (rule_approver r)) || bool_decide (from_option id 0 (rule_ttlMs r) = 0)
        else (rule_approver r !== None) || (rule_ttlMs r !== None)).

Definition PolicyRule_parse (r : PolicyRule) : result PolicyRule :=
  ok_or (Id_ok (rule_tenantId r) && Id_ok (rule_principalId r)) "rule ids";;
  cap ← CapabilityRef_parse (rule_capability r);
  ok_or (opt_ok (λ p, Id_ok (principal_id p)) (rule_approver r)) "approver";;
  ok_or (opt_ok (λ t, (100 <=? t) && (t <=? 86400000)) (rule_ttlMs r)) "ttlMs";;
  ok_or (PolicyRule_refined r) "Invalid approval rule";;
  Ok {| rule_tenantId := rule_tenantId r; rule_principalId := rule_principalId r;
        rule_capability := cap; rule_effect := rule_effect r; rule_approver := rule_approver r;
        rule_ttlMs := rule_ttlMs r |}.

Definition rule_key (r : PolicyRule) : string :=
  rule_tenantId r +:+ ":" +:+ rule_principalId r +:+ ":" +:+
  cap_id (rule_capability r) +:+ "@" +:+ cap_version (rule_capability r).

Definition PolicyRules_parse (p : PolicyRules) : result PolicyRules :=
  ok_or (rules_version p !== EmptyString) "version";;
  rules ← parse_all PolicyRule_parse (rules_rules p);
  ok_or (bool_decide (length (to_set (map rule_key rules)) = length rules)) "Ambiguous policy rules";;
  Ok {| rules_version := rules_version p; rules_rules := rules |}.

(** ** The evaluation record *)

Record PolicyScope := {
  scope_taskId : string;
  scope_stepId : string;
  scope_tenantId : string;
  scope_principal : PrincipalRef;
  scope_trace : TraceRef;
  scope_capability : CapabilityRef;
  scope_invocationDigest : string;
  scope_descriptorDigest : string;
  scope_policyVersion : string
}.

Record PolicyDecision := {
  pd_id : string;
  pd_taskId : string;
  pd_stepId : option string;
  pd_capability : CapabilityRef;
  pd_decision : Decision;
  pd_reasonCode : string;
  pd_evaluatedAt : string;
  pd_policyVersion : string
}.

Record PolicyEvaluation := {
  pe_decision : PolicyDecision;
  pe_scope : PolicyScope;
  pe_scopeDigest : string;
  pe_approver : option PrincipalRef;
  pe_expiresAt : option string
}.

Definition PolicyScope_parse (s : PolicyScope) : result PolicyScope :=
  ok_or (Id_ok (scope_taskId s) && Id_ok (scope_stepId s) && Id_ok (scope_tenantId s)
         && Id_ok (principal_id (scope_principal s))) "scope ids";;
  trace ← TraceRef_parse (scope_trace s);
  cap ← CapabilityRef_parse (scope_capability s);
  ok_or (Digest_ok (scope_invocationDigest s) && Digest_ok (scope_descriptorDigest s)
         && (scope_policyVersion s !== EmptyString)) "scope digests";;
  Ok {| scope_taskId := scope_taskId s; scope_stepId := scope_stepId s;
        scope_tenantId := scope_tenantId s; scope_principal := scope_principal s;
        scope_trace := trace; scope_capability := cap;
        scope_invocationDigest := scope_invocationDigest s;
        scope_descriptorDigest := scope_descriptorDigest s;
        scope_policyVersion := scope_policyVersion s |}.

Definition PolicyDecision_parse (d : PolicyDecision) : result PolicyDecision :=
  ok_or (Id_ok (pd_id d) && Id_ok (pd_taskId d) && opt_ok Id_ok (pd_stepId d)) "decision ids";;
  cap ← CapabilityRef_parse (pd_capability d);
  reason ← Text_parse (pd_reasonCode d);
  ok_or (Timestamp_ok (pd_evaluatedAt d)) "evaluatedAt";;
  version ← Text_parse (pd_policyVersion d);
  Ok {| pd_id := pd_id d; pd_taskId := pd_taskId d; pd_stepId := pd_stepId d;
        pd_capability := cap; pd_decision := pd_decision d; pd_reasonCode := reason;
        pd_evaluatedAt := pd_evaluatedAt d; pd_policyVersion := version |}.

(** The two tests of the [superRefine], each as "no issue". *)
Definition PolicyEvaluation_scoped (e : PolicyEvaluation) : bool :=
  let d := pe_decision e in let s := pe_scope e in
  negb ((pd_taskId d !== scope_taskId s) || (pd_stepId d !== Some (scope_stepId s)) ||
        (pd_policyVersion d !== scope_policyVersion s) ||
        (cap_id (pd_capability d) !== cap_id (scope_capability s)) ||
        (cap_version (pd_capability d) !== cap_version (scope_capability s))).

Definition PolicyEvaluation_approval (e : PolicyEvaluation) : bool :=
  if pd_decision (pe_decision e) === APPROVAL_NEEDED then
    negb (negb (is_human (pe_approver e)) ||
          match pe_expiresAt e with
          | None => true
          | Some x => date_le x (pd_evaluatedAt (pe_decision e))
          end)
  else negb ((pe_approver e !== None) || (pe_expiresAt e !== None)).

Definition PolicyEvaluation_parse (e : PolicyEvaluation) : result PolicyEvaluation :=
  d ← PolicyDecision_parse (pe_decision e);
  s ← PolicyScope_parse (pe_scope e);
  ok_or (Digest_ok (pe_scopeDigest e) && opt_ok (λ p, Id_ok (principal_id p)) (pe_approver e)
         && opt_ok Timestamp_ok (pe_expiresAt e)) "evaluation fields";;
  let e' := {| pe_decision := d; pe_scope := s; pe_scopeDigest := pe_scopeDigest e;
               pe_approver := pe_approver e; pe_expiresAt := pe_expiresAt e |} in
  ok_or (PolicyEvaluation_scoped e') "Decision/scope mismatch";;
  ok_or (PolicyEvaluation_approval e') "approval fields";;
  Ok e'.

Definition scope_json (s : PolicyScope) : json :=
  JObj [("taskId", JStr (scope_taskId s)); ("stepId", JStr (scope_stepId s));
        ("tenantId", JStr (scope_tenantId s)); ("principal", principal_json (scope_principal s));
        ("trace", trace_json (scope_trace s)); ("capability", ref_json (scope_capability s));
        ("invocationDigest", JStr (scope_invocationDigest s));
        ("descriptorDigest", JStr (scope_descriptorDigest s));
        ("policyVersion", JStr (scope_policyVersion s))].

(** ** [evaluatePolicy] *)

Definition policy_bound (task : Task) (step : TaskStep) (invocation : CapabilityInvocation)
    (d : CapabilityDescriptor) : bool :=
  (task_status task === COMPILED) && (step_status step === READY) &&
  (step_taskId step === task_id task) && (inv_taskId invocation === task_id task) &&
  (inv_stepId invocation === step_id step) &&
  (tr_traceId (inv_trace invocation) === task_traceId task) &&
  (capabilityDigest (JArr (map ref_json (step_requiredCapabilities step))) ===
   capabilityDigest (JArr [ref_json (inv_capability invocation)])) &&
  (capabilityDigest (step_input step) === capabilityDigest (inv_input invocation)) &&
  (step_idempotencyKey step === Some (inv_idempotencyKey invocation)) &&
  (meta_id (desc_metadata d) === cap_id (inv_capability invocation)) &&
  (meta_version (desc_metadata d) === cap_version (inv_capability invocation)).

Definition policy_supported (task : Task) (step : TaskStep) (d : CapabilityDescriptor) : bool :=
  (task_riskClass task === LOW) && (step_riskClass step === LOW) &&
  (step_kind step === DETERMINISTIC_FUNCTION) && (meta_riskClass (desc_metadata d) === LOW) &&
  bool_decide (length (meta_permissions (desc_metadata d)) = 0%nat) &&
  (meta_implementationType (desc_metadata d) === DETERMINISTIC).

Definition rule_matches (task : Task) (invocation : CapabilityInvocation) (r : PolicyRule) : bool :=
  (rule_tenantId r === task_tenant task) && (rule_principalId r === principal_id (task_principal task)) &&
  (cap_id (rule_capability r) === cap_id (inv_capability invocation)) &&
  (cap_version (rule_capability r) === cap_version (inv_capability invocation)).

(** The [effect] and [reason] the if-chain assigns. *)
Definition policy_effect (bound supported : bool) (task : Task) (rule : option PolicyRule)
  : Decision * string :=
  if negb bound then (DENY, "SCOPE_MISMATCH")
  else if negb (bool_decide (length (task_constraints task) = 0%nat)) ||
          (task_budget task !== None) || (task_deadline task !== None)
    then (DENY, "UNSUPPORTED_TASK_REQUIREMENTS")
  else if negb supported then (DENY, "UNSUPPORTED_CAPABILITY")
  else match rule with
       | Some r => (rule_effect r, "EXPLICIT_RULE")
       | None => (DENY, "NO_MATCHING_RULE")
       end.

Definition evaluatePolicy (rawRules : PolicyRules) (rawTask : Task) (rawStep : TaskStep)
    (rawInvocation : CapabilityInvocation) (descriptor : CapabilityDescriptor) (pid at_ : string)
  : result PolicyEvaluation :=
  rules ← PolicyRules_parse rawRules;
  task ← Task_parse rawTask;
  step ← TaskStep_parse rawStep;
  invocation ← CapabilityInvocation_parse rawInvocation;
  ok_or (Id_ok pid) "id";;
  ok_or (Timestamp_ok at_) "at";;
  let scope :=
    {| scope_taskId := task_id task; scope_stepId := step_id step; scope_tenantId := task_tenant task;
       scope_principal := task_principal task; scope_trace := inv_trace invocation;
       scope_capability := inv_capability invocation;
       scope_invocationDigest := capabilityDigest (invocation_json invocation);
       scope_descriptorDigest := desc_digest descriptor;
       scope_policyVersion := rules_version rules |} in
  let rule := List.find (rule_matches task invocation) (rules_rules rules) in
  let '(effect, reason) :=
    policy_effect (policy_bound task step invocation descriptor)
      (policy_supported task step descriptor) task rule in
  PolicyEvaluation_parse
    {| pe_decision :=
         {| pd_id := pid; pd_taskId := task_id task; pd_stepId := Some (step_id step);
            pd_capability := inv_capability invocation; pd_decision := effect;
            pd_reasonCode := reason; pd_evaluatedAt := at_; pd_policyVersion := rules_version rules |};
       pe_scope := scope; pe_scopeDigest := capabilityDigest (scope_json scope);
       pe_approver :=
         match rule with
         | Some r => if effect === APPROVAL_NEEDED then rule_approver r else None
         | None => None
         end;
       pe_expiresAt :=
         match rule with
         | Some r => if effect === APPROVAL_NEEDED
             then (λ t, toISOString (t + from_option id 0 (rule_ttlMs r))) <$> Date_parse at_
             else None
         | None => None
         end |}.

(** ** Parsing facts *)

Lemma parse_all_perm {A} (f : A → result A) l1 l2 l1' :
  l1 ≡ₚ l2 → parse_all f l1 = Ok l1' → ∃ l2', parse_all f l2 = Ok l2' ∧ l1' ≡ₚ l2'.
Proof.
  intros Hp. revert l1'. induction Hp as [|x l1 l2 Hp IH|x y l|l1 l2 l3 _ IH1 _ IH2]; intros l1'; cbn [parse_all].
  - intros <-%Ok_inj. by exists [].
  - intros (z & Hz & (zs & Hzs & <-%Ok_inj)%bind_ok)%bind_ok.
    destruct (IH zs Hzs) as (zs' & Hzs' & Hp'). exists (z :: zs').
    rewrite Hz, Hzs'. split; [done|by constructor].
  - intros (b & Hb & (c & (a & Ha & (zs & Hzs & <-%Ok_inj)%bind_ok)%bind_ok & <-%Ok_inj)%bind_ok)%bind_ok.
    exists (a :: b :: zs). rewrite Ha. cbn [mbind result_bind]. rewrite Hb. cbn [mbind result_bind].
    rewrite Hzs. split; [done|constructor].
  - intros H. destruct (IH1 _ H) as (l2' & H2 & Hp2). destruct (IH2 _ H2) as (l3' & H3 & Hp3).
    exists l3'. split; [done|by etrans].
Qed.

Lemma PolicyRule_parse_ok r r' :
  PolicyRule_parse r = Ok r' → PolicyRule_refined r' = true ∧
  opt_ok (λ t, (100 <=? t) && (t <=? 86400000)) (rule_ttlMs r') = true.
Proof.
  unfold PolicyRule_parse, ok_or. intros [_ H]%ensure_ok.
  apply bind_ok in H as (c & _ & H). apply ensure_ok in H as [_ H].
  apply ensure_ok in H as [Ht H]. apply ensure_ok in H as [Hr <-%Ok_inj]. done.
Qed.

Lemma PolicyRules_parse_ok p p' :
  PolicyRules_parse p = Ok p' →
  parse_all PolicyRule_parse (rules_rules p) = Ok (rules_rules p') ∧
  rules_version p' = rules_version p ∧ NoDup (map rule_key (rules_rules p')) ∧
  rules_version p ≠ EmptyString.
Proof.
  unfold PolicyRules_parse, ok_or. intros [Hv H]%ensure_ok.
  apply bind_ok in H as (rs & Hrs & H). apply ensure_ok in H as [Hn <-%Ok_inj].
  to_prop. split_and!; [done|done| |done]. simpl. apply to_set_length_NoDup.
  by rewrite Hn, length_map.
Qed.

(** Two rules of one set that match the same request are the same rule. *)
Lemma rule_matches_key task invocation r :
  rule_matches task invocation r = true →
  rule_key r = task_tenant task +:+ ":" +:+ principal_id (task_principal task) +:+ ":" +:+
    cap_id (inv_capability invocation) +:+ "@" +:+ cap_version (inv_capability invocation).
Proof.
  unfold rule_matches, rule_key. intros H. to_prop. congruence.
Qed.

Lemma find_rule_perm task invocation rs rs' :
  NoDup (map rule_key rs) → rs ≡ₚ rs' →
  List.find (rule_matches task invocation) rs = List.find (rule_matches task invocation) rs'.
Proof.
  intros Hnd Hp.
  assert (Huniq : ∀ r r', r ∈ rs → r' ∈ rs → rule_matches task invocation r = true →
    rule_matches task invocation r' = true → r = r').
  { intros r r' Hr Hr' Hm%rule_matches_key Hm'%rule_matches_key.
    eapply NoDup_map_inj; [exact Hnd|done|done|congruence]. }
  destruct (List.find _ rs) as [r|] eqn:E, (List.find _ rs') as [r'|] eqn:E'; [| | |done].
  - apply find_some in E as [Hr Hm]. apply find_some in E' as [Hr' Hm'].
    rewrite <- list_elem_of_In in Hr, Hr'. rewrite <- Hp in Hr'. f_equal. by apply Huniq.
  - apply find_some in E as [Hr Hm]. eapply find_none in E'; [by erewrite E' in Hm|].
    rewrite <- list_elem_of_In in *. by rewrite <- Hp.
  - apply find_some in E' as [Hr Hm]. eapply find_none in E; [by erewrite E in Hm|].
    rewrite <- list_elem_of_In in *. by rewrite Hp.
Qed.

Lemma PolicyEvaluation_parse_ok e e' :
  PolicyEvaluation_parse e = Ok e' →
  pd_decision (pe_decision e') = pd_decision (pe_decision e) ∧
  pd_evaluatedAt (pe_decision e') = pd_evaluatedAt (pe_decision e) ∧
  pd_taskId (pe_decision e') = pd_taskId (pe_decision e) ∧
  pe_approver e' = pe_approver e ∧ pe_expiresAt e' = pe_expiresAt e ∧
  pe_scopeDigest e' = pe_scopeDigest e ∧
  PolicyEvaluation_scoped e' = true ∧ PolicyEvaluation_approval e' = true ∧
  opt_ok Timestamp_ok (pe_expiresAt e) = true ∧ Timestamp_ok (pd_evaluatedAt (pe_decision e)) = true.
Proof.
  unfold PolicyEvaluation_parse, ok_or. intros (d & Hd & (s & Hs & H)%bind_ok)%bind_ok.
  unfold PolicyDecision_parse, ok_or in Hd. apply ensure_ok in Hd as [_ Hd].
  apply bind_ok in Hd as (? & _ & Hd). apply bind_ok in Hd as (? & _ & Hd).
  apply ensure_ok in Hd as [Hat Hd]. apply bind_ok in Hd as (? & _ & <-%Ok_inj).
  apply ensure_ok in H as [Hf H]. apply ensure_ok in H as [Hsc H]. apply ensure_ok in H as [Hap <-%Ok_inj].
  to_prop. split_and!; done.
Qed.

(** What an evaluation that returned was computed from. *)
Lemma evaluatePolicy_inv rawRules rawTask rawStep rawInv d pid at_ e :
  evaluatePolicy rawRules rawTask rawStep rawInv d pid at_ = Ok e →
  ∃ rules task step inv, let rule := List.find (rule_matches task inv) (rules_rules rules) in
    PolicyRules_parse rawRules = Ok rules ∧ Task_parse rawTask = Ok task ∧
    TaskStep_parse rawStep = Ok step ∧ CapabilityInvocation_parse rawInv = Ok inv ∧
    pd_decision (pe_decision e) =
      (policy_effect (policy_bound task step inv d) (policy_supported task step d) task rule).1 ∧
    pd_evaluatedAt (pe_decision e) = at_ ∧
    pe_approver e = match rule with
      | Some r => if pd_decision (pe_decision e) === APPROVAL_NEEDED then rule_approver r else None
      | None => None end ∧
    pe_expiresAt e = match rule with
      | Some r => if pd_decision (pe_decision e) === APPROVAL_NEEDED
          then (λ t, toISOString (t + from_option id 0 (rule_ttlMs r))) <$> Date_parse at_ else None
      | None => None end ∧
    opt_ok Timestamp_ok (pe_expiresAt e) = true ∧ Timestamp_ok at_ = true ∧
    PolicyEvaluation_approval e = true.
Proof.
  unfold evaluatePolicy. intros (rules & Hr & (task & Ht & (step & Hs & (inv & Hi & H)%bind_ok)%bind_ok)%bind_ok)%bind_ok.
  unfold ok_or in H. apply ensure_ok in H as [_ H]. apply ensure_ok in H as [Hat H].
  exists rules, task, step, inv. cbv zeta in *.
  destruct (policy_effect _ _ _ _) as [eff reason]. cbn [fst].
  apply PolicyEvaluation_parse_ok in H as (Hd & Ha & _ & Hap & Hex & _ & _ & Happ & Hts & _).
  cbn [pe_decision pe_approver pe_expiresAt pd_decision pd_evaluatedAt] in *.
  subst eff. rewrite Hex. split_and!; done.
Qed.

Lemma policy_effect_allow bound supported task rule :
  (policy_effect bound supported task rule).1 ≠ DENY →
  bound = true ∧ supported = true ∧ task_constraints task = [] ∧ task_budget task = None ∧
  task_deadline task = None ∧
  ∃ r, rule = Some r ∧ rule_effect r = (policy_effect bound supported task rule).1.
Proof.
  unfold policy_effect. destruct bound; [|done]. simpl negb. cbv iota.
  destruct (task_constraints task); [|done]. destruct (task_budget task); [done|].
  destruct (task_deadline task); [done|]. destruct supported; [|done]. simpl.
  destruct rule as [r|]; [|done]. intros _. split_and!; try done. by exists r.
Qed.

(** C36: the gate denies by default.  When an evaluation is not DENY, one of the
    rules that parsed names exactly this tenant, principal, capability and
    version and has that effect; the task is COMPILED and unconstrained, the
    step READY and deterministic; the task, the step and the descriptor are LOW
    risk, and the descriptor is that of the capability, deterministic and without
    permissions; and the request is the step's own: the task's step, task and
    trace, the one capability the step requires, its input digest and its
    idempotency key. *)
Theorem evaluatePolicy_default_deny rawRules rawTask rawStep rawInv d pid at_ e :
  evaluatePolicy rawRules rawTask rawStep rawInv d pid at_ = Ok e →
  pd_decision (pe_decision e) ≠ DENY →
  ∃ rules task step inv r,
    PolicyRules_parse rawRules = Ok rules ∧ Task_parse rawTask = Ok task ∧
    TaskStep_parse rawStep = Ok step ∧ CapabilityInvocation_parse rawInv = Ok inv ∧
    r ∈ rules_rules rules ∧ rule_effect r = pd_decision (pe_decision e) ∧
    rule_tenantId r = task_tenant task ∧ rule_principalId r = principal_id (task_principal task) ∧
    rule_capability r = inv_capability inv ∧
    task_status task = COMPILED ∧ task_constraints task = [] ∧ task_budget task = None ∧
    task_deadline task = None ∧ task_riskClass task = LOW ∧
    step_status step = READY ∧ step_kind step = DETERMINISTIC_FUNCTION ∧
    inv_taskId inv = task_id task ∧ inv_stepId inv = step_id step ∧
    step_idempotencyKey step = Some (inv_idempotencyKey inv) ∧
    capabilityDigest (step_input step) = capabilityDigest (inv_input inv) ∧
    meta_riskClass (desc_metadata d) = LOW ∧ meta_permissions (desc_metadata d) = [] ∧
    step_riskClass step = LOW ∧ meta_implementationType (desc_metadata d) = DETERMINISTIC ∧
    step_taskId step = task_id task ∧ tr_traceId (inv_trace inv) = task_traceId task ∧
    capabilityDigest (JArr (map ref_json (step_requiredCapabilities step))) =
      capabilityDigest (JArr [ref_json (inv_capability inv)]) ∧
    meta_id (desc_metadata d) = cap_id (inv_capability inv) ∧
    meta_version (desc_metadata d) = cap_version (inv_capability inv).
Proof.
  intros (rules & task & step & inv & Hr & Ht & Hs & Hi & Hd & _)%evaluatePolicy_inv Hne.
  rewrite Hd in Hne. apply policy_effect_allow in Hne as (Hb & Hsup & Hc & Hbu & Hdl & r & Hf & Heff).
  apply find_some in Hf as [Hin Hm]. apply list_elem_of_In in Hin.
  unfold policy_bound, policy_supported, rule_matches in *. to_prop.
  exists rules, task, step, inv, r.
  assert (rule_capability r = inv_capability inv).
  { destruct (rule_capability r), (inv_capability inv). simpl in *. congruence. }
  split_and!; try done; try congruence; by apply nil_length_inv.
Qed.

(** An approval ticket is well formed.  An evaluation that requires approval
    names the rule's approver, who is a HUMAN, and expires exactly the rule's
    TTL after the evaluation, between 100 ms and a day; any other evaluation has
    neither an approver nor an expiry. *)
Theorem evaluatePolicy_approval rawRules rawTask rawStep rawInv d pid at_ e :
  evaluatePolicy rawRules rawTask rawStep rawInv d pid at_ = Ok e →
  if decide (pd_decision (pe_decision e) = APPROVAL_NEEDED) then
    ∃ a x t ttl, pe_approver e = Some a ∧ principal_kind a = HUMAN ∧
      pe_expiresAt e = Some x ∧ Date_parse at_ = Some t ∧ Date_parse x = Some (t + ttl) ∧
      100 <= ttl <= 86400000
  else pe_approver e = None ∧ pe_expiresAt e = None.
Proof.
  intros (rules & task & step & inv & Hr & Ht & Hs & Hi & Hd & Hev & Hap & Hex & Hts & Hat & Happ)%evaluatePolicy_inv.
  unfold PolicyEvaluation_approval in Happ. case_decide as Hdec.
  - rewrite bool_decide_true in Happ, Hap, Hex by done.
    assert (Hne : pd_decision (pe_decision e) ≠ DENY) by congruence. rewrite Hd in Hne.
    apply policy_effect_allow in Hne as (_ & _ & _ & _ & _ & r & Hf & Heff).
    rewrite Hf in Hap, Hex. apply find_some in Hf as [Hin%list_elem_of_In _].
    apply PolicyRules_parse_ok in Hr as (Hp & _).
    destruct (parse_all_elem _ _ _ _ Hp Hin) as (r0 & _ & Hr0).
    apply PolicyRule_parse_ok in Hr0 as [Href Httl]. unfold PolicyRule_refined in Href.
    rewrite bool_decide_true in Href by congruence. rewrite negb_orb in Happ, Href. to_prop.
    destruct (pe_approver e) as [a|]; [|done]. simpl in *. to_prop.
    destruct (rule_ttlMs r) as [ttl|]; [|done]. simpl in *. to_prop.
    destruct (Date_parse at_) as [t|] eqn:Et.
    2: { unfold Timestamp_ok in Hat. by rewrite Et in Hat. }
    simpl in Hex. rewrite Hex in Hts. simpl in Hts.
    assert (Hrange : iso_range (t + ttl)).
    { apply toISOString_range. unfold Timestamp_ok in Hts.
      by destruct (Date_parse (toISOString (t + ttl))). }
    exists a, (toISOString (t + ttl)), t, ttl.
    split_and!; try done. by apply Date_parse_toISOString.
  - rewrite bool_decide_false in Happ by done. rewrite negb_orb in Happ. to_prop.
    by destruct (pe_approver e), (pe_expiresAt e).
Qed.

(** The order of the rules never matters: two rule sets with the same rules
    in any order give the same evaluation. *)
Theorem evaluatePolicy_rule_order r1 r2 p task step inv d pid at_ :
  PolicyRules_parse r1 = Ok p → rules_version r1 = rules_version r2 →
  rules_rules r1 ≡ₚ rules_rules r2 →
  evaluatePolicy r1 task step inv d pid at_ = evaluatePolicy r2 task step inv d pid at_.
Proof.
  intros H1 Hver Hperm. pose proof (PolicyRules_parse_ok _ _ H1) as (Hp & Hv & Hnd & Hne).
  destruct (parse_all_perm _ _ _ _ Hperm Hp) as (rs2 & Hp2 & Hperm2).
  assert (H2 : PolicyRules_parse r2 = Ok {| rules_version := rules_version p; rules_rules := rs2 |}).
  { unfold PolicyRules_parse, ok_or. rewrite <- Hver, bool_decide_false by done. cbn [negb ensure mbind result_bind].
    rewrite Hp2. cbn [mbind result_bind]. rewrite bool_decide_true; [by rewrite Hv, Hver|].
    rewrite <- (length_map rule_key). apply NoDup_to_set_length. by rewrite <- Hperm2. }
  unfold evaluatePolicy. rewrite H1, H2. cbn [mbind result_bind rules_version rules_rules].
  destruct (Task_parse task) as [t|]; [|done]. cbn [mbind result_bind].
  destruct (TaskStep_parse step) as [s|]; [|done]. cbn [mbind result_bind].
  destruct (CapabilityInvocation_parse inv) as [i|]; [|done]. cbn [mbind result_bind].
  by rewrite (find_rule_perm t i _ _ Hnd Hperm2).
Qed.

(** ** The gate answers *)

Lemma invocation_fields_parse i :
  CapabilityInvocation_parse i = Ok i →
  TraceRef_parse (inv_trace i) = Ok (inv_trace i) ∧
  CapabilityRef_parse (inv_capability i) = Ok (inv_capability i).
Proof.
  unfold CapabilityInvocation_parse, ok_or. intros [_ H]%ensure_ok.
  apply bind_ok in H as (t & Ht & (c & Hc & (k & _ & H%Ok_inj)%bind_ok)%bind_ok).
  rewrite Ht, Hc. by rewrite <- H.
Qed.

Lemma Task_parse_ids t : Task_parse t = Ok t →
  Id_ok (task_id t) = true ∧ Id_ok (task_tenant t) = true ∧ Id_ok (principal_id (task_principal t)) = true.
Proof. unfold Task_parse, ok_or. intros [H _]%ensure_ok. by to_prop. Qed.

Lemma TaskStep_parse_id s : TaskStep_parse s = Ok s → Id_ok (step_id s) = true.
Proof. unfold TaskStep_parse, ok_or. intros [H _]%ensure_ok. by to_prop. Qed.

(** Every effect the if-chain can reach leaves approval fields the schema accepts. *)
Lemma approval_fields_ok rules task step inv d t0 at_ :
  PolicyRules_parse rules = Ok rules → Date_parse at_ = Some t0 →
  iso_range t0 → iso_range (t0 + 86400000) →
  let rule := List.find (rule_matches task inv) (rules_rules rules) in
  let eff := (policy_effect (policy_bound task step inv d) (policy_supported task step d) task rule).1 in
  let ap := match rule with Some r => if eff === APPROVAL_NEEDED then rule_approver r else None | None => None end in
  let ex := match rule with Some r => if eff === APPROVAL_NEEDED
      then (λ t, toISOString (t + from_option id 0 (rule_ttlMs r))) <$> Date_parse at_ else None | None => None end in
  opt_ok (λ p, Id_ok (principal_id p)) ap = true ∧ opt_ok Timestamp_ok ex = true ∧
  (if eff === APPROVAL_NEEDED then is_human ap = true ∧ ∃ x, ex = Some x ∧ date_le x at_ = false
   else ap = None ∧ ex = None).
Proof.
  intros Hp Hat Hr0 Hr1 rule eff.
  destruct (decide (eff = APPROVAL_NEEDED)) as [He|He].
  2: { rewrite bool_decide_false by done. by destruct rule. }
  rewrite bool_decide_true by done.
  assert (Hne : eff ≠ DENY) by congruence. apply policy_effect_allow in Hne as (_ & _ & _ & _ & _ & r & Hf & Heff).
  fold rule in Hf. rewrite Hf. fold eff in Heff.
  pose proof Hf as [Hin%list_elem_of_In _]%find_some.
  apply PolicyRules_parse_ok in Hp as (Hp & _).
  destruct (parse_all_elem _ _ _ _ Hp Hin) as (r1 & _ & Hpr).
  pose proof Hpr as [Href Httl]%PolicyRule_parse_ok. unfold PolicyRule_refined in Href.
  rewrite bool_decide_true in Href by congruence. rewrite negb_orb in Href. to_prop.
  destruct (rule_ttlMs r) as [ttl|]; [|done]. cbn [opt_ok from_option id] in *. to_prop.
  rewrite Hat. cbn [fmap option_fmap option_map opt_ok].
  assert (Hrange : iso_range (t0 + ttl)) by (unfold iso_range in *; lia).
  split_and!; [|by apply toISOString_Timestamp_ok|done|].
  - unfold PolicyRule_parse, ok_or in Hpr. apply ensure_ok in Hpr as [_ Hpr].
    apply bind_ok in Hpr as (c & _ & Hpr). apply ensure_ok in Hpr as [Hap Hpr].
    do 2 (apply ensure_ok in Hpr as [_ Hpr]). apply Ok_inj in Hpr. by rewrite <- Hpr.
  - eexists. split; [done|]. unfold date_le. rewrite Date_parse_toISOString, Hat by done. lia.
Qed.

Lemma evaluatePolicy_answers rules task step inv d pid at_ t0 :
  PolicyRules_parse rules = Ok rules → Text_parse (rules_version rules) = Ok (rules_version rules) →
  Task_parse task = Ok task → TaskStep_parse step = Ok step →
  CapabilityInvocation_parse inv = Ok inv → Id_ok pid = true → Timestamp_ok at_ = true →
  Date_parse at_ = Some t0 → iso_range t0 → iso_range (t0 + 86400000) →
  Digest_ok (desc_digest d) = true →
  ∃ e, evaluatePolicy rules task step inv d pid at_ = Ok e ∧
    (pd_decision (pe_decision e), pd_reasonCode (pe_decision e)) =
    policy_effect (policy_bound task step inv d) (policy_supported task step d) task
      (List.find (rule_matches task inv) (rules_rules rules)).
Proof.
  intros Hp Hv Ht Hs Hi Hid Hat Hat0 Hr0 Hr1 Hdg.
  pose proof (approval_fields_ok rules task step inv d t0 at_ Hp Hat0 Hr0 Hr1) as Happ. cbv zeta in Happ.
  destruct (invocation_fields_parse _ Hi) as [Htr Hcap]. destruct (Task_parse_ids _ Ht) as (Hti & Hte & Hpi).
  pose proof (TaskStep_parse_id _ Hs) as Hsi.
  assert (Hreason : ∀ b s r, Text_parse (policy_effect b s task r).2 = Ok (policy_effect b s task r).2).
  { intros b s r. unfold policy_effect. repeat case_match; vm_compute; reflexivity. }
  unfold evaluatePolicy. rewrite Hp, Ht, Hs, Hi, Hid, Hat. cbn [ok_or ensure mbind result_bind].
  specialize (Hreason (policy_bound task step inv d) (policy_supported task step d)
    (List.find (rule_matches task inv) (rules_rules rules))).
  destruct (policy_effect _ _ _ _) as [eff reason]. cbn [fst snd] in *.
  destruct Happ as (Hap & Hex & Hif).
  unfold PolicyEvaluation_parse, PolicyDecision_parse, PolicyScope_parse.
  cbn [pe_decision pe_scope pe_scopeDigest pe_approver pe_expiresAt pd_id pd_taskId pd_stepId
    pd_capability pd_decision pd_reasonCode pd_evaluatedAt pd_policyVersion scope_taskId scope_stepId
    scope_tenantId scope_principal scope_trace scope_capability scope_invocationDigest
    scope_descriptorDigest scope_policyVersion opt_ok].
  rewrite Hcap, Htr, Hid, Hreason, Hat, Hv. cbn [ok_or ensure mbind result_bind].
  rewrite Hti, Hsi, Hte, Hpi, Hdg. cbn [ok_or ensure mbind result_bind andb].
  apply PolicyRules_parse_ok in Hp as (_ & _ & _ & Hne).
  rewrite !capabilityDigest_ok, (bool_decide_false (rules_version _ = _)) by done.
  cbn [negb ok_or ensure mbind result_bind andb].
  rewrite Hap, Hex. cbn [ok_or ensure mbind result_bind andb].
  match goal with |- context [PolicyEvaluation_scoped ?e] => set (ev := e) end.
  assert (PolicyEvaluation_scoped ev = true) as ->.
  { unfold PolicyEvaluation_scoped, ev. cbn [pe_decision pe_scope pd_taskId pd_stepId pd_capability
      pd_policyVersion scope_taskId scope_stepId scope_capability scope_policyVersion].
    by rewrite !bool_decide_true by done. }
  assert (PolicyEvaluation_approval ev = true) as ->; [|by exists ev].
  unfold PolicyEvaluation_approval, ev. cbn [pe_decision pe_approver pe_expiresAt pd_decision pd_evaluatedAt].
  destruct (bool_decide (eff = APPROVAL_NEEDED)).
  - destruct Hif as (-> & x & -> & ->). done.
  - by destruct Hif as [-> ->].
Qed.

(** The gate always answers.  On parsed inputs, evaluated at an instant of a
    four-digit year, with a descriptor digest and a trimmed policy version,
    [evaluatePolicy] returns an evaluation, and its decision and reason are
    those of the first test that applies: scope mismatch, unsupported task,
    unsupported capability, the matching rule, no rule. *)
Theorem evaluatePolicy_total rules task step inv d pid at_ t0 :
  PolicyRules_parse rules = Ok rules → Text_parse (rules_version rules) = Ok (rules_version rules) →
  Task_parse task = Ok task → TaskStep_parse step = Ok step →
  CapabilityInvocation_parse inv = Ok inv → Id_ok pid = true → Timestamp_ok at_ = true →
  Date_parse at_ = Some t0 → iso_range t0 → iso_range (t0 + 86400000) →
  Digest_ok (desc_digest d) = true →
  ∃ e, evaluatePolicy rules task step inv d pid at_ = Ok e ∧
    (pd_decision (pe_decision e), pd_reasonCode (pe_decision e)) =
    policy_effect (policy_bound task step inv d) (policy_supported task step d) task
      (List.find (rule_matches task inv) (rules_rules rules)).
Proof. apply evaluatePolicy_answers. Qed.

(** ** A concrete evaluation *)

Definition sample_rule (effect : Decision) : PolicyRule :=
  {| rule_tenantId := sample_id 3; rule_principalId := sample_id 2; rule_capability := UPPERCASE;
     rule_effect := effect;
     rule_approver := if effect === APPROVAL_NEEDED
       then Some {| principal_id := sample_id 2; principal_kind := HUMAN |} else None;
     rule_ttlMs := if effect === APPROVAL_NEEDED then Some 600000 else None |}.

Definition sample_rules (effect : Decision) : PolicyRules :=
  {| rules_version := "v1"; rules_rules := [sample_rule effect] |}.

Definition policy_step : TaskStep :=
  {| step_id := sample_id 6; step_taskId := sample_id 1; step_kind := DETERMINISTIC_FUNCTION;
     step_status := READY; step_dependencies := []; step_requiredCapabilities := [UPPERCASE];
     step_riskClass := LOW; step_retryPolicy := {| maxAttempts := 1; backoffMs := 0 |};
     step_timeout := None; step_input := text_value "abc"; step_output := None;
     step_idempotencyKey := Some "k" |}.

Definition policy_invocation : CapabilityInvocation :=
  {| inv_runId := sample_id 8; inv_taskId := sample_id 1; inv_stepId := sample_id 6;
     inv_trace := {| tr_traceId := sample_id 4; tr_correlationId := sample_id 5; tr_spanId := None |};
     inv_capability := UPPERCASE; inv_idempotencyKey := "k"; inv_input := text_value "abc" |}.

Definition upper_descriptor : CapabilityDescriptor :=
  entry_descriptor (make_entry (uppercase_definition ascii_upper JNull JNull)).

Definition policy_at : string := "2026-09-15T16:00:00.000Z".

Lemma sample_evaluation effect :
  ∃ e, evaluatePolicy (sample_rules effect) (sample_task COMPILED "done") policy_step policy_invocation
         upper_descriptor (sample_id 9) policy_at = Ok e ∧ pd_decision (pe_decision e) = effect.
Proof.
  destruct (evaluatePolicy_answers (sample_rules effect) (sample_task COMPILED "done") policy_step
    policy_invocation upper_descriptor (sample_id 9) policy_at 1789488000000) as (e & He & Hd).
  1-8: by destruct effect; vm_compute.
  1-2: unfold iso_range; lia.
  1: apply capabilityDigest_ok.
  exists e. split; [exact He|].
  assert (Hb : policy_bound (sample_task COMPILED "done") policy_step policy_invocation upper_descriptor = true).
  { unfold policy_bound.
    change (JArr (map ref_json (step_requiredCapabilities policy_step)))
      with (JArr [ref_json (inv_capability policy_invocation)]).
    change (step_input policy_step) with (inv_input policy_invocation).
    generalize (capabilityDigest (JArr [ref_json (inv_capability policy_invocation)])) as d1,
      (capabilityDigest (inv_input policy_invocation)) as d2.
    intros d1 d2. rewrite (bool_decide_true (d1 = d1)), (bool_decide_true (d2 = d2)) by reflexivity.
    vm_compute. reflexivity. }
  revert Hd. rewrite Hb. generalize (pd_decision (pe_decision e)), (pd_reasonCode (pe_decision e)).
  intros ? ? Hd. by destruct effect; injection Hd as -> _.
Qed.

Lemma evaluatePolicy_default_deny_witness : ∃ r, rule_effect r = ALLOW ∧ rule_tenantId r = sample_id 3.
Proof.
  destruct (sample_evaluation ALLOW) as (e & He & Hd).
  destruct (evaluatePolicy_default_deny _ _ _ _ _ _ _ e He) as
    (ru & t & s & i & r & _ & Ht & _ & _ & _ & Heff & Hten & _).
  - rewrite Hd. discriminate.
  - exists r. split; [rewrite Heff; exact Hd|]. rewrite Hten.
    assert (Htp : Task_parse (sample_task COMPILED "done") = Ok (sample_task COMPILED "done"))
      by (vm_compute; reflexivity).
    rewrite Htp in Ht. apply Ok_inj in Ht. rewrite <- Ht. reflexivity.
Defined.

Lemma evaluatePolicy_approval_witness : ∃ e a, pe_approver e = Some a ∧ principal_kind a = HUMAN.
Proof.
  destruct (sample_evaluation APPROVAL_NEEDED) as (e & He & Hd).
  pose proof (evaluatePolicy_approval _ _ _ _ _ _ _ e He) as H. rewrite decide_True in H by exact Hd.
  destruct H as (a & x & t & ttl & Ha & Hk & _). exists e, a. split; [exact Ha|exact Hk].
Defined.

Definition two_rules : list PolicyRule :=
  [sample_rule ALLOW;
   {| rule_tenantId := sample_id 3; rule_principalId := sample_id 2; rule_capability := REVERSE;
      rule_effect := DENY; rule_approver := None; rule_ttlMs := None |}].

Lemma evaluatePolicy_rule_order_witness :
  let r1 := {| rules_version := "v1"; rules_rules := two_rules |} in
  let r2 := {| rules_version := "v1"; rules_rules := rev two_rules |} in
  evaluatePolicy r1 (sample_task COMPILED "done") policy_step policy_invocation upper_descriptor
    (sample_id 9) policy_at =
  evaluatePolicy r2 (sample_task COMPILED "done") policy_step policy_invocation upper_descriptor
    (sample_id 9) policy_at.
Proof.
  apply (evaluatePolicy_rule_order _ _ {| rules_version := "v1"; rules_rules := two_rules |}).
  - vm_compute. reflexivity.
  - reflexivity.
  - apply Permutation_rev.
Defined.

Lemma evaluatePolicy_total_witness : ∃ e,
  evaluatePolicy (sample_rules DENY) (sample_task COMPILED "done") policy_step policy_invocation
    upper_descriptor (sample_id 9) policy_at = Ok e.
Proof.
  destruct (evaluatePolicy_total (sample_rules DENY) (sample_task COMPILED "done") policy_step
    policy_invocation upper_descriptor (sample_id 9) policy_at 1789488000000) as (e & He & _).
  1-8: vm_compute; reflexivity.
  1-2: unfold iso_range; lia.
  - apply capabilityDigest_ok.
  - exists e. exact He.
Defined.
