(* ===== verification/Approval.v ===== *)
(** * Human approvals (services/kernel/src/approval-store.ts, packages/identity/src/index.ts)

    The rows of the task ledger the store reads and writes are a Record of
    tables ([Db]); a method is a [prog Db], its PostgreSQL transaction is
    [transact], which restores the tables when the body throws.  Primary keys,
    the unique (task, event key) pair and the CHECK on [approvals] reject an
    insert or update the way the schema's constraints do (migration
    20260905153700); foreign keys are not modelled.  [clock_timestamp()] is the
    argument [now].  The theorems: an approval is resolved at most once, and it
    is GRANTED only by its named human approver, for its exact scope, before it
    expires, whatever sequence of calls led there. *)

From S2P Require Import Prelude JsNumber JsDate Digest Contracts Plan Capability Policy.
Local Open Scope Z_scope.
Local Open Scope js_scope.

(** ** Tenant membership *)

Inductive Permission :=
  | P_read | P_submit | P_cancel | P_signal | P_approve | P_schedule | P_health | P_knowledge_write.

#[export] Instance Permission_eq_dec : EqDecision Permission.
Proof. solve_decision. Defined.

Definition permissions (p : Permission) : list string :=
  match p with
  | P_read => ["owner"; "operator"; "member"; "reviewer"; "reader"]
  | P_submit | P_cancel | P_signal => ["owner"; "operator"; "member"]
  | P_approve => ["owner"; "operator"; "reviewer"]
  | P_schedule | P_health => ["owner"; "operator"]
  | P_knowledge_write => ["owner"; "operator"; "member"]
  end.

(** ** The ledger's tables *)

Record TaskRow := { tr_contract : Task; tr_status : TaskStatus }.

Inductive ApprovalStatus := A_PENDING | A_GRANTED | A_DENIED | A_EXPIRED.
Inductive ApprovalReason := R_HUMAN | R_EXPIRED | R_CANCELLED.

#[export] Instance ApprovalStatus_eq_dec : EqDecision ApprovalStatus.
Proof. solve_decision. Defined.
#[export] Instance ApprovalReason_eq_dec : EqDecision ApprovalReason.
Proof. solve_decision. Defined.

Record Ticket := {
  tk_evaluation : PolicyEvaluation;
  tk_invocation : CapabilityInvocation;
  tk_approvalId : string
}.

(** The metadata of the evidence a resolution writes. *)
Record ResolutionMeta := {
  rm_approvalId : string;
  rm_scopeDigest : string;
  rm_status : ApprovalStatus;
  rm_reason : ApprovalReason;
  rm_actor : PrincipalRef
}.

Inductive Payload :=
  | PTicket (t : Ticket)
  | PResolution (m : ResolutionMeta)
  | POther (j : json).

Record EventRow := {
  e_id : string; e_taskId : string; e_stepId : string; e_key : string; e_digest : string;
  e_type : string; e_occurredAt : string; e_actorId : string; e_traceId : string; e_payload : Payload
}.

Record ApprovalRow := {
  a_taskId : string; a_stepId : string; a_requestedFrom : string; a_requestedAt : string;
  a_status : ApprovalStatus; a_resolvedAt : option string; a_evidenceId : option string
}.

Record EvidenceRow := {
  v_taskId : string; v_stepId : string; v_type : EvidenceType; v_source : string;
  v_digest : string; v_capturedAt : string; v_metadata : Payload
}.

Record Db := {
  db_roles : list (string * PrincipalRef * string);  (* ACTIVE memberships of known principals *)
  db_tasks : gmap string TaskRow;
  db_steps : gmap string (string * TaskStep);        (* id ↦ (task_id, contract) *)
  db_events : list EventRow;
  db_approvals : gmap string ApprovalRow;
  db_evidence : gmap string EvidenceRow
}.

Definition set_events (es : list EventRow) (d : Db) : Db :=
  {| db_roles := db_roles d; db_tasks := db_tasks d; db_steps := db_steps d; db_events := es;
     db_approvals := db_approvals d; db_evidence := db_evidence d |}.
Definition set_approvals (a : gmap string ApprovalRow) (d : Db) : Db :=
  {| db_roles := db_roles d; db_tasks := db_tasks d; db_steps := db_steps d;
     db_events := db_events d; db_approvals := a; db_evidence := db_evidence d |}.
Definition set_evidence (v : gmap string EvidenceRow) (d : Db) : Db :=
  {| db_roles := db_roles d; db_tasks := db_tasks d; db_steps := db_steps d;
     db_events := db_events d; db_approvals := db_approvals d; db_evidence := v |}.

Definition pg_error (code : string) : exn := Exn "DatabaseError" code.
Definition approval_error (msg : string) : exn := Exn "ApprovalError" msg.

(** [begin] ... [commit], [rollback] on a throw. *)
Definition transact {A} (m : prog Db A) : prog Db A := λ d,
  match m d with
  | (d', Ok a) => (d', Ok a)
  | (_, Throw e) => (d, Throw e)
  end.

Definition guard (c : bool) (e : exn) : prog Db unit := lift_result (ensure c e).

Definition find_event (es : list EventRow) (task key : string) : option EventRow :=
  List.find (λ e, (e_taskId e === task) && (e_key e === key)) es.

Definition insert_event (e : EventRow) : prog Db unit :=
  d ← get_st;
  guard (negb (existsb (λ x, (e_id x === e_id e) ||
                 (e_taskId x === e_taskId e) && (e_key x === e_key e)) (db_events d)))
    (pg_error "23505");;
  put_st (set_events (db_events d ++ [e]) d).

Definition insert_evidence (i : string) (v : EvidenceRow) : prog Db unit :=
  d ← get_st;
  guard (db_evidence d !! i === None) (pg_error "23505");;
  put_st (set_evidence (<[i := v]> (db_evidence d)) d).

Definition insert_approval (i : string) (a : ApprovalRow) : prog Db unit :=
  d ← get_st;
  guard (match db_approvals d !! i with Some _ => false | None => true end) (pg_error "23505");;
  put_st (set_approvals (<[i := a]> (db_approvals d)) d).

(** [authorize(db, {tenantId, principal}, action)] *)
Definition role_of (d : Db) (tenant : string) (p : PrincipalRef) : option string :=
  (λ x, x.2) <$> List.find (λ x, (x.1.1 === tenant) && (x.1.2 === p)) (db_roles d).

Definition authorize (tenant : string) (p : PrincipalRef) (action : Permission) : prog Db unit :=
  guard (Id_ok tenant && Id_ok (principal_id p)) (zod_error "TenantContext");;
  d ← get_st;
  guard (match role_of d tenant p with
         | None => false
         | Some role =>
             bool_decide (role ∈ permissions action) &&
             negb (((action === P_approve) || (action === P_schedule)) && (principal_kind p !== HUMAN))
         end) (js_error "Tenant access denied").

Definition member (tenant : string) (p : PrincipalRef) (action : Permission) : prog Db unit := λ d,
  match authorize tenant p action d with
  | (d', Ok tt) => (d', Ok tt)
  | (d', Throw _) => (d', Throw (approval_error "Identity is not an authorized member of the task tenant"))
  end.

(** ** Tickets *)

Definition decision_name (x : Decision) : string :=
  match x with ALLOW => "ALLOW" | DENY => "DENY" | APPROVAL_NEEDED => "APPROVAL_REQUIRED" end.

Definition decision_json (d : PolicyDecision) : json :=
  JObj ([("id", JStr (pd_id d)); ("taskId", JStr (pd_taskId d))]
        ++ opt_field "stepId" (JStr <$> pd_stepId d)
        ++ [("capability", ref_json (pd_capability d));
            ("decision", JStr (decision_name (pd_decision d)));
            ("reasonCode", JStr (pd_reasonCode d)); ("evaluatedAt", JStr (pd_evaluatedAt d));
            ("policyVersion", JStr (pd_policyVersion d))]).

Definition evaluation_json (e : PolicyEvaluation) : json :=
  JObj ([("decision", decision_json (pe_decision e)); ("scope", scope_json (pe_scope e));
         ("scopeDigest", JStr (pe_scopeDigest e))]
        ++ opt_field "approver" (principal_json <$> pe_approver e)
        ++ opt_field "expiresAt" (JStr <$> pe_expiresAt e)).

Definition ticket_json (t : Ticket) : json :=
  JObj [("evaluation", evaluation_json (tk_evaluation t));
        ("invocation", invocation_json (tk_invocation t));
        ("approvalId", JStr (tk_approvalId t))].

Definition ticket_key (approvalId : string) : string := "policy-approval:" +:+ approvalId.
Definition resolved_key (approvalId : string) : string := "approval:" +:+ approvalId +:+ ":resolved".

Definition policy_event (t : Ticket) : EventRow :=
  let e := tk_evaluation t in
  {| e_id := pd_id (pe_decision e); e_taskId := scope_taskId (pe_scope e);
     e_stepId := scope_stepId (pe_scope e); e_key := ticket_key (tk_approvalId t);
     e_digest := capabilityDigest (ticket_json t); e_type := "POLICY_CHECKED";
     e_occurredAt := pd_evaluatedAt (pe_decision e);
     e_actorId := principal_id (scope_principal (pe_scope e));
     e_traceId := tr_traceId (scope_trace (pe_scope e)); e_payload := PTicket t |}.

(** ** [record] *)

Definition record_body (e : PolicyEvaluation) (request : CapabilityInvocation) (approvalId : string)
  : prog Db unit :=
  let payload := {| tk_evaluation := e; tk_invocation := request; tk_approvalId := approvalId |} in
  let s := pe_scope e in
  d ← get_st;
  match find_event (db_events d) (scope_taskId s) (ticket_key approvalId) with
  | Some prior =>
      guard (e_digest prior === capabilityDigest (ticket_json payload))
        (approval_error "Policy idempotency conflict")
  | None =>
      row ← lift_result (match db_tasks d !! scope_taskId s with
        | Some r => Ok r | None => Throw (zod_error "task") end);
      task ← lift_result (Task_parse (tr_contract row));
      stepRow ← lift_result (match db_steps d !! scope_stepId s with
        | Some (t, c) => if t === task_id task then Ok c else Throw (zod_error "step")
        | None => Throw (zod_error "step") end);
      step ← lift_result (TaskStep_parse stepRow);
      guard ((task_status task === COMPILED) && (step_status step === READY) &&
             (task_tenant task === scope_tenantId s) &&
             (capabilityDigest (principal_json (task_principal task)) ===
              capabilityDigest (principal_json (scope_principal s))) &&
             (task_traceId task === tr_traceId (scope_trace s)) &&
             (capabilityDigest (step_input step) === capabilityDigest (inv_input request)) &&
             (step_idempotencyKey step === Some (inv_idempotencyKey request)) &&
             (capabilityDigest (JArr (map ref_json (step_requiredCapabilities step))) ===
              capabilityDigest (JArr [ref_json (inv_capability request)])))
        (approval_error "Policy does not match persisted task step");;
      member (task_tenant task) (task_principal task) P_submit;;
      (if pd_decision (pe_decision e) === APPROVAL_NEEDED then
         match pe_approver e with
         | None => throw_st (Exn "TypeError" "approver")
         | Some approver =>
             member (task_tenant task) approver P_approve;;
             insert_approval approvalId
               {| a_taskId := task_id task; a_stepId := step_id step;
                  a_requestedFrom := principal_id approver;
                  a_requestedAt := pd_evaluatedAt (pe_decision e);
                  a_status := A_PENDING; a_resolvedAt := None; a_evidenceId := None |}
         end
       else mret tt);;
      let event := policy_event payload in
      insert_event
        {| e_id := e_id event; e_taskId := task_id task; e_stepId := step_id step;
           e_key := e_key event; e_digest := e_digest event; e_type := e_type event;
           e_occurredAt := e_occurredAt event; e_actorId := principal_id (task_principal task);
           e_traceId := task_traceId task; e_payload := e_payload event |}
  end.

Definition record (evaluation : PolicyEvaluation) (invocation : CapabilityInvocation)
    (approvalId : string) : prog Db unit :=
  e ← lift_result (PolicyEvaluation_parse evaluation);
  request ← lift_result (CapabilityInvocation_parse invocation);
  guard (Id_ok approvalId) (zod_error "approvalId");;
  guard ((pe_scopeDigest e === capabilityDigest (scope_json (pe_scope e))) &&
         (scope_invocationDigest (pe_scope e) === capabilityDigest (invocation_json request)))
    (approval_error "Invalid policy scope");;
  transact (record_body e request approvalId).

(** ** [ticket] and [finish] *)

Record ApprovalResolution := {
  ar_approvalId : string;
  ar_scopeDigest : string;
  ar_status : ApprovalStatus;
  ar_expiresAt : string;
  ar_evidenceId : option string;
  ar_reason : option ApprovalReason
}.

Definition ApprovalResolution_parse (r : ApprovalResolution) : result ApprovalResolution :=
  ok_or (Id_ok (ar_approvalId r) && Digest_ok (ar_scopeDigest r) && Timestamp_ok (ar_expiresAt r)
         && opt_ok Id_ok (ar_evidenceId r)) "ApprovalResolution";;
  Ok r.

Record Loaded := {
  ld_evaluation : PolicyEvaluation;
  ld_invocation : CapabilityInvocation;
  ld_resolution : ApprovalResolution
}.

(** [v.metadata?.reason] of the joined evidence row. *)
Definition evidence_reason (d : Db) (row : ApprovalRow) : option ApprovalReason :=
  i ← a_evidenceId row; v ← db_evidence d !! i;
  match v_metadata v with PResolution m => Some (rm_reason m) | _ => None end.

Definition ticket (i : string) : prog Db Loaded :=
  guard (Id_ok i) (zod_error "id");;
  d ← get_st;
  lift_result
    (match db_approvals d !! i with
     | None => Throw (approval_error "Unknown approval")
     | Some row =>
         match find_event (db_events d) (a_taskId row) (ticket_key i) with
         | None => Throw (approval_error "Unknown approval")
         | Some ev =>
             match e_payload ev with
             | PTicket t =>
                 evaluation ← PolicyEvaluation_parse (tk_evaluation t);
                 invocation ← CapabilityInvocation_parse (tk_invocation t);
                 expiresAt ← match pe_expiresAt evaluation with
                   | Some x => Ok x | None => Throw (zod_error "expiresAt") end;
                 resolution ← ApprovalResolution_parse
                   {| ar_approvalId := i; ar_scopeDigest := pe_scopeDigest evaluation;
                      ar_status := a_status row; ar_expiresAt := expiresAt;
                      ar_evidenceId := a_evidenceId row;
                      ar_reason := if a_evidenceId row === None then None else evidence_reason d row |};
                 Ok {| ld_evaluation := evaluation; ld_invocation := invocation;
                       ld_resolution := resolution |}
             | _ => Throw (zod_error "payload")
             end
         end
     end).

Definition read (i : string) : prog Db ApprovalResolution :=
  t ← ticket i; mret (ld_resolution t).

Inductive Action := ACT_GRANTED | ACT_DENIED | ACT_CANCEL | ACT_EXPIRE.

#[export] Instance Action_eq_dec : EqDecision Action.
Proof. solve_decision. Defined.

(** The identity and scope guard of a human action. *)
Definition check_actor (e : PolicyEvaluation) (action : Action) (actor : option PrincipalRef)
    (scopeDigest : option string) : prog Db unit :=
  expected ← lift_result (if action === ACT_CANCEL then Ok (scope_principal (pe_scope e))
    else match pe_approver e with Some a => Ok a | None => Throw (Exn "TypeError" "approver") end);
  match actor with
  | None => throw_st (approval_error "Approval identity or scope mismatch")
  | Some a =>
      guard (negb ((principal_id a !== principal_id expected) ||
                   (principal_kind a !== principal_kind expected) ||
                   (action !== ACT_CANCEL) && (scopeDigest !== Some (pe_scopeDigest e))))
        (approval_error "Approval identity or scope mismatch");;
      member (scope_tenantId (pe_scope e)) a (if action === ACT_CANCEL then P_cancel else P_approve)
  end.

(** The status and the reason a pending approval resolves to. *)
Definition resolved_as (expired cancelled : bool) (action : Action) : ApprovalStatus * ApprovalReason :=
  if expired then (A_EXPIRED, R_EXPIRED)
  else if cancelled then (A_DENIED, R_CANCELLED)
  else if action === ACT_GRANTED then (A_GRANTED, R_HUMAN) else (A_DENIED, R_HUMAN).

Definition status_name' (s : ApprovalStatus) : string :=
  match s with A_PENDING => "PENDING" | A_GRANTED => "GRANTED" | A_DENIED => "DENIED" | A_EXPIRED => "EXPIRED" end.
Definition reason_name (r : ApprovalReason) : string :=
  match r with R_HUMAN => "HUMAN" | R_EXPIRED => "EXPIRED" | R_CANCELLED => "CANCELLED" end.

Definition meta_json (m : ResolutionMeta) : json :=
  JObj [("approvalId", JStr (rm_approvalId m)); ("scopeDigest", JStr (rm_scopeDigest m));
        ("status", JStr (status_name' (rm_status m))); ("reason", JStr (reason_name (rm_reason m)));
        ("actor", principal_json (rm_actor m))].

(** The three writes of a resolution; the CHECK of the table refuses a resolution
    dated before the request. *)
Definition write_resolution (i : string) (e : PolicyEvaluation) (m : ResolutionMeta)
    (at_ evidenceId eventId : string) : prog Db unit :=
  let s := pe_scope e in
  insert_evidence evidenceId
    {| v_taskId := scope_taskId s; v_stepId := scope_stepId s;
       v_type := if rm_reason m === R_HUMAN then HUMAN_DECISION else DETERMINISTIC_RESULT;
       v_source := "kerneljson:approval/v1"; v_digest := capabilityDigest (meta_json m);
       v_capturedAt := at_; v_metadata := PResolution m |};;
  d ← get_st;
  (match db_approvals d !! i with
   | None => mret tt
   | Some row =>
       guard (negb (date_lt at_ (a_requestedAt row))) (pg_error "23514");;
       put_st (set_approvals
         (<[i := {| a_taskId := a_taskId row; a_stepId := a_stepId row;
                    a_requestedFrom := a_requestedFrom row; a_requestedAt := a_requestedAt row;
                    a_status := rm_status m; a_resolvedAt := Some at_;
                    a_evidenceId := Some evidenceId |}]> (db_approvals d)) d)
   end);;
  insert_event
    {| e_id := eventId; e_taskId := scope_taskId s; e_stepId := scope_stepId s;
       e_key := resolved_key i; e_digest := capabilityDigest (meta_json m);
       e_type := if rm_status m === A_GRANTED then "APPROVAL_GRANTED" else "POLICY_CHECKED";
       e_occurredAt := at_; e_actorId := principal_id (rm_actor m);
       e_traceId := tr_traceId (scope_trace s); e_payload := PResolution m |}.

(** The inner [result] is the parse of the returned value, which the method does
    after its commit. *)
Definition finish_body (now : Z) (i : string) (action : Action) (actor : option PrincipalRef)
    (scopeDigest : option string) (evidenceId eventId : string)
  : prog Db (result ApprovalResolution) :=
  _first ← ticket i;
  loaded ← ticket i;
  let e := ld_evaluation loaded in
  let resolution := ld_resolution loaded in
  (if action !== ACT_EXPIRE then check_actor e action actor scopeDigest else mret tt);;
  if ar_status resolution !== A_PENDING then mret (Ok resolution)
  else
    let at_ := toISOString now in
    let expired := date_le (ar_expiresAt resolution) at_ in
    if (action === ACT_EXPIRE) && negb expired then mret (Ok resolution)
    else
      d ← get_st;
      let status := tr_status <$> db_tasks d !! scope_taskId (pe_scope e) in
      let cancelled := (action === ACT_CANCEL) || (status === Some CANCELLED) in
      guard (cancelled || (status === Some COMPILED) || (status === Some APPROVAL_REQUIRED))
        (approval_error "Task is not awaiting authorization");;
      let '(st, reason) := resolved_as expired cancelled action in
      let m := {| rm_approvalId := i; rm_scopeDigest := pe_scopeDigest e; rm_status := st;
                  rm_reason := reason;
                  rm_actor := from_option Datatypes.id (scope_principal (pe_scope e)) actor |} in
      write_resolution i e m at_ evidenceId eventId;;
      mret (ApprovalResolution_parse
        {| ar_approvalId := ar_approvalId resolution; ar_scopeDigest := ar_scopeDigest resolution;
           ar_status := st; ar_expiresAt := ar_expiresAt resolution;
           ar_evidenceId := Some evidenceId; ar_reason := Some reason |}).

Definition finish (now : Z) (i : string) (action : Action) (actor : option PrincipalRef)
    (scopeDigest : option string) (evidenceId eventId : string) : prog Db ApprovalResolution :=
  guard (Id_ok evidenceId && Id_ok eventId) (zod_error "id");;
  r ← transact (finish_body now i action actor scopeDigest evidenceId eventId);
  lift_result r.

Inductive Answer := ANSWER_GRANTED | ANSWER_DENIED.

(** [resolve(id, {scopeDigest, decision}, actor, evidenceId, eventId)] *)
Definition resolve (now : Z) (i : string) (answer : Answer) (scopeDigest : string)
    (actor : PrincipalRef) (evidenceId eventId : string) : prog Db ApprovalResolution :=
  guard (Digest_ok scopeDigest && Id_ok (principal_id actor)) (zod_error "ApprovalAnswer");;
  finish now i (match answer with ANSWER_GRANTED => ACT_GRANTED | ANSWER_DENIED => ACT_DENIED end)
    (Some actor) (Some scopeDigest) evidenceId eventId.

Definition cancel (now : Z) (i : string) (actor : PrincipalRef) (evidenceId eventId : string)
  : prog Db ApprovalResolution :=
  guard (Id_ok (principal_id actor)) (zod_error "PrincipalRef");;
  finish now i ACT_CANCEL (Some actor) None evidenceId eventId.

Definition expire (now : Z) (i evidenceId eventId : string) : prog Db ApprovalResolution :=
  finish now i ACT_EXPIRE None None evidenceId eventId.

(** ** What each primitive changes *)

Lemma guard_ok c e d d' : guard c e d = (d', Ok tt) → d' = d ∧ c = true.
Proof. unfold guard. intros [-> H]%lift_ok. by destruct c. Qed.

Lemma member_ok t p a d d' : member t p a d = (d', Ok tt) → d' = d.
Proof.
  unfold member, authorize. intros H.
  match type of H with context [match ?m with _ => _ end] => destruct m as [d1 [[]|]] eqn:E end; [|done].
  injection H as <-. apply pbind_ok in E as ([] & d2 & [-> _]%guard_ok & E).
  apply pbind_ok in E as (d3 & d4 & E & [-> _]%guard_ok). by injection E as <- <-.
Qed.

Lemma insert_event_ok e d d' : insert_event e d = (d', Ok tt) →
  d' = set_events (db_events d ++ [e]) d ∧ find_event (db_events d) (e_taskId e) (e_key e) = None.
Proof.
  unfold insert_event. intros (d1 & d2 & [= <- <-] & H)%pbind_ok.
  apply pbind_ok in H as ([] & d3 & [-> Hg]%guard_ok & [= <-]). split; [done|].
  unfold find_event. destruct (List.find _ _) as [x|] eqn:E; [|done].
  apply find_some in E as [Hin Hx]. to_prop. exfalso.
  assert (existsb (λ x, (e_id x === e_id e) || (e_taskId x === e_taskId e) && (e_key x === e_key e))
    (db_events d) = true); [|congruence].
  apply existsb_exists. exists x. split; [done|].
  rewrite (bool_decide_true (e_taskId x = _)), (bool_decide_true (e_key x = _)) by done. apply orb_true_r.
Qed.

Lemma insert_evidence_ok i v d d' : insert_evidence i v d = (d', Ok tt) →
  d' = set_evidence (<[i := v]> (db_evidence d)) d ∧ db_evidence d !! i = None.
Proof.
  unfold insert_evidence. intros (d1 & d2 & [= <- <-] & H)%pbind_ok.
  apply pbind_ok in H as ([] & d3 & [-> Hg]%guard_ok & [= <-]). by to_prop.
Qed.

Lemma insert_approval_ok i a d d' : insert_approval i a d = (d', Ok tt) →
  d' = set_approvals (<[i := a]> (db_approvals d)) d ∧ db_approvals d !! i = None.
Proof.
  unfold insert_approval. intros (d1 & d2 & [= <- <-] & H)%pbind_ok.
  apply pbind_ok in H as ([] & d3 & [-> Hg]%guard_ok & [= <-]).
  by destruct (db_approvals d !! i).
Qed.

Lemma transact_inv {A} (m : prog Db A) d d' r :
  transact m d = (d', r) → d' = d ∨ ∃ a, r = Ok a ∧ m d = (d', Ok a).
Proof.
  unfold transact. destruct (m d) as [d1 [a|]]; intros [= <- <-]; [right; by exists a|by left].
Qed.

Lemma find_event_app es es' t k ev :
  find_event es t k = Some ev → find_event (es ++ es') t k = Some ev.
Proof.
  unfold find_event. induction es as [|x es IH]; simpl; [done|]. by destruct (_ && _).
Qed.

Lemma find_event_new es e :
  find_event es (e_taskId e) (e_key e) = None →
  find_event (es ++ [e]) (e_taskId e) (e_key e) = Some e.
Proof.
  unfold find_event. induction es as [|x es IH]; simpl.
  - by rewrite !bool_decide_true by done.
  - by destruct (_ && _).
Qed.

Lemma ticket_ok i d d' ld : ticket i d = (d', Ok ld) →
  d' = d ∧ ∃ row ev t, db_approvals d !! i = Some row ∧
    find_event (db_events d) (a_taskId row) (ticket_key i) = Some ev ∧ e_payload ev = PTicket t ∧
    PolicyEvaluation_parse (tk_evaluation t) = Ok (ld_evaluation ld) ∧
    ar_status (ld_resolution ld) = a_status row ∧
    ar_scopeDigest (ld_resolution ld) = pe_scopeDigest (ld_evaluation ld) ∧
    ar_evidenceId (ld_resolution ld) = a_evidenceId row ∧
    pe_expiresAt (ld_evaluation ld) = Some (ar_expiresAt (ld_resolution ld)).
Proof.
  unfold ticket. intros ([] & d1 & [-> _]%guard_ok & H)%pbind_ok.
  apply pbind_ok in H as (d2 & d3 & [= <- <-] & H). apply lift_ok in H as [-> H]. split; [done|].
  destruct (db_approvals d !! i) as [row|] eqn:Erow; [|done].
  destruct (find_event _ _ _) as [ev|] eqn:Eev; [|done].
  destruct (e_payload ev) as [t| |] eqn:Et; [|done..].
  apply bind_ok in H as (e & He & (inv & _ & H)%bind_ok).
  apply bind_ok in H as (x & Hx & H). destruct (pe_expiresAt e) eqn:Ex; [|done]. apply Ok_inj in Hx as ->.
  apply bind_ok in H as (res & Hres & <-%Ok_inj).
  unfold ApprovalResolution_parse, ok_or in Hres. apply ensure_ok in Hres as [_ <-%Ok_inj].
  exists row, ev, t. split_and!; done.
Qed.

(** ** What a call changes *)

(** [d'] is [d] with one more policy event, and one more pending approval when the
    evaluation needs one. *)
Definition recorded (i : string) (d d' : Db) : Prop := ∃ raw e inv ev,
  PolicyEvaluation_parse raw = Ok e ∧
  db_events d' = db_events d ++ [ev] ∧
  e_payload ev = PTicket {| tk_evaluation := e; tk_invocation := inv; tk_approvalId := i |} ∧
  e_key ev = ticket_key i ∧
  find_event (db_events d) (e_taskId ev) (ticket_key i) = None ∧
  db_evidence d' = db_evidence d ∧
  (db_approvals d' = db_approvals d ∨
   ∃ row, db_approvals d !! i = None ∧ db_approvals d' = <[i := row]> (db_approvals d) ∧
     pd_decision (pe_decision e) = APPROVAL_NEEDED ∧
     a_taskId row = e_taskId ev ∧ a_status row = A_PENDING ∧ a_evidenceId row = None).

Lemma record_body_effect raw e request i d d' :
  PolicyEvaluation_parse raw = Ok e →
  record_body e request i d = (d', Ok tt) → d' = d ∨ recorded i d d'.
Proof.
  intros Hraw. unfold record_body. intros (d0 & d1 & [= <- <-] & H)%pbind_ok. simpl in H.
  destruct (find_event _ _ _) as [prior|]; [apply guard_ok in H as [-> _]; by left|].
  apply pbind_ok in H as (row & d1 & [-> _]%lift_ok & H).
  apply pbind_ok in H as (task & d1 & [-> _]%lift_ok & H).
  apply pbind_ok in H as (srow & d1 & [-> _]%lift_ok & H).
  apply pbind_ok in H as (step & d1 & [-> _]%lift_ok & H).
  apply pbind_ok in H as ([] & d1 & [-> _]%guard_ok & H).
  apply pbind_ok in H as ([] & d1 & ->%member_ok & H).
  apply pbind_ok in H as ([] & d1 & Ha & [-> Hf]%insert_event_ok). cbn [e_taskId e_key] in Hf.
  right. case_bool_decide as Hd.
  - destruct (pe_approver e) as [approver|]; [|done].
    apply pbind_ok in Ha as ([] & d2 & ->%member_ok & [-> Hi]%insert_approval_ok).
    eexists raw, e, request, _. split; [done|]. split; [reflexivity|].
    split_and!; try done. right. eexists. split_and!; done.
  - injection Ha as <-. eexists raw, e, request, _. split; [done|]. split; [reflexivity|].
    split_and!; try done. by left.
Qed.

Lemma record_effect evaluation invocation i d d' r :
  record evaluation invocation i d = (d', r) → d' = d ∨ recorded i d d'.
Proof.
  unfold record. unfold mbind, prog_bind, lift_result, guard.
  destruct (PolicyEvaluation_parse evaluation) as [e|] eqn:He; [|intros [= <- _]; by left].
  destruct (CapabilityInvocation_parse invocation) as [inv|]; [|intros [= <- _]; by left].
  unfold lift_result. destruct (ensure (Id_ok i) _) as [[]|]; [|intros [= <- _]; by left].
  destruct (ensure (_ && _) _) as [[]|]; [|intros [= <- _]; by left].
  intros [->|([] & -> & H)]%transact_inv; [by left|]. by eapply record_body_effect.
Qed.

(** [d'] is [d] with the pending approval [i] resolved by the evidence [m]. *)
Definition resolved (now : Z) (i : string) (d d' : Db) : Prop := ∃ row row' ev t e v vid m ev',
  db_approvals d !! i = Some row ∧ a_status row = A_PENDING ∧
  find_event (db_events d) (a_taskId row) (ticket_key i) = Some ev ∧ e_payload ev = PTicket t ∧
  PolicyEvaluation_parse (tk_evaluation t) = Ok e ∧
  db_approvals d' = <[i := row']> (db_approvals d) ∧ a_taskId row' = a_taskId row ∧
  a_status row' = rm_status m ∧ rm_status m ≠ A_PENDING ∧ a_evidenceId row' = Some vid ∧
  db_evidence d' = <[vid := v]> (db_evidence d) ∧ db_evidence d !! vid = None ∧
  v_metadata v = PResolution m ∧ v_digest v = capabilityDigest (meta_json m) ∧
  v_capturedAt v = toISOString now ∧ rm_approvalId m = i ∧ rm_scopeDigest m = pe_scopeDigest e ∧
  (v_type v = HUMAN_DECISION ↔ rm_reason m = R_HUMAN) ∧
  (rm_status m = A_GRANTED → rm_reason m = R_HUMAN ∧ pe_approver e = Some (rm_actor m) ∧
     ∃ x, pe_expiresAt e = Some x ∧ date_le x (toISOString now) = false) ∧
  db_events d' = db_events d ++ [ev'].

Lemma write_resolution_effect i e m at_ vid eid d d' row :
  db_approvals d !! i = Some row →
  write_resolution i e m at_ vid eid d = (d', Ok tt) →
  ∃ row' v ev', db_approvals d' = <[i := row']> (db_approvals d) ∧ a_taskId row' = a_taskId row ∧
    a_status row' = rm_status m ∧ a_evidenceId row' = Some vid ∧
    db_evidence d' = <[vid := v]> (db_evidence d) ∧ db_evidence d !! vid = None ∧
    v_metadata v = PResolution m ∧ v_digest v = capabilityDigest (meta_json m) ∧
    v_capturedAt v = at_ ∧ (v_type v = HUMAN_DECISION ↔ rm_reason m = R_HUMAN) ∧
    db_events d' = db_events d ++ [ev'].
Proof.
  intros Hrow. unfold write_resolution. intros ([] & d1 & [-> Hv]%insert_evidence_ok & H)%pbind_ok.
  apply pbind_ok in H as (d2 & d3 & [= <- <-] & H).
  apply pbind_ok in H as ([] & d4 & Ha & [-> _]%insert_event_ok).
  cbn [db_approvals set_evidence] in Ha. rewrite Hrow in Ha.
  apply pbind_ok in Ha as ([] & d5 & [-> _]%guard_ok & [= <-]).
  eexists _, _, _. split_and!; try done; cbn [v_type]; case_bool_decide; done.
Qed.

Lemma check_actor_ok e action actor sd d d' :
  check_actor e action actor sd d = (d', Ok tt) → d' = d ∧
  (action ≠ ACT_CANCEL → ∃ a, actor = Some a ∧ pe_approver e = Some a ∧ sd = Some (pe_scopeDigest e)).
Proof.
  unfold check_actor. intros (x & d1 & [-> Hx]%lift_ok & H)%pbind_ok.
  destruct actor as [a|]; [|done].
  apply pbind_ok in H as ([] & d1 & [-> Hg]%guard_ok & ->%member_ok). split; [done|].
  intros Hc. rewrite (bool_decide_false (action = _)) in Hx, Hg by done.
  destruct (pe_approver e) as [p|]; [|done]. apply Ok_inj in Hx as ->.
  rewrite !negb_orb in Hg. simpl in Hg. to_prop. exists a. split; [done|].
  destruct a, x. simpl in *. subst. done.
Qed.

Lemma resolved_as_spec expired cancelled action :
  let '(st, reason) := resolved_as expired cancelled action in
  st ≠ A_PENDING ∧ (st = A_GRANTED → expired = false ∧ cancelled = false ∧ action = ACT_GRANTED ∧ reason = R_HUMAN).
Proof. unfold resolved_as. destruct expired, cancelled, action; done. Qed.

Lemma finish_body_effect now i action actor sd vid eid d d' r :
  finish_body now i action actor sd vid eid d = (d', Ok r) → d' = d ∨ resolved now i d d'.
Proof.
  unfold finish_body. intros (f & d1 & [-> _]%ticket_ok & H)%pbind_ok.
  apply pbind_ok in H as (ld & d1 & [-> (row & ev & t & Hrow & Hev & Ht & He & Hst & Hsd & _ & Hex)]%ticket_ok & H).
  apply pbind_ok in H as ([] & d1 & Hact & H).
  assert (d1 = d ∧ (action = ACT_GRANTED → pe_approver (ld_evaluation ld) = actor ∧ is_Some actor)) as [-> Hact'].
  { destruct (bool_decide (action = ACT_EXPIRE)) eqn:Ee; to_prop; simpl in Hact.
    - injection Hact as <-. split; [done|congruence].
    - apply check_actor_ok in Hact as [-> Hc]. split; [done|].
      intros ->. destruct Hc as (a & -> & -> & _); [done|]. eauto. }
  clear Hact. destruct (bool_decide (ar_status _ = _)) eqn:Hp; simpl in H; [|injection H as <- _; by left].
  to_prop. destruct (_ && negb _); [injection H as <- _; by left|].
  apply pbind_ok in H as (d2 & d3 & [= <- <-] & H).
  apply pbind_ok in H as ([] & d3 & [-> _]%guard_ok & H).
  set (expired := date_le _ _) in H. set (cancelled := (_ === ACT_CANCEL) || _) in H.
  pose proof (resolved_as_spec expired cancelled action) as Hspec.
  destruct (resolved_as expired cancelled action) as [st reason]. destruct Hspec as [Hnp Hgr].
  apply pbind_ok in H as ([] & d3 & Hw & [= <- _]).
  destruct (write_resolution_effect _ _ _ _ _ _ _ _ _ Hrow Hw) as
    (row' & v & ev' & ? & ? & ? & ? & ? & ? & ? & ? & ? & ? & ?).
  right. eexists row, row', ev, t, _, v, vid, _, ev'. split_and!; try done; [congruence|].
  cbn [rm_status rm_reason rm_actor]. intros Hg. destruct (Hgr Hg) as (Hexp & _ & Ha & ->).
  destruct (Hact' Ha) as [-> [a ->]]. split_and!; [done|done|]. eauto.
Qed.

Lemma finish_effect now i action actor sd vid eid d d' r :
  finish now i action actor sd vid eid d = (d', r) → d' = d ∨ resolved now i d d'.
Proof.
  unfold finish, guard, mbind, prog_bind, lift_result.
  destruct (ensure _ _) as [[]|]; [|intros [= <- _]; by left].
  destruct (transact _ d) as [d1 [x|]] eqn:E; intros [= <- _];
    apply transact_inv in E as [->|(a & _ & H)]; eauto using finish_body_effect.
Qed.

(** ** Runs *)

(** One transition of the ledger: a call of the store, with any arguments and at
    any time, or the rest of the kernel at work: tasks, steps and memberships
    change freely, evidence and events are only added (they are immutable in
    the database), approvals are left alone. *)
Inductive db_step : Db → Db → Prop :=
  | step_record evaluation invocation i d d' r :
      record evaluation invocation i d = (d', r) → db_step d d'
  | step_resolve now i answer sd actor vid eid d d' r :
      resolve now i answer sd actor vid eid d = (d', r) → db_step d d'
  | step_cancel now i actor vid eid d d' r : cancel now i actor vid eid d = (d', r) → db_step d d'
  | step_expire now i vid eid d d' r : expire now i vid eid d = (d', r) → db_step d d'
  | step_kernel d d' es :
      db_approvals d' = db_approvals d → db_evidence d ⊆ db_evidence d' →
      db_events d' = db_events d ++ es → db_step d d'.

(** A run from a ledger without approvals. *)
Inductive db_run : Db → Prop :=
  | run_empty d : db_approvals d = ∅ → db_run d
  | run_next d d' : db_run d → db_step d d' → db_run d'.

Lemma db_step_cases d d' :
  db_step d d' →
  (db_approvals d' = db_approvals d ∧ db_evidence d ⊆ db_evidence d' ∧
     ∃ es, db_events d' = db_events d ++ es) ∨
  ∃ i, recorded i d d' ∨ ∃ now, resolved now i d d'.
Proof.
  assert (Hsame : ∀ d, db_approvals d = db_approvals d ∧ db_evidence d ⊆ db_evidence d ∧
     ∃ es, db_events d = db_events d ++ es).
  { intros x. split_and!; [done|done|]. exists []. by rewrite app_nil_r. }
  assert (Hfin : ∀ now i act actor sd vid eid d d' r, finish now i act actor sd vid eid d = (d', r) →
    (db_approvals d' = db_approvals d ∧ db_evidence d ⊆ db_evidence d' ∧
      ∃ es, db_events d' = db_events d ++ es) ∨ ∃ i, recorded i d d' ∨ ∃ now, resolved now i d d').
  { intros now i act actor sd vid eid x x' r [->|H]%finish_effect; [by left|]. right. exists i. eauto. }
  destruct 1 as [? ? i x x' r H|now i an sd actor vid eid x x' r H|now i actor vid eid x x' r H
    |now i vid eid x x' r H|x x' es Ha Hv Hes].
  - apply record_effect in H as [->|H]; [by left|]. right. eauto.
  - unfold resolve, guard, mbind, prog_bind, lift_result in H. simpl in H.
    destruct (ensure _ _) as [[]|]; [by apply Hfin in H|injection H as <- _; by left].
  - unfold cancel, guard, mbind, prog_bind, lift_result in H.
    destruct (ensure _ _) as [[]|]; [by apply Hfin in H|injection H as <- _; by left].
  - by apply Hfin in H.
  - left. eauto.
Qed.

(** An approval is resolved once.  After any call of the store, or any work of
    the rest of the kernel, a resolved approval is still there with the same
    status, evidence and resolution time. *)
Theorem approval_resolved_once d d' i row :
  db_step d d' → db_approvals d !! i = Some row → a_status row ≠ A_PENDING →
  db_approvals d' !! i = Some row.
Proof.
  intros [(-> & _)|(j & [H|(now & H)])]%db_step_cases Hrow Hst; [done| |].
  - destruct H as (raw & e & inv & ev & _ & _ & _ & _ & _ & _ & [->|(r & Hj & -> & _)]); [done|].
    destruct (decide (i = j)) as [->|]; [congruence|by rewrite lookup_insert_ne].
  - destruct H as (r & r' & ev & t & e & v & vid & m & ev' & Hj & Hp & _ & _ & _ & -> & _).
    destruct (decide (i = j)) as [->|]; [congruence|by rewrite lookup_insert_ne].
Qed.

(** What holds of every approval row: the ticket that scoped it is there with a
    human approver, and if it is resolved, so is the evidence. *)
Definition row_ok (d : Db) (i : string) (row : ApprovalRow) : Prop := ∃ ev t,
  let e := tk_evaluation t in
  find_event (db_events d) (a_taskId row) (ticket_key i) = Some ev ∧ e_payload ev = PTicket t ∧
  is_human (pe_approver e) = true ∧
  (a_status row ≠ A_PENDING → ∃ vid v m,
     a_evidenceId row = Some vid ∧ db_evidence d !! vid = Some v ∧
     v_metadata v = PResolution m ∧ v_digest v = capabilityDigest (meta_json m) ∧
     rm_approvalId m = i ∧ rm_status m = a_status row ∧ rm_scopeDigest m = pe_scopeDigest e ∧
     (a_status row = A_GRANTED → v_type v = HUMAN_DECISION ∧ pe_approver e = Some (rm_actor m) ∧
        ∃ x, pe_expiresAt e = Some x ∧ date_le x (v_capturedAt v) = false)).

Definition approvals_ok (d : Db) : Prop := map_Forall (row_ok d) (db_approvals d).

Lemma row_ok_mono d d' i row :
  row_ok d i row → db_evidence d ⊆ db_evidence d' → (∃ es, db_events d' = db_events d ++ es) →
  row_ok d' i row.
Proof.
  intros (ev & t & Hev & Ht & He & Hr) Hsub [es Hes]. exists ev, t.
  rewrite Hes. split_and!; [by apply find_event_app|done|done|].
  intros (vid & v & m & Hvid & Hv & Hm)%Hr. exists vid, v, m. split; [done|].
  split; [by eapply lookup_weaken|exact Hm].
Qed.

Lemma approvals_ok_step d d' : approvals_ok d → db_step d d' → approvals_ok d'.
Proof.
  intros Hok [(Ha & Hv & Hes)|(j & [H|(now & H)])]%db_step_cases i row Hi.
  - rewrite Ha in Hi. eapply row_ok_mono; [by apply Hok|done|done].
  - destruct H as (raw & e & inv & ev & Hraw & Hes & Ht & Hk & Hf & Hv & Hcase).
    assert (Hmono : ∀ r, db_approvals d !! i = Some r → row_ok d' i r).
    { intros r Hr. eapply row_ok_mono; [by apply Hok|by rewrite Hv|eauto]. }
    destruct Hcase as [Heq|(r & Hj & Heq & Hd & Htask & Hst & _)]; rewrite Heq in Hi; [auto|].
    apply lookup_insert_Some in Hi as [[-> ->]|[_ Hi]]; [|auto].
    apply PolicyEvaluation_parse_ok in Hraw as (_ & _ & _ & _ & _ & _ & _ & Happ & _).
    unfold PolicyEvaluation_approval in Happ. rewrite bool_decide_true in Happ by done.
    rewrite negb_orb in Happ. to_prop.
    exists ev, {| tk_evaluation := e; tk_invocation := inv; tk_approvalId := i |}.
    rewrite Hes, Htask, <- Hk. cbv zeta. split_and!; [by apply find_event_new; rewrite Hk|done|done|congruence].
  - destruct H as (r & r' & ev & t & e & v & vid & m & ev' & Hj & Hp & Hev & Ht & He & Heq & Htask & Hst & Hnp
      & Hvid & Hv & Hvn & Hm & Hdg & Hat & Hid & Hsd & Hty & Hgr & Hes).
    assert (Hsub : db_evidence d ⊆ db_evidence d') by (rewrite Hv; by apply insert_subseteq).
    rewrite Heq in Hi. apply lookup_insert_Some in Hi as [[-> <-]|[_ Hi]].
    2: { eapply row_ok_mono; [by apply Hok|done|eauto]. }
    destruct (Hok _ _ Hj) as (ev0 & t0 & Hev0 & Ht0 & Hh0 & _).
    rewrite Hev in Hev0. injection Hev0 as <-. rewrite Ht in Ht0. injection Ht0 as <-.
    apply PolicyEvaluation_parse_ok in He as (_ & _ & _ & Eap & Eex & Esd & _).
    exists ev, t. rewrite Hes, Htask. split_and!; [by apply find_event_app|done|done|].
    intros _. exists vid, v, m. rewrite Hv, lookup_insert_eq, <- Esd, <- Eap, <- Eex.
    split_and!; try done.
    rewrite Hst, Hat. intros Hg. destruct (Hgr Hg) as (Hh & Hap & Hx). split_and!; [by apply Hty|done|done].
Qed.

(** C11: no approval is granted without its human.  In every reachable ledger, a
    GRANTED approval has its policy ticket and a HUMAN_DECISION evidence row whose
    content is bound by its digest: it names this approval, the ticket's scope
    digest and, as its actor, the HUMAN the ticket names as approver, and it was
    captured before the ticket expired. *)
Theorem granted_by_named_human d i row :
  db_run d → db_approvals d !! i = Some row → a_status row = A_GRANTED →
  ∃ ev t a x vid v m,
    find_event (db_events d) (a_taskId row) (ticket_key i) = Some ev ∧ e_payload ev = PTicket t ∧
    pe_approver (tk_evaluation t) = Some a ∧ principal_kind a = HUMAN ∧
    pe_expiresAt (tk_evaluation t) = Some x ∧
    a_evidenceId row = Some vid ∧ db_evidence d !! vid = Some v ∧ v_type v = HUMAN_DECISION ∧
    v_metadata v = PResolution m ∧ v_digest v = capabilityDigest (meta_json m) ∧
    rm_approvalId m = i ∧ rm_scopeDigest m = pe_scopeDigest (tk_evaluation t) ∧ rm_actor m = a ∧
    date_le x (v_capturedAt v) = false.
Proof.
  intros Hrun Hi Hg.
  assert (Hok : approvals_ok d).
  { clear -Hrun. induction Hrun as [d He|d d' _ IH Hs]; [|by eapply approvals_ok_step].
    unfold approvals_ok. rewrite He. apply map_Forall_empty. }
  destruct (Hok _ _ Hi) as (ev & t & Hev & Ht & Hh & Hr). cbv zeta in *.
  destruct Hr as (vid & v & m & ? & ? & ? & ? & ? & ? & ? & Hgr); [congruence|].
  destruct (Hgr Hg) as (? & Hap & x & ? & ?). rewrite Hap in Hh. simpl in Hh. to_prop.
  exists ev, t, (rm_actor m), x, vid, v, m. split_and!; done.
Qed.

(** ** Answering *)

Lemma ticket_resolution_parse i d d' ld :
  ticket i d = (d', Ok ld) → Id_ok i = true ∧
  ApprovalResolution_parse (ld_resolution ld) = Ok (ld_resolution ld) ∧ ar_approvalId (ld_resolution ld) = i.
Proof.
  unfold ticket. intros ([] & d1 & [-> Hi]%guard_ok & H)%pbind_ok.
  apply pbind_ok in H as (d2 & d3 & [= <- <-] & H). apply lift_ok in H as [-> H]. split; [done|].
  destruct (db_approvals d !! i) as [row|]; [|done].
  destruct (find_event _ _ _) as [ev|]; [|done]. destruct (e_payload ev) as [t| |]; [|done..].
  apply bind_ok in H as (e & _ & (inv & _ & (x & _ & (res & Hres & <-%Ok_inj)%bind_ok)%bind_ok)%bind_ok).
  cbn [ld_resolution]. pose proof Hres as Hr. unfold ApprovalResolution_parse, ok_or in Hr.
  apply ensure_ok in Hr as [_ <-%Ok_inj]. done.
Qed.

(** An insert with a fresh id and a fresh (task, key). *)
Definition event_fresh (d : Db) (i task key : string) : Prop :=
  Forall (λ x, e_id x ≠ i ∧ (e_taskId x = task → e_key x ≠ key)) (db_events d).

Lemma insert_event_fresh e d :
  event_fresh d (e_id e) (e_taskId e) (e_key e) →
  insert_event e d = (set_events (db_events d ++ [e]) d, Ok tt).
Proof.
  intros Hf. unfold insert_event, get_st, put_st, guard, lift_result, mbind, prog_bind.
  destruct (existsb _ _) eqn:E; [|done]. exfalso.
  apply existsb_exists in E as (x & Hin & Hx). apply list_elem_of_In in Hin.
  eapply Forall_forall in Hf as [H1 H2]; [|exact Hin].
  apply orb_true_iff in Hx as [Hx|Hx]; to_prop; [done|]. by apply H2.
Qed.

Lemma write_resolution_run i e m at_ vid eid d row :
  db_approvals d !! i = Some row → db_evidence d !! vid = None →
  event_fresh d eid (scope_taskId (pe_scope e)) (resolved_key i) →
  date_lt at_ (a_requestedAt row) = false →
  ∃ d' row', write_resolution i e m at_ vid eid d = (d', Ok tt) ∧
    db_approvals d' !! i = Some row' ∧ a_status row' = rm_status m ∧ a_evidenceId row' = Some vid.
Proof.
  intros Hrow Hvf Hef Hchk. eexists _, _. split.
  - unfold write_resolution, insert_evidence.
    erewrite pbind_run.
    2: { unfold get_st. erewrite pbind_run by reflexivity. erewrite pbind_run; [reflexivity|].
         unfold guard. by rewrite bool_decide_true. }
    unfold get_st at 1. erewrite pbind_run by reflexivity. cbn [db_approvals set_evidence]. rewrite Hrow.
    erewrite pbind_run.
    2: { erewrite pbind_run; [reflexivity|]. unfold guard. by rewrite Hchk. }
    by apply insert_event_fresh.
  - cbn. rewrite lookup_insert_eq. done.
Qed.

(** The named approver's answer to a pending approval is always recorded.
    When the ticket loads, the approver is still an authorised member, the task
    awaits authorisation and the ids are fresh, [resolve] commits: GRANTED or
    DENIED as answered before the expiry, EXPIRED from the expiry on; the row
    carries that status and the evidence. *)
Theorem resolve_answers now i answer d ld row a vid eid st :
  let e := ld_evaluation ld in
  ticket i d = (d, Ok ld) → db_approvals d !! i = Some row → a_status row = A_PENDING →
  pe_approver e = Some a → member (scope_tenantId (pe_scope e)) a P_approve d = (d, Ok tt) →
  Id_ok (principal_id a) = true →
  tr_status <$> db_tasks d !! scope_taskId (pe_scope e) = Some st → st = COMPILED ∨ st = APPROVAL_REQUIRED →
  Id_ok vid = true → Id_ok eid = true → db_evidence d !! vid = None →
  event_fresh d eid (scope_taskId (pe_scope e)) (resolved_key i) →
  date_lt (toISOString now) (a_requestedAt row) = false →
  let status := if date_le (ar_expiresAt (ld_resolution ld)) (toISOString now) then A_EXPIRED
                else match answer with ANSWER_GRANTED => A_GRANTED | ANSWER_DENIED => A_DENIED end in
  ∃ d' r row', resolve now i answer (pe_scopeDigest e) a vid eid d = (d', Ok r) ∧ ar_status r = status ∧
    db_approvals d' !! i = Some row' ∧ a_status row' = status ∧ a_evidenceId row' = Some vid.
Proof.
  intros e Ht Hrow Hp Ha Hm Hid Htask Hst Hvid Heid Hvf Hef Hchk status.
  destruct (ticket_ok _ _ _ _ Ht) as (_ & row0 & _ & _ & Hrow0 & _ & _ & _ & Hst0 & Hsd & _).
  rewrite Hrow in Hrow0. injection Hrow0 as <-.
  destruct (ticket_resolution_parse _ _ _ _ Ht) as (_ & Hres & Hri).
  pose proof Hres as Hres'. unfold ApprovalResolution_parse, ok_or in Hres'.
  apply ensure_ok in Hres' as [Hok _]. rewrite !andb_true_iff in Hok.
  destruct Hok as [[[Hk1 Hk2] Hk3] Hk4]. rewrite Hri in Hk1. fold e in Hsd. rewrite Hsd in Hk2.
  set (act := match answer with ANSWER_GRANTED => ACT_GRANTED | ANSWER_DENIED => ACT_DENIED end).
  assert (Hact : act ≠ ACT_CANCEL ∧ act ≠ ACT_EXPIRE) by (by destruct answer). destruct Hact as [Hc Hx].
  assert (Hca : check_actor e act (Some a) (Some (pe_scopeDigest e)) d = (d, Ok tt)).
  { unfold check_actor. rewrite (bool_decide_false (act = _)), Ha by done.
    unfold guard, lift_result, mbind, prog_bind. by rewrite !bool_decide_true by done. }
  set (expired := date_le _ _) in status.
  assert (Hstatus : (resolved_as expired false act).1 = status) by (by destruct expired, answer).
  destruct (resolved_as expired false act) as [s reason] eqn:Era. cbn [fst] in Hstatus.
  set (m := {| rm_approvalId := i; rm_scopeDigest := pe_scopeDigest e; rm_status := s;
               rm_reason := reason; rm_actor := a |}).
  destruct (write_resolution_run i e m (toISOString now) vid eid d row Hrow Hvf Hef Hchk)
    as (d' & row' & Hw & Hrow' & Hs' & Hev').
  set (res := {| ar_approvalId := i; ar_scopeDigest := pe_scopeDigest e; ar_status := s;
                 ar_expiresAt := ar_expiresAt (ld_resolution ld);
                 ar_evidenceId := Some vid; ar_reason := Some reason |}).
  assert (Hparse : ApprovalResolution_parse res = Ok res).
  { unfold ApprovalResolution_parse, ok_or, res. cbn [ar_approvalId ar_scopeDigest ar_expiresAt
      ar_evidenceId opt_ok]. by rewrite Hk1, Hk2, Hk3, Hvid. }
  assert (Hbody : finish_body now i act (Some a) (Some (pe_scopeDigest e)) vid eid d = (d', Ok (Ok res))).
  { unfold finish_body. rewrite (pbind_run _ _ _ _ _ Ht), (pbind_run _ _ _ _ _ Ht). fold e.
    rewrite (bool_decide_false (act = ACT_EXPIRE)) by done. cbn [negb].
    rewrite (pbind_run _ _ _ _ _ Hca). rewrite Hst0, Hp, (bool_decide_true (A_PENDING = _)) by done.
    cbn [negb andb]. unfold get_st. erewrite pbind_run by reflexivity.
    rewrite Htask, (bool_decide_false (act = ACT_CANCEL)) by done. fold expired.
    assert (bool_decide (Some st = Some CANCELLED) = false) as -> by (by destruct Hst as [-> | ->]).
    erewrite pbind_run. 2: { unfold guard, lift_result. by destruct Hst as [-> | ->]. }
    cbn [orb]. rewrite Era. cbn [from_option]. fold m. rewrite (pbind_run _ _ _ _ _ Hw).
    rewrite Hri, Hsd. fold res. by rewrite Hparse. }
  exists d', res, row'. split_and!; [|done|done|by rewrite Hs'|done].
  unfold resolve, finish. erewrite pbind_run. 2: { unfold guard. by rewrite Hid, Hk2. }
  fold act. erewrite pbind_run. 2: { unfold guard. by rewrite Hvid, Heid. }
  erewrite pbind_run; [done|]. unfold transact. by rewrite Hbody.
Qed.

(** The ledger stores a task under its own id. *)
Definition tasks_keyed (d : Db) : Prop :=
  map_Forall (λ k row, task_id (tr_contract row) = k) (db_tasks d).

Lemma Task_parse_id t t' : Task_parse t = Ok t' → task_id t' = task_id t.
Proof.
  unfold Task_parse, ok_or. intros [_ H]%ensure_ok.
  apply bind_ok in H as (? & _ & H). apply bind_ok in H as (? & _ & H). apply ensure_ok in H as [_ H].
  apply bind_ok in H as (? & _ & H). apply ensure_ok in H as [_ H]. apply ensure_ok in H as [_ <-%Ok_inj].
  done.
Qed.

(** After [record_body] the policy event is there with the ticket's digest. *)
Lemma record_body_event e request i d d' :
  tasks_keyed d → record_body e request i d = (d', Ok tt) →
  ∃ ev, find_event (db_events d') (scope_taskId (pe_scope e)) (ticket_key i) = Some ev ∧
    e_digest ev = capabilityDigest (ticket_json
      {| tk_evaluation := e; tk_invocation := request; tk_approvalId := i |}).
Proof.
  intros Hkey. unfold record_body. intros (d0 & d1 & [= <- <-] & H)%pbind_ok. simpl in H.
  destruct (find_event _ _ _) as [prior|] eqn:Ef.
  { apply guard_ok in H as [-> Hg]. to_prop. by exists prior. }
  apply pbind_ok in H as (row & d1 & [-> Hrow]%lift_ok & H).
  destruct (db_tasks d !! _) as [r|] eqn:Et; [|done]. apply Ok_inj in Hrow as ->.
  apply pbind_ok in H as (task & d1 & [-> Htask%Task_parse_id]%lift_ok & H).
  rewrite (Hkey _ _ Et) in Htask.
  apply pbind_ok in H as (srow & d1 & [-> _]%lift_ok & H).
  apply pbind_ok in H as (step & d1 & [-> _]%lift_ok & H).
  apply pbind_ok in H as ([] & d1 & [-> _]%guard_ok & H).
  apply pbind_ok in H as ([] & d1 & ->%member_ok & H).
  apply pbind_ok in H as ([] & d1 & _ & [-> Hf]%insert_event_ok).
  cbn [e_taskId e_key policy_event tk_approvalId] in Hf. rewrite Htask in Hf.
  eexists. split; [rewrite <- Htask; apply find_event_new; by rewrite Htask|done].
Qed.

(** Recording is idempotent and exclusive.  After a [record] that returned, the
    same call again returns and changes nothing, and a call for the same approval
    id and task with a different ticket throws and changes nothing. *)
Theorem record_idempotent evaluation invocation i d d' :
  tasks_keyed d → record evaluation invocation i d = (d', Ok tt) →
  record evaluation invocation i d' = (d', Ok tt) ∧
  ∀ evaluation2 invocation2 e inv e2 inv2,
    PolicyEvaluation_parse evaluation = Ok e → CapabilityInvocation_parse invocation = Ok inv →
    PolicyEvaluation_parse evaluation2 = Ok e2 → CapabilityInvocation_parse invocation2 = Ok inv2 →
    scope_taskId (pe_scope e2) = scope_taskId (pe_scope e) →
    capabilityDigest (ticket_json {| tk_evaluation := e2; tk_invocation := inv2; tk_approvalId := i |}) ≠
    capabilityDigest (ticket_json {| tk_evaluation := e; tk_invocation := inv; tk_approvalId := i |}) →
    ∃ x, record evaluation2 invocation2 i d' = (d', Throw x).
Proof.
  intros Hkey. unfold record at 1. intros (e & d1 & [-> He]%lift_ok & H)%pbind_ok.
  apply pbind_ok in H as (inv & d1 & [-> Hinv]%lift_ok & H).
  apply pbind_ok in H as ([] & d1 & [-> Hi]%guard_ok & H).
  apply pbind_ok in H as ([] & d1 & [-> Hg]%guard_ok & H).
  unfold transact in H. destruct (record_body e inv i d) as [d1 [[]|]] eqn:Eb; [|done]. injection H as <-.
  destruct (record_body_event _ _ _ _ _ Hkey Eb) as (ev & Hev & Hdg). split.
  - unfold record, mbind, prog_bind, lift_result, guard. rewrite He, Hinv, Hi, Hg. cbn [ensure].
    unfold lift_result, transact, record_body, mbind, prog_bind, get_st. rewrite Hev.
    unfold guard, lift_result. by rewrite bool_decide_true.
  - intros ev2 iv2 e0 inv0 e2 inv2 He0 Hinv0 He2 Hinv2 Htask Hne.
    rewrite He in He0. apply Ok_inj in He0 as <-. rewrite Hinv in Hinv0. apply Ok_inj in Hinv0 as <-.
    unfold record, mbind, prog_bind, lift_result, guard. rewrite He2, Hinv2, Hi. cbn [ensure].
    unfold lift_result. destruct (ensure _ _) as [[]|]; [|by eexists].
    unfold transact, record_body, mbind, prog_bind, get_st. rewrite Htask, Hev.
    unfold guard, lift_result. rewrite bool_decide_false by congruence. by eexists.
Qed.

(** ** A concrete ledger *)

Definition sample_db : Db :=
  {| db_roles := [((sample_id 3, {| principal_id := sample_id 2; principal_kind := HUMAN |}), "owner")];
     db_tasks := {[ sample_id 1 := {| tr_contract := sample_task COMPILED "done"; tr_status := COMPILED |} ]};
     db_steps := {[ sample_id 6 := (sample_id 1, policy_step) ]};
     db_events := []; db_approvals := ∅; db_evidence := ∅ |}.

Definition approval_evaluation : list PolicyEvaluation :=
  result_list (evaluatePolicy (sample_rules APPROVAL_NEEDED) (sample_task COMPILED "done") policy_step
    policy_invocation upper_descriptor (sample_id 9) policy_at).

(** The sample ledger after [record] and after the approver's answer. *)
Definition recorded_from (es : list PolicyEvaluation) : Db :=
  match es with
  | [e] => (record e policy_invocation (sample_id 10) sample_db).1
  | _ => sample_db
  end.

Definition sample_approver : PrincipalRef := {| principal_id := sample_id 2; principal_kind := HUMAN |}.

Definition granted_from (es : list PolicyEvaluation) : Db :=
  match es with
  | [e] => (resolve 1789488060000 (sample_id 10) ANSWER_GRANTED (pe_scopeDigest e) sample_approver
              (sample_id 11) (sample_id 12) (recorded_from es)).1
  | _ => recorded_from es
  end.

Lemma granted_from_run es : db_run (granted_from es).
Proof.
  assert (H1 : db_run (recorded_from es)).
  { unfold recorded_from. destruct es as [|e []]; [by constructor| |by constructor].
    eapply run_next; [by apply (run_empty sample_db)|]. eapply step_record. apply surjective_pairing. }
  unfold granted_from. destruct es as [|e []]; [done| |done].
  eapply run_next; [exact H1|]. eapply step_resolve. apply surjective_pairing.
Qed.

Definition recorded_db : Db := recorded_from approval_evaluation.
Definition granted_db : Db := granted_from approval_evaluation.

Lemma granted_db_row :
  ∃ row, db_approvals granted_db !! sample_id 10 = Some row ∧ a_status row = A_GRANTED.
Proof. eexists. split; [vm_compute; reflexivity|reflexivity]. Qed.

Lemma granted_by_named_human_witness :
  ∃ row t a, db_approvals granted_db !! sample_id 10 = Some row ∧ a_status row = A_GRANTED ∧
    pe_approver t = Some a ∧ principal_kind a = HUMAN.
Proof.
  destruct granted_db_row as (row & Hrow & Hg).
  destruct (granted_by_named_human granted_db (sample_id 10) row (granted_from_run _) Hrow Hg)
    as (ev & t & a & x & vid & v & m & _ & _ & Ha & Hk & _).
  exists row, (tk_evaluation t), a. split; [exact Hrow|]. split; [exact Hg|]. split; [exact Ha|exact Hk].
Defined.

Lemma approval_resolved_once_witness :
  ∃ row, db_approvals granted_db !! sample_id 10 = Some row ∧
    db_approvals (cancel 0 (sample_id 10) sample_approver (sample_id 13) (sample_id 14) granted_db).1
      !! sample_id 10 = Some row.
Proof.
  destruct granted_db_row as (row & Hrow & Hg). exists row. split; [exact Hrow|].
  apply (approval_resolved_once granted_db).
  - eapply step_cancel. apply surjective_pairing.
  - exact Hrow.
  - rewrite Hg. discriminate.
Defined.

Lemma record_idempotent_witness :
  ∃ e, record e policy_invocation (sample_id 10) recorded_db = (recorded_db, Ok tt).
Proof.
  assert (H : ∃ e, approval_evaluation = [e] ∧
    record e policy_invocation (sample_id 10) sample_db = (recorded_db, Ok tt)).
  { eexists. split; [vm_compute; reflexivity|vm_compute; reflexivity]. }
  destruct H as (e & _ & He). exists e.
  apply (record_idempotent e policy_invocation (sample_id 10) sample_db recorded_db); [|exact He].
  apply map_Forall_singleton. reflexivity.
Defined.

Lemma resolve_answers_witness : ∃ d' r sd,
  resolve 1789488060000 (sample_id 10) ANSWER_DENIED sd sample_approver (sample_id 11) (sample_id 12)
    recorded_db = (d', Ok r) ∧ ar_status r = A_DENIED.
Proof.
  assert (H : ∃ ld row, ticket (sample_id 10) recorded_db = (recorded_db, Ok ld) ∧
    db_approvals recorded_db !! sample_id 10 = Some row ∧ a_status row = A_PENDING ∧
    pe_approver (ld_evaluation ld) = Some sample_approver ∧
    scope_tenantId (pe_scope (ld_evaluation ld)) = sample_id 3 ∧
    scope_taskId (pe_scope (ld_evaluation ld)) = sample_id 1 ∧
    a_requestedAt row = policy_at ∧ ar_expiresAt (ld_resolution ld) = "2026-09-15T16:10:00.000Z").
  { eexists _, _. split; [vm_compute; reflexivity|]. split; [vm_compute; reflexivity|].
    repeat split. }
  destruct H as (ld & row & Ht & Hrow & Hp & Ha & Hten & Htask & Hreq & Hexp).
  pose proof (resolve_answers 1789488060000 (sample_id 10) ANSWER_DENIED recorded_db ld row
    sample_approver (sample_id 11) (sample_id 12) COMPILED) as Hthm. cbv zeta in Hthm.
  rewrite Hten, Htask, Hreq, Hexp in Hthm.
  destruct Hthm as (d' & r & row' & Hr & Hs & _); try first [exact Ht|exact Hrow|exact Hp|exact Ha].
  - vm_compute. reflexivity.
  - vm_compute. reflexivity.
  - vm_compute. reflexivity.
  - left. reflexivity.
  - vm_compute. reflexivity.
  - vm_compute. reflexivity.
  - vm_compute. reflexivity.
  - vm_compute. repeat constructor; discriminate.
  - vm_compute. reflexivity.
  - exists d', r, (pe_scopeDigest (ld_evaluation ld)). split; [exact Hr|]. rewrite Hs. vm_compute. reflexivity.
Defined.
