(* ===== verification/Ledger.v ===== *)
(** * The task ledger (services/kernel/src: ledger.ts, terminal.ts, execution-binding.ts)

    [write] is the one transaction that moves a task: it checks the event, the step batch
    and the idempotency key, keeps the task's definition, allows the lifecycle's
    transitions only, and lets a task become COMPLETED only when the persisted plan, steps
    and evidence verify.  [finish] turns a failed verification into a terminal FAILED
    outcome.  The database is the Record [LedgerDb] (with the tables [X] of other components);
    [transact] is begin/commit/rollback.  What decides on faculty and identity evidence is an
    argument here and given in LedgerOracles.v.
    Of the schema's triggers and constraints (supabase/migrations/20260905153700,
    20260905153704, 20260908234518) the ones that decide what [write] may do are kept:
    primary keys, the unique (task, event key) pair, one outcome per task and its task id,
    the terminal-task and transition trigger, and the trigger that records the result of a
    FAILED or CANCELLED task.  Foreign keys and the deferred completion check, which repeat
    what [write] has checked, are not. *)

From S2P Require Import Prelude JsNumber JsDate Digest Contracts Plan Capability Json Mission Brief Policy Approval.
Local Open Scope Z_scope.
Local Open Scope js_scope.

(** ** event.ts *)

Inductive TaskEventType :=
  | TASK_CREATED | INTENT_RESOLVED | PLAN_COMPILED | POLICY_CHECKED | STEP_STARTED | MODEL_CALLED
  | TOOL_CALLED | EVIDENCE_RECEIVED | STEP_COMPLETED | APPROVAL_REQUESTED | APPROVAL_GRANTED
  | VERIFICATION_FAILED | REPLAN_TRIGGERED | TASK_COMPLETED | TASK_FAILED | LEARNING_PROPOSED
  | TASK_READY | TASK_STARTED | TASK_WAITING | TASK_RESUMED | TASK_VERIFYING | TASK_CANCELLED.

#[export] Instance TaskEventType_eq_dec : EqDecision TaskEventType.
Proof. solve_decision. Defined.

Definition event_type_name (t : TaskEventType) : string :=
  match t with
  | TASK_CREATED => "TASK_CREATED" | INTENT_RESOLVED => "INTENT_RESOLVED" | PLAN_COMPILED => "PLAN_COMPILED"
  | POLICY_CHECKED => "POLICY_CHECKED" | STEP_STARTED => "STEP_STARTED" | MODEL_CALLED => "MODEL_CALLED"
  | TOOL_CALLED => "TOOL_CALLED" | EVIDENCE_RECEIVED => "EVIDENCE_RECEIVED" | STEP_COMPLETED => "STEP_COMPLETED"
  | APPROVAL_REQUESTED => "APPROVAL_REQUESTED" | APPROVAL_GRANTED => "APPROVAL_GRANTED"
  | VERIFICATION_FAILED => "VERIFICATION_FAILED" | REPLAN_TRIGGERED => "REPLAN_TRIGGERED"
  | TASK_COMPLETED => "TASK_COMPLETED" | TASK_FAILED => "TASK_FAILED" | LEARNING_PROPOSED => "LEARNING_PROPOSED"
  | TASK_READY => "TASK_READY" | TASK_STARTED => "TASK_STARTED" | TASK_WAITING => "TASK_WAITING"
  | TASK_RESUMED => "TASK_RESUMED" | TASK_VERIFYING => "TASK_VERIFYING" | TASK_CANCELLED => "TASK_CANCELLED"
  end.

(** The payload of an event: one that carries a plan ([payload.plan]) among other fields, or any other JSON. *)
Inductive EventPayload :=
  | PlanPayload (before : list (string * json)) (plan : ExecutionPlan) (others : list (string * json))
  | JsonPayload (payload : json).

Record TaskEvent := {
  te_id : string; te_taskId : string; te_stepId : option string; te_type : TaskEventType;
  te_occurredAt : string; te_actor : PrincipalRef; te_traceId : string; te_payload : EventPayload
}.

Definition TaskEvent_parse (e : TaskEvent) : result TaskEvent :=
  ok_or (Id_ok (te_id e) && Id_ok (te_taskId e) && opt_ok Id_ok (te_stepId e)
         && Timestamp_ok (te_occurredAt e) && Id_ok (principal_id (te_actor e)) && Id_ok (te_traceId e)) "TaskEvent";;
  Ok e.

(** ** execution.ts *)

Inductive ControlAction := C_cancel | C_signal | C_approve.

#[export] Instance ControlAction_eq_dec : EqDecision ControlAction.
Proof. solve_decision. Defined.

Record ExecutionTarget := {
  et_service : string; et_version : string; et_routingId : string; et_controls : list ControlAction
}.

Record ExecutionBinding := {
  eb_target : ExecutionTarget; eb_taskId : string; eb_tenantId : string; eb_principal : PrincipalRef;
  eb_releaseId : string; eb_executionKey : string; eb_boundAt : string; eb_definitionDigest : string
}.

Definition ExecutionTarget_ok (t : ExecutionTarget) : bool :=
  token_ok [] 100 (et_service t) &&
  match et_service t with String c _ => is_alpha c | EmptyString => false end &&
  token_ok ["."; "_"; "-"]%char 64 (et_version t) && token_ok ["."; "_"; "-"]%char 100 (et_routingId t) &&
  (Z.of_nat (length (et_controls t)) <=? 3) && bool_decide (NoDup (et_controls t)).

Definition ExecutionBinding_parse (b : ExecutionBinding) : result ExecutionBinding :=
  ok_or (ExecutionTarget_ok (eb_target b) && Id_ok (eb_taskId b) && Id_ok (eb_tenantId b)
         && Id_ok (principal_id (eb_principal b)) && token_ok ["."; "_"; ":"; "-"]%char 160 (eb_releaseId b)
         && Id_ok (eb_executionKey b) && Timestamp_ok (eb_boundAt b) && Digest_ok (eb_definitionDigest b))
    "ExecutionBinding";;
  ok_or (eb_executionKey b === eb_taskId b) "Workflow key must equal task identity";;
  Ok b.

(** ** The JSON of the contracts *)

Definition budget_json (b : Budget) : json :=
  JObj [("amount", json_of_number (amount b)); ("currency", JStr (currency b))].

Definition task_json (t : Task) : json :=
  JObj ([("id", JStr (task_id t))] ++ opt_field "parentTaskId" (JStr <$> task_parentTaskId t)
    ++ [("principal", principal_json (task_principal t)); ("tenant", JObj [("id", JStr (task_tenant t))]);
        ("objective", JStr (task_objective t));
        ("acceptanceCriteria", JArr (map JStr (task_acceptanceCriteria t)));
        ("constraints", JArr (map JStr (task_constraints t)));
        ("riskClass", JStr (Plan.risk_name (task_riskClass t)))]
    ++ opt_field "budget" (budget_json <$> task_budget t)
    ++ opt_field "deadline" (JStr <$> task_deadline t)
    ++ [("status", JStr (status_name (task_status t))); ("traceId", JStr (task_traceId t));
        ("createdAt", JStr (task_createdAt t))]
    ++ opt_field "startedAt" (JStr <$> task_startedAt t)
    ++ opt_field "completedAt" (JStr <$> task_completedAt t)).

Definition payload_json (p : EventPayload) : json :=
  match p with
  | PlanPayload before plan others => JObj (before ++ ("plan", plan_json plan) :: others)
  | JsonPayload j => j
  end.

Definition event_json (e : TaskEvent) : json :=
  JObj ([("id", JStr (te_id e)); ("taskId", JStr (te_taskId e))]
    ++ opt_field "stepId" (JStr <$> te_stepId e)
    ++ [("type", JStr (event_type_name (te_type e))); ("occurredAt", JStr (te_occurredAt e));
        ("actor", principal_json (te_actor e)); ("traceId", JStr (te_traceId e));
        ("payload", payload_json (te_payload e))]).

Definition evidence_type_name (t : EvidenceType) : string :=
  match t with
  | DETERMINISTIC_RESULT => "DETERMINISTIC_RESULT" | TOOL_RECEIPT => "TOOL_RECEIPT"
  | ARTIFACT => "ARTIFACT" | HUMAN_DECISION => "HUMAN_DECISION"
  end.

Definition evidence_json (e : Evidence) : json :=
  JObj ([("id", JStr (ev_id e)); ("taskId", JStr (ev_taskId e))]
    ++ opt_field "stepId" (JStr <$> ev_stepId e)
    ++ [("type", JStr (evidence_type_name (ev_type e))); ("source", JStr (ev_source e))]
    ++ opt_field "ref" (JStr <$> ev_ref e) ++ opt_field "uri" (JStr <$> ev_uri e)
    ++ opt_field "digest" (JStr <$> ev_digest e)
    ++ [("capturedAt", JStr (ev_capturedAt e)); ("metadata", JObj (ev_metadata e))]).

Definition outcome_status_name (s : OutcomeStatus) : string :=
  match s with O_COMPLETED => "COMPLETED" | O_FAILED => "FAILED" | O_CANCELLED => "CANCELLED" end.

Definition outcome_json (o : Outcome) : json :=
  JObj [("taskId", JStr (out_taskId o)); ("status", JStr (outcome_status_name (out_status o)));
        ("acceptanceResults", JArr (map (λ r, JObj [("criterion", JStr (ar_criterion r));
           ("passed", JBool (ar_passed r)); ("evidenceRefs", JArr (map JStr (ar_evidenceRefs r)))])
           (out_acceptanceResults o)));
        ("evidenceRefs", JArr (map JStr (out_evidenceRefs o))); ("summary", JStr (out_summary o));
        ("completedAt", JStr (out_completedAt o))].

Definition control_name (c : ControlAction) : string :=
  match c with C_cancel => "cancel" | C_signal => "signal" | C_approve => "approve" end.

Definition binding_json (b : ExecutionBinding) : json :=
  let t := eb_target b in
  JObj [("service", JStr (et_service t)); ("version", JStr (et_version t)); ("routingId", JStr (et_routingId t));
        ("controls", JArr (map (λ c, JStr (control_name c)) (et_controls t)));
        ("taskId", JStr (eb_taskId b)); ("tenantId", JStr (eb_tenantId b));
        ("principal", principal_json (eb_principal b)); ("releaseId", JStr (eb_releaseId b));
        ("executionKey", JStr (eb_executionKey b)); ("boundAt", JStr (eb_boundAt b));
        ("definitionDigest", JStr (eb_definitionDigest b))].

(** ** The tables *)

Record LedgerEvent := { le_event : TaskEvent; le_key : string; le_digest : string }.

Record EffectReceipt := {
  ef_taskId : string; ef_operationId : string; ef_stepId : string; ef_confirmed : bool; ef_evidenceId : option string
}.

(** A row that carries a contract has its columns equal to the contract's fields (the
    schema's CHECK constraints), so the contract stands for the row.  [X] holds the tables
    of the faculty and identity pins, which the completion oracles read. *)
Record LedgerDb (X : Type) := LDb {
  l_principals : gmap string PrincipalKind;
  l_roles : list (string * PrincipalRef * string);      (* ACTIVE memberships *)
  l_tasks : gmap string Task;
  l_steps : gmap string TaskStep;
  l_evidence : gmap string Evidence;
  l_events : list LedgerEvent;
  l_outcomes : gmap string Outcome;                     (* by task *)
  l_terminal : gmap string Outcome;                     (* terminal_results, by task *)
  l_bindings : gmap string ExecutionBinding;
  l_effects : list EffectReceipt;
  l_pins : X
}.
Arguments LDb {_} _ _ _ _ _ _ _ _ _ _ _.
Arguments l_principals {_} _.
Arguments l_roles {_} _.
Arguments l_tasks {_} _.
Arguments l_steps {_} _.
Arguments l_evidence {_} _.
Arguments l_events {_} _.
Arguments l_outcomes {_} _.
Arguments l_terminal {_} _.
Arguments l_bindings {_} _.
Arguments l_effects {_} _.
Arguments l_pins {_} _.

Section tables.
Context {X : Type}.
Implicit Types (d : LedgerDb X).

Definition set_tasks (f : gmap string Task → gmap string Task) d : LedgerDb X :=
  LDb (l_principals d) (l_roles d) (f (l_tasks d)) (l_steps d) (l_evidence d) (l_events d) (l_outcomes d)
    (l_terminal d) (l_bindings d) (l_effects d) (l_pins d).
Definition set_steps (f : gmap string TaskStep → gmap string TaskStep) d : LedgerDb X :=
  LDb (l_principals d) (l_roles d) (l_tasks d) (f (l_steps d)) (l_evidence d) (l_events d) (l_outcomes d)
    (l_terminal d) (l_bindings d) (l_effects d) (l_pins d).
Definition set_evidence (f : gmap string Evidence → gmap string Evidence) d : LedgerDb X :=
  LDb (l_principals d) (l_roles d) (l_tasks d) (l_steps d) (f (l_evidence d)) (l_events d) (l_outcomes d)
    (l_terminal d) (l_bindings d) (l_effects d) (l_pins d).
Definition set_events (f : list LedgerEvent → list LedgerEvent) d : LedgerDb X :=
  LDb (l_principals d) (l_roles d) (l_tasks d) (l_steps d) (l_evidence d) (f (l_events d)) (l_outcomes d)
    (l_terminal d) (l_bindings d) (l_effects d) (l_pins d).
Definition set_outcomes (f : gmap string Outcome → gmap string Outcome) d : LedgerDb X :=
  LDb (l_principals d) (l_roles d) (l_tasks d) (l_steps d) (l_evidence d) (l_events d) (f (l_outcomes d))
    (l_terminal d) (l_bindings d) (l_effects d) (l_pins d).
Definition set_terminal (f : gmap string Outcome → gmap string Outcome) d : LedgerDb X :=
  LDb (l_principals d) (l_roles d) (l_tasks d) (l_steps d) (l_evidence d) (l_events d) (l_outcomes d)
    (f (l_terminal d)) (l_bindings d) (l_effects d) (l_pins d).
Definition set_bindings (f : gmap string ExecutionBinding → gmap string ExecutionBinding) d : LedgerDb X :=
  LDb (l_principals d) (l_roles d) (l_tasks d) (l_steps d) (l_evidence d) (l_events d) (l_outcomes d)
    (l_terminal d) (f (l_bindings d)) (l_effects d) (l_pins d).
Definition set_effects (f : list EffectReceipt → list EffectReceipt) d : LedgerDb X :=
  LDb (l_principals d) (l_roles d) (l_tasks d) (l_steps d) (l_evidence d) (l_events d) (l_outcomes d)
    (l_terminal d) (l_bindings d) (f (l_effects d)) (l_pins d).

(** [begin] ... [commit], [rollback] on a throw. *)
Definition transact {A} (m : prog (LedgerDb X) A) : prog (LedgerDb X) A := λ d,
  match m d with
  | (d', Ok a) => (d', Ok a)
  | (_, Throw e) => (d, Throw e)
  end.

Definition guard (c : bool) (e : exn) : prog (LedgerDb X) unit := lift_result (ensure c e).

Definition modify (f : LedgerDb X → LedgerDb X) : prog (LedgerDb X) unit := d ← get_st; put_st (f d).

(** [authorize(db, ...)] against this database's memberships. *)
Definition authorize (tenant : string) (p : PrincipalRef) (action : Permission) : prog (LedgerDb X) unit := λ d,
  (d, snd (Approval.authorize tenant p action
    {| db_roles := l_roles d; db_tasks := ∅; db_steps := ∅; db_events := []; db_approvals := ∅; db_evidence := ∅ |})).

(** *** execution-binding.ts *)

Definition bindingFor (task : Task) (target : ExecutionTarget) (releaseId : string) : result ExecutionBinding :=
  ok_or (ExecutionTarget_ok target) "ExecutionTarget";;
  ExecutionBinding_parse
    {| eb_target := target; eb_taskId := task_id task; eb_tenantId := task_tenant task;
       eb_principal := task_principal task; eb_releaseId := releaseId; eb_executionKey := task_id task;
       eb_boundAt := task_createdAt task; eb_definitionDigest := capabilityDigest (task_json task) |}.

Definition readBinding (taskId : string) d : result (option ExecutionBinding) :=
  match l_bindings d !! taskId with
  | Some b => x ← ExecutionBinding_parse b; Ok (Some x)
  | None => Ok None
  end.

(** [{ ...stored, releaseId }] *)
Definition with_release (releaseId : string) (b : ExecutionBinding) : ExecutionBinding :=
  {| eb_target := eb_target b; eb_taskId := eb_taskId b; eb_tenantId := eb_tenantId b;
     eb_principal := eb_principal b; eb_releaseId := releaseId; eb_executionKey := eb_executionKey b;
     eb_boundAt := eb_boundAt b; eb_definitionDigest := eb_definitionDigest b |}.

Definition persistBinding (raw : ExecutionBinding) : prog (LedgerDb X) ExecutionBinding :=
  binding ← lift_result (ExecutionBinding_parse raw);
  modify (set_bindings (λ m, match m !! eb_taskId binding with Some _ => m | None => <[eb_taskId binding := binding]> m end));;
  d ← get_st;
  stored ← lift_result (readBinding (eb_taskId binding) d);
  match stored with
  | None => throw_st (js_error "Execution binding conflict")
  | Some s =>
      guard (capabilityDigest (binding_json (with_release (eb_releaseId binding) s)) ===
             capabilityDigest (binding_json binding)) (js_error "Execution binding conflict");;
      mret s
  end.

(** *** terminal.ts *)

Definition unresolved_effect (taskId : string) (effects : list EffectReceipt) : bool :=
  existsb (λ u, (ef_taskId u === taskId) && negb (ef_confirmed u) &&
    negb (existsb (λ c, (ef_taskId c === ef_taskId u) && (ef_operationId c === ef_operationId u) && ef_confirmed c) effects))
    effects.

Definition assertResolvedEffects (taskId : string) : prog (LedgerDb X) unit :=
  d ← get_st;
  guard (negb (unresolved_effect taskId (l_effects d))) (Exn "UnresolvedEffectError" "Effect outcome is UNRESOLVED").

Definition terminal (s : TaskStatus) : bool := bool_decide (s ∈ [COMPLETED; FAILED; CANCELLED]).

Definition find_effect (taskId operationId : string) (confirmed : bool) (effects : list EffectReceipt)
  : option EffectReceipt :=
  List.find (λ r, (ef_taskId r === taskId) && (ef_operationId r === operationId) &&
                  Bool.eqb (ef_confirmed r) confirmed) effects.

Definition recordEffectTx (taskId stepId operationId : string) (evidenceId : option string) : prog (LedgerDb X) unit :=
  guard (Id_ok taskId && Id_ok stepId && Id_ok operationId && opt_ok Id_ok (truthy evidenceId)) (zod_error "id");;
  d ← get_st;
  guard (match l_tasks d !! taskId with Some t => negb (terminal (task_status t)) | None => false end)
    (js_error "Effect task is terminal or missing");;
  guard (match truthy evidenceId with
         | None => true
         | Some i => match l_evidence d !! i with
                     | Some e => (ev_taskId e === taskId) && (ev_stepId e === Some stepId)
                     | None => false end
         end) (js_error "Effect evidence scope mismatch");;
  let confirmed := bool_decide (is_Some (truthy evidenceId)) in
  modify (set_effects (λ l, match find_effect taskId operationId confirmed l with
    | Some _ => l
    | None => l ++ [{| ef_taskId := taskId; ef_operationId := operationId; ef_stepId := stepId;
                       ef_confirmed := confirmed; ef_evidenceId := evidenceId |}]
    end));;
  d' ← get_st;
  guard (match find_effect taskId operationId confirmed (l_effects d') with
         | Some r => (ef_stepId r === stepId) && (ef_evidenceId r === evidenceId)
         | None => false end) (js_error "Effect receipt conflict").

Definition recordEffect (taskId stepId operationId : string) (evidenceId : option string) : prog (LedgerDb X) unit :=
  transact (recordEffectTx taskId stepId operationId evidenceId).

(** [coalesce(o.contract, t.contract)] of an existing task. *)
Definition stored_outcome (taskId : string) d : option Outcome :=
  match l_tasks d !! taskId with
  | None => None
  | Some _ => match l_outcomes d !! taskId with Some o => Some o | None => l_terminal d !! taskId end
  end.

Definition readOutcome (taskId : string) : prog (LedgerDb X) (option Outcome) :=
  d ← get_st;
  match stored_outcome taskId d with
  | Some c => o ← lift_result (Outcome_parse c); mret (Some o)
  | None => mret None
  end.
End tables.

(** ** ledger.ts *)

Record Write := {
  w_key : string; w_task : Task; w_event : TaskEvent; w_step : option TaskStep;
  w_steps : option (list TaskStep); w_evidence : option Evidence; w_outcome : option Outcome
}.

(** [JSON.stringify(input)], the fields in the order of the interface. *)
Definition write_json (w : Write) : json :=
  JObj ([("key", JStr (w_key w)); ("task", task_json (w_task w)); ("event", event_json (w_event w))]
    ++ opt_field "step" (task_step_json <$> w_step w)
    ++ opt_field "steps" ((λ l, JArr (map task_step_json l)) <$> w_steps w)
    ++ opt_field "evidence" (evidence_json <$> w_evidence w)
    ++ opt_field "outcome" (outcome_json <$> w_outcome w)).

Definition verification_error (msg : string) : exn := Exn "CompletionVerificationError" msg.

Definition verifyCompletion (check : result unit) : result unit :=
  match check with
  | Ok tt => Ok tt
  | Throw _ => Throw (verification_error "Persisted completion verification failed")
  end.

(** [{ ...original, status, startedAt?, completedAt? }] *)
Definition with_progress (original task : Task) : Task :=
  {| task_id := task_id original; task_parentTaskId := task_parentTaskId original;
     task_principal := task_principal original; task_tenant := task_tenant original;
     task_objective := task_objective original; task_acceptanceCriteria := task_acceptanceCriteria original;
     task_constraints := task_constraints original; task_riskClass := task_riskClass original;
     task_budget := task_budget original; task_deadline := task_deadline original;
     task_status := task_status task; task_traceId := task_traceId original;
     task_createdAt := task_createdAt original;
     task_startedAt := match task_startedAt task with Some s => Some s | None => task_startedAt original end;
     task_completedAt := match task_completedAt task with Some s => Some s | None => task_completedAt original end |}.

(** The evidence as the completion query reads it: ref and uri are left out, the digest is
    null when absent (which no [Evidence] accepts), the instant is written in milliseconds. *)
Definition stored_record (e : Evidence) : result Evidence :=
  match ev_digest e with
  | None => Throw (zod_error "digest")
  | Some _ =>
      Ok {| ev_id := ev_id e; ev_taskId := ev_taskId e; ev_stepId := ev_stepId e; ev_type := ev_type e;
            ev_source := ev_source e; ev_ref := None; ev_uri := None; ev_digest := ev_digest e;
            ev_capturedAt := match Date_parse (ev_capturedAt e) with Some t => toISOString t | None => ev_capturedAt e end;
            ev_metadata := ev_metadata e |}
  end.

Section write.
Context {X : Type} (toUpperCase : string → string) (url_ok : string → bool).
Context (toLowerCase : string → string).
(** The faculty and identity oracles over the pin tables: faculty/verify.ts and
    identity/evidence-verify.ts. *)
Context (verifyFacultyEvidence verifyIdentityEvidence :
  LedgerDb X → Task → option ExecutionPlan → list Evidence → result unit).
(** The worker's workflow, release and approved content digest. *)
Context (workflow : option ExecutionTarget) (releaseId : string) (canary : option string).
Implicit Types (d : LedgerDb X).

(** The rows of the completion query: the task's evidence whose step is the task's. *)
Definition evidence_rows (taskId : string) d : list (Evidence * TaskStep) :=
  List.flat_map (λ e, match ev_stepId e with
    | Some s => match l_steps d !! s with
                | Some st => if (step_taskId st === taskId) && (ev_taskId e === taskId) then [(e, st)] else []
                | None => [] end
    | None => [] end) (map snd (map_to_list (l_evidence d))).

Definition plan_events (taskId : string) d : list TaskEvent :=
  List.filter (λ e, (te_taskId e === taskId) && (te_type e === PLAN_COMPILED)) (map le_event (l_events d)).

Definition event_plan (e : TaskEvent) : option ExecutionPlan :=
  match te_payload e with PlanPayload _ p _ => Some p | JsonPayload _ => None end.

(** [verifyEvidence] of deterministic.ts. *)
Definition verifyEvidence (e : Evidence) (task : Task) (stepId : string) : bool :=
  let input := task_objective task in
  let output := stepB (stepA toUpperCase (task_objective task)) in
  let data := JObj [("input", JStr input); ("output", JStr output); ("recipe", JStr "uppercase-reverse/v1")] in
  (ev_taskId e === task_id task) && (ev_stepId e === Some stepId) && (ev_type e === DETERMINISTIC_RESULT) &&
  (ev_source e === "kerneljson:uppercase-reverse/v1") && (ev_digest e === Some (digest data)) &&
  bool_decide (length (ev_metadata e) = 3%nat) &&
  meta_is e "input" input && meta_is e "output" output && meta_is e "recipe" "uppercase-reverse/v1".

(** [value === text] for a JSON value and a string. *)
Definition json_is (v : option json) (text : string) : bool :=
  match v with Some (JStr x) => x === text | _ => false end.

(** A row the plan-less completion accepts. *)
Definition checked_row (old task : Task) (row : Evidence * TaskStep) : result (list Evidence) :=
  e ← Evidence_parse url_ok row.1;
  s ← TaskStep_parse row.2;
  Ok (if (step_status s === COMPLETED) && (step_kind s === DETERMINISTIC_FUNCTION) &&
         (step_idempotencyKey s === Some (task_id task +:+ ":B")) &&
         json_is (Some (step_input s)) (stepA toUpperCase (task_objective task)) &&
         json_is (step_output s) (stepB (stepA toUpperCase (task_objective task))) &&
         verifyEvidence e old (step_id s)
      then [e] else []).

Fixpoint checked_rows (old task : Task) (rows : list (Evidence * TaskStep)) : result (list Evidence) :=
  match rows with
  | [] => Ok []
  | r :: rows' => x ← checked_row old task r; xs ← checked_rows old task rows'; Ok (x ++ xs)
  end.

Fixpoint stored_rows (rows : list (Evidence * TaskStep)) : result (list (Evidence * TaskStep)) :=
  match rows with
  | [] => Ok []
  | (e, s) :: rows' => e' ← stored_record e; xs ← stored_rows rows'; Ok ((e', s) :: xs)
  end.

(** The checks of a move to COMPLETED, in the order of the code. *)
Definition completion_checks (old task : Task) (event : TaskEvent) (outcome : option Outcome) : prog (LedgerDb X) unit :=
  assertResolvedEffects (task_id task);;
  match outcome with
  | None => throw_st (verification_error "Completion requires an outcome")
  | Some o =>
      d ← get_st;
      let plans := plan_events (task_id task) d in
      let plan := head plans ≫= event_plan in
      rows ← lift_result (match stored_rows (evidence_rows (task_id task) d) with
        | Ok r => Ok r | Throw _ => Throw (verification_error "Persisted completion verification failed") end);
      let records := map fst rows in
      lift_result (verifyCompletion (verifyFacultyEvidence d task plan records));;
      (if (plan_recipe <$> plan) === Some RepoAnalysisMission then
         lift_result (verifyCompletion (verifyIdentityEvidence d task plan records))
       else mret tt);;
      lift_result (verifyCompletion (parsed ← parse_all (Evidence_parse url_ok) records;
        ensure (negb (existsb (λ e, date_lt (ev_capturedAt e) (task_createdAt task) ||
                                    date_lt (te_occurredAt event) (ev_capturedAt e)) parsed))
          (js_error "Evidence freshness mismatch")));;
      guard (bool_decide (length plans = 1%nat))
        (verification_error "Completion requires exactly one authoritative compiled plan");;
      (match plan with
       | Some p =>
           let persisted := List.filter (λ s, step_taskId s === task_id task) (map snd (map_to_list (l_steps d))) in
           lift_result (verifyCompletion (verifyPlanCompletion toUpperCase url_ok
             (verifyMissionCompletion toLowerCase url_ok) (verifyBriefCompletion toLowerCase url_ok) old o p persisted records canary))
       | None =>
           lift_result (verifyCompletion (checked ← checked_rows old task rows; assertCompletion old o checked))
       end);;
      guard (te_type event === TASK_COMPLETED) (verification_error "Completion event required")
  end.

(** The trigger before an update of [tasks]. *)
Definition transition_trigger (old new : TaskStatus) : bool :=
  negb (terminal old) && (bool_decide (old = new) || bool_decide (new ∈ transitions old)).

(** [to_char(t at time zone 'UTC', 'YYYY-MM-DD"T"HH24:MI:SS.MS"Z"')] of a [timestamptz] read from
    the text: rounded to microseconds, then cut to milliseconds. *)
Definition to_char_utc (s : string) : string :=
  match Date_parse s with
  | Some t =>
      let '(m, n, _) := eat_digits 0 0 (match cut_at "." s with Some (_, r) => r | None => EmptyString end) in
      let unit := 10 ^ Z.of_nat n in
      toISOString (t - m * 1000 / unit + nearest (m * 1000000) unit / 1000)
  | None => s
  end.

Example to_char_forms :
  map to_char_utc ["2026-11-19T10:00:00+01:00"; "2026-11-19T10:00:00.1239Z"; "2026-12-31T23:59:59.9999996Z"] =
  ["2026-11-19T09:00:00.000Z"; "2026-11-19T10:00:00.123Z"; "2027-01-01T00:00:00.000Z"].
Proof. vm_compute. reflexivity. Qed.

(** The trigger after an insert or update of [tasks]; [at_] is [updated_at]. *)
Definition terminal_trigger (at_ : string) (t : Task) (m : gmap string Outcome) : gmap string Outcome :=
  let record status word :=
    match m !! task_id t with
    | Some _ => m
    | None => <[task_id t :=
        {| out_taskId := task_id t; out_status := status;
           out_acceptanceResults := map (λ c, {| ar_criterion := c; ar_passed := false; ar_evidenceRefs := [] |})
             (task_acceptanceCriteria t);
           out_evidenceRefs := []; out_summary := "Task " +:+ word +:+ "; no completion evidence asserted";
           out_completedAt := default (to_char_utc at_) (task_completedAt t) |}]> m
    end in
  match task_status t with
  | FAILED => record O_FAILED "failed"
  | CANCELLED => record O_CANCELLED "cancelled"
  | _ => m
  end.

Definition find_key (taskId key : string) (es : list LedgerEvent) : option LedgerEvent :=
  List.find (λ e, (te_taskId (le_event e) === taskId) && (le_key e === key)) es.

(** A task that is not in the ledger yet. *)
Definition create_task (task : Task) (event : TaskEvent) : prog (LedgerDb X) unit :=
  guard ((task_status task === RECEIVED) && (te_type event === TASK_CREATED)) (js_error "Task must begin RECEIVED");;
  d ← get_st;
  guard (l_principals d !! principal_id (task_principal task) === Some (principal_kind (task_principal task)))
    (js_error "Principal kind mismatch");;
  authorize (task_tenant task) (task_principal task) P_submit;;
  (match workflow with
   | Some target =>
       wanted ← lift_result (bindingFor task target releaseId);
       binding ← persistBinding wanted;
       guard (eb_releaseId binding === releaseId) (js_error "Task requires its bound worker release")
   | None => mret tt
   end);;
  modify (set_tasks <[task_id task := task]>).

(** A task that is in the ledger with the contract [old]. *)
Definition move_task (old task : Task) (event : TaskEvent) (outcome : option Outcome) : prog (LedgerDb X) unit :=
  original ← lift_result (Task_parse old);
  expected ← lift_result (Task_parse (with_progress original task));
  guard (digest (task_json expected) === digest (task_json task)) (js_error "Task definition is immutable");;
  (if task_status old === task_status task then mret tt
   else lift_result (assertTransition (task_status old) (task_status task)));;
  (if task_status task === COMPLETED then completion_checks old task event outcome else mret tt);;
  guard (transition_trigger (task_status old) (task_status task)) (pg_error "23514");;
  modify (set_tasks <[task_id task := task]>);;
  modify (set_terminal (terminal_trigger (te_occurredAt event) task)).

(** [insert ... on conflict(id) do update ... where task_steps.task_id = excluded.task_id] *)
Definition upsert_step (m : gmap string TaskStep) (s : TaskStep) : gmap string TaskStep :=
  match m !! step_id s with
  | Some old => if step_taskId old === step_taskId s then <[step_id s := s]> m else m
  | None => <[step_id s := s]> m
  end.

Definition insert_evidence (e : Evidence) : prog (LedgerDb X) unit :=
  d ← get_st;
  guard (match l_evidence d !! ev_id e with Some _ => false | None => true end) (pg_error "23505");;
  modify (set_evidence <[ev_id e := e]>).

Definition insert_event (ev : LedgerEvent) : prog (LedgerDb X) unit :=
  d ← get_st;
  guard (negb (existsb (λ x, te_id (le_event x) === te_id (le_event ev)) (l_events d)) &&
         match find_key (te_taskId (le_event ev)) (le_key ev) (l_events d) with Some _ => false | None => true end)
    (pg_error "23505");;
  modify (set_events (λ l, l ++ [ev])).

Definition insert_outcome (taskId : string) (o : Outcome) : prog (LedgerDb X) unit :=
  d ← get_st;
  guard (out_taskId o === taskId) (pg_error "23514");;
  guard (match l_outcomes d !! taskId with Some _ => false | None => true end) (pg_error "23505");;
  modify (set_outcomes <[taskId := o]>).

Definition opt_run {A} (f : A → prog (LedgerDb X) unit) (o : option A) : prog (LedgerDb X) unit :=
  match o with Some x => f x | None => mret tt end.

(** The transaction of [write]; the arguments are the parsed contracts and the digest of the input. *)
Definition write_body (key hash : string) (task : Task) (event : TaskEvent) (steps : list TaskStep)
    (evidence : option Evidence) (outcome : option Outcome) : prog (LedgerDb X) unit :=
  d ← get_st;
  match find_key (task_id task) key (l_events d) with
  | Some prior =>
      guard (le_digest prior === hash) (js_error "Idempotency key reused with different input")
  | None =>
      (match l_tasks d !! task_id task with
       | None => create_task task event
       | Some old => move_task old task event outcome
       end);;
      modify (set_steps (λ m, fold_left upsert_step steps m));;
      opt_run insert_evidence evidence;;
      insert_event {| le_event := event; le_key := key; le_digest := hash |};;
      opt_run (insert_outcome (task_id task)) outcome
  end.

Definition write (input : Write) : prog (LedgerDb X) unit :=
  task ← lift_result (Task_parse (w_task input));
  event ← lift_result (TaskEvent_parse (w_event input));
  guard (negb ((te_taskId event !== task_id task) || (te_traceId event !== task_traceId task) ||
               (principal_id (te_actor event) !== principal_id (task_principal task))))
    (js_error "Event/task mismatch");;
  step ← lift_result (opt_parse TaskStep_parse (w_step input));
  steps ← lift_result (parse_all TaskStep_parse
    (default [] (w_steps input) ++ match step with Some s => [s] | None => [] end));
  guard (bool_decide (NoDup (map step_id steps)) && forallb (λ s, step_taskId s === task_id task) steps)
    (js_error "Invalid task step batch");;
  evidence ← lift_result (opt_parse (Evidence_parse url_ok) (w_evidence input));
  outcome ← lift_result (opt_parse Outcome_parse (w_outcome input));
  guard (match step with Some s => step_taskId s === task_id task | None => true end) (js_error "Step/task mismatch");;
  guard (match evidence with Some e => ev_taskId e === task_id task | None => true end)
    (js_error "Evidence/task mismatch");;
  transact (write_body (w_key input) (digest (write_json input)) task event steps evidence outcome).

(** The input of the FAILED write of [finish]. *)
Definition failed_outcome (input : Write) : Outcome :=
  {| out_taskId := task_id (w_task input); out_status := O_FAILED;
     out_acceptanceResults := map (λ c, {| ar_criterion := c; ar_passed := false; ar_evidenceRefs := [] |})
       (task_acceptanceCriteria (w_task input));
     out_evidenceRefs := []; out_summary := "Persisted completion verification failed";
     out_completedAt := te_occurredAt (w_event input) |}.

Definition with_status (t : Task) (s : TaskStatus) : Task :=
  {| task_id := task_id t; task_parentTaskId := task_parentTaskId t; task_principal := task_principal t;
     task_tenant := task_tenant t; task_objective := task_objective t;
     task_acceptanceCriteria := task_acceptanceCriteria t; task_constraints := task_constraints t;
     task_riskClass := task_riskClass t; task_budget := task_budget t; task_deadline := task_deadline t;
     task_status := s; task_traceId := task_traceId t; task_createdAt := task_createdAt t;
     task_startedAt := task_startedAt t; task_completedAt := task_completedAt t |}.

Definition failed_event (e : TaskEvent) : TaskEvent :=
  {| te_id := te_id e; te_taskId := te_taskId e; te_stepId := te_stepId e; te_type := TASK_FAILED;
     te_occurredAt := te_occurredAt e; te_actor := te_actor e; te_traceId := te_traceId e;
     te_payload := JsonPayload (JObj [("reason", JStr "VERIFICATION_FAILED")]) |}.

Definition finish (input : Write) : prog (LedgerDb X) Outcome :=
  existing ← readOutcome (task_id (w_task input));
  match existing with
  | Some o => mret o
  | None => λ d,
      match write input d with
      | (d', Ok _) =>
          (d', match w_outcome input with Some o => Outcome_parse o | None => Throw (zod_error "Outcome") end)
      | (d', Throw e) =>
          if exn_class e === "CompletionVerificationError" then
            (outcome ← lift_result (Outcome_parse (failed_outcome input));
             failedTask ← lift_result (Task_parse (with_status (w_task input) FAILED));
             event ← lift_result (TaskEvent_parse (failed_event (w_event input)));
             write {| w_key := w_key input +:+ ":verification-failed"; w_task := failedTask; w_event := event;
                      w_step := w_step input; w_steps := w_steps input; w_evidence := w_evidence input;
                      w_outcome := Some outcome |};;
             mret outcome) d'
          else (d', Throw e)
      end
  end.

End write.

(** A worker: its workflow's target, its release and the approved content digest. *)
Record Worker := { wk_workflow : option ExecutionTarget; wk_releaseId : string; wk_canary : option string }.

Inductive LedgerOp :=
  | OpWrite (input : Write)
  | OpFinish (input : Write)
  | OpEffect (taskId stepId operationId : string) (evidenceId : option string).

Section status.
Context {X : Type}.

Definition status (id : string) : prog (LedgerDb X) (option Task) :=
  d ← get_st;
  match l_tasks d !! id with
  | Some t => x ← lift_result (Task_parse t); mret (Some x)
  | None => mret None
  end.
End status.

(** ** What the operations change *)

Section effects.
Context {X : Type} (toUpperCase : string → string) (url_ok : string → bool).
Context (toLowerCase : string → string).
Context (verifyFacultyEvidence verifyIdentityEvidence :
  LedgerDb X → Task → option ExecutionPlan → list Evidence → result unit).
Implicit Types (d : LedgerDb X).

Lemma guard_passed c e d d' u : guard c e d = (d', Ok u) → d' = d ∧ c = true.
Proof. unfold guard. intros [-> H]%lift_ok. by destruct c. Qed.

Lemma modify_ok f d d' u : modify f d = (d', Ok u) → d' = f d.
Proof. by intros [= <-]. Qed.

Lemma modify_bind {B} f (k : unit → prog (LedgerDb X) B) d : (modify f ≫= k) d = k tt (f d).
Proof. done. Qed.

Lemma commit_or_rollback {A} (m : prog (LedgerDb X) A) d d' r :
  transact m d = (d', r) → (∃ e, r = Throw e ∧ d' = d) ∨ ∃ a, r = Ok a ∧ m d = (d', Ok a).
Proof.
  unfold transact. destruct (m d) as [d1 [a|e]]; intros [= <- <-]; [right; by exists a|left; by exists e].
Qed.

(** What the bindings table is not part of. *)
Definition core d := (l_tasks d, l_steps d, l_evidence d, l_events d, l_outcomes d, l_terminal d).

Lemma authorize_ok t p a d d' u : authorize t p a d = (d', Ok u) → d' = d.
Proof. by intros [= <- _]. Qed.

Lemma persistBinding_core b d d' s : persistBinding b d = (d', Ok s) → core d' = core d.
Proof.
  unfold persistBinding. intros (b' & d1 & [-> _]%lift_ok & H)%pbind_ok. rewrite modify_bind in H.
  rewrite get_bind in H. apply pbind_ok in H as (s' & d4 & [-> _]%lift_ok & H).
  destruct s' as [s'|]; [|done]. apply pbind_ok in H as ([] & d5 & [-> _]%guard_passed & [= <- _]). done.
Qed.

Lemma create_task_ok workflow releaseId task event d d' u :
  create_task workflow releaseId task event d = (d', Ok u) →
  task_status task = RECEIVED ∧ ∃ d1, core d1 = core d ∧ d' = set_tasks <[task_id task := task]> d1.
Proof.
  unfold create_task. intros ([] & d1 & [-> Hg]%guard_passed & H)%pbind_ok. to_prop.
  rewrite get_bind in H. apply pbind_ok in H as ([] & d1 & [-> _]%guard_passed & H).
  apply pbind_ok in H as ([] & d1 & ->%authorize_ok & H). apply pbind_ok in H as ([] & d1 & Hb & ->%modify_ok).
  split; [done|]. exists d1. split; [|done]. destruct workflow as [target|]; [|by injection Hb as <-].
  apply pbind_ok in Hb as (b & d3 & [-> _]%lift_ok & Hb). apply pbind_ok in Hb as (b' & d3 & Hp%persistBinding_core & Hb).
  by apply guard_passed in Hb as [-> _].
Qed.

(** The code's own check that only the progress of a task may change. *)
Definition same_definition (old task : Task) : Prop :=
  ∃ original expected, Task_parse old = Ok original ∧ Task_parse (with_progress original task) = Ok expected ∧
    digest (task_json expected) = digest (task_json task).

Definition may_move (from to : TaskStatus) : Prop := from = to ∨ to ∈ transitions from.

Lemma transition_trigger_ok from to : transition_trigger from to = true → terminal from = false ∧ may_move from to.
Proof.
  unfold transition_trigger, may_move. intros [Ht Ho]%andb_true_iff. to_prop. split; [done|].
  apply orb_true_iff in Ho as [Ho|Ho]; to_prop; auto.
Qed.

Lemma inserted_evidence e d d' u : insert_evidence e d = (d', Ok u) →
  d' = set_evidence <[ev_id e := e]> d ∧ l_evidence d !! ev_id e = None.
Proof.
  unfold insert_evidence. rewrite get_bind. intros H.
  apply pbind_ok in H as ([] & d3 & [-> Hg]%guard_passed & ->%modify_ok). split; [done|].
  by destruct (l_evidence d !! ev_id e).
Qed.

Lemma inserted_event ev d d' u : insert_event ev d = (d', Ok u) → d' = set_events (λ l, l ++ [ev]) d.
Proof.
  unfold insert_event. rewrite get_bind. intros H.
  by apply pbind_ok in H as ([] & d3 & [-> Hg]%guard_passed & ->%modify_ok).
Qed.

Lemma insert_outcome_ok i o d d' u : insert_outcome i o d = (d', Ok u) →
  d' = set_outcomes <[i := o]> d ∧ out_taskId o = i ∧ l_outcomes d !! i = None.
Proof.
  unfold insert_outcome. rewrite get_bind. intros H.
  apply pbind_ok in H as ([] & d3 & [-> Hg]%guard_passed & H).
  apply pbind_ok in H as ([] & d3 & [-> Hg']%guard_passed & ->%modify_ok). to_prop. split_and!; [done|done|].
  by destruct (l_outcomes d !! i).
Qed.

(** *** What a completion rests on *)

Lemma verifyPlanCompletion_asserts task o plan stored records approved :
  verifyPlanCompletion toUpperCase url_ok (verifyMissionCompletion toLowerCase url_ok)
    (verifyBriefCompletion toLowerCase url_ok) task o plan stored records approved = Ok tt →
  ∃ verified, rests_on records verified ∧ assertCompletion task o verified = Ok tt.
Proof.
  unfold verifyPlanCompletion. intros (p & _ & H)%bind_ok.
  apply bind_ok in H as (expected & _ & H). apply ensure_ok in H as [_ H].
  apply bind_ok in H as (steps & _ & H). apply ensure_ok in H as [_ H].
  case_bool_decide; [by eapply mission_verifier_sound|]. case_bool_decide; [by eapply brief_verifier_sound|].
  apply bind_ok in H as (nodes & _ & H). destruct (List.find _ nodes) as [node|].
  - unfold verify_capability in H. apply bind_ok in H as (parsed & Hp & H).
    destruct (List.find _ parsed) as [receipt|] eqn:Ef; [|done].
    destruct (assertClaudeMdReceipt _ _); [|done]. apply ensure_ok in H as [_ H].
    destruct (List.find _ steps); [|done]. apply ensure_ok in H as [_ H]. exists [receipt]. split; [|done].
    apply (rests_on_sub _ parsed); [|by apply (parsed_rests_on url_ok)].
    intros v ->%list_elem_of_singleton. apply list_elem_of_In. by apply find_some in Ef as [? _].
  - apply bind_ok in H as (outs & _ & H). apply bind_ok in H as (parsed & Hp & H).
    apply ensure_ok in H as [_ H]. eexists. split; [|exact H].
    apply (rests_on_sub _ parsed); [|by apply (parsed_rests_on url_ok)]. by intros v [? _]%elem_of_filter_bool.
Qed.

Lemma evidence_rows_elem taskId d r :
  r ∈ evidence_rows taskId d → ev_taskId r.1 = taskId ∧ ∃ i, l_evidence d !! i = Some r.1.
Proof.
  unfold evidence_rows. rewrite list_elem_of_In, in_flat_map. intros (e & He & Hr).
  apply list_elem_of_In, list_elem_of_fmap in He as ([i e'] & -> & He). apply elem_of_map_to_list in He. cbn [snd] in Hr.
  destruct (ev_stepId e') as [s|]; [|done]. destruct (l_steps d !! s) as [st|]; [|done].
  destruct (_ && _) eqn:E; [|done]. to_prop. destruct Hr as [<-|[]]. cbn [fst]. eauto.
Qed.

Lemma stored_rows_elem rows rows' r :
  stored_rows rows = Ok rows' → r ∈ rows' →
  ∃ x, x ∈ rows ∧ ev_id r.1 = ev_id x.1 ∧ ev_taskId r.1 = ev_taskId x.1.
Proof.
  revert rows'. induction rows as [|[e s] rows IH]; intros rows'; cbn [stored_rows].
  { intros <-%Ok_inj ?%elem_of_nil. done. }
  intros (e' & He & (xs & Hxs & <-%Ok_inj)%bind_ok)%bind_ok [->|Hr]%elem_of_cons.
  - unfold stored_record in He. destruct (ev_digest e); [|done]. apply Ok_inj in He as <-.
    exists (e, s). split; [left|done].
  - destruct (IH xs Hxs Hr) as (x & Hx & ?). exists x. split; [by right|done].
Qed.

(** A row of evidence that has a reference and no digest is not read back. *)
Lemma stored_rows_throw rows r : r ∈ rows → ev_digest r.1 = None → ∃ e, stored_rows rows = Throw e.
Proof.
  induction rows as [|[e s] rows IH]; [by intros ?%elem_of_nil|]. cbn [stored_rows]. unfold stored_record.
  intros [->|Hr]%elem_of_cons Hn; [cbn in Hn; rewrite Hn; by eexists|].
  destruct (ev_digest e); [|by eexists]. destruct (IH Hr Hn) as [x ->]. by exists x.
Qed.

Lemma checked_rows_rest old task rows checked :
  checked_rows toUpperCase url_ok old task rows = Ok checked → rests_on (map fst rows) checked.
Proof.
  revert checked. induction rows as [|r rows IH]; intros checked; cbn [checked_rows].
  { intros <-%Ok_inj v ?%elem_of_nil. done. }
  intros (x & Hx & (xs & Hxs & <-%Ok_inj)%bind_ok)%bind_ok v [Hv|Hv]%elem_of_app.
  - unfold checked_row in Hx. apply bind_ok in Hx as (e & [Hi Ht]%Evidence_parse_ids & Hx).
    apply bind_ok in Hx as (s & _ & <-%Ok_inj). destruct (_ && _); [|by apply elem_of_nil in Hv].
    apply list_elem_of_singleton in Hv as ->. exists r.1. split; [left|done].
  - destruct (IH xs Hxs v Hv) as (w & Hw & ?). exists w. split; [by right|done].
Qed.

(** The records a completion was asserted on are rows of the ledger. *)
Definition rows_of d (taskId : string) (verified : list Evidence) : Prop :=
  ∀ v, v ∈ verified → ∃ i e, l_evidence d !! i = Some e ∧ ev_id e = ev_id v ∧ ev_taskId e = taskId.

(** What a move to COMPLETED has passed. *)
Definition completed_by d (old task : Task) (event : TaskEvent) (outcome : option Outcome) : Prop :=
  te_type event = TASK_COMPLETED ∧ unresolved_effect (task_id task) (l_effects d) = false ∧
  length (plan_events (task_id task) d) = 1%nat ∧
  ∃ o verified, outcome = Some o ∧ assertCompletion old o verified = Ok tt ∧ rows_of d (task_id task) verified.

Context (workflow : option ExecutionTarget) (releaseId : string) (canary : option string).

Lemma rest_rows d taskId rows verified :
  stored_rows (evidence_rows taskId d) = Ok rows → rests_on (map fst rows) verified → rows_of d taskId verified.
Proof.
  intros Hs Hr v Hv. destruct (Hr v Hv) as (r & Hin & Hi & Ht).
  apply list_elem_of_In, in_map_iff in Hin as (x & <- & Hx%list_elem_of_In).
  destruct (stored_rows_elem _ _ _ Hs Hx) as (y & Hy & Hid & _).
  apply evidence_rows_elem in Hy as (Hty & i & Hl). exists i, y.1. split_and!; [done|congruence|done].
Qed.

Lemma verifyCompletion_ok c : verifyCompletion c = Ok tt → c = Ok tt.
Proof. by destruct c as [[]|]. Qed.

Lemma completion_checks_ok d d' old task event outcome :
  completion_checks toUpperCase url_ok toLowerCase verifyFacultyEvidence
    verifyIdentityEvidence canary old task event outcome d = (d', Ok tt) →
  d' = d ∧ completed_by d old task event outcome.
Proof.
  unfold completion_checks. intros ([] & d1 & H1 & H)%pbind_ok.
  unfold assertResolvedEffects in H1. rewrite get_bind in H1. apply guard_passed in H1 as [-> Hun].
  destruct outcome as [o|]; [|done]. rewrite get_bind in H. set (plans := plan_events _ _) in *.
  apply pbind_ok in H as (rows & d1 & [-> Hrows]%lift_ok & H).
  assert (Hs : stored_rows (evidence_rows (task_id task) d) = Ok rows) by (by destruct (stored_rows _)).
  apply pbind_ok in H as ([] & d1 & [-> _]%lift_ok & H).
  apply pbind_ok in H as ([] & d1 & H1 & H).
  assert (d1 = d) as ->. { destruct (_ === _) in H1; [by apply lift_ok in H1 as [-> _]|by apply ret_ok in H1 as [-> _]]. }
  apply pbind_ok in H as ([] & d1 & [-> _]%lift_ok & H).
  apply pbind_ok in H as ([] & d1 & [-> Hlen]%guard_passed & H). to_prop.
  apply pbind_ok in H as ([] & d1 & H2 & [-> Hev]%guard_passed). to_prop.
  destruct (head plans ≫= event_plan) as [p|].
  - apply lift_ok in H2 as [-> (v & Hv & Ha)%verifyCompletion_ok%verifyPlanCompletion_asserts].
    split; [done|]. split_and!; [done|done|done|]. exists o, v. split_and!; [done|done|by eapply rest_rows].
  - apply lift_ok in H2 as [-> (v & Hv%checked_rows_rest & Ha)%verifyCompletion_ok%bind_ok].
    split; [done|]. split_and!; [done|done|done|]. exists o, v. split_and!; [done|done|by eapply rest_rows].
Qed.

(** A task with such a row on one of its steps cannot complete, whatever its other evidence. *)
Lemma reference_evidence_blocks_completion d old task event o r :
  r ∈ evidence_rows (task_id task) d → ev_digest r.1 = None → unresolved_effect (task_id task) (l_effects d) = false →
  completion_checks toUpperCase url_ok toLowerCase verifyFacultyEvidence
    verifyIdentityEvidence canary old task event (Some o) d
  = (d, Throw (verification_error "Persisted completion verification failed")).
Proof.
  intros Hr Hn Hu. destruct (stored_rows_throw _ _ Hr Hn) as [x Hx]. unfold completion_checks, assertResolvedEffects.
  unfold mbind, prog_bind, get_st, guard, lift_result. rewrite Hu. cbn [negb ensure]. by rewrite Hx.
Qed.

(** What [write_body] requires of the task it changes. *)
Definition moved d (task : Task) (event : TaskEvent) (outcome : option Outcome) : Prop :=
  match l_tasks d !! task_id task with
  | None => task_status task = RECEIVED
  | Some old =>
      same_definition old task ∧ terminal (task_status old) = false ∧
      may_move (task_status old) (task_status task) ∧
      (task_status task = COMPLETED → completed_by d old task event outcome)
  end.

Definition terminal_after d (task : Task) (at_ : string) : gmap string Outcome :=
  match l_tasks d !! task_id task with
  | None => l_terminal d
  | Some _ => terminal_trigger at_ task (l_terminal d)
  end.

Lemma move_task_ok d d' old task event outcome :
  l_tasks d !! task_id task = Some old →
  move_task toUpperCase url_ok toLowerCase verifyFacultyEvidence
    verifyIdentityEvidence canary old task event outcome d = (d', Ok tt) →
  moved d task event outcome ∧
  core d' = (<[task_id task := task]> (l_tasks d), l_steps d, l_evidence d, l_events d, l_outcomes d,
             terminal_after d task (te_occurredAt event)).
Proof.
  intros El. unfold moved, terminal_after. rewrite El. unfold move_task.
  intros (original & d1 & [-> Ho]%lift_ok & H)%pbind_ok.
  apply pbind_ok in H as (expected & d1 & [-> He]%lift_ok & H).
  apply pbind_ok in H as ([] & d1 & [-> Hdig]%guard_passed & H). to_prop.
  apply pbind_ok in H as ([] & d1 & H1 & H).
  assert (d1 = d) as ->. { destruct (_ === _) in H1; [by apply ret_ok in H1 as [-> _]|by apply lift_ok in H1 as [-> _]]. }
  apply pbind_ok in H as ([] & d1 & H2 & H).
  assert (d1 = d ∧ (task_status task = COMPLETED → completed_by d old task event outcome)) as [-> Hc].
  { destruct (_ === _) eqn:Ec in H2; to_prop; [by apply completion_checks_ok in H2 as [-> ?]|by apply ret_ok in H2 as [-> _]]. }
  apply pbind_ok in H as ([] & d1 & [-> [Ht Hm]%transition_trigger_ok]%guard_passed & H).
  rewrite modify_bind in H. apply modify_ok in H as ->. split; [|done].
  split_and!; [|done|done|done]. by exists original, expected.
Qed.

(** The change one accepted [write] makes. *)
Record wrote (key hash : string) (task : Task) (event : TaskEvent) (evidence : option Evidence)
    (outcome : option Outcome) d d' : Prop := {
  wr_fresh : find_key (task_id task) key (l_events d) = None;
  wr_moved : moved d task event outcome;
  wr_tasks : l_tasks d' = <[task_id task := task]> (l_tasks d);
  wr_evidence_new : from_option (λ e, l_evidence d !! ev_id e = None) True evidence;
  wr_evidence : l_evidence d' = from_option (λ e, <[ev_id e := e]> (l_evidence d)) (l_evidence d) evidence;
  wr_events : l_events d' = l_events d ++ [{| le_event := event; le_key := key; le_digest := hash |}];
  wr_outcome_new : from_option (λ o, out_taskId o = task_id task ∧ l_outcomes d !! task_id task = None) True outcome;
  wr_outcomes : l_outcomes d' = from_option (λ o, <[task_id task := o]> (l_outcomes d)) (l_outcomes d) outcome;
  wr_terminal : l_terminal d' = terminal_after d task (te_occurredAt event)
}.

Lemma core_inj d1 t s e v o m :
  core d1 = (t, s, e, v, o, m) →
  l_tasks d1 = t ∧ l_evidence d1 = e ∧ l_events d1 = v ∧ l_outcomes d1 = o ∧ l_terminal d1 = m.
Proof. unfold core. intros H. injection H as <- <- <- <- <- <-. done. Qed.

Let run_body := write_body toUpperCase url_ok toLowerCase verifyFacultyEvidence
  verifyIdentityEvidence workflow releaseId canary.

Lemma write_body_ok key hash task event steps evidence outcome d d' :
  run_body key hash task event steps evidence outcome d = (d', Ok tt) →
  (∃ prior, find_key (task_id task) key (l_events d) = Some prior ∧ le_digest prior = hash ∧ d' = d) ∨
  wrote key hash task event evidence outcome d d'.
Proof.
  unfold run_body, write_body. rewrite get_bind. intros H.
  destruct (find_key _ _ _) as [prior|] eqn:Ek.
  { left. exists prior. apply guard_passed in H as [-> Hh]. by to_prop. }
  right. apply pbind_ok in H as ([] & d1 & H1 & H).
  assert (moved d task event outcome ∧
    core d1 = (<[task_id task := task]> (l_tasks d), l_steps d, l_evidence d, l_events d, l_outcomes d,
               terminal_after d task (te_occurredAt event))) as [Hm Hc].
  { destruct (l_tasks d !! task_id task) as [old|] eqn:El; [by eapply move_task_ok|].
    apply create_task_ok in H1 as (Hst & d2 & Hc & ->). unfold moved, terminal_after. rewrite El. split; [done|].
    unfold core in Hc. injection Hc as Et Es Ee Ev Eo Em. unfold core, set_tasks. cbn.
    by rewrite Et, Es, Ee, Ev, Eo, Em. }
  clear H1. apply core_inj in Hc as (Et & Ee & Ev & Eo & Em). rewrite modify_bind in H.
  apply pbind_ok in H as ([] & d2 & H2 & H). apply pbind_ok in H as ([] & d3 & ->%inserted_event & H).
  assert (l_tasks d2 = l_tasks d1 ∧ l_events d2 = l_events d1 ∧ l_outcomes d2 = l_outcomes d1 ∧
    l_terminal d2 = l_terminal d1 ∧ from_option (λ e, l_evidence d1 !! ev_id e = None) True evidence ∧
    l_evidence d2 = from_option (λ e, <[ev_id e := e]> (l_evidence d1)) (l_evidence d1) evidence)
    as (Ht2 & Hv2 & Ho2 & Hm2 & Hn2 & He2).
  { destruct evidence as [e|]; cbn [opt_run] in H2; [by apply inserted_evidence in H2 as [-> ?]|].
    by apply ret_ok in H2 as [-> _]. }
  assert (l_tasks d' = l_tasks d2 ∧ l_evidence d' = l_evidence d2 ∧ l_terminal d' = l_terminal d2 ∧
    l_events d' = l_events d2 ++ [{| le_event := event; le_key := key; le_digest := hash |}] ∧
    from_option (λ o, out_taskId o = task_id task ∧ l_outcomes d2 !! task_id task = None) True outcome ∧
    l_outcomes d' = from_option (λ o, <[task_id task := o]> (l_outcomes d2)) (l_outcomes d2) outcome)
    as (Ht3 & He3 & Hm3 & Hv3 & Hn3 & Ho3).
  { destruct outcome as [o|]; cbn [opt_run] in H; [by apply insert_outcome_ok in H as (-> & ? & ?)|].
    by apply ret_ok in H as [-> _]. }
  split; try congruence; by rewrite ?Ht3, ?He3, ?Hm3, ?Hv3, ?Ho3, ?Ht2, ?He2, ?Hm2, ?Hv2, ?Ho2, ?Et, ?Ee, ?Ev, ?Eo, ?Em in *.
Qed.

Let run_write := write toUpperCase url_ok toLowerCase verifyFacultyEvidence
  verifyIdentityEvidence workflow releaseId canary.

Definition write_digest (input : Write) : string := digest (write_json input).

(** An accepted [write] either replays a stored event or makes its one change. *)
Lemma write_ok input d d' :
  run_write input d = (d', Ok tt) →
  ∃ task event evidence outcome,
    Task_parse (w_task input) = Ok task ∧ TaskEvent_parse (w_event input) = Ok event ∧
    te_taskId event = task_id task ∧ opt_parse Outcome_parse (w_outcome input) = Ok outcome ∧
    from_option (λ e, ev_taskId e = task_id task) True evidence ∧
    ((∃ prior, find_key (task_id task) (w_key input) (l_events d) = Some prior ∧
               le_digest prior = write_digest input ∧ d' = d) ∨
     wrote (w_key input) (write_digest input) task event evidence outcome d d').
Proof.
  unfold run_write, write. intros (task & d1 & [-> Ht]%lift_ok & H)%pbind_ok.
  apply pbind_ok in H as (event & d1 & [-> He]%lift_ok & H).
  apply pbind_ok in H as ([] & d1 & [-> Hg]%guard_passed & H). rewrite !negb_orb in Hg. to_prop.
  apply pbind_ok in H as (step & d1 & [-> _]%lift_ok & H). apply pbind_ok in H as (steps & d1 & [-> _]%lift_ok & H).
  apply pbind_ok in H as ([] & d1 & [-> _]%guard_passed & H).
  apply pbind_ok in H as (evidence & d1 & [-> _]%lift_ok & H).
  apply pbind_ok in H as (outcome & d1 & [-> Ho]%lift_ok & H).
  apply pbind_ok in H as ([] & d1 & [-> _]%guard_passed & H).
  apply pbind_ok in H as ([] & d1 & [-> Hev]%guard_passed & H).
  exists task, event, evidence, outcome. split_and!; [done|done|done|done|destruct evidence; cbn; by to_prop|].
  apply commit_or_rollback in H as [(e & ? & _)|(? & _ & H)]; [done|]. destruct x. by apply write_body_ok in H.
Qed.

(** A rejected [write] leaves the ledger as it was. *)
Lemma write_throw input d d' e : run_write input d = (d', Throw e) → d' = d.
Proof.
  unfold run_write, write.
  do 3 (intros [?|[? H]]%lift_bind_throw; [done|]; revert H).
  do 7 (intros [?|[? H]]%lift_bind_throw; [done|]; revert H).
  intros [(? & _ & ->)|(? & ? & _)]%commit_or_rollback; done.
Qed.
End effects.

(** ** The ledger over time *)

Section history.
Context {X : Type} (toUpperCase : string → string) (url_ok : string → bool).
Context (toLowerCase : string → string).
Context (verifyFacultyEvidence verifyIdentityEvidence :
  LedgerDb X → Task → option ExecutionPlan → list Evidence → result unit).
Implicit Types (d : LedgerDb X).

Let do_write (wk : Worker) := write toUpperCase url_ok toLowerCase
  verifyFacultyEvidence verifyIdentityEvidence (wk_workflow wk) (wk_releaseId wk) (wk_canary wk).
Let do_finish (wk : Worker) := finish toUpperCase url_ok toLowerCase
  verifyFacultyEvidence verifyIdentityEvidence (wk_workflow wk) (wk_releaseId wk) (wk_canary wk).

(** One call of one worker, whatever it returns or throws. *)
Definition ledger_op (wk : Worker) (op : LedgerOp) d : LedgerDb X :=
  match op with
  | OpWrite w => fst (do_write wk w d)
  | OpFinish w => fst (do_finish wk w d)
  | OpEffect t s o e => fst (recordEffect t s o e d)
  end.

Definition ledger_run (ops : list (Worker * LedgerOp)) d : LedgerDb X :=
  fold_left (λ d x, ledger_op x.1 x.2 d) ops d.

Definition no_tasks d : Prop :=
  l_tasks d = ∅ ∧ l_evidence d = ∅ ∧ l_events d = [] ∧ l_outcomes d = ∅ ∧ l_terminal d = ∅.

(** *** One change at a time *)

Inductive change d : LedgerDb X → Prop :=
  | ch_none d' : core d' = core d → change d d'
  | ch_wrote d' key hash task event evidence outcome :
      Task_parse task = Ok task → te_taskId event = task_id task →
      from_option (λ o, Outcome_parse o = Ok o) True outcome →
      from_option (λ e, ev_taskId e = task_id task) True evidence →
      wrote key hash task event evidence outcome d d' → change d d'.

Lemma write_change wk w d d' : do_write wk w d = (d', Ok tt) → change d d'.
Proof.
  intros H. destruct (write_ok _ _ _ _ _ _ _ _ _ _ _ H)
    as (task & event & evidence & outcome & Ht & He & Hid & Ho & Hev & Hw). clear H.
  destruct Hw as [(prior & _ & _ & ->)|Hw]; [by apply ch_none|]. eapply ch_wrote; [..|exact Hw]; try done.
  - by eapply Task_parse_idem.
  - destruct outcome as [o|]; [|done]. cbn. destruct (w_outcome w); [|done].
    apply bind_ok in Ho as (o' & Ho & [= ->]%Ok_inj). by eapply Outcome_parse_idem.
Qed.

Lemma do_write_throw wk w d d' e : do_write wk w d = (d', Throw e) → d' = d.
Proof. unfold do_write. intros H. eapply write_throw, H. Qed.

Lemma Outcome_parse_same o o' : Outcome_parse o = Ok o' →
  out_status o' = out_status o ∧ out_taskId o' = out_taskId o ∧ out_evidenceRefs o' = out_evidenceRefs o ∧
  parse_all AcceptanceResult_parse (out_acceptanceResults o) = Ok (out_acceptanceResults o') ∧
  Text_parse (out_summary o) = Ok (out_summary o').
Proof.
  unfold Outcome_parse, ok_or. intros [_ H]%ensure_ok. apply bind_ok in H as (rs & Hrs & H).
  apply ensure_ok in H as [_ H]. apply bind_ok in H as (sm & Hsm & H).
  do 2 apply ensure_ok in H as [_ H]. by apply ensure_ok in H as [_ <-%Ok_inj].
Qed.

Lemma Task_parse_same t t' : Task_parse t = Ok t' → task_id t' = task_id t ∧ task_status t' = task_status t.
Proof.
  unfold Task_parse, ok_or. intros [_ H]%ensure_ok. apply bind_ok in H as (? & _ & H). apply bind_ok in H as (? & _ & H).
  apply ensure_ok in H as [_ H]. apply bind_ok in H as (? & _ & H). apply ensure_ok in H as [_ H].
  by apply ensure_ok in H as [_ <-%Ok_inj].
Qed.

Definition failed_write (input : Write) (failedTask : Task) (event : TaskEvent) (o : Outcome) : Write :=
  {| w_key := w_key input +:+ ":verification-failed"; w_task := failedTask; w_event := event;
     w_step := w_step input; w_steps := w_steps input; w_evidence := w_evidence input; w_outcome := Some o |}.

(** [finish] returns the stored outcome, or makes one write: its own or the FAILED one. *)
Lemma finish_cases wk w d d' r :
  do_finish wk w d = (d', r) →
  (d' = d ∧ ∀ o, r = Ok o → ∃ c, stored_outcome (task_id (w_task w)) d = Some c ∧ Outcome_parse c = Ok o) ∨
  (stored_outcome (task_id (w_task w)) d = None ∧ do_write wk w d = (d', Ok tt) ∧
   ∀ o, r = Ok o → ∃ c, w_outcome w = Some c ∧ Outcome_parse c = Ok o) ∨
  (stored_outcome (task_id (w_task w)) d = None ∧ ∃ failedTask event o,
   Outcome_parse o = Ok o ∧ task_id failedTask = task_id (w_task w) ∧
   do_write wk (failed_write w failedTask event o) d = (d', Ok tt) ∧ r = Ok o ∧
   out_status o = O_FAILED ∧ task_status failedTask = FAILED).
Proof.
  unfold do_finish, finish. fold (do_write wk w). unfold readOutcome.
  set (K := λ existing : option Outcome, _). intros H.
  destruct (stored_outcome (task_id (w_task w)) d) as [c|] eqn:Es.
  { left. unfold mbind, prog_bind, get_st, lift_result in H. rewrite Es in H.
    destruct (Outcome_parse c) as [o|] eqn:Eo; cbn in H.
    - unfold K in H. injection H as <- <-. split; [done|]. intros o' [= <-]. eauto.
    - injection H as <- <-. done. }
  assert (K None d = (d', r)) as HK.
  { unfold mbind, prog_bind, get_st in H. rewrite Es in H. exact H. }
  clear H. unfold K in HK. clear K. destruct (do_write wk w d) as [d1 [[]|e]] eqn:Ew.
  { right. left. injection HK as -> <-. split_and!; [done|done|].
    intros o Ho. destruct (w_outcome w) as [c|]; [|done]. eauto. }
  apply do_write_throw in Ew as Hd. subst d1.
  case_bool_decide as Hc; [|left; injection HK as <- <-; done].
  destruct r as [o|e']; [right; right|left; split; [|done]].
  - split; [done|]. apply pbind_ok in HK as (o1 & d1 & [-> Ho]%lift_ok & HK).
    apply pbind_ok in HK as (t & d1 & [-> [Ht Hts]%Task_parse_same]%lift_ok & HK).
    apply pbind_ok in HK as (ev & d1 & [-> _]%lift_ok & HK).
    apply pbind_ok in HK as ([] & d1 & Hw & HK). injection HK as -> ->. apply Outcome_parse_same in Ho as Hos.
    exists t, ev, o. split; [by eapply Outcome_parse_idem|]. split_and!; try done. by apply Hos.
  - apply lift_bind_throw in HK as [?|(o & HK)]; [done|]. apply lift_bind_throw in HK as [?|(t & HK)]; [done|].
    apply lift_bind_throw in HK as [?|(ev & HK)]; [done|]. apply pbind_throw in HK as [HK|(a & d1 & _ & HK)]; [|done].
    by apply do_write_throw in HK.
Qed.

Lemma recordEffect_core t s o e d d' r : recordEffect t s o e d = (d', r) → core d' = core d.
Proof.
  unfold recordEffect. intros [(? & _ & ->)|(a & _ & H)]%commit_or_rollback; [done|]. unfold recordEffectTx in H.
  apply pbind_ok in H as ([] & d1 & [-> _]%guard_passed & H). rewrite get_bind in H.
  apply pbind_ok in H as ([] & d1 & [-> _]%guard_passed & H). apply pbind_ok in H as ([] & d1 & [-> _]%guard_passed & H).
  rewrite modify_bind, get_bind in H. apply guard_passed in H as [-> _]. done.
Qed.

Lemma ledger_op_change wk op d : change d (ledger_op wk op d).
Proof.
  destruct op as [w|w|t s o e]; cbn [ledger_op].
  - destruct (do_write wk w d) as [d' [[]|e]] eqn:E; [by eapply write_change|].
    apply do_write_throw in E as ->. by apply ch_none.
  - destruct (do_finish wk w d) as [d' r] eqn:E.
    apply finish_cases in E as [[-> _]|[(_ & E & _)|(_ & t & ev & o & _ & _ & E & _)]]; [by apply ch_none|by eapply write_change..].
  - destruct (recordEffect t s o e d) as [d' r] eqn:E. by apply recordEffect_core, ch_none in E.
Qed.

Lemma ledger_run_ind (P : LedgerDb X → Prop) ops d :
  (∀ d d', P d → change d d' → P d') → P d → P (ledger_run ops d).
Proof.
  intros HP. revert d. induction ops as [|[wk op] ops IH]; intros d Hd; [done|].
  apply IH. eapply HP; [exact Hd|]. apply ledger_op_change.
Qed.

(** *** What only grows *)

Record grown d d' : Prop := {
  gr_evidence : ∀ i e, l_evidence d !! i = Some e → l_evidence d' !! i = Some e;
  gr_events : ∃ es, l_events d' = l_events d ++ es;
  gr_outcomes : ∀ i o, l_outcomes d !! i = Some o → l_outcomes d' !! i = Some o;
  gr_terminal : ∀ i o, l_terminal d !! i = Some o → l_terminal d' !! i = Some o;
  gr_tasks : ∀ i t, l_tasks d !! i = Some t → ∃ t', l_tasks d' !! i = Some t' ∧
    (terminal (task_status t) = true → t' = t)
}.

Lemma terminal_trigger_keeps at_ t m i o : m !! i = Some o → terminal_trigger at_ t m !! i = Some o.
Proof.
  intros Hi. unfold terminal_trigger. destruct (task_status t); try done.
  all: destruct (m !! task_id t) eqn:E; [done|]. all: by rewrite lookup_insert_ne by congruence.
Qed.

Lemma change_grown d d' : change d d' → grown d d'.
Proof.
  intros [d1 Hc|d1 key hash task event evidence outcome _ _ _ _ [Hk Hm Ht He1 He Hv Ho1 Ho Hx]].
  { unfold core in Hc. injection Hc as Et Es Ee Ev Eo Em. split; rewrite ?Et, ?Ee, ?Ev, ?Eo, ?Em; eauto.
    exists []. by rewrite app_nil_r. }
  split.
  - intros i e Hi. rewrite He. destruct evidence as [x|]; [|done]. cbn in *. by rewrite lookup_insert_ne by congruence.
  - by eexists.
  - intros i o Hi. rewrite Ho. destruct outcome as [x|]; [|done]. cbn in *. destruct Ho1 as [_ Hn].
    by rewrite lookup_insert_ne by congruence.
  - intros i o Hi. rewrite Hx. unfold terminal_after. destruct (l_tasks d !! task_id task); [|done].
    by apply terminal_trigger_keeps.
  - intros i t Hi. rewrite Ht. destruct (decide (i = task_id task)) as [->|Hne].
    + rewrite lookup_insert_eq. exists task. split; [done|]. unfold moved in Hm. rewrite Hi in Hm.
      destruct Hm as (_ & Hn & _). by rewrite Hn.
    + rewrite lookup_insert_ne by done. eauto.
Qed.

Lemma grown_trans d1 d2 d3 : grown d1 d2 → grown d2 d3 → grown d1 d3.
Proof.
  intros [He [es Hv] Ho Hx Ht] [He' [es' Hv'] Ho' Hx' Ht']. split; eauto.
  - exists (es ++ es'). by rewrite Hv', Hv, app_assoc.
  - intros i t Hi. destruct (Ht i t Hi) as (t2 & H2 & E2). destruct (Ht' i t2 H2) as (t3 & H3 & E3).
    exists t3. split; [done|]. intros Hterm. specialize (E2 Hterm). subst t2. auto.
Qed.

Lemma run_grown ops d : grown d (ledger_run ops d).
Proof.
  apply (ledger_run_ind (grown d)).
  - intros d1 d2 Hg Hc%change_grown. by eapply grown_trans.
  - apply change_grown. by apply ch_none.
Qed.

(** *** The ledger's invariant *)

(** What a COMPLETED task has in the ledger: an outcome and an audit event of its own, and
    for every criterion of the task as it was VERIFYING a passed result that cites stored
    evidence of this task. *)
Definition verified_completion d (t : Task) : Prop :=
  ∃ old o, task_status old = VERIFYING ∧ same_definition old t ∧
    l_outcomes d !! task_id t = Some o ∧ out_status o = O_COMPLETED ∧ out_taskId o = task_id old ∧
    (∃ le, le ∈ l_events d ∧ te_taskId (le_event le) = task_id t ∧ te_type (le_event le) = TASK_COMPLETED) ∧
    ∀ c, c ∈ task_acceptanceCriteria old →
      ∃ r, r ∈ out_acceptanceResults o ∧ ar_criterion r = c ∧ ar_passed r = true ∧ ar_evidenceRefs r ≠ [] ∧
        ∀ i, i ∈ ar_evidenceRefs r → ∃ e, l_evidence d !! i = Some e ∧ ev_taskId e = task_id t.

Record ledger_ok d : Prop := {
  lk_tasks : ∀ i t, l_tasks d !! i = Some t → task_id t = i ∧ Task_parse t = Ok t;
  lk_evidence : ∀ i e, l_evidence d !! i = Some e → ev_id e = i;
  lk_outcomes : ∀ i o, l_outcomes d !! i = Some o → out_taskId o = i ∧ Outcome_parse o = Ok o;
  lk_terminal : ∀ i, is_Some (l_terminal d !! i) → ∃ t, l_tasks d !! i = Some t ∧ terminal (task_status t) = true;
  lk_completed : ∀ i t, l_tasks d !! i = Some t → task_status t = COMPLETED → verified_completion d t
}.

Lemma no_tasks_ok d : no_tasks d → ledger_ok d.
Proof.
  intros (Et & Ee & _ & Eo & Em). split; rewrite ?Et, ?Ee, ?Eo, ?Em; intros i; by rewrite ?lookup_empty; try intros [? ?].
Qed.

Lemma verified_completion_grown d d' t : grown d d' → verified_completion d t → verified_completion d' t.
Proof.
  intros [He [es Hv] Ho _ _] (old & o & Hst & Hdef & Hout & Hos & Hid & (le & Hin & Hle) & Hc).
  exists old, o. split_and!; try done; [by apply Ho|exists le; by rewrite Hv, elem_of_app; auto|].
  intros c Hcr. destruct (Hc c Hcr) as (r & ? & ? & ? & ? & Hr). exists r. split_and!; try done.
  intros i Hi. destruct (Hr i Hi) as (e & ? & ?). exists e. eauto.
Qed.

(** A write that makes a task COMPLETED leaves what it verified in the ledger. *)
Lemma wrote_completed key hash task event evidence outcome d d' :
  ledger_ok d → te_taskId event = task_id task → grown d d' →
  wrote key hash task event evidence outcome d d' → task_status task = COMPLETED → verified_completion d' task.
Proof.
  intros Hd Hid Hg [_ Hm _ _ _ Hv Ho1 Ho _] Hst. unfold moved in Hm.
  destruct (l_tasks d !! task_id task) as [old|]; [|congruence].
  destruct Hm as (Hdef & _ & _ & Hc). destruct (Hc Hst) as (Hty & _ & _ & o & verified & -> & Ha & Hrows).
  destruct (assertCompletion_cited _ _ _ Ha) as (Hold & Hos & Hoid & _ & Hcr). cbn in Ho, Ho1.
  exists old, o. split_and!; try done.
  - by rewrite Ho, lookup_insert_eq.
  - eexists. split; [rewrite Hv, elem_of_app; right; left|done].
  - intros c Hin. destruct (Hcr c Hin) as (r & ? & ? & ? & ? & Hr). exists r. split_and!; try done.
    intros i Hi. destruct (Hr i Hi) as (v & Hvin & <- & _). destruct (Hrows v Hvin) as (j & e & Hj & Hje & Htask).
    exists e. split; [|done]. apply (gr_evidence _ _ Hg). by rewrite <- Hje, (lk_evidence _ Hd _ _ Hj).
Qed.

Lemma terminal_trigger_some at_ t m i :
  is_Some (terminal_trigger at_ t m !! i) → is_Some (m !! i) ∨ (i = task_id t ∧ terminal (task_status t) = true).
Proof.
  unfold terminal_trigger. destruct (task_status t) eqn:E; auto.
  all: destruct (m !! task_id t) eqn:Em; [auto|].
  all: destruct (decide (i = task_id t)) as [->|Hne]; [by right|rewrite lookup_insert_ne by done; auto].
Qed.

Lemma change_ok d d' : ledger_ok d → change d d' → ledger_ok d'.
Proof.
  intros Hd Hch. pose proof (change_grown _ _ Hch) as Hg.
  destruct Hch as [d1 Hc|d1 key hash task event evidence outcome Hp Hid Hop Hev Hw].
  { unfold core in Hc. injection Hc as Et Es Ee Ev Eo Em.
    split; rewrite ?Et, ?Ee, ?Eo, ?Em; [apply Hd..|].
    intros i t Hi Hst. eapply verified_completion_grown; [exact Hg|]. by eapply lk_completed. }
  pose proof (wrote_completed _ _ _ _ _ _ _ _ Hd Hid Hg Hw) as Hwc.
  destruct Hw as [_ Hm Ht He1 He Hv Ho1 Ho Hx]. split.
  - intros i t. rewrite Ht. intros [[<- <-]|[_ Hi]]%lookup_insert_Some; [done|by apply (lk_tasks _ Hd)].
  - intros i e. rewrite He. destruct evidence as [x|]; cbn; [|apply (lk_evidence _ Hd)].
    intros [[<- <-]|[_ Hi]]%lookup_insert_Some; [done|by apply (lk_evidence _ Hd)].
  - intros i o. rewrite Ho. destruct outcome as [x|]; cbn in *; [|apply (lk_outcomes _ Hd)].
    intros [[<- <-]|[_ Hi]]%lookup_insert_Some; [split; [apply Ho1|done]|by apply (lk_outcomes _ Hd)].
  - intros i Hi. rewrite Hx in Hi. rewrite Ht. unfold terminal_after in Hi.
    assert (is_Some (l_terminal d !! i) ∨ i = task_id task ∧ terminal (task_status task) = true) as [H|[-> H]].
    { destruct (l_tasks d !! task_id task); [by apply terminal_trigger_some in Hi|by left]. }
    + destruct (lk_terminal _ Hd i H) as (t & Hti & Hte). exists t. split; [|done].
      rewrite lookup_insert_ne; [done|]. intros <-. unfold moved in Hm. rewrite Hti in Hm. destruct Hm as (_ & Hn & _).
      congruence.
    + exists task. by rewrite lookup_insert_eq.
  - intros i t. rewrite Ht. intros [[<- <-]|[_ Hi]]%lookup_insert_Some Hst; [by apply Hwc|].
    eapply verified_completion_grown; [exact Hg|]. by eapply lk_completed.
Qed.

Lemma run_ok ops d : ledger_ok d → ledger_ok (ledger_run ops d).
Proof. apply ledger_run_ind. exact change_ok. Qed.

(** *** Idempotency keys *)

Lemma find_key_app t k l l' p : find_key t k l = Some p → find_key t k (l ++ l') = Some p.
Proof. unfold find_key. induction l as [|x l IH]; simpl; [done|]. by destruct (_ && _). Qed.

Lemma find_key_last t k l e :
  find_key t k l = None → te_taskId (le_event e) = t → le_key e = k → find_key t k (l ++ [e]) = Some e.
Proof.
  unfold find_key. intros Hn Ht Hk. induction l as [|x l IH]; simpl in *.
  - by rewrite !bool_decide_true.
  - destruct (_ && _); [done|auto].
Qed.

Lemma lift_bind {A B} (r : result A) (k : A → prog (LedgerDb X) B) d a :
  r = Ok a → (lift_result r ≫= k) d = k a d.
Proof. by intros ->. Qed.

Lemma guard_bind {B} c e (k : unit → prog (LedgerDb X) B) d : c = true → (guard c e ≫= k) d = k tt d.
Proof. by intros ->. Qed.

Let do_body (wk : Worker) := write_body toUpperCase url_ok toLowerCase
  verifyFacultyEvidence verifyIdentityEvidence (wk_workflow wk) (wk_releaseId wk) (wk_canary wk).

(** The parse of the input does not depend on the worker or the ledger. *)
Lemma write_runs wk w d d' :
  do_write wk w d = (d', Ok tt) →
  ∃ task event steps evidence outcome,
    Task_parse (w_task w) = Ok task ∧ te_taskId event = task_id task ∧
    opt_parse Outcome_parse (w_outcome w) = Ok outcome ∧
    ∀ wk2 d2, do_write wk2 w d2 =
      transact (do_body wk2 (w_key w) (write_digest w) task event steps evidence outcome) d2.
Proof.
  unfold do_write, write. intros (task & d1 & [-> H1]%lift_ok & H)%pbind_ok.
  apply pbind_ok in H as (event & d1 & [-> H2]%lift_ok & H).
  apply pbind_ok in H as ([] & d1 & [-> H3]%guard_passed & H).
  apply pbind_ok in H as (step & d1 & [-> H4]%lift_ok & H). apply pbind_ok in H as (steps & d1 & [-> H5]%lift_ok & H).
  apply pbind_ok in H as ([] & d1 & [-> H6]%guard_passed & H).
  apply pbind_ok in H as (evidence & d1 & [-> H7]%lift_ok & H).
  apply pbind_ok in H as (outcome & d1 & [-> H8]%lift_ok & H).
  apply pbind_ok in H as ([] & d1 & [-> H9]%guard_passed & H).
  apply pbind_ok in H as ([] & d1 & [-> H10]%guard_passed & _).
  exists task, event, steps, evidence, outcome. split_and!; [done| |done|].
  { rewrite !negb_orb in H3. by to_prop. }
  intros wk2 d2. rewrite (lift_bind _ _ _ _ H1), (lift_bind _ _ _ _ H2), (guard_bind _ _ _ _ H3),
    (lift_bind _ _ _ _ H4), (lift_bind _ _ _ _ H5), (guard_bind _ _ _ _ H6), (lift_bind _ _ _ _ H7),
    (lift_bind _ _ _ _ H8), (guard_bind _ _ _ _ H9), (guard_bind _ _ _ _ H10). reflexivity.
Qed.

(** After an accepted write its key names an event with its digest, for good. *)
Lemma write_key_kept wk w d d1 d2 task :
  do_write wk w d = (d1, Ok tt) → Task_parse (w_task w) = Ok task → grown d1 d2 →
  ∃ prior, find_key (task_id task) (w_key w) (l_events d2) = Some prior ∧ le_digest prior = write_digest w.
Proof.
  intros H Ht Hg. destruct (write_ok _ _ _ _ _ _ _ _ _ _ _ H)
    as (task' & event & evidence & outcome & Ht' & _ & Hid & _ & _ & Hw). clear H.
  rewrite Ht in Ht'. apply Ok_inj in Ht' as <-. destruct (gr_events _ _ Hg) as [es ->].
  destruct Hw as [(prior & Hf & Hd & ->)|Hw].
  - exists prior. split; [by apply find_key_app|done].
  - eexists. split; [|shelve]. apply find_key_app. rewrite (wr_events _ _ _ _ _ _ _ _ Hw).
    apply find_key_last; [by apply (wr_fresh _ _ _ _ _ _ _ _ Hw)|done|done].
    Unshelve. done.
Qed.

Lemma body_replay wk key hash task event steps evidence outcome d prior :
  find_key (task_id task) key (l_events d) = Some prior →
  do_body wk key hash task event steps evidence outcome d =
    (d, if le_digest prior === hash then Ok tt else Throw (js_error "Idempotency key reused with different input")).
Proof.
  intros Hf. unfold do_body, write_body. rewrite get_bind, Hf. unfold guard, lift_result.
  by destruct (_ === _).
Qed.

(** *** The properties *)

(** C1: a task the ledger calls COMPLETED was verified.  In any database the
    operations reach from empty tables, by whatever workers, a COMPLETED task has an
    outcome row of its own that is COMPLETED, an audit event TASK_COMPLETED, and, for
    each acceptance criterion of the very definition it had while VERIFYING, a passed
    result whose evidence references are not empty and name stored evidence of that task. *)
Theorem completed_tasks_verified ops d i t :
  no_tasks d → l_tasks (ledger_run ops d) !! i = Some t → task_status t = COMPLETED →
  verified_completion (ledger_run ops d) t.
Proof. intros Hd%no_tasks_ok. by apply lk_completed, run_ok. Qed.

(** C7: a write happens once.  After a write was accepted, whatever the workers do
    next, the same write again succeeds and changes nothing, and a write for the same
    task under the same key with another digest is refused and changes nothing. *)
Theorem write_once wk wk' w d d1 ops d2 :
  do_write wk w d = (d1, Ok tt) → d2 = ledger_run ops d1 →
  do_write wk' w d2 = (d2, Ok tt) ∧
  ∀ w', task_id (w_task w') = task_id (w_task w) → w_key w' = w_key w → write_digest w' ≠ write_digest w →
    ∃ e, do_write wk' w' d2 = (d2, Throw e).
Proof.
  intros H ->. set (d2 := ledger_run ops d1). pose proof (run_grown ops d1 : grown d1 d2) as Hg. clearbody d2.
  destruct (write_runs _ _ _ _ H) as (task & event & steps & evidence & outcome & Ht & _ & _ & Hrun).
  destruct (write_key_kept _ _ _ _ _ _ H Ht Hg) as (prior & Hf & Hd). clear H. split.
  { rewrite Hrun. unfold transact. by rewrite (body_replay _ _ _ _ _ _ _ _ _ _ Hf), bool_decide_true. }
  intros w' Hid Hk Hne. destruct (do_write wk' w' d2) as [d3 [[]|e]] eqn:E; [|exists e; by apply do_write_throw in E as ->].
  exfalso. destruct (write_runs _ _ _ _ E) as (task' & ev' & steps' & evi' & out' & Ht' & _ & _ & Hrun').
  rewrite Hrun' in E. unfold transact in E.
  assert (task_id task' = task_id task) as Hid'. { apply Task_parse_id in Ht, Ht'. congruence. }
  rewrite (body_replay _ _ _ _ _ _ _ _ _ prior), bool_decide_false in E by congruence. done.
Qed.

(** What [readOutcome] finds for a task stays, once it found something. *)
Lemma stored_outcome_kept d d' i c :
  ledger_ok d → change d d' → stored_outcome i d = Some c → stored_outcome i d' = Some c.
Proof.
  intros Hd Hch. pose proof (change_grown _ _ Hch) as Hg. unfold stored_outcome.
  destruct (l_tasks d !! i) as [t|] eqn:Et; [|done]. destruct (gr_tasks _ _ Hg i t Et) as (t' & -> & _).
  destruct (l_outcomes d !! i) as [o|] eqn:Eo; [by rewrite (gr_outcomes _ _ Hg _ _ Eo)|]. intros Ex.
  rewrite (gr_terminal _ _ Hg _ _ Ex). destruct (lk_terminal _ Hd i) as (t1 & Et1 & Hterm); [by eexists|].
  assert (l_outcomes d' !! i = None) as ->; [|done].
  destruct Hch as [d1 Hc|d1 key hash task event evidence outcome _ _ _ _ Hw].
  { unfold core in Hc. injection Hc as _ _ _ _ -> _. done. }
  rewrite (wr_outcomes _ _ _ _ _ _ _ _ Hw). destruct outcome as [o|]; [|done]. cbn.
  rewrite lookup_insert_ne; [done|]. intros <-. pose proof (wr_moved _ _ _ _ _ _ _ _ Hw) as Hm.
  unfold moved in Hm. rewrite Et1 in Hm. destruct Hm as (_ & Hn & _). congruence.
Qed.

Lemma stored_outcome_run ops d i c :
  ledger_ok d → stored_outcome i d = Some c → stored_outcome i (ledger_run ops d) = Some c.
Proof.
  intros Hd Hs. apply (ledger_run_ind (λ d', ledger_ok d' ∧ stored_outcome i d' = Some c)); [|done].
  intros d1 d2 [Hd1 Hs1] Hch. split; [by eapply change_ok|by eapply stored_outcome_kept].
Qed.

Lemma stored_outcome_ok d i c : ledger_ok d → l_outcomes d !! i = Some c → Outcome_parse c = Ok c.
Proof. intros Hd Hc. by apply (lk_outcomes _ Hd) in Hc as [_ ?]. Qed.

(** A write with a fresh key that carries an outcome stores it. *)
Lemma write_stores wk w d d1 o :
  do_write wk w d = (d1, Ok tt) → find_key (task_id (w_task w)) (w_key w) (l_events d) = None →
  opt_parse Outcome_parse (w_outcome w) = Ok (Some o) → stored_outcome (task_id (w_task w)) d1 = Some o.
Proof.
  intros H Hf Ho. destruct (write_ok _ _ _ _ _ _ _ _ _ _ _ H)
    as (task & event & evidence & outcome & Ht & _ & _ & Ho' & _ & Hw). clear H.
  rewrite Ho in Ho'. apply Ok_inj in Ho' as <-. apply Task_parse_id in Ht. rewrite <- Ht in *.
  destruct Hw as [(prior & Hf' & _)|Hw]; [congruence|]. unfold stored_outcome.
  rewrite (wr_tasks _ _ _ _ _ _ _ _ Hw), lookup_insert_eq, (wr_outcomes _ _ _ _ _ _ _ _ Hw).
  cbn [from_option]. by rewrite lookup_insert_eq.
Qed.

(** C6: the answer of [finish] is final.  Called with keys the task has not used, once
    [finish] returned an outcome, every later [finish] of that task, by any worker, with
    any input and after any other operations, returns that same outcome and changes nothing. *)
Theorem finish_final wk wk' w w' d d1 o ops d2 :
  ledger_ok d →
  find_key (task_id (w_task w)) (w_key w) (l_events d) = None →
  find_key (task_id (w_task w)) (w_key w +:+ ":verification-failed") (l_events d) = None →
  do_finish wk w d = (d1, Ok o) → d2 = ledger_run ops d1 → task_id (w_task w') = task_id (w_task w) →
  do_finish wk' w' d2 = (d2, Ok o).
Proof.
  intros Hd Hk1 Hk2 H -> Hid.
  assert (∃ c, stored_outcome (task_id (w_task w)) d1 = Some c ∧ Outcome_parse c = Ok o ∧ ledger_ok d1)
    as (c & Hs & Hc & Hd1).
  { apply finish_cases in H as [[-> Ho]|[(_ & Hw & Ho)|(_ & t & ev & o' & Hp & Ht & Hw & [= <-] & _)]].
    - destruct (Ho o eq_refl) as (c & ? & ?). eauto.
    - destruct (Ho o eq_refl) as (c & Ec & Hc). exists o. split_and!; [|by eapply Outcome_parse_idem|].
      + eapply write_stores; [done..|]. rewrite Ec. cbn. by rewrite Hc.
      + eapply change_ok; [done|]. by eapply write_change.
    - exists o. split_and!; [|done|eapply change_ok; [done|by eapply write_change]].
      rewrite <- Ht in *. apply (write_stores _ (failed_write w t ev o) _ _ _ Hw); [done|]. cbn. by rewrite Hp. }
  apply (stored_outcome_run ops _ _ _ Hd1) in Hs. set (d2 := ledger_run ops d1) in *. clearbody d2.
  unfold do_finish, finish, readOutcome. rewrite Hid. unfold mbind, prog_bind, get_st, lift_result.
  rewrite Hs, Hc. reflexivity.
Qed.
End history.

(** ** A concrete ledger *)

Definition ledger_worker : Worker := {| wk_workflow := None; wk_releaseId := "r1"; wk_canary := None |}.

Definition ledger_actor : PrincipalRef := {| principal_id := sample_id 2; principal_kind := HUMAN |}.

Definition empty_ledger : LedgerDb unit :=
  LDb {[ sample_id 2 := HUMAN ]} [((sample_id 3, ledger_actor), "owner")] ∅ ∅ ∅ [] ∅ ∅ ∅ [] tt.

Definition ledger_event (n : Z) (ty : TaskEventType) (p : EventPayload) : TaskEvent :=
  {| te_id := sample_id n; te_taskId := sample_id 1; te_stepId := None; te_type := ty;
     te_occurredAt := "2026-09-15T16:00:02.000Z"; te_actor := ledger_actor; te_traceId := sample_id 4;
     te_payload := p |}.

Definition plain_write (key : string) (n : Z) (ty : TaskEventType) (st : TaskStatus) (p : EventPayload) : Write :=
  {| w_key := key; w_task := upper_task st; w_event := ledger_event n ty p; w_step := None; w_steps := None;
     w_evidence := None; w_outcome := None |}.

Definition no_payload : EventPayload := JsonPayload (JObj []).

Definition completed_task : Task :=
  let t := with_status (upper_task VERIFYING) COMPLETED in
  {| task_id := task_id t; task_parentTaskId := None; task_principal := task_principal t;
     task_tenant := task_tenant t; task_objective := task_objective t;
     task_acceptanceCriteria := task_acceptanceCriteria t; task_constraints := []; task_riskClass := LOW;
     task_budget := None; task_deadline := None; task_status := COMPLETED; task_traceId := task_traceId t;
     task_createdAt := task_createdAt t; task_startedAt := None;
     task_completedAt := Some "2026-09-15T16:00:02.000Z" |}.

Definition completing_write : Write :=
  {| w_key := "done"; w_task := completed_task; w_event := ledger_event 26 TASK_COMPLETED no_payload;
     w_step := None; w_steps := None; w_evidence := None; w_outcome := Some upper_outcome |}.

(** A task of the uppercase recipe up to its verification, and then its completion. *)
Definition verifying_ops : list (Worker * LedgerOp) :=
  map (λ w, (ledger_worker, OpWrite w))
    [plain_write "created" 20 TASK_CREATED RECEIVED no_payload;
     plain_write "compiled" 21 PLAN_COMPILED COMPILED (PlanPayload [] upper_plan []);
     plain_write "ready" 22 TASK_READY READY no_payload;
     plain_write "started" 23 TASK_STARTED RUNNING no_payload;
     {| w_key := "verifying"; w_task := upper_task VERIFYING; w_event := ledger_event 25 TASK_VERIFYING no_payload;
        w_step := None; w_steps := Some upper_stored; w_evidence := Some upper_evidence; w_outcome := None |}].

Definition ledger_ops : list (Worker * LedgerOp) :=
  verifying_ops ++ [(ledger_worker, OpFinish completing_write)].

Definition sample_oracle (_ : LedgerDb unit) (_ : Task) (_ : option ExecutionPlan) (_ : list Evidence) : result unit := Ok tt.

#[local] Abbreviation sample_run := (ledger_run ascii_upper (λ _, true) ascii_lower sample_oracle sample_oracle).
#[local] Abbreviation sample_finish :=
  (finish ascii_upper (λ _, true) ascii_lower sample_oracle sample_oracle
    (wk_workflow ledger_worker) (wk_releaseId ledger_worker) (wk_canary ledger_worker)).
#[local] Abbreviation sample_write :=
  (write ascii_upper (λ _, true) ascii_lower sample_oracle sample_oracle
    (wk_workflow ledger_worker) (wk_releaseId ledger_worker) (wk_canary ledger_worker)).

Lemma sample_completes : l_tasks (sample_run ledger_ops empty_ledger) !! sample_id 1 = Some completed_task.
Proof. vm_compute. reflexivity. Qed.

Lemma empty_ledger_empty : no_tasks empty_ledger.
Proof. repeat split. Qed.

Lemma completed_tasks_verified_witness : verified_completion (sample_run ledger_ops empty_ledger) completed_task.
Proof.
  exact (completed_tasks_verified ascii_upper (λ _, true) ascii_lower sample_oracle sample_oracle ledger_ops empty_ledger (sample_id 1) completed_task empty_ledger_empty sample_completes eq_refl).
Defined.

Definition verifying_ledger : LedgerDb unit := sample_run verifying_ops empty_ledger.

Lemma verifying_ledger_ok : ledger_ok verifying_ledger.
Proof. apply run_ok. apply no_tasks_ok, empty_ledger_empty. Qed.

Definition written_ledger : LedgerDb unit := (sample_write completing_write verifying_ledger).1.

Lemma sample_writes : sample_write completing_write verifying_ledger = (written_ledger, Ok tt).
Proof. vm_compute. reflexivity. Qed.

Lemma write_once_witness :
  sample_write completing_write written_ledger = (written_ledger, Ok tt) ∧
  ∃ e, sample_write (plain_write "done" 26 TASK_FAILED FAILED no_payload) written_ledger = (written_ledger, Throw e).
Proof.
  generalize written_ledger sample_writes. intros d1 Hw.
  destruct (write_once ascii_upper (λ _, true) ascii_lower sample_oracle sample_oracle ledger_worker ledger_worker completing_write verifying_ledger d1 [] d1 Hw eq_refl) as [H1 H2].
  split; [exact H1|]. apply H2; [reflexivity|reflexivity|]. intros H. vm_compute in H. discriminate H.
Defined.

Definition finished_ledger : LedgerDb unit := (sample_finish completing_write verifying_ledger).1.

Lemma sample_finishes : sample_finish completing_write verifying_ledger = (finished_ledger, Ok upper_outcome).
Proof. vm_compute. reflexivity. Qed.

Lemma fresh_keys :
  find_key (task_id (w_task completing_write)) (w_key completing_write) (l_events verifying_ledger) = None ∧
  find_key (task_id (w_task completing_write)) (w_key completing_write +:+ ":verification-failed")
    (l_events verifying_ledger) = None.
Proof. split; vm_compute; reflexivity. Qed.

Lemma finish_final_witness : sample_finish completing_write finished_ledger = (finished_ledger, Ok upper_outcome).
Proof.
  generalize finished_ledger sample_finishes. intros d1 Hf.
  exact (finish_final ascii_upper (λ _, true) ascii_lower sample_oracle sample_oracle
    ledger_worker ledger_worker completing_write completing_write verifying_ledger d1 upper_outcome [] d1
    verifying_ledger_ok (proj1 fresh_keys) (proj2 fresh_keys) Hf eq_refl eq_refl).
Defined.
