(* ===== verification/Regex.v ===== *)
(** * Regular expressions: [RegExp.prototype.test] on the patterns of the source

    The patterns of the memory policy, the classifier and the secret scan are built
    from classes of ASCII characters, sequence, alternation and counted repetition.
    A pattern is a value of [re]; the matcher takes Brzozowski derivatives, so it
    terminates by structural recursion on the text.  [matches] is the reference: what
    a pattern denotes.  [re_test] is [RegExp.prototype.test]: some substring matches.
    A text is its UTF-8 bytes; a negated class that is repeated accepts the bytes of
    every other character, so [test] agrees with the matching of UTF-16 units. *)

From S2P Require Import Prelude Digest Json.
Local Open Scope js_scope.

Inductive re :=
  | Void
  | Eps
  | Cls (p : ascii → bool)
  | Cat (a b : re)
  | Or (a b : re)
  | Star (a : re).

Inductive matches : re → list ascii → Prop :=
  | m_eps : matches Eps []
  | m_cls p c : p c = true → matches (Cls p) [c]
  | m_cat a b s t : matches a s → matches b t → matches (Cat a b) (s ++ t)
  | m_or_l a b s : matches a s → matches (Or a b) s
  | m_or_r a b s : matches b s → matches (Or a b) s
  | m_star_nil a : matches (Star a) []
  | m_star_cons a s t : matches a s → matches (Star a) t → matches (Star a) (s ++ t).
#[export] Hint Constructors matches : kj.

(** ** Derivatives *)

Fixpoint nullable (r : re) : bool :=
  match r with
  | Void | Cls _ => false
  | Eps | Star _ => true
  | Cat a b => nullable a && nullable b
  | Or a b => nullable a || nullable b
  end.

(** Sequence and alternation that drop what cannot match. *)
Definition cat (a b : re) : re :=
  match a, b with Void, _ | _, Void => Void | Eps, _ => b | _, _ => Cat a b end.
Definition alt (a b : re) : re :=
  match a, b with Void, _ => b | _, Void => a | _, _ => Or a b end.

Fixpoint deriv (c : ascii) (r : re) : re :=
  match r with
  | Void | Eps => Void
  | Cls p => if p c then Eps else Void
  | Cat a b => if nullable a then alt (cat (deriv c a) b) (deriv c b) else cat (deriv c a) b
  | Or a b => alt (deriv c a) (deriv c b)
  | Star a => cat (deriv c a) (Star a)
  end.

(** The whole text matches. *)
Fixpoint full (r : re) (s : list ascii) : bool :=
  match s with [] => nullable r | c :: s' => full (deriv c r) s' end.

(** A prefix of the text matches: the pattern starts with [^]. *)
Fixpoint prefix_match (r : re) (s : list ascii) : bool :=
  nullable r ||
  match s with
  | [] => false
  | c :: s' => match deriv c r with Void => false | r' => prefix_match r' s' end
  end.

Fixpoint search (r : re) (s : list ascii) : bool :=
  prefix_match r s || match s with [] => false | _ :: s' => search r s' end.

Definition re_test (r : re) (s : string) : bool := search r (String.list_ascii_of_string s).
Definition re_starts (r : re) (s : string) : bool := prefix_match r (String.list_ascii_of_string s).

(** ** Pattern building *)

Definition chr (c : ascii) : re := Cls (λ x, x === c).

(** A literal. *)
Fixpoint lit (s : string) : re :=
  match s with
  | EmptyString => Eps
  | String c EmptyString => chr c
  | String c s' => Cat (chr c) (lit s')
  end.

(** The other case of an ASCII letter; [i]-flagged patterns accept both. *)
Definition ascii_lower (c : ascii) : ascii :=
  let n := N_of_ascii c in if ((65 <=? n) && (n <=? 90))%N then ascii_of_N (n + 32) else c.

Fixpoint lit_i (s : string) : re :=
  match s with
  | EmptyString => Eps
  | String c EmptyString => Cls (λ x, ascii_lower x === c)
  | String c s' => Cat (Cls (λ x, ascii_lower x === c)) (lit_i s')
  end.

Fixpoint any_of (l : list re) : re :=
  match l with [] => Void | [r] => r | r :: l' => Or r (any_of l') end.

(** [r{n}], [r{n,}], [r{n,m}], [r?]. *)
Fixpoint times (n : nat) (r : re) : re := match n with O => Eps | S k => Cat r (times k r) end.
Definition at_least (n : nat) (r : re) : re := Cat (times n r) (Star r).
Definition opt (r : re) : re := Or r Eps.
Definition between (n m : nat) (r : re) : re := Cat (times n r) (times (m - n) (opt r)).

Definition is_lower (c : ascii) : bool := let n := N_of_ascii c in ((97 <=? n) && (n <=? 122))%N.
Definition is_capital (c : ascii) : bool := let n := N_of_ascii c in ((65 <=? n) && (n <=? 90))%N.
Definition among (cs : list ascii) (c : ascii) : bool := bool_decide (c ∈ cs).

(** [[A-Za-z0-9<others>]] *)
Definition word (others : list ascii) : re := Cls (λ c, is_alpha c || is_num c || among others c).

(** ** Correctness of the matcher *)

Lemma nullable_matches r : nullable r = true ↔ matches r [].
Proof.
  split.
  - induction r; simpl; try done; intros H; auto with kj.
    + apply andb_true_iff in H as [? ?]. rewrite <- (app_nil_l []). auto with kj.
    + apply orb_true_iff in H as [?|?]; auto with kj.
  - remember [] as s eqn:Hs. induction 1 as [|p c|a b s t _ IHa _ IHb|a b s _ IH|a b s _ IH|a|a s t _ _ _ IH]; simpl in *;
      try done; subst.
    + apply app_eq_nil in Hs as [-> ->]. by rewrite IHa, IHb.
    + by rewrite IH.
    + rewrite IH by done. by rewrite orb_true_r.
Qed.

Lemma cat_matches a b s : matches (cat a b) s ↔ matches (Cat a b) s.
Proof.
  assert (Hv : ∀ s, ¬ matches Void s) by (intros ? H; inversion H).
  assert (Hl : ∀ b s, ¬ matches (Cat Void b) s) by (intros ?? H; inversion H; subst; by eapply Hv).
  assert (Hr : ∀ a s, ¬ matches (Cat a Void) s) by (intros ?? H; inversion H; subst; by eapply Hv).
  destruct a, b; simpl; try (split; intros H; [by apply Hv in H|by first [apply Hl in H|apply Hr in H]]); try done;
    split; intros H; try (rewrite <- (app_nil_l s); by auto with kj);
    inversion H as [| |? ? s1 t1 H1 H2| | | |]; subst; by inversion H1; subst.
Qed.

Lemma alt_matches a b s : matches (alt a b) s ↔ matches (Or a b) s.
Proof.
  assert (Hv : ∀ s, ¬ matches Void s) by (intros ? H; inversion H).
  destruct a, b; simpl; try done; split; intros H; auto with kj;
    inversion H; subst; try done; by exfalso; eapply Hv.
Qed.

Lemma star_cons_inv a c s : matches (Star a) (c :: s) →
  ∃ s1 s2, s = s1 ++ s2 ∧ matches a (c :: s1) ∧ matches (Star a) s2.
Proof.
  remember (Star a) as r eqn:Hr. remember (c :: s) as t eqn:Ht.
  induction 1 as [| | | | | |a' s1 t1 H1 IH1 H2 IH2]; try done. injection Hr as ->.
  destruct s1 as [|x s1]; [by apply IH2|]. injection Ht as -> <-. by exists s1, t1.
Qed.

Lemma deriv_matches c r s : matches (deriv c r) s ↔ matches r (c :: s).
Proof.
  revert s. induction r as [| |p|a IHa b IHb|a IHa b IHb|a IHa]; intros s; simpl.
  - split; intros H; inversion H.
  - split; intros H; inversion H.
  - destruct (p c) eqn:Hp; split; intros H; inversion H; subst; auto with kj; congruence.
  - assert (Hcat : matches (cat (deriv c a) b) s ↔ ∃ s1 s2, s = s1 ++ s2 ∧ matches a (c :: s1) ∧ matches b s2).
    { rewrite cat_matches. split.
      - intros H. inversion H; subst. rewrite IHa in *. by repeat esplit.
      - intros (s1 & s2 & -> & ? & ?). constructor; [by apply IHa|done]. }
    assert (Hinv : matches (Cat a b) (c :: s) ↔
      (matches a [] ∧ matches b (c :: s)) ∨ ∃ s1 s2, s = s1 ++ s2 ∧ matches a (c :: s1) ∧ matches b s2).
    { split.
      - intros H. inversion H as [| |? ? s1 t1 H1 H2 E1 E2| | | |]; subst.
        destruct s1 as [|x s1]; simpl in *; [left; by subst|]. injection E2 as -> <-. right. by exists s1, t1.
      - intros [[H1 H2]|(s1 & s2 & -> & H1 & H2)].
        + rewrite <- (app_nil_l (c :: s)). auto with kj.
        + rewrite app_comm_cons. auto with kj. }
    rewrite Hinv. destruct (nullable a) eqn:Hn.
    + apply nullable_matches in Hn. rewrite alt_matches. split.
      * intros H. inversion H; subst; [right; by apply Hcat|left]. split; [done|by apply IHb].
      * intros [[_ ?]|?]; [apply m_or_r; by apply IHb|apply m_or_l; by apply Hcat].
    + rewrite Hcat. split; [by right|]. intros [[H _]|?]; [|done].
      apply nullable_matches in H. congruence.
  - rewrite alt_matches. split; intros H; inversion H; subst;
      first [by apply m_or_l, IHa|by apply m_or_r, IHb].
  - rewrite cat_matches. split.
    + intros H. inversion H; subst. rewrite app_comm_cons. constructor; [by apply IHa|done].
    + intros (s1 & s2 & -> & ? & ?)%star_cons_inv. constructor; [by apply IHa|done].
Qed.

Lemma full_matches r s : full r s = true ↔ matches r s.
Proof.
  revert r. induction s as [|c s IH]; intros r; simpl; [apply nullable_matches|].
  by rewrite IH, deriv_matches.
Qed.

Lemma prefix_matches r s : prefix_match r s = true ↔ ∃ a b, s = a ++ b ∧ matches r a.
Proof.
  revert r. induction s as [|c s IH]; intros r; simpl.
  - rewrite orb_false_r, nullable_matches. split; [by exists [], []|].
    intros (a & b & [-> ->]%eq_sym%app_eq_nil & H). done.
  - assert (Hd : match deriv c r with Void => false | r' => prefix_match r' s end = prefix_match (deriv c r) s).
    { destruct (deriv c r); try done. destruct s; [done|]. done. }
    rewrite Hd, orb_true_iff, nullable_matches, IH. split.
    + intros [H|(a & b & -> & H)]; [by exists [], (c :: s)|]. exists (c :: a), b. by rewrite <- deriv_matches.
    + intros ([|x a] & b & E & H); [by left|]. injection E as <- ->. right. exists a, b. by rewrite deriv_matches.
Qed.

(** The search finds a match exactly where some substring matches. *)
Lemma search_matches r s : search r s = true ↔ ∃ a m b, s = a ++ m ++ b ∧ matches r m.
Proof.
  induction s as [|c s IH].
  - change (search r []) with (prefix_match r [] || false). rewrite orb_false_r, prefix_matches. split.
    + intros (m & b & E & H). by exists [], m, b.
    + intros (a & m & b & E & H). symmetry in E. apply app_eq_nil in E as [_ E]. by exists m, b.
  - change (search r (c :: s)) with (prefix_match r (c :: s) || search r s).
    rewrite orb_true_iff, IH, prefix_matches. split.
    + intros [(m & b & E & H)|(a & m & b & -> & H)]; [by exists [], m, b|by exists (c :: a), m, b].
    + intros ([|x a] & m & b & E & H); [left; by exists m, b|]. injection E as <- ->. right. by exists a, m, b.
Qed.
