(* ===== verification/Memory.v ===== *)
(** * The canonical memory service (services/memory/src/canonical/service.ts, services/kernel/src/provenance.ts)

    [MemDb] holds the tables of supabase/migrations/20260921180000_canonical_memory.sql
    beside [E], the kernel's own tables; [KernelTables] is what the service reads of those
    and [PromotionApprovals] the approval machinery it is given.  Every method is a
    [prog] over the tables, each [withTenant] one transaction.  [submit] has the code's
    two transactions with the approval request between them; [recordDecision] writes the
    promotion event, the version and the relation; [settleApproval] completes a candidate
    from its approval.  The migration's primary and unique keys, state CHECKs and guard
    triggers reject a write as they do in the database; foreign keys and length CHECKs,
    which repeat the schemas, are left out. *)

From S2P Require Import Prelude JsNumber JsDate Digest Contracts Plan Capability Json Policy Approval Regex MemPolicy MemContext.
Local Open Scope Z_scope.
Local Open Scope js_scope.

(** ** Rows *)

Record TenantContext := { tc_tenantId : string; tc_principal : PrincipalRef }.

Record CandidateRow := {
  c_id : string; c_tenant : string; c_origin : MemoryOrigin; c_submittedBy : string; c_key : string;
  c_class : MemoryClass; c_intent : MemoryIntent; c_target : option string; c_content : string;
  c_contentDigest : string; c_subject : MemorySubject; c_evidence : list MemoryEvidenceRef; c_reason : string;
  c_requestDigest : string; c_state : CandidateState; c_stateReason : string; c_approvalId : option string;
  c_createdAt : string; c_decidedAt : string
}.

Inductive PromotedBy := POLICY_ENGINE | APPROVED_HUMAN.

Record PromotionRow := {
  p_id : string; p_tenant : string; p_candidateId : string; p_decision : PromotionDecision; p_ruleId : string;
  p_policyVersion : string; p_reason : string; p_byKind : PromotedBy; p_byPrincipal : option string;
  p_approvalId : option string; p_evidence : list MemoryEvidenceRef; p_result : option (string * Z); p_createdAt : string
}.

Inductive RelationKind := SUPERSEDES | CONFLICTS_WITH.

#[export] Instance RelationKind_eq_dec : EqDecision RelationKind.
Proof. solve_decision. Defined.

Record RelationRow := {
  r_id : string; r_tenant : string; r_kind : RelationKind; r_from : string; r_to : string;
  r_promotionId : option string; r_actor : option string; r_evidence : list MemoryEvidenceRef
}.

Record AssemblyRow := {
  as_principal : string; as_purposeDigest : string; as_context : AssembledContext; as_consumer : Consumer
}.

Record MemDb (E : Type) := MDb {
  md_kernel : E;
  md_candidates : list CandidateRow;
  md_promotions : list PromotionRow;
  md_versions : list CanonicalMemoryVersion;
  md_relations : list RelationRow;
  md_assemblies : list AssemblyRow
}.
Arguments MDb {_} _ _ _ _ _ _.
Arguments md_kernel {_} _.
Arguments md_candidates {_} _.
Arguments md_promotions {_} _.
Arguments md_versions {_} _.
Arguments md_relations {_} _.
Arguments md_assemblies {_} _.

(** What the memory service reads of the kernel's tables. *)
Class KernelTables (E : Type) := {
  kt_roles : E → list (string * PrincipalRef * string);
  kt_task : E → string → option Task;
  kt_outcome : E → string → option Outcome;
  kt_evidence : E → string → option Evidence
}.

(** [interface PromotionApprovals] *)
Record PromotionApprovalTicket := { pt_approvalId : string; pt_expiresAt : string }.
Record PromotionApprovalState := {
  ps_status : ApprovalStatus; ps_expiresAt : string; ps_boundCandidateId : option string;
  ps_boundCandidateDigest : option string; ps_approver : option string
}.
Record PromotionApprovals (E : Type) := {
  pa_request : string → string → string → PrincipalRef → prog E PromotionApprovalTicket;
  pa_state : string → prog E PromotionApprovalState;
  pa_expireIfDue : string → prog E unit
}.
Arguments pa_request {_} _ _ _ _ _.
Arguments pa_state {_} _ _.
Arguments pa_expireIfDue {_} _ _.

Definition memory_error (code msg : string) : exn := Exn ("MemoryError." +:+ code) msg.

Record SubmissionResult := {
  sr_candidateId : string; sr_origin : MemoryOrigin; sr_state : CandidateState; sr_decision : PromotionDecision;
  sr_ruleId : string; sr_reason : string; sr_memoryId : option string; sr_version : option Z;
  sr_approvalId : option string; sr_replayed : bool
}.

Inductive ViewStatus := CURRENT | RETRACTED | SUPERSEDED.

Record MemoryView := {
  mv_memoryId : string; mv_status : ViewStatus; mv_supersededBy : option string; mv_supersedes : list string;
  mv_conflictsWith : list string; mv_head : CanonicalMemoryVersion; mv_versions : list CanonicalMemoryVersion
}.

Record Prepared := { pr_sub : CandidateSubmission; pr_contentDigest : string; pr_requestDigest : string }.

Record TargetState := {
  t_memoryId : string; t_version : Z; t_kind : VersionKind; t_class : MemoryClass; t_subject : MemorySubject;
  t_content : string; t_superseded : bool
}.

(** A verdict with the wider decision: [Omit<PolicyDecisionResult, "decision"> & { decision }]. *)
Record Verdict := { vd_decision : PromotionDecision; vd_ruleId : string; vd_reason : string; vd_protected : bool }.

Definition promotion_of (o : PolicyOutcome) : PromotionDecision :=
  match o with ALLOW => D_ALLOW | REQUIRE_APPROVAL => D_REQUIRE_APPROVAL | HOLD => D_HOLD | REFUSE => D_REFUSE end.
Definition verdict_of (r : PolicyDecisionResult) : Verdict :=
  {| vd_decision := promotion_of (pdr_decision r); vd_ruleId := pdr_ruleId r; vd_reason := pdr_reason r;
     vd_protected := pdr_protected r |}.

Definition REDACTED_CONTENT : string := "[redacted: this looked like a credential]".

(** [STATE_FOR[verdict.decision as PolicyOutcome]]; the two settled decisions never index it. *)
Definition STATE_FOR (d : PromotionDecision) : CandidateState :=
  match d with
  | D_ALLOW => PROMOTED | D_REQUIRE_APPROVAL => AWAITING_APPROVAL | D_HOLD => HELD | _ => REFUSED
  end.

Definition allowing (d : PromotionDecision) : bool := (d === D_ALLOW) || (d === D_ALLOW_APPROVED).

Section tables.
Context {E : Type} `{KernelTables E}.
Implicit Types (d : MemDb E).

Definition set_kernel (e : E) d : MemDb E :=
  MDb e (md_candidates d) (md_promotions d) (md_versions d) (md_relations d) (md_assemblies d).
Definition set_candidates (l : list CandidateRow) d : MemDb E :=
  MDb (md_kernel d) l (md_promotions d) (md_versions d) (md_relations d) (md_assemblies d).
Definition add_promotion (p : PromotionRow) d : MemDb E :=
  MDb (md_kernel d) (md_candidates d) (md_promotions d ++ [p]) (md_versions d) (md_relations d) (md_assemblies d).
Definition add_version (v : CanonicalMemoryVersion) d : MemDb E :=
  MDb (md_kernel d) (md_candidates d) (md_promotions d) (md_versions d ++ [v]) (md_relations d) (md_assemblies d).
Definition add_relation (r : RelationRow) d : MemDb E :=
  MDb (md_kernel d) (md_candidates d) (md_promotions d) (md_versions d) (md_relations d ++ [r]) (md_assemblies d).
Definition add_assembly (a : AssemblyRow) d : MemDb E :=
  MDb (md_kernel d) (md_candidates d) (md_promotions d) (md_versions d) (md_relations d) (md_assemblies d ++ [a]).

Definition guard (c : bool) (e : exn) : prog (MemDb E) unit := lift_result (ensure c e).

(** [withTenant(pool, ctx, action, permission)] *)
Definition authorize (ctx : TenantContext) (permission : Permission) : prog (MemDb E) unit := λ d,
  (d, snd (Approval.authorize (tc_tenantId ctx) (tc_principal ctx) permission
    {| db_roles := kt_roles (md_kernel d); db_tasks := ∅; db_steps := ∅; db_events := []; db_approvals := ∅; db_evidence := ∅ |})).

Definition withTenant {A} (ctx : TenantContext) (permission : Permission) (action : prog (MemDb E) A)
  : prog (MemDb E) A := λ d,
  match (authorize ctx permission;; action) d with
  | (d', Ok a) => (d', Ok a)
  | (_, Throw e) => (d, Throw e)
  end.

(** A call to the approval machinery: its own transactions, on the kernel's tables. *)
Definition on_kernel {A} (m : prog E A) : prog (MemDb E) A := λ d,
  let '(e, r) := m (md_kernel d) in (set_kernel e d, r).

(** *** The tables' own rules *)

Definition find_candidate (tenant id : string) d : option CandidateRow :=
  List.find (λ c, (c_tenant c === tenant) && (c_id c === id)) (md_candidates d).

(** [insert ... on conflict do nothing returning id]: whether the row went in. *)
Definition insert_candidate (c : CandidateRow) : prog (MemDb E) bool :=
  d ← get_st;
  guard (((c_state c !== AWAITING_APPROVAL) || bool_decide (is_Some (c_approvalId c))) &&
         ((c_state c !== PROMOTED) || bool_decide (c_origin c ∈ [OPERATOR_INSTRUCTION; VERIFIED_OUTCOME])))
    (pg_error "23514");;
  if existsb (λ x, (c_id x === c_id c) || (c_tenant x === c_tenant c) && (c_key x === c_key c)) (md_candidates d)
  then mret false
  else put_st (set_candidates (md_candidates d ++ [c]) d);; mret true.

Definition settle_candidate (id reason at_ : string) (s : CandidateState) (c : CandidateRow) : CandidateRow :=
  if c_id c === id then
    {| c_id := c_id c; c_tenant := c_tenant c; c_origin := c_origin c; c_submittedBy := c_submittedBy c; c_key := c_key c;
       c_class := c_class c; c_intent := c_intent c; c_target := c_target c; c_content := c_content c;
       c_contentDigest := c_contentDigest c; c_subject := c_subject c; c_evidence := c_evidence c; c_reason := c_reason c;
       c_requestDigest := c_requestDigest c; c_state := s; c_stateReason := reason; c_approvalId := c_approvalId c;
       c_createdAt := c_createdAt c; c_decidedAt := at_ |}
  else c.

(** [update memory_candidates set state ... where tenant_id and id], under the guard trigger. *)
Definition update_candidate (tenant id : string) (s : CandidateState) (reason at_ : string) : prog (MemDb E) unit :=
  d ← get_st;
  match find_candidate tenant id d with
  | None => mret tt
  | Some c =>
      guard ((c_state c === AWAITING_APPROVAL) && ((s === PROMOTED) || (s === REJECTED))) (pg_error "55000");;
      guard ((s !== PROMOTED) || bool_decide (c_origin c ∈ [OPERATOR_INSTRUCTION; VERIFIED_OUTCOME])) (pg_error "23514");;
      put_st (set_candidates (map (settle_candidate id reason at_ s) (md_candidates d)) d)
  end.

Definition insert_promotion (p : PromotionRow) : prog (MemDb E) unit :=
  d ← get_st;
  guard (match find_candidate (p_tenant p) (p_candidateId p) d with
         | None => false
         | Some c => negb (allowing (p_decision p)) || bool_decide (c_origin c ∈ [OPERATOR_INSTRUCTION; VERIFIED_OUTCOME])
         end) (pg_error "23514");;
  guard (Bool.eqb (allowing (p_decision p)) (bool_decide (is_Some (p_result p))) &&
         (negb (bool_decide (p_decision p ∈ [D_ALLOW_APPROVED; D_REJECT_APPROVAL; D_REQUIRE_APPROVAL])) ||
          bool_decide (is_Some (p_approvalId p)))) (pg_error "23514");;
  guard (negb (existsb (λ x, (p_id x === p_id p) ||
           bool_decide (is_Some (p_result p)) && bool_decide (is_Some (p_result x)) && (p_candidateId x === p_candidateId p))
         (md_promotions d))) (pg_error "23505");;
  put_st (add_promotion p d).

Definition find_version (memoryId : string) (version : Z) d : option CanonicalMemoryVersion :=
  List.find (λ v, (cm_memoryId v === memoryId) && (cm_version v =? version)) (md_versions d).

Definition insert_version (v : CanonicalMemoryVersion) : prog (MemDb E) unit :=
  d ← get_st;
  guard (match List.find (λ p, p_id p === cm_promotionId v) (md_promotions d) with
         | None => false
         | Some p => allowing (p_decision p) && (p_tenant p === cm_tenantId v) && (p_candidateId p === cm_candidateId v) &&
                     (p_result p === Some (cm_memoryId v, cm_version v))
         end) (pg_error "23514");;
  guard (match List.find (λ c, c_id c === cm_candidateId v) (md_candidates d) with
         | None => false
         | Some c => cm_trustClass v === TRUST_FOR_ORIGIN (c_origin c)
         end) (pg_error "23514");;
  guard ((cm_version v <=? 1) ||
         match find_version (cm_memoryId v) (cm_version v - 1) d with
         | None => false
         | Some prev => (cm_tenantId prev === cm_tenantId v) && (cm_class prev === cm_class v) &&
                        (cm_subject prev === cm_subject v) && (cm_kind prev !== V_RETRACT)
         end) (pg_error "23514");;
  guard ((1 <=? cm_version v) && (if cm_version v =? 1 then cm_supersedesVersion v === None
                                   else cm_supersedesVersion v === Some (cm_version v - 1)) &&
         ((cm_kind v !== V_RETRACT) || (1 <? cm_version v))) (pg_error "23514");;
  guard (negb (existsb (λ x, (cm_memoryId x === cm_memoryId v) && (cm_version x =? cm_version v) ||
                             (cm_promotionId x === cm_promotionId v)) (md_versions d))) (pg_error "23505");;
  put_st (add_version v d).

(** Both memories exist in the relation's tenant and in no other. *)
Definition relation_allowed (r : RelationRow) d : bool :=
  let versions_of m := List.filter (λ v, cm_memoryId v === m) (md_versions d) in
  existsb (λ v, cm_tenantId v === r_tenant r) (versions_of (r_from r)) &&
  existsb (λ v, cm_tenantId v === r_tenant r) (versions_of (r_to r)) &&
  forallb (λ v, cm_tenantId v === r_tenant r) (versions_of (r_from r) ++ versions_of (r_to r)) &&
  match r_kind r with
  | CONFLICTS_WITH => true
  | SUPERSEDES =>
      existsb (λ p, (Some (p_id p) === r_promotionId r) && allowing (p_decision p) && (p_tenant p === r_tenant r) &&
                    match p_result p with Some (m, _) => m === r_from r | None => false end) (md_promotions d)
  end.

(** Whether the row went in; a second row of the same kind and ends is the caller's conflict. *)
Definition insert_relation (r : RelationRow) : prog (MemDb E) bool :=
  d ← get_st;
  guard (relation_allowed r d && (r_from r !== r_to r)) (pg_error "23514");;
  if existsb (λ x, (r_id x === r_id r) || (r_kind x === r_kind r) && (r_from x === r_from r) && (r_to x === r_to r))
       (md_relations d)
  then mret false
  else put_st (add_relation r d);; mret true.

(** The view [memory_current]. *)
Definition is_head (v : CanonicalMemoryVersion) d : bool :=
  forallb (λ m, (cm_memoryId m !== cm_memoryId v) || (cm_version m <=? cm_version v)) (md_versions d).
Definition superseded (tenant memoryId : string) d : bool :=
  existsb (λ r, (r_kind r === SUPERSEDES) && (r_to r === memoryId) && (r_tenant r === tenant)) (md_relations d).
Definition current (v : CanonicalMemoryVersion) d : bool :=
  is_head v d && (cm_kind v === V_ASSERT) && negb (superseded (cm_tenantId v) (cm_memoryId v) d).
End tables.

(** ** provenance.ts *)

Section service.
Context {E : Type} `{KernelTables E}.
Context (toLowerCase : string → string) (nfc : string → string).
Implicit Types (d : MemDb E).

Definition result_types : list EvidenceType := [DETERMINISTIC_RESULT; TOOL_RECEIPT; ARTIFACT].

Definition verifiedResult (tenantId taskId evidenceId : string) d : result (Task * Outcome) :=
  ok_or (Id_ok taskId && Id_ok evidenceId) "id";;
  let row :=
    match kt_task (md_kernel d) taskId, kt_outcome (md_kernel d) taskId, kt_evidence (md_kernel d) evidenceId with
    | Some t, Some o, Some e =>
        if (ev_taskId e === taskId) && (task_tenant t === tenantId) && (task_status t === COMPLETED)
           && (out_status o === O_COMPLETED) && bool_decide (ev_type e ∈ result_types) then Some (t, o) else None
    | _, _, _ => None
    end in
  match row with
  | None => Throw (js_error "Verified task evidence required")
  | Some (t, o) =>
      task ← Task_parse t;
      outcome ← Outcome_parse o;
      ensure (bool_decide (evidenceId ∈ out_evidenceRefs outcome) &&
              existsb (λ r, ar_passed r && bool_decide (evidenceId ∈ ar_evidenceRefs r)) (out_acceptanceResults outcome))
        (js_error "Evidence is not part of verified outcome");;
      Ok (task, outcome)
  end.

(** ** service.ts: submission *)

Definition optional_json {A} (f : A → json) (k : string) (o : option A) : list (string * json) := opt_field k (f <$> o).

Definition evidence_ref_json (e : MemoryEvidenceRef) : json :=
  JObj ([("type", JStr (enum_name EVIDENCE_REF_TYPES (mer_type e))); ("ref", JStr (mer_ref e))]
        ++ optional_json JStr "digest" (mer_digest e)).

Definition prepare (raw : json) : result Prepared :=
  sub ← CandidateSubmission_parse raw;
  let contentDigest := Sha256.sha256_hex (normalise nfc (cs_content sub)) in
  let requestDigest := capabilityDigest (JObj
    [("class", JStr (class_name (cs_class sub))); ("contentDigest", JStr contentDigest);
     ("subject", subject_json (cs_subject sub)); ("evidence", JArr (map evidence_ref_json (cs_evidence sub)));
     ("reason", JStr (cs_reason sub)); ("intent", JStr (enum_name MEMORY_INTENTS (cs_intent sub)));
     ("target", opt_json JStr (cs_targetMemoryId sub))]) in
  Ok {| pr_sub := sub; pr_contentDigest := contentDigest; pr_requestDigest := requestDigest |}.

Definition candidate_id (tenantId key : string) : string :=
  stableId (JArr [JStr "memory-candidate/v1"; JStr tenantId; JStr key]).

Definition candidateRow (tenantId id : string) : prog (MemDb E) CandidateRow :=
  d ← get_st;
  lift_result (match find_candidate tenantId id d with
    | Some c => Ok c | None => Throw (memory_error "NOT_FOUND" "Candidate not found") end).

(** [order by (decision in (...)) desc, created_at desc]: the settled decision, else the latest. *)
Definition settled_first (a b : PromotionRow) : Z :=
  let rank p := if bool_decide (p_decision p ∈ [D_ALLOW_APPROVED; D_REJECT_APPROVAL]) then 1 else 0 in
  if negb (rank b - rank a =? 0) then rank b - rank a else str_cmp (p_createdAt b) (p_createdAt a).

Definition promotions_of (candidateId : string) d : list PromotionRow :=
  js_sort settled_first (List.filter (λ p, p_candidateId p === candidateId) (md_promotions d)).

Definition resultFor (row : CandidateRow) (replayed : bool) : prog (MemDb E) SubmissionResult :=
  d ← get_st;
  match promotions_of (c_id row) d with
  | [] => throw_st (memory_error "INVALID" "Candidate has no promotion record")
  | p :: _ => mret
      {| sr_candidateId := c_id row; sr_origin := c_origin row; sr_state := c_state row; sr_decision := p_decision p;
         sr_ruleId := p_ruleId p; sr_reason := p_reason p; sr_memoryId := fst <$> p_result p;
         sr_version := snd <$> p_result p; sr_approvalId := c_approvalId row; sr_replayed := replayed |}
  end.

Definition existing (ctx : TenantContext) (p : Prepared) : prog (MemDb E) (option SubmissionResult) :=
  d ← get_st;
  match List.find (λ c, (c_tenant c === tc_tenantId ctx) && (c_key c === cs_idempotencyKey (pr_sub p))) (md_candidates d) with
  | None => mret None
  | Some row =>
      guard (c_requestDigest row === pr_requestDigest p)
        (memory_error "CONFLICT" "That idempotency key was already used for a different candidate");;
      r ← resultFor row true; mret (Some r)
  end.

Definition loadTarget (tenantId : string) (memoryId : option string) d : option TargetState :=
  match memoryId with
  | None => None
  | Some i =>
      let rows := List.filter (λ v, (cm_tenantId v === tenantId) && (cm_memoryId v === i)) (md_versions d) in
      match js_sort (λ a b, cm_version b - cm_version a) rows with
      | [] => None
      | h :: _ => Some
          {| t_memoryId := i; t_version := cm_version h; t_kind := cm_kind h; t_class := cm_class h;
             t_subject := cm_subject h; t_content := cm_content h; t_superseded := superseded tenantId i d |}
      end
  end.

(** TASK_EVIDENCE refs are [<taskId>/<evidenceId>]; the savepoint keeps a failed read from the transaction. *)
Definition ref_verified (tenantId : string) d (e : MemoryEvidenceRef) : bool :=
  match split "/" (mer_ref e) with
  | [taskId; evidenceId] =>
      Id_ok taskId && Id_ok evidenceId && is_ok (verifiedResult tenantId taskId evidenceId d)
  | _ => false
  end.

Definition taskEvidenceVerified (tenantId : string) (evidence : list MemoryEvidenceRef) d : bool :=
  let refs := List.filter (λ e, mer_type e === TASK_EVIDENCE) evidence in
  negb (bool_decide (refs = [])) && forallb (ref_verified tenantId d) refs.

Definition refuse (ruleId reason : string) : PolicyDecisionResult :=
  {| pdr_decision := REFUSE; pdr_ruleId := ruleId; pdr_reason := reason; pdr_protected := false |}.

(** The scope and target checks that come before the policy table. *)
Definition scope_refusal (origin : MemoryOrigin) (ctx : TenantContext) (sub : CandidateSubmission)
    (target : option TargetState) : option PolicyDecisionResult :=
  let other s := (ms_kind s === S_PRINCIPAL) && (ms_ref s !== principal_id (tc_principal ctx)) in
  if (origin === OPERATOR_INSTRUCTION) && other (cs_subject sub) then
    Some (refuse "subject-scope" "a personal memory can only be written about yourself")
  else if cs_intent sub !== NEW then
    match target with
    | None => Some (refuse "target-not-found" "the memory to change does not exist")
    | Some t =>
        if t_kind t === V_RETRACT then Some (refuse "target-retracted" "that memory has already been retracted")
        else if t_superseded t then Some (refuse "target-superseded" "that memory has already been superseded")
        else if (origin === OPERATOR_INSTRUCTION) && other (t_subject t) then
          Some (refuse "subject-scope" "a personal memory can only be changed by its own subject")
        else if (cs_intent sub !== SUPERSEDE) && (t_class t !== cs_class sub) then
          Some (refuse "class-mismatch" "a correction or retraction keeps the memory's class")
        else if (cs_intent sub !== SUPERSEDE) && (t_subject t !== cs_subject sub) then
          Some (refuse "subject-mismatch" "a correction or retraction keeps the memory's subject")
        else None
    end
  else None.

Definition judge (origin : MemoryOrigin) (ctx : TenantContext) (sub : CandidateSubmission)
    (target : option TargetState) d : PolicyDecisionResult :=
  match scope_refusal origin ctx sub target with
  | Some r => r
  | None =>
      let verdict := decidePromotion origin sub (t_class <$> target) in
      if (origin === VERIFIED_OUTCOME) && ((pdr_decision verdict === ALLOW) || (pdr_decision verdict === REQUIRE_APPROVAL)) &&
         negb (taskEvidenceVerified (tc_tenantId ctx) (cs_evidence sub) d)
      then refuse "outcome-not-verified" "the cited task evidence is not part of a verified, completed outcome"
      else verdict
  end.

(** ** service.ts: recording *)

Record How := {
  hw_phase : string; hw_by : PromotedBy; hw_principal : option string; hw_approvalId : option string; hw_at : Z
}.

Definition promotion_id (candidateId phase : string) : string :=
  stableId (JArr [JStr "memory-promotion/v1"; JStr candidateId; JStr phase]).
Definition memory_id (tenantId candidateId : string) : string :=
  stableId (JArr [JStr "memory/v2"; JStr tenantId; JStr candidateId]).
Definition relation_id (kind from to : string) : string :=
  stableId (JArr [JStr "memory-relation/v1"; JStr kind; JStr from; JStr to]).

(** Where an allowed promotion puts the memory. *)
Definition result_of (c : CandidateRow) (target : option TargetState) : result (string * Z) :=
  if (c_intent c === CORRECT) || (c_intent c === RETRACT) then
    match target with
    | None => Throw (memory_error "INVALID" "A correction needs its target")
    | Some t => Ok (t_memoryId t, t_version t + 1)
    end
  else Ok (memory_id (c_tenant c) (c_id c), 1).

Definition version_of (c : CandidateRow) (target : option TargetState) (verdict : Verdict) (how : How)
    (memoryId : string) (version : Z) : result CanonicalMemoryVersion :=
  let retract := c_intent c === RETRACT in
  let content := if retract then default (c_content c) (t_content <$> target) else c_content c in
  class ← (if retract || (c_intent c === CORRECT) then
             match target with Some t => Ok (t_class t) | None => Throw (pg_error "23502") end
           else Ok (c_class c));
  Ok {| cm_memoryId := memoryId; cm_version := version; cm_tenantId := c_tenant c; cm_class := class;
        cm_kind := if retract then V_RETRACT else V_ASSERT; cm_content := content;
        cm_contentDigest := Sha256.sha256_hex (normalise nfc content); cm_subject := c_subject c;
        cm_trustClass := TRUST_FOR_ORIGIN (c_origin c);
        cm_confidence := if c_origin c === VERIFIED_OUTCOME then VERIFIED else STATED;
        cm_provenance := {| mp_origin := c_origin c; mp_submittedBy := c_submittedBy c; mp_candidateId := c_id c;
                            mp_reason := c_reason c |};
        cm_evidence := c_evidence c;
        cm_policy := {| mpol_policyVersion := POLICY_VERSION; mpol_ruleId := vd_ruleId verdict;
                        mpol_decision := vd_decision verdict; mpol_protected := vd_protected verdict;
                        mpol_approvalId := hw_approvalId how |};
        cm_candidateId := c_id c; cm_promotionId := promotion_id (c_id c) (hw_phase how);
        cm_supersedesVersion := if version =? 1 then None else Some (version - 1);
        cm_createdAt := c_createdAt c; cm_promotedAt := toISOString (hw_at how) |}.

Definition promotion_of_decision (c : CandidateRow) (verdict : Verdict) (how : How) (res : option (string * Z)) : PromotionRow :=
  {| p_id := promotion_id (c_id c) (hw_phase how); p_tenant := c_tenant c; p_candidateId := c_id c;
     p_decision := vd_decision verdict; p_ruleId := vd_ruleId verdict; p_policyVersion := POLICY_VERSION;
     p_reason := slice16 500 (vd_reason verdict); p_byKind := hw_by how; p_byPrincipal := hw_principal how;
     p_approvalId := hw_approvalId how; p_evidence := c_evidence c; p_result := res;
     p_createdAt := toISOString (hw_at how) |}.

(** The version, and the relation when one memory replaces another. *)
Definition record_version (c : CandidateRow) (target : option TargetState) (verdict : Verdict) (how : How)
    (memoryId : string) (version : Z) : prog (MemDb E) unit :=
  v ← lift_result (version_of c target verdict how memoryId version);
  insert_version v;;
  match target with
  | Some t =>
      if c_intent c === SUPERSEDE then
        fresh ← insert_relation
          {| r_id := relation_id "SUPERSEDES" memoryId (t_memoryId t); r_tenant := c_tenant c; r_kind := SUPERSEDES;
             r_from := memoryId; r_to := t_memoryId t; r_promotionId := Some (promotion_id (c_id c) (hw_phase how));
             r_actor := None; r_evidence := c_evidence c |};
        guard fresh (pg_error "23505")
      else mret tt
  | None => mret tt
  end.

Definition recordDecision (c : CandidateRow) (target : option TargetState) (verdict : Verdict) (how : How)
  : prog (MemDb E) SubmissionResult :=
  let allowed := allowing (vd_decision verdict) in
  let settle := hw_phase how === "settle" in
  let state := if settle then (if allowed then PROMOTED else REJECTED) else STATE_FOR (vd_decision verdict) in
  res ← lift_result (if allowed then (x ← result_of c target; Ok (Some x)) else Ok None);
  insert_promotion (promotion_of_decision c verdict how res);;
  (match res with Some (m, n) => record_version c target verdict how m n | None => mret tt end);;
  (if settle then update_candidate (c_tenant c) (c_id c) state (slice16 500 (vd_reason verdict)) (toISOString (hw_at how))
   else mret tt);;
  mret {| sr_candidateId := c_id c; sr_origin := c_origin c; sr_state := state; sr_decision := vd_decision verdict;
          sr_ruleId := vd_ruleId verdict; sr_reason := vd_reason verdict; sr_memoryId := fst <$> res;
          sr_version := snd <$> res; sr_approvalId := hw_approvalId how; sr_replayed := false |}.
End service.

(** ** service.ts: the entry points *)

Section operations.
Context {E : Type} `{KernelTables E}.
Context (toLowerCase : string → string) (nfc : string → string) (approvals : option (PromotionApprovals E)).

(** Phase 1: replay, or whether an approval will be needed. *)
Definition submit_first (origin : MemoryOrigin) (ctx : TenantContext) (p : Prepared)
  : prog (MemDb E) (option SubmissionResult * bool) :=
  withTenant ctx P_knowledge_write
    (found ← existing ctx p;
     match found with
     | Some r => mret (Some r, false)
     | None =>
         d ← get_st;
         let target := loadTarget (tc_tenantId ctx) (cs_targetMemoryId (pr_sub p)) d in
         mret (None, pdr_decision (judge origin ctx (pr_sub p) target d) === REQUIRE_APPROVAL)
     end).

Definition unavailable (v : Verdict) : Verdict :=
  {| vd_decision := D_HOLD; vd_ruleId := "approval-unavailable";
     vd_reason := "this promotion needs an approver and none is configured, so it stays a candidate";
     vd_protected := vd_protected v |}.

Definition candidate_of (origin : MemoryOrigin) (ctx : TenantContext) (p : Prepared) (verdict : Verdict)
    (approvalId : option string) (at_ : string) : CandidateRow :=
  let sub := pr_sub p in
  {| c_id := candidate_id (tc_tenantId ctx) (cs_idempotencyKey sub); c_tenant := tc_tenantId ctx; c_origin := origin;
     c_submittedBy := principal_id (tc_principal ctx); c_key := cs_idempotencyKey sub; c_class := cs_class sub;
     c_intent := cs_intent sub; c_target := cs_targetMemoryId sub;
     c_content := if vd_ruleId verdict === "no-secrets" then REDACTED_CONTENT else cs_content sub;
     c_contentDigest := pr_contentDigest p; c_subject := cs_subject sub; c_evidence := cs_evidence sub;
     c_reason := cs_reason sub; c_requestDigest := pr_requestDigest p; c_state := STATE_FOR (vd_decision verdict);
     c_stateReason := vd_reason verdict;
     c_approvalId := if vd_decision verdict === D_REQUIRE_APPROVAL then approvalId else None;
     c_createdAt := at_; c_decidedAt := at_ |}.

(** Phase 2: one transaction records the candidate, the decision and, when allowed, the version. *)
Definition decided (origin : MemoryOrigin) (ctx : TenantContext) (p : Prepared) (approvalId : option string) (d : MemDb E)
  : Verdict :=
  let target := loadTarget (tc_tenantId ctx) (cs_targetMemoryId (pr_sub p)) d in
  let verdict := verdict_of (judge origin ctx (pr_sub p) target d) in
  if (vd_decision verdict === D_REQUIRE_APPROVAL) && (approvalId === None) then unavailable verdict else verdict.

Definition submit_second (origin : MemoryOrigin) (ctx : TenantContext) (p : Prepared) (approvalId : option string) (now : Z)
  : prog (MemDb E) SubmissionResult :=
  withTenant ctx P_knowledge_write
    (d ← get_st;
     let target := loadTarget (tc_tenantId ctx) (cs_targetMemoryId (pr_sub p)) d in
     let verdict := decided origin ctx p approvalId d in
     let row := candidate_of origin ctx p verdict approvalId (toISOString now) in
     inserted ← insert_candidate row;
     if negb inserted then
       replay ← existing ctx p;
       match replay with
       | None => throw_st (memory_error "CONFLICT" "Candidate could not be recorded")
       | Some r => mret r
       end
     else
       stored ← candidateRow (tc_tenantId ctx) (c_id row);
       recordDecision nfc stored target verdict
         {| hw_phase := "decide"; hw_by := POLICY_ENGINE; hw_principal := Some (principal_id (tc_principal ctx));
            hw_approvalId := c_approvalId row; hw_at := now |}).

(** The approval is created before the candidate row that refers to it. *)
Definition request_approval (ctx : TenantContext) (p : Prepared) (needed : bool) : prog (MemDb E) (option string) :=
  match approvals with
  | Some a =>
      if needed then
        t ← on_kernel (pa_request a (tc_tenantId ctx) (candidate_id (tc_tenantId ctx) (cs_idempotencyKey (pr_sub p)))
                         (pr_requestDigest p) (tc_principal ctx));
        mret (Some (pt_approvalId t))
      else mret None
  | None => mret None
  end.

Definition submit (origin : MemoryOrigin) (ctx : TenantContext) (raw : json) (now : Z) : prog (MemDb E) SubmissionResult :=
  p ← lift_result (prepare nfc raw);
  first ← submit_first origin ctx p;
  match first.1 with
  | Some replay => mret replay
  | None =>
      approvalId ← request_approval ctx p first.2;
      submit_second origin ctx p approvalId now
  end.

Definition submitOperatorInstruction (ctx : TenantContext) (raw : json) (now : Z) : prog (MemDb E) SubmissionResult :=
  if principal_kind (tc_principal ctx) !== HUMAN then
    throw_st (memory_error "FORBIDDEN_ORIGIN" "Only a human principal can give a memory instruction")
  else submit OPERATOR_INSTRUCTION ctx raw now.

Definition submitVerifiedOutcomeCandidate (ctx : TenantContext) (raw : json) (now : Z) : prog (MemDb E) SubmissionResult :=
  if principal_kind (tc_principal ctx) !== SERVICE then
    throw_st (memory_error "FORBIDDEN_ORIGIN" "A verified outcome is proposed by a service principal")
  else submit VERIFIED_OUTCOME ctx raw now.

Definition submitModelCandidate : TenantContext → json → Z → prog (MemDb E) SubmissionResult := submit MODEL_PROPOSAL.
Definition submitExternalCandidate : TenantContext → json → Z → prog (MemDb E) SubmissionResult := submit SHARED_BRAIN.

(** *** Settlement *)

Definition settled_verdict (state : PromotionApprovalState) (c : CandidateRow) (target : option TargetState) : Verdict :=
  match ps_status state with
  | A_GRANTED =>
      let stale := (c_intent c !== NEW) &&
        match target with None => true | Some t => (t_kind t === V_RETRACT) || t_superseded t end in
      if stale then
        {| vd_decision := D_REJECT_APPROVAL; vd_ruleId := "approval-target-stale";
           vd_reason := "the memory this promotion would change is no longer current"; vd_protected := true |}
      else
        {| vd_decision := D_ALLOW_APPROVED; vd_ruleId := "approved-by-human";
           vd_reason := "granted by the named approver for this exact candidate"; vd_protected := true |}
  | s =>
      {| vd_decision := D_REJECT_APPROVAL;
         vd_ruleId := if s === A_EXPIRED then "approval-expired" else "approval-denied";
         vd_reason := if s === A_EXPIRED then "the approval expired before it was granted"
                      else "the approver declined this promotion";
         vd_protected := true |}
  end.

Definition settle_body (ctx : TenantContext) (candidateId approvalId : string) (state : PromotionApprovalState) (now : Z)
  : prog (MemDb E) SubmissionResult :=
  locked ← candidateRow (tc_tenantId ctx) candidateId;
  if c_state locked !== AWAITING_APPROVAL then resultFor locked true
  else
    d ← get_st;
    let target := loadTarget (tc_tenantId ctx) (c_target locked) d in
    let verdict := settled_verdict state locked target in
    recordDecision nfc locked target verdict
      {| hw_phase := "settle";
         hw_by := if vd_decision verdict === D_ALLOW_APPROVED then APPROVED_HUMAN else POLICY_ENGINE;
         hw_principal := if vd_decision verdict === D_ALLOW_APPROVED then ps_approver state else None;
         hw_approvalId := Some approvalId; hw_at := now |}.

Definition settleApproval (ctx : TenantContext) (candidateId : string) (now : Z) : prog (MemDb E) SubmissionResult :=
  match approvals with
  | None => throw_st (memory_error "INVALID" "No approval machinery is configured")
  | Some a =>
      row ← withTenant ctx P_knowledge_write (candidateRow (tc_tenantId ctx) candidateId);
      let answer := withTenant ctx P_knowledge_write
        (r ← candidateRow (tc_tenantId ctx) candidateId; resultFor r true) in
      match c_approvalId row with
      | None => answer
      | Some approvalId =>
          if c_state row !== AWAITING_APPROVAL then answer
          else
            on_kernel (pa_expireIfDue a approvalId);;
            state ← on_kernel (pa_state a approvalId);
            if ps_status state === A_PENDING then withTenant ctx P_knowledge_write (resultFor row true)
            else if (ps_boundCandidateId state !== Some (c_id row)) ||
                    (ps_boundCandidateDigest state !== Some (c_requestDigest row)) then
              throw_st (memory_error "CONFLICT" "The approval is not bound to this candidate")
            else withTenant ctx P_knowledge_write (settle_body ctx candidateId approvalId state now)
      end
  end.

(** *** Conflicts *)

Definition flagConflict (ctx : TenantContext) (a b : string) (evidence : list MemoryEvidenceRef) : prog (MemDb E) bool :=
  if principal_kind (tc_principal ctx) !== HUMAN then
    throw_st (memory_error "FORBIDDEN_ORIGIN" "Only a human can flag a conflict")
  else
    guard (Id_ok a && Id_ok b) (zod_error "id");;
    let '(from, to) := if str_lt a b then (a, b) else (b, a) in
    withTenant ctx P_knowledge_write (insert_relation
      {| r_id := relation_id "CONFLICTS_WITH" from to; r_tenant := tc_tenantId ctx; r_kind := CONFLICTS_WITH;
         r_from := from; r_to := to; r_promotionId := None; r_actor := Some (principal_id (tc_principal ctx));
         r_evidence := evidence |}).

(** *** Reads *)

(** The guard of [visible]. *)
Definition visible (ctx : TenantContext) (v : CanonicalMemoryVersion) : bool :=
  (ms_kind (cm_subject v) !== S_PRINCIPAL) || (ms_ref (cm_subject v) === principal_id (tc_principal ctx)).

Definition starts_with (p s : string) : bool := match strip_text p s with Some _ => true | None => false end.

Definition find (ctx : TenantContext) (idOrPrefix : string) : prog (MemDb E) (option MemoryView) :=
  let wanted := toLowerCase (js_trim idOrPrefix) in
  guard ((6 <=? Z.of_nat (String.length wanted)) && (Z.of_nat (String.length wanted) <=? 36) &&
         forallb (λ c, Sha256.is_hex c || (c === "-"%char)) (String.list_ascii_of_string wanted))
    (memory_error "INVALID" "That is not a memory id");;
  withTenant ctx P_read
    (d ← get_st;
     let of_tenant := List.filter (λ v, cm_tenantId v === tc_tenantId ctx) (md_versions d) in
     match remove_dups (map cm_memoryId (List.filter (λ v, starts_with wanted (cm_memoryId v) && visible ctx v) of_tenant)) with
     | [] => mret None
     | [memoryId] =>
         versions ← lift_result (parse_all CanonicalMemoryVersion_parse
           (js_sort (λ a b, cm_version a - cm_version b) (List.filter (λ v, cm_memoryId v === memoryId) of_tenant)));
         match last versions with
         | None => throw_st (Exn "TypeError" "head")
         | Some head =>
             let rel := List.filter (λ r, (r_tenant r === tc_tenantId ctx) &&
               ((r_from r === memoryId) || (r_to r === memoryId))) (md_relations d) in
             let supersededBy := r_from <$> List.find (λ r, (r_kind r === SUPERSEDES) && (r_to r === memoryId)) rel in
             mret (Some
               {| mv_memoryId := memoryId;
                  mv_status := if cm_kind head === V_RETRACT then RETRACTED
                               else if bool_decide (is_Some (truthy supersededBy)) then SUPERSEDED else CURRENT;
                  mv_supersededBy := supersededBy;
                  mv_supersedes := map r_to (List.filter (λ r, (r_kind r === SUPERSEDES) && (r_from r === memoryId)) rel);
                  mv_conflictsWith := map (λ r, if r_from r === memoryId then r_to r else r_from r)
                    (List.filter (λ r, r_kind r === CONFLICTS_WITH) rel);
                  mv_head := head; mv_versions := versions |})
         end
     | _ => throw_st (memory_error "AMBIGUOUS" "That id prefix matches more than one memory")
     end).

(** [order by promoted_at desc, memory_id] *)
Definition newest_first (a b : CanonicalMemoryVersion) : Z :=
  if negb (str_cmp (cm_promotedAt b) (cm_promotedAt a) =? 0) then str_cmp (cm_promotedAt b) (cm_promotedAt a)
  else str_cmp (cm_memoryId a) (cm_memoryId b).

Definition listCurrent (ctx : TenantContext) (classes : option (list MemoryClass)) (limit : option Z)
  : prog (MemDb E) (list CanonicalMemoryVersion) :=
  let limit := Z.min (Z.max (default 20 limit) 1) 100 in
  let wanted v := match classes with Some (_ :: _ as cs) => bool_decide (cm_class v ∈ cs) | _ => true end in
  withTenant ctx P_read
    (d ← get_st;
     lift_result (parse_all CanonicalMemoryVersion_parse (take (Z.to_nat limit) (js_sort newest_first
       (List.filter (λ v, (cm_tenantId v === tc_tenantId ctx) && current v d && wanted v && visible ctx v) (md_versions d)))))).

(** *** Assembly *)

Definition in_scope (ctx : TenantContext) (request : ContextRequest) (v : CanonicalMemoryVersion) : bool :=
  let s := cm_subject v in
  (ms_kind s === S_PRINCIPAL) && (ms_ref s === principal_id (tc_principal ctx)) ||
  (ms_kind s === S_TENANT) && (ms_ref s === tc_tenantId ctx) ||
  match truthy (cr_project request) with
  | Some project => (ms_kind s === S_PROJECT) && (ms_ref s === project)
  | None => false
  end.

(** The current memories of the request's scopes, at most 500. *)
Definition eligible (ctx : TenantContext) (request : ContextRequest) (d : MemDb E) : list CanonicalMemoryVersion :=
  take 500 (js_sort newest_first (List.filter (λ v, (cm_tenantId v === tc_tenantId ctx) && current v d &&
    bool_decide (cm_class v ∈ cr_allowedClasses request) && in_scope ctx request v) (md_versions d))).

Definition is_current (memoryId : string) (d : MemDb E) : bool :=
  existsb (λ v, (cm_memoryId v === memoryId) && current v d) (md_versions d).

(** The conflicts map: for each flagged pair, each end lists the other. *)
Definition conflicts_of (ctx : TenantContext) (ids : list string) (memoryId : string) (d : MemDb E) : list string :=
  sorted_set (concat (map (λ r,
    if (r_tenant r === tc_tenantId ctx) && (r_kind r === CONFLICTS_WITH) &&
       (bool_decide (r_from r ∈ ids) || bool_decide (r_to r ∈ ids)) &&
       is_current (r_from r) d && is_current (r_to r) d
    then (if r_from r === memoryId then [r_to r] else []) ++ (if r_to r === memoryId then [r_from r] else [])
    else []) (md_relations d))).

Definition candidate_view (ctx : TenantContext) (ids : list string) (d : MemDb E) (v : CanonicalMemoryVersion) : Candidate :=
  {| cd_memoryId := cm_memoryId v; cd_version := cm_version v; cd_class := cm_class v; cd_trustClass := cm_trustClass v;
     cd_content := cm_content v; cd_contentDigest := cm_contentDigest v; cd_origin := mp_origin (cm_provenance v);
     cd_evidence := cm_evidence v; cd_promotedAt := cm_promotedAt v; cd_subjectKind := ms_kind (cm_subject v);
     cd_conflictsWith := conflicts_of ctx ids (cm_memoryId v) d |}.

Definition insert_assembly (a : AssemblyRow) : prog (MemDb E) unit :=
  d ← get_st;
  let c := as_context a in
  guard ((0 <? ac_maxTokens c) && (0 <=? ac_usedTokens c) && (ac_usedTokens c <=? ac_maxTokens c)) (pg_error "23514");;
  if existsb (λ x, ac_assemblyId (as_context x) === ac_assemblyId c) (md_assemblies d) then mret tt
  else put_st (add_assembly a d).

Definition assemble (ctx : TenantContext) (rawRequest : json) (consumer : Consumer) (external : list ExternalContextItem)
  : prog (MemDb E) AssembledContext :=
  request ← lift_result (ContextRequest_parse rawRequest);
  guard (match cr_subject request with
         | Some s => negb ((ms_kind s === S_PRINCIPAL) && (ms_ref s !== principal_id (tc_principal ctx)))
         | None => true end)
    (memory_error "FORBIDDEN_ORIGIN" "Memories about another principal cannot be requested");;
  withTenant ctx P_read
    (d ← get_st;
     versions ← lift_result (parse_all CanonicalMemoryVersion_parse (eligible ctx request d));
     let ids := map cm_memoryId versions in
     assembled ← lift_result (assembleFrom toLowerCase nfc (tc_tenantId ctx) request
       (map (candidate_view ctx ids d) versions) external consumer);
     insert_assembly {| as_principal := principal_id (tc_principal ctx);
       as_purposeDigest := purposeDigest nfc (cr_purpose request); as_context := assembled; as_consumer := consumer |};;
     mret assembled).
End operations.
