(* ===== verification/MemInvariant.v ===== *)
(** * What the canonical memory service guarantees

    The effect of each operation of Memory.v on the tables, the invariant [mem_inv] of the
    states the operations reach, and the service's contract: canonical memory comes only
    from an operator or a verified outcome, through a recorded decision; an approval settles
    only the candidate it is bound to; an assembled context holds current memories of the
    request's scopes only. *)

From S2P Require Import Prelude JsNumber JsDate Digest Contracts Plan Capability Json Policy Approval Regex MemPolicy MemContext Memory.
Local Open Scope Z_scope.
Local Open Scope js_scope.

Section effects.
Context {E : Type} `{KernelTables E}.
Context (toLowerCase : string → string) (nfc : string → string).
Implicit Types (d : MemDb E).

Lemma mem_authorize_ok ctx p d d' u : Memory.authorize ctx p d = (d', Ok u) → d' = d.
Proof. by intros [= <- _]. Qed.

Lemma withTenant_ok {A} ctx p (m : prog (MemDb E) A) d d' a :
  withTenant ctx p m d = (d', Ok a) → m d = (d', Ok a) ∧ is_ok (Memory.authorize ctx p d).2 = true.
Proof.
  unfold withTenant. destruct ((Memory.authorize ctx p;; m) d) as [d1 [b|]] eqn:Em; intros [= <- <-].
  apply pbind_ok in Em as ([] & d2 & Ea & Em). apply mem_authorize_ok in Ea as Ed. subst d2. by rewrite Ea.
Qed.

Lemma withTenant_throw {A} ctx p (m : prog (MemDb E) A) d d' e : withTenant ctx p m d = (d', Throw e) → d' = d.
Proof. unfold withTenant. by destruct ((Memory.authorize ctx p;; m) d) as [d1 [b|]]; intros [= <- <-]. Qed.

(** *** The inserts *)

Lemma insert_candidate_ok c d d' b :
  insert_candidate c d = (d', Ok b) →
  (b = false ∧ d' = d) ∨
  b = true ∧ d' = set_candidates (md_candidates d ++ [c]) d ∧
    (∀ x, x ∈ md_candidates d → c_id x ≠ c_id c ∧ (c_tenant x = c_tenant c → c_key x ≠ c_key c)).
Proof.
  unfold insert_candidate. rewrite get_bind. intros ([] & d1 & [-> _]%check_ok & H1)%pbind_ok.
  destruct (existsb _ _) eqn:Ex; [left; by apply ret_ok in H1 as [-> ->]|right].
  apply pbind_ok in H1 as ([] & d2 & [= <-] & [-> ->]%ret_ok). split_and!; [done..|].
  intros x Hx. split.
  - intros Hid. assert (existsb (λ x, (c_id x === c_id c) || (c_tenant x === c_tenant c) && (c_key x === c_key c)) (md_candidates d) = true);
      [|congruence]. apply existsb_elem. exists x. split; [done|]. by rewrite bool_decide_true.
  - intros Ht Hk. assert (existsb (λ x, (c_id x === c_id c) || (c_tenant x === c_tenant c) && (c_key x === c_key c)) (md_candidates d) = true);
      [|congruence]. apply existsb_elem. exists x. split; [done|].
    apply orb_true_iff. right. by rewrite !bool_decide_true.
Qed.

Lemma find_candidate_elem tenant id d c : find_candidate tenant id d = Some c → c ∈ md_candidates d ∧ c_tenant c = tenant ∧ c_id c = id.
Proof. unfold find_candidate. intros [Hin Hc]%List.find_some. to_prop. by rewrite list_elem_of_In. Qed.

Lemma insert_promotion_ok p d d' u :
  insert_promotion p d = (d', Ok u) →
  d' = add_promotion p d ∧
  (∃ c, find_candidate (p_tenant p) (p_candidateId p) d = Some c ∧
        (allowing (p_decision p) = true → c_origin c ∈ [OPERATOR_INSTRUCTION; VERIFIED_OUTCOME])) ∧
  (p_decision p = D_ALLOW_APPROVED → is_Some (p_approvalId p)).
Proof.
  unfold insert_promotion. rewrite get_bind. intros ([] & d1 & [-> Hc]%check_ok & H1)%pbind_ok.
  apply pbind_ok in H1 as ([] & d1 & [-> Hd]%check_ok & H1). apply pbind_ok in H1 as ([] & d1 & [-> _]%check_ok & [= <-]).
  split_and!; [done| |].
  - destruct (find_candidate _ _ d) as [c|]; [|done]. exists c. split; [done|]. intros Ha. rewrite Ha in Hc. simpl in Hc. by to_prop.
  - intros Ea. apply andb_true_iff in Hd as [_ Hd]. rewrite Ea in Hd. apply orb_true_iff in Hd as [Hd|Hd]; to_prop; [destruct Hd; left|done].
Qed.

(** What the guards of [memory_versions] establish. *)
Definition version_fits (v : CanonicalMemoryVersion) d : Prop :=
  1 ≤ cm_version v ∧
  (cm_version v = 1 ∨ ∃ u, u ∈ md_versions d ∧ cm_memoryId u = cm_memoryId v ∧ cm_version u = cm_version v - 1 ∧
     cm_tenantId u = cm_tenantId v ∧ cm_class u = cm_class v ∧ cm_subject u = cm_subject v ∧ cm_kind u = V_ASSERT) ∧
  (∀ x, x ∈ md_versions d → cm_memoryId x = cm_memoryId v → cm_version x ≠ cm_version v).

Lemma insert_version_ok v d d' u : insert_version v d = (d', Ok u) → d' = add_version v d ∧ version_fits v d.
Proof.
  unfold insert_version. rewrite get_bind. intros ([] & d1 & [-> _]%check_ok & H1)%pbind_ok.
  apply pbind_ok in H1 as ([] & d1 & [-> _]%check_ok & H1). apply pbind_ok in H1 as ([] & d1 & [-> Hprev]%check_ok & H1).
  apply pbind_ok in H1 as ([] & d1 & [-> Hn]%check_ok & H1). apply pbind_ok in H1 as ([] & d1 & [-> Hu]%check_ok & [= <-]).
  split; [done|]. apply andb_true_iff in Hn as [Hn _]. apply andb_true_iff in Hn as [Hn _]. to_prop. split_and!; [done| |].
  - apply orb_true_iff in Hprev as [Hp|Hp]; [left; lia|right].
    destruct (find_version _ _ d) as [p|] eqn:Ep; [|done]. unfold find_version in Ep. apply List.find_some in Ep as [Hin Ep].
    apply list_elem_of_In in Hin. exists p. to_prop. split_and!; try done. by destruct (cm_kind p).
  - intros x Hx Hid Hv. assert (existsb (λ x, (cm_memoryId x === cm_memoryId v) && (cm_version x =? cm_version v) ||
      (cm_promotionId x === cm_promotionId v)) (md_versions d) = true); [|congruence].
    apply existsb_elem. exists x. split; [done|]. apply orb_true_iff. left. rewrite bool_decide_true by done. simpl. lia.
Qed.

Lemma insert_relation_ok r d d' b :
  insert_relation r d = (d', Ok b) →
  (b = false ∧ d' = d ∧ ∃ x, x ∈ md_relations d ∧ (r_id x = r_id r ∨ r_kind x = r_kind r ∧ r_from x = r_from r ∧ r_to x = r_to r)) ∨
  b = true ∧ d' = add_relation r d ∧ relation_allowed r d = true ∧ r_from r ≠ r_to r.
Proof.
  unfold insert_relation. rewrite get_bind. intros ([] & d1 & [-> Hg]%check_ok & H1)%pbind_ok. to_prop.
  destruct (existsb _ _) eqn:Ex.
  - left. apply ret_ok in H1 as [-> ->]. split_and!; [done..|]. apply existsb_elem in Ex as (x & Hx & Ex). exists x. split; [done|].
    apply orb_true_iff in Ex as [Ex|Ex]; to_prop; auto.
  - right. apply pbind_ok in H1 as ([] & d2 & [= <-] & [-> ->]%ret_ok). done.
Qed.

Lemma update_candidate_ok tenant id s reason at_ d d' u c :
  update_candidate tenant id s reason at_ d = (d', Ok u) → find_candidate tenant id d = Some c →
  c_state c = AWAITING_APPROVAL ∧ d' = set_candidates (map (settle_candidate id reason at_ s) (md_candidates d)) d.
Proof.
  unfold update_candidate. rewrite get_bind. intros H1 Hc. rewrite Hc in H1.
  apply pbind_ok in H1 as ([] & d1 & [-> Hg]%check_ok & H1). apply pbind_ok in H1 as ([] & d1 & [-> _]%check_ok & [= <-]).
  by to_prop.
Qed.

(** *** [recordDecision] *)

(** What follows the promotion event: nothing, or the version it names, with its relation. *)
Inductive recorded (c : CandidateRow) (target : option TargetState) (verdict : Verdict) (how : How) (d : MemDb E)
  : option (string * Z) → MemDb E → Prop :=
  | rec_none : recorded c target verdict how d None d
  | rec_version m n v :
      result_of c target = Ok (m, n) → version_of nfc c target verdict how m n = Ok v → version_fits v d →
      recorded c target verdict how d (Some (m, n)) (add_version v d)
  | rec_supersede m n v r :
      result_of c target = Ok (m, n) → version_of nfc c target verdict how m n = Ok v → version_fits v d →
      r_kind r = SUPERSEDES → r_from r ≠ r_to r → r_from r = m →
      recorded c target verdict how d (Some (m, n)) (add_relation r (add_version v d)).

Lemma record_version_ok c target verdict how m n d d' u :
  result_of c target = Ok (m, n) →
  record_version nfc c target verdict how m n d = (d', Ok u) → recorded c target verdict how d (Some (m, n)) d'.
Proof.
  intros Hr. unfold record_version. intros (v & d1 & [-> Hv]%lift_ok & H1)%pbind_ok.
  apply pbind_ok in H1 as ([] & d1 & [-> Hfit]%insert_version_ok & H1).
  destruct target as [t|]; [|apply ret_ok in H1 as [-> _]; by econstructor].
  destruct (c_intent c === SUPERSEDE); [|apply ret_ok in H1 as [-> _]; by econstructor].
  apply pbind_ok in H1 as (b & d2 & Hi & [-> Hb]%check_ok). subst b.
  apply insert_relation_ok in Hi as [[? _]|(_ & -> & _ & Hne)]; [done|]. by econstructor.
Qed.

Definition outcome_state (verdict : Verdict) (how : How) : CandidateState :=
  if hw_phase how === "settle" then if allowing (vd_decision verdict) then PROMOTED else REJECTED
  else STATE_FOR (vd_decision verdict).

Lemma recordDecision_ok c target verdict how d d' r :
  recordDecision nfc c target verdict how d = (d', Ok r) →
  ∃ res d2,
    r = {| sr_candidateId := c_id c; sr_origin := c_origin c; sr_state := outcome_state verdict how;
           sr_decision := vd_decision verdict; sr_ruleId := vd_ruleId verdict; sr_reason := vd_reason verdict;
           sr_memoryId := fst <$> res; sr_version := snd <$> res; sr_approvalId := hw_approvalId how; sr_replayed := false |} ∧
    (is_Some res ↔ allowing (vd_decision verdict) = true) ∧
    (∃ c', find_candidate (c_tenant c) (c_id c) d = Some c' ∧
       (allowing (vd_decision verdict) = true → c_origin c' ∈ [OPERATOR_INSTRUCTION; VERIFIED_OUTCOME])) ∧
    recorded c target verdict how (add_promotion (promotion_of_decision c verdict how res) d) res d2 ∧
    (if hw_phase how === "settle" then
       ∀ c', find_candidate (c_tenant c) (c_id c) d = Some c' → c_state c' = AWAITING_APPROVAL ∧
         d' = set_candidates (map (settle_candidate (c_id c) (slice16 500 (vd_reason verdict)) (toISOString (hw_at how))
                (outcome_state verdict how)) (md_candidates d2)) d2
     else d' = d2).
Proof.
  unfold recordDecision. cbv zeta. intros (res & d1 & [-> Hres]%lift_ok & H1)%pbind_ok.
  apply pbind_ok in H1 as ([] & d1 & [-> [(c' & Hc' & Ho) _]]%insert_promotion_ok & H1).
  apply pbind_ok in H1 as ([] & d2 & Hrec & H1). apply pbind_ok in H1 as ([] & d3 & Hset & [-> ->]%ret_ok).
  assert (Hrec' : recorded c target verdict how (add_promotion (promotion_of_decision c verdict how res) d) res d2 ∧
    (is_Some res ↔ allowing (vd_decision verdict) = true)).
  { destruct (allowing (vd_decision verdict)).
    - apply bind_ok in Hres as ([m n] & Hm & <-%Ok_inj). split; [by eapply record_version_ok|]. split; [done|by eexists].
    - apply Ok_inj in Hres as <-. apply ret_ok in Hrec as [-> _]. split; [constructor|]. split; [by intros []|done]. }
  destruct Hrec' as [Hrec' Hsome]. exists res, d2. split_and!; [done|done|by exists c'|done|].
  assert (Hcand : md_candidates d2 = md_candidates d) by (by destruct Hrec').
  unfold outcome_state. destruct (hw_phase how === "settle"); [|by apply ret_ok in Hset as [-> _]].
  intros c1 Hc1. assert (Hf : find_candidate (c_tenant c) (c_id c) d2 = Some c1).
  { unfold find_candidate in *. by rewrite Hcand. }
  by apply (update_candidate_ok _ _ _ _ _ _ _ _ _ Hset) in Hf.
Qed.

(** *** [submit_second] *)

Lemma find_inserted ctx c d :
  c_tenant c = tc_tenantId ctx → (∀ x, x ∈ md_candidates d → c_id x ≠ c_id c) →
  find_candidate (tc_tenantId ctx) (c_id c) (set_candidates (md_candidates d ++ [c]) d) = Some c.
Proof.
  intros Ht Hfresh. unfold find_candidate. simpl. induction (md_candidates d) as [|x l IH]; simpl.
  - by rewrite !bool_decide_true.
  - rewrite (bool_decide_false (c_id x = c_id c)) by (apply Hfresh; left). rewrite andb_false_r.
    apply IH. intros y Hy. apply Hfresh. by right.
Qed.

(** A submission's second transaction: the twin's answer, or a new candidate with its decision. *)
Lemma submit_second_ok origin ctx p approvalId now d d' r :
  submit_second nfc origin ctx p approvalId now d = (d', Ok r) →
  (d' = d ∧ existing ctx p d = (d, Ok (Some r))) ∨
  let verdict := decided origin ctx p approvalId d in
  let target := loadTarget (tc_tenantId ctx) (cs_targetMemoryId (pr_sub p)) d in
  let row := candidate_of origin ctx p verdict approvalId (toISOString now) in
  let how := {| hw_phase := "decide"; hw_by := POLICY_ENGINE; hw_principal := Some (principal_id (tc_principal ctx));
                hw_approvalId := c_approvalId row; hw_at := now |} in
  (∀ x, x ∈ md_candidates d → c_id x ≠ c_id row ∧ (c_tenant x = c_tenant row → c_key x ≠ c_key row)) ∧
  recordDecision nfc row target verdict how (set_candidates (md_candidates d ++ [row]) d) = (d', Ok r).
Proof.
  unfold submit_second. intros [H1 _]%withTenant_ok. rewrite get_bind in H1. cbv zeta.
  apply pbind_ok in H1 as (b & d1 & Hi & H1).
  apply insert_candidate_ok in Hi as [[-> ->]|(-> & -> & Hfresh)]; cbn [negb] in H1.
  - left. apply pbind_ok in H1 as (o & d2 & He & H1). destruct o as [r'|]; [|done].
    apply ret_ok in H1 as [-> ->]. assert (d2 = d) as ->; [|done].
    unfold existing in He. rewrite get_bind in He. destruct (List.find _ _) as [row|]; [|by apply ret_ok in He as [-> _]].
    apply pbind_ok in He as ([] & d3 & [-> _]%check_ok & He). apply pbind_ok in He as (r1 & d3 & Hr & [-> _]%ret_ok).
    unfold resultFor in Hr. rewrite get_bind in Hr. destruct (promotions_of _ _); [done|]. by apply ret_ok in Hr as [-> _].
  - right. split; [done|]. apply pbind_ok in H1 as (c & d1 & Hc & H1). unfold candidateRow in Hc. rewrite get_bind in Hc.
    rewrite find_inserted in Hc by (done || (intros; by apply Hfresh)). apply lift_ok in Hc as [-> <-%Ok_inj]. exact H1.
Qed.
End effects.

(** ** The invariant *)

Section invariant.
Context {E : Type} `{KernelTables E}.
Context (toLowerCase : string → string) (nfc : string → string).
Implicit Types (d : MemDb E).

(** What stands behind a canonical version. *)
Record backed (v : CanonicalMemoryVersion) (cs : list CandidateRow) (ps : list PromotionRow) : Prop := {
  bk_candidate : ∃ c, c ∈ cs ∧ c_id c = cm_candidateId v ∧ c_state c = PROMOTED ∧
    c_origin c ∈ [OPERATOR_INSTRUCTION; VERIFIED_OUTCOME] ∧ cm_trustClass v = TRUST_FOR_ORIGIN (c_origin c) ∧
    cm_tenantId v = c_tenant c ∧ cm_subject v = c_subject c ∧ cm_evidence v = c_evidence c;
  bk_promotion : ∃ p, p ∈ ps ∧ p_id p = cm_promotionId v ∧ p_candidateId p = cm_candidateId v ∧
    p_result p = Some (cm_memoryId v, cm_version v) ∧ allowing (p_decision p) = true;
  bk_clean : looksLikeSecret (cm_content v) = None
}.

(** Each memory's versions are numbered without gaps from 1, and nothing follows a retraction. *)
Definition history (vs : list CanonicalMemoryVersion) : Prop :=
  (∀ v, v ∈ vs → 1 ≤ cm_version v ∧
     (cm_version v = 1 ∨ ∃ u, u ∈ vs ∧ cm_memoryId u = cm_memoryId v ∧ cm_version u = cm_version v - 1 ∧
        cm_tenantId u = cm_tenantId v ∧ cm_class u = cm_class v ∧ cm_subject u = cm_subject v ∧ cm_kind u = V_ASSERT)) ∧
  (∀ v w, v ∈ vs → w ∈ vs → cm_memoryId v = cm_memoryId w → cm_version v = cm_version w → v = w).

Record mem_inv d : Prop := {
  mi_ids : NoDup (map c_id (md_candidates d));
  mi_authority : ∀ c, c ∈ md_candidates d → c_state c ∈ [PROMOTED; AWAITING_APPROVAL] →
    c_origin c ∈ [OPERATOR_INSTRUCTION; VERIFIED_OUTCOME] ∧ looksLikeSecret (c_content c) = None;
  mi_waiting : ∀ c, c ∈ md_candidates d → c_state c = AWAITING_APPROVAL → c_intent c = NEW ∧ c_origin c = VERIFIED_OUTCOME;
  mi_backed : ∀ v, v ∈ md_versions d → backed v (md_candidates d) (md_promotions d);
  mi_promoted : ∀ c, c ∈ md_candidates d → c_state c = PROMOTED → ∃ v, v ∈ md_versions d ∧ cm_candidateId v = c_id c;
  mi_decided : ∀ c, c ∈ md_candidates d → ∃ p, p ∈ md_promotions d ∧ p_candidateId p = c_id c;
  mi_promotions : ∀ p, p ∈ md_promotions d → p_candidateId p ∈ map c_id (md_candidates d);
  mi_history : history (md_versions d)
}.

Lemma history_add vs v :
  history vs →
  1 ≤ cm_version v →
  (cm_version v = 1 ∨ ∃ u, u ∈ vs ∧ cm_memoryId u = cm_memoryId v ∧ cm_version u = cm_version v - 1 ∧
     cm_tenantId u = cm_tenantId v ∧ cm_class u = cm_class v ∧ cm_subject u = cm_subject v ∧ cm_kind u = V_ASSERT) →
  (∀ x, x ∈ vs → cm_memoryId x = cm_memoryId v → cm_version x ≠ cm_version v) →
  history (vs ++ [v]).
Proof.
  intros [Hc Hu] H1 Hp Hf. assert (Hsub : ∀ u, u ∈ vs → u ∈ vs ++ [v]) by (intros; apply elem_of_app; by left).
  split.
  - intros w. rewrite elem_of_app, list_elem_of_singleton. intros [Hw| ->].
    + destruct (Hc w Hw) as [? [?|(u & Hu' & ?)]]; (split; [done|]); [by left|right]. exists u. auto.
    + split; [done|]. destruct Hp as [?|(u & Hu' & ?)]; [by left|right]. exists u. auto.
  - intros x y. rewrite !elem_of_app, !list_elem_of_singleton. intros [Hx| ->] [Hy| ->] Hid Hv; auto.
    + by destruct (Hf x Hx).
    + by destruct (Hf y Hy).
Qed.

Lemma loadTarget_elem tenantId o d t :
  loadTarget tenantId o d = Some t →
  o = Some (t_memoryId t) ∧ ∃ v, v ∈ md_versions d ∧ cm_memoryId v = t_memoryId t ∧ cm_tenantId v = tenantId ∧
    cm_version v = t_version t ∧ cm_kind v = t_kind t ∧ cm_class v = t_class t ∧ cm_subject v = t_subject t ∧
    cm_content v = t_content t.
Proof.
  unfold loadTarget. destruct o as [i|]; [|done].
  destruct (js_sort _ _) as [|h l] eqn:Es; [done|]. intros [= <-]. split; [done|]. exists h.
  assert (Hin : h ∈ js_sort (λ a b, cm_version b - cm_version a)
    (List.filter (λ v, (cm_tenantId v === tenantId) && (cm_memoryId v === i)) (md_versions d))) by (rewrite Es; by left).
  apply js_sort_elem, elem_of_filter_bool in Hin as [Hin Hc]. to_prop. done.
Qed.

Lemma judge_promotable origin ctx sub target d :
  (pdr_decision (judge origin ctx sub target d) = ALLOW ∨ pdr_decision (judge origin ctx sub target d) = REQUIRE_APPROVAL) →
  promotable origin sub (t_class <$> target) ∧ scope_refusal origin ctx sub target = None ∧
  judge origin ctx sub target d = decidePromotion origin sub (t_class <$> target).
Proof.
  unfold judge. destruct (scope_refusal origin ctx sub target) as [r|] eqn:Es.
  - assert (pdr_decision r = REFUSE) as ->; [|by intros []].
    unfold scope_refusal in Es. repeat case_match; by simplify_eq.
  - destruct (_ && _) eqn:Eb; [by intros []|]. intros Hd. split; [by apply decidePromotion_promotable|done].
Qed.

Lemma decided_promotable origin ctx p approvalId d :
  let verdict := decided origin ctx p approvalId d in
  let target := loadTarget (tc_tenantId ctx) (cs_targetMemoryId (pr_sub p)) d in
  (STATE_FOR (vd_decision verdict) ∈ [PROMOTED; AWAITING_APPROVAL] →
     promotable origin (pr_sub p) (t_class <$> target)) ∧
  (vd_decision verdict = D_REQUIRE_APPROVAL → origin = VERIFIED_OUTCOME ∧ cs_intent (pr_sub p) = NEW ∧ is_Some approvalId) ∧
  (allowing (vd_decision verdict) = true ↔ STATE_FOR (vd_decision verdict) = PROMOTED).
Proof.
  cbv zeta. unfold decided. set (target := loadTarget _ _ _).
  pose proof (judge_promotable origin ctx (pr_sub p) target d) as Hj.
  unfold verdict_of. cbn [vd_decision]. destruct (pdr_decision (judge _ _ _ _ _)) eqn:Ed; simpl.
  - split_and!; [intros _; by apply Hj; left|done|done].
  - destruct approvalId as [a|]; simpl.
    + split_and!; [intros _; by apply Hj; right| |done]. intros _.
      destruct Hj as (_ & _ & Ej); [by right|]. rewrite Ej in Ed.
      apply decidePromotion_approval in Ed as [-> ?]. by eauto.
    + split_and!; [set_solver|done|done].
  - split_and!; [set_solver|done|done].
  - split_and!; [set_solver|done|done].
Qed.

(** A submission's own verdict is never one of the two settled decisions. *)
Lemma settled_decisions origin ctx p approvalId d :
  vd_decision (decided origin ctx p approvalId d) ∈ [D_ALLOW; D_REQUIRE_APPROVAL; D_HOLD; D_REFUSE].
Proof.
  unfold decided. cbv zeta. destruct (_ && _); [by right; right; left|]. unfold verdict_of. cbn [vd_decision].
  destruct (pdr_decision _); repeat (left || right).
Qed.

Lemma redacted_clean : looksLikeSecret REDACTED_CONTENT = None.
Proof. vm_compute. reflexivity. Qed.

(** *** The rows a decision adds *)

Lemma recorded_rows c target verdict how d res d2 :
  recorded nfc c target verdict how d res d2 →
  md_candidates d2 = md_candidates d ∧ md_promotions d2 = md_promotions d ∧
  ((res = None ∧ md_versions d2 = md_versions d) ∨
   ∃ m n v, res = Some (m, n) ∧ result_of c target = Ok (m, n) ∧ md_versions d2 = md_versions d ++ [v] ∧
     version_fits v d ∧ version_of nfc c target verdict how m n = Ok v).
Proof.
  intros [|m n v ???|m n v r ???]; split_and!; try done; [by left| |]; right; by exists m, n, v.
Qed.

Lemma version_of_facts c target verdict how m n v :
  version_of nfc c target verdict how m n = Ok v →
  cm_memoryId v = m ∧ cm_version v = n ∧ cm_tenantId v = c_tenant c ∧ cm_subject v = c_subject c ∧
  cm_trustClass v = TRUST_FOR_ORIGIN (c_origin c) ∧ cm_candidateId v = c_id c ∧
  cm_promotionId v = promotion_id (c_id c) (hw_phase how) ∧ cm_evidence v = c_evidence c ∧
  (cm_content v = c_content c ∨ ∃ t, target = Some t ∧ cm_content v = t_content t).
Proof.
  unfold version_of. cbv zeta. intros (class & _ & <-%Ok_inj)%bind_ok. simpl. split_and!; try done.
  destruct (c_intent c === RETRACT); [|by left]. destruct target as [t|]; [right; by exists t|by left].
Qed.

(** The new version is backed by its candidate and its promotion. *)
Lemma new_version_backed c target verdict how m n v cs ps res :
  version_of nfc c target verdict how m n = Ok v → res = Some (m, n) →
  allowing (vd_decision verdict) = true → (∃ c', c' ∈ cs ∧ c_id c' = c_id c ∧ c_state c' = PROMOTED ∧
    c_origin c' = c_origin c ∧ c_tenant c' = c_tenant c ∧ c_subject c' = c_subject c ∧ c_evidence c' = c_evidence c) →
  c_origin c ∈ [OPERATOR_INSTRUCTION; VERIFIED_OUTCOME] → looksLikeSecret (c_content c) = None →
  (∀ t, target = Some t → looksLikeSecret (t_content t) = None) →
  backed v cs (ps ++ [promotion_of_decision c verdict how res]).
Proof.
  intros Hv -> Ha (c' & Hc' & Hid & Hs & Ho' & Ht & Hsu & Hev) Ho Hclean Htarget.
  destruct (version_of_facts _ _ _ _ _ _ _ Hv) as (E1 & E2 & E3 & E4 & E5 & E6 & E7 & E8 & E9). constructor.
  - exists c'. rewrite E3, E4, E5, E6, E8, Ho', Ht, Hsu, Hev. split_and!; done.
  - exists (promotion_of_decision c verdict how (Some (m, n))). simpl. rewrite elem_of_app, list_elem_of_singleton.
    split_and!; try done; [by right|by rewrite E1, E2].
  - destruct E9 as [->|(t & Et & ->)]; [done|by apply Htarget].
Qed.

Lemma backed_mono v cs cs' ps ps' :
  (∀ c, c ∈ cs → c_state c = PROMOTED → c ∈ cs') → (∀ p, p ∈ ps → p ∈ ps') → backed v cs ps → backed v cs' ps'.
Proof. intros Hc Hp [(c & ? & ? & ? & ?) (p & ? & ?) ?]. constructor; [exists c; auto|exists p; auto|done]. Qed.

Lemma target_clean d tenantId o t : mem_inv d → loadTarget tenantId o d = Some t → looksLikeSecret (t_content t) = None.
Proof. intros Hi (_ & v & Hv & _ & _ & _ & _ & _ & _ & <-)%loadTarget_elem. by apply Hi in Hv as []. Qed.

Lemma inv_decide origin ctx p approvalId now d d' r :
  mem_inv d → submit_second nfc origin ctx p approvalId now d = (d', Ok r) → mem_inv d'.
Proof.
  intros Hi [[-> _]|[Hfresh Hrec]]%submit_second_ok; [done|]. cbv zeta in *.
  destruct (decided_promotable origin ctx p approvalId d) as (Hprom & Hwait & Hallow). cbv zeta in *.
  set (verdict := decided origin ctx p approvalId d) in *.
  set (target := loadTarget (tc_tenantId ctx) (cs_targetMemoryId (pr_sub p)) d) in *.
  set (row := candidate_of origin ctx p verdict approvalId (toISOString now)) in *.
  assert (Hclean : c_state row ∈ [PROMOTED; AWAITING_APPROVAL] →
    c_origin row ∈ [OPERATOR_INSTRUCTION; VERIFIED_OUTCOME] ∧ looksLikeSecret (c_content row) = None).
  { intros Hs. destruct (Hprom Hs) as [Hsec Ho]. split; [destruct origin; [by left|by right; left|done|done]|].
    unfold row, candidate_of. cbn [c_content]. destruct (_ === _); [apply redacted_clean|done]. }
  destruct (recordDecision_ok _ _ _ _ _ _ _ _ Hrec) as (res & d2 & -> & Hsome & (c' & Hc' & _) & Hd2 & ->).
  destruct (recorded_rows _ _ _ _ _ _ _ Hd2) as (Ec & Ep & Hv). simpl in Ec, Ep, Hv.
  assert (Hold : ∀ v, v ∈ md_versions d → backed v (md_candidates d2) (md_promotions d2)).
  { intros v Hin%(mi_backed _ Hi). eapply backed_mono; [| |exact Hin]; rewrite ?Ec, ?Ep; intros; apply elem_of_app; by left. }
  destruct Hi. constructor.
  - rewrite Ec, map_app. apply NoDup_app. split_and!; [done| |apply NoDup_singleton].
    intros i (x & -> & Hx)%list_elem_of_fmap. simpl. rewrite list_elem_of_singleton. by apply Hfresh.
  - rewrite Ec. intros c. rewrite elem_of_app, list_elem_of_singleton. intros [Hc| ->]; [by apply mi_authority0|done].
  - rewrite Ec. intros c. rewrite elem_of_app, list_elem_of_singleton. intros [Hc| ->]; [by apply mi_waiting0|].
    simpl. intros Hs. apply and_comm. destruct Hwait as (? & ? & _); [|done]. by destruct (vd_decision verdict).
  - destruct Hv as [[_ ->]|(m & n & v & Er & _ & -> & Hfit & Hvo)]; [done|].
    intros w. rewrite elem_of_app, list_elem_of_singleton. intros [Hw| ->]; [by apply Hold|]. rewrite Ec, Ep.
    assert (Ha : allowing (vd_decision verdict) = true) by (apply Hsome; by rewrite Er).
    assert (Hs : c_state row = PROMOTED) by (by apply Hallow).
    destruct Hclean as [Ho Hcl]; [rewrite Hs; by left|].
    eapply new_version_backed; [exact Hvo|exact Er|exact Ha| |exact Ho|exact Hcl|].
    + exists row. rewrite elem_of_app, list_elem_of_singleton. split_and!; try done. by right.
    + intros t Ht. eapply (target_clean d); [by constructor|exact Ht].
  - rewrite Ec. intros c. rewrite elem_of_app, list_elem_of_singleton. intros [Hc| ->] Hs.
    + destruct (mi_promoted0 c Hc Hs) as (v & Hin & Hid). exists v. split; [|done].
      destruct Hv as [[_ ->]|(m & n & w & _ & _ & -> & _)]; [done|apply elem_of_app; by left].
    + apply Hallow in Hs. apply Hsome in Hs. destruct Hv as [[-> _]|(m & n & v & _ & _ & -> & _ & Hvo)]; [by destruct Hs|].
      exists v. split; [apply elem_of_app; right; by apply list_elem_of_singleton|].
      by apply version_of_facts in Hvo as (_ & _ & _ & _ & _ & -> & _).
  - rewrite Ec, Ep. intros c. rewrite elem_of_app, list_elem_of_singleton. intros [Hc| ->].
    + destruct (mi_decided0 c Hc) as (q & Hq & Hid). exists q. split; [apply elem_of_app; by left|done].
    + eexists. split; [apply elem_of_app; right; by apply list_elem_of_singleton|done].
  - rewrite Ec, Ep. intros q. rewrite elem_of_app, list_elem_of_singleton, map_app, elem_of_app.
    intros [Hq| ->]; [left; auto|right]. by apply list_elem_of_singleton.
  - destruct Hv as [[_ ->]|(m & n & v & _ & _ & -> & (H1 & H2 & H3) & _)]; [done|]. by apply history_add.
Qed.

(** *** Settlement *)

Lemma find_candidate_unique d tenant id c : mem_inv d → find_candidate tenant id d = Some c →
  ∀ x, x ∈ md_candidates d → c_id x = id → x = c.
Proof.
  intros Hi [Hc [_ Hid]]%find_candidate_elem x Hx Hxid. eapply NoDup_map_inj; [apply Hi|done|done|congruence].
Qed.

(** A settled candidate table: the one awaiting row has its outcome, the others are as they were. *)
Lemma settled_elem d tenant id c reason at_ s x :
  mem_inv d → find_candidate tenant id d = Some c →
  x ∈ map (settle_candidate id reason at_ s) (md_candidates d) →
  (x = settle_candidate id reason at_ s c ∧ c_id c = id) ∨ (x ∈ md_candidates d ∧ c_id x ≠ id).
Proof.
  intros Hi Hf (y & -> & Hy)%list_elem_of_fmap. destruct (decide (c_id y = id)) as [Hid|Hid].
  - left. rewrite (find_candidate_unique _ _ _ _ Hi Hf y Hy Hid). split; [done|]. by apply find_candidate_elem in Hf as (_ & _ & ?).
  - right. unfold settle_candidate. by rewrite bool_decide_false.
Qed.

Lemma settle_ids id reason at_ s l : map c_id (map (settle_candidate id reason at_ s) l) = map c_id l.
Proof. rewrite map_map. apply map_ext. intros c. unfold settle_candidate. by destruct (_ === _). Qed.

Lemma settled_verdict_allowing state c target :
  allowing (vd_decision (settled_verdict state c target)) = true → ps_status state = A_GRANTED.
Proof. unfold settled_verdict. by destruct (ps_status state). Qed.

Lemma settled_verdict_decision state c target :
  vd_decision (settled_verdict state c target) = D_ALLOW_APPROVED ∨ vd_decision (settled_verdict state c target) = D_REJECT_APPROVAL.
Proof. unfold settled_verdict. destruct (ps_status state); auto. cbv zeta. destruct (_ && _); auto. Qed.

(** What the settlement of a waiting candidate did. *)
Lemma settle_body_ok ctx id approvalId state now d d' r :
  settle_body nfc ctx id approvalId state now d = (d', Ok r) →
  ∃ c, find_candidate (tc_tenantId ctx) id d = Some c ∧
  ((c_state c ≠ AWAITING_APPROVAL ∧ d' = d ∧ sr_replayed r = true) ∨
   let target := loadTarget (tc_tenantId ctx) (c_target c) d in
   let verdict := settled_verdict state c target in
   let how := {| hw_phase := "settle";
                 hw_by := if vd_decision verdict === D_ALLOW_APPROVED then APPROVED_HUMAN else POLICY_ENGINE;
                 hw_principal := if vd_decision verdict === D_ALLOW_APPROVED then ps_approver state else None;
                 hw_approvalId := Some approvalId; hw_at := now |} in
   c_state c = AWAITING_APPROVAL ∧ recordDecision nfc c target verdict how d = (d', Ok r)).
Proof.
  unfold settle_body. intros (c & d1 & Hc & H1)%pbind_ok. unfold candidateRow in Hc. rewrite get_bind in Hc.
  apply lift_ok in Hc as [-> Hc]. destruct (find_candidate _ _ _) as [c0|]; [|done]. apply Ok_inj in Hc as ->.
  exists c. split; [done|]. destruct (_ !== _) eqn:Es; to_prop.
  - left. unfold resultFor in H1. rewrite get_bind in H1. destruct (promotions_of _ _); [done|]. apply ret_ok in H1 as [-> ->]. done.
  - right. rewrite get_bind in H1. done.
Qed.

Lemma inv_settle ctx id approvalId state now d d' r :
  mem_inv d → settle_body nfc ctx id approvalId state now d = (d', Ok r) → mem_inv d'.
Proof.
  intros Hi (c & Hf & [(_ & -> & _)|[Hs Hrec]])%settle_body_ok; [done|]. cbv zeta in *.
  set (target := loadTarget (tc_tenantId ctx) (c_target c) d) in *.
  set (verdict := settled_verdict state c target) in *.
  apply find_candidate_elem in Hf as Hf'. destruct Hf' as (Hc & Ht & Hid).
  assert (Hf2 : find_candidate (c_tenant c) (c_id c) d = Some c) by (by rewrite Ht, Hid).
  destruct (recordDecision_ok _ _ _ _ _ _ _ _ Hrec) as (res & d2 & -> & Hsome & _ & Hd2 & Hset).
  cbn [hw_phase] in Hset. rewrite bool_decide_true in Hset by done.
  destruct (Hset c Hf2) as [_ ->]. clear Hset.
  destruct (recorded_rows _ _ _ _ _ _ _ Hd2) as (Ec & Ep & Hv). simpl in Ec, Ep, Hv.
  set (st := outcome_state _ _) in *.
  assert (Hst : st = if allowing (vd_decision verdict) then PROMOTED else REJECTED) by done.
  destruct (mi_authority _ Hi c Hc) as [Ho Hcl]; [rewrite Hs; set_solver|].
  set (reason := slice16 500 (vd_reason verdict)) in *. set (at_ := toISOString now) in *.
  set (f := settle_candidate (c_id c) reason at_ st) in *.
  assert (Hold : ∀ x, x ∈ md_candidates d → c_state x = PROMOTED → x ∈ map f (md_candidates d)).
  { intros x Hx Hp. apply list_elem_of_fmap. exists x. split; [|done]. unfold f, settle_candidate.
    rewrite bool_decide_false; [done|]. intros Hxid.
    rewrite (find_candidate_unique _ _ _ _ Hi Hf2 x Hx Hxid) in Hp. congruence. }
  assert (Hnew : f c ∈ map f (md_candidates d)) by (by apply list_elem_of_fmap_2).
  assert (Hfc : f c = settle_candidate (c_id c) reason at_ st c) by done.
  unfold settle_candidate in Hfc. rewrite bool_decide_true in Hfc by done.
  assert (Hel : ∀ x, x ∈ map f (md_candidates d) → x = f c ∨ x ∈ md_candidates d).
  { intros x Hx. destruct (settled_elem _ _ _ _ _ _ _ _ Hi Hf2 Hx) as [[-> _]|[Hx' _]]; [by left|by right]. }
  assert (Hids : map c_id (map f (md_candidates d)) = map c_id (md_candidates d)) by apply settle_ids.
  change (mem_inv (set_candidates (map f (md_candidates d2)) d2)).
  clearbody f. constructor; simpl; rewrite ?Ec, ?Ep.
  - rewrite Hids. apply Hi.
  - intros x Hx Hxs. destruct (Hel x Hx) as [->|Hx']; [|by apply Hi]. by rewrite Hfc.
  - intros x Hx Hxs. destruct (Hel x Hx) as [->|Hx']; [|by apply Hi].
    rewrite Hfc, Hst in Hxs. simpl in Hxs. by destruct (allowing _).
  - assert (Hb : ∀ v, v ∈ md_versions d → backed v (map f (md_candidates d)) (md_promotions d2)).
    { intros v Hin%(mi_backed _ Hi). eapply backed_mono; [exact Hold| |exact Hin]. rewrite Ep. intros; apply elem_of_app; by left. }
    rewrite Ep in Hb. destruct Hv as [[_ ->]|(m & n & v & Er & _ & -> & Hfit & Hvo)]; [done|].
    intros w. rewrite elem_of_app, list_elem_of_singleton. intros [Hw| ->]; [by apply Hb|].
    assert (Ha : allowing (vd_decision verdict) = true) by (apply Hsome; by rewrite Er).
    eapply new_version_backed; [exact Hvo|exact Er|exact Ha| |exact Ho|exact Hcl|].
    + exists (f c). split; [exact Hnew|]. rewrite Hfc, Hst, Ha. done.
    + intros t Et. eapply (target_clean d); done.
  - intros x Hx Hxs. destruct (Hel x Hx) as [->|Hx'].
    + rewrite Hfc, Hst in Hxs. rewrite Hfc. simpl in Hxs |- *.
      destruct (allowing (vd_decision verdict)) eqn:Ha; [|done].
      destruct Hv as [[-> _]|(m & n & v & _ & _ & -> & _ & Hvo)]; [by destruct (proj2 Hsome eq_refl)|].
      exists v. split; [apply elem_of_app; right; by apply list_elem_of_singleton|].
      by apply version_of_facts in Hvo as (_ & _ & _ & _ & _ & -> & _).
    + destruct (mi_promoted _ Hi x Hx' Hxs) as (v & Hin & Hvid). exists v. split; [|done].
      destruct Hv as [[_ ->]|(m & n & w & _ & _ & -> & _)]; [done|apply elem_of_app; by left].
  - intros x Hx. assert (Hcid : ∃ y, y ∈ md_candidates d ∧ c_id y = c_id x).
    { destruct (Hel x Hx) as [->|Hx']; [|by exists x]. exists c. by rewrite Hfc. }
    destruct Hcid as (y & Hy & <-). destruct (mi_decided _ Hi y Hy) as (q & Hq & ?). exists q.
    split; [apply elem_of_app; by left|done].
  - rewrite Hids. intros q. rewrite elem_of_app, list_elem_of_singleton. intros [Hq| ->]; [by apply Hi|].
    exact (list_elem_of_fmap_2 c_id _ c Hc).
  - destruct Hv as [[_ ->]|(m & n & v & _ & _ & -> & (H1 & H2 & H3) & _)]; [apply Hi|]. apply history_add; try done. apply Hi.
Qed.

(** *** The operations and the states they reach *)

Context (approvals : option (PromotionApprovals E)).

Inductive MemOp :=
  | OpSubmit (origin : MemoryOrigin) (ctx : TenantContext) (raw : json) (now : Z)
  | OpSettle (ctx : TenantContext) (candidateId : string) (now : Z)
  | OpFlag (ctx : TenantContext) (a b : string) (evidence : list MemoryEvidenceRef)
  | OpAssemble (ctx : TenantContext) (raw : json) (consumer : Consumer) (external : list ExternalContextItem)
  | OpKernel (e : E).                                   (* the rest of the system at work on its own tables *)

Definition mem_step (op : MemOp) d : MemDb E :=
  match op with
  | OpSubmit origin ctx raw now => (submit nfc approvals origin ctx raw now d).1
  | OpSettle ctx id now => (settleApproval nfc approvals ctx id now d).1
  | OpFlag ctx a b evidence => (flagConflict ctx a b evidence d).1
  | OpAssemble ctx raw consumer external => (assemble toLowerCase nfc ctx raw consumer external d).1
  | OpKernel e => set_kernel e d
  end.

Inductive reachable : MemDb E → Prop :=
  | reach_start e : reachable (MDb e [] [] [] [] [])
  | reach_step op d : reachable d → reachable (mem_step op d).

(** The same candidates, promotions and versions. *)
Definition same_memory d d' : Prop :=
  md_candidates d' = md_candidates d ∧ md_promotions d' = md_promotions d ∧ md_versions d' = md_versions d.

Lemma mem_inv_same d d' : same_memory d d' → mem_inv d → mem_inv d'.
Proof. intros (E1 & E2 & E3) []. by constructor; rewrite ?E1, ?E2, ?E3. Qed.

Lemma same_kernel e d : same_memory d (set_kernel e d).
Proof. done. Qed.

Lemma on_kernel_same {A} (m : prog E A) d d' r : on_kernel m d = (d', r) → ∃ e, d' = set_kernel e d.
Proof. unfold on_kernel. destruct (m (md_kernel d)) as [e r']. intros [= <- _]. by exists e. Qed.

Lemma existing_ok ctx p d d' r : existing ctx p d = (d', r) → d' = d.
Proof.
  unfold existing. rewrite get_bind. destruct (List.find _ _) as [c|]; [|by intros [= <- _]].
  unfold mbind, prog_bind, Memory.guard, lift_result. destruct (ensure _ _); [|by intros [= <- _]].
  unfold resultFor, mbind, prog_bind, get_st. by destruct (promotions_of _ _); intros [= <- _].
Qed.

Lemma submit_first_same origin ctx p d d' r : submit_first origin ctx p d = (d', r) → d' = d.
Proof.
  destruct r as [r|x]; [|by apply withTenant_throw]. intros [H1 _]%withTenant_ok.
  apply pbind_ok in H1 as (o & d1 & ->%existing_ok & H1). destruct o; [by apply ret_ok in H1 as [-> _]|].
  rewrite get_bind in H1. by apply ret_ok in H1 as [-> _].
Qed.

Lemma request_approval_same ctx p needed d d' r : request_approval approvals ctx p needed d = (d', r) → ∃ e, d' = set_kernel e d.
Proof.
  assert (Hd : d = set_kernel (md_kernel d) d) by (by destruct d).
  unfold request_approval. destruct approvals as [a|]; [destruct needed|]; try (intros [= <- _]; by eexists).
  unfold mbind, prog_bind. destruct (on_kernel _ d) as [d1 [t|x]] eqn:Ek; apply on_kernel_same in Ek; by intros [= <- _].
Qed.

(** A submission changed nothing but the kernel's tables, or ran its second transaction. *)
Lemma submit_cases origin ctx raw now d d' r :
  submit nfc approvals origin ctx raw now d = (d', r) →
  same_memory d d' ∨ ∃ p approvalId e r', r = Ok r' ∧ prepare nfc raw = Ok p ∧
    submit_second nfc origin ctx p approvalId now (set_kernel e d) = (d', Ok r').
Proof.
  unfold submit. unfold mbind at 1, prog_bind at 1, lift_result at 1.
  destruct (prepare nfc raw) as [p|]; [|intros [= <- _]; by left].
  unfold mbind at 1, prog_bind at 1. destruct (submit_first origin ctx p d) as [d1 [f|]] eqn:Ef;
    apply submit_first_same in Ef as ->; [|intros [= <- _]; by left].
  destruct f as [[replay|] needed]; cbn [fst snd]; [intros [= <- _]; by left|].
  unfold mbind at 1, prog_bind at 1. destruct (request_approval _ _ _ _ d) as [d2 [a|]] eqn:Ea;
    apply request_approval_same in Ea as [e1 ->]; [|intros [= <- _]; by left].
  destruct r as [r|x]; intros Hs; [right; by exists p, a, e1, r|left]. by apply withTenant_throw in Hs as ->.
Qed.

Lemma settle_cases ctx id now d d' r :
  settleApproval nfc approvals ctx id now d = (d', r) →
  same_memory d d' ∨ ∃ approvalId state e r', r = Ok r' ∧ settle_body nfc ctx id approvalId state now (set_kernel e d) = (d', Ok r').
Proof.
  unfold settleApproval. destruct approvals as [a|]; [|intros [= <- _]; by left].
  unfold mbind at 1, prog_bind at 1.
  destruct (withTenant ctx P_knowledge_write (candidateRow (tc_tenantId ctx) id) d) as [d1 [row|]] eqn:Er;
    [|apply withTenant_throw in Er as ->; intros [= <- _]; by left].
  apply withTenant_ok in Er as [Er _]. unfold candidateRow in Er. rewrite get_bind in Er. apply lift_ok in Er as [-> _].
  assert (Hread : ∀ (m : prog (MemDb E) CandidateRow) d0 r0,
    (∀ d1 c, m d0 = (d1, Ok c) → d1 = d0) →
    withTenant ctx P_knowledge_write (r ← m; resultFor r true) d0 = (d', r0) → d' = d0).
  { intros m d0 r0 Hm. destruct r0 as [r0|]; [|by apply withTenant_throw]. intros [H1 _]%withTenant_ok.
    apply pbind_ok in H1 as (c & d1 & H2%Hm & H1). subst d1. unfold resultFor in H1. rewrite get_bind in H1.
    destruct (promotions_of _ _); [done|]. by apply ret_ok in H1 as [-> _]. }
  assert (Hcand : ∀ d0 d1 c, candidateRow (tc_tenantId ctx) id d0 = (d1, Ok c) → d1 = d0).
  { intros d0 d1 c Hc. unfold candidateRow in Hc. rewrite get_bind in Hc. by apply lift_ok in Hc as [-> _]. }
  destruct (c_approvalId row) as [approvalId|]; [|intros ->%Hread; [by left|apply Hcand]].
  destruct (_ !== _); [intros ->%Hread; [by left|apply Hcand]|].
  unfold mbind at 1, prog_bind at 1. destruct (on_kernel (pa_expireIfDue a approvalId) d) as [d1 [u|]] eqn:E1;
    apply on_kernel_same in E1 as [e1 ->]; [|intros [= <- _]; by left].
  unfold mbind at 1, prog_bind at 1. destruct (on_kernel (pa_state a approvalId) _) as [d1 [state|]] eqn:E2;
    apply on_kernel_same in E2 as [e2 ->]; [|intros [= <- _]; by left].
  destruct (_ === _).
  { intros Hr. left. destruct r as [r|]; [|by apply withTenant_throw in Hr as ->]. apply withTenant_ok in Hr as [Hr _].
    unfold resultFor in Hr. rewrite get_bind in Hr. destruct (promotions_of _ _); [done|]. by apply ret_ok in Hr as [-> _]. }
  destruct (_ || _); [intros [= <- _]; by left|].
  destruct r as [r|x]; intros Hr; [right|left; by apply withTenant_throw in Hr as ->].
  apply withTenant_ok in Hr as [Hr _]. by exists approvalId, state, e2, r.
Qed.

Lemma flagConflict_same ctx a b evidence d d' r : flagConflict ctx a b evidence d = (d', r) → same_memory d d'.
Proof.
  unfold flagConflict. destruct (_ !== _); [by intros [= <- _]|].
  unfold mbind at 1, prog_bind at 1, Memory.guard, lift_result. destruct (ensure _ _); [|by intros [= <- _]].
  destruct (if str_lt a b then (a, b) else (b, a)) as [x y].
  destruct r as [r|]; intros Hr; [|by apply withTenant_throw in Hr as ->]. apply withTenant_ok in Hr as [Hr _].
  by apply insert_relation_ok in Hr as [(_ & -> & _)|(_ & -> & _)].
Qed.

Lemma insert_assembly_ok a d d' u : insert_assembly a d = (d', Ok u) → d' = d ∨ d' = add_assembly a d.
Proof.
  unfold insert_assembly. rewrite get_bind. cbv zeta. intros ([] & d1 & [-> _]%check_ok & H1)%pbind_ok.
  destruct (existsb _ _); [left; by apply ret_ok in H1 as [-> _]|right; by injection H1 as <-].
Qed.

Lemma assemble_ok ctx raw consumer external d d' a :
  assemble toLowerCase nfc ctx raw consumer external d = (d', Ok a) →
  ∃ request versions, ContextRequest_parse raw = Ok request ∧
    (∀ s, cr_subject request = Some s → ms_kind s = S_PRINCIPAL → ms_ref s = principal_id (tc_principal ctx)) ∧
    parse_all CanonicalMemoryVersion_parse (eligible ctx request d) = Ok versions ∧
    assembleFrom toLowerCase nfc (tc_tenantId ctx) request
      (map (candidate_view ctx (map cm_memoryId versions) d) versions) external consumer = Ok a ∧ same_memory d d'.
Proof.
  unfold assemble. intros (request & d1 & [-> Hreq]%lift_ok & H1)%pbind_ok.
  apply pbind_ok in H1 as ([] & d1 & [-> Hs]%check_ok & H1). apply withTenant_ok in H1 as [H1 _]. rewrite get_bind in H1.
  apply pbind_ok in H1 as (versions & d1 & [-> Hv]%lift_ok & H1). cbv zeta in H1.
  apply pbind_ok in H1 as (b & d1 & [-> Ha]%lift_ok & H1).
  apply pbind_ok in H1 as ([] & d2 & Hi & [-> ->]%ret_ok). exists request, versions. split_and!; try done.
  - intros s Es Ek. rewrite Es in Hs. apply negb_true_iff, andb_false_iff in Hs as [Hs|Hs]; by to_prop.
  - by apply insert_assembly_ok in Hi as [->| ->].
Qed.

Lemma assemble_same ctx raw consumer external d d' r :
  assemble toLowerCase nfc ctx raw consumer external d = (d', r) → same_memory d d'.
Proof.
  destruct r as [r|x]; [by intros (? & ? & _ & _ & _ & _ & Hsame)%assemble_ok|].
  unfold assemble. unfold mbind at 1, prog_bind at 1, lift_result at 1.
  destruct (ContextRequest_parse raw); [|by intros [= <- _]].
  unfold mbind at 1, prog_bind at 1, Memory.guard, lift_result at 1. destruct (ensure _ _); [|by intros [= <- _]].
  by intros ->%withTenant_throw.
Qed.

Lemma mem_step_inv op d : mem_inv d → mem_inv (mem_step op d).
Proof.
  intros Hi. destruct op as [o ctx raw now|ctx id now|ctx a b ev|ctx raw co ex|e]; simpl.
  - destruct (submit nfc approvals o ctx raw now d) as [d' r] eqn:Es.
    apply submit_cases in Es as [Hsame|(p & a & e & r' & _ & _ & Hs)]; [by eapply mem_inv_same|].
    eapply inv_decide; [|exact Hs]. by eapply mem_inv_same; [apply same_kernel|].
  - destruct (settleApproval nfc approvals ctx id now d) as [d' r] eqn:Es.
    apply settle_cases in Es as [Hsame|(a & st & e & r' & _ & Hs)]; [by eapply mem_inv_same|].
    eapply inv_settle; [|exact Hs]. by eapply mem_inv_same; [apply same_kernel|].
  - destruct (flagConflict ctx a b ev d) as [d' r] eqn:Es. apply flagConflict_same in Es. by eapply mem_inv_same.
  - destruct (assemble toLowerCase nfc ctx raw co ex d) as [d' r] eqn:Es. apply assemble_same in Es. by eapply mem_inv_same.
  - by eapply mem_inv_same; [apply same_kernel|].
Qed.

Lemma reachable_inv d : reachable d → mem_inv d.
Proof.
  induction 1 as [e|op d _ IH]; [|by apply mem_step_inv].
  constructor; simpl; try (intros ? Hx; by apply not_elem_of_nil in Hx); [constructor|].
  split; [intros ? Hx|intros ? ? Hx]; by apply not_elem_of_nil in Hx.
Qed.

(** ** The service's guarantees *)

(** C8: Whatever sequence of submissions, settlements, flags and assemblies led here, from whatever callers: every
    canonical version was proposed by an operator instruction or a verified outcome (never by a model or the Shared
    Brain), carries the trust class that origin earns, is named by an allowing promotion event recorded for its
    candidate, and its content has no credential's shape (its reason, subject and evidence are not scanned); a candidate
    is PROMOTED if and only if it has such a version. *)
Theorem canonical_memory_authority d :
  reachable d →
  (∀ v, v ∈ md_versions d →
     (∃ c, c ∈ md_candidates d ∧ c_id c = cm_candidateId v ∧ c_state c = PROMOTED ∧
        c_origin c ∈ [OPERATOR_INSTRUCTION; VERIFIED_OUTCOME] ∧ cm_trustClass v = TRUST_FOR_ORIGIN (c_origin c) ∧
        cm_tenantId v = c_tenant c ∧ cm_subject v = c_subject c) ∧
     (∃ p, p ∈ md_promotions d ∧ p_id p = cm_promotionId v ∧ p_candidateId p = cm_candidateId v ∧
        p_result p = Some (cm_memoryId v, cm_version v) ∧ p_decision p ∈ [D_ALLOW; D_ALLOW_APPROVED]) ∧
     looksLikeSecret (cm_content v) = None) ∧
  (∀ c, c ∈ md_candidates d → c_state c = PROMOTED ↔ ∃ v, v ∈ md_versions d ∧ cm_candidateId v = c_id c).
Proof.
  intros Hr%reachable_inv. split.
  - intros v Hv. destruct (mi_backed _ Hr v Hv) as [(c & ? & ? & ? & ? & ? & ? & ? & _) (p & ? & ? & ? & ? & Ha) ?].
    split_and!; [by exists c|exists p|done]. split_and!; try done. unfold allowing in Ha.
    apply orb_true_iff in Ha as [Ha|Ha]; to_prop; rewrite Ha; [left|right; left].
  - intros c Hc. split; [by apply (mi_promoted _ Hr)|]. intros (v & Hv & Hid).
    destruct (mi_backed _ Hr v Hv) as [(c' & Hc' & Hid' & Hs & _) _ _].
    assert (c = c') as ->; [|done]. eapply NoDup_map_inj; [apply Hr|done..|congruence].
Qed.

(** Going back from a version to an earlier number of the same memory. *)
Lemma history_back vs v n :
  history vs → v ∈ vs → 1 ≤ n ≤ cm_version v →
  ∃ u, u ∈ vs ∧ cm_memoryId u = cm_memoryId v ∧ cm_version u = n ∧ cm_tenantId u = cm_tenantId v ∧
       cm_class u = cm_class v ∧ cm_subject u = cm_subject v ∧ (n < cm_version v → cm_kind u = V_ASSERT).
Proof.
  intros Hh. remember (Z.to_nat (cm_version v - n)) as k eqn:Hk. revert v Hk.
  induction k as [|k IH]; intros v Hk Hv Hn.
  - exists v. split_and!; try done; lia.
  - destruct (proj1 Hh v Hv) as [_ [Hone|(u & Hu & E1 & E2 & E3 & E4 & E5 & E6)]]; [lia|].
    destruct (IH u) as (w & Hw & F1 & F2 & F3 & F4 & F5 & F6); [lia|done|lia|]. exists w.
    split_and!; try congruence. intros _. destruct (decide (n < cm_version u)) as [?|?]; [by apply F6|].
    assert (w = u) as ->; [|done]. apply (proj2 Hh); try done; lia.
Qed.

(** A memory is an append-only history: its versions are numbered 1, 2, ... without gaps, all of one tenant, one class
    and one subject, and a retraction is the last of them. *)
Theorem memory_history d v w :
  reachable d → v ∈ md_versions d → w ∈ md_versions d → cm_memoryId v = cm_memoryId w →
  cm_tenantId v = cm_tenantId w ∧ cm_class v = cm_class w ∧ cm_subject v = cm_subject w ∧
  (cm_version v = cm_version w → v = w) ∧ (cm_kind v = V_RETRACT → cm_version w ≤ cm_version v) ∧
  (∀ n, 1 ≤ n ≤ cm_version v → ∃ u, u ∈ md_versions d ∧ cm_memoryId u = cm_memoryId v ∧ cm_version u = n).
Proof.
  intros Hr%reachable_inv Hv Hw Hid. pose proof (mi_history _ Hr) as Hh.
  assert (H1v : 1 ≤ cm_version v) by (by apply (proj1 Hh v Hv)).
  assert (H1w : 1 ≤ cm_version w) by (by apply (proj1 Hh w Hw)).
  destruct (history_back _ v 1 Hh Hv) as (v1 & Hv1 & A1 & A2 & A3 & A4 & A5 & _); [lia|].
  destruct (history_back _ w 1 Hh Hw) as (w1 & Hw1 & B1 & B2 & B3 & B4 & B5 & _); [lia|].
  assert (v1 = w1) as ->. { apply (proj2 Hh); try done; congruence. }
  split_and!; try congruence.
  - intros Hn. by apply (proj2 Hh).
  - intros Hk. destruct (decide (cm_version w ≤ cm_version v)) as [?|Hlt]; [done|].
    destruct (history_back _ w (cm_version v) Hh Hw) as (u & Hu & C1 & C2 & _ & _ & _ & C6); [lia|].
    assert (u = v) as ->. { apply (proj2 Hh); try done; congruence. } rewrite C6 in Hk by lia. done.
  - intros n Hn. destruct (history_back _ v n Hh Hv Hn) as (u & ? & ? & ? & _). by exists u.
Qed.

(** A context holds what its request may see and nothing else: each item is the head of a current memory (asserted,
    not retracted, not superseded) of the caller's tenant, of an allowed class, about the caller itself, the tenant or
    the requested project, with the content that was promoted. *)
Theorem assembled_scope ctx raw consumer external d d' a :
  assemble toLowerCase nfc ctx raw consumer external d = (d', Ok a) →
  ∃ request, ContextRequest_parse raw = Ok request ∧
  ∀ i, i ∈ ac_items a → ∃ v, v ∈ md_versions d ∧ current v d = true ∧ cm_tenantId v = tc_tenantId ctx ∧
    cm_class v ∈ cr_allowedClasses request ∧
    cm_memoryId v = ci_memoryId i ∧ cm_version v = ci_version i ∧ cm_content v = ci_content i ∧
    (cm_subject v = {| ms_kind := S_PRINCIPAL; ms_ref := principal_id (tc_principal ctx) |} ∨
     cm_subject v = {| ms_kind := S_TENANT; ms_ref := tc_tenantId ctx |} ∨
     ∃ project, cr_project request = Some project ∧ cm_subject v = {| ms_kind := S_PROJECT; ms_ref := project |}).
Proof.
  intros (request & versions & Hreq & _ & Hv & Ha & _)%assemble_ok. exists request. split; [done|]. intros i Hi.
  destruct (assembleFrom_parts _ _ _ _ _ _ _ _ Ha) as (Hitems & _).
  destruct (checked_tokens _ _ Hitems) as (_ & _ & HF). apply list_elem_of_lookup_1 in Hi as [j Hj].
  destruct (Forall2_lookup_r _ _ _ _ _ HF Hj) as (i0 & Hi0 & _ & _ & E1 & E2 & E3 & _).
  apply list_elem_of_lookup_2 in Hi0.
  destruct (pk_items _ _ _ (pack_packed (rankCandidates toLowerCase (map (candidate_view ctx (map cm_memoryId versions) d) versions)
    (cr_purpose request)) (cr_budget request)) _ Hi0) as (m & Hm & ->).
  unfold rankCandidates in Hm. apply js_sort_elem, list_elem_of_omap in Hm as (c & Hc & Hsc).
  apply score_candidate in Hsc. apply list_elem_of_fmap in Hc as (v' & -> & Hv').
  destruct (parse_all_elem _ _ _ _ Hv Hv') as (v & Hin & Hp).
  assert (Hsame : cm_memoryId v' = cm_memoryId v ∧ cm_version v' = cm_version v ∧ cm_content v' = cm_content v).
  { unfold CanonicalMemoryVersion_parse in Hp. apply ensure_ok in Hp as [_ Hp]. apply bind_ok in Hp as (s & _ & Hp).
    apply bind_ok in Hp as (ev & _ & Hp). by apply ensure_ok in Hp as [_ <-%Ok_inj]. }
  destruct Hsame as (G1 & G2 & G3). unfold eligible in Hin. apply elem_of_take in Hin as (k & Hk & _).
  apply list_elem_of_lookup_2, js_sort_elem, elem_of_filter_bool in Hk as [Hmem Hcond]. to_prop.
  exists v. rewrite E1, E2, E3. unfold item_of. rewrite Hsc. simpl. split_and!; try done.
  match goal with H : in_scope _ _ _ = true |- _ => unfold in_scope in H; rename H into Hscope end. cbv zeta in Hscope.
  apply orb_true_iff in Hscope as [Hscope|Hscope]; [apply orb_true_iff in Hscope as [Hscope|Hscope]|].
  - left. to_prop. destruct (cm_subject v); simpl in *; by subst.
  - right; left. to_prop. destruct (cm_subject v); simpl in *; by subst.
  - right; right. unfold truthy in Hscope. destruct (cr_project request) as [project|]; [|done]. exists project. split; [done|].
    destruct (decide _); [done|]. to_prop. destruct (cm_subject v); simpl in *; by subst.
Qed.

(** An approval promotes only what it was given for: a waiting candidate becomes canonical only when the approval
    machinery says GRANTED for the approval recorded with it, bound to this candidate's id and request digest; the
    promotion is attributed to the approver. *)
Theorem settlement_needs_grant ctx id now d d' r :
  settleApproval nfc approvals ctx id now d = (d', Ok r) → sr_replayed r = false → sr_decision r = D_ALLOW_APPROVED →
  ∃ a row approvalId state e, approvals = Some a ∧
    row ∈ md_candidates d ∧ c_tenant row = tc_tenantId ctx ∧ c_id row = id ∧ c_state row = AWAITING_APPROVAL ∧
    c_approvalId row = Some approvalId ∧
    (pa_state a approvalId e).2 = Ok state ∧ ps_status state = A_GRANTED ∧
    ps_boundCandidateId state = Some id ∧ ps_boundCandidateDigest state = Some (c_requestDigest row) ∧
    ∃ p, p ∈ md_promotions d' ∧ p_candidateId p = id ∧ p_decision p = D_ALLOW_APPROVED ∧
         p_approvalId p = Some approvalId ∧ p_byPrincipal p = ps_approver state.
Proof.
  unfold settleApproval. destruct approvals as [a|]; [|done]. intros H1 Hrep Hdec.
  apply pbind_ok in H1 as (row & d1 & Hrow & H1). apply withTenant_ok in Hrow as [Hrow _].
  unfold candidateRow in Hrow. rewrite get_bind in Hrow. apply lift_ok in Hrow as [-> Hrow].
  destruct (find_candidate _ _ d) as [row'|] eqn:Hf; [|done]. apply Ok_inj in Hrow as ->.
  assert (Hans : ∀ (m : prog (MemDb E) CandidateRow) d0 d1,
    withTenant ctx P_knowledge_write (r ← m; resultFor r true) d0 = (d1, Ok r) → False).
  { intros m d0 d2 [H2 _]%withTenant_ok. apply pbind_ok in H2 as (c & d3 & _ & H2). unfold resultFor in H2.
    rewrite get_bind in H2. destruct (promotions_of _ _); [done|]. apply ret_ok in H2 as [_ ->]. done. }
  destruct (c_approvalId row) as [approvalId|] eqn:Eap; [|by apply Hans in H1].
  destruct (_ !== _) eqn:Es; [by apply Hans in H1|]. to_prop.
  apply pbind_ok in H1 as (u & d1 & He & H1). apply on_kernel_same in He as [e1 ->].
  apply pbind_ok in H1 as (state & d1 & He & H1). apply on_kernel_same in He as He'. destruct He' as [e2 ->].
  destruct (ps_status state === A_PENDING) eqn:Ep.
  { apply withTenant_ok in H1 as [H1 _]. unfold resultFor in H1. rewrite get_bind in H1.
    destruct (promotions_of _ _); [done|]. apply ret_ok in H1 as [_ ->]. done. }
  destruct (_ || _) eqn:Eb; [done|]. apply orb_false_iff in Eb as [Eb1 Eb2]. to_prop.
  apply withTenant_ok in H1 as [H1 _]. apply find_candidate_elem in Hf as Hf'. destruct Hf' as (Hin & Ht & Hid).
  assert (Hst : (pa_state a approvalId e1).2 = Ok state).
  { unfold on_kernel in He. simpl in He. destruct (pa_state a approvalId e1) as [e3 r3]. by injection He as _ ->. }
  apply settle_body_ok in H1 as (c & Hc & [(? & _ & ?)|[_ Hrec]]); [congruence|]. cbv zeta in Hrec.
  assert (c = row) as ->. { unfold find_candidate in Hc, Hf. simpl in Hc. congruence. }
  set (verdict := settled_verdict _ _ _) in Hrec.
  destruct (recordDecision_ok _ _ _ _ _ _ _ _ Hrec) as (res & d2 & -> & _ & _ & Hd2 & Hset). simpl in Hdec.
  cbn [hw_phase] in Hset. rewrite bool_decide_true in Hset by done.
  assert (Hf2 : find_candidate (c_tenant row) (c_id row) d = Some row) by (by rewrite Ht, Hid).
  destruct (Hset row Hf2) as [_ ->]. apply recorded_rows in Hd2 as (_ & Epr & _).
  exists a, row, approvalId, state, e1. split_and!; try congruence.
  - assert (Hall : allowing (vd_decision verdict) = true) by (by rewrite Hdec). exact (settled_verdict_allowing _ _ _ Hall).
  - eexists. simpl. rewrite Epr. simpl. split; [apply elem_of_app; right; by apply list_elem_of_singleton|].
    simpl. rewrite Hdec, bool_decide_true by done. done.
Qed.

End invariant.

(** ** A concrete service *)

Module MemorySample.

(** The kernel's tables: two members and no tasks. *)
Definition Kernel : Type := list (string * PrincipalRef * string).

#[export] Instance kernel_tables : KernelTables Kernel :=
  {| kt_roles := λ k, k; kt_task := λ _ _, None; kt_outcome := λ _ _, None; kt_evidence := λ _ _, None |}.

Definition tenant : string := sample_id 1.
Definition operator : PrincipalRef := {| principal_id := sample_id 2; principal_kind := HUMAN |}.
Definition ctx : TenantContext := {| tc_tenantId := tenant; tc_principal := operator |}.
Definition start : MemDb Kernel := MDb [(tenant, operator, "owner")] [] [] [] [] [].

Definition submission (key class content intent : string) (target : list (string * json)) : json :=
  JObj ([("idempotencyKey", JStr key); ("class", JStr class); ("content", JStr content);
         ("subject", JObj [("kind", JStr "PRINCIPAL"); ("ref", JStr (principal_id operator))]);
         ("evidence", JArr [JObj [("type", JStr "TELEGRAM_UPDATE"); ("ref", JStr "update 7")]]);
         ("reason", JStr "the operator said so"); ("intent", JStr intent)] ++ target).

Definition preference : json := submission "telegram-0001" "PREFERENCE" "I prefer short answers" "NEW" [].
Definition secret : string := "postgres password: hunter2hunter2".
Definition misdirected : json :=
  submission "telegram-0002" "FACT" secret "CORRECT" [("targetMemoryId", JStr (sample_id 8))].

Definition tell (raw : json) : prog (MemDb Kernel) SubmissionResult :=
  submitOperatorInstruction (λ s, s) None ctx raw 1789488000000.

Definition first_version (d : MemDb Kernel) : list (string * VersionKind * string) :=
  map (λ v, (cm_content v, cm_kind v, cm_promotedAt v)) (md_versions d).

Example remembered : first_version (tell preference start).1 =
  [("I prefer short answers", V_ASSERT, "2026-09-15T16:00:00.000Z")].
Proof. vm_compute. reflexivity. Qed.
End MemorySample.
Import MemorySample.

(** The scope and target checks come before the credential scan, so a credential in a candidate they refuse is stored as it
    was sent; [REDACTED_CONTENT] says a refused credential never is. *)
Lemma scope_refusal_keeps_credential :
  looksLikeSecret secret ≠ None ∧
  map (λ c, (c_state c, c_stateReason c, c_content c)) (md_candidates (tell misdirected start).1) =
    [(REFUSED, "the memory to change does not exist", secret)].
Proof. split; vm_compute; [discriminate|reflexivity]. Qed.

#[local] Abbreviation after_preference :=
  (mem_step sample_lower (λ s, s) None (OpSubmit OPERATOR_INSTRUCTION ctx preference 1789488000000) start).

Lemma after_preference_reachable : reachable sample_lower (λ s, s) None after_preference.
Proof. apply reach_step. apply reach_start. Qed.

Lemma canonical_memory_authority_witness :
  ∃ v, v ∈ md_versions after_preference ∧ looksLikeSecret (cm_content v) = None.
Proof.
  assert (Hl : length (md_versions after_preference) = 1%nat) by (vm_compute; reflexivity).
  pose proof (canonical_memory_authority sample_lower (λ s, s) None _ after_preference_reachable) as [Hv _].
  destruct (md_versions after_preference) as [|v l]; [discriminate Hl|]. exists v. split; [left|].
  destruct (Hv v) as (_ & _ & Hc); [left|]. exact Hc.
Defined.

Lemma memory_history_witness :
  ∃ v, v ∈ md_versions after_preference ∧ (cm_kind v = V_RETRACT → cm_version v ≤ cm_version v).
Proof.
  assert (Hl : length (md_versions after_preference) = 1%nat) by (vm_compute; reflexivity).
  pose proof (memory_history sample_lower (λ s, s) None after_preference) as Hh.
  destruct (md_versions after_preference) as [|v l]; [discriminate Hl|]. exists v.
  assert (Hv : v ∈ v :: l) by left. split; [exact Hv|].
  destruct (Hh v v after_preference_reachable Hv Hv eq_refl) as (_ & _ & _ & _ & Hk & _). exact Hk.
Defined.

(** The question the preference bears on. *)
Definition question : json :=
  JObj [("purpose", JStr "How should the report be written?"); ("allowedClasses", JArr [JStr "PREFERENCE"]);
        ("budget", JObj [("maxItems", JNum 5); ("maxTokens", JNum 200)])].

Lemma assembled_scope_witness :
  match assemble sample_lower (λ s, s) ctx question no_consumer [] after_preference with
  | (_, Ok a) => ∀ i, i ∈ ac_items a → ∃ v, v ∈ md_versions after_preference ∧ cm_content v = ci_content i
  | _ => False
  end.
Proof.
  assert (Hok : is_ok (assemble sample_lower (λ s, s) ctx question no_consumer [] after_preference).2 = true) by (vm_compute; reflexivity).
  destruct (assemble sample_lower (λ s, s) ctx question no_consumer [] after_preference) as [d' [a|]] eqn:Ea; [|discriminate Hok].
  destruct (assembled_scope sample_lower (λ s, s) ctx question no_consumer [] _ _ _ Ea) as (request & _ & Hi).
  intros i Hin. destruct (Hi i Hin) as (v & Hv & _ & _ & _ & _ & _ & Hc & _). exists v. split; [exact Hv|exact Hc].
Defined.

(** A lesson that waits for its approval, and an approval machinery that says it was granted. *)
Definition waiting : CandidateRow :=
  {| c_id := sample_id 20; c_tenant := tenant; c_origin := VERIFIED_OUTCOME; c_submittedBy := sample_id 3;
     c_key := "outcome-0001"; c_class := LESSON; c_intent := NEW; c_target := None; c_content := "Check the deploy twice";
     c_contentDigest := Sha256.sha256_hex "Check the deploy twice"; c_subject := {| ms_kind := S_TENANT; ms_ref := tenant |};
     c_evidence := [{| mer_type := TASK_EVIDENCE; mer_ref := "task/evidence"; mer_digest := None |}];
     c_reason := "learned from the outcome"; c_requestDigest := Sha256.sha256_hex "request"; c_state := AWAITING_APPROVAL;
     c_stateReason := "needs approval"; c_approvalId := Some (sample_id 21);
     c_createdAt := "2026-09-15T16:00:00.000Z"; c_decidedAt := "2026-09-15T16:00:00.000Z" |}.

Definition waiting_db : MemDb Kernel := set_candidates [waiting] start.

Definition granted_by (approver : PrincipalRef) : PromotionApprovals Kernel :=
  {| pa_request := λ _ _ _ _, mret {| pt_approvalId := sample_id 21; pt_expiresAt := "2026-09-16T16:00:00.000Z" |};
     pa_state := λ _, mret {| ps_status := A_GRANTED; ps_expiresAt := "2026-09-16T16:00:00.000Z";
       ps_boundCandidateId := Some (c_id waiting); ps_boundCandidateDigest := Some (c_requestDigest waiting);
       ps_approver := Some (principal_id approver) |};
     pa_expireIfDue := λ _, mret tt |}.

Definition settled := settleApproval (λ s, s) (Some (granted_by operator)) ctx (c_id waiting) 1789488000000 waiting_db.

Lemma settlement_needs_grant_witness :
  ∃ p, p ∈ md_promotions settled.1 ∧ p_decision p = D_ALLOW_APPROVED ∧ p_approvalId p = Some (sample_id 21).
Proof.
  assert (Hok : (λ r, (sr_replayed r, sr_decision r)) <$> settled.2 = Ok (false, D_ALLOW_APPROVED)) by (vm_compute; reflexivity).
  destruct settled as [d' [r|]] eqn:Es; [|discriminate Hok]. injection Hok as Hrep Hdec.
  destruct (settlement_needs_grant (λ s, s) (Some (granted_by operator)) ctx (c_id waiting) 1789488000000 waiting_db d' r Es Hrep Hdec)
    as (a & row & i & state & e & _ & Hrow & _ & _ & _ & Hi & _ & _ & _ & _ & p & Hp & _ & Hd & Ha & _).
  exists p. split; [exact Hp|]. split; [exact Hd|]. rewrite Ha, <- Hi.
  apply list_elem_of_singleton in Hrow as ->. reflexivity.
Defined.
