(* ===== verification/MemReplay.v ===== *)
(** * Replays of a submission

    The public entry points of the memory service, the sequences of operations that may follow
    a submission, and what the same request is answered after them. *)

From S2P Require Import Prelude JsNumber JsDate Digest Contracts Plan Capability Json Policy Approval Regex MemPolicy MemContext Memory MemInvariant.
Import MemorySample.
Local Open Scope Z_scope.
Local Open Scope js_scope.

Section replays.
Context {E : Type} `{KernelTables E}.
Context (toLowerCase : string → string) (nfc : string → string) (approvals : option (PromotionApprovals E)).
Implicit Types (d : MemDb E).

Definition replayed (r : SubmissionResult) : SubmissionResult :=
  {| sr_candidateId := sr_candidateId r; sr_origin := sr_origin r; sr_state := sr_state r; sr_decision := sr_decision r;
     sr_ruleId := sr_ruleId r; sr_reason := sr_reason r; sr_memoryId := sr_memoryId r; sr_version := sr_version r;
     sr_approvalId := sr_approvalId r; sr_replayed := true |}.

(** Two submissions with the same key and the same request. *)
Definition same_request (p p' : Prepared) : Prop :=
  cs_idempotencyKey (pr_sub p) = cs_idempotencyKey (pr_sub p') ∧ pr_requestDigest p = pr_requestDigest p'.

Lemma existing_ext ctx p p' d : same_request p p' → existing ctx p d = existing ctx p' d.
Proof. intros [E1 E2]. unfold existing. by rewrite E1, E2. Qed.

Lemma existing_replayed ctx p d d' r : existing ctx p d = (d', Ok (Some r)) → replayed r = r.
Proof.
  unfold existing. rewrite get_bind. destruct (List.find _ _) as [c|]; [|done].
  intros ([] & d1 & _ & (r1 & d2 & Hr & [-> [= ->]]%ret_ok)%pbind_ok)%pbind_ok.
  unfold resultFor in Hr. rewrite get_bind in Hr. destruct (promotions_of _ _); [done|]. by apply ret_ok in Hr as [_ ->].
Qed.

Lemma withTenant_run {A} ctx perm (m : prog (MemDb E) A) d a :
  is_ok (Memory.authorize ctx perm d).2 = true → m d = (d, Ok a) → withTenant ctx perm m d = (d, Ok a).
Proof.
  intros Ha Hm. unfold withTenant. destruct (Memory.authorize ctx perm d) as [d1 [u|]] eqn:Ea; [|done].
  apply mem_authorize_ok in Ea as Ed. subst d1. by rewrite (pbind_run _ _ _ _ _ Ea), Hm.
Qed.

Lemma submit_replays origin ctx raw now p d r :
  prepare nfc raw = Ok p → is_ok (Memory.authorize ctx P_knowledge_write d).2 = true →
  existing ctx p d = (d, Ok (Some r)) → submit nfc approvals origin ctx raw now d = (d, Ok r).
Proof.
  intros Hp Ha He. unfold submit. rewrite Hp. erewrite pbind_run by reflexivity.
  erewrite pbind_run; [|unfold submit_first; apply withTenant_run; [done|]; erewrite pbind_run by exact He; done].
  done.
Qed.

Lemma reasons_short :
  Forall (λ name, slice16 500 ("content looks like a credential (" +:+ name +:+ "); a memory is never a place for one") =
                  "content looks like a credential (" +:+ name +:+ "); a memory is never a place for one")
    (map fst SECRET_SHAPES).
Proof. repeat constructor; vm_compute; reflexivity. Qed.

Lemma policy_reason_short origin c tc : slice16 500 (pdr_reason (decidePromotion origin c tc)) = pdr_reason (decidePromotion origin c tc).
Proof.
  unfold decidePromotion. destruct (looksLikeSecret _) as [name|] eqn:Es.
  - apply fmap_Some in Es as ([n re] & Hf & ->). apply List.find_some in Hf as [Hin _].
    pose proof reasons_short as HF. rewrite Forall_forall in HF. apply (HF n).
    apply list_elem_of_fmap. exists (n, re). by rewrite list_elem_of_In.
  - destruct origin; repeat match goal with |- context [if ?b then _ else _] => destruct b end; vm_compute; reflexivity.
Qed.

Lemma decided_reason_short origin ctx p a d :
  slice16 500 (vd_reason (decided origin ctx p a d)) = vd_reason (decided origin ctx p a d).
Proof.
  unfold decided. cbv zeta. destruct (_ && _); [vm_compute; reflexivity|]. unfold verdict_of, judge. cbn [vd_reason].
  set (target := loadTarget _ _ _). destruct (scope_refusal origin ctx (pr_sub p) target) as [r|] eqn:Es.
  - unfold scope_refusal in Es. repeat case_match; simplify_eq; vm_compute; reflexivity.
  - destruct (_ && _); [vm_compute; reflexivity|]. apply policy_reason_short.
Qed.

(** The new row is what the next submission with the key finds. *)
Lemma second_then_existing origin ctx p approvalId now d d' r :
  mem_inv d → submit_second nfc origin ctx p approvalId now d = (d', Ok r) →
  existing ctx p d' = (d', Ok (Some (replayed r))) ∧ md_kernel d' = md_kernel d.
Proof.
  intros Hi [[-> He]|[Hfresh Hrec]]%submit_second_ok.
  { split; [|done]. by rewrite (existing_replayed _ _ _ _ _ He). }
  cbv zeta in *. set (verdict := decided origin ctx p approvalId d) in *.
  set (row := candidate_of origin ctx p verdict approvalId (toISOString now)) in *.
  destruct (recordDecision_ok _ _ _ _ _ _ _ _ Hrec) as (res & d2 & -> & _ & _ & Hd2 & ->).
  assert (Hk : md_kernel d2 = md_kernel d) by (by destruct Hd2).
  destruct (recorded_rows _ _ _ _ _ _ _ _ Hd2) as (Ec & Ep & _). simpl in Ec, Ep. split; [|done].
  unfold existing. rewrite get_bind.
  assert (Hfind : List.find (λ c, (c_tenant c === tc_tenantId ctx) && (c_key c === cs_idempotencyKey (pr_sub p))) (md_candidates d2)
    = Some row).
  { rewrite Ec. clear Hrec Hd2 Ec. induction (md_candidates d) as [|x l IH]; simpl; [by rewrite !bool_decide_true|].
    destruct ((c_tenant x === tc_tenantId ctx) && (c_key x === cs_idempotencyKey (pr_sub p))) eqn:Ex.
    - to_prop. destruct (Hfresh x) as [_ Hk']; [left|]. by destruct Hk'.
    - apply IH. intros y Hy. apply Hfresh. by right. }
  rewrite Hfind. change (c_requestDigest row) with (pr_requestDigest p).
  rewrite bool_decide_true by done. unfold Memory.guard. erewrite pbind_run by reflexivity.
  assert (Hpromo : promotions_of (c_id row) d2 = [promotion_of_decision row verdict
    {| hw_phase := "decide"; hw_by := POLICY_ENGINE; hw_principal := Some (principal_id (tc_principal ctx));
       hw_approvalId := c_approvalId row; hw_at := now |} res]).
  { unfold promotions_of. rewrite Ep, List.filter_app.
    assert (List.filter (λ q, p_candidateId q === c_id row) (md_promotions d) = []) as ->.
    { destruct (List.filter _ _) as [|q l] eqn:Eq; [done|]. exfalso.
      assert (Hq : q ∈ List.filter (λ q, p_candidateId q === c_id row) (md_promotions d)) by (rewrite Eq; by left).
      apply elem_of_filter_bool in Hq as [Hq Hqc]. to_prop. apply (mi_promotions _ Hi) in Hq.
      apply list_elem_of_fmap in Hq as (c & Hc & Hcin). destruct (Hfresh c Hcin) as [Hne _]. congruence. }
    cbn [List.filter app promotion_of_decision p_candidateId]. by rewrite bool_decide_true. }
  unfold resultFor. erewrite pbind_run; [|rewrite get_bind, Hpromo; reflexivity].
  unfold replayed. cbn [sr_candidateId sr_origin sr_state sr_decision sr_ruleId sr_reason sr_memoryId sr_version sr_approvalId].
  cbn [promotion_of_decision p_decision p_ruleId p_reason p_result]. unfold verdict at 3. rewrite decided_reason_short. done.
Qed.

(** *** The entry points *)

Inductive Entry := ByOperator | ByOutcome | ByModel | ByExternal.

Definition enter (e : Entry) : TenantContext → json → Z → prog (MemDb E) SubmissionResult :=
  match e with
  | ByOperator => submitOperatorInstruction nfc approvals
  | ByOutcome => submitVerifiedOutcomeCandidate nfc approvals
  | ByModel => submitModelCandidate nfc approvals
  | ByExternal => submitExternalCandidate nfc approvals
  end.

Definition may_use (e : Entry) (ctx : TenantContext) : bool :=
  match e with
  | ByOperator => principal_kind (tc_principal ctx) === HUMAN
  | ByOutcome => principal_kind (tc_principal ctx) === SERVICE
  | _ => true
  end.

Lemma enter_spec e ctx raw now d :
  if may_use e ctx then ∃ origin, enter e ctx raw now d = submit nfc approvals origin ctx raw now d
  else ∃ why, enter e ctx raw now d = (d, Throw (memory_error "FORBIDDEN_ORIGIN" why)).
Proof.
  destruct e; cbn [may_use enter]; unfold submitOperatorInstruction, submitVerifiedOutcomeCandidate;
    repeat (destruct (_ === _); cbn [negb]); eauto.
Qed.

(** *** What follows *)

Local Abbreviation step := (mem_step toLowerCase nfc approvals).

(** [later d d'] : some operations lead from d to d'. *)
Inductive later d : MemDb E → Prop :=
  | later_here : later d d
  | later_step op d' : later d d' → later d (step op d').

Definition found (tenant key : string) d : option CandidateRow :=
  List.find (λ c, (c_tenant c === tenant) && (c_key c === key)) (md_candidates d).

(** The row and the promotion events of a candidate are as they were, or its approval was settled. *)
Definition kept (c : CandidateRow) (ps : list PromotionRow) (c' : CandidateRow) (ps' : list PromotionRow) : Prop :=
  (c' = c ∧ ps' = ps) ∨
  (c_state c = AWAITING_APPROVAL ∧ c_state c' ∈ [PROMOTED; REJECTED] ∧ c_id c' = c_id c ∧ c_origin c' = c_origin c ∧
   c_requestDigest c' = c_requestDigest c ∧ c_approvalId c' = c_approvalId c).

Lemma find_app {A} (f : A → bool) l l' x : List.find f l = Some x → List.find f (l ++ l') = Some x.
Proof. induction l as [|y l IH]; [done|]. cbn [List.find app]. by destruct (f y). Qed.

Lemma find_map {A} (f : A → bool) (g : A → A) l : (∀ x, f (g x) = f x) → List.find f (map g l) = g <$> List.find f l.
Proof. intros Hg. induction l as [|y l IH]; [done|]. cbn [List.find map]. rewrite Hg. by destruct (f y). Qed.

Lemma promotions_add id q d : p_candidateId q ≠ id →
  ∀ d', md_promotions d' = md_promotions d ++ [q] → promotions_of id d' = promotions_of id d.
Proof.
  intros Hq d' E'. unfold promotions_of. rewrite E', List.filter_app. cbn [List.filter]. rewrite bool_decide_false by done.
  by rewrite app_nil_r.
Qed.

Lemma step_keeps op d tenant key c : mem_inv d → found tenant key d = Some c →
  ∃ c', found tenant key (step op d) = Some c' ∧
    kept c (promotions_of (c_id c) d) c' (promotions_of (c_id c') (step op d)).
Proof.
  intros Hi Hf. assert (Hsame : ∀ d', same_memory d d' → ∃ c', found tenant key d' = Some c' ∧
    kept c (promotions_of (c_id c) d) c' (promotions_of (c_id c') d')).
  { intros d' (E1 & E2 & _). exists c. unfold found, promotions_of in *. rewrite E1, E2. split; [done|by left]. }
  pose proof (List.find_some _ _ Hf) as [Hin%list_elem_of_In _].
  destruct op as [o ctx raw now|ctx id now|ctx a b ev|ctx raw co ex|e]; cbn [mem_step].
  - destruct (submit nfc approvals o ctx raw now d) as [d' r] eqn:Es.
    apply submit_cases in Es as [Hs|(p & a & e & r' & _ & _ & Hs)]; [by apply Hsame|].
    apply submit_second_ok in Hs as [[-> _]|[Hfresh Hrec]]; [by apply Hsame|]. cbv zeta in *.
    destruct (recordDecision_ok _ _ _ _ _ _ _ _ Hrec) as (res & d2 & -> & _ & _ & Hd2 & ->).
    destruct (recorded_rows _ _ _ _ _ _ _ _ Hd2) as (Ec & Ep & _). cbn in Ec, Ep. exists c. split.
    + unfold found. cbn [fst]. rewrite Ec. by apply find_app.
    + left. split; [done|]. cbn [fst]. eapply promotions_add; [|exact Ep]. cbn [promotion_of_decision p_candidateId].
      destruct (Hfresh c Hin) as [Hne _]. by intros E1; apply Hne.
  - destruct (settleApproval nfc approvals ctx id now d) as [d' r] eqn:Es.
    apply settle_cases in Es as [Hs|(a & st & e & r' & _ & Hs)]; [by apply Hsame|].
    apply settle_body_ok in Hs as (x & Hx & [(_ & -> & _)|[Hw Hrec]]); [by apply Hsame|]. cbv zeta in *.
    assert (Hi' : mem_inv (set_kernel e d)) by (by eapply mem_inv_same; [apply same_kernel|]).
    pose proof (find_candidate_elem _ _ _ _ Hx) as (Hxin & Ht & Hxid).
    assert (Hx2 : find_candidate (c_tenant x) (c_id x) (set_kernel e d) = Some x) by (by rewrite Ht, Hxid).
    destruct (recordDecision_ok _ _ _ _ _ _ _ _ Hrec) as (res & d2 & -> & _ & _ & Hd2 & Hset).
    cbn [hw_phase] in Hset. rewrite bool_decide_true in Hset by done. destruct (Hset x Hx2) as [_ ->]. clear Hset.
    destruct (recorded_rows _ _ _ _ _ _ _ _ Hd2) as (Ec & Ep & _). cbn in Ec, Ep. cbn [fst].
    set (f := settle_candidate _ _ _ _). exists (f c). split.
    { unfold found in *. cbn [set_candidates md_candidates]. rewrite Ec, find_map, Hf; [done|].
      intros y. unfold f, settle_candidate. by destruct (c_id y === c_id x). }
    destruct (decide (c_id c = c_id x)) as [Heq|Hne].
    + rewrite (find_candidate_unique _ _ _ _ Hi' Hx2 c Hin Heq). right. unfold f, settle_candidate, outcome_state.
      cbn [hw_phase]. rewrite !bool_decide_true by done. cbn. split_and!; try done. destruct (allowing _); set_solver.
    + left. assert (Hfc : f c = c) by (unfold f, settle_candidate; by rewrite bool_decide_false). rewrite Hfc. split; [done|].
      eapply promotions_add; [|exact Ep]. cbn [promotion_of_decision p_candidateId]. congruence.
  - destruct (flagConflict ctx a b ev d) as [d' r] eqn:Es. apply flagConflict_same in Es. by apply Hsame.
  - destruct (assemble toLowerCase nfc ctx raw co ex d) as [d' r] eqn:Es. apply assemble_same in Es. by apply Hsame.
  - by apply Hsame.
Qed.

Lemma later_keeps d d' tenant key c : mem_inv d → later d d' → found tenant key d = Some c →
  mem_inv d' ∧ ∃ c', found tenant key d' = Some c' ∧ kept c (promotions_of (c_id c) d) c' (promotions_of (c_id c') d').
Proof.
  intros Hi Hl Hf. induction Hl as [|op d' _ [Hi' (c1 & Hf1 & Hk1)]]; [split; [done|]; exists c; split; [done|by left]|].
  split; [by apply mem_step_inv|]. destruct (step_keeps op _ _ _ _ Hi' Hf1) as (c2 & Hf2 & Hk2). exists c2. split; [done|].
  destruct Hk1 as [[-> E1]|(Hw & Hs & H1)], Hk2 as [[-> E2]|(Hw2 & H2)].
  - left. split; [done|congruence].
  - right. by rewrite Hw2.
  - by right.
  - rewrite Hw2 in Hs. set_solver.
Qed.

(** The answer read off a row. *)
Lemma existing_found ctx p d r : existing ctx p d = (d, Ok (Some r)) ↔
  ∃ c q qs, found (tc_tenantId ctx) (cs_idempotencyKey (pr_sub p)) d = Some c ∧ c_requestDigest c = pr_requestDigest p ∧
    promotions_of (c_id c) d = q :: qs ∧
    r = {| sr_candidateId := c_id c; sr_origin := c_origin c; sr_state := c_state c; sr_decision := p_decision q;
           sr_ruleId := p_ruleId q; sr_reason := p_reason q; sr_memoryId := fst <$> p_result q;
           sr_version := snd <$> p_result q; sr_approvalId := c_approvalId c; sr_replayed := true |}.
Proof.
  unfold existing, found. rewrite get_bind. split.
  - destruct (List.find _ _) as [c|]; [|done]. intros ([] & d1 & [-> Hd]%check_ok & H1)%pbind_ok. to_prop.
    apply pbind_ok in H1 as (r1 & d2 & Hr & [_ [= ->]]%ret_ok). unfold resultFor in Hr. rewrite get_bind in Hr.
    destruct (promotions_of (c_id c) d) as [|q qs] eqn:Eq; [done|]. apply ret_ok in Hr as [_ ->]. by exists c, q, qs.
  - intros (c & q & qs & -> & Hd & Hq & ->). rewrite bool_decide_true by done. unfold Memory.guard.
    erewrite pbind_run by reflexivity. unfold resultFor. erewrite pbind_run; [|rewrite get_bind, Hq; reflexivity]. done.
Qed.

Lemma decided_promotions d c : mem_inv d → c ∈ md_candidates d → ∃ q qs, promotions_of (c_id c) d = q :: qs.
Proof.
  intros Hi Hc. destruct (mi_decided _ Hi c Hc) as (q & Hq & Hid). unfold promotions_of.
  destruct (js_sort settled_first (List.filter (λ p, p_candidateId p === c_id c) (md_promotions d))) as [|x xs] eqn:Es; [|by exists x, xs].
  exfalso. assert (Hin : q ∈ List.filter (λ p, p_candidateId p === c_id c) (md_promotions d)).
  { apply elem_of_filter_bool. split; [done|]. by apply bool_decide_eq_true. }
  rewrite <- (js_sort_elem settled_first), Es in Hin. by apply not_elem_of_nil in Hin.
Qed.

(** The answered submission is what its key finds. *)
Lemma submit_then_existing origin ctx raw now p d d1 r :
  mem_inv d → prepare nfc raw = Ok p → submit nfc approvals origin ctx raw now d = (d1, Ok r) →
  mem_inv d1 ∧ existing ctx p d1 = (d1, Ok (Some (replayed r))).
Proof.
  intros Hi Hp Hs. split.
  { pose proof (mem_step_inv toLowerCase nfc approvals (OpSubmit origin ctx raw now) d Hi) as H1. cbn [mem_step] in H1. by rewrite Hs in H1. }
  unfold submit in Hs. rewrite Hp in Hs. erewrite pbind_run in Hs by reflexivity.
  apply pbind_ok in Hs as (first & d2 & Hf & Hs). apply submit_first_same in Hf as Hd. subst d2.
  unfold submit_first in Hf. apply withTenant_ok in Hf as [Hf _].
  apply pbind_ok in Hf as (o & d2 & He & Hf). apply existing_ok in He as Hd. subst d2.
  destruct o as [r0|].
  - apply ret_ok in Hf as [_ ->]. cbn [fst] in Hs. apply ret_ok in Hs as [-> ->].
    by rewrite (existing_replayed _ _ _ _ _ He).
  - rewrite get_bind in Hf. apply ret_ok in Hf as [_ ->]. cbn [fst snd] in Hs.
    apply pbind_ok in Hs as (a & d2 & Hq & Hs). apply request_approval_same in Hq as [e ->].
    assert (Hi' : mem_inv (set_kernel e d)) by (by eapply mem_inv_same; [apply same_kernel|]).
    by destruct (second_then_existing _ _ _ _ _ _ _ _ Hi' Hs).
Qed.

End replays.

(** ** A concrete replay *)

#[local] Abbreviation submit_preference := (enter (λ s, s) None ByOperator ctx preference 1789488000000).

(** An operator's instruction, sent again after a conflict was flagged and a question answered. *)
Definition busy (d : MemDb MemorySample.Kernel) : MemDb MemorySample.Kernel :=
  mem_step sample_lower (λ s, s) None (OpAssemble ctx question no_consumer [])
    (mem_step sample_lower (λ s, s) None (OpFlag ctx (sample_id 5) (sample_id 6) []) d).

