(* ===== verification/MemPort.v ===== *)
(** * The edges of canonical memory (services/memory/src/canonical: mission-port.ts, sharedbrain.ts,
    config.ts; services/kernel/src/mission/memory-port.ts)

    What a mission can do to memory is [port_assemble]: one bounded, recorded read.  What
    the Shared Brain can do is [contextFor], untrusted context, and [proposeCandidates],
    held candidates.  [loadMemoryConfig] reads the deployment's switches and fails closed.
    The search of the Shared Brain is another service: a parameter. *)

From S2P Require Import Prelude JsNumber JsDate Digest Contracts Plan Capability Json Policy Approval Regex.
From S2P Require Import MemPolicy MemContext Memory MemInvariant MemReplay.
Local Open Scope Z_scope.
Local Open Scope js_scope.

(** ** memory-port.ts *)

Record MissionMemoryRequest := {
  mm_tenantId : string; mm_principal : PrincipalRef; mm_taskId : string; mm_stepId : string; mm_callId : string;
  mm_purpose : string; mm_project : string; mm_allowedClasses : option (list MemoryClass); mm_maxTokens : option Z
}.

Inductive PortStatus := PORT_ASSEMBLED | PORT_UNAVAILABLE.

Record MissionMemoryContext := {
  mmc_status : PortStatus; mmc_assemblyId : option string; mmc_digest : option string; mmc_text : string;
  mmc_memories : list (string * Z); mmc_externalCount : Z; mmc_usedTokens : Z
}.

Definition MISSION_MEMORY_CLASSES : list MemoryClass := [PREFERENCE; COMMITMENT; DECISION; FACT; LESSON; PROJECT_KNOWLEDGE].
Definition MISSION_MEMORY_BUDGET : ContextBudget := {| cb_maxItems := 12; cb_maxTokens := 1500 |}.

Definition NO_MEMORY : MissionMemoryContext :=
  {| mmc_status := PORT_ASSEMBLED; mmc_assemblyId := None; mmc_digest := None; mmc_text := EmptyString; mmc_memories := [];
     mmc_externalCount := 0; mmc_usedTokens := 0 |}.

Definition memoryEvidence (c : MissionMemoryContext) : json :=
  JObj [("status", JStr (match mmc_status c with PORT_ASSEMBLED => "ASSEMBLED" | PORT_UNAVAILABLE => "UNAVAILABLE" end));
        ("assembly_id", opt_json JStr (mmc_assemblyId c)); ("context_digest", opt_json JStr (mmc_digest c));
        ("memories", JArr (map (λ m, JObj [("memory_id", JStr m.1); ("version", JNum m.2)]) (mmc_memories c)));
        ("external_count", JNum (mmc_externalCount c)); ("used_tokens", JNum (mmc_usedTokens c))].

(** ** config.ts *)

(** [/^[0-9a-f]{8}-...$/]: lower case, any version. *)
Definition uuid_text (s : string) : bool :=
  let cs := String.list_ascii_of_string s in
  (Z.of_nat (length cs) =? 36) &&
  forallb (λ ic, if bool_decide (ic.1 ∈ [8; 13; 18; 23]%nat) then ic.2 === "-"%char else Sha256.is_hex ic.2) (imap pair cs).

Definition DEFAULT_MEMORY_APPROVAL_TTL_SECONDS : Z := 86400.

Record MemoryConfig := {
  mc_tenantId : string; mc_principalId : string; mc_approverId : option string; mc_approvalTtlSeconds : Z
}.

(** The number a text of digits writes. *)
Definition digits_value (s : string) : Z :=
  foldl (λ n c, 10 * n + (Z.of_N (N_of_ascii c) - 48)) 0 (String.list_ascii_of_string s).

Definition loadMemoryConfig (env : string → option string) : result (option MemoryConfig) :=
  match truthy (env "KJ_MEMORY_ENABLED") with
  | None => Ok None
  | Some flag =>
      if flag === "false" then Ok None
      else
        ensure (flag === "true") (js_error "KJ_MEMORY_ENABLED must be exactly true or false when set - refusing to guess");;
        let missing := List.filter (λ k, bool_decide (truthy (env k) = None))
          ["KJ_ADMISSION_TENANT_ID"; "KJ_ADMISSION_PRINCIPAL_ID"] in
        ensure (missing === [])
          (js_error ("KJ_MEMORY_ENABLED=true requires " +:+ join ", " missing +:+ " - refusing to start half-configured"));;
        let tenantId := default EmptyString (env "KJ_ADMISSION_TENANT_ID") in
        let principalId := default EmptyString (env "KJ_ADMISSION_PRINCIPAL_ID") in
        ensure (uuid_text tenantId && uuid_text principalId)
          (js_error "KJ_ADMISSION_TENANT_ID and KJ_ADMISSION_PRINCIPAL_ID must be UUIDs");;
        let approver := truthy (env "KJ_MEMORY_APPROVER_ID") in
        ensure (opt_ok uuid_text approver) (js_error "KJ_MEMORY_APPROVER_ID must be a UUID");;
        ttl ← match truthy (env "KJ_MEMORY_APPROVAL_TTL_SECONDS") with
          | None => Ok DEFAULT_MEMORY_APPROVAL_TTL_SECONDS
          | Some raw =>
              let n := Z.of_nat (String.length raw) in
              ensure ((2 <=? n) && (n <=? 6) && forallb is_num (String.list_ascii_of_string raw))
                (js_error "KJ_MEMORY_APPROVAL_TTL_SECONDS must be a whole number of seconds");;
              let ttl := digits_value raw in
              ensure ((60 <=? ttl) && (ttl <=? 604800)) (js_error "KJ_MEMORY_APPROVAL_TTL_SECONDS must be from 60 to 604800");;
              Ok ttl
          end;
        Ok (Some {| mc_tenantId := tenantId; mc_principalId := principalId; mc_approverId := approver;
                    mc_approvalTtlSeconds := ttl |})
  end.

(** The context every memory command runs as. *)
Definition configured_context (c : MemoryConfig) : TenantContext :=
  {| tc_tenantId := mc_tenantId c; tc_principal := {| principal_id := mc_principalId c; principal_kind := HUMAN |} |}.

(** ** sharedbrain.ts and mission-port.ts *)

Section edges.
Context {E : Type} `{KernelTables E}.
Context (toLowerCase : string → string) (nfc : string → string) (approvals : option (PromotionApprovals E)).
(** [SharedBrainPort.search]: tenant, text, limit. *)
Context (search : string → string → Z → result (list SharedBrainDocument)).

Definition contextFor (ctx : TenantContext) (text : string) (limit : Z) : result (list ExternalContextItem) :=
  docs ← search (tc_tenantId ctx) text limit; Ok (toExternalContext nfc docs limit []).

(** [s.padEnd(n, c)] *)
Definition pad_end (n : Z) (c : ascii) (s : string) : string :=
  s +:+ String.string_of_list_ascii (repeat c (Z.to_nat (n - js_length s))).

Definition document_submission (ctx : TenantContext) (doc : SharedBrainDocument) (class : MemoryClass) (body : string) : json :=
  let subject := default {| ms_kind := S_TENANT; ms_ref := tc_tenantId ctx |} (sb_subject doc) in
  JObj [("idempotencyKey", JStr (pad_end 8 "_" (slice16 200 ("shared-brain:" +:+ sb_ref doc))));
        ("class", JStr (class_name class)); ("content", JStr body); ("subject", subject_json subject);
        ("evidence", JArr [evidence_ref_json {| mer_type := EXTERNAL_DOCUMENT; mer_ref := slice16 200 (sb_ref doc);
                                                mer_digest := Some (Sha256.sha256_hex body) |}]);
        ("reason", JStr "proposed by the Shared Brain as external knowledge"); ("intent", JStr "NEW")].

(** The loop of [proposeCandidates]; a CONFLICT is skipped, any other error leaves the loop. *)
Fixpoint propose (ctx : TenantContext) (now : Z) (docs : list SharedBrainDocument) (submitted : list SubmissionResult)
    (skipped : Z) : prog (MemDb E) (list SubmissionResult * Z) :=
  match docs with
  | [] => mret (submitted, skipped)
  | doc :: rest =>
      let body := normalise nfc (sb_text doc) in
      match sb_kind doc, sb_proposedClass doc with
      | CANDIDATE_MEMORY, Some class =>
          if (js_length body =? 0) || (MAX_MEMORY_CONTENT_CHARS <? js_length body) then
            propose ctx now rest submitted (skipped + 1)
          else λ d,
            match submitExternalCandidate nfc approvals ctx (document_submission ctx doc class body) now d with
            | (d', Ok r) => propose ctx now rest (submitted ++ [r]) skipped d'
            | (d', Throw e) =>
                if exn_class e === "MemoryError.CONFLICT" then propose ctx now rest submitted (skipped + 1) d'
                else (d', Throw e)
            end
      | _, _ => propose ctx now rest submitted (skipped + 1)
      end
  end.

Definition proposeCandidates (ctx : TenantContext) (text : string) (limit now : Z)
  : prog (MemDb E) (list SubmissionResult * Z) :=
  docs ← lift_result (search (tc_tenantId ctx) text limit);
  propose ctx now docs [] 0.

Definition port_classes (input : MissionMemoryRequest) : list MemoryClass :=
  List.filter (λ c, match mm_allowedClasses input with None => true | Some l => bool_decide (c ∈ l) end) MISSION_MEMORY_CLASSES.

Definition port_tokens (input : MissionMemoryRequest) : Z :=
  Z.min (default (cb_maxTokens MISSION_MEMORY_BUDGET) (mm_maxTokens input)) (cb_maxTokens MISSION_MEMORY_BUDGET).

Definition port_request (input : MissionMemoryRequest) : json :=
  JObj [("purpose", JStr (mm_purpose input)); ("project", JStr (mm_project input));
        ("allowedClasses", JArr (map (λ c, JStr (class_name c)) (port_classes input)));
        ("budget", JObj [("maxItems", JNum (cb_maxItems MISSION_MEMORY_BUDGET)); ("maxTokens", JNum (port_tokens input))])].

(** [createMissionMemoryPort(memory, brain).assemble]: a Shared Brain that fails adds nothing. *)
Definition port_assemble (brain : bool) (input : MissionMemoryRequest) : prog (MemDb E) MissionMemoryContext :=
  let ctx := {| tc_tenantId := mm_tenantId input; tc_principal := mm_principal input |} in
  let external := if brain then match contextFor ctx (mm_purpose input) 3 with Ok l => l | Throw _ => [] end else [] in
  assembled ← assemble toLowerCase nfc ctx (port_request input)
    {| co_taskId := Some (mm_taskId input); co_stepId := Some (mm_stepId input); co_callId := Some (mm_callId input) |} external;
  mret {| mmc_status := PORT_ASSEMBLED; mmc_assemblyId := Some (ac_assemblyId assembled); mmc_digest := Some (ac_digest assembled);
          mmc_text := renderContext (ac_items assembled) (ac_external assembled);
          mmc_memories := map (λ i, (ci_memoryId i, ci_version i)) (ac_items assembled);
          mmc_externalCount := Z.of_nat (length (ac_external assembled)); mmc_usedTokens := ac_usedTokens assembled |}.

(** ** Properties *)

Lemma z_enum_class_name c : z_enum MEMORY_CLASSES (JStr (class_name c)) = Ok c.
Proof. by destruct c. Qed.

Lemma map_all_classes l : map_all (z_enum MEMORY_CLASSES) (map (λ c, JStr (class_name c)) l) = Ok l.
Proof.
  induction l as [|c l IH]; [done|]. cbn [map map_all]. rewrite z_enum_class_name. cbn [mbind result_bind].
  by rewrite IH.
Qed.

Lemma z_field_inv {A} fs k (schema : json → result A) v x : z_field fs k schema = Ok x → map_get fs k = Some v → schema v = Ok x.
Proof. unfold z_field. intros Hf Hm. by rewrite Hm in Hf. Qed.

Lemma z_array_ok {A} lo hi (schema : json → result A) l xs : z_array lo hi schema (JArr l) = Ok xs → map_all schema l = Ok xs.
Proof. cbn. intros (ys & Hy & Hx)%bind_ok. by apply ensure_ok in Hx as [_ <-%Ok_inj]. Qed.

Lemma z_int_ok lo hi n m : z_int lo hi (JNum n) = Ok m → m = n ∧ lo ≤ n ≤ hi.
Proof. cbn. intros [Hb <-%Ok_inj]%ensure_ok. to_prop. lia. Qed.

(** The request the port writes, read back. *)
Lemma port_request_parse input request :
  ContextRequest_parse (port_request input) = Ok request →
  cr_allowedClasses request = port_classes input ∧ cb_maxTokens (cr_budget request) = port_tokens input ∧
  cb_maxItems (cr_budget request) = 12.
Proof.
  unfold ContextRequest_parse, port_request. intros Hp. apply bind_ok in Hp as (fs & Hfs & Hp).
  cbn [z_strict] in Hfs. apply ensure_ok in Hfs as [_ <-%Ok_inj].
  apply bind_ok in Hp as (purpose & _ & Hp). apply bind_ok in Hp as (subject & _ & Hp).
  apply bind_ok in Hp as (project & _ & Hp). apply bind_ok in Hp as (classes & Hc & Hp).
  apply bind_ok in Hp as (budget & Hb & Hp).
  pose proof (z_field_inv _ _ _ _ _ Hc eq_refl) as Hc'. apply z_array_ok in Hc'.
  rewrite map_all_classes in Hc'. apply Ok_inj in Hc' as <-.
  pose proof (z_field_inv _ _ _ _ _ Hb eq_refl) as Hb'. cbn beta in Hb'. apply bind_ok in Hb' as (bs & Hbs & Hb').
  cbn [z_strict] in Hbs. apply ensure_ok in Hbs as [_ <-%Ok_inj]. apply bind_ok in Hb' as (items & Hi & Hb').
  apply bind_ok in Hb' as (tokens & Ht & <-%Ok_inj).
  pose proof (z_field_inv _ _ _ _ _ Hi eq_refl) as [-> _]%z_int_ok. pose proof (z_field_inv _ _ _ _ _ Ht eq_refl) as [-> _]%z_int_ok.
  unfold ContextRequest_check in Hp. do 3 (apply bind_ok in Hp as (? & _ & Hp)). by apply ensure_ok in Hp as [_ <-%Ok_inj].
Qed.

(** What [assemble] records: a row that holds the assembly it returns, unless the table had one with that id. *)
Definition assembly_recorded (input : MissionMemoryRequest) (a : AssembledContext) (d d' : MemDb E) : Prop :=
  (∃ row, md_assemblies d' = md_assemblies d ++ [row] ∧ as_context row = a ∧ as_principal row = principal_id (mm_principal input) ∧
     as_consumer row = {| co_taskId := Some (mm_taskId input); co_stepId := Some (mm_stepId input); co_callId := Some (mm_callId input) |}) ∨
  (md_assemblies d' = md_assemblies d ∧ ∃ row, row ∈ md_assemblies d ∧ ac_assemblyId (as_context row) = ac_assemblyId a).

Lemma assemble_recorded input raw external d d' a :
  assemble toLowerCase nfc {| tc_tenantId := mm_tenantId input; tc_principal := mm_principal input |} raw
    {| co_taskId := Some (mm_taskId input); co_stepId := Some (mm_stepId input); co_callId := Some (mm_callId input) |} external d = (d', Ok a) →
  assembly_recorded input a d d'.
Proof.
  unfold assemble. intros (request & d1 & [-> _]%lift_ok & H1)%pbind_ok.
  apply pbind_ok in H1 as ([] & d1 & [-> _]%check_ok & H1). apply withTenant_ok in H1 as [H1 _]. rewrite get_bind in H1.
  apply pbind_ok in H1 as (versions & d1 & [-> _]%lift_ok & H1). cbv zeta in H1.
  apply pbind_ok in H1 as (b & d1 & [-> _]%lift_ok & H1). apply pbind_ok in H1 as ([] & d2 & Hi & [-> ->]%ret_ok).
  unfold insert_assembly in Hi. rewrite get_bind in Hi. cbv zeta in Hi. apply pbind_ok in Hi as ([] & d1 & [-> _]%check_ok & Hi).
  destruct (existsb _ _) eqn:Ex.
  - apply ret_ok in Hi as [-> _]. right. split; [done|]. apply existsb_exists in Ex as (row & Hin%list_elem_of_In & Hid).
    exists row. split; [done|]. by apply bool_decide_eq_true in Hid.
  - left. injection Hi as <-. by eexists.
Qed.

(** C29: What a mission reads of memory is bounded whatever the mission or its faculty asks for: never an EPISODE or a
    RELATIONSHIP, only classes the faculty allows, at most twelve memories and at most 1,500 tokens.  What it is told it
    was given - the id, the digest, the text, the memories and their versions, the counts - is what one assembly holds,
    and the table of assemblies ends with a row for that assembly, in the name of the mission's principal, task, step and
    call; the table is left as it was only if it already had a row with that assembly's id. *)
Theorem mission_memory_bounded brain input d d' c :
  port_assemble brain input d = (d', Ok c) →
  mmc_usedTokens c ≤ 1500 ∧ Z.of_nat (length (mmc_memories c)) ≤ 12 ∧
  (∀ m n, (m, n) ∈ mmc_memories c → ∃ v, v ∈ md_versions d ∧ cm_memoryId v = m ∧ cm_version v = n ∧ current v d = true ∧
    cm_tenantId v = mm_tenantId input ∧ cm_class v ∈ MISSION_MEMORY_CLASSES ∧
    (∀ l, mm_allowedClasses input = Some l → cm_class v ∈ l)) ∧
  ∃ a, mmc_assemblyId c = Some (ac_assemblyId a) ∧ mmc_digest c = Some (ac_digest a) ∧
    mmc_text c = renderContext (ac_items a) (ac_external a) ∧
    mmc_memories c = map (λ i, (ci_memoryId i, ci_version i)) (ac_items a) ∧
    mmc_externalCount c = Z.of_nat (length (ac_external a)) ∧ mmc_usedTokens c = ac_usedTokens a ∧
    assembly_recorded input a d d'.
Proof.
  unfold port_assemble. cbv zeta. intros (a & d1 & Ha & [-> ->]%ret_ok)%pbind_ok. simpl.
  apply assemble_recorded in Ha as Hrecorded.
  apply assembled_scope in Ha as Hscope. destruct Hscope as (request & Hreq & Hitems).
  apply assemble_ok in Ha as (request' & versions & Hreq' & _ & _ & Hfrom & _).
  rewrite Hreq in Hreq'. apply Ok_inj in Hreq' as <-. destruct (port_request_parse _ _ Hreq) as (Ec & Et & Ei).
  destruct (assembled_within_budget _ _ _ _ _ _ _ _ Hfrom) as (E1 & E2 & _ & E4 & _ & _).
  rewrite Et in E4. unfold port_tokens in E4. simpl in E4. rewrite Ei, E1 in E2.
  split; [lia|]. split; [by rewrite length_map|]. split; [|by exists a].
  intros m n (i & Ei0 & Hi)%list_elem_of_fmap. injection Ei0 as -> ->.
  destruct (Hitems i Hi) as (v & ? & ? & ? & Hc & ? & ? & _). exists v. rewrite Ec in Hc.
  unfold port_classes in Hc. apply elem_of_filter_bool in Hc as [Hc Hl]. split_and!; try done.
  intros l El. rewrite El in Hl. by to_prop.
Qed.

(** The answer to a submission of an origin that cannot be trusted. *)
Definition not_promoted (r : SubmissionResult) : Prop :=
  sr_replayed r = true ∨ sr_decision r ∈ [D_HOLD; D_REFUSE] ∧ sr_memoryId r = None.

Lemma untrusted_not_promoted origin ctx raw now d d' r :
  origin = MODEL_PROPOSAL ∨ origin = SHARED_BRAIN →
  submit nfc approvals origin ctx raw now d = (d', Ok r) → not_promoted r ∧ md_versions d' = md_versions d.
Proof.
  intros Ho Hs. unfold submit in Hs. apply pbind_ok in Hs as (p & d1 & [-> _]%lift_ok & Hs).
  apply pbind_ok in Hs as (first & d1 & Hf & Hs). apply submit_first_same in Hf as Hd. subst d1.
  destruct first as [[replay|] needed]; cbn [fst snd] in Hs.
  - apply ret_ok in Hs as [-> ->]. split; [left|done]. unfold submit_first in Hf. apply withTenant_ok in Hf as [Hf _].
    apply pbind_ok in Hf as (o & d2 & He & Hf). apply existing_ok in He as Hd. subst d2. destruct o as [r0|].
    + apply ret_ok in Hf as [_ [= <-]]. apply existing_replayed in He. by rewrite <- He.
    + rewrite get_bind in Hf. by apply ret_ok in Hf as [_ [= _]].
  - apply pbind_ok in Hs as (a & d2 & Hq & Hs). apply request_approval_same in Hq as [e ->].
    destruct (decided_promotable origin ctx p a (set_kernel e d)) as (Hprom & _ & Hallow). cbv zeta in *.
    apply submit_second_ok in Hs as [[-> He]|[_ Hrec]]; [split; [left|done]; apply existing_replayed in He; by rewrite <- He|].
    cbv zeta in Hrec. set (verdict := decided origin ctx p a (set_kernel e d)) in *.
    destruct (recordDecision_ok _ _ _ _ _ _ _ _ Hrec) as (res & d3 & -> & Hsome & _ & Hd3 & ->).
    assert (Hns : STATE_FOR (vd_decision verdict) ∉ [PROMOTED; AWAITING_APPROVAL]).
    { intros Hin. destruct (Hprom Hin) as [_ Hp]. by destruct Ho as [-> | ->]. }
    assert (res = None) as ->.
    { destruct res; [|done]. destruct Hns. apply proj1 in Hsome. specialize (Hsome (ex_intro _ _ eq_refl)).
      apply Hallow in Hsome. rewrite Hsome. left. }
    apply recorded_rows in Hd3 as (_ & _ & [[_ Hv]|(m & n & v & Er & _)]); [|done]. split; [right; split; [|done]|exact Hv].
    pose proof (settled_decisions origin ctx p a (set_kernel e d)) as Hd. fold verdict in Hd. cbn [sr_decision].
    apply elem_of_cons in Hd as [Hd|Hd]; [destruct Hns; rewrite Hd; left|].
    apply elem_of_cons in Hd as [Hd|Hd]; [destruct Hns; rewrite Hd; right; left|exact Hd].
Qed.

Lemma propose_not_promoted ctx now docs : ∀ submitted skipped d d' r,
  Forall not_promoted submitted → propose ctx now docs submitted skipped d = (d', r) →
  md_versions d' = md_versions d ∧ ∀ rs n, r = Ok (rs, n) → Forall not_promoted rs.
Proof.
  induction docs as [|doc docs IH]; intros submitted skipped d d' r Hf; cbn [propose].
  { intros [= <- <-]. split; [done|]. by intros rs n [= <- _]. }
  assert (Hskip : propose ctx now docs submitted (skipped + 1) d = (d', r) →
    md_versions d' = md_versions d ∧ ∀ rs n, r = Ok (rs, n) → Forall not_promoted rs) by (intros Hp; exact (IH _ _ _ _ _ Hf Hp)).
  destruct (sb_kind doc); [exact Hskip| |exact Hskip]. destruct (sb_proposedClass doc) as [class|]; [|exact Hskip].
  destruct (_ || _); [exact Hskip|]. generalize (document_submission ctx doc class (normalise nfc (sb_text doc))) as raw. intros raw.
  destruct (submitExternalCandidate _ _ _ _ _ d) as [d1 [x|e]] eqn:Es; unfold submitExternalCandidate in Es.
  - apply untrusted_not_promoted in Es as [Hx <-]; [|by right]. intros Hp. eapply IH; [|exact Hp].
    apply Forall_app. split; [done|]. by apply Forall_singleton.
  - apply submit_cases in Es as [(_ & _ & <-)|(? & ? & ? & ? & ? & _)]; [|done].
    destruct (_ === _); [intros Hp; exact (IH _ _ _ _ _ Hf Hp)|]. intros [= <- <-]. split; [done|]. by intros ?? [=].
Qed.

(** The Shared Brain never writes canonical memory: whatever it returns and however the round ends, no version is added,
    and every answer it gets is a held or refused candidate, or the replay of an earlier answer. *)
Theorem shared_brain_never_promotes ctx text limit now d d' r :
  proposeCandidates ctx text limit now d = (d', r) →
  md_versions d' = md_versions d ∧ ∀ rs n, r = Ok (rs, n) → Forall not_promoted rs.
Proof.
  unfold proposeCandidates. unfold mbind, prog_bind, lift_result. destruct (search _ _ _) as [docs|].
  - by apply propose_not_promoted.
  - intros [= <- <-]. split; [done|]. by intros ?? [=].
Qed.
End edges.

(** Memory is served only when it is switched on completely: the flag is exactly "true", both identities are UUIDs, a
    named approver is one, and an approval's deadline is between a minute and a week. *)
Theorem memory_config_complete env c :
  loadMemoryConfig env = Ok (Some c) →
  env "KJ_MEMORY_ENABLED" = Some "true" ∧
  env "KJ_ADMISSION_TENANT_ID" = Some (mc_tenantId c) ∧ env "KJ_ADMISSION_PRINCIPAL_ID" = Some (mc_principalId c) ∧
  uuid_text (mc_tenantId c) = true ∧ uuid_text (mc_principalId c) = true ∧ opt_ok uuid_text (mc_approverId c) = true ∧
  60 ≤ mc_approvalTtlSeconds c ≤ 604800 ∧ principal_kind (tc_principal (configured_context c)) = HUMAN.
Proof.
  assert (Ht : ∀ o s, truthy o = Some s → o = Some s).
  { intros [x|] s; simpl; [|done]. by destruct (decide _). }
  unfold loadMemoryConfig. destruct (truthy (env "KJ_MEMORY_ENABLED")) as [flag|] eqn:Ef; [|done].
  destruct (flag === "false"); [done|]. intros [Hflag H1]%ensure_ok. to_prop. subst flag.
  apply ensure_ok in H1 as [Hm H1]. to_prop. apply ensure_ok in H1 as [Hu H1]. apply ensure_ok in H1 as [Ha H1].
  apply bind_ok in H1 as (ttl & Httl & [= <-]%Ok_inj). apply andb_true_iff in Hu as [Hu1 Hu2]. simpl.
  assert (Hsome : ∀ k, uuid_text (default EmptyString (env k)) = true → env k = Some (default EmptyString (env k))).
  { intros k Hk. destruct (env k); [done|]. by cbn in Hk. }
  split_and!; auto; destruct (truthy (env "KJ_MEMORY_APPROVAL_TTL_SECONDS")) as [raw|];
    try (apply Ok_inj in Httl as <-; unfold DEFAULT_MEMORY_APPROVAL_TTL_SECONDS; lia);
    apply ensure_ok in Httl as [_ Httl]; apply ensure_ok in Httl as [Hr <-%Ok_inj]; to_prop; lia.
Qed.

Definition sample_env (k : string) : option string :=
  if k === "KJ_MEMORY_ENABLED" then Some "true"
  else if k === "KJ_ADMISSION_TENANT_ID" then Some (sample_id 1)
  else if k === "KJ_ADMISSION_PRINCIPAL_ID" then Some (sample_id 2)
  else if k === "KJ_MEMORY_APPROVAL_TTL_SECONDS" then Some "3600" else None.

Lemma memory_config_complete_witness :
  ∃ c, loadMemoryConfig sample_env = Ok (Some c) ∧ 60 ≤ mc_approvalTtlSeconds c ≤ 604800.
Proof.
  eexists. split; [vm_compute; reflexivity|].
  eapply (memory_config_complete sample_env). vm_compute. reflexivity.
Defined.

Import MemorySample.

Definition sample_document : SharedBrainDocument :=
  {| sb_ref := "note-1"; sb_kind := CANDIDATE_MEMORY; sb_text := " The owner likes Rocq "; sb_proposedClass := Some PREFERENCE;
     sb_subject := None |}.

Lemma shared_brain_never_promotes_witness :
  md_versions (proposeCandidates (λ s, s) None (λ _ _ _, Ok [sample_document]) ctx "owner" 5 1789488000000 start).1 = [] ∧
  length (md_candidates (proposeCandidates (λ s, s) None (λ _ _ _, Ok [sample_document]) ctx "owner" 5 1789488000000 start).1) = 1%nat.
Proof.
  pose proof (shared_brain_never_promotes (λ s, s) None (λ _ _ _, Ok [sample_document]) ctx "owner" 5 1789488000000 start _ _
    (surjective_pairing _)) as [H1 _].
  split; [exact H1|vm_compute; reflexivity].
Defined.

Definition sample_mission : MissionMemoryRequest :=
  {| mm_tenantId := tenant; mm_principal := operator; mm_taskId := sample_id 5; mm_stepId := sample_id 6;
     mm_callId := sample_id 7; mm_purpose := "How should the report be written?"; mm_project := "jonnyallum/kerneljson";
     mm_allowedClasses := None; mm_maxTokens := Some 9000 |}.

Definition remembering : MemDb Kernel := (submit (λ s, s) None OPERATOR_INSTRUCTION ctx preference 1789488000000 start).1.

Lemma mission_memory_bounded_witness :
  match port_assemble sample_lower (λ s, s) (λ _ _ _, Throw (js_error "down")) true sample_mission remembering with
  | (d', Ok c) => length (mmc_memories c) = 1%nat ∧ mmc_usedTokens c ≤ 1500 ∧
      ∃ a, mmc_assemblyId c = Some (ac_assemblyId a) ∧ assembly_recorded sample_mission a remembering d'
  | _ => False
  end.
Proof.
  assert (Hok : (λ c, length (mmc_memories c)) <$>
    (port_assemble sample_lower (λ s, s) (λ _ _ _, Throw (js_error "down")) true sample_mission remembering).2 = Ok 1%nat)
    by (vm_compute; reflexivity).
  destruct (port_assemble _ _ _ true sample_mission remembering) as [d' [c|]] eqn:Ep; [|discriminate Hok].
  apply Ok_inj in Hok. split; [exact Hok|].
  destruct (mission_memory_bounded sample_lower (λ s, s) _ _ _ _ _ _ Ep) as (H1 & _ & _ & a & H2 & _ & _ & _ & _ & _ & H3).
  split; [exact H1|]. exists a. split; [exact H2|exact H3].
Defined.
