(* ===== verification/Model.v ===== *)
(** * Model calls: the port contract and the chat-completions adapter
    (packages/contracts/src/model.ts; packages/models/src: port.ts, digest.ts, chat-completions.ts,
    deepseek.ts, openrouter.ts; services/kernel/src/models.ts)

    A [ModelRequest] goes out through a [ModelPort]; what comes back is a text with a
    receipt, or a sanitised failure with a receipt.  [generate] is the adapter of an
    OpenAI-compatible endpoint: one exchange with the transport is the Record [Exchange],
    which says what [fetch] did, what the body stream yielded and when the abort signals
    fired.  [validateModelResult] is the kernel's check at the other side of the port and
    [callModel] the two journaled steps around it.  The theorems: whatever the transport
    does, the adapter's answer passes the kernel's check and never repeats a byte of a
    refused response; an accepted result is bound to its request. *)

From S2P Require Import Prelude JsNumber JsDate Digest Contracts Plan Capability Json.
Local Open Scope Z_scope.
Local Open Scope js_scope.

(** ** model.ts *)

(** [/^[a-zA-Z0-9][a-zA-Z0-9._:/-]{0,255}$/] *)
Definition Label_ok (s : string) : bool :=
  match s with
  | String c _ => (is_alpha c || is_num c) && token_ok ["."; "_"; ":"; "/"; "-"]%char 256 s
  | EmptyString => false
  end.

(** [z.number().int().nonnegative().max(Number.MAX_SAFE_INTEGER)] *)
Definition Count_ok (n : Z) : bool := (0 <=? n) && (n <=? max_safe).

Inductive MessageRole := R_system | R_user | R_assistant.

#[export] Instance MessageRole_eq_dec : EqDecision MessageRole.
Proof. solve_decision. Defined.

Definition role_name (r : MessageRole) : string :=
  match r with R_system => "system" | R_user => "user" | R_assistant => "assistant" end.

Record Message := { msg_role : MessageRole; msg_content : string }.

#[export] Instance Message_eq_dec : EqDecision Message.
Proof. solve_decision. Defined.

Record ModelRequest := {
  mq_callId : string; mq_taskId : string; mq_stepId : string; mq_trace : TraceRef;
  mq_messages : list Message; mq_maxOutputTokens : Z
}.

Definition prompt_length (l : list Message) : Z := foldr (λ m n, js_length (msg_content m) + n) 0 l.

Definition ModelRequest_parse (r : ModelRequest) : result ModelRequest :=
  ok_or (Id_ok (mq_callId r) && Id_ok (mq_taskId r) && Id_ok (mq_stepId r)) "request ids";;
  trace ← TraceRef_parse (mq_trace r);
  ok_or (forallb (λ m, (1 <=? js_length (msg_content m)) && (js_length (msg_content m) <=? 128000)) (mq_messages r)
         && (1 <=? Z.of_nat (length (mq_messages r))) && (Z.of_nat (length (mq_messages r)) <=? 64)
         && (1 <=? mq_maxOutputTokens r) && (mq_maxOutputTokens r <=? 8192)) "request fields";;
  ok_or (prompt_length (mq_messages r) <=? 128000) "Combined prompt exceeds the port limit";;
  Ok {| mq_callId := mq_callId r; mq_taskId := mq_taskId r; mq_stepId := mq_stepId r; mq_trace := trace;
        mq_messages := mq_messages r; mq_maxOutputTokens := mq_maxOutputTokens r |}.

Record ModelUsage := { mu_inputTokens : Z; mu_outputTokens : Z; mu_totalTokens : Z }.

Definition ModelUsage_ok (u : ModelUsage) : bool :=
  Count_ok (mu_inputTokens u) && Count_ok (mu_outputTokens u) && Count_ok (mu_totalTokens u) &&
  (mu_totalTokens u =? mu_inputTokens u + mu_outputTokens u).

Inductive ModelErrorCode :=
  | AUTHENTICATION | INSUFFICIENT_BALANCE | RATE_LIMIT | PROVIDER_UNAVAILABLE | REQUEST_REJECTED | NETWORK | TIMEOUT
  | CANCELLED | RESPONSE_TOO_LARGE | MALFORMED_RESPONSE | OUTPUT_LIMIT | CONTENT_FILTER | UNSUPPORTED_RESPONSE.

#[export] Instance ModelErrorCode_eq_dec : EqDecision ModelErrorCode.
Proof. solve_decision. Defined.

Definition error_code_name (c : ModelErrorCode) : string :=
  match c with
  | AUTHENTICATION => "AUTHENTICATION" | INSUFFICIENT_BALANCE => "INSUFFICIENT_BALANCE" | RATE_LIMIT => "RATE_LIMIT"
  | PROVIDER_UNAVAILABLE => "PROVIDER_UNAVAILABLE" | REQUEST_REJECTED => "REQUEST_REJECTED" | NETWORK => "NETWORK"
  | TIMEOUT => "TIMEOUT" | CANCELLED => "CANCELLED" | RESPONSE_TOO_LARGE => "RESPONSE_TOO_LARGE"
  | MALFORMED_RESPONSE => "MALFORMED_RESPONSE" | OUTPUT_LIMIT => "OUTPUT_LIMIT" | CONTENT_FILTER => "CONTENT_FILTER"
  | UNSUPPORTED_RESPONSE => "UNSUPPORTED_RESPONSE"
  end.

Record ModelFailure := {
  mf_code : ModelErrorCode; mf_retryable : bool; mf_mayHaveRun : bool; mf_httpStatus : option Z
}.

Definition ModelFailure_ok (f : ModelFailure) : bool := opt_ok (λ n, (100 <=? n) && (n <=? 599)) (mf_httpStatus f).

Record ReceiptBase := {
  rb_callId : string; rb_taskId : string; rb_stepId : string; rb_trace : TraceRef; rb_provider : string;
  rb_model : string; rb_requestDigest : string; rb_finishedAt : string; rb_durationMs : Z
}.

Definition ReceiptBase_parse (b : ReceiptBase) : result ReceiptBase :=
  ok_or (Id_ok (rb_callId b) && Id_ok (rb_taskId b) && Id_ok (rb_stepId b)) "receipt ids";;
  trace ← TraceRef_parse (rb_trace b);
  ok_or (Label_ok (rb_provider b) && Label_ok (rb_model b) && Digest_ok (rb_requestDigest b)
         && Timestamp_ok (rb_finishedAt b) && Count_ok (rb_durationMs b)) "receipt fields";;
  Ok {| rb_callId := rb_callId b; rb_taskId := rb_taskId b; rb_stepId := rb_stepId b; rb_trace := trace;
        rb_provider := rb_provider b; rb_model := rb_model b; rb_requestDigest := rb_requestDigest b;
        rb_finishedAt := rb_finishedAt b; rb_durationMs := rb_durationMs b |}.

Record SuccessReceipt := {
  sr_base : ReceiptBase; sr_providerRequestId : string; sr_responseModel : string; sr_usage : ModelUsage;
  sr_outputDigest : string
}.
Record FailedReceipt := { fr_base : ReceiptBase; fr_error : ModelFailure }.

Definition SuccessReceipt_parse (r : SuccessReceipt) : result SuccessReceipt :=
  b ← ReceiptBase_parse (sr_base r);
  ok_or (Label_ok (sr_providerRequestId r) && Label_ok (sr_responseModel r) && ModelUsage_ok (sr_usage r)
         && Digest_ok (sr_outputDigest r)) "success receipt";;
  Ok {| sr_base := b; sr_providerRequestId := sr_providerRequestId r; sr_responseModel := sr_responseModel r;
        sr_usage := sr_usage r; sr_outputDigest := sr_outputDigest r |}.

Definition FailedReceipt_parse (r : FailedReceipt) : result FailedReceipt :=
  b ← ReceiptBase_parse (fr_base r);
  ok_or (ModelFailure_ok (fr_error r)) "failed receipt";;
  Ok {| fr_base := b; fr_error := fr_error r |}.

(** [ModelCallResult]; the receipt of either kind is a [ModelCallReceipt]. *)
Inductive ModelCallReceipt :=
  | SucceededReceipt (r : SuccessReceipt)
  | FailedCallReceipt (r : FailedReceipt).
Inductive ModelCallResult :=
  | CallSucceeded (text : string) (r : SuccessReceipt)
  | CallFailed (r : FailedReceipt).

Definition ModelCallResult_parse (r : ModelCallResult) : result ModelCallResult :=
  match r with
  | CallSucceeded text s =>
      ok_or (text !== EmptyString) "text";; s' ← SuccessReceipt_parse s; Ok (CallSucceeded text s')
  | CallFailed f => f' ← FailedReceipt_parse f; Ok (CallFailed f')
  end.

(** [result.receipt] *)
Definition receipt_of (r : ModelCallResult) : ModelCallReceipt :=
  match r with CallSucceeded _ s => SucceededReceipt s | CallFailed f => FailedCallReceipt f end.

(** The fields both kinds of receipt share. *)
Definition base_of (r : ModelCallResult) : ReceiptBase :=
  match r with CallSucceeded _ s => sr_base s | CallFailed f => fr_base f end.

(** ** digest.ts and the JSON of a request *)

Definition modelDigest (v : json) : string := Sha256.sha256_hex (stringify v).

Definition message_json (m : Message) : json :=
  JObj [("role", JStr (role_name (msg_role m))); ("content", JStr (msg_content m))].

Definition request_json (r : ModelRequest) : json :=
  JObj [("callId", JStr (mq_callId r)); ("taskId", JStr (mq_taskId r)); ("stepId", JStr (mq_stepId r));
        ("trace", trace_json (mq_trace r)); ("messages", JArr (map message_json (mq_messages r)));
        ("maxOutputTokens", JNum (mq_maxOutputTokens r))].

(** [modelDigest({ provider, model, request })] *)
Definition call_digest (provider model : string) (r : ModelRequest) : string :=
  modelDigest (JObj [("provider", JStr provider); ("model", JStr model); ("request", request_json r)]).

(** ** port.ts *)

Definition receipt_matches (request : ModelRequest) (r : ModelCallResult) : bool :=
  let b := base_of r in
  (rb_callId b === mq_callId request) && (rb_taskId b === mq_taskId request) && (rb_stepId b === mq_stepId request) &&
  (stringify (trace_json (rb_trace b)) === stringify (trace_json (mq_trace request))) &&
  (rb_requestDigest b === call_digest (rb_provider b) (rb_model b) request) &&
  match r with
  | CallSucceeded text s => sr_outputDigest s === modelDigest (JStr text)
  | CallFailed _ => true
  end.

Definition validateModelResult (rawRequest : ModelRequest) (raw : ModelCallResult) : result ModelCallResult :=
  request ← ModelRequest_parse rawRequest;
  r ← ModelCallResult_parse raw;
  ensure (receipt_matches request r) (js_error "Model receipt does not match its request/result");;
  Ok r.

(** ** models.ts *)

(** [callModel(ctx, port, raw, record)]: the port's answer, or its throw, is journaled under
    the call's id; then the receipt is recorded. *)
Definition callModel {S} (generate : ModelRequest → prog S ModelCallResult) (record : ModelCallReceipt → prog S unit)
    (raw : ModelRequest) : prog S ModelCallResult :=
  request ← lift_result (ModelRequest_parse raw);
  answer ← (λ s, match (r ← generate request; lift_result (validateModelResult request r)) s with
                 | (s', Ok r) => (s', Ok r)
                 | (s', Throw _) => (s', Throw (Exn "TerminalError" "ModelPort failed its result contract"))
                 end);
  parsed ← lift_result (ModelCallResult_parse answer);
  record (receipt_of parsed);;
  mret parsed.

(** ** chat-completions.ts *)

Definition MaxResponseBytes : Z := 1048576.

Record ChatCompletionsConfig := {
  cc_provider : string; cc_endpoint : string; cc_apiKey : string; cc_model : string; cc_timeoutMs : option Z;
  cc_invalidConfigMessage : string; cc_extraBody : list (string * json); cc_extraHeaders : list (string * string)
}.

(** [/^[^\s]+$/]: no code point of white space, and not empty. *)
Definition key_ok (s : string) : bool :=
  negb (s === EmptyString) &&
  negb (existsb (λ cp, bool_decide (cp ∈ js_spaces)) (code_points (Sha256.string_bytes s))).

(** The constructor's own checks. *)
Definition createChatCompletionsPort_check (c : ChatCompletionsConfig) : result unit :=
  ensure (key_ok (cc_apiKey c) && Label_ok (cc_model c)) (js_error (cc_invalidConfigMessage c));;
  let t := default 30000 (cc_timeoutMs c) in
  ensure ((10 <=? t) && (t <=? 120000)) (js_error "Invalid model timeout").

(** A chunk of the body, or the reader's throw. *)
Inductive Chunk := ChunkBytes (s : string) | ChunkThrows.

Record Response := { rsp_status : Z; rsp_body : option (list Chunk) }.

(** One exchange: whether the caller had already aborted; what [fetch] gave; and, for a throw
    of [fetch] or of the body, which signals had fired by then. *)
Record Exchange := {
  ex_aborted : bool; ex_response : option Response; ex_aborted_by : bool; ex_expired_by : bool;
  ex_finishedAt : Z; ex_durationMs : Z
}.

Definition response_limit : exn := Exn "ResponseLimit" EmptyString.

Fixpoint read_chunks (bytes : Z) (read : string) (chunks : list Chunk) : result string :=
  match chunks with
  | [] => Ok read
  | ChunkThrows :: _ => Throw (Exn "TypeError" EmptyString)
  | ChunkBytes s :: rest =>
      let n := bytes + Z.of_nat (String.length s) in
      ensure (n <=? MaxResponseBytes) response_limit;;
      read_chunks n (read +:+ s) rest
  end.

Inductive FinishReason := FR_stop | FR_length | FR_content_filter | FR_tool_calls | FR_insufficient.

#[export] Instance FinishReason_eq_dec : EqDecision FinishReason.
Proof. solve_decision. Defined.

Definition FINISH_REASONS : list (string * FinishReason) :=
  [("stop", FR_stop); ("length", FR_length); ("content_filter", FR_content_filter); ("tool_calls", FR_tool_calls);
   ("insufficient_system_resource", FR_insufficient)].

Record Choice := { ch_finish : FinishReason; ch_content : option string; ch_tool_calls : option (list json) }.
Record Completion := { cp_id : string; cp_model : string; cp_choice : Choice; cp_usage : ModelUsage }.

(** [z.object({...})]: unknown keys are dropped. *)
Definition z_object (v : json) : result fields :=
  match v with JObj fs => Ok fs | _ => Throw (zod_error "invalid_type") end.

Definition z_tokens : json → result Z := z_int 0 max_safe.

Definition any_array (v : json) : result (list json) :=
  match v with JArr l => Ok l | _ => Throw (zod_error "invalid_type") end.

Definition Choice_parse (v : json) : result Choice :=
  fs ← z_object v;
  z_field fs "index" (z_number 0);;
  finish ← z_field fs "finish_reason" (z_enum FINISH_REASONS);
  message ← z_field fs "message" z_object;
  z_field message "role" (z_literal "assistant");;
  content ← z_field message "content" (z_nullable (z_string (λ _, true)));
  tools ← z_optional message "tool_calls" any_array;
  Ok {| ch_finish := finish; ch_content := content; ch_tool_calls := tools |}.

Definition Usage_parse (v : json) : result ModelUsage :=
  fs ← z_object v;
  p ← z_field fs "prompt_tokens" z_tokens;
  c ← z_field fs "completion_tokens" z_tokens;
  t ← z_field fs "total_tokens" z_tokens;
  ok_or (t =? p + c) "usage";;
  Ok {| mu_inputTokens := p; mu_outputTokens := c; mu_totalTokens := t |}.

Definition ProviderResponse_parse (v : json) : result Completion :=
  fs ← z_object v;
  id ← z_field fs "id" (z_string Label_ok);
  z_field fs "object" (z_literal "chat.completion");;
  model ← z_field fs "model" (z_string Label_ok);
  choices ← z_field fs "choices" (z_array 1 1 Choice_parse);
  usage ← z_field fs "usage" Usage_parse;
  match choices with
  | c :: _ => Ok {| cp_id := id; cp_model := model; cp_choice := c; cp_usage := usage |}
  | [] => Throw (zod_error "choices")
  end.

Section adapter.
(** [JSON.parse] of the body's bytes: a provider's answer may hold numbers that are no
    integers in fields the adapter does not read, which [json] does not have. *)
Context (read_json : string → result json) (config : ChatCompletionsConfig).

(** [boundedJson(response)] *)
Definition boundedJson (r : Response) : result json :=
  match rsp_body r with
  | None => Throw (js_error "Missing response body")
  | Some chunks => text ← read_chunks 0 EmptyString chunks; read_json text
  end.

(** The body of the request: what the transport is asked to send. *)
Definition request_body (request : ModelRequest) : json :=
  JObj (fold_left (λ m kv, map_set m kv.1 kv.2) (cc_extraBody config)
    [("model", JStr (cc_model config)); ("messages", JArr (map message_json (mq_messages request)));
     ("max_tokens", JNum (mq_maxOutputTokens request)); ("stream", JBool false)]).

Definition finish (request : ModelRequest) (x : Exchange) : ReceiptBase :=
  {| rb_callId := mq_callId request; rb_taskId := mq_taskId request; rb_stepId := mq_stepId request;
     rb_trace := mq_trace request; rb_provider := cc_provider config; rb_model := cc_model config;
     rb_requestDigest := call_digest (cc_provider config) (cc_model config) request;
     rb_finishedAt := toISOString (ex_finishedAt x); rb_durationMs := ex_durationMs x |}.

Definition fail_call (request : ModelRequest) (x : Exchange) (code : ModelErrorCode) (retryable mayHaveRun : bool)
    (httpStatus : option Z) : result ModelCallResult :=
  ModelCallResult_parse (CallFailed {| fr_base := finish request x;
    fr_error := {| mf_code := code; mf_retryable := retryable; mf_mayHaveRun := mayHaveRun; mf_httpStatus := httpStatus |} |}).

(** A status outside 200-299; the body is not read. *)
Definition refused_status (request : ModelRequest) (x : Exchange) (status : Z) : result ModelCallResult :=
  let fail code retryable ran := fail_call request x code retryable ran (Some status) in
  if (status =? 401) || (status =? 403) then fail AUTHENTICATION false false
  else if status =? 402 then fail INSUFFICIENT_BALANCE false false
  else if status =? 429 then fail RATE_LIMIT true false
  else if 500 <=? status then fail PROVIDER_UNAVAILABLE true true
  else fail REQUEST_REJECTED false false.

(** What a completion that parses is worth. *)
Definition completed_call (request : ModelRequest) (x : Exchange) (c : Completion) : result ModelCallResult :=
  let fail code retryable := fail_call request x code retryable true None in
  let choice := cp_choice c in
  if ch_finish choice === FR_length then fail OUTPUT_LIMIT false
  else if ch_finish choice === FR_content_filter then fail CONTENT_FILTER false
  else if ch_finish choice === FR_insufficient then fail PROVIDER_UNAVAILABLE true
  else if (ch_finish choice === FR_tool_calls) || match ch_tool_calls choice with Some (_ :: _) => true | _ => false end
  then fail UNSUPPORTED_RESPONSE false
  else
    let text := default EmptyString (ch_content choice) in
    if js_trim text === EmptyString then fail MALFORMED_RESPONSE false
    else
      receipt ← SuccessReceipt_parse
        {| sr_base := finish request x; sr_providerRequestId := cp_id c; sr_responseModel := cp_model c;
           sr_usage := cp_usage c; sr_outputDigest := modelDigest (JStr text) |};
      ModelCallResult_parse (CallSucceeded text receipt).

Definition generate (raw : ModelRequest) (x : Exchange) : result ModelCallResult :=
  match ModelRequest_parse raw with
  | Throw _ => Throw (js_error "Invalid ModelRequest")
  | Ok request =>
      let fail code retryable ran := fail_call request x code retryable ran None in
      if ex_aborted x then fail CANCELLED false false
      else
        match ex_response x with
        | None =>
            if ex_aborted_by x then fail CANCELLED false true
            else if ex_expired_by x then fail TIMEOUT true true else fail NETWORK true true
        | Some response =>
            if negb ((200 <=? rsp_status response) && (rsp_status response <=? 299))
            then refused_status request x (rsp_status response)
            else
              match boundedJson response with
              | Throw e =>
                  if ex_aborted_by x then fail CANCELLED false true
                  else if ex_expired_by x then fail TIMEOUT true true
                  else fail (if exn_class e === "ResponseLimit" then RESPONSE_TOO_LARGE else MALFORMED_RESPONSE) false true
              | Ok value =>
                  match ProviderResponse_parse value with
                  | Throw _ => fail MALFORMED_RESPONSE false true
                  | Ok data => completed_call request x data
                  end
              end
        end
  end.
End adapter.

(** deepseek.ts and openrouter.ts *)
Definition DeepSeekPort_config (apiKey model : string) (timeoutMs : option Z) : ChatCompletionsConfig :=
  {| cc_provider := "deepseek"; cc_endpoint := "https://api.deepseek.com/chat/completions"; cc_apiKey := apiKey;
     cc_model := model; cc_timeoutMs := timeoutMs;
     cc_invalidConfigMessage := "Invalid DeepSeek configuration; inject credentials from jVault kerneljson";
     cc_extraBody := [("thinking", JObj [("type", JStr "disabled")])]; cc_extraHeaders := [] |}.

Definition OpenRouterPort_config (apiKey model : string) (timeoutMs : option Z) : ChatCompletionsConfig :=
  {| cc_provider := "openrouter"; cc_endpoint := "https://openrouter.ai/api/v1/chat/completions"; cc_apiKey := apiKey;
     cc_model := model; cc_timeoutMs := timeoutMs;
     cc_invalidConfigMessage := "Invalid OpenRouter configuration; inject credentials from jVault, never from a task";
     cc_extraBody := []; cc_extraHeaders := [("x-title", "KernelJSON")] |}.

(** ** Facts *)

Lemma TraceRef_parse_idem t t' : TraceRef_parse t = Ok t' → TraceRef_parse t' = Ok t'.
Proof.
  unfold TraceRef_parse, ok_or. intros [H1 H]%ensure_ok. destruct (tr_spanId t) as [s|] eqn:Es.
  - apply bind_ok in H as (s' & Hs%Text_parse_idem & <-%Ok_inj). cbn [tr_traceId tr_correlationId tr_spanId].
    rewrite H1. cbn [ensure mbind result_bind]. by rewrite Hs.
  - apply Ok_inj in H as <-. rewrite H1. cbn [ensure mbind result_bind]. by rewrite Es.
Qed.

Lemma ModelRequest_parse_trace r r' : ModelRequest_parse r = Ok r' → TraceRef_parse (mq_trace r') = Ok (mq_trace r').
Proof.
  unfold ModelRequest_parse, ok_or. intros [_ H]%ensure_ok. apply bind_ok in H as (t & Ht & H).
  apply ensure_ok in H as [_ H]. apply ensure_ok in H as [_ <-%Ok_inj]. by eapply TraceRef_parse_idem.
Qed.

Lemma ModelRequest_parse_ids r r' : ModelRequest_parse r = Ok r' →
  Id_ok (mq_callId r') && Id_ok (mq_taskId r') && Id_ok (mq_stepId r') = true.
Proof.
  unfold ModelRequest_parse, ok_or. intros [Hi H]%ensure_ok. apply bind_ok in H as (t & Ht & H).
  apply ensure_ok in H as [_ H]. by apply ensure_ok in H as [_ <-%Ok_inj].
Qed.

(** What parsing leaves alone. *)
Lemma ModelRequest_parse_fields r r' : ModelRequest_parse r = Ok r' →
  mq_callId r' = mq_callId r ∧ mq_taskId r' = mq_taskId r ∧ mq_stepId r' = mq_stepId r ∧
  mq_messages r' = mq_messages r ∧ mq_maxOutputTokens r' = mq_maxOutputTokens r.
Proof.
  unfold ModelRequest_parse, ok_or. intros [_ H]%ensure_ok. apply bind_ok in H as (t & Ht & H).
  apply ensure_ok in H as [_ H]. by apply ensure_ok in H as [_ <-%Ok_inj].
Qed.

Section port.
Context (read_json : string → result json) (config : ChatCompletionsConfig).
Context (request : ModelRequest) (x : Exchange).
(** What the deployment and the clock provide. *)
Context (Hconfig : Label_ok (cc_provider config) = true ∧ Label_ok (cc_model config) = true).
Context (Hclock : iso_range (ex_finishedAt x) ∧ Count_ok (ex_durationMs x) = true).
(** The request has been parsed. *)
Context (Htrace : TraceRef_parse (mq_trace request) = Ok (mq_trace request)).
Context (Hids : Id_ok (mq_callId request) && Id_ok (mq_taskId request) && Id_ok (mq_stepId request) = true).

#[local] Arguments call_digest : simpl never.
#[local] Arguments modelDigest : simpl never.

Lemma finish_parses : ReceiptBase_parse (finish config request x) = Ok (finish config request x).
Proof using Hconfig Hclock Htrace Hids.
  destruct Hconfig as [Hp Hm], Hclock as [Hat Hd]. unfold ReceiptBase_parse, ok_or.
  cbn [finish rb_callId rb_taskId rb_stepId rb_trace rb_provider rb_model rb_requestDigest rb_finishedAt rb_durationMs].
  rewrite Hids. cbn [ensure mbind result_bind]. rewrite Htrace. cbn [mbind result_bind].
  unfold call_digest, modelDigest. by rewrite Hp, Hm, sha256_hex_ok, toISOString_Timestamp_ok, Hd.
Qed.

Lemma failure_parses code retryable ran status :
  opt_ok (λ n, (100 <=? n) && (n <=? 599)) status = true →
  ∃ r, fail_call config request x code retryable ran status = Ok r ∧
       ModelCallResult_parse r = Ok r ∧ receipt_matches request r = true ∧ (∀ t s, r ≠ CallSucceeded t s).
Proof using Hconfig Hclock Htrace Hids.
  intros Hs. eexists. unfold fail_call, ModelCallResult_parse at 1, FailedReceipt_parse.
  cbn [fr_base fr_error]. rewrite finish_parses. cbn [mbind result_bind]. unfold ok_or, ModelFailure_ok.
  cbn [mf_httpStatus]. rewrite Hs. cbn [ensure mbind result_bind]. split_and!; [done| | |done].
  - unfold ModelCallResult_parse, FailedReceipt_parse. cbn [fr_base fr_error]. rewrite finish_parses.
    cbn [mbind result_bind]. unfold ok_or, ModelFailure_ok. cbn [mf_httpStatus]. by rewrite Hs.
  - unfold receipt_matches. cbn [base_of fr_base finish rb_callId rb_taskId rb_stepId rb_trace rb_provider rb_model rb_requestDigest].
    by rewrite !bool_decide_true by done.
Qed.

(** The texts and labels of a completion that parses. *)
Lemma Completion_labels v c : ProviderResponse_parse v = Ok c →
  Label_ok (cp_id c) = true ∧ Label_ok (cp_model c) = true ∧ ModelUsage_ok (cp_usage c) = true.
Proof.
  unfold ProviderResponse_parse. intros (fs & _ & H)%bind_ok. apply bind_ok in H as (id & Hid & H).
  apply bind_ok in H as (ob & _ & H). apply bind_ok in H as (md & Hmd & H). apply bind_ok in H as (cs & _ & H).
  apply bind_ok in H as (us & Hus & H). destruct cs as [|ch cs]; [done|]. apply Ok_inj in H as <-.
  cbn [cp_id cp_model cp_usage].
  apply z_field_ok in Hid as [v1 Hid], Hmd as [v2 Hmd], Hus as [v3 Hus].
  destruct v1; try done. cbn in Hid. apply ensure_ok in Hid as [Hid <-%Ok_inj].
  destruct v2; try done. cbn in Hmd. apply ensure_ok in Hmd as [Hmd <-%Ok_inj]. split_and!; [done|done|].
  unfold Usage_parse in Hus. apply bind_ok in Hus as (us' & _ & H). apply bind_ok in H as (p & Hp & H).
  apply bind_ok in H as (q & Hq & H). apply bind_ok in H as (t & Ht & H). apply ensure_ok in H as [Ht' <-%Ok_inj].
  unfold ModelUsage_ok, Count_ok. cbn [mu_inputTokens mu_outputTokens mu_totalTokens].
  apply z_field_ok in Hp as [w1 Hp], Hq as [w2 Hq], Ht as [w3 Ht]. unfold z_tokens in *.
  destruct w1, w2, w3; try done. cbn [z_int] in *. apply ensure_ok in Hp as [Hp <-%Ok_inj], Hq as [Hq <-%Ok_inj], Ht as [Ht <-%Ok_inj].
  by rewrite Hp, Hq, Ht, Ht'.
Qed.

Lemma completion_parses c v : ProviderResponse_parse v = Ok c →
  ∃ r, completed_call config request x c = Ok r ∧ ModelCallResult_parse r = Ok r ∧ receipt_matches request r = true ∧
       ∀ t s, r = CallSucceeded t s →
         ch_finish (cp_choice c) = FR_stop ∧ ch_content (cp_choice c) = Some t ∧ js_trim t ≠ EmptyString ∧
         (ch_tool_calls (cp_choice c) = None ∨ ch_tool_calls (cp_choice c) = Some []) ∧
         sr_responseModel s = cp_model c ∧ sr_usage s = cp_usage c.
Proof using Hconfig Hclock Htrace Hids.
  intros (Hid & Hmd & Hus)%Completion_labels. unfold completed_call.
  assert (∀ code retryable ran, ∃ r, fail_call config request x code retryable ran None = Ok r ∧
    ModelCallResult_parse r = Ok r ∧ receipt_matches request r = true ∧
    ∀ t s, r = CallSucceeded t s →
         ch_finish (cp_choice c) = FR_stop ∧ ch_content (cp_choice c) = Some t ∧ js_trim t ≠ EmptyString ∧
         (ch_tool_calls (cp_choice c) = None ∨ ch_tool_calls (cp_choice c) = Some []) ∧
         sr_responseModel s = cp_model c ∧ sr_usage s = cp_usage c) as Hfail.
  { intros code rt ran. destruct (failure_parses code rt ran None eq_refl) as (r & H1 & H2 & H3 & H4).
    exists r. split_and!; [done|done|done|]. intros t s E. by destruct (H4 t s). }
  repeat (case_bool_decide; [apply Hfail|]). destruct (_ || _) eqn:Etools; [apply Hfail|].
  case_bool_decide as Etext; [apply Hfail|].
  apply orb_false_iff in Etools as [_ Etools].
  assert (ch_finish (cp_choice c) = FR_stop) as Hstop by (destruct (ch_finish (cp_choice c)); congruence || (to_prop; done)).
  set (text := default EmptyString (ch_content (cp_choice c))) in *.
  assert (ch_content (cp_choice c) = Some text) as Hcontent.
  { subst text. destruct (ch_content (cp_choice c)); [done|]. by destruct Etext. }
  clearbody text.
  set (receipt := Build_SuccessReceipt _ _ _ _ _).
  assert (SuccessReceipt_parse receipt = Ok receipt) as Hr.
  { subst receipt. unfold SuccessReceipt_parse, ok_or.
    cbn [sr_base sr_providerRequestId sr_responseModel sr_usage sr_outputDigest].
    rewrite finish_parses. cbn [mbind result_bind]. unfold modelDigest.
    by rewrite Hid, Hmd, Hus, sha256_hex_ok. }
  assert ((text !== EmptyString) = true) as Hlen.
  { apply negb_true_iff, bool_decide_false. intros ->. by destruct Etext. }
  assert (ModelCallResult_parse (CallSucceeded text receipt) = Ok (CallSucceeded text receipt)) as Hres.
  { unfold ModelCallResult_parse, ok_or. rewrite Hlen. cbn [ensure mbind result_bind]. by rewrite Hr. }
  exists (CallSucceeded text receipt). rewrite Hr. cbn [mbind result_bind]. split_and!; [done|done| |].
  - subst receipt. unfold receipt_matches.
    cbn [base_of sr_base sr_outputDigest finish rb_callId rb_taskId rb_stepId rb_trace rb_provider rb_model rb_requestDigest].
    by rewrite !bool_decide_true by done.
  - intros t s [= <- <-]. split_and!; try done.
    destruct (ch_tool_calls (cp_choice c)) as [[|]|]; [by right|done|by left].
Qed.
End port.

(** C33: Whatever the transport does (no answer, an abort, a deadline, any status from 100 to
    599, a body of any size and content), for a request that parses, under a provider name and
    a clock the receipt's schema takes, the adapter answers with a value the kernel accepts at the other
    side of the port: the receipt parses, it names the request's call, task, step, trace and
    digest; and the answer is a success only for a 2xx response whose bounded body is one
    finished completion with a text that is not blank and no tool call. *)
Theorem port_answers_validate read_json config raw request x :
  createChatCompletionsPort_check config = Ok tt →
  Label_ok (cc_provider config) = true →
  ModelRequest_parse raw = Ok request →
  iso_range (ex_finishedAt x) → Count_ok (ex_durationMs x) = true →
  (∀ response, ex_response x = Some response → 100 ≤ rsp_status response ≤ 599) →
  ∃ r, generate read_json config raw x = Ok r ∧ validateModelResult raw r = Ok r ∧
    ∀ text receipt, r = CallSucceeded text receipt →
      ∃ response value c, ex_aborted x = false ∧ ex_response x = Some response ∧
        200 ≤ rsp_status response ≤ 299 ∧ boundedJson read_json response = Ok value ∧
        ProviderResponse_parse value = Ok c ∧ ch_finish (cp_choice c) = FR_stop ∧
        ch_content (cp_choice c) = Some text ∧ js_trim text ≠ EmptyString ∧
        (ch_tool_calls (cp_choice c) = None ∨ ch_tool_calls (cp_choice c) = Some []).
Proof.
  intros Hcheck Hprov Hreq Hat Hdur Hstatus. unfold createChatCompletionsPort_check in Hcheck.
  apply ensure_ok in Hcheck as [Hc _]. apply andb_true_iff in Hc as [_ Hmodel].
  pose proof (ModelRequest_parse_trace _ _ Hreq) as Htrace. pose proof (ModelRequest_parse_ids _ _ Hreq) as Hids.
  set (P := λ res : result ModelCallResult, ∃ r, res = Ok r ∧ validateModelResult raw r = Ok r ∧
    ∀ text receipt, r = CallSucceeded text receipt →
      ∃ response value c, ex_aborted x = false ∧ ex_response x = Some response ∧
        200 ≤ rsp_status response ≤ 299 ∧ boundedJson read_json response = Ok value ∧
        ProviderResponse_parse value = Ok c ∧ ch_finish (cp_choice c) = FR_stop ∧
        ch_content (cp_choice c) = Some text ∧ js_trim text ≠ EmptyString ∧
        (ch_tool_calls (cp_choice c) = None ∨ ch_tool_calls (cp_choice c) = Some [])).
  change (P (generate read_json config raw x)).
  assert (∀ r, ModelCallResult_parse r = Ok r → receipt_matches request r = true → validateModelResult raw r = Ok r) as Hval.
  { intros r H1 H2. unfold validateModelResult. rewrite Hreq. cbn [mbind result_bind]. rewrite H1.
    cbn [mbind result_bind]. by rewrite H2. }
  assert (∀ code retryable ran status, opt_ok (λ n, (100 <=? n) && (n <=? 599)) status = true →
    P (fail_call config request x code retryable ran status)) as Hfail.
  { intros code retryable ran status Hs.
    destruct (failure_parses config request x (conj Hprov Hmodel) (conj Hat Hdur) Htrace Hids code retryable ran status Hs)
      as (r & H1 & H2 & H3 & H4).
    exists r. split_and!; [done|by apply Hval|]. intros text receipt E. by destruct (H4 text receipt). }
  unfold generate. rewrite Hreq.
  destruct (ex_aborted x) eqn:Eab; [by apply Hfail|].
  destruct (ex_response x) as [response|] eqn:Eresp; [|by repeat case_match; apply Hfail].
  specialize (Hstatus response eq_refl).
  destruct (negb _) eqn:Estatus.
  { unfold refused_status. assert (opt_ok (λ n, (100 <=? n) && (n <=? 599)) (Some (rsp_status response)) = true) as Hs
      by (cbn [opt_ok]; lia).
    repeat case_match; by apply Hfail. }
  destruct (boundedJson read_json response) as [value|e] eqn:Ebody; [|by repeat case_match; apply Hfail].
  destruct (ProviderResponse_parse value) as [c|] eqn:Ec; [|by apply Hfail].
  destruct (completion_parses config request x (conj Hprov Hmodel) (conj Hat Hdur) Htrace Hids c value Ec)
    as (r & H1 & H2 & H3 & H4).
  exists r. split_and!; [done|by apply Hval|]. intros text receipt E. destruct (H4 _ _ E) as (? & ? & ? & ? & _).
  exists response, value, c. split_and!; try done; lia.
Qed.

(** A body that is read whole is within the limit. *)
Lemma read_chunks_bounded chunks : ∀ bytes read text,
  bytes = Z.of_nat (String.length read) → bytes ≤ MaxResponseBytes →
  read_chunks bytes read chunks = Ok text → Z.of_nat (String.length text) ≤ MaxResponseBytes.
Proof.
  induction chunks as [|[s|] chunks IH]; intros bytes read text Hb Hle; cbn [read_chunks]; [|intros [H1 H2]%ensure_ok|done].
  { intros <-%Ok_inj. lia. }
  apply IH in H2; [done| |lia]. rewrite Hb. clear.
  assert (String.length (read +:+ s) = (String.length read + String.length s)%nat) as ->
    by (induction read as [|c r IHr]; [done|exact (f_equal S IHr)]). lia.
Qed.

Lemma boundedJson_bounded read_json response value :
  boundedJson read_json response = Ok value →
  ∃ text, read_json text = Ok value ∧ Z.of_nat (String.length text) ≤ MaxResponseBytes.
Proof.
  unfold boundedJson. destruct (rsp_body response) as [chunks|]; [|done]. intros (text & Ht & H)%bind_ok.
  exists text. split; [done|]. eapply (read_chunks_bounded _ 0 EmptyString); [done|unfold MaxResponseBytes; lia|exact Ht].
Qed.

(** A provider's error body is not read: the answer to a refused status is the same for
    every body, every reader of JSON, and every credential. *)
Lemma refused_body_unread read_json read_json' config raw x x' status body body' :
  ex_response x = Some {| rsp_status := status; rsp_body := body |} →
  ex_response x' = Some {| rsp_status := status; rsp_body := body' |} →
  ex_aborted x = ex_aborted x' → ex_finishedAt x = ex_finishedAt x' → ex_durationMs x = ex_durationMs x' →
  (200 <=? status) && (status <=? 299) = false →
  generate read_json config raw x = generate read_json' config raw x'.
Proof.
  intros E E' Ha Hf Hd Hs. unfold generate. destruct (ModelRequest_parse raw) as [request|]; [|done].
  rewrite E, E', Ha. cbn [rsp_status]. rewrite Hs. unfold refused_status, fail_call, finish. by rewrite Hf, Hd.
Qed.

(** A status past 599 is no [ModelFailure]: the adapter throws instead of answering. *)
Lemma odd_status_throws read_json config raw request x response :
  ModelRequest_parse raw = Ok request → ex_aborted x = false → ex_response x = Some response →
  599 < rsp_status response → is_ok (generate read_json config raw x) = false.
Proof.
  intros Hreq Ha Hr Hs. unfold generate. rewrite Hreq, Ha, Hr.
  assert ((200 <=? rsp_status response) && (rsp_status response <=? 299) = false) as -> by lia. cbn [negb].
  unfold refused_status. assert ((500 <=? rsp_status response) = true) as -> by lia.
  assert ((rsp_status response =? 401) || (rsp_status response =? 403) = false) as -> by lia.
  assert ((rsp_status response =? 402) = false) as -> by lia. assert ((rsp_status response =? 429) = false) as -> by lia.
  unfold fail_call, ModelCallResult_parse, FailedReceipt_parse. cbn [fr_base fr_error].
  destruct (ReceiptBase_parse _); [|done]. cbn [mbind result_bind]. unfold ok_or, ModelFailure_ok. cbn [mf_httpStatus opt_ok].
  by assert ((100 <=? rsp_status response) && (rsp_status response <=? 599) = false) as -> by lia.
Qed.

Lemma ModelRequest_parse_idem r r' : ModelRequest_parse r = Ok r' → ModelRequest_parse r' = Ok r'.
Proof.
  intros H. pose proof (ModelRequest_parse_trace _ _ H) as Ht. unfold ModelRequest_parse, ok_or in H.
  apply ensure_ok in H as [H1 H]. apply bind_ok in H as (t & _ & H).
  apply ensure_ok in H as [H2 H]. apply ensure_ok in H as [H3 <-%Ok_inj].
  unfold ModelRequest_parse, ok_or. cbn [mq_callId mq_taskId mq_stepId mq_trace mq_messages mq_maxOutputTokens] in *.
  by parse_step H1; parse_step Ht; parse_step H2; parse_step H3.
Qed.

Lemma ReceiptBase_parse_idem b b' : ReceiptBase_parse b = Ok b' → ReceiptBase_parse b' = Ok b'.
Proof.
  unfold ReceiptBase_parse, ok_or. intros [H1 H]%ensure_ok. apply bind_ok in H as (t & Ht%TraceRef_parse_idem & H).
  apply ensure_ok in H as [H2 <-%Ok_inj].
  cbn [rb_callId rb_taskId rb_stepId rb_trace rb_provider rb_model rb_requestDigest rb_finishedAt rb_durationMs].
  by parse_step H1; parse_step Ht; parse_step H2.
Qed.

Lemma ModelCallResult_parse_idem r r' : ModelCallResult_parse r = Ok r' → ModelCallResult_parse r' = Ok r'.
Proof.
  unfold ModelCallResult_parse, SuccessReceipt_parse, FailedReceipt_parse, ok_or. destruct r as [text s|f].
  - intros [H1 H]%ensure_ok. apply bind_ok in H as (s' & H & <-%Ok_inj).
    apply bind_ok in H as (b & Hb%ReceiptBase_parse_idem & H). apply ensure_ok in H as [H2 <-%Ok_inj].
    cbn [sr_base sr_providerRequestId sr_responseModel sr_usage sr_outputDigest]. by parse_step H1; parse_step Hb; parse_step H2.
  - intros (f' & H & <-%Ok_inj)%bind_ok. apply bind_ok in H as (b & Hb%ReceiptBase_parse_idem & H).
    apply ensure_ok in H as [H2 <-%Ok_inj]. cbn [fr_base fr_error]. by parse_step Hb; parse_step H2.
Qed.

(** A call the kernel returns from has recorded exactly one receipt, the one it returns,
    and that receipt is bound to the request: same call, task, step and trace, the digest of
    the provider, the model and the whole request, and for a success the digest of the text.
    An answer of the port that is not bound this way never comes out of the call. *)
Theorem model_call_bound {S} (port : ModelRequest → prog S ModelCallResult) (record : ModelCallReceipt → prog S unit)
    raw s s' r :
  callModel port record raw s = (s', Ok r) →
  ∃ request answer s1, ModelRequest_parse raw = Ok request ∧ port request s = (s1, Ok answer) ∧
    ModelCallResult_parse answer = Ok r ∧ record (receipt_of r) s1 = (s', Ok tt) ∧
    rb_callId (base_of r) = mq_callId raw ∧ rb_taskId (base_of r) = mq_taskId raw ∧
    rb_stepId (base_of r) = mq_stepId raw ∧
    rb_requestDigest (base_of r) = call_digest (rb_provider (base_of r)) (rb_model (base_of r)) request ∧
    (∀ text receipt, r = CallSucceeded text receipt → sr_outputDigest receipt = modelDigest (JStr text)).
Proof.
  unfold callModel. intros (request & s0 & [-> Hreq]%lift_ok & H)%pbind_ok.
  apply pbind_ok in H as (answer & s1 & Ha & H).
  destruct ((r ← port request; lift_result (validateModelResult request r)) s) as [s2 [a|e]] eqn:Ep; [|done].
  injection Ha as -> ->. apply pbind_ok in Ep as (raw' & s3 & Hport & [-> Hval]%lift_ok).
  apply pbind_ok in H as (parsed & s4 & [-> Hparsed]%lift_ok & H).
  apply pbind_ok in H as ([] & s5 & Hrec & [-> ->]%ret_ok).
  unfold validateModelResult in Hval. rewrite (ModelRequest_parse_idem _ _ Hreq) in Hval. cbn [mbind result_bind] in Hval.
  apply bind_ok in Hval as (a' & Ha' & Hval). apply ensure_ok in Hval as [Hm <-%Ok_inj].
  rewrite (ModelCallResult_parse_idem _ _ Ha') in Hparsed. apply Ok_inj in Hparsed as <-.
  destruct (ModelRequest_parse_fields _ _ Hreq) as (Hc & Ht & Hs & _).
  do 3 eexists. split; [exact Hreq|]. split; [exact Hport|]. unfold receipt_matches in Hm. to_prop. destruct_and?. to_prop.
  split_and!; try (exact Hrec || congruence). intros text receipt ->. by to_prop.
Qed.

(** ** Witnesses *)

Module ModelSample.
Definition ids : string * string * string :=
  ("11111111-1111-4111-8111-111111111111", "22222222-2222-4222-8222-222222222222", "33333333-3333-4333-8333-333333333333").
Definition request : ModelRequest :=
  let '(call, task, step) := ids in
  {| mq_callId := call; mq_taskId := task; mq_stepId := step;
     mq_trace := {| tr_traceId := "44444444-4444-4444-8444-444444444444"; tr_correlationId := task; tr_spanId := None |};
     mq_messages := [{| msg_role := R_system; msg_content := "Answer in JSON." |}; {| msg_role := R_user; msg_content := "?" |}];
     mq_maxOutputTokens := 4096 |}.
Definition config : ChatCompletionsConfig := DeepSeekPort_config "key" "deepseek-chat" None.
Definition completion (reason content : string) : json :=
  JObj [("id", JStr "r-1"); ("object", JStr "chat.completion"); ("model", JStr "deepseek-chat");
        ("choices", JArr [JObj [("index", JNum 0); ("finish_reason", JStr reason);
           ("message", JObj [("role", JStr "assistant"); ("content", JStr content)])]]);
        ("usage", JObj [("prompt_tokens", JNum 7); ("completion_tokens", JNum 3); ("total_tokens", JNum 10);
                        ("prompt_cache_hit_tokens", JNum 0)])].
Definition exchange (status : Z) (body : json) : Exchange :=
  {| ex_aborted := false; ex_response := Some {| rsp_status := status; rsp_body := Some [ChunkBytes (stringify body)] |};
     ex_aborted_by := false; ex_expired_by := false; ex_finishedAt := 1789488000000; ex_durationMs := 12 |}.
Definition answered : Exchange := exchange 200 (completion "stop" "{}").
(** A port with one journal entry per call: the number of receipts recorded. *)
Definition port (r : ModelRequest) : prog (list ModelCallReceipt) ModelCallResult :=
  lift_result (generate JSON_parse config r answered).
Definition record (r : ModelCallReceipt) : prog (list ModelCallReceipt) unit := λ l, (l ++ [r], Ok tt).
End ModelSample.

Lemma port_answers_validate_witness : ∃ r, generate JSON_parse ModelSample.config ModelSample.request ModelSample.answered = Ok r ∧
  validateModelResult ModelSample.request r = Ok r.
Proof.
  destruct (port_answers_validate JSON_parse ModelSample.config ModelSample.request ModelSample.request ModelSample.answered)
    as (r & Hr & Hv & _).
  - vm_compute. reflexivity.
  - vm_compute. reflexivity.
  - vm_compute. reflexivity.
  - unfold iso_range. vm_compute. intuition discriminate.
  - vm_compute. reflexivity.
  - intros response [= <-]. cbn [rsp_status]. lia.
  - exists r. split; [exact Hr|exact Hv].
Defined.

Lemma model_call_bound_witness : ∃ r l, callModel ModelSample.port ModelSample.record ModelSample.request [] = (l, Ok r) ∧
  length l = 1%nat ∧ rb_callId (base_of r) = mq_callId ModelSample.request.
Proof.
  assert (Hok : is_ok (callModel ModelSample.port ModelSample.record ModelSample.request []).2 = true) by (vm_compute; reflexivity).
  assert (Hl : length (callModel ModelSample.port ModelSample.record ModelSample.request []).1 = 1%nat) by (vm_compute; reflexivity).
  destruct (callModel ModelSample.port ModelSample.record ModelSample.request []) as [l [r|e]] eqn:E; [|discriminate Hok].
  destruct (model_call_bound _ _ _ _ _ _ E) as (request & answer & s1 & _ & _ & _ & _ & Hc & _).
  exists r, l. split; [reflexivity|]. split; [exact Hl|exact Hc].
Defined.
