(* ===== verification/Faculty.v ===== *)
(** * Faculties: contracts, routing policy, templates, completion check, registry
    (packages/contracts/src/faculty.ts; services/kernel/src/faculty: policy.ts, verify.ts, templates.ts,
    identity-ceiling.ts, registry.ts)

    A faculty is a versioned, tenant-owned configuration of an advisory role.  A mission step
    runs under a pin: the exact version and its digest, the routing reason, the provider and
    the model.  [validateFacultyPin] is what every use of a pin goes through; [FacultyTables] are
    the two tables with their guard triggers
    (supabase/migrations/20260923150000_core_team_faculties.sql), and [pin] and [authorize]
    the operations of [PgFacultyRegistry] over them.  The theorems: what a valid pin
    guarantees, that the deployed templates can pin exactly the analyst and the reviewer,
    that a pin is stable once written, and that the completion check accepts exactly the
    evidence that repeats the pins. *)

From S2P Require Import Prelude JsNumber JsDate Digest Contracts Plan Capability Json Mission Approval Regex.
From S2P Require Import MemPolicy MemContext Memory MemPort Model Ledger.
Local Open Scope Z_scope.
Local Open Scope js_scope.

(** ** faculty.ts *)

Inductive FacultyId :=
  | F_primary_executive | F_architect | F_builder | F_operator | F_intelligence | F_archivist | F_guardian | F_verifier.
Inductive CapabilityClass := MODEL_TEXT.
Inductive Provider := P_deepseek | P_openrouter.
Inductive FacultyReview := INDEPENDENT_VERIFIER | KERNEL_RECONCILIATION.
Inductive RoutingReason := REASON_analyst | REASON_reviewer.

#[export] Instance FacultyId_eq_dec : EqDecision FacultyId.
Proof. solve_decision. Defined.
#[export] Instance CapabilityClass_eq_dec : EqDecision CapabilityClass.
Proof. solve_decision. Defined.
#[export] Instance Provider_eq_dec : EqDecision Provider.
Proof. solve_decision. Defined.
#[export] Instance FacultyReview_eq_dec : EqDecision FacultyReview.
Proof. solve_decision. Defined.
#[export] Instance RoutingReason_eq_dec : EqDecision RoutingReason.
Proof. solve_decision. Defined.

Definition FACULTY_IDS : list (string * FacultyId) :=
  [("primary-executive", F_primary_executive); ("architect", F_architect); ("builder", F_builder);
   ("operator", F_operator); ("intelligence", F_intelligence); ("archivist", F_archivist); ("guardian", F_guardian);
   ("verifier", F_verifier)].
Definition CAPABILITY_CLASSES : list (string * CapabilityClass) := [("MODEL_TEXT", MODEL_TEXT)].
Definition PROVIDERS : list (string * Provider) := [("deepseek", P_deepseek); ("openrouter", P_openrouter)].
Definition REVIEWS : list (string * FacultyReview) :=
  [("INDEPENDENT_VERIFIER", INDEPENDENT_VERIFIER); ("KERNEL_RECONCILIATION", KERNEL_RECONCILIATION)].
Definition ROUTING_REASONS : list (string * RoutingReason) :=
  [("repo-analysis/analyst", REASON_analyst); ("repo-analysis/independent-reviewer", REASON_reviewer)].
(** The two operations a faculty may be permitted. *)
Definition FACULTY_OPERATIONS : list (string * Operation) :=
  [("RUNTIME_ANALYSE", OP_RUNTIME_ANALYSE); ("RUNTIME_REVIEW", OP_RUNTIME_REVIEW)].

Definition FACULTY_POLICY : string := "faculty-routing/v1".

Record FacultyBudget := { fb_maxOutputTokens : Z; fb_maxCostUsd : option number }.
Record FacultyContextBudget := { fc_maxInputBytes : Z; fc_maxMemoryTokens : Z }.

(** The literal fields: no tools ([toolPermissions] is the empty array), [authorityCeiling]
    ADVISORY_TEXT_ONLY, [maxAttempts] 1, [provenance.source] ADR-0006. *)
Record FacultyVersion := {
  fv_tenantId : string; fv_id : FacultyId; fv_version : Z; fv_name : string; fv_purpose : string;
  fv_responsibilities : list string; fv_exclusions : list string; fv_enabled : bool;
  fv_permittedRecipes : list string; fv_permittedOperations : list Operation;
  fv_permittedCapabilityClasses : list CapabilityClass; fv_permittedMemoryClasses : list MemoryClass;
  fv_providerPreferences : list Provider; fv_preferredModelTraits : list string;
  fv_contextBudget : FacultyContextBudget; fv_budget : FacultyBudget; fv_review : FacultyReview;
  fv_escalationRules : list string; fv_policyVersion : string; fv_changeRef : string
}.

Definition FText : json → result string := z_text 1 1000.

Definition FacultyContextBudget_parse (v : json) : result FacultyContextBudget :=
  fs ← z_strict ["maxInputBytes"; "maxMemoryTokens"] v;
  i ← z_field fs "maxInputBytes" (z_int 1 512000);
  m ← z_field fs "maxMemoryTokens" (z_int 0 1500);
  Ok {| fc_maxInputBytes := i; fc_maxMemoryTokens := m |}.

Definition FacultyBudget_parse (v : json) : result FacultyBudget :=
  fs ← z_strict ["maxOutputTokens"; "maxAttempts"; "maxCostUsd"] v;
  o ← z_field fs "maxOutputTokens" (z_int 1 8192);
  z_field fs "maxAttempts" (z_number 1);;
  c ← z_field fs "maxCostUsd" (z_nullable z_nonnegative);
  Ok {| fb_maxOutputTokens := o; fb_maxCostUsd := c |}.

Definition FacultyProvenance_parse (v : json) : result string :=
  fs ← z_strict ["source"; "changeRef"] v;
  z_field fs "source" (z_literal "ADR-0006");;
  change ← z_field fs "changeRef" FText;
  Ok change.

(** [z.array(z.never()).max(0)] *)
Definition no_tools : json → result (list unit) := z_array 0 0 (λ _, Throw (zod_error "invalid_type")).

Definition FacultyVersion_parse (v : json) : result FacultyVersion :=
  fs ← z_strict ["tenantId"; "id"; "version"; "name"; "purpose"; "responsibilities"; "exclusions"; "enabled";
    "permittedRecipes"; "permittedOperations"; "permittedCapabilityClasses"; "permittedMemoryClasses";
    "providerPreferences"; "preferredModelTraits"; "toolPermissions"; "authorityCeiling"; "contextBudget"; "budget";
    "review"; "escalationRules"; "policyVersion"; "provenance"] v;
  tenant ← z_field fs "tenantId" (z_string Id_ok);
  id ← z_field fs "id" (z_enum FACULTY_IDS);
  version ← z_field fs "version" (z_int 1 max_safe);
  name ← z_field fs "name" FText;
  purpose ← z_field fs "purpose" FText;
  responsibilities ← z_field fs "responsibilities" (z_array 1 20 FText);
  exclusions ← z_field fs "exclusions" (z_array 1 20 FText);
  enabled ← z_field fs "enabled" z_boolean;
  recipes ← z_field fs "permittedRecipes" (z_array 0 20 (z_string Label_ok));
  operations ← z_field fs "permittedOperations" (z_array 0 2 (z_enum FACULTY_OPERATIONS));
  capabilities ← z_field fs "permittedCapabilityClasses" (z_array 0 1 (z_enum CAPABILITY_CLASSES));
  memory ← z_field fs "permittedMemoryClasses" (z_array 0 8 (z_enum MEMORY_CLASSES));
  providers ← z_field fs "providerPreferences" (z_array 1 2 (z_enum PROVIDERS));
  traits ← z_field fs "preferredModelTraits" (z_array 0 10 FText);
  z_field fs "toolPermissions" no_tools;;
  z_field fs "authorityCeiling" (z_literal "ADVISORY_TEXT_ONLY");;
  context ← z_field fs "contextBudget" FacultyContextBudget_parse;
  budget ← z_field fs "budget" FacultyBudget_parse;
  review ← z_field fs "review" (z_enum REVIEWS);
  rules ← z_field fs "escalationRules" (z_array 1 10 FText);
  policy ← z_field fs "policyVersion" (z_literal FACULTY_POLICY);
  change ← z_field fs "provenance" FacultyProvenance_parse;
  Ok {| fv_tenantId := tenant; fv_id := id; fv_version := version; fv_name := name; fv_purpose := purpose;
        fv_responsibilities := responsibilities; fv_exclusions := exclusions; fv_enabled := enabled;
        fv_permittedRecipes := recipes; fv_permittedOperations := operations;
        fv_permittedCapabilityClasses := capabilities; fv_permittedMemoryClasses := memory;
        fv_providerPreferences := providers; fv_preferredModelTraits := traits; fv_contextBudget := context;
        fv_budget := budget; fv_review := review; fv_escalationRules := rules; fv_policyVersion := policy;
        fv_changeRef := change |}.

Definition strings_json (l : list string) : json := JArr (map JStr l).
Definition enums_json {A} `{EqDecision A} (names : list (string * A)) (l : list A) : json :=
  JArr (map (λ x, JStr (enum_name names x)) l).

Definition context_budget_json (b : FacultyContextBudget) : json :=
  JObj [("maxInputBytes", JNum (fc_maxInputBytes b)); ("maxMemoryTokens", JNum (fc_maxMemoryTokens b))].
Definition faculty_budget_json (b : FacultyBudget) : json :=
  JObj [("maxOutputTokens", JNum (fb_maxOutputTokens b)); ("maxAttempts", JNum 1);
        ("maxCostUsd", opt_json json_of_number (fb_maxCostUsd b))].
Definition provenance_json (changeRef : string) : json :=
  JObj [("source", JStr "ADR-0006"); ("changeRef", JStr changeRef)].

Definition faculty_json (f : FacultyVersion) : json :=
  JObj [("tenantId", JStr (fv_tenantId f)); ("id", JStr (enum_name FACULTY_IDS (fv_id f)));
        ("version", JNum (fv_version f)); ("name", JStr (fv_name f)); ("purpose", JStr (fv_purpose f));
        ("responsibilities", strings_json (fv_responsibilities f)); ("exclusions", strings_json (fv_exclusions f));
        ("enabled", JBool (fv_enabled f)); ("permittedRecipes", strings_json (fv_permittedRecipes f));
        ("permittedOperations", enums_json FACULTY_OPERATIONS (fv_permittedOperations f));
        ("permittedCapabilityClasses", enums_json CAPABILITY_CLASSES (fv_permittedCapabilityClasses f));
        ("permittedMemoryClasses", enums_json MEMORY_CLASSES (fv_permittedMemoryClasses f));
        ("providerPreferences", enums_json PROVIDERS (fv_providerPreferences f));
        ("preferredModelTraits", strings_json (fv_preferredModelTraits f)); ("toolPermissions", JArr []);
        ("authorityCeiling", JStr "ADVISORY_TEXT_ONLY"); ("contextBudget", context_budget_json (fv_contextBudget f));
        ("budget", faculty_budget_json (fv_budget f)); ("review", JStr (enum_name REVIEWS (fv_review f)));
        ("escalationRules", strings_json (fv_escalationRules f)); ("policyVersion", JStr (fv_policyVersion f));
        ("provenance", provenance_json (fv_changeRef f))].

Record FacultyPin := {
  fp_tenantId : string; fp_taskId : string; fp_stepId : string; fp_operation : Operation; fp_faculty : FacultyVersion;
  fp_facultyDigest : string; fp_routingReason : RoutingReason; fp_provider : Provider; fp_model : string;
  fp_policyVersion : string
}.

Definition FacultyPin_parse (v : json) : result FacultyPin :=
  fs ← z_strict ["tenantId"; "taskId"; "stepId"; "operation"; "faculty"; "facultyDigest"; "routingReason"; "provider";
    "model"; "policyVersion"] v;
  tenant ← z_field fs "tenantId" (z_string Id_ok);
  task ← z_field fs "taskId" (z_string Id_ok);
  step ← z_field fs "stepId" (z_string Id_ok);
  operation ← z_field fs "operation" (z_enum FACULTY_OPERATIONS);
  faculty ← z_field fs "faculty" FacultyVersion_parse;
  digest ← z_field fs "facultyDigest" (z_string Sha256_ok);
  reason ← z_field fs "routingReason" (z_enum ROUTING_REASONS);
  provider ← z_field fs "provider" (z_enum PROVIDERS);
  model ← z_field fs "model" (z_string Label_ok);
  policy ← z_field fs "policyVersion" (z_literal FACULTY_POLICY);
  Ok {| fp_tenantId := tenant; fp_taskId := task; fp_stepId := step; fp_operation := operation; fp_faculty := faculty;
        fp_facultyDigest := digest; fp_routingReason := reason; fp_provider := provider; fp_model := model;
        fp_policyVersion := policy |}.

Definition pin_json (p : FacultyPin) : json :=
  JObj [("tenantId", JStr (fp_tenantId p)); ("taskId", JStr (fp_taskId p)); ("stepId", JStr (fp_stepId p));
        ("operation", JStr (enum_name FACULTY_OPERATIONS (fp_operation p))); ("faculty", faculty_json (fp_faculty p));
        ("facultyDigest", JStr (fp_facultyDigest p));
        ("routingReason", JStr (enum_name ROUTING_REASONS (fp_routingReason p)));
        ("provider", JStr (enum_name PROVIDERS (fp_provider p))); ("model", JStr (fp_model p));
        ("policyVersion", JStr (fp_policyVersion p))].

(** ** policy.ts *)

Definition faculty_refusal (code : string) : exn := Exn "FacultyRefusal" code.
Definition refuse_unless (c : bool) (code : string) : result unit := ensure c (faculty_refusal code).

Definition routeFaculty (operation : Operation) : result (FacultyId * RoutingReason) :=
  match operation with
  | OP_RUNTIME_ANALYSE => Ok (F_intelligence, REASON_analyst)
  | OP_RUNTIME_REVIEW => Ok (F_verifier, REASON_reviewer)
  | _ => Throw (faculty_refusal "FACULTY_OPERATION_REFUSED")
  end.

Definition MISSION_RECIPE : string := recipe_name RepoAnalysisMission.

Definition validateFacultyPin (raw : json) : result FacultyPin :=
  p ← FacultyPin_parse raw;
  f ← FacultyVersion_parse (faculty_json (fp_faculty p));
  route ← routeFaculty (fp_operation p);
  refuse_unless (negb ((fp_tenantId p !== fv_tenantId f) || (fv_id f !== route.1) || (fp_routingReason p !== route.2) ||
                       (fp_policyVersion p !== fv_policyVersion f) ||
                       (capabilityDigest (faculty_json f) !== fp_facultyDigest p))) "FACULTY_BINDING_REFUSED";;
  refuse_unless (fv_enabled f) "FACULTY_DISABLED";;
  refuse_unless (bool_decide (MISSION_RECIPE ∈ fv_permittedRecipes f) &&
                 bool_decide (fp_operation p ∈ fv_permittedOperations f) &&
                 bool_decide (MODEL_TEXT ∈ fv_permittedCapabilityClasses f) &&
                 bool_decide (fp_provider p ∈ fv_providerPreferences f)) "FACULTY_CAPABILITY_REFUSED";;
  refuse_unless (negb ((fp_operation p === OP_RUNTIME_REVIEW) &&
                       ((fv_permittedMemoryClasses f !== []) || (fc_maxMemoryTokens (fv_contextBudget f) !== 0) ||
                        (fv_review f !== KERNEL_RECONCILIATION)))) "FACULTY_REVIEW_ISOLATION_REFUSED";;
  refuse_unless (negb ((fp_operation p === OP_RUNTIME_ANALYSE) && (fv_review f !== INDEPENDENT_VERIFIER)))
    "FACULTY_REVIEW_REQUIRED";;
  refuse_unless (fb_maxCostUsd (fv_budget f) === None) "FACULTY_PRICED_ROUTE_REQUIRED";;
  Ok p.

(** [Buffer.byteLength(content, "utf8")], summed over the messages. *)
Definition input_bytes (l : list Message) : Z := foldr (λ m n, Z.of_nat (String.length (msg_content m)) + n) 0 l.

Definition with_tokens (r : ModelRequest) (n : Z) : ModelRequest :=
  {| mq_callId := mq_callId r; mq_taskId := mq_taskId r; mq_stepId := mq_stepId r; mq_trace := mq_trace r;
     mq_messages := mq_messages r; mq_maxOutputTokens := n |}.
Definition with_messages (r : ModelRequest) (l : list Message) : ModelRequest :=
  {| mq_callId := mq_callId r; mq_taskId := mq_taskId r; mq_stepId := mq_stepId r; mq_trace := mq_trace r;
     mq_messages := l; mq_maxOutputTokens := mq_maxOutputTokens r |}.

Definition boundFacultyRequest (raw : FacultyPin) (request : ModelRequest) : result ModelRequest :=
  p ← validateFacultyPin (pin_json raw);
  refuse_unless ((mq_taskId request === fp_taskId p) && (mq_stepId request === fp_stepId p))
    "FACULTY_REQUEST_BINDING_REFUSED";;
  refuse_unless (input_bytes (mq_messages request) <=? fc_maxInputBytes (fv_contextBudget (fp_faculty p)))
    "FACULTY_CONTEXT_BUDGET_REFUSED";;
  Ok (with_tokens request (Z.min (mq_maxOutputTokens request) (fb_maxOutputTokens (fv_budget (fp_faculty p))))).

Definition faculty_role (f : FacultyVersion) : string :=
  "Kernel faculty: " +:+ fv_name f +:+ " v" +:+ pretty (fv_version f) +:+ "." +:+ newline +:+ "Purpose: " +:+ fv_purpose f
  +:+ newline +:+ "Authority: advisory text only; KernelJSON owns decisions and execution." +:+ newline.

(** The role goes before the first message, when that is the system's. *)
Definition with_role (role : string) (l : list Message) : list Message :=
  match l with
  | m :: rest => (if msg_role m === R_system then {| msg_role := R_system; msg_content := role +:+ msg_content m |} else m) :: rest
  | [] => []
  end.

Definition projectFacultyRequest (raw : FacultyPin) (request : ModelRequest) : result ModelRequest :=
  p ← validateFacultyPin (pin_json raw);
  boundFacultyRequest p (with_messages request (with_role (faculty_role (fp_faculty p)) (mq_messages request))).

Definition faculty_record (p : FacultyPin) : json :=
  JObj [("faculty_id", JStr (enum_name FACULTY_IDS (fv_id (fp_faculty p)))); ("faculty_version", JNum (fv_version (fp_faculty p)));
        ("faculty_digest", JStr (fp_facultyDigest p));
        ("routing_reason", JStr (enum_name ROUTING_REASONS (fp_routingReason p)));
        ("policy_version", JStr (fp_policyVersion p)); ("provider", JStr (enum_name PROVIDERS (fp_provider p)));
        ("model", JStr (fp_model p))].

Definition facultyEvidence (p : FacultyPin) : result json :=
  validateFacultyPin (pin_json p);; Ok (faculty_record p).

(** ** verify.ts *)

(** [Boolean(value)] of a metadata entry. *)
Definition json_truthy (o : option json) : bool :=
  match o with
  | None | Some JNull | Some (JBool false) | Some (JNum 0) | Some (JStr EmptyString) => false
  | Some _ => true
  end.

Definition runtime_source (operation : Operation) : string :=
  "kerneljson:runtime/" +:+ (if operation === OP_RUNTIME_ANALYSE then "analyst" else "reviewer").

Definition check_pin (records : list Evidence) (p : FacultyPin) : result unit :=
  match List.filter (λ e, (ev_taskId e === fp_taskId p) && (ev_stepId e === Some (fp_stepId p)) &&
                          (ev_source e === runtime_source (fp_operation p))) records with
  | [e] =>
      expected ← facultyEvidence p;
      ensure ((capabilityDigest (default JNull (map_get (ev_metadata e) "faculty")) === capabilityDigest expected) &&
              json_is (map_get (ev_metadata e) "provider") (enum_name PROVIDERS (fp_provider p)) &&
              json_is (map_get (ev_metadata e) "model") (fp_model p))
        (js_error "Faculty evidence differs from canonical pin")
  | _ => Throw (js_error "Missing faculty execution evidence")
  end.

Fixpoint check_pins (records : list Evidence) (pins : list FacultyPin) : result unit :=
  match pins with [] => Ok tt | p :: rest => check_pin records p;; check_pins records rest end.

Definition verifyFacultyEvidence (url_ok : string → bool) (pins : list json) (evidence : list Evidence) (required : bool)
  : result unit :=
  records ← parse_all (Evidence_parse url_ok) evidence;
  match pins with
  | [] =>
      ensure (negb required) (js_error "Configured mission requires canonical faculty pins");;
      ensure (negb (existsb (λ e, json_truthy (map_get (ev_metadata e) "faculty")) records))
        (js_error "Unpinned faculty evidence")
  | _ =>
      ensure (bool_decide (length pins = 2%nat)) (js_error "Both mission faculties must be pinned");;
      parsed ← map_all validateFacultyPin pins;
      ensure (bool_decide (length (remove_dups (map fp_operation parsed)) = 2%nat)) (js_error "Missing independent faculty");;
      check_pins records parsed
  end.

(** ** templates.ts *)

Definition TEMPLATE_ROLES : list (FacultyId * string * string) :=
  [(F_primary_executive, "Primary Executive", "User interaction, intent resolution, mission synthesis and final explanation");
   (F_architect, "Architect", "System design, trade-offs, interface boundaries and ADR proposals");
   (F_builder, "Builder", "Implementation planning, code, tests, migrations and integration proposals");
   (F_operator, "Operator", "Deployment planning, observability, incident handling and recovery advice");
   (F_intelligence, "Intelligence", "Research, source comparison and uncertainty reporting");
   (F_archivist, "Archivist", "Memory provenance, consolidation proposals and contradiction detection");
   (F_guardian, "Guardian", "Security review, permission boundaries and policy advice");
   (F_verifier, "Verifier", "Independent acceptance checks, evidence inspection and challenge of unsupported claims")].

Definition template (tenantId changeRef : string) (role : FacultyId * string * string) : FacultyVersion :=
  let '(id, name, purpose) := role in
  let analyst := id === F_intelligence in
  let reviewer := id === F_verifier in
  {| fv_tenantId := tenantId; fv_id := id; fv_version := 1; fv_name := name; fv_purpose := purpose;
     fv_responsibilities := [purpose];
     fv_exclusions := ["Cannot admit, approve, assign, retry, complete or cancel tasks";
       "Cannot mutate canonical memory, identity, policy or faculty configuration";
       "Cannot execute tools or grant capabilities"];
     fv_enabled := analyst || reviewer;
     fv_permittedRecipes := if analyst || reviewer then [MISSION_RECIPE] else [];
     fv_permittedOperations := if analyst then [OP_RUNTIME_ANALYSE] else if reviewer then [OP_RUNTIME_REVIEW] else [];
     fv_permittedCapabilityClasses := if analyst || reviewer then [MODEL_TEXT] else [];
     fv_permittedMemoryClasses := if analyst then MISSION_MEMORY_CLASSES else [];
     fv_providerPreferences := if analyst then [P_deepseek; P_openrouter] else [P_openrouter; P_deepseek];
     fv_preferredModelTraits :=
       [if reviewer then "Independent evidence-grounded verification" else "Evidence-grounded structured output"];
     fv_contextBudget := {| fc_maxInputBytes := 512000; fc_maxMemoryTokens := if analyst then 1500 else 0 |};
     fv_budget := {| fb_maxOutputTokens := if analyst then 6144 else 4096; fb_maxCostUsd := None |};
     fv_review := if analyst then INDEPENDENT_VERIFIER else KERNEL_RECONCILIATION;
     fv_escalationRules := ["Refuse outside the admitted recipe and authority ceiling";
       "Provider failure ends the attempt; only KernelJSON can authorize new work"];
     fv_policyVersion := FACULTY_POLICY; fv_changeRef := changeRef |}.

Definition coreTeamTemplates (tenantId changeRef : string) : result (list FacultyVersion) :=
  map_all (λ role, FacultyVersion_parse (faculty_json (template tenantId changeRef role))) TEMPLATE_ROLES.

(** ** identity-ceiling.ts *)

Definition INTELLIGENCE_FACULTY_ROUTING_V1 : list string :=
  ["classA.name"; "classA.constitution"; "classA.values"; "classA.operatorRelationship"; "classA.facultyFraming";
   "classA.memoryPolicy"; "classC.persona"; "classC.communication"; "classC.behaviour"].

(** The verifier gets no identity. *)
Definition CEILINGS : list (string * list string) :=
  [("intelligence@faculty-routing/v1", INTELLIGENCE_FACULTY_ROUTING_V1); ("verifier@faculty-routing/v1", [])].

Definition identityFramingCeiling (facultyId policyVersion : string) : list string :=
  default [] (map_get CEILINGS (facultyId +:+ "@" +:+ policyVersion)).

(** ** registry.ts *)

(** The rows of faculty_versions and faculty_pins; [jsonb] equality is blind to key order. *)
Record FacultyRow := {
  fr_tenantId : string; fr_facultyId : FacultyId; fr_version : Z; fr_definition : json; fr_digest : string
}.
Record PinRow := {
  pn_tenantId : string; pn_taskId : string; pn_stepId : string; pn_facultyId : FacultyId; pn_facultyVersion : Z;
  pn_pin : json
}.

Definition jsonb_eq (a b : json) : bool := canonical a === canonical b.

(** Where the faculty tables live among the ledger's. *)
Class FacultyTables (X : Type) := {
  ft_versions : X → list FacultyRow;
  ft_pins : X → list PinRow;
  ft_add_pin : PinRow → X → X;
  ft_pins_add r x : ft_pins (ft_add_pin r x) = ft_pins x ++ [r];
  ft_versions_add r x : ft_versions (ft_add_pin r x) = ft_versions x
}.

Record FacultyRoute := { rt_provider : Provider; rt_model : string }.
Record FacultyRoutes := { rts_analyst : FacultyRoute; rts_reviewer : FacultyRoute }.

Definition route_for (routes : FacultyRoutes) (operation : Operation) : FacultyRoute :=
  if operation === OP_RUNTIME_ANALYSE then rts_analyst routes else rts_reviewer routes.

Record PinInput := { pi_tenantId : string; pi_taskId : string; pi_stepId : string }.

(** The view faculty_current: the greatest version. *)
Definition later (a b : FacultyRow) : bool := fr_version b <=? fr_version a.
Definition faculty_current (rows : list FacultyRow) (tenantId : string) (id : FacultyId) : option FacultyRow :=
  let mine := List.filter (λ r, (fr_tenantId r === tenantId) && (fr_facultyId r === id)) rows in
  List.find (λ r, forallb (later r) mine) mine.

Definition find_pin (rows : list PinRow) (taskId stepId : string) : option PinRow :=
  List.find (λ r, (pn_taskId r === taskId) && (pn_stepId r === stepId)) rows.

Section registry.
Context {X : Type} `{FacultyTables X} (routes : FacultyRoutes).
Implicit Types (d : LedgerDb X).

Definition set_pins (f : X → X) d : LedgerDb X :=
  LDb (l_principals d) (l_roles d) (l_tasks d) (l_steps d) (l_evidence d) (l_events d) (l_outcomes d) (l_terminal d)
    (l_bindings d) (l_effects d) (f (l_pins d)).

(** The trigger faculty_pin_guard and the primary key. *)
Definition row_enabled (r : FacultyRow) : bool :=
  match fr_definition r with JObj fs => match map_get fs "enabled" with Some (JBool b) => b | _ => false end | _ => false end.

(** [select ... into strict] *)
Definition strict {A} (o : option A) : prog (LedgerDb X) A :=
  match o with Some x => mret x | None => throw_st (pg_error "P0002") end.

(** The part of the plan the trigger reads, and what it lets a pin of the operation hold. *)
Definition pin_within_plan (recipe : RecipeId) (op : Operation) (p : FacultyPin) : bool :=
  let f := fp_faculty p in
  (recipe === RepoAnalysisMission) && bool_decide (op ∈ [OP_RUNTIME_ANALYSE; OP_RUNTIME_REVIEW]) && (fp_operation p === op) &&
  (fv_id f === if op === OP_RUNTIME_ANALYSE then F_intelligence else F_verifier) &&
  (fp_routingReason p === if op === OP_RUNTIME_ANALYSE then REASON_analyst else REASON_reviewer) &&
  bool_decide (MISSION_RECIPE ∈ fv_permittedRecipes f) && bool_decide (op ∈ fv_permittedOperations f) &&
  bool_decide (MODEL_TEXT ∈ fv_permittedCapabilityClasses f) && bool_decide (fp_provider p ∈ fv_providerPreferences f).

(** The trigger, then the primary key, then the foreign key to the task's steps (the other
    two are of rows the trigger has read).  The pin's faculty is the stored definition, so
    the trigger's reads of the definition are reads of it. *)
Definition insert_pin (p : FacultyPin) : prog (LedgerDb X) unit :=
  d ← get_st;
  let rows := ft_versions (l_pins d) in
  let f := fp_faculty p in
  r ← strict (List.find (λ r, (fr_tenantId r === fp_tenantId p) && (fr_facultyId r === fv_id f) && (fr_version r =? fv_version f)) rows);
  c ← strict (faculty_current rows (fp_tenantId p) (fv_id f));
  guard (row_enabled r && row_enabled c && jsonb_eq (faculty_json f) (fr_definition r) &&
         (fp_facultyDigest p === fr_digest r) && (fp_policyVersion p === fv_policyVersion f)) (pg_error "23514");;
  t ← strict (t ← l_tasks d !! fp_taskId p; if task_tenant t === fp_tenantId p then Some t else None);
  guard (task_status t === RUNNING) (pg_error "23514");;
  plan ← strict (match plan_events (fp_taskId p) d with [e] => event_plan e | _ => None end);
  s ← strict (List.find (λ s, ps_id s === fp_stepId p) (plan_steps plan));
  guard (pin_within_plan (plan_recipe plan) (ps_operation s) p) (pg_error "23514");;
  guard (match find_pin (ft_pins (l_pins d)) (fp_taskId p) (fp_stepId p) with Some _ => false | None => true end) (pg_error "23505");;
  guard (match l_steps d !! fp_stepId p with Some s => step_taskId s === fp_taskId p | None => false end) (pg_error "23503");;
  put_st (set_pins (ft_add_pin {| pn_tenantId := fp_tenantId p; pn_taskId := fp_taskId p; pn_stepId := fp_stepId p;
    pn_facultyId := fv_id f; pn_facultyVersion := fv_version f; pn_pin := pin_json p |}) d).

(** A new pin for a step of a running task, from its admitted plan and the current faculty. *)
Definition select_pin (input : PinInput) (task : Task) d : result FacultyPin :=
  refuse_unless (task_status task === RUNNING) "FACULTY_TASK_NOT_RUNNING";;
  match plan_events (task_id task) d with
  | [e] =>
      match event_plan e with
      | None => Throw (zod_error "plan")
      | Some raw =>
          plan ← ExecutionPlan_parse raw;
          again ← planTask task (plan_recipe plan);
          refuse_unless (capabilityDigest (plan_json plan) === capabilityDigest (plan_json again)) "FACULTY_PLAN_REFUSED";;
          match List.find (λ s, ps_id s === pi_stepId input) (plan_steps plan) with
          | None => Throw (faculty_refusal "FACULTY_STEP_REFUSED")
          | Some step =>
              route ← routeFaculty (ps_operation step);
              match faculty_current (ft_versions (l_pins d)) (pi_tenantId input) route.1 with
              | None => Throw (faculty_refusal "FACULTY_NOT_CONFIGURED")
              | Some current =>
                  faculty ← FacultyVersion_parse (fr_definition current);
                  let deployed := route_for routes (ps_operation step) in
                  validateFacultyPin (pin_json
                    {| fp_tenantId := pi_tenantId input; fp_taskId := pi_taskId input; fp_stepId := pi_stepId input;
                       fp_operation := ps_operation step; fp_faculty := faculty; fp_facultyDigest := fr_digest current;
                       fp_routingReason := route.2; fp_provider := rt_provider deployed; fp_model := rt_model deployed;
                       fp_policyVersion := fv_policyVersion faculty |})
              end
          end
      end
  | _ => Throw (faculty_refusal "FACULTY_PLAN_REFUSED")
  end.

Definition pin (input : PinInput) : prog (LedgerDb X) FacultyPin := transact (
  d ← get_st;
  match l_tasks d !! pi_taskId input with
  | Some row =>
      lift_result (refuse_unless (task_tenant row === pi_tenantId input) "FACULTY_TASK_REFUSED");;
      task ← lift_result (Task_parse row);
      match List.find (λ r, (pn_taskId r === pi_taskId input) && (pn_stepId r === pi_stepId input) &&
                            (pn_tenantId r === pi_tenantId input)) (ft_pins (l_pins d)) with
      | Some prior => lift_result (validateFacultyPin (pn_pin prior))
      | None =>
          p ← lift_result (select_pin input task d);
          insert_pin p;;
          mret p
      end
  | None => throw_st (faculty_refusal "FACULTY_TASK_REFUSED")
  end).

(** Before every call of a provider. *)
Definition authorize_call (raw : FacultyPin) (request : ModelRequest) d : result unit :=
  p ← validateFacultyPin (pin_json raw);
  bounded ← boundFacultyRequest p request;
  refuse_unless (mq_maxOutputTokens bounded =? mq_maxOutputTokens request) "FACULTY_OUTPUT_BUDGET_REFUSED";;
  let route := route_for routes (fp_operation p) in
  refuse_unless ((rt_provider route === fp_provider p) && (rt_model route === fp_model p)) "FACULTY_PINNED_ROUTE_UNAVAILABLE";;
  match List.find (λ r, (pn_taskId r === fp_taskId p) && (pn_stepId r === fp_stepId p) && (pn_tenantId r === fp_tenantId p))
          (ft_pins (l_pins d)), l_tasks d !! fp_taskId p with
  | Some row, Some t =>
      match faculty_current (ft_versions (l_pins d)) (fp_tenantId p) (pn_facultyId row) with
      | Some current =>
          refuse_unless ((task_tenant t === fp_tenantId p) && (task_status t === RUNNING) &&
                         (capabilityDigest (pn_pin row) === capabilityDigest (pin_json p))) "FACULTY_EXECUTION_REFUSED";;
          definition ← FacultyVersion_parse (fr_definition current);
          refuse_unless (fv_enabled definition) "FACULTY_DISABLED"
      | None => Throw (faculty_refusal "FACULTY_EXECUTION_REFUSED")
      end
  | _, _ => Throw (faculty_refusal "FACULTY_EXECUTION_REFUSED")
  end.
End registry.

(** ** Facts *)

(** *** Versions and pins are read back *)

Lemma rereads_tools : rereads no_tools (λ _, JArr []).
Proof.
  intros v x. unfold no_tools. destruct v as [| | | |l| |]; try done. cbn. destruct l as [|w l]; cbn; [by intros <-%Ok_inj|done].
Qed.

Lemma rereads_FText : rereads FText JStr.
Proof. apply rereads_text. Qed.

Lemma rereads_strings lo hi (schema : json → result string) :
  rereads schema JStr → rereads (z_array lo hi schema) strings_json.
Proof. apply rereads_array. Qed.

Lemma rereads_enums {A} `{EqDecision A} lo hi (names : list (string * A)) :
  rereads (z_enum names) (λ x, JStr (enum_name names x)) → rereads (z_array lo hi (z_enum names)) (enums_json names).
Proof. apply rereads_array. Qed.

#[export] Hint Resolve rereads_tools rereads_FText : rereads.
#[export] Hint Resolve rereads_strings rereads_enums | 0 : rereads.

Lemma FacultyContextBudget_rereads : rereads FacultyContextBudget_parse context_budget_json.
Proof. reread_object FacultyContextBudget_parse context_budget_json. Qed.
Lemma FacultyBudget_rereads : rereads FacultyBudget_parse faculty_budget_json.
Proof. reread_object FacultyBudget_parse faculty_budget_json. Qed.
Lemma FacultyProvenance_rereads : rereads FacultyProvenance_parse provenance_json.
Proof. reread_object FacultyProvenance_parse provenance_json. Qed.
#[export] Hint Resolve FacultyContextBudget_rereads FacultyBudget_rereads FacultyProvenance_rereads : rereads.

Lemma FacultyVersion_rereads : rereads FacultyVersion_parse faculty_json.
Proof. reread_object FacultyVersion_parse faculty_json. Qed.
#[export] Hint Resolve FacultyVersion_rereads : rereads.

Lemma FacultyPin_rereads : rereads FacultyPin_parse pin_json.
Proof. reread_object FacultyPin_parse pin_json. Qed.
