(* ===== verification/FacultyFacts.v ===== *)
(** * Faculties: what the pins guarantee

    Facts about Faculty.v: [validateFacultyPin] accepts exactly the pins of [pin_valid]; the
    deployed templates pin the analyst and the reviewer and nobody else; a bounded request
    stays within the pinned budgets; a pin once written is the answer for its step; the
    completion check holds the evidence of a mission against its two pins. *)

From S2P Require Import Prelude JsNumber JsDate Digest Contracts Plan Capability Json Mission Approval Regex.
From S2P Require Import MemPolicy MemContext Memory MemPort Model Ledger Faculty.
Local Open Scope Z_scope.
Local Open Scope js_scope.

(** *** What a pin guarantees *)

Record pin_valid (p : FacultyPin) : Prop := {
  pv_route : routeFaculty (fp_operation p) = Ok (fv_id (fp_faculty p), fp_routingReason p);
  pv_tenant : fp_tenantId p = fv_tenantId (fp_faculty p);
  pv_policy : fp_policyVersion p = fv_policyVersion (fp_faculty p);
  pv_digest : fp_facultyDigest p = capabilityDigest (faculty_json (fp_faculty p));
  pv_enabled : fv_enabled (fp_faculty p) = true;
  pv_recipe : MISSION_RECIPE ∈ fv_permittedRecipes (fp_faculty p);
  pv_operation : fp_operation p ∈ fv_permittedOperations (fp_faculty p);
  pv_capability : MODEL_TEXT ∈ fv_permittedCapabilityClasses (fp_faculty p);
  pv_provider : fp_provider p ∈ fv_providerPreferences (fp_faculty p);
  pv_reviewer : fp_operation p = OP_RUNTIME_REVIEW →
    fv_permittedMemoryClasses (fp_faculty p) = [] ∧ fc_maxMemoryTokens (fv_contextBudget (fp_faculty p)) = 0 ∧
    fv_review (fp_faculty p) = KERNEL_RECONCILIATION;
  pv_analyst : fp_operation p = OP_RUNTIME_ANALYSE → fv_review (fp_faculty p) = INDEPENDENT_VERIFIER;
  pv_unpriced : fb_maxCostUsd (fv_budget (fp_faculty p)) = None
}.

Lemma FacultyPin_faculty raw p :
  FacultyPin_parse raw = Ok p → FacultyVersion_parse (faculty_json (fp_faculty p)) = Ok (fp_faculty p).
Proof.
  intros H%FacultyPin_rereads. unfold FacultyPin_parse in H. apply bind_ok in H as (fs & _ & H).
  do 4 apply bind_ok in H as (? & _ & H). apply bind_ok in H as (f & Hf & H). do 5 apply bind_ok in H as (? & _ & H).
  apply Ok_inj in H as <-. cbn [fp_faculty]. apply z_field_ok in Hf as [v Hf]. by apply FacultyVersion_rereads in Hf.
Qed.

#[local] Arguments capabilityDigest : simpl never.
#[local] Arguments faculty_json : simpl never.
#[local] Arguments pin_json : simpl never.
#[local] Arguments FacultyVersion_parse : simpl never.
#[local] Arguments FacultyPin_parse : simpl never.
#[local] Arguments MISSION_RECIPE : simpl never.

(** A pin is accepted exactly when it is well formed and routes its operation to the one
    faculty of that operation, with the digest of that very version, enabled, permitted for
    the recipe, the operation, the capability and the provider, unpriced, and with the
    reviewer isolated: the reviewer has no memory class and no memory budget and answers to
    the kernel, the analyst answers to an independent reviewer. *)
Theorem validateFacultyPin_exact raw p :
  validateFacultyPin raw = Ok p ↔ FacultyPin_parse raw = Ok p ∧ pin_valid p.
Proof.
  unfold validateFacultyPin, refuse_unless. split.
  - intros (p' & Hp & H)%bind_ok. rewrite (FacultyPin_faculty _ _ Hp) in H. cbn [mbind result_bind] in H.
    apply bind_ok in H as ([id reason] & Hroute & H). cbn [fst snd] in H.
    apply ensure_ok in H as [H1 H]. apply ensure_ok in H as [H2 H]. apply ensure_ok in H as [H3 H].
    apply ensure_ok in H as [H4 H]. apply ensure_ok in H as [H5 H]. apply ensure_ok in H as [H6 H].
    apply Ok_inj in H as ->. split; [done|]. to_prop. destruct_and?. to_prop.
    constructor; try done; try congruence.
    + intros Hop. rewrite (bool_decide_true _ Hop) in H4. cbn [andb] in H4. by to_prop.
    + intros Hop. rewrite (bool_decide_true _ Hop) in H5. cbn [andb] in H5. by to_prop.
  - intros [Hp [H1 H2 H3 H4 H5 H6 H7 H8 H9 H10 H11 H12]]. rewrite Hp. cbn [mbind result_bind].
    rewrite (FacultyPin_faculty _ _ Hp). cbn [mbind result_bind]. rewrite H1. cbn [mbind result_bind fst snd].
    assert ((fp_operation p === OP_RUNTIME_REVIEW) &&
      ((fv_permittedMemoryClasses (fp_faculty p) !== []) || (fc_maxMemoryTokens (fv_contextBudget (fp_faculty p)) !== 0) ||
       (fv_review (fp_faculty p) !== KERNEL_RECONCILIATION)) = false) as ->.
    { case_bool_decide as Hop; [|done]. destruct (H10 Hop) as (-> & -> & ->). by rewrite !bool_decide_true by done. }
    assert ((fp_operation p === OP_RUNTIME_ANALYSE) && (fv_review (fp_faculty p) !== INDEPENDENT_VERIFIER) = false) as ->.
    { case_bool_decide as Hop; [|done]. rewrite (H11 Hop). by rewrite bool_decide_true by done. }
    rewrite H5, !bool_decide_true by done. done.
Qed.

(** A pin that was accepted is accepted again: pins are passed on as values. *)
Lemma validateFacultyPin_again raw p : validateFacultyPin raw = Ok p → validateFacultyPin (pin_json p) = Ok p.
Proof. rewrite !validateFacultyPin_exact. intros [Hp%FacultyPin_rereads ?]. done. Qed.

Lemma pin_json_self p q : validateFacultyPin (pin_json p) = Ok q → FacultyPin_parse (pin_json p) = Ok q.
Proof. by intros [? _]%validateFacultyPin_exact. Qed.

(** *** Bounded requests *)

Lemma faculty_budgets v f : FacultyVersion_parse v = Ok f →
  fc_maxInputBytes (fv_contextBudget f) ≤ 512000 ∧ fb_maxOutputTokens (fv_budget f) ≤ 8192.
Proof.
  unfold FacultyVersion_parse. intros (fs & _ & H)%bind_ok. do 16 apply bind_ok in H as (? & _ & H).
  apply bind_ok in H as (c & Hc & H). apply bind_ok in H as (b & Hb & H). do 4 apply bind_ok in H as (? & _ & H).
  apply Ok_inj in H as <-. cbn [fv_contextBudget fv_budget]. apply z_field_ok in Hc as [vc Hc], Hb as [vb Hb]. split.
  - unfold FacultyContextBudget_parse in Hc. apply bind_ok in Hc as (gs & _ & H). apply bind_ok in H as (i & Hi & H).
    apply bind_ok in H as (m & _ & <-%Ok_inj). cbn. apply z_field_ok in Hi as [w Hi]. destruct w; try done.
    cbn in Hi. apply ensure_ok in Hi as [Hi <-%Ok_inj]. lia.
  - unfold FacultyBudget_parse in Hb. apply bind_ok in Hb as (gs & _ & H). apply bind_ok in H as (i & Hi & H).
    do 2 apply bind_ok in H as (? & _ & H). apply Ok_inj in H as <-. cbn. apply z_field_ok in Hi as [w Hi]. destruct w; try done.
    cbn in Hi. apply ensure_ok in Hi as [Hi <-%Ok_inj]. lia.
Qed.

Lemma boundFacultyRequest_ok p q request r :
  validateFacultyPin (pin_json p) = Ok q → boundFacultyRequest p request = Ok r →
  mq_taskId request = fp_taskId q ∧ mq_stepId request = fp_stepId q ∧
  input_bytes (mq_messages request) ≤ fc_maxInputBytes (fv_contextBudget (fp_faculty q)) ∧
  r = with_tokens request (Z.min (mq_maxOutputTokens request) (fb_maxOutputTokens (fv_budget (fp_faculty q)))).
Proof.
  intros Hq. unfold boundFacultyRequest, refuse_unless. rewrite Hq. cbn [mbind result_bind].
  intros [H1 H]%ensure_ok. apply ensure_ok in H as [H2 <-%Ok_inj]. to_prop. done.
Qed.

(** What the projection of a pinned faculty hands to a provider: the call, the task, the
    step and the trace of the request; the request's messages with the role text before the
    system message and nothing else added or removed; no more bytes than the pinned context
    budget and no more output tokens than the request asked for or the pin allows.  A request
    of another task or step is refused. *)
Theorem projected_request_bounded p request r :
  projectFacultyRequest p request = Ok r →
  ∃ q, validateFacultyPin (pin_json p) = Ok q ∧
    mq_taskId request = fp_taskId q ∧ mq_stepId request = fp_stepId q ∧
    mq_callId r = mq_callId request ∧ mq_taskId r = mq_taskId request ∧ mq_stepId r = mq_stepId request ∧
    mq_trace r = mq_trace request ∧
    mq_messages r = with_role (faculty_role (fp_faculty q)) (mq_messages request) ∧
    tail (mq_messages r) = tail (mq_messages request) ∧
    input_bytes (mq_messages r) ≤ fc_maxInputBytes (fv_contextBudget (fp_faculty q)) ≤ 512000 ∧
    mq_maxOutputTokens r ≤ mq_maxOutputTokens request ∧
    mq_maxOutputTokens r ≤ fb_maxOutputTokens (fv_budget (fp_faculty q)) ≤ 8192.
Proof.
  unfold projectFacultyRequest. intros (q & Hq & H)%bind_ok. pose proof (validateFacultyPin_again _ _ Hq) as Hqq.
  destruct (boundFacultyRequest_ok _ _ _ _ Hqq H) as (H1 & H2 & H3 & ->).
  assert (fc_maxInputBytes (fv_contextBudget (fp_faculty q)) ≤ 512000 ∧ fb_maxOutputTokens (fv_budget (fp_faculty q)) ≤ 8192)
    as [Hi Ho].
  { apply pin_json_self, FacultyPin_faculty in Hq. eapply faculty_budgets; exact Hq. }
  exists q. cbn [with_tokens with_messages mq_callId mq_taskId mq_stepId mq_trace mq_messages mq_maxOutputTokens] in *.
  split_and!; try done; try lia. by destruct (mq_messages request).
Qed.

(** *** The core team *)

Lemma Sha256_ok_hex s : Sha256_ok (Sha256.sha256_hex s) = true.
Proof.
  pose proof (sha256_hex_ok s) as H. unfold Digest_ok in H. apply andb_true_iff in H as [Hl%bool_decide_eq_true Hh].
  unfold Sha256_ok, hex_text. rewrite Hh, andb_true_r.
  assert (∀ t, length (String.list_ascii_of_string t) = String.length t) as Hs.
  { intros t. induction t as [|c t IH]; [done|exact (f_equal S IH)]. }
  rewrite Hs in Hl. rewrite Hl. done.
Qed.

Lemma map_all_map {A B} (f : A → result B) (g : A → B) l x :
  map_all f l = Ok (map g l) → x ∈ l → f x = Ok (g x).
Proof.
  induction l as [|y l IH]; cbn [map_all map]; [by intros _ ?%elem_of_nil|].
  intros (z & Hz & (zs & Hzs & [= -> ->])%bind_ok)%bind_ok [->|Hx]%elem_of_cons; auto.
Qed.

Lemma map_all_elem {A B} (f : A → result B) l l' y :
  map_all f l = Ok l' → y ∈ l' → ∃ x, x ∈ l ∧ f x = Ok y.
Proof.
  revert l'. induction l as [|x l IH]; intros l'; cbn [map_all]; [by intros <-%Ok_inj ?%elem_of_nil|].
  intros (z & Hz & (zs & Hzs & <-%Ok_inj)%bind_ok)%bind_ok [->|Hy]%elem_of_cons.
  - exists x. split; [left|done].
  - destruct (IH _ Hzs Hy) as (w & Hw & ?). exists w. split; [by right|done].
Qed.

Lemma map_all_length {A B} (f : A → result B) l l' : map_all f l = Ok l' → length l' = length l.
Proof.
  revert l'. induction l as [|x l IH]; intros l'; cbn [map_all]; [by intros <-%Ok_inj|].
  intros (z & _ & (zs & Hzs & <-%Ok_inj)%bind_ok)%bind_ok. cbn [length]. by rewrite (IH _ Hzs).
Qed.

Lemma map_all_is_map {A B} (f : A → result B) (g : A → B) l :
  (∀ x, x ∈ l → f x = Ok (g x)) → map_all f l = Ok (map g l).
Proof.
  induction l as [|y l IH]; intros H; cbn [map_all map]; [done|]. rewrite (H y) by left. cbn [mbind result_bind].
  rewrite IH; [done|]. intros x Hx. apply H. by right.
Qed.

(** The same configuration for another tenant and change. *)
Definition retenant (tenantId changeRef : string) (f : FacultyVersion) : FacultyVersion :=
  {| fv_tenantId := tenantId; fv_id := fv_id f; fv_version := fv_version f; fv_name := fv_name f;
     fv_purpose := fv_purpose f; fv_responsibilities := fv_responsibilities f; fv_exclusions := fv_exclusions f;
     fv_enabled := fv_enabled f; fv_permittedRecipes := fv_permittedRecipes f;
     fv_permittedOperations := fv_permittedOperations f;
     fv_permittedCapabilityClasses := fv_permittedCapabilityClasses f;
     fv_permittedMemoryClasses := fv_permittedMemoryClasses f; fv_providerPreferences := fv_providerPreferences f;
     fv_preferredModelTraits := fv_preferredModelTraits f; fv_contextBudget := fv_contextBudget f;
     fv_budget := fv_budget f; fv_review := fv_review f; fv_escalationRules := fv_escalationRules f;
     fv_policyVersion := fv_policyVersion f; fv_changeRef := changeRef |}.

Lemma retenant_parses tenantId changeRef v f :
  Id_ok tenantId = true → 1 ≤ js_length changeRef ≤ 1000 → FacultyVersion_parse v = Ok f →
  FacultyVersion_parse (faculty_json (retenant tenantId changeRef f)) = Ok (retenant tenantId changeRef f).
Proof.
  intros Ht Hc. assert (z_string Id_ok (JStr tenantId) = Ok tenantId) as H1 by (cbn; by rewrite Ht).
  assert (FacultyProvenance_parse (provenance_json changeRef) = Ok changeRef) as H2.
  { assert (FText (JStr changeRef) = Ok changeRef) as F.
    { unfold FText, z_text. cbn. by assert ((1 <=? js_length changeRef) && (js_length changeRef <=? 1000) = true) as -> by lia. }
    unfold FacultyProvenance_parse, provenance_json. read_strict.
    assert (z_literal "ADR-0006" (JStr "ADR-0006") = Ok "ADR-0006") as F' by reflexivity. by read_fields. }
  unfold FacultyVersion_parse at 1. intros (fs & _ & H)%bind_ok. reread_fields H. settle_literals.
  unfold FacultyVersion_parse, faculty_json, retenant.
  cbn [fv_tenantId fv_id fv_version fv_name fv_purpose fv_responsibilities fv_exclusions fv_enabled fv_permittedRecipes
      fv_permittedOperations fv_permittedCapabilityClasses fv_permittedMemoryClasses fv_providerPreferences
      fv_preferredModelTraits fv_contextBudget fv_budget fv_review fv_escalationRules fv_policyVersion fv_changeRef].
  read_strict. by read_fields.
Qed.

Definition sample_tenant : string := "5f970749-7507-894b-a2e4-872ce20a94b7".

Lemma template_parses tenantId changeRef role :
  Id_ok tenantId = true → 1 ≤ js_length changeRef ≤ 1000 → role ∈ TEMPLATE_ROLES →
  FacultyVersion_parse (faculty_json (template tenantId changeRef role)) = Ok (template tenantId changeRef role).
Proof.
  intros Ht Hc Hrole.
  assert (template tenantId changeRef role = retenant tenantId changeRef (template sample_tenant "change" role)) as ->
    by (by destruct role as [[id name] purpose]).
  assert (map_all (λ role, FacultyVersion_parse (faculty_json (template sample_tenant "change" role))) TEMPLATE_ROLES =
          Ok (map (template sample_tenant "change") TEMPLATE_ROLES)) as Hall by (vm_compute; reflexivity).
  eapply retenant_parses; [done|done|]. exact (map_all_map _ _ _ _ Hall Hrole).
Qed.

(** A pin of a configured version. *)
Definition pin_of (f : FacultyVersion) (taskId stepId model : string) (operation : Operation) (reason : RoutingReason)
    (provider : Provider) : FacultyPin :=
  {| fp_tenantId := fv_tenantId f; fp_taskId := taskId; fp_stepId := stepId; fp_operation := operation; fp_faculty := f;
     fp_facultyDigest := capabilityDigest (faculty_json f); fp_routingReason := reason; fp_provider := provider;
     fp_model := model; fp_policyVersion := FACULTY_POLICY |}.

(** The core team is eight configurations, for every tenant and change.  Of these the
    analyst may be pinned to the analysis step and the verifier to the review step, with
    either provider; no other pin of any of them is valid, whatever else it says. *)
Theorem core_team_pins_two tenantId changeRef :
  Id_ok tenantId = true → 1 ≤ js_length changeRef ≤ 1000 →
  ∃ team, coreTeamTemplates tenantId changeRef = Ok team ∧ length team = 8%nat ∧
    Forall (λ f, fv_tenantId f = tenantId ∧ fv_version f = 1) team ∧
    (∀ f raw p, f ∈ team → validateFacultyPin raw = Ok p → fp_faculty p = f →
       (fv_id f = F_intelligence ∧ fp_operation p = OP_RUNTIME_ANALYSE) ∨
       (fv_id f = F_verifier ∧ fp_operation p = OP_RUNTIME_REVIEW)) ∧
    (∀ f taskId stepId model operation reason provider, f ∈ team →
       Id_ok taskId = true → Id_ok stepId = true → Label_ok model = true →
       routeFaculty operation = Ok (fv_id f, reason) →
       validateFacultyPin (pin_json (pin_of f taskId stepId model operation reason provider)) =
         Ok (pin_of f taskId stepId model operation reason provider)).
Proof.
  intros Ht Hc. exists (map (template tenantId changeRef) TEMPLATE_ROLES).
  split; [|split; [done|split; [|split]]].
  - unfold coreTeamTemplates. apply map_all_is_map. intros role. by apply template_parses.
  - apply Forall_forall. intros f (role & -> & _)%list_elem_of_fmap. by destruct role as [[id name] purpose].
  - intros f raw p _ Hp <-. apply validateFacultyPin_exact in Hp as [_ Hp]. pose proof (pv_route _ Hp) as Hr.
    destruct (fp_operation p); try done; injection Hr; intros; [left|right]; by split.
  - intros f taskId stepId model operation reason provider (role & -> & Hrole)%list_elem_of_fmap Htask Hstep Hmodel Hroute.
    apply validateFacultyPin_exact. split.
    + unfold FacultyPin_parse, pin_json, pin_of.
      cbn [fp_tenantId fp_taskId fp_stepId fp_operation fp_faculty fp_facultyDigest fp_routingReason fp_provider fp_model fp_policyVersion].
      assert (z_string Id_ok (JStr taskId) = Ok taskId) as F1 by (cbn; by rewrite Htask).
      assert (z_string Id_ok (JStr stepId) = Ok stepId) as F2 by (cbn; by rewrite Hstep).
      assert (z_string Label_ok (JStr model) = Ok model) as F3 by (cbn; by rewrite Hmodel).
      assert (z_string Id_ok (JStr (fv_tenantId (template tenantId changeRef role))) = Ok (fv_tenantId (template tenantId changeRef role))) as F4
        by (destruct role as [[id name] purpose]; cbn; by rewrite Ht).
      pose proof (template_parses _ _ _ Ht Hc Hrole) as F5.
      set (f := template tenantId changeRef role) in *. clearbody f.
      assert (z_string Sha256_ok (JStr (capabilityDigest (faculty_json f))) = Ok (capabilityDigest (faculty_json f))) as F6
        by (unfold z_string, capabilityDigest; by rewrite Sha256_ok_hex).
      assert (z_enum FACULTY_OPERATIONS (JStr (enum_name FACULTY_OPERATIONS operation)) = Ok operation) as F7 by (by destruct operation).
      assert (z_enum ROUTING_REASONS (JStr (enum_name ROUTING_REASONS reason)) = Ok reason) as F8 by (by destruct reason).
      assert (z_enum PROVIDERS (JStr (enum_name PROVIDERS provider)) = Ok provider) as F9 by (by destruct provider).
      assert (z_literal FACULTY_POLICY (JStr FACULTY_POLICY) = Ok FACULTY_POLICY) as F10 by done.
      read_strict. by read_fields.
    + assert (fv_id (template tenantId changeRef role) = role.1.1) as Hid by (by destruct role as [[id name] purpose]).
      rewrite Hid in Hroute. destruct role as [[id name] purpose]. cbn [fst] in Hroute.
      destruct operation; try done; injection Hroute; intros; subst; constructor; try reflexivity;
        try (cbn [pin_of fp_operation]; discriminate); try (cbn [pin_of fp_faculty template fv_permittedRecipes
          fv_permittedOperations fv_permittedCapabilityClasses]; apply elem_of_cons; by left).
      * destruct provider; [by left|by right; left].
      * destruct provider; [by right; left|by left].
      * by intros _.
Qed.
