(* ===== verification/FacultyPins.v ===== *)
(** * Faculties: the registry and the completion check

    Facts about Faculty.v.  A pin names the step it was asked for and is the answer for that
    step from then on, whatever happens to the configurations or to the deployment; before a
    call the registry holds the pin against the task and the current configuration; the
    completion check of verify.ts accepts exactly the evidence that repeats the two pins. *)

From S2P Require Import Prelude JsNumber JsDate Digest Contracts Plan Capability Json Mission Approval Regex.
From S2P Require Import MemPolicy MemContext Memory MemPort Model Ledger Faculty FacultyFacts.
Local Open Scope Z_scope.
Local Open Scope js_scope.

#[local] Arguments capabilityDigest : simpl never.
#[local] Arguments faculty_json : simpl never.
#[local] Arguments pin_json : simpl never.
#[local] Arguments FacultyVersion_parse : simpl never.
#[local] Arguments FacultyPin_parse : simpl never.
#[local] Arguments validateFacultyPin : simpl never.
#[local] Arguments planTask : simpl never.
#[local] Arguments ExecutionPlan_parse : simpl never.

(** *** A pin built from values is those values *)

Lemma z_string_back ok s x : z_string ok (JStr s) = Ok x → x = s.
Proof. cbn. intros H. by apply ensure_ok in H as [_ <-%Ok_inj]. Qed.

Lemma z_field_at_back {A} fs k (schema : json → result A) v x y :
  map_get fs k = Some v → z_field fs k schema = Ok y → (schema v = Ok y → y = x) → y = x.
Proof. unfold z_field. intros ->. auto. Qed.

(** [F] reads a field that was written from the value in the goal. *)
Ltac read_back F :=
  eapply z_field_at_back; [|exact F|]; [reflexivity|];
  first [apply z_string_back | match goal with |- _ → _ = ?x => destruct x; by intros [=] end].

Lemma pin_json_back v q p :
  FacultyVersion_parse v = Ok (fp_faculty q) → FacultyPin_parse (pin_json q) = Ok p → p = q.
Proof.
  intros Hf%FacultyVersion_rereads H. unfold FacultyPin_parse, pin_json in H. apply bind_ok in H as (fs & Hfs & H).
  assert (fs = [("tenantId", JStr (fp_tenantId q)); ("taskId", JStr (fp_taskId q)); ("stepId", JStr (fp_stepId q));
        ("operation", JStr (enum_name FACULTY_OPERATIONS (fp_operation q))); ("faculty", faculty_json (fp_faculty q));
        ("facultyDigest", JStr (fp_facultyDigest q)); ("routingReason", JStr (enum_name ROUTING_REASONS (fp_routingReason q)));
        ("provider", JStr (enum_name PROVIDERS (fp_provider q))); ("model", JStr (fp_model q));
        ("policyVersion", JStr (fp_policyVersion q))]) as ->.
  { unfold z_strict in Hfs. by apply ensure_ok in Hfs as [_ <-%Ok_inj]. }
  clear Hfs.
  apply bind_ok in H as (tenant & F1 & H). apply bind_ok in H as (task & F2 & H). apply bind_ok in H as (step & F3 & H).
  apply bind_ok in H as (op & F4 & H). apply bind_ok in H as (f & F5 & H). apply bind_ok in H as (dg & F6 & H).
  apply bind_ok in H as (rs & F7 & H). apply bind_ok in H as (pr & F8 & H). apply bind_ok in H as (md & F9 & H).
  apply bind_ok in H as (po & F10 & H). apply Ok_inj in H as <-.
  assert (tenant = fp_tenantId q) as -> by read_back F1. assert (task = fp_taskId q) as -> by read_back F2.
  assert (step = fp_stepId q) as -> by read_back F3. assert (op = fp_operation q) as -> by read_back F4.
  assert (f = fp_faculty q) as -> by (eapply z_field_at_back; [|exact F5|]; [reflexivity|rewrite Hf; by intros [=]]).
  assert (dg = fp_facultyDigest q) as -> by read_back F6. assert (rs = fp_routingReason q) as -> by read_back F7.
  assert (pr = fp_provider q) as -> by read_back F8. assert (md = fp_model q) as -> by read_back F9.
  assert (po = fp_policyVersion q) as -> by read_back F10. by destruct q.
Qed.

Section registry.
Context {X : Type} `{FacultyTables X}.
Implicit Types (d : LedgerDb X).

(** The tables' CHECK constraints: a pin's columns are its fields. *)
Definition pins_ok (rows : list PinRow) : Prop :=
  Forall (λ r, ∃ p, FacultyPin_parse (pn_pin r) = Ok p ∧ fp_tenantId p = pn_tenantId r ∧ fp_taskId p = pn_taskId r ∧
                    fp_stepId p = pn_stepId r) rows.

Definition find_row (input : PinInput) (rows : list PinRow) : option PinRow :=
  List.find (λ r, (pn_taskId r === pi_taskId input) && (pn_stepId r === pi_stepId input) &&
                  (pn_tenantId r === pi_tenantId input)) rows.

Lemma find_row_app input rows more r : find_row input rows = Some r → find_row input (rows ++ more) = Some r.
Proof. unfold find_row. induction rows as [|x rows IH]; simpl; [done|]. by destruct (_ && _). Qed.

Lemma find_row_new input rows p :
  find_row input rows = None → fp_tenantId p = pi_tenantId input → fp_taskId p = pi_taskId input →
  fp_stepId p = pi_stepId input →
  find_row input (rows ++ [{| pn_tenantId := fp_tenantId p; pn_taskId := fp_taskId p; pn_stepId := fp_stepId p;
    pn_facultyId := fv_id (fp_faculty p); pn_facultyVersion := fv_version (fp_faculty p); pn_pin := pin_json p |}]) =
  Some {| pn_tenantId := fp_tenantId p; pn_taskId := fp_taskId p; pn_stepId := fp_stepId p;
    pn_facultyId := fv_id (fp_faculty p); pn_facultyVersion := fv_version (fp_faculty p); pn_pin := pin_json p |}.
Proof.
  intros Hn H1 H2 H3. unfold find_row in *. induction rows as [|x rows IH]; simpl in *.
  - by rewrite H1, H2, H3, !bool_decide_true by done.
  - by destruct (_ && _); [|apply IH].
Qed.

Lemma select_pin_ok routes input task d p :
  select_pin routes input task d = Ok p →
  fp_tenantId p = pi_tenantId input ∧ fp_taskId p = pi_taskId input ∧ fp_stepId p = pi_stepId input ∧
  validateFacultyPin (pin_json p) = Ok p ∧ task_status task = RUNNING ∧
  ∃ e raw plan step current, plan_events (task_id task) d = [e] ∧ event_plan e = Some raw ∧
    ExecutionPlan_parse raw = Ok plan ∧ step ∈ plan_steps plan ∧ ps_id step = pi_stepId input ∧
    ps_operation step = fp_operation p ∧
    faculty_current (ft_versions (l_pins d)) (pi_tenantId input) (fv_id (fp_faculty p)) = Some current ∧
    FacultyVersion_parse (fr_definition current) = Ok (fp_faculty p) ∧ fr_digest current = fp_facultyDigest p ∧
    fp_provider p = rt_provider (route_for routes (fp_operation p)) ∧ fp_model p = rt_model (route_for routes (fp_operation p)).
Proof.
  unfold select_pin, refuse_unless. intros [Hrun Hs]%ensure_ok. to_prop.
  destruct (plan_events (task_id task) d) as [|e [|]] eqn:Ee; [done| |done].
  destruct (event_plan e) as [raw|] eqn:Er; [|done].
  apply bind_ok in Hs as (plan & Hplan & Hs). apply bind_ok in Hs as (again & _ & Hs). apply ensure_ok in Hs as [_ Hs].
  destruct (List.find _ (plan_steps plan)) as [step|] eqn:Estep; [|done]. apply find_some in Estep as [Hin Hid].
  apply list_elem_of_In in Hin. to_prop.
  apply bind_ok in Hs as ([id reason] & Hroute & Hs). cbn [fst snd] in Hs.
  destruct (faculty_current _ _ _) as [current|] eqn:Ec; [|done].
  apply bind_ok in Hs as (f & Hf & Hs). pose proof (pin_json_self _ _ Hs) as Hback.
  eassert (p = _) as Hp by (eapply pin_json_back; [|exact Hback]; exact Hf). pose proof (validateFacultyPin_again _ _ Hs) as Hv.
  apply validateFacultyPin_exact in Hs as [_ Hval]. pose proof (pv_route _ Hval) as Hr. rewrite Hp in Hr. cbn in Hr.
  rewrite Hroute in Hr. injection Hr as ->. rewrite Hp in Hv |- *. cbn in Hv |- *.
  split_and!; try done. exists e, raw, plan, step, current. by split_and!.
Qed.

Lemma strict_ok {A} (o : option A) d d' x : strict o d = (d', Ok x) → d' = d ∧ o = Some x.
Proof. destruct o; [by intros [-> ->]%ret_ok|done]. Qed.

Lemma insert_pin_ok p d d' u : insert_pin p d = (d', Ok u) →
  d' = set_pins (ft_add_pin {| pn_tenantId := fp_tenantId p; pn_taskId := fp_taskId p; pn_stepId := fp_stepId p;
    pn_facultyId := fv_id (fp_faculty p); pn_facultyVersion := fv_version (fp_faculty p); pn_pin := pin_json p |}) d.
Proof.
  unfold insert_pin, guard. rewrite get_bind.
  intros (r0 & ? & [-> _]%strict_ok & Hr)%pbind_ok. apply pbind_ok in Hr as (c & ? & [-> _]%strict_ok & Hr).
  apply pbind_ok in Hr as ([] & ? & [-> _]%check_ok & Hr). apply pbind_ok in Hr as (t & ? & [-> _]%strict_ok & Hr).
  apply pbind_ok in Hr as ([] & ? & [-> _]%check_ok & Hr). apply pbind_ok in Hr as (plan & ? & [-> _]%strict_ok & Hr).
  apply pbind_ok in Hr as (s & ? & [-> _]%strict_ok & Hr).
  do 3 apply pbind_ok in Hr as ([] & ? & [-> _]%check_ok & Hr). by injection Hr as <-.
Qed.

(** C30: The pin the registry answers with names the tenant, the task and the step it was
    asked about, and is valid; and it is final: from then on the answer for that step is the
    same pin, whatever happened to the task's status, to the faculty's versions (a new
    version, a disabled one) or to the deployed routes.  The table's columns keep agreeing
    with the pins in it. *)
Theorem pin_is_final routes input d d' p :
  pins_ok (ft_pins (l_pins d)) → pin routes input d = (d', Ok p) →
  pins_ok (ft_pins (l_pins d')) ∧
  fp_tenantId p = pi_tenantId input ∧ fp_taskId p = pi_taskId input ∧ fp_stepId p = pi_stepId input ∧
  validateFacultyPin (pin_json p) = Ok p ∧
  ∀ routes' d2 row more, l_tasks d2 !! pi_taskId input = Some row → task_tenant row = pi_tenantId input →
    is_ok (Task_parse row) = true → ft_pins (l_pins d2) = ft_pins (l_pins d') ++ more →
    pin routes' input d2 = (d2, Ok p).
Proof.
  intros Hok Hpin. unfold pin, transact in Hpin.
  destruct ((d0 ← get_st; _) d) as [d1 [p1|]] eqn:E; [|done]. injection Hpin as -> ->.
  rewrite get_bind in E. destruct (l_tasks d !! pi_taskId input) as [row|] eqn:Erow; [|done].
  apply pbind_ok in E as ([] & s1 & [-> Ht]%lift_ok & E). apply pbind_ok in E as (task & s2 & [-> Htask]%lift_ok & E).
  fold (find_row input (ft_pins (l_pins d))) in E.
  assert (∀ r q, find_row input (ft_pins (l_pins d')) = Some r → validateFacultyPin (pn_pin r) = Ok q →
    ∀ routes' d2 row more, l_tasks d2 !! pi_taskId input = Some row → task_tenant row = pi_tenantId input →
    is_ok (Task_parse row) = true → ft_pins (l_pins d2) = ft_pins (l_pins d') ++ more →
    pin routes' input d2 = (d2, Ok q)) as Hfinal.
  { intros r q Hr Hq routes' d2 row' more Hrow' Hten Hparse Hmore. unfold pin, transact. rewrite get_bind, Hrow'.
    unfold refuse_unless. rewrite Hten, bool_decide_true by done. destruct (Task_parse row') as [t|]; [|done].
    erewrite pbind_run by reflexivity. erewrite pbind_run by reflexivity.
    fold (find_row input (ft_pins (l_pins d2))). rewrite Hmore, (find_row_app _ _ _ _ Hr).
    unfold lift_result. by rewrite Hq. }
  destruct (find_row input (ft_pins (l_pins d))) as [prior|] eqn:Eprior.
  - apply lift_ok in E as [-> Hv]. pose proof Eprior as Hf. unfold find_row in Hf. apply find_some in Hf as [Hin Hcols].
    apply list_elem_of_In in Hin. unfold pins_ok in Hok. rewrite Forall_forall in Hok.
    destruct (Hok _ Hin) as (q & Hq & H1 & H2 & H3). pose proof (proj1 (validateFacultyPin_exact _ _) Hv) as [Hq' _].
    rewrite Hq in Hq'. apply Ok_inj in Hq' as ->. to_prop.
    split_and!; try congruence; [by apply Forall_forall|by apply validateFacultyPin_again in Hv|].
    by apply (Hfinal prior).
  - apply pbind_ok in E as (q & s3 & [-> Hsel]%lift_ok & E). apply pbind_ok in E as ([] & s4 & Hins & [-> ->]%ret_ok).
    destruct (select_pin_ok _ _ _ _ _ Hsel) as (H1 & H2 & H3 & Hv & _).
    apply insert_pin_ok in Hins as ->.
    assert (ft_pins (l_pins (set_pins (ft_add_pin {| pn_tenantId := fp_tenantId q; pn_taskId := fp_taskId q;
      pn_stepId := fp_stepId q; pn_facultyId := fv_id (fp_faculty q); pn_facultyVersion := fv_version (fp_faculty q);
      pn_pin := pin_json q |}) d)) = ft_pins (l_pins d) ++ [{| pn_tenantId := fp_tenantId q; pn_taskId := fp_taskId q;
      pn_stepId := fp_stepId q; pn_facultyId := fv_id (fp_faculty q); pn_facultyVersion := fv_version (fp_faculty q);
      pn_pin := pin_json q |}]) as Hpins by apply ft_pins_add.
    split_and!; try done.
    + rewrite Hpins. apply Forall_app. split; [done|]. constructor; [|constructor]. exists q. cbn. split_and!; try done.
      by apply pin_json_self.
    + eapply Hfinal; [rewrite Hpins; apply (find_row_new _ _ _ Eprior H1 H2 H3)|exact Hv].
Qed.
(** C31: A provider is called under a pin only while it lives: the pin is valid, the deployed
    route is the pinned one, the request is of the pinned task and step and within the pinned
    budgets, the pin is the table's for that step, the task is RUNNING in the pin's tenant, and
    the current version of the faculty is still enabled. *)
Theorem calls_need_live_pin routes p request d :
  authorize_call routes p request d = Ok tt →
  ∃ q row t current definition, validateFacultyPin (pin_json p) = Ok q ∧
    mq_taskId request = fp_taskId q ∧ mq_stepId request = fp_stepId q ∧
    input_bytes (mq_messages request) ≤ fc_maxInputBytes (fv_contextBudget (fp_faculty q)) ∧
    mq_maxOutputTokens request ≤ fb_maxOutputTokens (fv_budget (fp_faculty q)) ∧
    rt_provider (route_for routes (fp_operation q)) = fp_provider q ∧
    rt_model (route_for routes (fp_operation q)) = fp_model q ∧
    row ∈ ft_pins (l_pins d) ∧ pn_taskId row = fp_taskId q ∧ pn_stepId row = fp_stepId q ∧
    capabilityDigest (pn_pin row) = capabilityDigest (pin_json q) ∧
    l_tasks d !! fp_taskId q = Some t ∧ task_tenant t = fp_tenantId q ∧ task_status t = RUNNING ∧
    faculty_current (ft_versions (l_pins d)) (fp_tenantId q) (pn_facultyId row) = Some current ∧
    FacultyVersion_parse (fr_definition current) = Ok definition ∧ fv_enabled definition = true.
Proof.
  unfold authorize_call, refuse_unless. intros (q & Hq & H1)%bind_ok. apply bind_ok in H1 as (r & Hr & H1).
  destruct (boundFacultyRequest_ok _ _ _ _ (validateFacultyPin_again _ _ Hq) Hr) as (Ht & Hs & Hb & ->).
  cbn [with_tokens mq_maxOutputTokens] in H1.
  apply ensure_ok in H1 as [Htok H1]. apply ensure_ok in H1 as [Hroute H1].
  destruct (List.find _ (ft_pins (l_pins d))) as [row|] eqn:Erow; [|done].
  destruct (l_tasks d !! fp_taskId q) as [t|] eqn:Et; [|done].
  destruct (faculty_current _ _ _) as [current|] eqn:Ec; [|done].
  apply ensure_ok in H1 as [Hlive H1]. apply bind_ok in H1 as (definition & Hdef & H1).
  apply find_some in Erow as [Hin Hcols]. apply list_elem_of_In in Hin. to_prop.
  exists q, row, t, current, definition. destruct (fv_enabled definition) eqn:Een; [|done].
  split_and!; try done; try lia; by to_prop.
Qed.
End registry.

(** *** The completion check *)

(** The one record of a pinned step repeats the pin. *)
Definition pin_witnessed (records : list Evidence) (p : FacultyPin) : Prop :=
  ∃ e, List.filter (λ e, (ev_taskId e === fp_taskId p) && (ev_stepId e === Some (fp_stepId p)) &&
                         (ev_source e === runtime_source (fp_operation p))) records = [e] ∧
    capabilityDigest (default JNull (map_get (ev_metadata e) "faculty")) = capabilityDigest (faculty_record p) ∧
    map_get (ev_metadata e) "provider" = Some (JStr (enum_name PROVIDERS (fp_provider p))) ∧
    map_get (ev_metadata e) "model" = Some (JStr (fp_model p)).

Lemma json_is_eq v text : json_is v text = true ↔ v = Some (JStr text).
Proof.
  unfold json_is. destruct v as [[]|]; split; try done.
  - by intros ->%bool_decide_eq_true.
  - intros [= ->]. by apply bool_decide_eq_true.
Qed.

Lemma check_pin_ok records p :
  validateFacultyPin (pin_json p) = Ok p → check_pin records p = Ok tt ↔ pin_witnessed records p.
Proof.
  intros Hp. unfold check_pin, pin_witnessed, facultyEvidence. rewrite Hp. cbn [mbind result_bind].
  destruct (List.filter _ records) as [|e [|e' l]]; [split; [done|by intros (? & ? & _)]| |split; [done|by intros (? & ? & _)]].
  split.
  - destruct (_ && _) eqn:E; [|done]. intros _. apply andb_true_iff in E as [E E3]. apply andb_true_iff in E as [E1 E2].
    apply json_is_eq in E2, E3. apply bool_decide_eq_true in E1. exists e. by split_and!.
  - intros (x & [= <-] & H1 & H2 & H3). apply json_is_eq in H2, H3. by rewrite H2, H3, bool_decide_true.
Qed.

Lemma check_pins_ok records pins :
  Forall (λ p, validateFacultyPin (pin_json p) = Ok p) pins →
  check_pins records pins = Ok tt ↔ Forall (pin_witnessed records) pins.
Proof.
  induction 1 as [|p pins Hp _ IH]; cbn [check_pins]; [by split|]. rewrite Forall_cons, <- IH, <- (check_pin_ok _ _ Hp).
  destruct (check_pin records p) as [[]|]; cbn [mbind result_bind]; [naive_solver|]. by split; [|intros [? _]].
Qed.

Lemma two_operations a b : length (remove_dups [fp_operation a; fp_operation b]) = 2%nat ↔ fp_operation a ≠ fp_operation b.
Proof.
  cbn [remove_dups]. destruct (decide_rel _ (fp_operation b) []) as [?%elem_of_nil|_]; [done|]. cbn [remove_dups].
  destruct (decide_rel _ (fp_operation a) [fp_operation b]) as [Hin|Hn].
  - apply list_elem_of_singleton in Hin. by split.
  - split; [|done]. intros _ E. apply Hn. rewrite E. left.
Qed.

(** The completion check of the faculties, exactly.  With no pin, no record may claim a
    faculty and a tenant with configured faculties is refused; otherwise there must be two
    valid pins, of the two different steps' operations, and for each pin exactly one runtime
    record of its task, step and role, whose faculty provenance, provider and model are the
    pin's.  Nothing a model says about itself is consulted. *)
Theorem verifyFacultyEvidence_exact url_ok pins evidence records required :
  parse_all (Evidence_parse url_ok) evidence = Ok records →
  verifyFacultyEvidence url_ok pins evidence required = Ok tt ↔
  (pins = [] ∧ required = false ∧ Forall (λ e, json_truthy (map_get (ev_metadata e) "faculty") = false) records) ∨
  (∃ a b, map_all validateFacultyPin pins = Ok [a; b] ∧ fp_operation a ≠ fp_operation b ∧
          pin_witnessed records a ∧ pin_witnessed records b).
Proof.
  intros Hrec. unfold verifyFacultyEvidence. rewrite Hrec. cbn [mbind result_bind]. destruct pins as [|v pins].
  - split.
    + intros [H1 H2]%ensure_ok. left. split; [done|]. split; [by apply negb_true_iff|].
      destruct (existsb _ records) eqn:E; [done|]. apply Forall_forall. intros e He.
      destruct (json_truthy _) eqn:Et; [|done]. assert (existsb (λ e, json_truthy (map_get (ev_metadata e) "faculty")) records = true).
      { apply existsb_exists. exists e. by rewrite <- list_elem_of_In. }
      congruence.
    + intros [(_ & -> & Hf)|(a & b & [=] & _)]. cbn [negb ensure mbind result_bind].
      destruct (existsb _ records) eqn:E; [|done]. apply existsb_exists in E as (e & He & Et).
      apply list_elem_of_In in He. rewrite Forall_forall in Hf. rewrite (Hf _ He) in Et. done.
  - split.
    + intros [Hlen H]%ensure_ok. apply bool_decide_eq_true in Hlen. apply bind_ok in H as (parsed & Hp & H).
      apply ensure_ok in H as [Hops H]. apply bool_decide_eq_true in Hops. right.
      pose proof (map_all_length _ _ _ Hp) as Hl. rewrite Hlen in Hl.
      destruct parsed as [|a [|b [|]]]; try done. exists a, b.
      assert (Forall (λ p, validateFacultyPin (pin_json p) = Ok p) [a; b]) as Hv.
      { apply Forall_forall. intros p Hin. destruct (map_all_elem _ _ _ _ Hp Hin) as (w & _ & Hw).
        by apply validateFacultyPin_again in Hw. }
      apply (check_pins_ok _ _ Hv) in H. apply Forall_cons in H as [Ha [Hb _]%Forall_cons].
      split_and!; try done. by apply two_operations.
    + intros [([=] & _)|(a & b & Hp & Hops & Ha & Hb)]. pose proof (map_all_length _ _ _ Hp) as Hl.
      rewrite <- Hl. cbn [length]. rewrite bool_decide_true by done. cbn [ensure mbind result_bind]. rewrite Hp.
      cbn [mbind result_bind map]. apply two_operations in Hops. rewrite bool_decide_true by done. cbn [ensure mbind result_bind].
      apply check_pins_ok; [|by repeat constructor]. apply Forall_forall. intros p Hin.
      destruct (map_all_elem _ _ _ _ Hp Hin) as (w & _ & Hw). by apply validateFacultyPin_again in Hw.
Qed.

(** ** Witnesses *)

Module FacultySample.
Definition Tables : Type := list FacultyRow * list PinRow.

#[global] Instance tables : FacultyTables Tables.
Proof.
  refine {| ft_versions := fst; ft_pins := snd; ft_add_pin := λ r x, (x.1, x.2 ++ [r]) |}; done.
Defined.

Definition tenant : string := task_tenant mission_task.
Definition running : Task := with_status mission_task RUNNING.
Definition team : list FacultyVersion := match coreTeamTemplates tenant "ADR-0006 team" with Ok l => l | Throw _ => [] end.
Definition row (f : FacultyVersion) : FacultyRow :=
  {| fr_tenantId := fv_tenantId f; fr_facultyId := fv_id f; fr_version := fv_version f; fr_definition := faculty_json f;
     fr_digest := capabilityDigest (faculty_json f) |}.
Definition compiled (plan : ExecutionPlan) : LedgerEvent :=
  {| le_event := {| te_id := sample_id 50; te_taskId := task_id running; te_stepId := None; te_type := PLAN_COMPILED;
       te_occurredAt := "2026-09-15T16:00:00.000Z"; te_actor := task_principal running; te_traceId := task_traceId running;
       te_payload := PlanPayload [] plan [] |}; le_key := "compile"; le_digest := EmptyString |}.
Definition step (n : nat) : string :=
  from_option ps_id EmptyString (head mission_plans ≫= λ plan, plan_steps plan !! n).
Definition steps : gmap string TaskStep :=
  list_to_map (map (λ s, (step_id s, s))
    (concat (map (λ plan, concat (map (λ node, result_list (projectStep node)) (plan_steps plan))) mission_plans))).
Definition db : LedgerDb Tables :=
  LDb ∅ [] {[task_id running := running]} steps ∅ (map compiled mission_plans) ∅ ∅ ∅ [] (map row team, []).
Definition routes : FacultyRoutes :=
  {| rts_analyst := {| rt_provider := P_openrouter; rt_model := "anthropic/claude-x" |};
     rts_reviewer := {| rt_provider := P_openrouter; rt_model := "x-ai/grok-4" |} |}.
Definition input (n : nat) : PinInput := {| pi_tenantId := tenant; pi_taskId := task_id running; pi_stepId := step n |}.
Definition pinned : LedgerDb Tables * result FacultyPin := pin routes (input 1) db.
Definition request : ModelRequest :=
  {| mq_callId := sample_id 60; mq_taskId := task_id running; mq_stepId := step 1;
     mq_trace := {| tr_traceId := task_traceId running; tr_correlationId := task_id running; tr_spanId := None |};
     mq_messages := [{| msg_role := R_system; msg_content := "Answer." |}; {| msg_role := R_user; msg_content := "?" |}];
     mq_maxOutputTokens := 6144 |}.
(** Both pins of the mission, as the table holds them, and the record each step leaves. *)
Definition with_second (x : LedgerDb Tables * result FacultyPin) : list FacultyPin :=
  result_list x.2 ++ result_list (pin routes (input 2) x.1).2.
Definition pins : list FacultyPin := with_second pinned.
Definition record (p : FacultyPin) : Evidence :=
  {| ev_id := sample_id 70; ev_taskId := fp_taskId p; ev_stepId := Some (fp_stepId p); ev_type := ARTIFACT;
     ev_source := runtime_source (fp_operation p); ev_ref := None; ev_uri := None;
     ev_digest := Some (sha256Text "text"); ev_capturedAt := "2026-09-15T16:00:01.000Z";
     ev_metadata := [("provider", JStr (enum_name PROVIDERS (fp_provider p))); ("model", JStr (fp_model p));
                     ("faculty", faculty_record p)] |}.
End FacultySample.

Lemma core_team_pins_two_witness : ∃ team, coreTeamTemplates FacultySample.tenant "ADR-0006 team" = Ok team ∧ length team = 8%nat.
Proof.
  destruct (core_team_pins_two FacultySample.tenant "ADR-0006 team") as (team & H1 & H2 & _).
  - vm_compute. reflexivity.
  - vm_compute. split; discriminate.
  - exists team. split; [exact H1|exact H2].
Defined.

Lemma pin_is_final_witness : ∃ d p, FacultySample.pinned = (d, Ok p) ∧ fp_taskId p = task_id FacultySample.running ∧
  pin FacultySample.routes (FacultySample.input 1) d = (d, Ok p).
Proof.
  assert (Hok : is_ok FacultySample.pinned.2 = true) by (vm_compute; reflexivity).
  assert (Htask : l_tasks FacultySample.pinned.1 !! task_id FacultySample.running = Some FacultySample.running)
    by (vm_compute; reflexivity).
  assert (Hpins : pins_ok (ft_pins (l_pins FacultySample.db))) by constructor.
  assert (Hparse : is_ok (Task_parse FacultySample.running) = true) by (vm_compute; reflexivity).
  destruct FacultySample.pinned as [d [p|]] eqn:E; [|discriminate Hok]. unfold FacultySample.pinned in E.
  destruct (pin_is_final FacultySample.routes (FacultySample.input 1) FacultySample.db d p Hpins E)
    as (_ & _ & H2 & _ & _ & H5).
  exists d, p. split; [reflexivity|]. split; [exact H2|].
  exact (H5 FacultySample.routes d FacultySample.running [] Htask eq_refl Hparse (eq_sym (app_nil_r _))).
Defined.

Lemma projected_request_bounded_witness : ∃ d p r, FacultySample.pinned = (d, Ok p) ∧
  projectFacultyRequest p FacultySample.request = Ok r ∧ mq_callId r = mq_callId FacultySample.request.
Proof.
  assert (Hok : match FacultySample.pinned.2 with Ok p => is_ok (projectFacultyRequest p FacultySample.request) | Throw _ => false end = true)
    by (vm_compute; reflexivity).
  destruct FacultySample.pinned as [d [p|]]; [|discriminate Hok]. cbn [snd] in Hok.
  destruct (projectFacultyRequest p FacultySample.request) as [r|] eqn:E; [|discriminate Hok].
  destruct (projected_request_bounded p FacultySample.request r E) as (q & _ & _ & _ & Hc & _).
  exists d, p, r. split; [reflexivity|]. split; [exact E|exact Hc].
Defined.

Lemma calls_need_live_pin_witness : ∃ d p, FacultySample.pinned = (d, Ok p) ∧
  authorize_call FacultySample.routes p FacultySample.request d = Ok tt ∧
  ∃ t, l_tasks d !! fp_taskId p = Some t ∧ task_status t = RUNNING.
Proof.
  assert (Hok : match FacultySample.pinned with
                | (d, Ok p) => match authorize_call FacultySample.routes p FacultySample.request d,
                                     FacultyPin_parse (pin_json p) with
                               | Ok _, Ok q => fp_taskId q === fp_taskId p | _, _ => false end
                | _ => false end = true)
    by (vm_compute; reflexivity).
  destruct FacultySample.pinned as [d [p|]]; [|discriminate Hok].
  destruct (authorize_call FacultySample.routes p FacultySample.request d) as [[]|] eqn:E; [|discriminate Hok].
  destruct (FacultyPin_parse (pin_json p)) as [q'|] eqn:Eq; [|discriminate Hok]. apply bool_decide_eq_true in Hok.
  destruct (calls_need_live_pin FacultySample.routes p FacultySample.request d E)
    as (q & row & t & c & f & Hq & _ & _ & _ & _ & _ & _ & _ & _ & _ & _ & Ht & _ & Hr & _).
  apply validateFacultyPin_exact in Hq as [Hq _]. rewrite Eq in Hq. apply Ok_inj in Hq as ->.
  exists d, p. split; [reflexivity|]. split; [exact E|]. exists t. rewrite <- Hok. split; [exact Ht|exact Hr].
Defined.

Lemma verifyFacultyEvidence_exact_witness : ∃ a b records,
  parse_all (Evidence_parse (λ _, true)) (map FacultySample.record FacultySample.pins) = Ok records ∧
  map_all validateFacultyPin (map pin_json FacultySample.pins) = Ok [a; b] ∧ fp_operation a ≠ fp_operation b ∧
  pin_witnessed records a ∧ pin_witnessed records b.
Proof.
  assert (Hok : is_ok (parse_all (Evidence_parse (λ _, true)) (map FacultySample.record FacultySample.pins)) &&
                is_ok (verifyFacultyEvidence (λ _, true) (map pin_json FacultySample.pins)
                         (map FacultySample.record FacultySample.pins) true) &&
                negb (bool_decide (length FacultySample.pins = 0%nat)) = true) by (vm_compute; reflexivity).
  generalize dependent FacultySample.pins. intros pins Hok.
  destruct (parse_all _ _) as [records|] eqn:Er; [|discriminate Hok].
  destruct (verifyFacultyEvidence _ _ _ _) as [[]|] eqn:Ev; [|discriminate Hok].
  apply (verifyFacultyEvidence_exact (λ _, true) _ _ records true Er) in Ev.
  destruct Ev as [(Hn & _)|(a & b & H)]; [destruct pins; [discriminate Hok|discriminate Hn]|].
  exists a, b, records. split; [reflexivity|exact H].
Defined.
