(* ===== verification/Identity.v ===== *)
(** * Primary identity: contracts, the digest contract, the bounded projection
    (packages/contracts/src: primary-identity.ts, identity-cognition.ts;
    services/kernel/src/identity: canonical.ts, projection.ts, secret-scan.ts)

    An identity document has three sections, read by [IdentityDocument_parse].  Its digest is
    over [identityCoreCanonicalV1]: the canonical JSON of the document, refused when it holds
    what the database cannot hold.  [identity_core_canonical_v1] is the SQL function of the
    same name (supabase/migrations/20260929120000_identity_cognition_binding.sql), on [jsonb]:
    a stored document keeps the digits of its numbers, [js_of] is what JavaScript reads of it
    and [jsonb_of] what the database stores of a value.  [projectIdentity] cuts the part of a
    document a model may receive: Class A whole, three fields of Class C, nothing of Class D, each with the stored
    bytes.  A JavaScript value that is no JSON (a function, undefined inside an object) does
    not occur in a stored document and is not modelled. *)

From S2P Require Import Prelude JsNumber JsDate Digest Contracts Plan Capability Json Regex MemPolicy MemContext Model.
Local Open Scope Z_scope.
Local Open Scope js_scope.

(** ** primary-identity.ts *)

Definition ShortText : json → result string := z_trimmed 1 4000.
Definition ListItem : json → result string := z_trimmed 1 300.
Definition IdentityChangeReason : json → result string := z_trimmed 1 500.

Record IdentityClassA := {
  ia_name : string; ia_constitution : string; ia_values : list string; ia_operatorRelationship : string;
  ia_facultyFraming : string; ia_memoryPolicy : string
}.
(** [IdentityClassC.omit({presentation: true})], and the whole of Class C. *)
Record IdentityFraming := { ic_persona : string; ic_communication : string; ic_behaviour : string }.
Record IdentityClassC := { ic_framing : IdentityFraming; ic_presentation : string }.
Record IdentityClassD := { id_objectives : list string; id_vision : string }.
Record IdentitySections := { is_classA : IdentityClassA; is_classC : IdentityClassC; is_classD : IdentityClassD }.
Record IdentityDocumentDraft := { dd_id : string; dd_tenantId : string; dd_sections : IdentitySections }.
Record IdentityDocument := { do_draft : IdentityDocumentDraft; do_version : Z }.

Definition CLASS_A_FIELDS : list string :=
  ["name"; "constitution"; "values"; "operatorRelationship"; "facultyFraming"; "memoryPolicy"].
Definition CLASS_C_FIELDS : list string := ["persona"; "communication"; "behaviour"].

Definition IdentityClassA_parse (v : json) : result IdentityClassA :=
  fs ← z_strict CLASS_A_FIELDS v;
  name ← z_field fs "name" (z_trimmed 1 100);
  constitution ← z_field fs "constitution" ShortText;
  values ← z_field fs "values" (z_array 1 20 ListItem);
  relationship ← z_field fs "operatorRelationship" ShortText;
  framing ← z_field fs "facultyFraming" ShortText;
  memory ← z_field fs "memoryPolicy" ShortText;
  Ok {| ia_name := name; ia_constitution := constitution; ia_values := values; ia_operatorRelationship := relationship;
        ia_facultyFraming := framing; ia_memoryPolicy := memory |}.

Definition read_framing (fs : fields) : result IdentityFraming :=
  persona ← z_field fs "persona" ShortText;
  communication ← z_field fs "communication" ShortText;
  behaviour ← z_field fs "behaviour" ShortText;
  Ok {| ic_persona := persona; ic_communication := communication; ic_behaviour := behaviour |}.

Definition IdentityFraming_parse (v : json) : result IdentityFraming := fs ← z_strict CLASS_C_FIELDS v; read_framing fs.

Definition IdentityClassC_parse (v : json) : result IdentityClassC :=
  fs ← z_strict (CLASS_C_FIELDS ++ ["presentation"]) v;
  framing ← read_framing fs;
  presentation ← z_field fs "presentation" ShortText;
  Ok {| ic_framing := framing; ic_presentation := presentation |}.

Definition IdentityClassD_parse (v : json) : result IdentityClassD :=
  fs ← z_strict ["objectives"; "vision"] v;
  objectives ← z_field fs "objectives" (z_array 0 20 ListItem);
  vision ← z_field fs "vision" ShortText;
  Ok {| id_objectives := objectives; id_vision := vision |}.

Definition IdentitySections_parse (v : json) : result IdentitySections :=
  fs ← z_strict ["classA"; "classC"; "classD"] v;
  a ← z_field fs "classA" IdentityClassA_parse;
  c ← z_field fs "classC" IdentityClassC_parse;
  d ← z_field fs "classD" IdentityClassD_parse;
  Ok {| is_classA := a; is_classC := c; is_classD := d |}.

Definition read_draft (fs : fields) : result IdentityDocumentDraft :=
  id ← z_field fs "id" (z_string Id_ok);
  tenant ← z_field fs "tenantId" (z_string Id_ok);
  sections ← z_field fs "sections" IdentitySections_parse;
  Ok {| dd_id := id; dd_tenantId := tenant; dd_sections := sections |}.

Definition IdentityDocumentDraft_parse (v : json) : result IdentityDocumentDraft :=
  fs ← z_strict ["id"; "tenantId"; "sections"] v; read_draft fs.

Definition IdentityDocument_parse (v : json) : result IdentityDocument :=
  fs ← z_strict ["id"; "tenantId"; "sections"; "version"] v;
  draft ← read_draft fs;
  version ← z_field fs "version" (z_int 1 max_safe);
  Ok {| do_draft := draft; do_version := version |}.

Inductive IdentityChangeRequest :=
  | Propose (document : IdentityDocumentDraft) (reason : string)
  | Rollback (toVersion : Z) (reason : string).

Definition IdentityChangeRequest_parse (v : json) : result IdentityChangeRequest :=
  kind ← (match v with JObj fs => z_field fs "kind" (z_string (λ _, true)) | _ => Throw (zod_error "invalid_type") end);
  if kind === "PROPOSE" then
    fs ← z_strict ["kind"; "document"; "reason"] v;
    document ← z_field fs "document" IdentityDocumentDraft_parse;
    reason ← z_field fs "reason" IdentityChangeReason;
    Ok (Propose document reason)
  else if kind === "ROLLBACK" then
    fs ← z_strict ["kind"; "toVersion"; "reason"] v;
    version ← z_field fs "toVersion" (z_int 1 max_safe);
    reason ← z_field fs "reason" IdentityChangeReason;
    Ok (Rollback version reason)
  else Throw (zod_error "invalid_union").

Definition parseIdentityChangeObjective (objective : string) : result IdentityChangeRequest :=
  match JSON_parse objective with
  | Ok raw => IdentityChangeRequest_parse raw
  | Throw _ => Throw (js_error "identity-change/v1 objective must be a JSON-encoded IdentityChangeRequest")
  end.

Definition texts_json (l : list string) : json := JArr (map JStr l).

Definition classA_json (a : IdentityClassA) : json :=
  JObj [("name", JStr (ia_name a)); ("constitution", JStr (ia_constitution a)); ("values", texts_json (ia_values a));
        ("operatorRelationship", JStr (ia_operatorRelationship a)); ("facultyFraming", JStr (ia_facultyFraming a));
        ("memoryPolicy", JStr (ia_memoryPolicy a))].
Definition framing_json (c : IdentityFraming) : json :=
  JObj [("persona", JStr (ic_persona c)); ("communication", JStr (ic_communication c)); ("behaviour", JStr (ic_behaviour c))].

(** ** canonical.ts *)

Definition canonical_refusal (code path : string) : exn := Exn "IdentityCanonicalRefusal" (code +:+ " at " +:+ path).

(** A string without the character NUL; an object key of the characters 1 to 127. *)
Fixpoint chars_ok (ok : N → bool) (s : string) : bool :=
  match s with EmptyString => true | String c s' => ok (N_of_ascii c) && chars_ok ok s' end.
Definition storable (s : string) : bool := chars_ok (λ n, (0 <? n)%N) s.
Definition ascii_key (s : string) : bool := chars_ok (λ n, ((0 <? n) && (n <=? 127))%N) s.

Fixpoint assertCanonicalV1 (v : json) (path : string) : result unit :=
  match v with
  | JNull | JBool _ => Ok tt
  | JStr s => ensure (storable s) (canonical_refusal "IDENTITY_CANONICAL_STRING" path)
  | JNum n => ensure ((- max_safe <=? n) && (n <=? max_safe)) (canonical_refusal "IDENTITY_CANONICAL_NON_INTEGER" path)
  | JFloat _ => Throw (canonical_refusal "IDENTITY_CANONICAL_NON_INTEGER" path)
  | JArr l =>
      (fix items (i : Z) (l : list json) : result unit :=
         match l with
         | [] => Ok tt
         | item :: rest => assertCanonicalV1 item (path +:+ "[" +:+ pretty i +:+ "]");; items (i + 1) rest
         end) 0 l
  | JObj fs =>
      (fix entries (fs : list (string * json)) : result unit :=
         match fs with
         | [] => Ok tt
         | (key, item) :: rest =>
             ensure (ascii_key key) (canonical_refusal "IDENTITY_CANONICAL_NON_ASCII_KEY" path);;
             assertCanonicalV1 item (path +:+ "." +:+ key);;
             entries rest
         end) fs
  end.

Definition identityCoreCanonicalV1 (v : json) : result string := assertCanonicalV1 v "$";; Ok (canonical v).
Definition identityCoreDigestV1 (v : json) : result string := text ← identityCoreCanonicalV1 v; Ok (Sha256.sha256_hex text).

(** A member of a JSON object ([undefined] when there is none). *)
Definition member (v : json) (key : string) : option json := match v with JObj fs => map_get fs key | _ => None end.

Definition digest_at (o : option json) : result string :=
  match o with Some v => identityCoreDigestV1 v | None => Throw (canonical_refusal "IDENTITY_CANONICAL_TYPE" "$") end.

(** *** Stored documents *)

(** A value of type jsonb; [BNum m k] is the numeral m / 10^k, written with k digits after the point. *)
Inductive jsonb :=
  | BNull
  | BBool (b : bool)
  | BNum (m : Z) (scale : nat)
  | BStr (s : string)
  | BArr (l : list jsonb)
  | BObj (fs : list (string * jsonb)).

(** The text of a number of type numeric. *)
Definition numeric_text (m : Z) (scale : nat) : string :=
  match scale with
  | O => pretty m
  | _ =>
      let whole := Z.abs m / 10 ^ Z.of_nat scale in
      let part := pretty (Z.abs m mod 10 ^ Z.of_nat scale) in
      (if m <? 0 then "-" else EmptyString) +:+ pretty whole +:+ "." +:+
        zeros (Z.of_nat scale - Z.of_nat (String.length part)) +:+ part
  end.

(** What JSON.parse makes of a stored document. *)
Definition number_read (m : Z) (scale : nat) : number :=
  let x := of_decimal (Z.abs m) (- Z.of_nat scale) in if m <? 0 then negate x else x.

Fixpoint js_of (b : jsonb) : json :=
  match b with
  | BNull => JNull
  | BBool b => JBool b
  | BNum m scale => json_of_number (number_read m scale)
  | BStr s => JStr s
  | BArr l => JArr (map js_of l)
  | BObj fs => JObj (map (λ kv, (kv.1, js_of kv.2)) fs)
  end.

(** What the database stores of the text JSON.stringify writes. *)
Definition numeral_of (m : Z) (o : option (string * Z)) : jsonb :=
  match o with
  | Some (digits, n) =>
      let '(d, len, _) := eat_digits 0 0 digits in
      let e := n - Z.of_nat len in
      let signed := if m <? 0 then - d else d in
      if 0 <=? e then BNum (signed * 10 ^ e) 0 else BNum signed (Z.to_nat (- e))
  | None => BNull
  end.

Fixpoint jsonb_of (v : json) : jsonb :=
  match v with
  | JNull => BNull
  | JBool b => BBool b
  | JNum n => if Z.abs n <=? exact_bound then BNum n 0 else numeral_of n (shortest (Int (Z.abs n)) (Z.abs n) 1)
  | JFloat (Dyadic m k) => numeral_of m (shortest (Float (Dyadic (Z.abs m) k)) (Z.abs m) (2 ^ Z.of_nat k))
  | JFloat (Infinite _) => BNull
  | JStr s => BStr s
  | JArr l => BArr (map jsonb_of l)
  | JObj fs => BObj (map (λ kv, (kv.1, jsonb_of kv.2)) fs)
  end.

(** What is read of what was stored, and the texts of stored numbers. *)
Example stored_numbers :
  let half := JFloat (Dyadic (-3) 1) in
  js_of (jsonb_of half) = half ∧ js_of (BNum 10 1) = JNum 1 ∧ js_of (jsonb_of (JNum (2 ^ 60))) = JNum (2 ^ 60) ∧
  numeric_text (-105) 2 = "-1.05" ∧ numeric_text 10 1 = "1.0" ∧ numeric_text 5 3 = "0.005".
Proof. vm_compute. repeat split. Qed.

(** [v -> key] *)
Definition jsonb_member (v : jsonb) (key : string) : option jsonb := match v with BObj fs => map_get fs key | _ => None end.

(** *** The SQL twin *)

(** [replace(s, c, by)] for one character. *)
Fixpoint replace_char (c : ascii) (by_ s : string) : string :=
  match s with
  | EmptyString => EmptyString
  | String d s' => (if d === c then by_ else String d EmptyString) +:+ replace_char c by_ s'
  end.

Definition short_escapes : list (N * string) :=
  let esc (c : ascii) := String backslash (String c EmptyString) in
  [(92%N, esc backslash); (34%N, esc dquote); (8%N, esc "b"%char); (9%N, esc "t"%char); (10%N, esc "n"%char); (12%N, esc "f"%char);
   (13%N, esc "r"%char)].

(** The backslash first, then the named escapes, then the other control characters. *)
Definition sql_replacements : list (N * string) :=
  short_escapes ++
  map (λ i, (N.of_nat i, String backslash ("u00" +:+ String (Sha256.hex_digit (Z.of_nat i / 16)) (String (Sha256.hex_digit (Z.of_nat i mod 16)) EmptyString))))
    (List.filter (λ i, negb (bool_decide (i ∈ [8; 9; 10; 12; 13])))%nat (seq 1 31)).

Definition identity_json_string_v1 (s : string) : string :=
  String dquote (fold_left (λ r cb, replace_char (ascii_of_N cb.1) cb.2 r) sql_replacements s +:+ String dquote EmptyString).

(** A database error with its SQLSTATE and its message. *)
Definition db_error (code message : string) : exn := Exn ("DatabaseError " +:+ code) message.
Definition pg_refusal : string → exn := db_error "22023".

(** The pattern ^-?(0|[1-9][0-9]{0,15})$ *)
Definition sql_integer (n : string) : bool :=
  match (match n with String "-" s => s | _ => n end) with
  | EmptyString => false
  | String c s => if c === "0"%char then s === EmptyString
                  else is_num c && forallb is_num (String.list_ascii_of_string s) && (String.length s <=? 15)%nat
  end.

Fixpoint identity_core_canonical_v1 (v : jsonb) : result string :=
  match v with
  | BObj fs =>
      parts ← (fix each (fs : list (string * jsonb)) : result (list (string * string)) :=
         match fs with
         | [] => Ok []
         | (key, item) :: rest =>
             ensure (ascii_key key) (pg_refusal "IDENTITY_CANONICAL_NON_ASCII_KEY");;
             text ← identity_core_canonical_v1 item;
             texts ← each rest;
             Ok ((key, text) :: texts)
         end) fs;
      Ok ("{" +:+ join "," (map (λ kv, identity_json_string_v1 kv.1 +:+ ":" +:+ kv.2) (js_sort key_compare parts)) +:+ "}")
  | BArr l =>
      parts ← (fix each (l : list jsonb) : result (list string) :=
         match l with
         | [] => Ok []
         | item :: rest => text ← identity_core_canonical_v1 item; texts ← each rest; Ok (text :: texts)
         end) l;
      Ok ("[" +:+ join "," parts +:+ "]")
  | BStr s => Ok (identity_json_string_v1 s)
  | BNum m scale =>
      let n := numeric_text m scale in
      ensure (sql_integer n && (Z.abs m <=? max_safe * 10 ^ Z.of_nat scale)) (pg_refusal "IDENTITY_CANONICAL_NON_INTEGER");; Ok n
  | BBool b => Ok (if b then "true" else "false")
  | BNull => Ok "null"
  end.

Definition identity_core_digest_v1 (v : jsonb) : result string := text ← identity_core_canonical_v1 v; Ok (Sha256.sha256_hex text).

(** ** secret-scan.ts *)

Fixpoint findSecretShapedContent (document : json) : option string :=
  match document with
  | JStr s => looksLikeSecret s
  | JArr l =>
      (fix items (l : list json) := match l with
         | [] => None
         | item :: rest => match findSecretShapedContent item with Some found => Some found | None => items rest end
         end) l
  | JObj fs =>
      (fix values (fs : list (string * json)) := match fs with
         | [] => None
         | (_, value) :: rest => match findSecretShapedContent value with Some found => Some found | None => values rest end
         end) fs
  | _ => None
  end.

(** ** projection.ts *)

Definition IDENTITY_CORE_CONTRACT_V1 : string := "kerneljson:identity-core/v1".
Definition IDENTITY_PROJECTION_SCHEMA_V1 : string := "kerneljson:identity-projection/v1".
Definition ANALYST_INTELLIGENCE_V1 : string := "ANALYST_INTELLIGENCE_V1".
Definition IDENTITY_PROJECTION_MAX_BYTES : Z := 16384.

Definition identity_refusal (code : string) : exn := Exn "IdentityCognitionRefusal" code.
Definition refuse_identity (c : bool) (code : string) : result unit := ensure c (identity_refusal code).

Record IdentityProjection := {
  pj_id : string; pj_version : Z; pj_coreDigest : string; pj_classA : IdentityClassA; pj_classC : IdentityFraming
}.

Definition IdentityProjection_parse (v : json) : result IdentityProjection :=
  fs ← z_strict ["schema"; "profile"; "identity"; "sections"] v;
  z_field fs "schema" (z_literal IDENTITY_PROJECTION_SCHEMA_V1);;
  z_field fs "profile" (z_literal ANALYST_INTELLIGENCE_V1);;
  identity ← z_field fs "identity" (λ v,
    fs ← z_strict ["id"; "version"; "identityCoreDigest"; "digestContract"] v;
    id ← z_field fs "id" (z_string Id_ok);
    version ← z_field fs "version" (z_int 1 max_safe);
    digest ← z_field fs "identityCoreDigest" (z_string Sha256_ok);
    z_field fs "digestContract" (z_literal IDENTITY_CORE_CONTRACT_V1);;
    Ok (id, version, digest));
  sections ← z_field fs "sections" (λ v,
    fs ← z_strict ["classA"; "classC"] v;
    a ← z_field fs "classA" IdentityClassA_parse;
    c ← z_field fs "classC" IdentityFraming_parse;
    Ok (a, c));
  Ok {| pj_id := identity.1.1; pj_version := identity.1.2; pj_coreDigest := identity.2;
        pj_classA := sections.1; pj_classC := sections.2 |}.

(** The projection of the given parts. *)
Definition projection_of (profile id : json) (version : json) (digest : string) (a c : json) : json :=
  JObj [("schema", JStr IDENTITY_PROJECTION_SCHEMA_V1); ("profile", profile);
        ("identity", JObj [("id", id); ("version", version); ("identityCoreDigest", JStr digest);
                           ("digestContract", JStr IDENTITY_CORE_CONTRACT_V1)]);
        ("sections", JObj [("classA", a); ("classC", c)])].

Definition projection_json (p : IdentityProjection) : json :=
  projection_of (JStr ANALYST_INTELLIGENCE_V1) (JStr (pj_id p)) (JNum (pj_version p)) (pj_coreDigest p)
    (classA_json (pj_classA p)) (framing_json (pj_classC p)).

Definition PROFILE_SCOPES : list (string * list string) :=
  [(ANALYST_INTELLIGENCE_V1,
    ["classA.name"; "classA.constitution"; "classA.values"; "classA.operatorRelationship"; "classA.facultyFraming";
     "classA.memoryPolicy"; "classC.persona"; "classC.communication"; "classC.behaviour"])].

Definition profileForOperation (operation : Operation) : option string :=
  match operation with OP_RUNTIME_ANALYSE => Some ANALYST_INTELLIGENCE_V1 | _ => None end.

(** [section[f]] of every field of the list ([Object.fromEntries]; the schema has checked that each is there). *)
Definition pick (section : option json) (fs : list string) : json :=
  JObj (map (λ f, (f, default JNull (section ≫= λ v, member v f))) fs).

Definition projectIdentity (raw : json) (profile : string) (ceiling : list string) : result IdentityProjection :=
  match map_get PROFILE_SCOPES profile with
  | None => Throw (identity_refusal "IDENTITY_PROFILE_MISSING")
  | Some scope =>
      let effective := List.filter (λ path, bool_decide (path ∈ ceiling)) scope in
      let has prefix f := bool_decide (prefix +:+ f ∈ effective) in
      refuse_identity (effective !== []) "IDENTITY_SCOPE_EMPTY";;
      refuse_identity (forallb (has "classA.") CLASS_A_FIELDS) "IDENTITY_SCOPE_CLASS_A_INCOMPLETE";;
      refuse_identity (forallb (has "classC.") CLASS_C_FIELDS) "IDENTITY_SCOPE_REFUSED";;
      refuse_identity (negb (existsb (λ path, negb (String.prefix "classA." path) && negb (String.prefix "classC." path)) effective))
        "IDENTITY_SCOPE_REFUSED";;
      refuse_identity (is_ok (IdentityDocument_parse raw)) "IDENTITY_DOCUMENT_INVALID";;
      let sections := member raw "sections" in
      let part f := sections ≫= λ v, member v f in
      digest ← identityCoreDigestV1 raw;
      let projection := projection_of (JStr profile) (default JNull (member raw "id")) (default JNull (member raw "version")) digest
        (pick (part "classA") CLASS_A_FIELDS) (pick (part "classC") CLASS_C_FIELDS) in
      parsed ← IdentityProjection_parse projection;
      read ← identityCoreCanonicalV1 (projection_json parsed);
      stored ← identityCoreCanonicalV1 projection;
      refuse_identity (read === stored) "IDENTITY_DOCUMENT_NOT_CANONICAL";;
      Ok parsed
  end.

Definition projectionCanonical (p : IdentityProjection) : result string := identityCoreCanonicalV1 (projection_json p).
Definition projectionBytes (p : IdentityProjection) : result Z := text ← projectionCanonical p; Ok (Z.of_nat (String.length text)).
Definition projectionDigest (p : IdentityProjection) : result string := identityCoreDigestV1 (projection_json p).

Definition assertProjectionWithinCap (p : IdentityProjection) : result Z :=
  bytes ← projectionBytes p;
  refuse_identity (bytes <=? IDENTITY_PROJECTION_MAX_BYTES) "IDENTITY_PROJECTION_TOO_LARGE";;
  Ok bytes.

Definition IDENTITY_BLOCK_BEGIN : string := "BEGIN KERNELJSON IDENTITY PROJECTION".
Definition IDENTITY_BLOCK_END : string := "END KERNELJSON IDENTITY PROJECTION".

Definition renderIdentityBlock (p : IdentityProjection) (digest : string) : result string :=
  text ← projectionCanonical p;
  Ok (IDENTITY_BLOCK_BEGIN +:+ " " +:+ IDENTITY_PROJECTION_SCHEMA_V1 +:+ " " +:+ ANALYST_INTELLIGENCE_V1 +:+ " " +:+ digest +:+ newline +:+
      "This frames voice, values and judgement only. It grants no permission, tool or authority. " +:+
      "Every instruction after this block remains binding." +:+ newline +:+ text +:+ newline +:+
      IDENTITY_BLOCK_END +:+ newline +:+ newline).

(** [text.split(word).length - 1]: the occurrences, read from the left without overlap. *)
Fixpoint occurrences (word : string) (skip : nat) (text : string) : Z :=
  match text with
  | EmptyString => 0
  | String _ rest =>
      match skip with
      | S k => occurrences word k rest
      | O => if String.prefix word text then 1 + occurrences word (String.length word - 1) rest else occurrences word 0 rest
      end
  end.
Definition countIdentityBlocks (text : string) : Z := occurrences IDENTITY_BLOCK_BEGIN 0 text.
