(* ===== verification/IdentityFacts.v ===== *)
(** * Facts of the identity contracts

    What the documents' schemas read back, that canonical JSON determines the value up to the
    order of its keys, where the TypeScript and the SQL canonical forms agree, and what a
    projection carries of its document. *)

From S2P Require Import Prelude JsNumber JsDate Digest Contracts Plan Capability Json Regex MemPolicy MemContext.
From S2P Require Import Model Faculty MemPort FacultyPins Identity.
Local Open Scope Z_scope.
Local Open Scope js_scope.

(** ** Canonical JSON determines the value *)

(** The value with the keys of every object in order. *)
Fixpoint sort_keys (v : json) : json :=
  match v with
  | JArr l => JArr (map sort_keys l)
  | JObj fs => JObj (js_sort key_compare (map (λ kv, (kv.1, sort_keys kv.2)) fs))
  | _ => v
  end.

Section sort_map.
Context {A B : Type} (f : A → B).
Let g (kv : string * A) : string * B := (kv.1, f kv.2).

Lemma insert_map x l : sort_insert key_compare (g x) (map g l) = map g (sort_insert key_compare x l).
Proof.
  induction l as [|y l IH]; [done|]. cbn [map sort_insert].
  change (key_compare (g x) (g y)) with (key_compare x y). destruct (_ <=? _); cbn [map]; [done|]. by rewrite <- IH.
Qed.

Lemma sort_map l : js_sort key_compare (map g l) = map g (js_sort key_compare l).
Proof. induction l as [|x l IH]; [done|]. cbn [map js_sort foldr]. unfold js_sort in IH. by rewrite IH, insert_map. Qed.
End sort_map.

Lemma canonical_sorted v : canonical v = stringify (sort_keys v).
Proof.
  induction v as [| | | |l Hl|fs Hfs|] using json_induct; try done; cbn [canonical sort_keys stringify].
  - rewrite map_map. do 3 f_equal. induction Hl as [|x l Hx Hl IH]; [done|]. cbn [map]. by rewrite Hx, IH.
  - do 3 f_equal.
    assert (map (λ kv : string * json, (kv.1, canonical kv.2)) fs =
            map (λ kv, (kv.1, stringify kv.2)) (map (λ kv, (kv.1, sort_keys kv.2)) fs)) as ->.
    { rewrite map_map. induction Hfs as [|x fs Hx Hfs IH]; [done|]. cbn [map]. by rewrite Hx, IH. }
    by rewrite (sort_map stringify), map_map.
Qed.

Lemma sort_keys_wf v : json_wf v → json_wf (sort_keys v).
Proof.
  induction v as [| | | |l Hl|fs Hfs|] using json_induct; intros Hw; try done; cbn [sort_keys]; inversion Hw; subst.
  - constructor. apply Forall_map. rewrite Forall_forall in *. eauto.
  - constructor.
    + rewrite js_sort_perm. change (NoDup (map fst (map (λ kv : string * json, (kv.1, sort_keys kv.2)) fs))).
      by rewrite map_map.
    + rewrite js_sort_perm. apply Forall_map. rewrite Forall_forall in *. cbn. eauto.
Qed.

(** Two JSON values with the same canonical text are the same up to the order of their keys. *)
Lemma canonical_inj a b : json_wf a → json_wf b → canonical a = canonical b → sort_keys a = sort_keys b.
Proof.
  rewrite !canonical_sorted. intros Ha%sort_keys_wf%JSON_parse_stringify Hb%sort_keys_wf%JSON_parse_stringify E. congruence.
Qed.

(** ** The two canonical forms are one *)

Lemma replace_app c r a b : replace_char c r (a +:+ b) = replace_char c r a +:+ replace_char c r b.
Proof. induction a as [|d a IH]; [done|]. change (String d a +:+ b) with (String d (a +:+ b)).
  cbn [replace_char]. by rewrite IH, str_app_assoc. Qed.

Definition replace_all (rs : list (N * string)) (s : string) : string :=
  fold_left (λ r cb, replace_char (ascii_of_N cb.1) cb.2 r) rs s.

Lemma replace_all_app rs a b : replace_all rs (a +:+ b) = replace_all rs a +:+ replace_all rs b.
Proof. revert a b. induction rs as [|[c r] rs IH]; intros a b; [done|]. unfold replace_all in *. cbn [fold_left fst snd]. by rewrite replace_app, IH. Qed.

Lemma replace_all_nil rs : replace_all rs EmptyString = EmptyString.
Proof. unfold replace_all. induction rs as [|[c r] rs IH]; [done|exact IH]. Qed.

Lemma replaced_char : ∀ c, (0 < N_of_ascii c)%N → replace_all sql_replacements (String c EmptyString) = json_escape c.
Proof.
  apply (char_induct (λ c, (0 < N_of_ascii c)%N → _)). intros n Hn.
  assert (H : forallb (λ i, replace_all sql_replacements (String (ascii_of_N (N.of_nat i)) EmptyString) ===
                            json_escape (ascii_of_N (N.of_nat i))) (seq 1 255) = true) by (vm_compute; reflexivity).
  rewrite N_ascii_embedding by lia. intros Hp. rewrite forallb_forall in H.
  specialize (H (N.to_nat n)). rewrite N2Nat.id in H. rewrite in_seq in H.
  apply bool_decide_eq_true in H; [exact H|lia].
Qed.

Lemma replaced_text s : storable s = true → replace_all sql_replacements s = json_chars s.
Proof.
  induction s as [|c s IH]; [intros _; apply replace_all_nil|]. unfold storable. cbn [chars_ok json_chars].
  rewrite andb_true_iff. intros [Hc%N.ltb_lt Hs]. change (String c s) with (String c EmptyString +:+ s).
  by rewrite replace_all_app, replaced_char, IH.
Qed.

Lemma quoted_alike s : storable s = true → identity_json_string_v1 s = json_quote s.
Proof.
  intros Hs. unfold identity_json_string_v1, json_quote. do 2 f_equal. exact (replaced_text s Hs).
Qed.

Lemma ascii_storable s : ascii_key s = true → storable s = true.
Proof.
  induction s as [|c s IH]; [done|]. unfold ascii_key, storable in *. cbn [chars_ok]. rewrite !andb_true_iff.
  intros [[? _] ?]. by split; [|apply IH].
Qed.

(** No string of the document holds the character NUL, as in every value of type jsonb. *)
Fixpoint jsonb_storable (v : jsonb) : bool :=
  match v with
  | BStr s => storable s
  | BArr l => forallb jsonb_storable l
  | BObj fs => forallb (λ kv, jsonb_storable kv.2) fs
  | _ => true
  end.

(** Every number of the document is written without a point. *)
Fixpoint integral (v : jsonb) : bool :=
  match v with
  | BNum _ scale => (scale =? 0)%nat
  | BArr l => forallb integral l
  | BObj fs => forallb (λ kv, integral kv.2) fs
  | _ => true
  end.

Section jsonb_induction.
Context (P : jsonb → Prop).
Context (Hnull : P BNull) (Hbool : ∀ b, P (BBool b)) (Hnum : ∀ m k, P (BNum m k)) (Hstr : ∀ s, P (BStr s)).
Context (Harr : ∀ l, Forall P l → P (BArr l)) (Hobj : ∀ fs, Forall (λ kv, P kv.2) fs → P (BObj fs)).

Fixpoint jsonb_induct (v : jsonb) : P v :=
  match v with
  | BNull => Hnull
  | BBool b => Hbool b
  | BNum m k => Hnum m k
  | BStr s => Hstr s
  | BArr l => Harr l ((fix go l : Forall P l := match l with [] => List.Forall_nil _ | x :: l' => @List.Forall_cons _ P x l' (jsonb_induct x) (go l') end) l)
  | BObj fs => Hobj fs ((fix go l : Forall (λ kv, P kv.2) l := match l with [] => List.Forall_nil _ | x :: l' => @List.Forall_cons _ (λ kv, P kv.2) x l' (jsonb_induct x.2) (go l') end) fs)
  end.
End jsonb_induction.

(** *** Numbers *)

Definition chars_all (p : ascii → bool) (s : string) : bool := forallb p (String.list_ascii_of_string s).

Lemma chars_all_app p a b : chars_all p (a +:+ b) = chars_all p a && chars_all p b.
Proof.
  unfold chars_all. induction a as [|c a IH]; [done|]. change (String c a +:+ b) with (String c (a +:+ b)).
  cbn [String.list_ascii_of_string forallb]. by rewrite IH, andb_assoc.
Qed.

Lemma digit_is_num n : (n < 10)%N → is_num (pretty_N_char n) = true.
Proof. intros Hn. destruct n as [|[[[[]|[]|]|[[]|[]|]|]|[[[]|[]|]|[[]|[]|]|]|]]; try done; lia. Qed.

Lemma pretty_go_digits k : ∀ x s, (x < 10 ^ N.of_nat k)%N → chars_all is_num s = true →
  chars_all is_num (pretty_N_go x s) = true ∧ (String.length (pretty_N_go x s) ≤ k + String.length s)%nat.
Proof.
  induction k as [|k IH]; intros x s Hx Hs; (assert (x = 0 ∨ 0 < x)%N as [->|H0] by lia; [rewrite pretty_N_go_0; split; [done|lia]|]).
  - change (10 ^ N.of_nat 0)%N with 1%N in Hx. lia.
  - rewrite pretty_N_go_step by done. rewrite Nat2N.inj_succ, N.pow_succ_r' in Hx.
    destruct (IH (x / 10)%N (String (pretty_N_char (x mod 10)) s)) as [H1 H2].
    + apply N.Div0.div_lt_upper_bound. lia.
    + unfold chars_all in *. cbn [String.list_ascii_of_string forallb]. rewrite digit_is_num by (by apply N.mod_lt). exact Hs.
    + split; [exact H1|]. cbn [String.length] in H2. lia.
Qed.

Definition digits_16 (n : string) : bool :=
  match n with
  | EmptyString => false
  | String c s => if c === "0"%char then s === EmptyString
                  else is_num c && forallb is_num (String.list_ascii_of_string s) && (String.length s <=? 15)%nat
  end.

Lemma sql_integer_minus s : sql_integer (String "-" s) = digits_16 s.
Proof. reflexivity. Qed.
Lemma sql_integer_unsigned c s : c ≠ "-"%char → sql_integer (String c s) = digits_16 (String c s).
Proof. intros Hc. destruct c as [[] [] [] [] [] [] [] []]; done. Qed.

(** The pattern takes the integers of at most sixteen digits. *)
Lemma sql_integer_pretty n : Z.abs n ≤ max_safe → sql_integer (pretty n) = true.
Proof.
  intros Hn. assert (Hp : ∀ x, (0 < x)%N → (Z.of_N x ≤ max_safe) → ∃ c t, pretty x = String c t ∧ c ≠ "0"%char ∧ c ≠ "-"%char ∧
    is_num c && forallb is_num (String.list_ascii_of_string t) && (String.length t <=? 15)%nat = true).
  { intros x H0 Hx. unfold pretty, pretty_N. rewrite decide_False by lia.
    destruct (pretty_go_digits 16 x EmptyString) as [H1 H2]; [unfold max_safe in Hx; lia|done|].
    destruct (pretty_head x EmptyString H0) as (c & t & E & Hc & Hd). rewrite E in *. exists c, t.
    split; [done|]. split; [done|]. split; [by intros ->; destruct Hd|]. unfold chars_all in H1.
    cbn [String.list_ascii_of_string forallb String.length] in *. rewrite H1. apply Nat.leb_le. lia. }
  destruct n as [|x|x]; [done|..].
  - destruct (Hp (N.pos x)) as (c & t & E & Hc & Hm & Ht); [done|done|]. change (pretty (Z.pos x)) with (pretty (N.pos x)). rewrite E.
    rewrite sql_integer_unsigned by done. cbn [digits_16]. rewrite (bool_decide_false (c = "0"%char)) by done. exact Ht.
  - destruct (Hp (N.pos x)) as (c & t & E & Hc & Hm & Ht); [done|done|]. change (pretty (Z.neg x)) with ("-" +:+ pretty (N.pos x)). rewrite E.
    change ("-" +:+ String c t) with (String "-" (String c t)).
    rewrite sql_integer_minus. cbn [digits_16]. rewrite (bool_decide_false (c = "0"%char)) by done. exact Ht.
Qed.

Lemma sql_integer_chars n : sql_integer n = true → chars_all (λ c, is_num c || (c === "-"%char)) n = true.
Proof.
  assert (Hw : ∀ s, chars_all is_num s = true → chars_all (λ c, is_num c || (c === "-"%char)) s = true).
  { intros s. unfold chars_all. rewrite !forallb_forall. intros H c Hc. by rewrite (H c Hc). }
  assert (Hs : ∀ s, digits_16 s = true → chars_all is_num s = true).
  { intros [|c s]; [done|]. cbn [digits_16]. destruct (c === "0"%char) eqn:E; [by intros H; to_prop; subst|]. intros [H _]%andb_true_iff. exact H. }
  intros H. destruct n as [|c n]; [done|]. destruct (decide (c = "-"%char)) as [->|Hc].
  - rewrite sql_integer_minus in H. apply Hs, Hw in H. exact H.
  - rewrite sql_integer_unsigned in H by done. apply Hw, Hs, H.
Qed.

(** What SQL takes for an integer in range is a numeral without a point. *)
Lemma sql_number m k : sql_integer (numeric_text m k) && (Z.abs m <=? max_safe * 10 ^ Z.of_nat k) =
  (k =? 0)%nat && (Z.abs m <=? max_safe).
Proof.
  destruct k as [|k].
  - change (10 ^ Z.of_nat 0) with 1. cbn [numeric_text Nat.eqb andb]. rewrite Z.mul_1_r. destruct (Z.abs m <=? max_safe) eqn:E; [|apply andb_false_r].
    rewrite sql_integer_pretty by lia. done.
  - cbn [Nat.eqb andb]. destruct (sql_integer _) eqn:E; [|done]. apply sql_integer_chars in E. unfold numeric_text in E.
    rewrite !chars_all_app in E. change (chars_all _ ".") with false in E. by rewrite andb_false_l, !andb_false_r in E.
Qed.

(** JavaScript reads a numeral without a point as a safe integer exactly when it is one. *)
Lemma read_integer m : match json_of_number (number_read m 0) with
  | JNum n => (Z.abs n <=? max_safe) = (Z.abs m <=? max_safe) ∧ (Z.abs m ≤ max_safe → n = m)
  | JFloat _ => (Z.abs m <=? max_safe) = false
  | _ => False
  end.
Proof.
  unfold number_read. cbn [Z.of_nat Z.opp]. destruct (Z.leb_spec (Z.abs m) exact_bound) as [Hm|Hm].
  - rewrite of_decimal_exact by done. destruct (m <? 0) eqn:E; cbn [negate json_of_number]; (split; [f_equal; lia|lia]).
  - unfold of_decimal. rewrite (proj2 (Z.leb_gt _ _) Hm). cbn [Z.eqb Z.leb andb Z.compare]. rewrite Z.pow_0_r, Z.mul_1_r.
    assert (Hf : (Z.abs m <=? max_safe) = false) by (unfold max_safe, exact_bound in *; lia). rewrite Hf.
    pose proof (nearest_double_large _ Hm) as H. destruct (nearest_double _ 1) as [n|f]; [|subst f; by destruct (m <? 0)].
    destruct (m <? 0); cbn [negate json_of_number]; (split; [unfold max_safe, exact_bound in *|]; lia).
Qed.

(** A numeral with a zero fraction is read as the integer it is. *)
Lemma read_whole m k : (0 < k)%nat → Z.abs m < 2 ^ 53 → number_read (m * 10 ^ Z.of_nat k) k = Int m.
Proof.
  intros Hk Hm. assert (0 < 10 ^ Z.of_nat k) as Hp by (apply Z.pow_pos_nonneg; lia).
  unfold number_read, of_decimal. rewrite Z.abs_mul, (Z.abs_eq (10 ^ _)) by lia.
  rewrite (proj2 (Z.eqb_neq (- Z.of_nat k) 0)), (proj2 (Z.leb_gt 0 (- Z.of_nat k))) by lia. cbn [andb].
  rewrite Z.opp_involutive, nearest_double_exact by lia. destruct (_ <? 0) eqn:E; cbn [negate]; f_equal; nia.
Qed.

Section named.
Context (path : string).

Fixpoint assert_items (i : Z) (l : list json) : result unit :=
  match l with
  | [] => Ok tt
  | item :: rest => assertCanonicalV1 item (path +:+ "[" +:+ pretty i +:+ "]");; assert_items (i + 1) rest
  end.
Fixpoint assert_entries (fs : list (string * json)) : result unit :=
  match fs with
  | [] => Ok tt
  | (key, item) :: rest =>
      ensure (ascii_key key) (canonical_refusal "IDENTITY_CANONICAL_NON_ASCII_KEY" path);;
      assertCanonicalV1 item (path +:+ "." +:+ key);;
      assert_entries rest
  end.

Lemma assert_arr l : assertCanonicalV1 (JArr l) path = assert_items 0 l.
Proof. reflexivity. Qed.
Lemma assert_obj fs : assertCanonicalV1 (JObj fs) path = assert_entries fs.
Proof. reflexivity. Qed.
End named.

Fixpoint sql_items (l : list jsonb) : result (list string) :=
  match l with
  | [] => Ok []
  | item :: rest => text ← identity_core_canonical_v1 item; texts ← sql_items rest; Ok (text :: texts)
  end.
Fixpoint sql_entries (fs : list (string * jsonb)) : result (list (string * string)) :=
  match fs with
  | [] => Ok []
  | (key, item) :: rest =>
      ensure (ascii_key key) (pg_refusal "IDENTITY_CANONICAL_NON_ASCII_KEY");;
      text ← identity_core_canonical_v1 item;
      texts ← sql_entries rest;
      Ok ((key, text) :: texts)
  end.

Lemma sql_arr l : identity_core_canonical_v1 (BArr l) =
  (parts ← sql_items l; Ok ("[" +:+ join "," parts +:+ "]")).
Proof. reflexivity. Qed.
Lemma sql_obj fs : identity_core_canonical_v1 (BObj fs) =
  (parts ← sql_entries fs;
   Ok ("{" +:+ join "," (map (λ kv, identity_json_string_v1 kv.1 +:+ ":" +:+ kv.2) (js_sort key_compare parts)) +:+ "}")).
Proof. reflexivity. Qed.

(** *** One document *)

(** SQL writes a text for a document that holds no NUL exactly when every number of it is
    written without a point and TypeScript writes that text for what it reads. *)
Definition agrees (v : jsonb) : Prop := ∀ path t,
  (integral v = true ∧ assertCanonicalV1 (js_of v) path = Ok tt ∧ t = canonical (js_of v)) ↔
  (jsonb_storable v = true ∧ identity_core_canonical_v1 v = Ok t).

Lemma agrees_items l : Forall agrees l → ∀ path i ts,
  (forallb integral l = true ∧ assert_items path i (map js_of l) = Ok tt ∧ ts = map canonical (map js_of l)) ↔
  (forallb jsonb_storable l = true ∧ sql_items l = Ok ts).
Proof.
  induction 1 as [|v l Hv Hl IH]; intros path i ts; cbn [assert_items sql_items map forallb].
  { split; [by intros (_ & _ & ->)|by intros [_ <-%Ok_inj]]. }
  rewrite !andb_true_iff. split.
  - intros ([Hi Hn] & ([] & Ha & Hr)%bind_ok & ->).
    destruct (proj1 (Hv _ _) (conj Hi (conj Ha eq_refl))) as [Hj ->].
    by destruct (proj1 (IH _ _ _) (conj Hn (conj Hr eq_refl))) as [Hjs ->].
  - intros [[Hj Hjs] (t & Ht & (ts' & Hts & <-%Ok_inj)%bind_ok)%bind_ok].
    destruct (proj2 (Hv (path +:+ "[" +:+ pretty i +:+ "]") t) (conj Hj Ht)) as (Hi & -> & ->).
    by destruct (proj2 (IH path (i + 1) ts') (conj Hjs Hts)) as (Hn & -> & ->).
Qed.

Lemma agrees_entries fs : Forall (λ kv, agrees kv.2) fs → ∀ path ts,
  (forallb (λ kv, integral kv.2) fs = true ∧ assert_entries path (map (λ kv, (kv.1, js_of kv.2)) fs) = Ok tt ∧
   ts = map (λ kv, (kv.1, canonical kv.2)) (map (λ kv, (kv.1, js_of kv.2)) fs)) ↔
  (forallb (λ kv, jsonb_storable kv.2) fs = true ∧ sql_entries fs = Ok ts).
Proof.
  induction 1 as [|[k v] fs Hv Hl IH]; intros path ts; cbn [assert_entries sql_entries map forallb].
  { split; [by intros (_ & _ & ->)|by intros [_ <-%Ok_inj]]. }
  cbn [snd fst] in *. rewrite !andb_true_iff. split.
  - intros ([Hi Hn] & H & ->). apply ensure_ok in H as [Hk ([] & Ha & Hr)%bind_ok].
    destruct (proj1 (Hv _ _) (conj Hi (conj Ha eq_refl))) as [Hj ->].
    destruct (proj1 (IH _ _) (conj Hn (conj Hr eq_refl))) as [Hjs ->]. by rewrite Hk.
  - intros [[Hj Hjs] H]. apply ensure_ok in H as [Hk (t & Ht & (ts' & Hts & <-%Ok_inj)%bind_ok)%bind_ok].
    destruct (proj2 (Hv (path +:+ "." +:+ k) t) (conj Hj Ht)) as (Hi & -> & ->).
    destruct (proj2 (IH path ts') (conj Hjs Hts)) as (Hn & -> & ->). by rewrite Hk.
Qed.

Lemma entries_keys fs ts : sql_entries fs = Ok ts → Forall (λ kv, ascii_key kv.1 = true) ts.
Proof.
  revert ts. induction fs as [|[k v] fs IH]; intros ts; cbn [sql_entries]; [by intros <-%Ok_inj|].
  intros H. apply ensure_ok in H as [Hk (t & Ht & (ts' & Hts & <-%Ok_inj)%bind_ok)%bind_ok]. constructor; eauto.
Qed.

Lemma number_agrees m k : agrees (BNum m k).
Proof.
  intros path t. cbn [integral jsonb_storable identity_core_canonical_v1 js_of]. cbv zeta. rewrite sql_number.
  destruct k as [|k]; [|by split; [intros []|intros [_ ?]]]. pose proof (read_integer m) as H.
  destruct (json_of_number _) as [| |n| | | |f]; try done; cbn [assertCanonicalV1 canonical stringify Nat.eqb andb numeric_text].
  - destruct H as [Hr Hn].
    assert ((- max_safe <=? n) && (n <=? max_safe) = (Z.abs n <=? max_safe)) as -> by lia. rewrite Hr.
    destruct (Z.leb_spec (Z.abs m) max_safe) as [Hm|Hm]; [|by split; [intros (_ & ? & _)|intros [_ ?]]].
    rewrite (Hn Hm), int_text_exact by (unfold max_safe, exact_bound in *; lia). cbn [ensure mbind result_bind].
    split; [by intros (_ & _ & ->)|by intros [_ <-%Ok_inj]].
  - rewrite H. by split; [intros (_ & ? & _)|intros [_ ?]].
Qed.

Lemma all_agree v : agrees v.
Proof.
  induction v as [|b|m k|s|l Hl|fs Hfs] using jsonb_induct; [| |apply number_agrees|..]; intros path t; cbn [js_of integral].
  - cbn. split; [by intros (_ & _ & ->)|by intros [_ <-%Ok_inj]].
  - cbn. destruct b; (split; [by intros (_ & _ & ->)|by intros [_ <-%Ok_inj]]).
  - cbn [assertCanonicalV1 jsonb_storable identity_core_canonical_v1]. unfold ensure.
    destruct (storable s) eqn:Hs; [|by split; [intros (_ & ? & _)|intros []]].
    rewrite (quoted_alike _ Hs). split; [by intros (_ & _ & ->)|by intros [_ <-%Ok_inj]].
  - rewrite assert_arr, sql_arr. cbn [jsonb_storable canonical]. split.
    + intros (Hi & Ha & ->). destruct (proj1 (agrees_items l Hl path 0 _) (conj Hi (conj Ha eq_refl))) as [-> ->]. done.
    + intros [Hj (ts & Hts & <-%Ok_inj)%bind_ok].
      by destruct (proj2 (agrees_items l Hl path 0 ts) (conj Hj Hts)) as (-> & -> & ->).
  - rewrite assert_obj, sql_obj. cbn [jsonb_storable canonical].
    assert (Hq : ∀ ts, sql_entries fs = Ok ts →
      map (λ kv : string * string, identity_json_string_v1 kv.1 +:+ ":" +:+ kv.2) (js_sort key_compare ts) =
      map (λ kv, json_quote kv.1 +:+ ":" +:+ kv.2) (js_sort key_compare ts)).
    { intros ts Hk%entries_keys. apply map_ext_in. intros [k x] Hin%list_elem_of_In%js_sort_elem. cbn.
      rewrite Forall_forall in Hk. by rewrite (quoted_alike k) by (apply ascii_storable; exact (Hk _ Hin)). }
    split.
    + intros (Hi & Ha & ->). destruct (proj1 (agrees_entries fs Hfs path _) (conj Hi (conj Ha eq_refl))) as [-> Hts].
      rewrite Hts. cbn [mbind result_bind]. by rewrite (Hq _ Hts).
    + intros [Hj (ts & Hts & <-%Ok_inj)%bind_ok]. rewrite (Hq _ Hts).
      by destruct (proj2 (agrees_entries fs Hfs path ts) (conj Hj Hts)) as (-> & -> & ->).
Qed.

(** SQL writes exactly what TypeScript writes of a document whose numbers have no point. *)
Lemma twins_text v t : jsonb_storable v = true ∧ identity_core_canonical_v1 v = Ok t ↔
  integral v = true ∧ identityCoreCanonicalV1 (js_of v) = Ok t.
Proof.
  rewrite <- (all_agree v "$" t). unfold identityCoreCanonicalV1. split.
  - by intros (-> & -> & ->).
  - by intros (-> & ([] & -> & <-%Ok_inj)%bind_ok).
Qed.

(** *** What TypeScript stores *)

Definition survives (v : json) : Prop := ∀ path, assertCanonicalV1 v path = Ok tt → js_of (jsonb_of v) = v ∧ integral (jsonb_of v) = true.

Lemma survives_items l : Forall survives l → ∀ path i, assert_items path i l = Ok tt →
  map js_of (map jsonb_of l) = l ∧ forallb integral (map jsonb_of l) = true.
Proof.
  induction 1 as [|v l Hv Hl IH]; intros path i; cbn [assert_items map forallb]; [done|].
  intros ([] & [-> ->]%Hv & [-> ->]%IH)%bind_ok. done.
Qed.

Lemma survives_entries fs : Forall (λ kv, survives kv.2) fs → ∀ path, assert_entries path fs = Ok tt →
  map (λ kv, (kv.1, js_of kv.2)) (map (λ kv, (kv.1, jsonb_of kv.2)) fs) = fs ∧
  forallb (λ kv, integral kv.2) (map (λ kv, (kv.1, jsonb_of kv.2)) fs) = true.
Proof.
  induction 1 as [|[k v] fs Hv Hl IH]; intros path; cbn [assert_entries map forallb]; [done|]. cbn [fst snd] in *.
  intros [_ ([] & [-> ->]%Hv & [-> ->]%IH)%bind_ok]%ensure_ok. done.
Qed.

Lemma all_survive v : survives v.
Proof.
  induction v as [|b|n|s|l Hl|fs Hfs|f] using json_induct; intros path; try done.
  - cbn [assertCanonicalV1]. unfold ensure. destruct (_ && _) eqn:Hn; [intros _|done]. cbn [jsonb_of].
    rewrite (proj2 (Z.leb_le (Z.abs n) exact_bound)) by (unfold max_safe, exact_bound in *; lia). cbn [js_of integral]. split; [|done].
    pose proof (read_integer n) as H. destruct (json_of_number _); try done; [|lia].
    f_equal. destruct H as [_ H]. apply H. lia.
  - rewrite assert_arr. intros H. destruct (survives_items l Hl _ _ H) as [E Hi]. cbn [jsonb_of js_of integral]. by rewrite E.
  - rewrite assert_obj. intros H. destruct (survives_entries fs Hfs _ H) as [E Hi]. cbn [jsonb_of js_of integral]. by rewrite E.
Qed.

(** C32: The two forms of the identity digest contract, and where they part.  For a stored
    document (a jsonb value: no NUL character, numbers with their digits), the SQL function
    [identity_core_canonical_v1] of the migration writes a text exactly when every number of
    the document is written without a point and [identityCoreCanonicalV1] of canonical.ts
    writes the same text for what JSON.parse reads of it.  Whatever [identityCoreCanonicalV1]
    accepts can be stored, and SQL writes the same text for it once stored.  They disagree on
    one thing only: a stored numeral with digits after its point that reads as an integer, such
    as 1.0, which SQL refuses and TypeScript writes as 1. *)
Theorem identity_twins_agree :
  (∀ v t, jsonb_storable v = true →
     (identity_core_canonical_v1 v = Ok t ↔ integral v = true ∧ identityCoreCanonicalV1 (js_of v) = Ok t)) ∧
  (∀ v t, identityCoreCanonicalV1 v = Ok t →
     jsonb_storable (jsonb_of v) = true ∧ identity_core_canonical_v1 (jsonb_of v) = Ok t ∧ js_of (jsonb_of v) = v) ∧
  (∀ m k, (0 < k)%nat → Z.abs m ≤ max_safe →
     is_ok (identity_core_canonical_v1 (BNum (m * 10 ^ Z.of_nat k) k)) = false ∧
     identityCoreCanonicalV1 (js_of (BNum (m * 10 ^ Z.of_nat k) k)) = Ok (pretty m)).
Proof.
  split; [|split].
  - intros v t Hj. rewrite <- twins_text. tauto.
  - intros v t H. pose proof H as Ht. unfold identityCoreCanonicalV1 in H. apply bind_ok in H as ([] & [E Hi]%all_survive & _).
    rewrite <- E in Ht. destruct (proj2 (twins_text _ t) (conj Hi Ht)) as [Hj Hs]. by rewrite E.
  - intros m k Hk Hm. split.
    + cbn [identity_core_canonical_v1]. cbv zeta. rewrite sql_number. by destruct k; [lia|].
    + cbn [js_of]. replace (number_read _ _) with (Int m).
      * unfold identityCoreCanonicalV1. cbn [json_of_number assertCanonicalV1 canonical stringify].
        rewrite int_text_exact by (unfold max_safe, exact_bound in *; lia).
        by rewrite !(proj2 (Z.leb_le _ _)) by lia.
      * symmetry. apply read_whole; [done|]. unfold max_safe in Hm. lia.
Qed.

(** A small document, stored, and the numeral 1.0 in its place. *)
Lemma identity_twins_agree_witness :
  let v := JObj [("version", JNum 1); ("name", JArr [JStr "Kernel"])] in
  identity_core_canonical_v1 (jsonb_of v) = Ok (canonical v) ∧ js_of (jsonb_of v) = v ∧
  is_ok (identity_core_canonical_v1 (BNum 10 1)) = false ∧ identityCoreCanonicalV1 (js_of (BNum 10 1)) = Ok "1".
Proof.
  cbv zeta. set (v := JObj _). destruct identity_twins_agree as (_ & Hstored & Hparts).
  destruct (Hstored v (canonical v)) as (_ & H1 & H2); [vm_compute; reflexivity|].
  destruct (Hparts 1 1%nat) as [H3 H4]; [lia|unfold max_safe; lia|].
  split; [exact H1|]. split; [exact H2|]. split; [exact H3|exact H4].
Defined.

(** ** What a schema reads back *)

Lemma rereads_trimmed lo hi : rereads (z_trimmed lo hi) JStr.
Proof.
  intros [| | |s| | |] x; try done. cbn [z_trimmed]. intros H.
  assert (x = js_trim s) as ->. { unfold z_text, z_string in H. by apply ensure_ok in H as [_ <-%Ok_inj]. }
  cbn [z_trimmed]. by rewrite js_trim_idem.
Qed.
Lemma rereads_ShortText : rereads ShortText JStr.
Proof. apply rereads_trimmed. Qed.
Lemma rereads_ListItem : rereads ListItem JStr.
Proof. apply rereads_trimmed. Qed.
Lemma rereads_texts lo hi (schema : json → result string) : rereads schema JStr → rereads (z_array lo hi schema) texts_json.
Proof. apply rereads_array. Qed.
#[export] Hint Resolve rereads_trimmed rereads_ShortText rereads_ListItem : rereads.
#[export] Hint Resolve rereads_texts | 0 : rereads.

Lemma IdentityClassA_rereads : rereads IdentityClassA_parse classA_json.
Proof. reread_object IdentityClassA_parse classA_json. Qed.

Lemma IdentityFraming_rereads : rereads IdentityFraming_parse framing_json.
Proof.
  intros v x. unfold IdentityFraming_parse at 1. intros (fs & _ & H)%bind_ok. unfold read_framing in H. reread_fields H.
  unfold IdentityFraming_parse, framing_json, read_framing. read_strict. by read_fields.
Qed.
#[export] Hint Resolve IdentityClassA_rereads IdentityFraming_rereads : rereads.

(** ** A projection carries the stored bytes *)

(** A text that was read is a string, with its spaces trimmed. *)
Lemma trimmed_ok lo hi v x : z_trimmed lo hi v = Ok x → ∃ s, v = JStr s ∧ x = js_trim s.
Proof.
  destruct v as [| | |s| | |]; try done. cbn [z_trimmed]. unfold z_text, z_string.
  intros H. apply ensure_ok in H as [_ <-%Ok_inj]. eauto.
Qed.

Definition flat (v : json) : Prop := (∃ s, v = JStr s) ∨ ∃ l, v = texts_json l.

Lemma trimmed_flat lo hi v x : z_trimmed lo hi v = Ok x → flat v.
Proof. intros (s & -> & _)%trimmed_ok. left. eauto. Qed.

Lemma texts_flat lo hi a b v l : z_array lo hi (z_trimmed a b) v = Ok l → flat v.
Proof.
  destruct v as [| | | |vs| |]; try done. cbn [z_array]. intros (xs & Hxs & _)%bind_ok. right.
  revert xs Hxs. induction vs as [|v vs IH]; intros xs; cbn [map_all]; [by exists []|].
  intros (x & (s & -> & _)%trimmed_ok & (ys & Hys & _)%bind_ok)%bind_ok.
  destruct (IH _ Hys) as [l' [= ->]]. by exists (s :: l').
Qed.

Lemma flat_wf v : flat v → json_wf v.
Proof. intros [[s ->]|[l ->]]; constructor. apply Forall_map, Forall_true. constructor. Qed.

Lemma flat_sorted v : flat v → sort_keys v = v.
Proof.
  intros [[s ->]|[l ->]]; [done|]. unfold texts_json. cbn [sort_keys]. f_equal. rewrite map_map. by apply map_ext.
Qed.

(** The parts of a document its schema has found. *)
Record document_parts (raw a c : json) (id : string) (version : Z) (va vc : list json) : Prop := {
  parts_id : member raw "id" = Some (JStr id);
  parts_version : member raw "version" = Some (JNum version);
  parts_range : 1 ≤ version ≤ max_safe;
  parts_a : (member raw "sections" ≫= λ s, member s "classA") = Some a;
  parts_c : (member raw "sections" ≫= λ s, member s "classC") = Some c;
  parts_va : map (member a) CLASS_A_FIELDS = map Some va ∧ Forall flat va;
  parts_vc : map (member c) CLASS_C_FIELDS = map Some vc ∧ Forall flat vc
}.

Lemma z_field_inv' {A} fs k (schema : json → result A) x :
  z_field fs k schema = Ok x → ∃ v, map_get fs k = Some v ∧ schema v = Ok x.
Proof. unfold z_field. destruct (map_get fs k) as [v|]; [eauto|done]. Qed.

Lemma z_strict_inv keys v fs : z_strict keys v = Ok fs → v = JObj fs.
Proof. destruct v; try done. cbn. intros H. by apply ensure_ok in H as [_ <-%Ok_inj]. Qed.

Lemma member_field {A} v fs k (schema : json → result A) x :
  v = JObj fs → z_field fs k schema = Ok x → ∃ w, member v k = Some w ∧ schema w = Ok x.
Proof. intros ->. apply z_field_inv'. Qed.

(** Find the stored value of each field that was read. *)
Ltac stored_fields Hv H :=
  repeat (let F := fresh "F" in apply bind_ok in H as (? & F & H);
          apply (member_field _ _ _ _ _ Hv) in F as (? & ? & F)).

Ltac all_flat :=
  unfold ListItem, ShortText in *;
  repeat (apply List.Forall_cons; [first [eapply trimmed_flat; eassumption|eapply texts_flat; eassumption]|]); apply List.Forall_nil.

Lemma classA_stored v a : IdentityClassA_parse v = Ok a →
  ∃ va, map (member v) CLASS_A_FIELDS = map Some va ∧ Forall flat va.
Proof.
  unfold IdentityClassA_parse. intros (fs & Hv%z_strict_inv & H)%bind_ok. stored_fields Hv H. cbn [map CLASS_A_FIELDS].
  match goal with E1 : member v "name" = Some ?v1, E2 : member v "constitution" = Some ?v2, E3 : member v "values" = Some ?v3,
    E4 : member v "operatorRelationship" = Some ?v4, E5 : member v "facultyFraming" = Some ?v5,
    E6 : member v "memoryPolicy" = Some ?v6 |- _ => exists [v1; v2; v3; v4; v5; v6]; rewrite E1, E2, E3, E4, E5, E6; split; [done|] end.
  all_flat.
Qed.

Lemma classC_stored v c : IdentityClassC_parse v = Ok c →
  ∃ vc, map (member v) CLASS_C_FIELDS = map Some vc ∧ Forall flat vc.
Proof.
  unfold IdentityClassC_parse. intros (fs & Hv%z_strict_inv & (f & H & _)%bind_ok)%bind_ok. unfold read_framing in H.
  stored_fields Hv H. cbn [map CLASS_C_FIELDS].
  match goal with E1 : member v "persona" = Some ?v1, E2 : member v "communication" = Some ?v2,
    E3 : member v "behaviour" = Some ?v3 |- _ => exists [v1; v2; v3]; rewrite E1, E2, E3; split; [done|] end.
  all_flat.
Qed.

Lemma document_stored raw doc : IdentityDocument_parse raw = Ok doc →
  ∃ a c id version va vc, document_parts raw a c id version va vc.
Proof.
  unfold IdentityDocument_parse. intros (fs & Hv%z_strict_inv & (d & Hd & H)%bind_ok)%bind_ok.
  unfold read_draft in Hd. stored_fields Hv Hd. stored_fields Hv H.
  match goal with F : IdentitySections_parse ?s = Ok _ |- _ =>
    unfold IdentitySections_parse in F; apply bind_ok in F as (gs & Hs%z_strict_inv & F); stored_fields Hs F end.
  repeat match goal with
  | F : IdentityClassA_parse _ = Ok _ |- _ => apply classA_stored in F as (va & ? & ?)
  | F : IdentityClassC_parse _ = Ok _ |- _ => apply classC_stored in F as (vc & ? & ?)
  | F : z_string _ ?w = Ok _ |- _ => destruct w; try discriminate F; clear F
  | F : z_int _ _ ?w = Ok _ |- _ => destruct w; try discriminate F; cbn [z_int] in F; apply ensure_ok in F as [? _]
  end.
  to_prop.
  do 6 eexists. split; [eassumption|eassumption|split; eassumption| | |split; eassumption|split; eassumption].
  - match goal with E : member raw "sections" = _ |- _ => rewrite E end. assumption.
  - match goal with E : member raw "sections" = _ |- _ => rewrite E end. assumption.
Qed.

(** The entries of the picked fields, in the order of the list. *)
Lemma pick_stored o v fs vs : o = Some v → map (member v) fs = map Some vs → pick o fs = JObj (zip fs vs).
Proof.
  intros -> H. unfold pick. cbn [option_bind mbind]. f_equal. revert vs H.
  induction fs as [|f fs IH]; intros [|w vs]; try done. cbn [map zip zip_with]. intros [= E H].
  cbn. rewrite E. cbn. by rewrite (IH _ H).
Qed.

Lemma projection_sorted profile id version digest a c :
  sort_keys (projection_of profile id version digest a c) =
  JObj [("identity", JObj [("digestContract", JStr IDENTITY_CORE_CONTRACT_V1); ("id", sort_keys id);
                           ("identityCoreDigest", JStr digest); ("version", sort_keys version)]);
        ("profile", sort_keys profile); ("schema", JStr IDENTITY_PROJECTION_SCHEMA_V1);
        ("sections", JObj [("classA", sort_keys a); ("classC", sort_keys c)])].
Proof. reflexivity. Qed.

Lemma obj_wf fs : bool_decide (NoDup fs.*1) = true → Forall (λ kv : string * json, json_wf kv.2) fs → json_wf (JObj fs).
Proof. intros H%bool_decide_eq_true ?. by constructor. Qed.

Ltac json_wf_tac := repeat first [assumption|apply wf_str|apply wf_num|apply obj_wf; [vm_compute; reflexivity|]
  |apply List.Forall_cons; cbn [snd]|apply List.Forall_nil].

Lemma projection_wf profile id version digest a c :
  json_wf profile → json_wf id → json_wf version → json_wf a → json_wf c → json_wf (projection_of profile id version digest a c).
Proof.
  intros. unfold projection_of. repeat (apply obj_wf; [reflexivity|]). json_wf_tac.
Qed.

Lemma texts_flat' l : flat (texts_json l).
Proof. right. eauto. Qed.
Lemma text_flat s : flat (JStr s).
Proof. left. eauto. Qed.

Lemma classA_flat a : ∃ va, classA_json a = JObj (zip CLASS_A_FIELDS va) ∧ Forall flat va ∧ length CLASS_A_FIELDS = length va.
Proof.
  exists [JStr (ia_name a); JStr (ia_constitution a); texts_json (ia_values a); JStr (ia_operatorRelationship a);
          JStr (ia_facultyFraming a); JStr (ia_memoryPolicy a)]. split; [done|]. split; [|done].
  repeat (apply List.Forall_cons; [apply text_flat || apply texts_flat'|]); apply List.Forall_nil.
Qed.
Lemma framing_flat c : ∃ vc, framing_json c = JObj (zip CLASS_C_FIELDS vc) ∧ Forall flat vc ∧ length CLASS_C_FIELDS = length vc.
Proof.
  exists [JStr (ic_persona c); JStr (ic_communication c); JStr (ic_behaviour c)]. split; [done|]. split; [|done].
  repeat (apply List.Forall_cons; [apply text_flat|]); apply List.Forall_nil.
Qed.

Lemma projection_inj pr id v d a c pr' id' v' d' a' c' :
  sort_keys (projection_of pr id v d a c) = sort_keys (projection_of pr' id' v' d' a' c') →
  sort_keys id = sort_keys id' ∧ sort_keys v = sort_keys v' ∧ d = d' ∧ sort_keys a = sort_keys a' ∧ sort_keys c = sort_keys c'.
Proof. rewrite !projection_sorted. intros [= ? ? ? ? ? ?]. done. Qed.

(** Two objects with the same keys in the same order and one sorted form are one. *)
Lemma perm_same_keys {A} (l l' : list (string * A)) : NoDup l.*1 → l.*1 = l'.*1 → l ≡ₚ l' → l = l'.
Proof.
  revert l'. induction l as [|[k x] l IH]; intros [|[k' y] l'] Hn Hk Hp; try done.
  cbn in Hk. injection Hk as <- Hk. cbn in Hn. apply NoDup_cons in Hn as [Hin Hn].
  assert (x = y) as <-.
  { assert (Hx : (k, x) ∈ (k, y) :: l') by (rewrite <- Hp; left).
    apply elem_of_cons in Hx as [[= ->]|Hx]; [done|]. destruct Hin. rewrite Hk. apply list_elem_of_fmap. by exists (k, x). }
  f_equal. apply IH; [done..|]. by apply Permutation_cons_inv in Hp.
Qed.

Lemma zip_keys {A} (ks : list string) (vs : list A) : length ks = length vs → (zip ks vs).*1 = ks.
Proof. intros H. apply fst_zip. lia. Qed.

Lemma flat_obj_inj ks va vb : NoDup ks → length ks = length va → length ks = length vb →
  Forall flat va → Forall flat vb →
  sort_keys (JObj (zip ks va)) = sort_keys (JObj (zip ks vb)) → va = vb.
Proof.
  intros Hn Ha Hb Fa Fb. cbn [sort_keys].
  assert (Hid : ∀ vs, Forall flat vs → map (λ kv : string * json, (kv.1, sort_keys kv.2)) (zip ks vs) = zip ks vs).
  { clear. intros vs F. revert ks. induction F as [|v vs Hv F IH]; intros [|k ks]; try done. cbn. by rewrite (flat_sorted _ Hv), IH. }
  rewrite !Hid by done. intros [= E].
  assert (Hp : zip ks va ≡ₚ zip ks vb) by (rewrite <- (js_sort_perm key_compare), E; apply js_sort_perm).
  apply perm_same_keys in Hp; [|by rewrite zip_keys..|by rewrite !zip_keys].
  rewrite <- (snd_zip ks va), <- (snd_zip ks vb) by lia. by rewrite Hp.
Qed.

Lemma zip_wf ks va : NoDup ks → length ks = length va → Forall flat va → json_wf (JObj (zip ks va)).
Proof.
  intros Hn Hl F. constructor; [by rewrite zip_keys|]. clear Hn Hl. revert ks.
  induction F as [|v va Hv F IH]; intros [|k ks]; constructor; [by apply flat_wf|apply IH].
Qed.

Lemma stored_length {A} v (ks : list string) (vs : list A) (f : A → option json) : map (member v) ks = map f vs → length ks = length vs.
Proof. intros H%(f_equal length). by rewrite !length_map in H. Qed.

Lemma class_nodup : NoDup CLASS_A_FIELDS ∧ NoDup CLASS_C_FIELDS.
Proof. split; apply (bool_decide_unpack _); vm_compute; exact I. Qed.

Lemma projection_range v p : IdentityProjection_parse v = Ok p → 1 ≤ pj_version p ≤ max_safe.
Proof.
  unfold IdentityProjection_parse. intros (fs & _ & (_ & _ & (_ & _ & (i & Hi & (x & _ & <-%Ok_inj)%bind_ok)%bind_ok)%bind_ok)%bind_ok)%bind_ok.
  apply z_field_ok in Hi as [w (gs & _ & (a & _ & (n & Hn & (b & _ & (_ & _ & <-%Ok_inj)%bind_ok)%bind_ok)%bind_ok)%bind_ok)%bind_ok].
  cbn. apply z_field_ok in Hn as [u Hn]. destruct u; try done. cbn [z_int] in Hn. apply ensure_ok in Hn as [H <-%Ok_inj]. by to_prop.
Qed.

(** What is equal in canonical form to the projection read from it is that projection. *)
Lemma projection_same p id version digest va vc :
  length CLASS_A_FIELDS = length va → length CLASS_C_FIELDS = length vc → Forall flat va → Forall flat vc →
  1 ≤ version ≤ max_safe → 1 ≤ pj_version p ≤ max_safe →
  canonical (projection_json p) =
    canonical (projection_of (JStr ANALYST_INTELLIGENCE_V1) (JStr id) (JNum version) digest
      (JObj (zip CLASS_A_FIELDS va)) (JObj (zip CLASS_C_FIELDS vc))) →
  id = pj_id p ∧ version = pj_version p ∧ digest = pj_coreDigest p ∧
  JObj (zip CLASS_A_FIELDS va) = classA_json (pj_classA p) ∧ JObj (zip CLASS_C_FIELDS vc) = framing_json (pj_classC p).
Proof.
  intros La Lc Fa Fc Hv Hp. destruct class_nodup as [Na Nc]. unfold projection_json.
  destruct (classA_flat (pj_classA p)) as (wa & -> & Ga & La'). destruct (framing_flat (pj_classC p)) as (wc & -> & Gc & Lc').
  intros E. apply canonical_inj in E; [|apply projection_wf; first [by apply zip_wf|constructor; unfold exact_bound, max_safe in *; lia]..].
  apply projection_inj in E as ([= ->] & [= ->] & -> & Ea & Ec).
  apply flat_obj_inj in Ea; [|done..]. apply flat_obj_inj in Ec; [|done..]. by subst.
Qed.

Lemma refuse_identity_ok {B} c code (k : unit → result B) b :
  (refuse_identity c code ≫= k) = Ok b → c = true ∧ k tt = Ok b.
Proof. apply ensure_ok. Qed.

Lemma profile_scope profile scope : map_get PROFILE_SCOPES profile = Some scope →
  profile = ANALYST_INTELLIGENCE_V1 ∧
  ∀ path, path ∈ scope ↔ path ∈ map (String.append "classA.") CLASS_A_FIELDS ++ map (String.append "classC.") CLASS_C_FIELDS.
Proof. cbn [PROFILE_SCOPES map_get]. case_bool_decide as E; [|done]. intros [= <-]. subst. by split. Qed.

(** What a projection is: the stored document's own parts under the profile's fixed envelope. *)
Lemma projectIdentity_ok raw profile ceiling p : projectIdentity raw profile ceiling = Ok p →
  profile = ANALYST_INTELLIGENCE_V1 ∧
  (∀ path, path ∈ map (String.append "classA.") CLASS_A_FIELDS ++ map (String.append "classC.") CLASS_C_FIELDS → path ∈ ceiling) ∧
  identityCoreDigestV1 raw = Ok (pj_coreDigest p) ∧
  ∃ a c va vc, document_parts raw a c (pj_id p) (pj_version p) va vc ∧
    JObj (zip CLASS_A_FIELDS va) = classA_json (pj_classA p) ∧ JObj (zip CLASS_C_FIELDS vc) = framing_json (pj_classC p).
Proof.
  unfold projectIdentity. destruct (map_get PROFILE_SCOPES profile) as [scope|] eqn:Hs; [|done].
  apply profile_scope in Hs as [-> Hs].
  intros (_ & (HA & (HC & (_ & (Hd & (d & Hdg & (q & Hq & (rd & Hrd & (st & Hst & (Heq & <-%Ok_inj)%refuse_identity_ok)%bind_ok)%bind_ok)%bind_ok)%bind_ok)%refuse_identity_ok)%refuse_identity_ok)%refuse_identity_ok)%refuse_identity_ok)%refuse_identity_ok.
  destruct (IdentityDocument_parse raw) as [doc|] eqn:Edoc; [|done].
  apply document_stored in Edoc as (a & c & id & v & va & vc & Hp). pose proof Hp as [Hid Hv Hrange Ha Hc [Va Fa] [Vc Fc]].
  rewrite Hid, Hv in *. cbn [default] in *. rewrite (pick_stored _ _ _ _ Ha Va), (pick_stored _ _ _ _ Hc Vc) in *.
  apply bind_ok in Hrd as ([] & _ & <-%Ok_inj). apply bind_ok in Hst as ([] & _ & <-%Ok_inj). apply bool_decide_eq_true in Heq.
  apply projection_same in Heq as (-> & -> & -> & EA & EC); [|by eapply stored_length|by eapply stored_length|done|done|done|by eapply projection_range].
  split; [done|]. split.
  { intros path [Hin|Hin]%elem_of_app; apply list_elem_of_In, in_map_iff in Hin as (f & <- & Hf);
      [rewrite forallb_forall in HA; specialize (HA f Hf)|rewrite forallb_forall in HC; specialize (HC f Hf)];
      [apply bool_decide_eq_true in HA as [_ H]%elem_of_filter_bool|apply bool_decide_eq_true in HC as [_ H]%elem_of_filter_bool];
      by apply bool_decide_eq_true in H. }
  split; [done|]. by exists a, c, va, vc.
Qed.

Lemma zip_member ks va v f : map (member v) ks = map Some va → f ∈ ks → member (JObj (zip ks va)) f = member v f.
Proof.
  revert va. induction ks as [|k ks IH]; intros [|w va]; try done; [by intros _ ?%elem_of_nil|].
  cbn [map]. intros [= E H] Hf. cbn [member zip zip_with map_get]. case_bool_decide as Ek; [by subst|].
  apply elem_of_cons in Hf as [->|Hf]; [done|]. by apply IH.
Qed.

(** What a model may receive of an identity document.  When [projectIdentity] returns, the
    faculty's ceiling contains all nine paths of the analyst's profile; the projection names the
    document's own id and version and the digest of the whole stored document; each of the six
    Class A fields and the three Class C fields is the stored value itself, byte for byte (a value
    the schema would trim is refused); and the projection has no other section or field, so
    nothing of Class D and not the presentation of Class C. *)
Theorem projection_carries_stored_bytes raw profile ceiling p : projectIdentity raw profile ceiling = Ok p →
  (∀ f, f ∈ CLASS_A_FIELDS → "classA." +:+ f ∈ ceiling) ∧ (∀ f, f ∈ CLASS_C_FIELDS → "classC." +:+ f ∈ ceiling) ∧
  member raw "id" = Some (JStr (pj_id p)) ∧ member raw "version" = Some (JNum (pj_version p)) ∧
  identityCoreDigestV1 raw = Ok (pj_coreDigest p) ∧
  ∃ sections a c, member raw "sections" = Some sections ∧ member sections "classA" = Some a ∧ member sections "classC" = Some c ∧
    projection_json p = projection_of (JStr profile) (JStr (pj_id p)) (JNum (pj_version p)) (pj_coreDigest p)
      (classA_json (pj_classA p)) (framing_json (pj_classC p)) ∧
    (∀ f, f ∈ CLASS_A_FIELDS → member (classA_json (pj_classA p)) f = member a f ∧ is_Some (member a f)) ∧
    (∀ f, f ∈ CLASS_C_FIELDS → member (framing_json (pj_classC p)) f = member c f ∧ is_Some (member c f)).
Proof.
  intros (-> & Hceil & Hd & a & c & va & vc & [Hid Hv _ Ha Hc [Va _] [Vc _]] & EA & EC)%projectIdentity_ok.
  assert (Hsome : ∀ v ks ws (f : string), map (member v) ks = map Some ws → f ∈ ks → is_Some (member v f)).
  { clear. intros v ks. induction ks as [|k ks IH]; intros [|w ws] f; try done; [by intros _ ?%elem_of_nil|].
    cbn [map]. intros [= E H] [->|Hf]%elem_of_cons; [by exists w|eauto]. }
  split; [intros f Hf; apply Hceil, elem_of_app; left; apply list_elem_of_In, in_map, list_elem_of_In, Hf|].
  split; [intros f Hf; apply Hceil, elem_of_app; right; apply list_elem_of_In, in_map, list_elem_of_In, Hf|].
  do 3 (split; [done|]).
  destruct (member raw "sections") as [s|]; [|done]. cbn in Ha, Hc. exists s, a, c. do 4 (split; [done|]).
  rewrite <- EA, <- EC. split; intros f Hf; (split; [by apply zip_member|eauto]).
Qed.
