(* ===== verification/Cognition.v ===== *)
(** * Identity cognition: the latch, the pin, the call's authorisation, the completion check
    (packages/contracts/src/identity-cognition.ts; services/kernel/src/identity: cognition-binding.ts,
    evidence-verify.ts; services/kernel/src/mission/cognition-digests.ts)

    Whether the analyst of a mission runs with the primary identity is decided once per step:
    [latch] writes the decision, with a pin of the exact identity version when it is REQUIRED,
    and [authorize_cognition] holds every call against what was written.  [IdentityTables] are
    the tables of supabase/migrations/20260929120000_identity_cognition_binding.sql with their
    guard triggers; a transaction is one step of the model, as the advisory lock makes it.  The
    text CHECK constraints of the pin repeat what [IdentityCognitionPin_parse] has checked, and
    of the foreign keys the ones of the latch are checked. *)

From S2P Require Import Prelude JsNumber JsDate Digest Contracts Plan Capability Json Mission Regex MemPolicy.
From S2P Require Import MemContext Model Faculty Identity Ledger.
Local Open Scope Z_scope.
Local Open Scope js_scope.

(** ** identity-cognition.ts *)

Definition canonicalDigest (v : json) : string := Sha256.sha256_hex (canonical v).

Record CognitionPin := {
  cp_tenantId : string; cp_taskId : string; cp_stepId : string; cp_identityId : string; cp_identityVersionId : string;
  cp_identityVersion : Z; cp_identityCoreDigest : string; cp_classADigest : string; cp_projection : IdentityProjection;
  cp_projectionBytes : Z; cp_projectionDigest : string; cp_facultyVersion : Z; cp_facultyDigest : string
}.

Definition IdentityCognitionPin_parse (v : json) : result CognitionPin :=
  fs ← z_strict ["tenantId"; "taskId"; "stepId"; "identityId"; "identityVersionId"; "identityVersion"; "identityCoreDigest";
    "classADigest"; "digestContract"; "projectionSchema"; "projectionProfile"; "projection"; "projectionBytes";
    "projectionDigest"; "facultyId"; "facultyVersion"; "facultyDigest"; "mode"] v;
  tenant ← z_field fs "tenantId" (z_string Id_ok);
  task ← z_field fs "taskId" (z_string Id_ok);
  step ← z_field fs "stepId" (z_string Id_ok);
  identity ← z_field fs "identityId" (z_string Id_ok);
  versionId ← z_field fs "identityVersionId" (z_string Id_ok);
  version ← z_field fs "identityVersion" (z_int 1 max_safe);
  core ← z_field fs "identityCoreDigest" (z_string Sha256_ok);
  classA ← z_field fs "classADigest" (z_string Sha256_ok);
  z_field fs "digestContract" (z_literal IDENTITY_CORE_CONTRACT_V1);;
  z_field fs "projectionSchema" (z_literal IDENTITY_PROJECTION_SCHEMA_V1);;
  z_field fs "projectionProfile" (z_literal ANALYST_INTELLIGENCE_V1);;
  projection ← z_field fs "projection" IdentityProjection_parse;
  bytes ← z_field fs "projectionBytes" (z_int 1 IDENTITY_PROJECTION_MAX_BYTES);
  digest ← z_field fs "projectionDigest" (z_string Sha256_ok);
  z_field fs "facultyId" (z_literal "intelligence");;
  faculty ← z_field fs "facultyVersion" (z_int 1 max_safe);
  facultyDigest ← z_field fs "facultyDigest" (z_string Sha256_ok);
  z_field fs "mode" (z_literal "REQUIRED");;
  Ok {| cp_tenantId := tenant; cp_taskId := task; cp_stepId := step; cp_identityId := identity;
        cp_identityVersionId := versionId; cp_identityVersion := version; cp_identityCoreDigest := core;
        cp_classADigest := classA; cp_projection := projection; cp_projectionBytes := bytes; cp_projectionDigest := digest;
        cp_facultyVersion := faculty; cp_facultyDigest := facultyDigest |}.

Definition cognition_pin_json (p : CognitionPin) : json :=
  JObj [("tenantId", JStr (cp_tenantId p)); ("taskId", JStr (cp_taskId p)); ("stepId", JStr (cp_stepId p));
        ("identityId", JStr (cp_identityId p)); ("identityVersionId", JStr (cp_identityVersionId p));
        ("identityVersion", JNum (cp_identityVersion p)); ("identityCoreDigest", JStr (cp_identityCoreDigest p));
        ("classADigest", JStr (cp_classADigest p)); ("digestContract", JStr IDENTITY_CORE_CONTRACT_V1);
        ("projectionSchema", JStr IDENTITY_PROJECTION_SCHEMA_V1); ("projectionProfile", JStr ANALYST_INTELLIGENCE_V1);
        ("projection", projection_json (cp_projection p)); ("projectionBytes", JNum (cp_projectionBytes p));
        ("projectionDigest", JStr (cp_projectionDigest p)); ("facultyId", JStr "intelligence");
        ("facultyVersion", JNum (cp_facultyVersion p)); ("facultyDigest", JStr (cp_facultyDigest p)); ("mode", JStr "REQUIRED")].

Definition MODES : list string := ["NONE"; "REQUIRED"].

(** A latch, and a row of the table of latches. *)
Record Latch := { la_tenantId : string; la_taskId : string; la_stepId : string; la_mode : string; la_releaseEpoch : Z }.

#[export] Instance Latch_eq_dec : EqDecision Latch.
Proof. solve_decision. Defined.

Definition Latch_ok (l : Latch) : bool :=
  Id_ok (la_tenantId l) && Id_ok (la_taskId l) && Id_ok (la_stepId l) && bool_decide (la_mode l ∈ MODES) &&
  (1 <=? la_releaseEpoch l) && (la_releaseEpoch l <=? max_safe).

Definition latch_json (l : Latch) : json :=
  JObj [("tenantId", JStr (la_tenantId l)); ("taskId", JStr (la_taskId l)); ("stepId", JStr (la_stepId l));
        ("mode", JStr (la_mode l)); ("releaseEpoch", JNum (la_releaseEpoch l))].

Inductive CognitionState :=
  | S_LEGACY (taskId stepId : string) (releaseEpoch : option Z)
  | S_CONTRACT (contractStartEpoch : Z) (latch : Latch) (pin : option CognitionPin).

Definition CognitionState_parse (s : CognitionState) : result CognitionState :=
  match s with
  | S_LEGACY task step epoch =>
      ok_or (Id_ok task && Id_ok step && opt_ok (λ n, (0 <=? n) && (n <=? max_safe)) epoch) "LEGACY";; Ok s
  | S_CONTRACT start latch pin =>
      ok_or ((1 <=? start) && (start <=? max_safe) && Latch_ok latch) "CONTRACT";;
      match pin with
      | None => Ok s
      | Some p => p' ← IdentityCognitionPin_parse (cognition_pin_json p); Ok (S_CONTRACT start latch (Some p'))
      end
  end.

Definition state_json (s : CognitionState) : json :=
  match s with
  | S_LEGACY task step epoch =>
      JObj [("kind", JStr "LEGACY"); ("taskId", JStr task); ("stepId", JStr step); ("releaseEpoch", opt_json JNum epoch)]
  | S_CONTRACT start latch pin =>
      JObj [("kind", JStr "CONTRACT"); ("contractStartEpoch", JNum start); ("latch", latch_json latch);
            ("pin", opt_json cognition_pin_json pin)]
  end.

Definition IdentityRuntimeProvenance_parse (v : json) : result json :=
  fs ← z_strict ["identity_id"; "identity_version_id"; "identity_version"; "identity_core_digest"; "class_a_digest";
    "projection_profile"; "projection_digest"] v;
  z_field fs "identity_id" (z_string Id_ok);;
  z_field fs "identity_version_id" (z_string Id_ok);;
  z_field fs "identity_version" (z_int 1 max_safe);;
  z_field fs "identity_core_digest" (z_string Sha256_ok);;
  z_field fs "class_a_digest" (z_string Sha256_ok);;
  z_field fs "projection_profile" (z_literal ANALYST_INTELLIGENCE_V1);;
  z_field fs "projection_digest" (z_string Sha256_ok);;
  Ok v.

Record ModelCallBinding := {
  mb_task_id : string; mb_step_id : string; mb_call_id : string; mb_provider : string; mb_model : string; mb_status : string;
  mb_request_digest : string; mb_assembly_digest : string; mb_continuity_digest : string; mb_mode : string
}.

Definition MODEL_CALL_BINDING_V1 : string := "kerneljson:model-call-binding/v1".
Definition z_word (words : list string) : json → result string := z_string (λ s, bool_decide (s ∈ words)).

Definition ModelCallBinding_parse (v : json) : result ModelCallBinding :=
  fs ← z_strict ["contract"; "task_id"; "step_id"; "call_id"; "provider"; "model"; "status"; "request_digest";
    "assembly_digest"; "continuity_digest"; "identity_cognition_mode"] v;
  z_field fs "contract" (z_literal MODEL_CALL_BINDING_V1);;
  task ← z_field fs "task_id" (z_string Id_ok);
  step ← z_field fs "step_id" (z_string Id_ok);
  call ← z_field fs "call_id" (z_string Id_ok);
  provider ← z_field fs "provider" (z_string Label_ok);
  model ← z_field fs "model" (z_string Label_ok);
  status ← z_field fs "status" (z_word ["SUCCEEDED"; "FAILED"]);
  request ← z_field fs "request_digest" (z_string Sha256_ok);
  assembly ← z_field fs "assembly_digest" (z_string Sha256_ok);
  continuity ← z_field fs "continuity_digest" (z_string Sha256_ok);
  mode ← z_field fs "identity_cognition_mode" (z_word MODES);
  Ok {| mb_task_id := task; mb_step_id := step; mb_call_id := call; mb_provider := provider; mb_model := model;
        mb_status := status; mb_request_digest := request; mb_assembly_digest := assembly;
        mb_continuity_digest := continuity; mb_mode := mode |}.

Definition call_binding_json (b : ModelCallBinding) : json :=
  JObj [("contract", JStr MODEL_CALL_BINDING_V1); ("task_id", JStr (mb_task_id b)); ("step_id", JStr (mb_step_id b));
        ("call_id", JStr (mb_call_id b)); ("provider", JStr (mb_provider b)); ("model", JStr (mb_model b));
        ("status", JStr (mb_status b)); ("request_digest", JStr (mb_request_digest b));
        ("assembly_digest", JStr (mb_assembly_digest b)); ("continuity_digest", JStr (mb_continuity_digest b));
        ("identity_cognition_mode", JStr (mb_mode b))].

(** ** cognition-digests.ts *)

Definition assemblyDigestOf (request : ModelRequest) : string :=
  canonicalDigest (JObj [("messages", JArr (map message_json (mq_messages request)));
                         ("maxOutputTokens", JNum (mq_maxOutputTokens request))]).

Record ContinuityInput := {
  cn_recipe : string; cn_question : string; cn_contractDigest : string; cn_repo : string; cn_factsDigest : string;
  cn_faculty : option (string * Z * string); cn_identity : option (string * string);
  cn_memory : option string; cn_assemblyDigest : string
}.

Definition continuityDigestOf (i : ContinuityInput) : string :=
  canonicalDigest (JObj [
    ("contract", JStr "kerneljson:analyst-continuity/v1");
    ("mission", JObj [("recipe", JStr (cn_recipe i)); ("question", JStr (cn_question i));
                      ("contractDigest", JStr (cn_contractDigest i)); ("repo", JStr (cn_repo i));
                      ("factsDigest", JStr (cn_factsDigest i))]);
    ("faculty", opt_json (λ f, JObj [("id", JStr f.1.1); ("version", JNum f.1.2); ("digest", JStr f.2)]) (cn_faculty i));
    ("identity", opt_json (λ f, JObj [("mode", JStr "REQUIRED"); ("identityCoreDigest", JStr f.1);
                                      ("projectionProfile", JStr ANALYST_INTELLIGENCE_V1); ("projectionDigest", JStr f.2)])
                   (cn_identity i));
    ("memory", opt_json (λ d, JObj [("assemblyDigest", JStr d)]) (cn_memory i));
    ("assemblyDigest", JStr (cn_assemblyDigest i))]).

(** ** evidence-verify.ts *)

Definition ANALYST_SOURCE : string := "kerneljson:runtime/analyst".
Definition REVIEWER_SOURCE : string := "kerneljson:runtime/reviewer".
Definition COGNITION_KEYS : list string := ["identity"; "identity_cognition_mode"; "assembly_digest"; "continuity_digest"].

Record IdentityCompletionFacts := {
  if_contractStartEpoch : option Z; if_bindingEpoch : option Z; if_analystStepId : string; if_latches : list Latch;
  if_pins : list json; if_modelCalls : list json; if_evidence : list Evidence
}.

Definition isLegacyTask (contractStartEpoch bindingEpoch : option Z) : bool :=
  match contractStartEpoch, bindingEpoch with Some start, Some epoch => epoch <? start | _, _ => true end.

Definition provenance_record (p : CognitionPin) : json :=
  JObj [("identity_id", JStr (cp_identityId p)); ("identity_version_id", JStr (cp_identityVersionId p));
        ("identity_version", JNum (cp_identityVersion p)); ("identity_core_digest", JStr (cp_identityCoreDigest p));
        ("class_a_digest", JStr (cp_classADigest p)); ("projection_profile", JStr ANALYST_INTELLIGENCE_V1);
        ("projection_digest", JStr (cp_projectionDigest p))].
Definition provenanceOf (p : CognitionPin) : result json := IdentityRuntimeProvenance_parse (provenance_record p).

Definition fail_identity (reason : string) : exn := js_error ("Identity completion verification failed: " +:+ reason).
Definition demand (c : bool) (reason : string) : result unit := ensure c (fail_identity reason).

(** [ModelCallBinding.parse(payload?.binding)] of each event. *)
Definition call_bindings (payloads : list json) : result (list ModelCallBinding) :=
  map_all (λ b, match member b "binding" with Some v => ModelCallBinding_parse v | None => Throw (zod_error "invalid_type") end)
    payloads.

(** The analyst's record repeats the binding of its call. *)
Definition bound_fields (b : ModelCallBinding) : list (string * string) :=
  [("request_digest", mb_request_digest b); ("assembly_digest", mb_assembly_digest b);
   ("continuity_digest", mb_continuity_digest b); ("provider", mb_provider b); ("model", mb_model b)].
Fixpoint same_call (a : list (string * json)) (fs : list (string * string)) : result unit :=
  match fs with
  | [] => Ok tt
  | (field, value) :: rest =>
      demand (json_is (map_get a field) value) ("analyst evidence " +:+ field +:+ " differs from the MODEL_CALLED binding");;
      same_call a rest
  end.

(** The reviewer never carries identity. *)
Fixpoint check_reviewers (rs : list Evidence) : result unit :=
  match rs with
  | [] => Ok tt
  | r :: rest =>
      demand (negb (map_has (ev_metadata r) "identity")) "reviewer evidence carries identity";;
      demand (json_is (map_get (ev_metadata r) "identity_cognition_mode") "NONE")
        "reviewer evidence must record identity_cognition_mode NONE";;
      check_reviewers rest
  end.

Definition found {A} (l : list A) : string := ", found " +:+ pretty (Z.of_nat (length l)).

Definition check_identity_pin (latch : Latch) (pins : list json) (a : list (string * json)) : result unit :=
  match pins with
  | [raw] =>
      pin ← IdentityCognitionPin_parse raw;
      demand (canonicalDigest (cognition_pin_json pin) === canonicalDigest raw) "identity pin is not in canonical form";;
      demand ((cp_taskId pin === la_taskId latch) && (cp_stepId pin === la_stepId latch) && (cp_tenantId pin === la_tenantId latch))
        "identity pin names another step or tenant";;
      digest ← projectionDigest (cp_projection pin);
      bytes ← projectionBytes (cp_projection pin);
      demand ((digest === cp_projectionDigest pin) && (bytes =? cp_projectionBytes pin))
        "identity pin projection digest or size does not verify";;
      expected ← provenanceOf pin;
      demand (canonicalDigest (default JNull (map_get a "identity")) === canonicalDigest expected)
        "analyst identity evidence differs from the canonical pin"
  | pins => Throw (fail_identity ("a REQUIRED latch needs exactly one identity pin" +:+ found pins))
  end.

Definition verify_contract_task (facts : IdentityCompletionFacts) (runtime : list Evidence) (bindings : list ModelCallBinding)
  : result unit :=
  match if_latches facts with
  | [latch] =>
      demand (la_stepId latch === if_analystStepId facts) "the latch is not on the analyst step";;
      demand (Some (la_releaseEpoch latch) === if_bindingEpoch facts) "latch release epoch differs from the execution binding";;
      demand (bool_decide (la_mode latch ∈ MODES)) "unknown latch mode";;
      match List.filter (λ e, ev_source e === ANALYST_SOURCE) runtime with
      | [analyst] =>
          demand (ev_stepId analyst === Some (if_analystStepId facts))
            "expected exactly one analyst runtime record on the analyst step";;
          let a := ev_metadata analyst in
          demand (json_is (map_get a "identity_cognition_mode") (la_mode latch)) "analyst evidence mode differs from the latch";;
          demand (negb (existsb (λ b, mb_step_id b !== if_analystStepId facts) bindings))
            "a model-call binding is not on the analyst step";;
          match List.filter (λ b, json_is (map_get a "call_id") (mb_call_id b)) bindings with
          | [bound] =>
              demand ((mb_task_id bound === ev_taskId analyst) && (mb_step_id bound === if_analystStepId facts))
                "model-call binding names another task or step";;
              demand (mb_status bound === "SUCCEEDED") "the analyst call binding did not succeed";;
              same_call a (bound_fields bound);;
              demand (mb_mode bound === la_mode latch) "model-call binding mode differs from the latch";;
              (if la_mode latch === "NONE" then
                 demand (length (if_pins facts) === 0%nat) "a NONE latch has an identity pin";;
                 demand (match map_get a "identity" with Some JNull => true | _ => false end)
                   "NONE analyst evidence must carry identity: null"
               else check_identity_pin latch (if_pins facts) a);;
              check_reviewers (List.filter (λ e, ev_source e === REVIEWER_SOURCE) runtime)
          | matching => Throw (fail_identity ("expected exactly one MODEL_CALLED binding for the analyst call" +:+ found matching))
          end
      | _ => Throw (fail_identity "expected exactly one analyst runtime record on the analyst step")
      end
  | latches => Throw (fail_identity ("expected exactly one cognition latch" +:+ found latches))
  end.

Definition verifyIdentityEvidence (url_ok : string → bool) (facts : IdentityCompletionFacts) : result unit :=
  records ← parse_all (Evidence_parse url_ok) (if_evidence facts);
  let runtime := List.filter (λ e, (ev_source e === ANALYST_SOURCE) || (ev_source e === REVIEWER_SOURCE)) records in
  bindings ← call_bindings (if_modelCalls facts);
  if isLegacyTask (if_contractStartEpoch facts) (if_bindingEpoch facts) then
    demand ((if_latches facts === []) && (length (if_pins facts) === 0%nat) && (length bindings === 0%nat))
      "legacy task carries cognition state";;
    demand (negb (existsb (λ e, existsb (map_has (ev_metadata e)) COGNITION_KEYS) runtime))
      "legacy task carries cognition evidence"
  else verify_contract_task facts runtime bindings.

(** ** cognition-binding.ts *)

(** [KJ_IDENTITY_COGNITION_ENABLED] as it is read. *)
Definition parseIdentityCognitionEnabled (raw : option string) : result bool :=
  match raw with
  | None => Ok false
  | Some s =>
      if (s === EmptyString) || (s === "false") then Ok false
      else if s === "true" then Ok true
      else Throw (js_error ("KJ_IDENTITY_COGNITION_ENABLED must be exactly " +:+ json_quote "true" +:+ " or " +:+ json_quote "false" +:+
                            " when set (got " +:+ json_quote s +:+ ") - refusing to guess"))
  end.

Record IdentityPinRow := { ir_tenantId : string; ir_taskId : string; ir_stepId : string; ir_identityId : string;
  ir_identityVersion : Z; ir_pin : json }.
Record IdentityVersionRow := { iv_id : string; iv_identityId : string; iv_tenantId : string; iv_version : Z;
  iv_document : jsonb; iv_identityCoreDigest : string; iv_classADigest : string }.

(** Where the identity tables live among the ledger's: the singleton contract marker, the column release_epoch of the
    execution bindings (a trigger fills it), the versions, the activations in their order, the latches and the pins. *)
Class IdentityTables (X : Type) := {
  it_marker : X → option Z;
  it_epoch : X → string → Z;
  it_versions : X → list IdentityVersionRow;
  it_activations : X → list (string * Z);
  it_latches : X → list Latch;
  it_pins : X → list IdentityPinRow;
  it_add_latch : Latch → X → X;
  it_add_pin : IdentityPinRow → X → X;
  it_latches_latch l x : it_latches (it_add_latch l x) = it_latches x ++ [l];
  it_pins_pin r x : it_pins (it_add_pin r x) = it_pins x ++ [r];
  it_latches_pin r x : it_latches (it_add_pin r x) = it_latches x;
  it_pins_latch l x : it_pins (it_add_latch l x) = it_pins x;
  it_marker_latch l x : it_marker (it_add_latch l x) = it_marker x;
  it_marker_pin r x : it_marker (it_add_pin r x) = it_marker x;
  it_epoch_latch l x : it_epoch (it_add_latch l x) = it_epoch x;
  it_epoch_pin r x : it_epoch (it_add_pin r x) = it_epoch x
}.

(** The view identity_current: the version of the last activation of each identity. *)
Definition identity_current (versions : list IdentityVersionRow) (activations : list (string * Z)) (tenantId : string)
  : list IdentityVersionRow :=
  List.filter (λ v, (iv_tenantId v === tenantId) &&
    match List.find (λ a, a.1 === iv_identityId v) (rev activations) with Some a => a.2 =? iv_version v | None => false end) versions.

(** A row of identity_cognition_source_v1; an SQL digest is null when its document part is missing. *)
Record SourceRow := { sr_row : IdentityVersionRow; sr_core_v1 : string; sr_classA_v1 : option string }.

Definition sql_digest_of (o : option jsonb) : result (option string) :=
  match o with Some v => d ← identity_core_digest_v1 v; Ok (Some d) | None => Ok None end.
Definition classA_of (document : json) : option json := member document "sections" ≫= λ s, member s "classA".
Definition sql_classA_of (document : jsonb) : option jsonb := jsonb_member document "sections" ≫= λ s, jsonb_member s "classA".

Inductive CanonicalRead :=
  | R_LEGACY (state : CognitionState) (latched : bool)
  | R_CONTRACT (contractStartEpoch : Z) (latch : option Latch) (pin : option CognitionPin).

(** [asRefusal]: a deterministic database error becomes a refusal with the code its message starts with. *)
Definition refusal_char (c : ascii) : bool :=
  let n := N_of_ascii c in (((65 <=? n) && (n <=? 90)) || ((48 <=? n) && (n <=? 57)) || (n =? 95))%N.
Fixpoint code_prefix (k : nat) (s : string) : string :=
  match k, s with S k, String c s' => if refusal_char c then String c (code_prefix k s') else EmptyString | _, _ => EmptyString end.
Definition refusal_code (message : string) : option string :=
  match message with
  | String c s =>
      let rest := code_prefix 60 s in
      if ((65 <=? N_of_ascii c) && (N_of_ascii c <=? 90))%N && (3 <=? String.length rest)%nat then Some (String c rest) else None
  | EmptyString => None
  end.
Definition asRefusal (e : exn) : exn :=
  if exn_class e === "IdentityCognitionRefusal" then e
  else if String.prefix "DatabaseError 22" (exn_class e) || String.prefix "DatabaseError 23" (exn_class e) then
    identity_refusal (default "IDENTITY_LATCH_REFUSED" (refusal_code (exn_message e)))
  else e.
Definition as_refusal {S A} (m : prog S A) : prog S A := λ s, match m s with (s', Throw e) => (s', Throw (asRefusal e)) | r => r end.

Record LatchInput := { li_tenantId : string; li_taskId : string; li_stepId : string; li_facultyPin : option FacultyPin }.

Section binding.
Context {X : Type} `{FacultyTables X} `{IdentityTables X}.
Implicit Types (d : LedgerDb X).

Definition at_step (task step : string) (t s : string) : bool := (t === task) && (s === step).

Definition latches_at d task step : list Latch := List.filter (λ l, at_step task step (la_taskId l) (la_stepId l)) (it_latches (l_pins d)).
Definition pins_at d task step : list IdentityPinRow := List.filter (λ r, at_step task step (ir_taskId r) (ir_stepId r)) (it_pins (l_pins d)).
Definition binding_epoch d taskId : option Z :=
  match l_bindings d !! taskId with Some _ => Some (it_epoch (l_pins d) taskId) | None => None end.

Definition read_cognition d (tenantId taskId stepId : string) : result CanonicalRead :=
  match l_bindings d !! taskId with
  | Some b => refuse_identity (eb_tenantId b === tenantId) "IDENTITY_TENANT_REFUSED"
  | None => Ok tt
  end;;
  let marker := it_marker (l_pins d) in
  let latchRow := head (latches_at d taskId stepId) in
  let pinRow := head (pins_at d taskId stepId) in
  let epoch := binding_epoch d taskId in
  match marker, isLegacyTask marker epoch with
  | Some start, false =>
      pin ← (match pinRow with
        | Some row =>
            p ← IdentityCognitionPin_parse (ir_pin row);
            refuse_identity ((canonicalDigest (cognition_pin_json p) === canonicalDigest (ir_pin row)) &&
                             (ir_tenantId row === tenantId)) "IDENTITY_PIN_CORRUPT";;
            Ok (Some p)
        | None => Ok None
        end);
      Ok (R_CONTRACT start latchRow pin)
  | _, _ =>
      state ← CognitionState_parse (S_LEGACY taskId stepId epoch);
      Ok (R_LEGACY state (bool_decide (is_Some latchRow) || bool_decide (is_Some pinRow)))
  end.

(** [contractState] of a read with a latch. *)
Definition contractState (start : Z) (latch : Latch) (pin : option CognitionPin) : result CognitionState :=
  CognitionState_parse (S_CONTRACT start latch pin).

Definition source d (tenantId identityId : string) (version : Z) : result (option SourceRow) :=
  match List.find (λ v, (iv_tenantId v === tenantId) && (iv_identityId v === identityId) && (iv_version v =? version))
          (it_versions (l_pins d)) with
  | Some v =>
      core ← identity_core_digest_v1 (iv_document v);
      classA ← sql_digest_of (sql_classA_of (iv_document v));
      Ok (Some {| sr_row := v; sr_core_v1 := core; sr_classA_v1 := classA |})
  | None => Ok None
  end.

Definition assertParity (src : SourceRow) (expected : option (string * string)) : result unit :=
  core ← identityCoreDigestV1 (js_of (iv_document (sr_row src)));
  classA ← digest_at (classA_of (js_of (iv_document (sr_row src))));
  let agree := (iv_identityCoreDigest (sr_row src) === sr_core_v1 src) && (sr_core_v1 src === core) &&
               (Some (iv_classADigest (sr_row src)) === sr_classA_v1 src) && (sr_classA_v1 src === Some classA) in
  refuse_identity (agree && match expected with Some e => (e.1 === core) && (e.2 === classA) | None => true end)
    "IDENTITY_DIGEST_MISMATCH".

Definition buildPin d (input : LatchInput) (facultyPin : FacultyPin) : result CognitionPin :=
  match identity_current (it_versions (l_pins d)) (it_activations (l_pins d)) (li_tenantId input) with
  | [current] =>
      found ← source d (li_tenantId input) (iv_identityId current) (iv_version current);
      match found with
      | None => Throw (identity_refusal "IDENTITY_VERSION_UNAVAILABLE")
      | Some src =>
          assertParity src None;;
          match profileForOperation (fp_operation facultyPin) with
          | None => Throw (identity_refusal "IDENTITY_PROFILE_MISSING")
          | Some profile =>
              projection ← projectIdentity (js_of (iv_document (sr_row src))) profile
                (identityFramingCeiling (enum_name FACULTY_IDS (fv_id (fp_faculty facultyPin))) (fp_policyVersion facultyPin));
              bytes ← assertProjectionWithinCap projection;
              digest ← projectionDigest projection;
              classA ← (match sr_classA_v1 src with Some c => Ok c | None => Throw (zod_error "classADigest") end);
              IdentityCognitionPin_parse (cognition_pin_json
                {| cp_tenantId := li_tenantId input; cp_taskId := li_taskId input; cp_stepId := li_stepId input;
                   cp_identityId := iv_identityId current; cp_identityVersionId := iv_id (sr_row src);
                   cp_identityVersion := iv_version (sr_row src); cp_identityCoreDigest := sr_core_v1 src;
                   cp_classADigest := classA; cp_projection := projection; cp_projectionBytes := bytes;
                   cp_projectionDigest := digest; cp_facultyVersion := fv_version (fp_faculty facultyPin);
                   cp_facultyDigest := fp_facultyDigest facultyPin |})
          end
      end
  | _ => Throw (identity_refusal "IDENTITY_NOT_ACTIVATED")
  end.

Definition set_identity (f : X → X) d : LedgerDb X :=
  LDb (l_principals d) (l_roles d) (l_tasks d) (l_steps d) (l_evidence d) (l_events d) (l_outcomes d) (l_terminal d)
    (l_bindings d) (l_effects d) (f (l_pins d)).

Definition check_23514 (c : bool) (message : string) : prog (LedgerDb X) unit := lift_result (ensure c (db_error "23514" message)).

(** The trigger identity_pin_guard_v1 and the primary key of identity_pins (what its foreign keys name follows from the rows it reads). *)
Definition insert_identity_pin (input : LatchInput) (p : CognitionPin) : prog (LedgerDb X) unit :=
  d ← get_st;
  match List.find (λ v, (iv_identityId v === cp_identityId p) && (iv_version v =? cp_identityVersion p) &&
                        (iv_tenantId v === li_tenantId input)) (it_versions (l_pins d)) with
  | None => check_23514 false "IDENTITY_PIN_VERSION_MISMATCH"
  | Some v =>
      check_23514 (iv_id v === cp_identityVersionId p) "IDENTITY_PIN_VERSION_MISMATCH";;
      core ← lift_result (identity_core_digest_v1 (iv_document v));
      classA ← lift_result (sql_digest_of (sql_classA_of (iv_document v)));
      check_23514 ((iv_identityCoreDigest v === cp_identityCoreDigest p) && (iv_classADigest v === cp_classADigest p) &&
                   (core === cp_identityCoreDigest p) && (classA === Some (cp_classADigest p))) "IDENTITY_DIGEST_MISMATCH";;
      text ← lift_result (identity_core_canonical_v1 (jsonb_of (projection_json (cp_projection p))));
      check_23514 ((Sha256.sha256_hex text === cp_projectionDigest p) && (Z.of_nat (String.length text) =? cp_projectionBytes p))
        "IDENTITY_PROJECTION_DIGEST_MISMATCH";;
      check_23514 (match List.find (λ f, at_step (li_taskId input) (li_stepId input) (pn_taskId f) (pn_stepId f) &&
                                         (pn_tenantId f === li_tenantId input)) (ft_pins (l_pins d)) with
                   | Some f => (pn_facultyId f === F_intelligence) && (pn_facultyVersion f =? cp_facultyVersion p) &&
                               json_is (member (pn_pin f) "facultyDigest") (cp_facultyDigest p)
                   | None => false
                   end) "IDENTITY_PIN_FACULTY_MISMATCH";;
      lift_result (ensure (bool_decide (pins_at d (li_taskId input) (li_stepId input) = [])) (db_error "23505" "duplicate key"));;
      put_st (set_identity (it_add_pin {| ir_tenantId := li_tenantId input; ir_taskId := li_taskId input; ir_stepId := li_stepId input;
        ir_identityId := cp_identityId p; ir_identityVersion := cp_identityVersion p; ir_pin := cognition_pin_json p |}) d)
  end.

(** The trigger identity_cognition_latch_guard, the primary key of the latches and their foreign keys. *)
Definition insert_latch (l : Latch) : prog (LedgerDb X) unit :=
  d ← get_st;
  check_23514 (match it_marker (l_pins d) with Some first => first <=? la_releaseEpoch l | None => false end) "IDENTITY_LATCH_PRE_CONTRACT";;
  check_23514 (existsb (λ f, at_step (la_taskId l) (la_stepId l) (pn_taskId f) (pn_stepId f) && (pn_facultyId f === F_intelligence))
                 (ft_pins (l_pins d))) "IDENTITY_LATCH_NOT_ANALYST";;
  lift_result (ensure (bool_decide (latches_at d (la_taskId l) (la_stepId l) = [])) (db_error "23505" "duplicate key"));;
  lift_result (ensure (match l_tasks d !! la_taskId l, l_steps d !! la_stepId l, l_bindings d !! la_taskId l with
                       | Some t, Some s, Some b => (task_tenant t === la_tenantId l) && (step_taskId s === la_taskId l) &&
                           (eb_tenantId b === la_tenantId l) && (binding_epoch d (la_taskId l) === Some (la_releaseEpoch l))
                       | _, _, _ => false
                       end) (db_error "23503" "foreign key"));;
  put_st (set_identity (it_add_latch l) d).

(** The constraint triggers of the latches and the pins, at the commit. *)
Definition consistent d (task step : string) : bool :=
  match latches_at d task step with
  | [l] =>
      let pins := pins_at d task step in
      (if la_mode l === "REQUIRED" then bool_decide (length pins = 1%nat) else true) &&
      (if la_mode l === "NONE" then bool_decide (length pins = 0%nat) else true) &&
      forallb (λ r, ir_tenantId r === la_tenantId l) pins
  | _ => false
  end.
Definition commit_check (task step : string) : prog (LedgerDb X) unit :=
  d ← get_st; check_23514 (consistent d task step) "IDENTITY_LATCH_PIN_INVARIANT".

Definition faculty_pin_fits (input : LatchInput) (p : FacultyPin) : bool :=
  (fp_tenantId p === li_tenantId input) && (fp_taskId p === li_taskId input) && (fp_stepId p === li_stepId input) &&
  (fp_operation p === OP_RUNTIME_ANALYSE) && (fv_id (fp_faculty p) === F_intelligence).

(** The rows of a new latch, after the one read of the environment. *)
Definition write_latch (input : LatchInput) (fp : FacultyPin) (enabled : bool) : prog (LedgerDb X) unit :=
  d ← get_st;
  (if enabled then p ← lift_result (buildPin d input fp); insert_identity_pin input p else mret tt);;
  insert_latch {| la_tenantId := li_tenantId input; la_taskId := li_taskId input; la_stepId := li_stepId input;
                  la_mode := if enabled then "REQUIRED" else "NONE";
                  la_releaseEpoch := default 0 (binding_epoch d (li_taskId input)) |}.

(** The transaction of [latch]: the state when there is nothing to write. *)
Definition latch_tx (readEnabled : result bool) (input : LatchInput) : prog (LedgerDb X) (option CognitionState) := as_refusal (transact (
  d ← get_st;
  found ← lift_result (read_cognition d (li_tenantId input) (li_taskId input) (li_stepId input));
  match found with
  | R_LEGACY state latched =>
      lift_result (refuse_identity (negb latched) "IDENTITY_LEGACY_TASK_LATCHED");;
      mret (Some state)
  | R_CONTRACT start (Some l) pin =>
      state ← lift_result (contractState start l pin);
      mret (Some state)
  | R_CONTRACT _ None _ =>
      match li_facultyPin input with
      | None => throw_st (identity_refusal "IDENTITY_FACULTY_PIN_REQUIRED")
      | Some fp =>
          lift_result (refuse_identity (faculty_pin_fits input fp) "IDENTITY_FACULTY_PIN_REFUSED");;
          enabled ← lift_result readEnabled;
          write_latch input fp enabled;;
          commit_check (li_taskId input) (li_stepId input);;
          mret None
      end
  end)).

(** [latch]: after a write, the state is what a new read of the committed rows finds. *)
Definition latch (readEnabled : result bool) (input : LatchInput) : prog (LedgerDb X) CognitionState :=
  early ← latch_tx readEnabled input;
  match early with
  | Some state => mret state
  | None =>
      d ← get_st;
      persisted ← lift_result (read_cognition d (li_tenantId input) (li_taskId input) (li_stepId input));
      match persisted with
      | R_CONTRACT start (Some l) pin => lift_result (contractState start l pin)
      | _ => throw_st (identity_refusal "IDENTITY_LATCH_NOT_PERSISTED")
      end
  end.

(** The identity block the request must carry, from the pin that the state holds. *)
Definition authorize_block (pin : CognitionPin) (facultyPin : option FacultyPin) (system : string) d : result unit :=
  refuse_identity (countIdentityBlocks system =? 1) "IDENTITY_BLOCK_MISMATCH";;
  block ← renderIdentityBlock (cp_projection pin) (cp_projectionDigest pin);
  refuse_identity (includes system block) "IDENTITY_BLOCK_MISMATCH";;
  match facultyPin with
  | None => Throw (identity_refusal "IDENTITY_PIN_FACULTY_MISMATCH")
  | Some f =>
      refuse_identity ((fv_id (fp_faculty f) === F_intelligence) && (fv_version (fp_faculty f) =? cp_facultyVersion pin) &&
                       (fp_facultyDigest f === cp_facultyDigest pin)) "IDENTITY_PIN_FACULTY_MISMATCH";;
      found ← source d (cp_tenantId pin) (cp_identityId pin) (cp_identityVersion pin);
      match found with
      | None => Throw (identity_refusal "IDENTITY_PINNED_VERSION_UNAVAILABLE")
      | Some src =>
          refuse_identity (iv_id (sr_row src) === cp_identityVersionId pin) "IDENTITY_PINNED_VERSION_UNAVAILABLE";;
          assertParity src (Some (cp_identityCoreDigest pin, cp_classADigest pin));;
          recomputed ← projectIdentity (js_of (iv_document (sr_row src))) ANALYST_INTELLIGENCE_V1
            (identityFramingCeiling (enum_name FACULTY_IDS (fv_id (fp_faculty f))) (fp_policyVersion f));
          digest ← projectionDigest recomputed;
          refuse_identity ((canonicalDigest (projection_json recomputed) === canonicalDigest (projection_json (cp_projection pin))) &&
                           (digest === cp_projectionDigest pin)) "IDENTITY_PROJECTION_MISMATCH"
      end
  end.

Definition authorize_cognition (state : CognitionState) (facultyPin : option FacultyPin) (request : ModelRequest)
    (expectedAssemblyDigest : string) d : result unit :=
  refuse_identity (assemblyDigestOf request === expectedAssemblyDigest) "IDENTITY_ASSEMBLY_MISMATCH";;
  match l_tasks d !! mq_taskId request with
  | None => Throw (identity_refusal "IDENTITY_TASK_REFUSED")
  | Some task =>
      refuse_identity (task_status task === RUNNING) "IDENTITY_TASK_NOT_RUNNING";;
      read ← read_cognition d (task_tenant task) (mq_taskId request) (mq_stepId request);
      db ← (match read with
        | R_LEGACY s latched => refuse_identity (negb latched) "IDENTITY_LEGACY_TASK_LATCHED";; Ok s
        | R_CONTRACT start (Some l) pin => contractState start l pin
        | R_CONTRACT _ None _ => Throw (identity_refusal "IDENTITY_LATCH_MISSING")
        end);
      journal ← CognitionState_parse state;
      refuse_identity (canonicalDigest (state_json db) === canonicalDigest (state_json journal)) "IDENTITY_JOURNAL_DB_MISMATCH";;
      let system := match mq_messages request with m :: _ => msg_content m | [] => EmptyString end in
      match state with
      | S_LEGACY _ _ _ => refuse_identity (countIdentityBlocks system =? 0) "IDENTITY_ASSEMBLY_BLOCK_COUNT"
      | S_CONTRACT _ l pin =>
          if la_mode l === "NONE" then
            refuse_identity ((countIdentityBlocks system =? 0) && negb (bool_decide (is_Some pin))) "IDENTITY_ASSEMBLY_BLOCK_COUNT"
          else match pin with
          | None => Throw (identity_refusal "IDENTITY_PIN_MISSING")
          | Some p => authorize_block p facultyPin system d
          end
      end
  end.
End binding.
