(* ===== verification/CognitionFacts.v ===== *)
(** * Facts of the identity cognition

    A latch is final: whatever the environment says later and whatever else runs, the step
    keeps the decision and the pin it was given.  Latches and pins agree in every reachable
    state, and a call that is authorised carries exactly the pinned identity. *)

From S2P Require Import Prelude JsNumber JsDate Digest Contracts Plan Capability Json Mission Regex MemPolicy.
From S2P Require Import MemContext Model Faculty Identity IdentityFacts Ledger Cognition.
Local Open Scope Z_scope.
Local Open Scope js_scope.

(** ** The rows [latch] writes *)

Section facts.
Context {X : Type} `{FT : FacultyTables X} `{IT : IdentityTables X}.
Implicit Types (d : LedgerDb X).

(** What a read of a step depends on. *)
Definition view d (task step : string) :=
  (l_bindings d !! task, it_marker (l_pins d), it_epoch (l_pins d) task, latches_at d task step, pins_at d task step).

Lemma read_view d d' tenant task step : view d' task step = view d task step →
  read_cognition d' tenant task step = read_cognition d tenant task step.
Proof. unfold view, read_cognition, binding_epoch. by intros [= -> -> -> -> ->]. Qed.

(** The step of an input has no latch yet, and [latch] adds one, with or without a pin. *)
Record latched (input : LatchInput) d d' : Prop := {
  lt_fresh : latches_at d (li_taskId input) (li_stepId input) = [];
  lt_pins_fresh : ∀ r, it_pins (l_pins d') = it_pins (l_pins d) ++ [r] → pins_at d (li_taskId input) (li_stepId input) = [];
  lt_bindings : l_bindings d' = l_bindings d;
  lt_marker : it_marker (l_pins d') = it_marker (l_pins d);
  lt_epoch : it_epoch (l_pins d') = it_epoch (l_pins d);
  lt_latches : ∃ l, it_latches (l_pins d') = it_latches (l_pins d) ++ [l] ∧
    la_taskId l = li_taskId input ∧ la_stepId l = li_stepId input;
  lt_pins : it_pins (l_pins d') = it_pins (l_pins d) ∨
    ∃ r, it_pins (l_pins d') = it_pins (l_pins d) ++ [r] ∧ ir_taskId r = li_taskId input ∧ ir_stepId r = li_stepId input;
  lt_consistent : consistent d' (li_taskId input) (li_stepId input) = true
}.

Lemma check_23514_ok c m d d' u : check_23514 c m d = (d', Ok u) → d' = d ∧ c = true.
Proof. apply check_ok. Qed.

Lemma insert_identity_pin_ok input p d d' u : insert_identity_pin input p d = (d', Ok u) →
  ∃ r, d' = set_identity (it_add_pin r) d ∧ pins_at d (li_taskId input) (li_stepId input) = [] ∧
    ir_taskId r = li_taskId input ∧ ir_stepId r = li_stepId input ∧ ir_pin r = cognition_pin_json p.
Proof.
  unfold insert_identity_pin. rewrite get_bind. destruct (List.find _ _) as [v|]; [|by intros [_ ?]%check_23514_ok].
  intros ([] & ? & [-> _]%check_23514_ok & H)%pbind_ok.
  apply pbind_ok in H as (core & ? & [-> _]%lift_ok & H). apply pbind_ok in H as (classA & ? & [-> _]%lift_ok & H).
  apply pbind_ok in H as ([] & ? & [-> _]%check_23514_ok & H). apply pbind_ok in H as (text & ? & [-> _]%lift_ok & H).
  do 2 apply pbind_ok in H as ([] & ? & [-> _]%check_23514_ok & H).
  apply pbind_ok in H as ([] & ? & [-> Hp]%check_ok & [= <- _]). apply bool_decide_eq_true in Hp.
  eexists. split; [reflexivity|]. by cbn.
Qed.

Lemma insert_latch_ok l d d' u : insert_latch l d = (d', Ok u) →
  d' = set_identity (it_add_latch l) d ∧ latches_at d (la_taskId l) (la_stepId l) = [].
Proof.
  unfold insert_latch. rewrite get_bind. intros H.
  do 2 apply pbind_ok in H as ([] & ? & [-> _]%check_23514_ok & H).
  apply pbind_ok in H as ([] & ? & [-> Hp]%check_ok & H). apply pbind_ok in H as ([] & ? & [-> _]%check_ok & [= <- _]).
  apply bool_decide_eq_true in Hp. done.
Qed.

Lemma write_latch_ok input fp enabled d d' u : write_latch input fp enabled d = (d', Ok u) →
  consistent d' (li_taskId input) (li_stepId input) = true → latched input d d'.
Proof.
  unfold write_latch. rewrite get_bind. intros ([] & d1 & Hpin & [-> Hfresh]%insert_latch_ok)%pbind_ok Hc.
  cbn [la_taskId la_stepId] in Hfresh. destruct enabled.
  - apply pbind_ok in Hpin as (p & ? & [-> _]%lift_ok & (r & -> & Hnone & Ht & Hs & _)%insert_identity_pin_ok).
    split; cbn -[consistent] in *; rewrite ?it_latches_latch, ?it_pins_latch, ?it_marker_latch, ?it_epoch_latch,
      ?it_latches_pin, ?it_pins_pin, ?it_marker_pin, ?it_epoch_pin; try done.
    + revert Hfresh. unfold latches_at. cbn. by rewrite it_latches_pin.
    + eexists. by split.
    + right. by exists r.
  - apply ret_ok in Hpin as [-> _].
    split; cbn -[consistent] in *; rewrite ?it_latches_latch, ?it_pins_latch, ?it_marker_latch, ?it_epoch_latch; try done.
    + intros r Hr%(f_equal length). rewrite length_app in Hr. cbn in Hr. lia.
    + eexists. by split.
    + by left.
Qed.

Lemma as_refusal_ok {S A} (m : prog S A) s s' a : as_refusal m s = (s', Ok a) → m s = (s', Ok a).
Proof. unfold as_refusal. destruct (m s) as [? []]; congruence. Qed.
Lemma as_refusal_throw {S A} (m : prog S A) s s' e : as_refusal m s = (s', Throw e) → ∃ e', m s = (s', Throw e').
Proof. unfold as_refusal. destruct (m s) as [? []]; [done|]. intros [= -> _]. eauto. Qed.
Lemma transact_ok {A} (m : prog (LedgerDb X) A) d d' a : transact m d = (d', Ok a) → m d = (d', Ok a).
Proof. unfold transact. by destruct (m d) as [? []]. Qed.
Lemma transact_throw {A} (m : prog (LedgerDb X) A) d d' e : transact m d = (d', Throw e) → d' = d.
Proof. unfold transact. destruct (m d) as [? []]; congruence. Qed.

(** A transaction of [latch] that answers at once writes nothing. *)
Lemma latch_tx_ok en input d d' r : latch_tx en input d = (d', Ok r) →
  (d' = d ∧ ∃ s, r = Some s ∧
    ((∃ latched, read_cognition d (li_tenantId input) (li_taskId input) (li_stepId input) = Ok (R_LEGACY s latched)) ∨
     ∃ start l pin, read_cognition d (li_tenantId input) (li_taskId input) (li_stepId input) = Ok (R_CONTRACT start (Some l) pin) ∧
       contractState start l pin = Ok s)) ∨
  (r = None ∧ latched input d d').
Proof.
  intros H%as_refusal_ok%transact_ok. rewrite get_bind in H. revert H.
  intros (found & ? & [-> Hread]%lift_ok & H)%pbind_ok. rewrite Hread.
  destruct found as [s lt|start [l|] pin].
  - apply pbind_ok in H as ([] & ? & [-> _]%check_ok & [-> ->]%ret_ok). left. split; [done|]. eexists. split; [done|]. left. eauto.
  - apply pbind_ok in H as (s & ? & [-> Hs]%lift_ok & [-> ->]%ret_ok). left. split; [done|]. eexists. split; [done|]. right. eauto.
  - destruct (li_facultyPin input) as [fp|]; [|done].
    apply pbind_ok in H as ([] & ? & [-> _]%check_ok & H). apply pbind_ok in H as (en' & ? & [-> _]%lift_ok & H).
    apply pbind_ok in H as ([] & d2 & Hw & H). apply pbind_ok in H as ([] & ? & Hc & [-> ->]%ret_ok).
    unfold commit_check in Hc. rewrite get_bind in Hc. apply check_23514_ok in Hc as [-> Hc].
    right. split; [done|]. by eapply write_latch_ok.
Qed.

Lemma latch_tx_throw en input d d' e : latch_tx en input d = (d', Throw e) → d' = d.
Proof. by intros (e' & H%transact_throw)%as_refusal_throw. Qed.

Lemma latch_cases en input d d' r : latch en input d = (d', r) → d' = d ∨ latched input d d'.
Proof.
  unfold latch, mbind, prog_bind, get_st, lift_result. destruct (latch_tx en input d) as [d1 [o|e]] eqn:E.
  2: { apply latch_tx_throw in E as ->. intros [= <- _]. by left. }
  apply latch_tx_ok in E as [[-> (s & -> & _)]|[-> Hl]]; [intros [= <- _]; by left|].
  intros H. right. destruct (read_cognition d1 _ _ _) as [[|? [l|] ?]|] in H; by injection H as <- _.
Qed.

(** What the state that [latch] returned was read from. *)
Lemma latch_contract en input d d1 start l pin : latch en input d = (d1, Ok (S_CONTRACT start l pin)) →
  ∃ start' l' pin', read_cognition d1 (li_tenantId input) (li_taskId input) (li_stepId input) = Ok (R_CONTRACT start' (Some l') pin') ∧
    contractState start' l' pin' = Ok (S_CONTRACT start l pin).
Proof.
  unfold latch. intros (o & d2 & Htx & H)%pbind_ok.
  apply latch_tx_ok in Htx as [[-> (s & -> & Hs)]|[-> Hl]].
  - apply ret_ok in H as [-> <-]. destruct Hs as [[lt Hs]|(st & l' & p & Hr & Hs)]; [|eauto].
    unfold read_cognition in Hs. apply bind_ok in Hs as ([] & _ & Hs).
    assert (Hleg : ∀ t st e b, (state ← CognitionState_parse (S_LEGACY t st e); Ok (R_LEGACY state b)) = Ok (R_LEGACY (S_CONTRACT start l pin) lt) → False).
    { cbn. intros t st e b (s & Hs' & [= -> _])%bind_ok. by apply ensure_ok in Hs' as [_ ?]. }
    destruct (it_marker _) as [m|]; [destruct (isLegacyTask _ _)|]; [by apply Hleg in Hs| |by apply Hleg in Hs].
    by apply bind_ok in Hs as (? & _ & ?).
  - rewrite get_bind in H. apply pbind_ok in H as (p & ? & [-> Hr]%lift_ok & H).
    destruct p as [|st [l'|] p]; try done. apply lift_ok in H as [-> H]. eauto.
Qed.

Lemma read_contract d tenant task step start l pin :
  read_cognition d tenant task step = Ok (R_CONTRACT start (Some l) pin) →
  it_marker (l_pins d) = Some start ∧ is_Some (l_bindings d !! task) ∧ head (latches_at d task step) = Some l ∧
  isLegacyTask (Some start) (binding_epoch d task) = false ∧
  (∀ p, pin = Some p → ∃ r, head (pins_at d task step) = Some r ∧ IdentityCognitionPin_parse (ir_pin r) = Ok p ∧ ir_tenantId r = tenant) ∧
  (pin = None → pins_at d task step = []).
Proof.
  unfold read_cognition. intros ([] & _ & H)%bind_ok.
  assert (Hleg : ∀ (m : result CognitionState) b, (state ← m; Ok (R_LEGACY state b)) = Ok (R_CONTRACT start (Some l) pin) → False)
    by (intros m b (? & _ & ?)%bind_ok; done).
  destruct (it_marker _) as [m|]; [|by apply Hleg in H]. destruct (isLegacyTask _ _) eqn:El; [by apply Hleg in H|].
  apply bind_ok in H as (p & Hp & H). injection H as -> Hl ->.
  split; [done|]. split. { unfold binding_epoch in El. by destruct (l_bindings d !! task). }
  split; [done|]. split; [done|]. destruct (pins_at d task step) as [|r rs]; cbn [head] in Hp |- *.
  - apply Ok_inj in Hp as <-. by split.
  - apply bind_ok in Hp as (q & Hq & Hp). apply ensure_ok in Hp as [Hok Hp]. apply Ok_inj in Hp as <-. to_prop.
    split; [|done]. intros ? [= <-]. exists r. by repeat split.
Qed.

(** ** What may happen between two looks at a step *)

(** A call of [latch] for any step under any setting of the environment, or anything else that
    leaves the identity tables as they are: bindings, the contract marker and the release epoch
    of a binding are immutable once written. *)
Inductive cognition_step d : LedgerDb X → Prop :=
  | cs_latch en input : cognition_step d (latch en input d).1
  | cs_other d' :
      (∀ i b, l_bindings d !! i = Some b → l_bindings d' !! i = Some b) →
      (∀ m, it_marker (l_pins d) = Some m → it_marker (l_pins d') = Some m) →
      (∀ i, is_Some (l_bindings d !! i) → it_epoch (l_pins d') i = it_epoch (l_pins d) i) →
      it_latches (l_pins d') = it_latches (l_pins d) → it_pins (l_pins d') = it_pins (l_pins d) → cognition_step d d'.

Lemma filter_app_one {A} (f : A → bool) l x : List.filter f (l ++ [x]) = List.filter f l ++ if f x then [x] else [].
Proof. rewrite List.filter_app. cbn. by destruct (f x). Qed.

Lemma latched_elsewhere input d d' task step : latched input d d' → latches_at d task step ≠ [] → view d' task step = view d task step.
Proof.
  intros [Hf _ Hb Hm He (l & Hl & Ht & Hs) Hp _] Hne. unfold view. rewrite Hb, Hm, He.
  assert (Hother : at_step task step (li_taskId input) (li_stepId input) = false).
  { destruct (at_step _ _ _ _) eqn:E; [|done]. apply andb_true_iff in E as [<-%bool_decide_eq_true <-%bool_decide_eq_true]. done. }
  assert (latches_at d' task step = latches_at d task step) as ->.
  { unfold latches_at. by rewrite Hl, filter_app_one, Ht, Hs, Hother, app_nil_r. }
  assert (pins_at d' task step = pins_at d task step) as ->; [|done].
  unfold pins_at. destruct Hp as [->|(r & -> & Hrt & Hrs)]; [done|]. by rewrite filter_app_one, Hrt, Hrs, Hother, app_nil_r.
Qed.

Lemma step_view d d' task step : cognition_step d d' → is_Some (l_bindings d !! task) → is_Some (it_marker (l_pins d)) →
  latches_at d task step ≠ [] → view d' task step = view d task step.
Proof.
  intros [en input|d1 Hb Hm He Hl Hp] [b Eb] [m Em] Hne.
  - destruct (latch en input d) as [d1 r] eqn:E. apply latch_cases in E as [->|E]; [done|]. by eapply latched_elsewhere.
  - unfold view, latches_at, pins_at. by rewrite (Hb _ _ Eb), Eb, (Hm _ Em), Em, He, Hl, Hp.
Qed.

Lemma steps_view d d' task step : rtc cognition_step d d' → is_Some (l_bindings d !! task) → is_Some (it_marker (l_pins d)) →
  latches_at d task step ≠ [] → view d' task step = view d task step.
Proof.
  induction 1 as [|d d1 d' Hs _ IH]; intros Hb Hm Hl; [done|].
  pose proof (step_view _ _ _ _ Hs Hb Hm Hl) as Hv. rewrite <- Hv.
  unfold view in Hv. injection Hv as Eb Em _ El _. apply IH; by rewrite ?Eb, ?Em, ?El.
Qed.

(** ** Latches and pins agree *)

(** A state without identity rows, and what is reached from it. *)
Definition no_identity d : Prop := it_latches (l_pins d) = [] ∧ it_pins (l_pins d) = [].

(** Every step that has a latch or a pin has one latch, and the pins its mode asks for. *)
Definition latches_consistent d : Prop := ∀ task step,
  latches_at d task step ≠ [] ∨ pins_at d task step ≠ [] → consistent d task step = true.

Lemma latched_consistent input d d' : latches_consistent d → latched input d d' → latches_consistent d'.
Proof.
  intros Hc Hl task step Hne.
  destruct (at_step task step (li_taskId input) (li_stepId input)) eqn:E.
  { apply andb_true_iff in E as [<-%bool_decide_eq_true <-%bool_decide_eq_true]. exact (lt_consistent _ _ _ Hl). }
  assert (latches_at d' task step = latches_at d task step) as HL.
  { destruct (lt_latches _ _ _ Hl) as (l & Hl' & Ht & Hs). unfold latches_at.
    by rewrite Hl', filter_app_one, Ht, Hs, E, app_nil_r. }
  assert (pins_at d' task step = pins_at d task step) as HP.
  { unfold pins_at. destruct (lt_pins _ _ _ Hl) as [->|(r & -> & Hrt & Hrs)]; [done|].
    by rewrite filter_app_one, Hrt, Hrs, E, app_nil_r. }
  rewrite HL, HP in Hne. specialize (Hc task step Hne). unfold consistent in *. by rewrite HL, HP.
Qed.

Lemma steps_consistent d d' : rtc cognition_step d d' → latches_consistent d → latches_consistent d'.
Proof.
  induction 1 as [|d d1 d' Hs _ IH]; [done|]. intros Hc. apply IH.
  destruct Hs as [en input|d1 _ _ _ Hl Hp].
  - destruct (latch en input d) as [d1 r] eqn:E. apply latch_cases in E as [->|E]; [done|]. by eapply latched_consistent.
  - intros task step. unfold consistent, latches_at, pins_at. rewrite Hl, Hp. apply Hc.
Qed.

Lemma consistent_inv d task step : consistent d task step = true →
  ∃ l, latches_at d task step = [l] ∧
    (la_mode l = "REQUIRED" → ∃ r, pins_at d task step = [r] ∧ ir_tenantId r = la_tenantId l) ∧
    (la_mode l = "NONE" → pins_at d task step = []).
Proof.
  unfold consistent. destruct (latches_at d task step) as [|l [|]]; try done. intros Hc. exists l. split; [done|].
  apply andb_true_iff in Hc as [[H1 H2]%andb_true_iff H3]. split; intros E; rewrite E in *; cbn in H1, H2.
  - destruct (pins_at d task step) as [|r [|]]; try discriminate H1. exists r. split; [done|]. cbn in H3. by to_prop.
  - by destruct (pins_at d task step).
Qed.
End facts.

(** C10: The decision on a step's identity is made once.  When [latch] has returned the state of a
    task under the contract, then after any sequence of other steps ([latch] for this or any other
    step, under whatever setting of the environment; the immutable bindings, epochs and contract
    marker stay) a further [latch] of that step, whatever KJ_IDENTITY_COGNITION_ENABLED says by then
    and whatever faculty pin is handed in, returns exactly the same latch and the same pin and
    writes nothing. *)
Theorem latch_is_final {X} `{FacultyTables X} `{IdentityTables X} en en' input input' (d d1 d2 : LedgerDb X) start l pin :
  latch en input d = (d1, Ok (S_CONTRACT start l pin)) → rtc cognition_step d1 d2 →
  li_tenantId input' = li_tenantId input → li_taskId input' = li_taskId input → li_stepId input' = li_stepId input →
  latch en' input' d2 = (d2, Ok (S_CONTRACT start l pin)).
Proof.
  intros Hl Hs Et Ei Es. apply latch_contract in Hl as (st & l' & p & Hr & Hc).
  pose proof (read_contract _ _ _ _ _ _ _ Hr) as (Hm & Hb & Hh & _).
  assert (Hr2 : read_cognition d2 (li_tenantId input') (li_taskId input') (li_stepId input') = Ok (R_CONTRACT st (Some l') p)).
  { rewrite Et, Ei, Es, <- Hr. apply read_view, steps_view; [done|done|by eexists|]. by destruct (latches_at _ _ _). }
  unfold latch, latch_tx, as_refusal, transact. unfold mbind at 1. unfold prog_bind at 1.
  assert (Htx : ∀ k, (get_st ≫= (λ d, lift_result (read_cognition d (li_tenantId input') (li_taskId input') (li_stepId input')) ≫= k)) d2 =
    k (R_CONTRACT st (Some l') p) d2 :> LedgerDb X * result (option CognitionState)).
  { intros k. rewrite get_bind. unfold mbind, prog_bind, lift_result. by rewrite Hr2. }
  rewrite Htx. unfold mbind, prog_bind, lift_result. by rewrite Hc.
Qed.

(** From tables without identity rows, whatever is latched and whatever else happens, every
    step that has a latch or a pin has exactly one latch; a REQUIRED latch has exactly one pin, of
    the latch's own tenant, and a NONE latch has no pin: no run of the analyst finds a pin nobody
    decided on, nor a decision without its pin. *)
Theorem latches_and_pins_agree {X} `{FacultyTables X} `{IdentityTables X} (d d' : LedgerDb X) task step :
  no_identity d → rtc cognition_step d d' → latches_at d' task step ≠ [] ∨ pins_at d' task step ≠ [] →
  ∃ l, latches_at d' task step = [l] ∧
    (la_mode l = "REQUIRED" → ∃ r, pins_at d' task step = [r] ∧ ir_tenantId r = la_tenantId l) ∧
    (la_mode l = "NONE" → pins_at d' task step = []).
Proof.
  intros [Hl Hp] Hs Hne. apply consistent_inv. eapply steps_consistent; [exact Hs| |exact Hne].
  intros t s. unfold latches_at, pins_at. rewrite Hl, Hp. by intros [].
Qed.

(** ** What the completion check of the identity has seen *)

Section evidence.
Context (url_ok : string → bool).

Lemma demand_ok {B} c m (k : unit → result B) b : (demand c m ≫= k) = Ok b → c = true ∧ k tt = Ok b.
Proof. apply ensure_ok. Qed.
Lemma demand_end c m : demand c m = Ok tt → c = true.
Proof. by destruct c. Qed.

(** The pin of a REQUIRED latch and what the analyst's record says of it. *)
Record pin_bound (latch : Latch) (pins : list json) (a : list (string * json)) (pin : CognitionPin) : Prop := {
  pb_one : ∃ raw, pins = [raw] ∧ IdentityCognitionPin_parse raw = Ok pin ∧
    canonicalDigest (cognition_pin_json pin) = canonicalDigest raw;
  pb_names : cp_taskId pin = la_taskId latch ∧ cp_stepId pin = la_stepId latch ∧ cp_tenantId pin = la_tenantId latch;
  pb_digest : projectionDigest (cp_projection pin) = Ok (cp_projectionDigest pin);
  pb_bytes : projectionBytes (cp_projection pin) = Ok (cp_projectionBytes pin);
  pb_evidence : canonicalDigest (default JNull (map_get a "identity")) = canonicalDigest (provenance_record pin)
}.

Lemma provenance_ok v x : IdentityRuntimeProvenance_parse v = Ok x → x = v.
Proof.
  unfold IdentityRuntimeProvenance_parse. intros (fs & _ & H)%bind_ok.
  repeat (apply bind_ok in H as (? & _ & H)). by apply Ok_inj in H.
Qed.

Lemma check_identity_pin_ok latch pins a : check_identity_pin latch pins a = Ok tt → ∃ pin, pin_bound latch pins a pin.
Proof.
  unfold check_identity_pin. destruct pins as [|raw [|]]; try done.
  intros (pin & Hp & (Hc & (Hn & (dg & Hd & (by_ & Hb & (Hdb & (ex & He & Hi%demand_end)%bind_ok)%demand_ok)%bind_ok)%bind_ok)%demand_ok)%demand_ok)%bind_ok.
  apply provenance_ok in He as ->. apply andb_true_iff in Hdb as [->%bool_decide_eq_true ->%Z.eqb_eq].
  apply bool_decide_eq_true in Hc, Hi. apply andb_true_iff in Hn as [[?%bool_decide_eq_true ?%bool_decide_eq_true]%andb_true_iff ?%bool_decide_eq_true].
  exists pin. split; [by exists raw|by repeat split|done..].
Qed.

Lemma json_is_some o s : json_is o s = true → o = Some (JStr s).
Proof. unfold json_is. destruct o as [[]|]; try done. intros ?%bool_decide_eq_true. by subst. Qed.

Lemma same_call_ok a fs : same_call a fs = Ok tt → Forall (λ fv, map_get a fv.1 = Some (JStr fv.2)) fs.
Proof.
  induction fs as [|[f v] fs IH]; [constructor|]. cbn [same_call]. intros [Hj%json_is_some H]%demand_ok. constructor; [done|by apply IH].
Qed.

Lemma check_reviewers_ok rs : check_reviewers rs = Ok tt →
  Forall (λ r, map_get (ev_metadata r) "identity" = None ∧ map_get (ev_metadata r) "identity_cognition_mode" = Some (JStr "NONE")) rs.
Proof.
  induction rs as [|r rs IH]; [constructor|]. cbn [check_reviewers]. intros [Hi [Hj%json_is_some H]%demand_ok]%demand_ok. constructor; [|by apply IH].
  unfold map_has in Hi. split; [by destruct (map_get _ "identity")|done].
Qed.

Definition of_source (source : string) (records : list Evidence) : list Evidence := List.filter (λ e, ev_source e === source) records.

(** What the completion of a task under the contract rests on. *)
Record cognition_bound (facts : IdentityCompletionFacts) (records : list Evidence) (latch : Latch) (analyst : Evidence)
    (call : ModelCallBinding) : Prop := {
  cb_latch : if_latches facts = [latch] ∧ la_stepId latch = if_analystStepId facts ∧
    if_bindingEpoch facts = Some (la_releaseEpoch latch) ∧ la_mode latch ∈ MODES;
  cb_analyst : of_source ANALYST_SOURCE records = [analyst] ∧ ev_stepId analyst = Some (if_analystStepId facts);
  cb_call : ∃ calls, call_bindings (if_modelCalls facts) = Ok calls ∧ call ∈ calls ∧
    (∀ c, c ∈ calls → map_get (ev_metadata analyst) "call_id" = Some (JStr (mb_call_id c)) → c = call);
  cb_call_id : map_get (ev_metadata analyst) "call_id" = Some (JStr (mb_call_id call));
  cb_names : mb_task_id call = ev_taskId analyst ∧ mb_step_id call = if_analystStepId facts ∧ mb_status call = "SUCCEEDED";
  cb_fields : Forall (λ fv, map_get (ev_metadata analyst) fv.1 = Some (JStr fv.2)) (bound_fields call);
  cb_mode : mb_mode call = la_mode latch ∧ map_get (ev_metadata analyst) "identity_cognition_mode" = Some (JStr (la_mode latch));
  cb_none : la_mode latch = "NONE" → if_pins facts = [] ∧ map_get (ev_metadata analyst) "identity" = Some JNull;
  cb_required : la_mode latch = "REQUIRED" → ∃ pin, pin_bound latch (if_pins facts) (ev_metadata analyst) pin;
  cb_reviewers : Forall (λ r, map_get (ev_metadata r) "identity" = None ∧
    map_get (ev_metadata r) "identity_cognition_mode" = Some (JStr "NONE")) (of_source REVIEWER_SOURCE records)
}.

Lemma of_runtime source records : source = ANALYST_SOURCE ∨ source = REVIEWER_SOURCE →
  of_source source (List.filter (λ e, (ev_source e === ANALYST_SOURCE) || (ev_source e === REVIEWER_SOURCE)) records) =
  of_source source records.
Proof.
  intros Hs. unfold of_source. induction records as [|e rs IH]; [done|]. cbn [List.filter].
  destruct (ev_source e === source) eqn:E.
  - assert ((ev_source e === ANALYST_SOURCE) || (ev_source e === REVIEWER_SOURCE) = true) as ->.
    { apply bool_decide_eq_true in E. rewrite E. by destruct Hs as [->| ->]. }
    cbn [List.filter]. by rewrite E, IH.
  - destruct (_ || _); cbn [List.filter]; by rewrite ?E, IH.
Qed.

Lemma verifyIdentityEvidence_ok facts : verifyIdentityEvidence url_ok facts = Ok tt →
  isLegacyTask (if_contractStartEpoch facts) (if_bindingEpoch facts) = false →
  ∃ records latch analyst call, parse_all (Evidence_parse url_ok) (if_evidence facts) = Ok records ∧
    cognition_bound facts records latch analyst call.
Proof.
  unfold verifyIdentityEvidence. intros (records & Hr & (calls & Hcalls & H)%bind_ok)%bind_ok Hl. rewrite Hl in H.
  unfold verify_contract_task in H. destruct (if_latches facts) as [|latch [|]] eqn:EL; try done.
  apply demand_ok in H as [Hstep H]. apply demand_ok in H as [Hepoch H]. apply demand_ok in H as [Hmode H].
  change (λ e : Evidence, ev_source e === ANALYST_SOURCE) with (λ e : Evidence, ev_source e === ANALYST_SOURCE) in H.
  fold (of_source ANALYST_SOURCE (List.filter (λ e, (ev_source e === ANALYST_SOURCE) || (ev_source e === REVIEWER_SOURCE)) records)) in H.
  rewrite (of_runtime ANALYST_SOURCE) in H by auto.
  destruct (of_source ANALYST_SOURCE records) as [|analyst [|]] eqn:EA; try done.
  apply demand_ok in H as [Hast H]. apply demand_ok in H as [Ham%json_is_some H]. apply demand_ok in H as [_ H].
  destruct (List.filter _ calls) as [|call [|]] eqn:EC; try done.
  apply demand_ok in H as [Hn H]. apply demand_ok in H as [Hs H]. apply bind_ok in H as ([] & Hf%same_call_ok & H).
  apply demand_ok in H as [Hm H]. apply bind_ok in H as ([] & Hpins & H).
  fold (of_source REVIEWER_SOURCE (List.filter (λ e, (ev_source e === ANALYST_SOURCE) || (ev_source e === REVIEWER_SOURCE)) records)) in H.
  rewrite (of_runtime REVIEWER_SOURCE) in H by auto. apply check_reviewers_ok in H.
  assert (Hin : ∀ c, c ∈ calls ∧ json_is (map_get (ev_metadata analyst) "call_id") (mb_call_id c) = true ↔ c ∈ [call]).
  { intros c. rewrite <- EC. symmetry.
    apply (elem_of_filter_bool (λ b, json_is (map_get (ev_metadata analyst) "call_id") (mb_call_id b))). }
  assert (Hc1 : call ∈ [call]) by left. destruct (proj2 (Hin call) Hc1) as [Hcin Hcid%json_is_some].
  apply bool_decide_eq_true in Hstep, Hepoch, Hmode, Hast, Hs, Hm.
  apply andb_true_iff in Hn as [?%bool_decide_eq_true ?%bool_decide_eq_true].
  exists records, latch, analyst, call. split; [done|]. split; try done.
  - exists calls. split; [done|]. split; [done|]. intros c Hc Hid.
    assert (Hc' : c ∈ [call]); [|by apply list_elem_of_singleton in Hc'].
    apply Hin. split; [done|]. rewrite Hid. cbn. by rewrite bool_decide_true.
  - intros E. rewrite E in Hpins. cbn in Hpins. apply demand_ok in Hpins as [Hp Hi%demand_end].
    split; [by destruct (if_pins facts)|]. by destruct (map_get _ "identity") as [[]|].
  - intros E. rewrite E in Hpins. by apply check_identity_pin_ok in Hpins.
Qed.
End evidence.

(** ** What an authorised call carries *)

Lemma strip_text_ok w s r : strip_text w s = Some r → s = w +:+ r.
Proof.
  revert s. induction w as [|c w IH]; intros s; [by intros [= ->]|]. destruct s as [|b s]; [done|]. cbn [strip_text].
  case_bool_decide as E; [|done]. intros H%IH. subst. reflexivity.
Qed.

Lemma includes_ok s w : includes s w = true → ∃ a b, s = a +:+ w +:+ b.
Proof.
  induction s as [|c s IH].
  - cbn [includes]. destruct (strip_text w EmptyString) as [r|] eqn:E; [|done]. apply strip_text_ok in E. by exists EmptyString, r.
  - cbn [includes]. destruct (strip_text w (String c s)) as [r|] eqn:E; [apply strip_text_ok in E; by exists EmptyString, r|].
    intros (a & b & ->)%IH. by exists (String c a), b.
Qed.

Section calls.
Context {X : Type} `{FT : FacultyTables X} `{IT : IdentityTables X}.
Implicit Types (d : LedgerDb X).

(** The state the database holds for a step. *)
Definition db_state d (tenant task step : string) (s : CognitionState) : Prop :=
  read_cognition d tenant task step = Ok (R_LEGACY s false) ∨
  ∃ start l pin, read_cognition d tenant task step = Ok (R_CONTRACT start (Some l) pin) ∧ contractState start l pin = Ok s.

Definition system_text (request : ModelRequest) : string := match mq_messages request with m :: _ => msg_content m | [] => EmptyString end.

(** The system message holds the pinned identity, once, and the pin still verifies against the stored version. *)
Record carries_identity d (p : CognitionPin) (f : FacultyPin) (system : string) : Prop := {
  ci_count : countIdentityBlocks system = 1;
  ci_block : ∃ block before after, renderIdentityBlock (cp_projection p) (cp_projectionDigest p) = Ok block ∧
    system = before +:+ block +:+ after;
  ci_faculty : fv_id (fp_faculty f) = F_intelligence ∧ fv_version (fp_faculty f) = cp_facultyVersion p ∧
    fp_facultyDigest f = cp_facultyDigest p;
  ci_version : ∃ v projection, v ∈ it_versions (l_pins d) ∧ iv_tenantId v = cp_tenantId p ∧ iv_identityId v = cp_identityId p ∧
    iv_version v = cp_identityVersion p ∧ iv_id v = cp_identityVersionId p ∧
    iv_identityCoreDigest v = cp_identityCoreDigest p ∧ iv_classADigest v = cp_classADigest p ∧
    identityCoreDigestV1 (js_of (iv_document v)) = Ok (cp_identityCoreDigest p) ∧
    digest_at (classA_of (js_of (iv_document v))) = Ok (cp_classADigest p) ∧
    projectIdentity (js_of (iv_document v)) ANALYST_INTELLIGENCE_V1
      (identityFramingCeiling (enum_name FACULTY_IDS (fv_id (fp_faculty f))) (fp_policyVersion f)) = Ok projection ∧
    canonicalDigest (projection_json projection) = canonicalDigest (projection_json (cp_projection p)) ∧
    projectionDigest projection = Ok (cp_projectionDigest p)
}.

Lemma assertParity_ok src e : assertParity src (Some e) = Ok tt →
  identityCoreDigestV1 (js_of (iv_document (sr_row src))) = Ok e.1 ∧ digest_at (classA_of (js_of (iv_document (sr_row src)))) = Ok e.2 ∧
  iv_identityCoreDigest (sr_row src) = e.1 ∧ iv_classADigest (sr_row src) = e.2.
Proof.
  unfold assertParity. intros (core & -> & (classA & -> & H)%bind_ok)%bind_ok. unfold refuse_identity in H.
  destruct (_ && _) eqn:E in H; [|done].
  apply andb_true_iff in E as [[[[E1%bool_decide_eq_true E2%bool_decide_eq_true]%andb_true_iff E3%bool_decide_eq_true]%andb_true_iff
    E4%bool_decide_eq_true]%andb_true_iff [E5%bool_decide_eq_true E6%bool_decide_eq_true]%andb_true_iff].
  rewrite <- E3 in E4. injection E4 as E4. repeat split; congruence.
Qed.

Lemma source_ok d tenant identity version src : source d tenant identity version = Ok (Some src) →
  sr_row src ∈ it_versions (l_pins d) ∧ iv_tenantId (sr_row src) = tenant ∧ iv_identityId (sr_row src) = identity ∧
  iv_version (sr_row src) = version.
Proof.
  unfold source. destruct (List.find _ _) as [v|] eqn:E; [|done]. intros (c & _ & (a & _ & [= <-])%bind_ok)%bind_ok. cbn.
  apply List.find_some in E as [Hin%list_elem_of_In [[?%bool_decide_eq_true ?%bool_decide_eq_true]%andb_true_iff ?%Z.eqb_eq]%andb_true_iff].
  done.
Qed.

Lemma authorize_block_ok p fp system d : authorize_block p fp system d = Ok tt → ∃ f, fp = Some f ∧ carries_identity d p f system.
Proof.
  unfold authorize_block. intros [Hn H]%refuse_identity_ok. apply bind_ok in H as (block & Hb & H).
  apply refuse_identity_ok in H as [(a & b & Hsys)%includes_ok H]. destruct fp as [f|]; [|done]. exists f. split; [done|].
  apply refuse_identity_ok in H as [[[Hf1%bool_decide_eq_true Hf2%Z.eqb_eq]%andb_true_iff Hf3%bool_decide_eq_true]%andb_true_iff H].
  apply bind_ok in H as (o & Hsrc & H). destruct o as [src|]; [|done]. apply source_ok in Hsrc. destruct Hsrc as (Hv & Ht & Hi & Hver).
  apply refuse_identity_ok in H as [Hid%bool_decide_eq_true H]. apply bind_ok in H as ([] & Hpar%assertParity_ok & H).
  destruct Hpar as (Hc & Ha & Hsc & Hsa). apply bind_ok in H as (pr & Hpr & H). apply bind_ok in H as (dg & Hdg & H).
  unfold refuse_identity in H. destruct (_ && _) eqn:E in H; [|done].
  apply andb_true_iff in E as [E1%bool_decide_eq_true ->%bool_decide_eq_true].
  split; [by apply Z.eqb_eq|by exists block, a, b|done|]. exists (sr_row src), pr. done.
Qed.
End calls.

(** C9: An authorised analyst call is the call the database decided on.  When [authorize] passes, the
    exact outgoing request has the announced assembly digest, its task is RUNNING, and the journalled
    state has the digest of the state the database holds; in a legacy or NONE step the system message
    has no identity block; in a REQUIRED step it has exactly one, the rendering of the pin, the faculty
    pin is the pinned version of the intelligence faculty, and the pinned identity version is still
    stored with the pinned digests and still projects to the pinned projection. *)
Theorem authorized_call_is_pinned {X} `{FacultyTables X} `{IdentityTables X} state fp request expected (d : LedgerDb X) :
  authorize_cognition state fp request expected d = Ok tt →
  assemblyDigestOf request = expected ∧
  (∃ task db journal, l_tasks d !! mq_taskId request = Some task ∧ task_status task = RUNNING ∧
     db_state d (task_tenant task) (mq_taskId request) (mq_stepId request) db ∧
     CognitionState_parse state = Ok journal ∧
     canonicalDigest (state_json db) = canonicalDigest (state_json journal)) ∧
  match state with
  | S_LEGACY _ _ _ => countIdentityBlocks (system_text request) = 0
  | S_CONTRACT _ l pin =>
      (la_mode l = "NONE" ∧ countIdentityBlocks (system_text request) = 0 ∧ pin = None) ∨
      (la_mode l ≠ "NONE" ∧ ∃ p f, pin = Some p ∧ fp = Some f ∧ carries_identity d p f (system_text request))
  end.
Proof.
  unfold authorize_cognition. intros [Ha%bool_decide_eq_true HA]%refuse_identity_ok.
  destruct (l_tasks d !! _) as [task|] eqn:Et; [|done]. apply refuse_identity_ok in HA as [Hst%bool_decide_eq_true HA].
  apply bind_ok in HA as (read & Hr & (db & Hdb & (journal & Hj & HA)%bind_ok)%bind_ok).
  apply refuse_identity_ok in HA as [Heq%bool_decide_eq_true HA].
  split; [done|]. split.
  { exists task, db, journal. split_and!; try done. destruct read as [s [|]|start [l|] pin]; try done.
    - cbn in Hdb. injection Hdb as ->. by left.
    - right. eauto. }
  fold (system_text request) in HA. destruct state as [t s e|start l pin].
  { unfold refuse_identity in HA. destruct (_ =? 0) eqn:E in HA; [by apply Z.eqb_eq|done]. }
  destruct (la_mode l === "NONE") eqn:Em.
  - left. unfold refuse_identity in HA. destruct (_ && _) eqn:E in HA; [|done].
    apply andb_true_iff in E as [E1%Z.eqb_eq E2]. apply bool_decide_eq_true in Em. split; [done|]. split; [done|].
    by destruct pin.
  - right. apply bool_decide_eq_false in Em. split; [done|]. destruct pin as [p|]; [|done].
    apply authorize_block_ok in HA as (f & -> & Hc). by exists p, f.
Qed.
