(* ===== verification/LedgerOracles.v ===== *)
(** * The completion oracles of the ledger
    (services/kernel/src/ledger.ts, lines 155-178)

    Ledger.v takes what decides on the faculty evidence and on the identity evidence of a
    mission as arguments.  Here they are: the rows the ledger reads at the moment of the
    completion, handed to [verifyFacultyEvidence] and [verifyIdentityEvidence].  The theorem:
    a mission becomes COMPLETED only when both have accepted what the ledger holds. *)

From S2P Require Import Prelude JsNumber JsDate Digest Contracts Plan Capability Json Mission Approval Regex.
From S2P Require Import MemPolicy MemContext Model Faculty Identity Cognition CognitionFacts Ledger.
Local Open Scope Z_scope.
Local Open Scope js_scope.

Section oracles.
Context {X : Type} `{FT : FacultyTables X} `{IT : IdentityTables X}.
Context (url_ok : string → bool).
Implicit Types (d : LedgerDb X).

Definition faculty_pin_rows d (taskId : string) : list json :=
  map pn_pin (List.filter (λ r, pn_taskId r === taskId) (ft_pins (l_pins d))).
Definition faculty_required d (task : Task) (plan : option ExecutionPlan) : bool :=
  ((plan_recipe <$> plan) === Some RepoAnalysisMission) &&
  existsb (λ v, fr_tenantId v === task_tenant task) (ft_versions (l_pins d)).

Definition faculty_oracle d (task : Task) (plan : option ExecutionPlan) (records : list Evidence) : result unit :=
  verifyFacultyEvidence url_ok (faculty_pin_rows d (task_id task)) records (faculty_required d task plan).

Definition analyst_step (plan : option ExecutionPlan) : string :=
  default EmptyString (plan ≫= λ p, ps_id <$> List.find (λ s, ps_operation s === OP_RUNTIME_ANALYSE) (plan_steps p)).

Definition model_calls d (taskId : string) : list json :=
  map (λ e, payload_json (te_payload (le_event e)))
    (List.filter (λ e, (te_taskId (le_event e) === taskId) && (te_type (le_event e) === MODEL_CALLED)) (l_events d)).

Definition completion_facts d (task : Task) (plan : option ExecutionPlan) (records : list Evidence) : IdentityCompletionFacts :=
  {| if_contractStartEpoch := it_marker (l_pins d); if_bindingEpoch := binding_epoch d (task_id task);
     if_analystStepId := analyst_step plan;
     if_latches := List.filter (λ l, la_taskId l === task_id task) (it_latches (l_pins d));
     if_pins := map ir_pin (List.filter (λ r, ir_taskId r === task_id task) (it_pins (l_pins d)));
     if_modelCalls := model_calls d (task_id task); if_evidence := records |}.

Definition identity_oracle d (task : Task) (plan : option ExecutionPlan) (records : list Evidence) : result unit :=
  verifyIdentityEvidence url_ok (completion_facts d task plan records).
End oracles.

(** ** What a completing write has passed *)

Section completing.
Context {X : Type} (toUpperCase : string → string) (url_ok : string → bool) (toLowerCase : string → string).
Context (facultyOracle identityOracle : LedgerDb X → Task → option ExecutionPlan → list Evidence → result unit).
Context (workflow : option ExecutionTarget) (releaseId : string) (canary : option string).
Implicit Types (d : LedgerDb X).

Let checks := completion_checks toUpperCase url_ok toLowerCase facultyOracle identityOracle canary.

Lemma moved_checks old task event outcome d d' :
  move_task toUpperCase url_ok toLowerCase facultyOracle identityOracle canary old task event outcome d = (d', Ok tt) →
  task_status task = COMPLETED → ∃ d1, checks old task event outcome d = (d1, Ok tt).
Proof.
  unfold move_task. intros (original & d1 & [-> _]%lift_ok & H)%pbind_ok Hst.
  apply pbind_ok in H as (expected & d1 & [-> _]%lift_ok & H). apply pbind_ok in H as ([] & d1 & [-> _]%guard_passed & H).
  apply pbind_ok in H as ([] & d1 & H1 & H).
  assert (d1 = d) as ->. { destruct (_ === _) in H1; [by apply ret_ok in H1 as [-> _]|by apply lift_ok in H1 as [-> _]]. }
  apply pbind_ok in H as ([] & d1 & H2 & _). rewrite Hst in H2. cbn in H2. eauto.
Qed.

Lemma completing_write_checks input d d' task :
  write toUpperCase url_ok toLowerCase facultyOracle identityOracle workflow releaseId canary input d = (d', Ok tt) →
  Task_parse (w_task input) = Ok task → task_status task = COMPLETED →
  find_key (task_id task) (w_key input) (l_events d) = None →
  ∃ old event outcome d1, l_tasks d !! task_id task = Some old ∧ checks old task event outcome d = (d1, Ok tt).
Proof.
  unfold write. intros (task' & d1 & [-> Ht]%lift_ok & H)%pbind_ok Ht' Hst Hk. rewrite Ht in Ht'. injection Ht' as ->.
  apply pbind_ok in H as (event & d1 & [-> _]%lift_ok & H). apply pbind_ok in H as ([] & d1 & [-> _]%guard_passed & H).
  apply pbind_ok in H as (step & d1 & [-> _]%lift_ok & H). apply pbind_ok in H as (steps & d1 & [-> _]%lift_ok & H).
  apply pbind_ok in H as ([] & d1 & [-> _]%guard_passed & H).
  apply pbind_ok in H as (evidence & d1 & [-> _]%lift_ok & H). apply pbind_ok in H as (outcome & d1 & [-> _]%lift_ok & H).
  do 2 apply pbind_ok in H as ([] & d1 & [-> _]%guard_passed & H).
  apply commit_or_rollback in H as [(e & ? & _)|(u & _ & H)]; [done|].
  unfold write_body in H. rewrite get_bind, Hk in H. apply pbind_ok in H as ([] & d1 & H1 & _).
  destruct (l_tasks d !! task_id task) as [old|] eqn:El.
  - destruct (moved_checks _ _ _ _ _ _ H1 Hst) as [d2 H2]. eauto 10.
  - apply create_task_ok in H1 as (Hrec & _). congruence.
Qed.

Lemma checks_oracles old task event outcome d d' plan :
  checks old task event outcome d = (d', Ok tt) → head (plan_events (task_id task) d) ≫= event_plan = Some plan →
  ∃ rows, stored_rows (evidence_rows (task_id task) d) = Ok rows ∧
    facultyOracle d task (Some plan) (map fst rows) = Ok tt ∧
    (plan_recipe plan = RepoAnalysisMission → identityOracle d task (Some plan) (map fst rows) = Ok tt).
Proof.
  unfold checks, completion_checks. intros ([] & d1 & H1 & H)%pbind_ok Hp.
  unfold assertResolvedEffects in H1. rewrite get_bind in H1. apply guard_passed in H1 as [-> _].
  destruct outcome as [o|]; [|done]. rewrite get_bind, Hp in H.
  apply pbind_ok in H as (rows & d1 & [-> Hrows]%lift_ok & H).
  assert (Hs : stored_rows (evidence_rows (task_id task) d) = Ok rows) by (by destruct (stored_rows _)).
  apply pbind_ok in H as ([] & d1 & [-> Hf%verifyCompletion_ok]%lift_ok & H).
  apply pbind_ok in H as ([] & d1 & H1 & _). exists rows. split; [done|]. split; [done|]. intros Hrec.
  cbn [fmap option_fmap option_map] in H1. rewrite Hrec in H1. cbn in H1. by apply lift_ok in H1 as [_ Hi%verifyCompletion_ok].
Qed.
End completing.

(** C3: A repository mission completes only on what its ledger holds.  When a worker's write moves a
    task with one compiled plan of the mission recipe to COMPLETED (and is no replay of an earlier
    write), then the stored evidence satisfied the faculty check over the stored faculty pins (with
    both pins required once the tenant has configured faculties), and: either the task is older than
    the cognition contract and has no latch, no identity pin and no model-call binding; or it has
    exactly one latch, on the plan's analyst step and of the task's own release epoch, exactly one
    analyst record, which repeats request, assembly and continuity digests, provider and model of
    the one succeeded MODEL_CALLED binding of its call; a NONE latch has no pin, a REQUIRED latch
    exactly one, whose projection has the stated digest and size and whose provenance is the record's
    identity; and no reviewer record carries identity. *)
Theorem mission_completion_bound {X} `{FacultyTables X} `{IdentityTables X} toUpperCase url_ok toLowerCase workflow releaseId canary
    (input : Write) (d d' : LedgerDb X) task event plan :
  write toUpperCase url_ok toLowerCase (faculty_oracle url_ok) (identity_oracle url_ok) workflow releaseId canary input d = (d', Ok tt) →
  Task_parse (w_task input) = Ok task → task_status task = COMPLETED →
  find_key (task_id task) (w_key input) (l_events d) = None →
  plan_events (task_id task) d = [event] → event_plan event = Some plan → plan_recipe plan = RepoAnalysisMission →
  ∃ rows, stored_rows (evidence_rows (task_id task) d) = Ok rows ∧
    let facts := completion_facts d task (Some plan) (map fst rows) in
    verifyFacultyEvidence url_ok (faculty_pin_rows d (task_id task)) (map fst rows)
      (existsb (λ v, fr_tenantId v === task_tenant task) (ft_versions (l_pins d))) = Ok tt ∧
    ((isLegacyTask (it_marker (l_pins d)) (binding_epoch d (task_id task)) = true ∧
      if_latches facts = [] ∧ if_pins facts = [] ∧ if_modelCalls facts = []) ∨
     (isLegacyTask (it_marker (l_pins d)) (binding_epoch d (task_id task)) = false ∧
      ∃ records latch analyst call, parse_all (Evidence_parse url_ok) (map fst rows) = Ok records ∧
        cognition_bound facts records latch analyst call)).
Proof.
  intros Hw Ht Hst Hk Hpe Hep Hrec.
  destruct (completing_write_checks _ _ _ _ _ _ _ _ _ _ _ _ Hw Ht Hst Hk) as (old & ev & o & d1 & _ & Hc).
  eapply checks_oracles in Hc as (rows & Hrows & Hf & Hi); [|by rewrite Hpe; exact Hep]. specialize (Hi Hrec).
  exists rows. split; [done|]. cbn zeta. split.
  { unfold faculty_oracle, faculty_required in Hf. cbn [fmap option_fmap option_map] in Hf. rewrite Hrec in Hf. exact Hf. }
  unfold identity_oracle in Hi.
  destruct (isLegacyTask (it_marker (l_pins d)) (binding_epoch d (task_id task))) eqn:El; [left|right]; (split; [done|]).
  - unfold verifyIdentityEvidence in Hi. apply bind_ok in Hi as (records & _ & (calls & Hcalls & Hi)%bind_ok).
    change (if_contractStartEpoch _) with (it_marker (l_pins d)) in Hi.
    change (if_bindingEpoch _) with (binding_epoch d (task_id task)) in Hi. rewrite El in Hi.
    apply demand_ok in Hi as [Hi _]. apply andb_true_iff in Hi as [[Hl Hp]%andb_true_iff Hc].
    apply bool_decide_eq_true in Hl, Hp, Hc. split; [exact Hl|]. split; [by apply length_zero_iff_nil in Hp|].
    revert Hcalls. set (l := if_modelCalls _). destruct l as [|x l]; [done|]. unfold call_bindings. cbn [map_all].
    intros (y & _ & (ys & _ & <-%Ok_inj)%bind_ok)%bind_ok. done.
  - apply verifyIdentityEvidence_ok in Hi; [exact Hi|exact El].
Qed.
