(* ===== verification/Assembly.v ===== *)
(** * What a mission sends to its runtimes and what it records of them
    (services/kernel/src/mission: prompts.ts, analyst-assembly.ts, evidence.ts)

    The prompts of the analyst and the reviewer, the one place where identity bytes may enter
    a request ([assembleAnalystRequest]), and the evidence records the run writes. *)

From S2P Require Import Prelude JsNumber JsDate Digest Contracts Plan Capability Json Mission Regex MemPolicy.
From S2P Require Import MemContext MemPort Model Faculty Identity Cognition.
Local Open Scope Z_scope.
Local Open Scope js_scope.

(** ** prompts.ts *)

Definition ANALYST_MAX_TOKENS : Z := 6144.
Definition REVIEWER_MAX_TOKENS : Z := 4096.

Definition bool_text (b : bool) : string := if b then "true" else "false".

Definition tree_line (e : TreeEntry) : string :=
  (if ge_isBlob e then "f" else "d") +:+ " " +:+ slice16 12 (ge_sha e) +:+ " " +:+ ge_path e.

Definition renderFacts (facts : GithubFacts) (factsDigest : string) : string :=
  join newline
    ["EVIDENCE (GitHub, read-only, digest " +:+ factsDigest +:+ ")";
     "repo: " +:+ gf_repo facts;
     "private: " +:+ bool_text (gf_private facts);
     "default branch: " +:+ gf_defaultBranch facts;
     "head sha: " +:+ gf_headSha facts;
     "head commit: " +:+ gf_headCommitDate facts +:+ " " +:+ gf_headCommitMessage facts;
     "language: " +:+ default "unknown" (gf_language facts);
     "size kb: " +:+ pretty (gf_sizeKb facts);
     "open issues: " +:+ pretty (gf_openIssues facts);
     "tree (kind, git object id prefix, path)" +:+
       (if gf_treeTruncated facts then " (TRUNCATED: only these paths are verifiable)" else EmptyString) +:+ ":";
     join newline (map tree_line (gf_tree facts));
     match gf_readme facts with
     | Some r => "readme (" +:+ rm_path r +:+ ", sha256 " +:+ rm_sha256 r +:+ "), first characters:" +:+ newline +:+ rm_excerpt r
     | None => "readme: none"
     end].

Definition findingsInstruction (contract : MissionContract) : string :=
  match requestedFindings contract with
  | Some n => "Return EXACTLY " +:+ pretty n +:+ " findings: no more and no fewer."
  | None => "Return between " +:+ pretty (minFindings contract) +:+ " and " +:+ pretty (maxFindings contract) +:+
            " findings; more than " +:+ pretty (maxFindings contract) +:+ " is rejected."
  end.

(** Texts of the prompts that hold double quotes are written here with the character ' in their place. *)
Definition quotes (s : string) : string := replace_char "'" (String dquote EmptyString) s.

Definition analystSystem (contract : MissionContract) : string :=
  join newline
    ["You are the analyst runtime in a KernelJSON repository-analysis mission.";
     "You see only the evidence provided. Do not invent files, commits or facts.";
     "Every finding must cite at least one tree entry as evidence. Copy its path exactly as written and its git object id prefix exactly as shown beside it; the kernel checks both against the captured commit.";
     "Reply with ONE JSON object and nothing else, in exactly this shape:";
     quotes "{'headSha': '<the head sha from the evidence>', 'summary': '<string>', 'findings': [{'title': '<string>', 'detail': '<string>', 'evidence': [{'path': '<tree path>', 'blobSha': '<its 12 character git object id prefix>'}]}]}";
     findingsInstruction contract;
     "Hard limits. Output that breaks any of them is rejected outright, so stay well inside them:";
     "summary at most 1500 characters; each title at most 100 characters; each detail at most 500 characters;";
     "each finding cites 1 to 8 evidence entries. Be concise."].

Definition REVIEWER_SYSTEM : string :=
  join newline
    ["You are the independent reviewer runtime in a KernelJSON repository-analysis mission.";
     "Check every finding of the analysis against the evidence. Trust nothing that the evidence does not show.";
     "Each finding cites tree entries; the kernel separately checks that those citations exist at the captured commit. Your job is different: judge whether what the finding CLAIMS is supported by what the evidence shows. A finding whose cited files are unrelated to its claim, or whose claim goes beyond the evidence, is unsupported.";
     "Reply with ONE JSON object and nothing else, in exactly this shape:";
     quotes "{'reviewedAnalysisSha256': '<the analysis digest, copied exactly>', 'verdict': 'approve' | 'approve_with_notes' | 'reject', 'unsupportedFindings': [<0-based indexes of findings the evidence does not support>], 'notes': ['<short string>']}";
     quotes "Use 'approve' only if every finding is supported by the evidence and unsupportedFindings is empty.";
     "Be concise. The JSON object is the entire answer: no text before or after it, no analysis outside it.";
     "unsupportedFindings holds indexes only, with no explanation.";
     "notes: at most 3 notes, each one sentence under 160 characters, saying only what changes or qualifies the verdict.";
     "Do not restate the findings or repeat the evidence. If every finding is supported, notes may be empty."].

(** The fields both prompts share. *)
Record PromptInput := {
  pr_callId : string; pr_taskId : string; pr_stepId : string; pr_trace : TraceRef; pr_facts : GithubFacts; pr_factsDigest : string
}.
Record AnalystInput := { an_common : PromptInput; an_question : string; an_contract : MissionContract; an_memory : string }.

Definition model_request (i : PromptInput) (maxTokens : Z) (system user : string) : result ModelRequest :=
  ModelRequest_parse
    {| mq_callId := pr_callId i; mq_taskId := pr_taskId i; mq_stepId := pr_stepId i; mq_trace := pr_trace i;
       mq_messages := [{| msg_role := R_system; msg_content := system |}; {| msg_role := R_user; msg_content := user |}];
       mq_maxOutputTokens := maxTokens |}.

Definition analystRequest (i : AnalystInput) : result ModelRequest :=
  let memory := if an_memory i === EmptyString then EmptyString else an_memory i +:+ newline +:+ newline in
  let c := an_common i in
  model_request c ANALYST_MAX_TOKENS (analystSystem (an_contract i))
    ("Question: " +:+ an_question i +:+ newline +:+ newline +:+ memory +:+ renderFacts (pr_facts c) (pr_factsDigest c)).

Definition reviewerRequest (c : PromptInput) (analysisText analysisDigest : string) : result ModelRequest :=
  model_request c REVIEWER_MAX_TOKENS REVIEWER_SYSTEM
    (join newline ["Analysis digest (copy exactly): " +:+ analysisDigest; "ANALYSIS (verbatim):"; analysisText; EmptyString;
                   renderFacts (pr_facts c) (pr_factsDigest c)]).

(** ** analyst-assembly.ts *)

(** The journalled state of a REQUIRED step could lack its pin; its use then throws. *)
Inductive AnalystCognition := COG_LEGACY | COG_NONE | COG_REQUIRED (pin : option CognitionPin).

Record AnalystAssemblyInput := {
  aa_request : AnalystInput; aa_recipe : string; aa_repo : string; aa_facultyPin : option FacultyPin;
  aa_cognition : AnalystCognition; aa_memoryAssemblyDigest : option string
}.
Record AssembledAnalystRequest := {
  as_request : ModelRequest; as_requestBytes : string; as_assemblyDigest : string; as_continuityDigest : string
}.

Definition is_legacy (c : AnalystCognition) : bool := match c with COG_LEGACY => true | _ => false end.
Definition is_required (c : AnalystCognition) : bool := match c with COG_REQUIRED _ => true | _ => false end.
Definition cognition_pin (c : AnalystCognition) : option CognitionPin := match c with COG_REQUIRED p => p | _ => None end.
Definition null_access : exn := Exn "TypeError" "Cannot read properties of null".
Definition cognition_mode (c : AnalystCognition) : string := match c with COG_REQUIRED _ => "REQUIRED" | _ => "NONE" end.

(** The identity block goes in front of the system message. *)
Definition with_identity (required : option CognitionPin) (base : ModelRequest) : result ModelRequest :=
  match mq_messages base with
  | [system; user] =>
      refuse_identity ((msg_role system === R_system) && (msg_role user === R_user)) "IDENTITY_ASSEMBLY_SHAPE_REFUSED";;
      pin ← (match required with Some p => Ok p | None => Throw null_access end);
      refuse_identity ((cp_taskId pin === mq_taskId base) && (cp_stepId pin === mq_stepId base)) "IDENTITY_PIN_BINDING_REFUSED";;
      block ← renderIdentityBlock (cp_projection pin) (cp_projectionDigest pin);
      ModelRequest_parse (with_messages base [{| msg_role := R_system; msg_content := block +:+ msg_content system |}; user])
  | _ => Throw (identity_refusal "IDENTITY_ASSEMBLY_SHAPE_REFUSED")
  end.

(** [memoryAssemblyDigest ? { assemblyDigest } : null] *)
Definition nonempty (o : option string) : option string := match o with Some EmptyString => None | _ => o end.

Definition assembleAnalystRequest (i : AnalystAssemblyInput) : result AssembledAnalystRequest :=
  refuse_identity (is_legacy (aa_cognition i) || bool_decide (is_Some (aa_facultyPin i))) "IDENTITY_FACULTY_PIN_REQUIRED";;
  base ← analystRequest (aa_request i);
  framed ← (if is_required (aa_cognition i) then with_identity (cognition_pin (aa_cognition i)) base else Ok base);
  request ← (match aa_facultyPin i with Some pin => projectFacultyRequest pin framed | None => Ok framed end);
  let system := match mq_messages request with m :: _ => msg_content m | [] => EmptyString end in
  refuse_identity (countIdentityBlocks system =? if is_required (aa_cognition i) then 1 else 0)
    "IDENTITY_ASSEMBLY_BLOCK_COUNT";;
  let assembly := assemblyDigestOf request in
  let continuity := continuityDigestOf
    {| cn_recipe := aa_recipe i; cn_question := an_question (aa_request i);
       cn_contractDigest := canonicalDigest (contract_json (an_contract (aa_request i))); cn_repo := aa_repo i;
       cn_factsDigest := pr_factsDigest (an_common (aa_request i));
       cn_faculty := (λ p, (enum_name FACULTY_IDS (fv_id (fp_faculty p)), fv_version (fp_faculty p), fp_facultyDigest p)) <$> aa_facultyPin i;
       cn_identity := (λ p, (cp_identityCoreDigest p, cp_projectionDigest p)) <$> cognition_pin (aa_cognition i);
       cn_memory := nonempty (aa_memoryAssemblyDigest i); cn_assemblyDigest := assembly |} in
  Ok {| as_request := request; as_requestBytes := canonical (request_json request); as_assemblyDigest := assembly;
        as_continuityDigest := continuity |}.

(** ** evidence.ts *)

Inductive RuntimeRole := ROLE_analyst | ROLE_reviewer.
Definition role_text (r : RuntimeRole) : string := match r with ROLE_analyst => "analyst" | ROLE_reviewer => "reviewer" end.
Definition ROLE_SOURCE (r : RuntimeRole) : string := match r with ROLE_analyst => SOURCE_analyst | ROLE_reviewer => SOURCE_reviewer end.

Record EvidenceBase := { ba_id : string; ba_task : string; ba_step : string; ba_capturedAt : string }.

Definition usage_json (u : ModelUsage) : json :=
  JObj [("inputTokens", JNum (mu_inputTokens u)); ("outputTokens", JNum (mu_outputTokens u)); ("totalTokens", JNum (mu_totalTokens u))].

Section evidence.
Context (url_ok : string → bool).

Definition evidence_of (b : EvidenceBase) (type : EvidenceType) (source digest : string) (metadata : fields) : result Evidence :=
  Evidence_parse url_ok
    {| ev_id := ba_id b; ev_taskId := ba_task b; ev_stepId := Some (ba_step b); ev_type := type; ev_source := source;
       ev_ref := None; ev_uri := None; ev_digest := Some digest; ev_capturedAt := ba_capturedAt b; ev_metadata := metadata |}.

Definition githubEvidence (b : EvidenceBase) (facts : GithubFacts) (factsDigest : string) : result Evidence :=
  evidence_of b TOOL_RECEIPT SOURCE_github factsDigest
    [("capability", JStr "github.read"); ("repo", JStr (gf_repo facts)); ("head_sha", JStr (gf_headSha facts));
     ("content_sha256", JStr factsDigest); ("facts", facts_json facts)].

Definition runtimeEvidence (b : EvidenceBase) (role : RuntimeRole) (text : string) (r : SuccessReceipt) (subjectDigest : string)
    (memoryContext faculty : option json) (cognition : fields) : result Evidence :=
  let base := sr_base r in
  evidence_of b ARTIFACT (ROLE_SOURCE role) (sha256Text text)
    ([("role", JStr (role_text role)); ("provider", JStr (rb_provider base)); ("model", JStr (rb_model base));
      ("response_model", JStr (sr_responseModel r)); ("provider_request_id", JStr (sr_providerRequestId r));
      ("call_id", JStr (rb_callId base)); ("request_digest", JStr (rb_requestDigest base));
      ("output_digest", JStr (sr_outputDigest r)); ("usage", usage_json (sr_usage r)); ("subject_digest", JStr subjectDigest);
      ("text", JStr text)]
     ++ match memoryContext with Some m => [("memory_context", m)] | None => [] end
     ++ match faculty with Some f => [("faculty", f)] | None => [] end
     ++ cognition).

Definition failureEvidence (b : EvidenceBase) (source : string) (metadata : fields) : result Evidence :=
  evidence_of b ARTIFACT source (capabilityDigest (JObj metadata)) metadata.

Definition reconcileEvidence (b : EvidenceBase) (rec : MissionReconciliation) : result Evidence :=
  match reconciliation_json rec with
  | JObj metadata => evidence_of b DETERMINISTIC_RESULT SOURCE_reconcile (capabilityDigest (reconciliation_json rec)) metadata
  | _ => Throw (zod_error "metadata")
  end.
End evidence.
