(* ===== verification/MissionRun.v ===== *)
(** * The run of a repository mission
    (services/kernel/src/mission/run.ts)

    [runRepoAnalysisMission] drives GITHUB_EVIDENCE, RUNTIME_ANALYSE, RUNTIME_REVIEW and
    RECONCILE over the operations of [MissionDeps]: the ledger ([emit]), the clock, fresh ids, the
    repository reader, the two model ports, and the optional memory, faculty and identity ports.
    Each is a state-passing program that may throw; what [ctx.run] journals is run once.  The
    variable evidenceIds is passed along as [ids]. *)

From S2P Require Import Prelude JsNumber JsDate Digest Contracts Plan Capability Json Mission Regex MemPolicy.
From S2P Require Import MemContext MemPort Model Faculty Identity Ledger Cognition Assembly.
Local Open Scope Z_scope.
Local Open Scope js_scope.

(** ** The interfaces of the run *)

(** The arguments of one [emit]. *)
Record Emission := {
  em_key : string; em_type : TaskEventType; em_status : TaskStatus; em_step : option TaskStep;
  em_evidence : option Evidence; em_outcome : option Outcome; em_payload : option json
}.

Record MissionNotice := { mn_taskId : string; mn_completed : bool; mn_at : string }.

Record FacultyPort (S : Type) := {
  fq_pin : PinInput → prog S FacultyPin;
  fq_authorize : FacultyPin → ModelRequest → prog S unit
}.
Record IdentityPort (S : Type) := {
  iq_latch : LatchInput → prog S CognitionState;
  iq_authorize : CognitionState → option FacultyPin → ModelRequest → string → prog S unit
}.
Arguments fq_pin {S}. Arguments fq_authorize {S}. Arguments iq_latch {S}. Arguments iq_authorize {S}.

Record MissionDeps (S : Type) := {
  md_emit : Emission → prog S (option Outcome);
  md_now : prog S string;
  md_clock : prog S string;                         (* new Date().toISOString() *)
  md_uuid : prog S string;
  md_githubRead : string → prog S (json * string);
  md_analyst : ModelRequest → prog S ModelCallResult;
  md_reviewer : ModelRequest → prog S ModelCallResult;
  md_memory : option (MissionMemoryRequest → prog S MissionMemoryContext);
  md_faculties : option (FacultyPort S);
  md_identity : option (IdentityPort S);
  md_recordModelCall : option (ModelCallBinding → string → prog S unit);
  md_notify : MissionNotice → prog S unit
}.
Arguments md_emit {S}. Arguments md_now {S}. Arguments md_clock {S}. Arguments md_uuid {S}. Arguments md_githubRead {S}.
Arguments md_analyst {S}. Arguments md_reviewer {S}. Arguments md_memory {S}. Arguments md_faculties {S}.
Arguments md_identity {S}. Arguments md_recordModelCall {S}. Arguments md_notify {S}.

(** [try ... catch]: the result as a value. *)
Definition attempt {S A} (m : prog S A) : prog S (result A) := λ s, match m s with (s', r) => (s', Ok r) end.

(** [error.code] of a FacultyRefusal or an IdentityCognitionRefusal. *)
Definition refused_code (e : exn) : option string :=
  if (exn_class e === "FacultyRefusal") || (exn_class e === "IdentityCognitionRefusal") then Some (exn_message e) else None.

(** [error instanceof Error && /^[A-Z_]{3,40}$/.test(error.message)]; the message of a ZodError is a JSON text and
    never of that shape. *)
Definition code_char (c : ascii) : bool := let n := N_of_ascii c in (((65 <=? n) && (n <=? 90)) || (n =? 95))%N.
Definition read_code (e : exn) : string :=
  let m := exn_message e in
  let n := Z.of_nat (String.length m) in
  if negb (bool_decide (exn_class e ∈ ["ZodError"; "UnknownError"])) && (3 <=? n) && (n <=? 40) && forallb code_char (String.list_ascii_of_string m)
  then m else "READ_FAILED".

(** [role.toUpperCase()] *)
Definition role_upper (r : RuntimeRole) : string := match r with ROLE_analyst => "ANALYST" | ROLE_reviewer => "REVIEWER" end.

(** [{ ...projectStep(node), ...patch }] *)
Definition patched_step (node : PlanStep) (status : TaskStatus) (output : option json) : result TaskStep :=
  s ← projectStep node;
  TaskStep_parse
    {| step_id := step_id s; step_taskId := step_taskId s; step_kind := step_kind s; step_status := status;
       step_dependencies := step_dependencies s; step_requiredCapabilities := step_requiredCapabilities s;
       step_riskClass := step_riskClass s; step_retryPolicy := step_retryPolicy s; step_timeout := step_timeout s;
       step_input := input_json (ps_input node); step_output := output; step_idempotencyKey := step_idempotencyKey s |}.

Section run.
Context {S : Type} (deps : MissionDeps S) (url_ok : string → bool) (toLowerCase : string → string).
Context (task : Task) (plan : ExecutionPlan).

Definition emit_event (key : string) (type : TaskEventType) (status : TaskStatus) (step : option TaskStep)
    (evidence : option Evidence) (outcome : option Outcome) (payload : option json) : prog S (option Outcome) :=
  md_emit deps {| em_key := key; em_type := type; em_status := status; em_step := step; em_evidence := evidence;
                  em_outcome := outcome; em_payload := payload |}.

Definition step_key (node : PlanStep) (what : string) : string := "step:" +:+ ps_id node +:+ ":" +:+ what.

Definition begin (node : PlanStep) : prog S unit :=
  step ← lift_result (patched_step node RUNNING None);
  emit_event (step_key node "start") STEP_STARTED RUNNING (Some step) None None None;;
  mret tt.

Definition complete (ids : list string) (node : PlanStep) (output : json) (evidence : Evidence) : prog S (list string) :=
  step ← lift_result (patched_step node COMPLETED (Some output));
  emit_event (step_key node "complete") STEP_COMPLETED RUNNING (Some step) (Some evidence) None (Some (JObj [("output", output)]));;
  mret (ids ++ [ev_id evidence]).

Definition notify (completed : bool) (at_ : string) : prog S unit :=
  attempt (md_notify deps {| mn_taskId := task_id task; mn_completed := completed; mn_at := at_ |});; mret tt.

(** The id and the time of a new record. *)
Definition fresh_base (node : PlanStep) : prog S EvidenceBase :=
  id ← md_uuid deps;
  at_ ← md_now deps;
  mret {| ba_id := id; ba_task := task_id task; ba_step := ps_id node; ba_capturedAt := at_ |}.

Definition failed_result (ids : list string) (at_ summary : string) : result Outcome :=
  Outcome_parse
    {| out_taskId := task_id task; out_status := O_FAILED;
       out_acceptanceResults := map (λ c, {| ar_criterion := c; ar_passed := false; ar_evidenceRefs := [] |})
         (task_acceptanceCriteria task);
       out_evidenceRefs := ids; out_summary := summary; out_completedAt := at_ |}.

(** The terminal FAILED emission and its notice. *)
Definition end_failed (ids : list string) (summary : string) (failures : list string) : prog S Outcome :=
  at_ ← md_now deps;
  outcome ← lift_result (failed_result ids at_ summary);
  emit_event "fail" TASK_FAILED FAILED None None (Some outcome) (Some (JObj [("failures", strings_json failures)]));;
  notify false at_;;
  mret outcome.

Definition abort (ids : list string) (node : PlanStep) (source : string) (metadata : fields) (reason : string) : prog S Outcome :=
  base ← fresh_base node;
  evidence ← lift_result (failureEvidence url_ok base source metadata);
  step ← lift_result (patched_step node FAILED (Some (JObj [("failure", JStr reason)])));
  emit_event (step_key node "failed") STEP_COMPLETED RUNNING (Some step) (Some evidence) None (Some (JObj [("failure", JStr reason)]));;
  end_failed (ids ++ [ev_id evidence]) ("mission FAILED: " +:+ reason) [reason].

(** [githubRead], the facts' schema and the digest comparison, all inside one try. *)
Definition read_facts (repo : string) : prog S (result (GithubFacts * string)) := attempt (
  r ← md_githubRead deps repo;
  facts ← lift_result (GithubFacts_parse r.1);
  let factsDigest := capabilityDigest (facts_json facts) in
  lift_result (ensure (factsDigest === r.2) (js_error "digest mismatch"));;
  mret (facts, factsDigest)).

(** *** The two runtimes *)

Record RuntimeHooks := {
  rh_authorize : option (ModelRequest → prog S unit);
  rh_record : option (ModelCallReceipt → prog S unit)
}.

Definition pin_provider (pin : FacultyPin) : string := enum_name PROVIDERS (fp_provider pin).

(** The failed answer the guarded port gives in the pinned route's name. *)
Definition refused_answer (pin : FacultyPin) (req : ModelRequest) (finishedAt : string) (e : ModelFailure) : ModelCallResult :=
  CallFailed
    {| fr_base := {| rb_callId := mq_callId req; rb_taskId := mq_taskId req; rb_stepId := mq_stepId req; rb_trace := mq_trace req;
                     rb_provider := pin_provider pin; rb_model := fp_model pin;
                     rb_requestDigest := call_digest (pin_provider pin) (fp_model pin) req;
                     rb_finishedAt := finishedAt; rb_durationMs := 0 |};
       fr_error := e |}.

Definition model_failure (code : ModelErrorCode) (retryable mayHaveRun : bool) : ModelFailure :=
  {| mf_code := code; mf_retryable := retryable; mf_mayHaveRun := mayHaveRun; mf_httpStatus := None |}.

Definition authorize_call_of (hooks : RuntimeHooks) (pin : FacultyPin) (req : ModelRequest) : prog S unit :=
  (match md_faculties deps with Some f => fq_authorize f pin req | None => mret tt end);;
  (match rh_authorize hooks with Some f => f req | None => mret tt end).

Definition guarded_port (port : ModelRequest → prog S ModelCallResult) (pin : FacultyPin) (hooks : RuntimeHooks)
    (req : ModelRequest) : prog S ModelCallResult :=
  allowed ← attempt (authorize_call_of hooks pin req);
  match allowed with
  | Throw e =>
      let refused := bool_decide (is_Some (refused_code e)) in
      at_ ← md_clock deps;
      mret (refused_answer pin req at_
              (model_failure (if refused then REQUEST_REJECTED else PROVIDER_UNAVAILABLE) (negb refused) false))
  | Ok _ =>
      answer ← port req;
      if (rb_provider (base_of answer) === pin_provider pin) && (rb_model (base_of answer) === fp_model pin) then mret answer
      else at_ ← md_clock deps; mret (refused_answer pin req at_ (model_failure UNSUPPORTED_RESPONSE false true))
  end.

(** The port the call goes through: guarded when there is a pin and something to ask. *)
Definition chosen_port (port : ModelRequest → prog S ModelCallResult) (pin : option FacultyPin) (hooks : RuntimeHooks)
  : ModelRequest → prog S ModelCallResult :=
  match pin with
  | Some p => if bool_decide (is_Some (md_faculties deps)) || bool_decide (is_Some (rh_authorize hooks)) then guarded_port port p hooks else port
  | None => port
  end.

Definition faculty_field (pin : option FacultyPin) : result fields :=
  match pin with Some p => f ← facultyEvidence p; Ok [("faculty", f)] | None => Ok [] end.

(** A runtime's answer, or the outcome of the mission it ended. *)
Inductive RuntimeAnswer :=
  | Answered (text : string) (receipt : SuccessReceipt)
  | EndedMission (outcome : Outcome).

Definition runRuntime {A} (ids : list string) (node : PlanStep) (role : RuntimeRole) (port : ModelRequest → prog S ModelCallResult)
    (build : prog S (result A)) (request_of : A → ModelRequest) (pin : option FacultyPin) (hooks : A → RuntimeHooks)
  : prog S (RuntimeAnswer * option A) :=
  begin node;;
  built ← build;
  match built with
  | Throw e =>
      let code := default "PROMPT_TOO_LARGE" (refused_code e) in
      f ← lift_result (faculty_field pin);
      o ← abort ids node (ROLE_SOURCE role) ([("role", JStr (role_text role)); ("error", JStr code)] ++ f)
            (role_upper role +:+ "_" +:+ code);
      mret (EndedMission o, None)
  | Ok a =>
      answer ← callModel (chosen_port port pin (hooks a)) (default (λ _, mret tt) (rh_record (hooks a))) (request_of a);
      match answer with
      | CallFailed r =>
          let e := fr_error r in
          f ← lift_result (faculty_field pin);
          o ← abort ids node (ROLE_SOURCE role)
                ([("role", JStr (role_text role)); ("provider", JStr (rb_provider (fr_base r))); ("model", JStr (rb_model (fr_base r)));
                  ("call_id", JStr (rb_callId (fr_base r))); ("request_digest", JStr (rb_requestDigest (fr_base r)));
                  ("error", JStr (error_code_name (mf_code e))); ("retryable", JBool (mf_retryable e));
                  ("may_have_run", JBool (mf_mayHaveRun e)); ("http_status", opt_json JNum (mf_httpStatus e))] ++ f)
                (role_upper role +:+ "_" +:+ error_code_name (mf_code e));
          mret (EndedMission o, Some a)
      | CallSucceeded text r => mret (Answered text r, Some a)
      end
  end.

(** *** The faculty pins and the identity latch *)

(** A pin, or the code of the refusal; anything else that is thrown leaves the run. *)
Definition ask_pin (f : FacultyPort S) (node : PlanStep) : prog S (FacultyPin + string) :=
  r ← attempt (fq_pin f {| pi_tenantId := task_tenant task; pi_taskId := task_id task; pi_stepId := ps_id node |});
  match r with
  | Ok p => mret (inl p)
  | Throw e => if exn_class e === "FacultyRefusal" then mret (inr (exn_message e)) else throw_st e
  end.

Definition ask_latch (i : IdentityPort S) (node : PlanStep) (pin : option FacultyPin) : prog S (CognitionState + string) :=
  r ← attempt (iq_latch i {| li_tenantId := task_tenant task; li_taskId := task_id task; li_stepId := ps_id node; li_facultyPin := pin |});
  match r with
  | Ok s => mret (inl s)
  | Throw e => if exn_class e === "IdentityCognitionRefusal" then mret (inr (exn_message e)) else throw_st e
  end.

Definition refuse_step (ids : list string) (node : PlanStep) (role : RuntimeRole) (code : string) : prog S Outcome :=
  begin node;; abort ids node (ROLE_SOURCE role) [("role", JStr (role_text role)); ("error", JStr code)] code.

(** Both pins, or the outcome of the mission a refusal ended. *)
Definition select_pins (ids : list string) (analyst reviewer : PlanStep) : prog S (option FacultyPin * option FacultyPin + Outcome) :=
  match md_faculties deps with
  | None => mret (inl (None, None))
  | Some f =>
      a ← ask_pin f analyst;
      match a with
      | inr code => o ← refuse_step ids analyst ROLE_analyst code; mret (inr o)
      | inl pa =>
          r ← ask_pin f reviewer;
          match r with
          | inr code => o ← refuse_step ids reviewer ROLE_reviewer code; mret (inr o)
          | inl pr => mret (inl (Some pa, Some pr))
          end
      end
  end.

Definition select_cognition (ids : list string) (analyst : PlanStep) (pin : option FacultyPin) : prog S (option CognitionState + Outcome) :=
  match md_identity deps with
  | None => mret (inl None)
  | Some i =>
      l ← ask_latch i analyst pin;
      match l with
      | inl s => mret (inl (Some s))
      | inr code => o ← refuse_step ids analyst ROLE_analyst code; mret (inr o)
      end
  end.

Definition is_contract (s : option CognitionState) : bool := match s with Some (S_CONTRACT _ _ _) => true | _ => false end.

Definition analyst_cognition (s : option CognitionState) : AnalystCognition :=
  match s with
  | Some (S_CONTRACT _ l pin) => if la_mode l === "NONE" then COG_NONE else COG_REQUIRED pin
  | _ => COG_LEGACY
  end.

(** *** The memory context *)

Definition memory_wanted (pin : option FacultyPin) : bool :=
  match pin with
  | None => true
  | Some p => negb (bool_decide (fv_permittedMemoryClasses (fp_faculty p) = [])) &&
              (0 <? fc_maxMemoryTokens (fv_contextBudget (fp_faculty p)))
  end.

Definition UNAVAILABLE_MEMORY : MissionMemoryContext :=
  {| mmc_status := PORT_UNAVAILABLE; mmc_assemblyId := None; mmc_digest := None; mmc_text := EmptyString; mmc_memories := [];
     mmc_externalCount := 0; mmc_usedTokens := 0 |}.

Definition memory_context (analyst : PlanStep) (callId question repo : string) (pin : option FacultyPin)
  : prog S (option MissionMemoryContext) :=
  match md_memory deps with
  | Some assemble =>
      if memory_wanted pin then
        r ← attempt (assemble
          {| mm_tenantId := task_tenant task; mm_principal := task_principal task; mm_taskId := task_id task;
             mm_stepId := ps_id analyst; mm_callId := callId; mm_purpose := question; mm_project := repo;
             mm_allowedClasses := (λ p, fv_permittedMemoryClasses (fp_faculty p)) <$> pin;
             mm_maxTokens := (λ p, fc_maxMemoryTokens (fv_contextBudget (fp_faculty p))) <$> pin |});
        mret (Some (match r with Ok c => c | Throw _ => UNAVAILABLE_MEMORY end))
      else mret None
  | None => mret None
  end.

(** *** The analyst *)

Definition record_call (cognition : AnalystCognition) (a : AssembledAnalystRequest) (write : ModelCallBinding → string → prog S unit)
    (receipt : ModelCallReceipt) : prog S unit :=
  let bind status base :=
    b ← lift_result (ModelCallBinding_parse (call_binding_json
      {| mb_task_id := rb_taskId base; mb_step_id := rb_stepId base; mb_call_id := rb_callId base; mb_provider := rb_provider base;
         mb_model := rb_model base; mb_status := status; mb_request_digest := rb_requestDigest base;
         mb_assembly_digest := as_assemblyDigest a; mb_continuity_digest := as_continuityDigest a; mb_mode := cognition_mode cognition |}));
    write b (rb_finishedAt base) in
  match receipt with
  | SucceededReceipt r => bind "SUCCEEDED" (sr_base r)
  | FailedCallReceipt r => if mf_mayHaveRun (fr_error r) then bind "FAILED" (fr_base r) else mret tt
  end.

Definition analyst_hooks (state : option CognitionState) (cognition : AnalystCognition) (pin : option FacultyPin)
    (a : AssembledAnalystRequest) : RuntimeHooks :=
  {| rh_authorize := match md_identity deps, state with
       | Some i, Some s => Some (λ req, iq_authorize i s pin req (as_assemblyDigest a))
       | _, _ => None
       end;
     rh_record := match md_recordModelCall deps with
       | Some write => if is_contract state then Some (record_call cognition a write) else None
       | None => None
       end |}.

Definition cognition_fields (state : option CognitionState) (cognition : AnalystCognition) (a : AssembledAnalystRequest)
  : result fields :=
  if is_contract state then
    identity ← (match cognition with
      | COG_REQUIRED (Some p) => provenanceOf p | COG_REQUIRED None => Throw null_access | _ => Ok JNull end);
    Ok [("identity", identity); ("identity_cognition_mode", JStr (cognition_mode cognition));
        ("assembly_digest", JStr (as_assemblyDigest a)); ("continuity_digest", JStr (as_continuityDigest a))]
  else Ok [].

Definition no_hooks {A} (_ : A) : RuntimeHooks := {| rh_authorize := None; rh_record := None |}.

(** What the analyst left: its answer and the ids so far, or the outcome of the mission. *)
Definition run_analyst (ids : list string) (analyst : PlanStep) (trace : TraceRef) (objective : MissionObjective)
    (facts : GithubFacts) (factsDigest : string) (pin : option FacultyPin) (state : option CognitionState)
  : prog S ((string * SuccessReceipt * list string) + Outcome) :=
  let cognition := analyst_cognition state in
  callId ← md_uuid deps;
  memory ← memory_context analyst callId (mo_question objective) (mo_repo objective) pin;
  let build := assembleAnalystRequest
    {| aa_request := {| an_common := {| pr_callId := callId; pr_taskId := task_id task; pr_stepId := ps_id analyst; pr_trace := trace;
                                        pr_facts := facts; pr_factsDigest := factsDigest |};
                        an_question := mo_question objective; an_contract := mo_contract objective;
                        an_memory := match memory with Some m => mmc_text m | None => EmptyString end |};
       aa_recipe := recipe_name (plan_recipe plan); aa_repo := mo_repo objective; aa_facultyPin := pin; aa_cognition := cognition;
       aa_memoryAssemblyDigest := memory ≫= mmc_digest |} in
  r ← runRuntime ids analyst ROLE_analyst (md_analyst deps) (mret build) as_request pin (analyst_hooks state cognition pin);
  match r with
  | (EndedMission o, _) => mret (inr o)
  | (Answered text receipt, Some a) =>
      base ← fresh_base analyst;
      faculty ← lift_result (match pin with Some p => f ← facultyEvidence p; Ok (Some f) | None => Ok None end);
      fields ← lift_result (cognition_fields state cognition a);
      evidence ← lift_result (runtimeEvidence url_ok base ROLE_analyst text receipt factsDigest (memoryEvidence <$> memory) faculty fields);
      ids' ← complete ids analyst (runtime_output (sha256Text text)) evidence;
      mret (inl (text, receipt, ids'))
  | (Answered _ _, None) => throw_st null_access
  end.

(** *** The reviewer *)

Definition reviewer_build (reviewer : PlanStep) (trace : TraceRef) (facts : GithubFacts) (factsDigest analysisText : string)
    (pin : option FacultyPin) : prog S (result ModelRequest) := attempt (
  callId ← md_uuid deps;
  request ← lift_result (reviewerRequest
    {| pr_callId := callId; pr_taskId := task_id task; pr_stepId := ps_id reviewer; pr_trace := trace; pr_facts := facts;
       pr_factsDigest := factsDigest |} analysisText (sha256Text analysisText));
  lift_result (match pin with Some p => projectFacultyRequest p request | None => Ok request end)).

Definition run_reviewer (ids : list string) (reviewer : PlanStep) (trace : TraceRef) (facts : GithubFacts)
    (factsDigest analysisText : string) (pin : option FacultyPin) (state : option CognitionState)
  : prog S ((string * SuccessReceipt * list string) + Outcome) :=
  r ← runRuntime ids reviewer ROLE_reviewer (md_reviewer deps) (reviewer_build reviewer trace facts factsDigest analysisText pin)
        id pin no_hooks;
  match r with
  | (EndedMission o, _) => mret (inr o)
  | (Answered text receipt, _) =>
      base ← fresh_base reviewer;
      faculty ← lift_result (match pin with Some p => f ← facultyEvidence p; Ok (Some f) | None => Ok None end);
      let fields := if is_contract state then [("identity_cognition_mode", JStr "NONE")] else [] in
      evidence ← lift_result (runtimeEvidence url_ok base ROLE_reviewer text receipt (sha256Text analysisText) None faculty fields);
      ids' ← complete ids reviewer (runtime_output (sha256Text text)) evidence;
      mret (inl (text, receipt, ids'))
  end.

(** *** The kernel's judgement *)

Definition reconcile_input (facts : GithubFacts) (contract : MissionContract) (analysisText : string) (a : SuccessReceipt)
    (reviewText : string) (r : SuccessReceipt) : ReconcileInput :=
  {| ri_facts := facts; ri_contract := contract; ri_analysisText := analysisText; ri_analystModel := sr_responseModel a;
     ri_analystProvider := rb_provider (sr_base a); ri_reviewText := reviewText; ri_reviewerModel := sr_responseModel r;
     ri_reviewerProvider := rb_provider (sr_base r) |}.

Definition completed_result (ids : list string) (summary at_ : string) : result Outcome :=
  Outcome_parse
    {| out_taskId := task_id task; out_status := O_COMPLETED;
       out_acceptanceResults := map (λ c, {| ar_criterion := c; ar_passed := true; ar_evidenceRefs := ids |}) (task_acceptanceCriteria task);
       out_evidenceRefs := ids; out_summary := summary; out_completedAt := at_ |}.

Definition conclude (ids : list string) (rec : MissionReconciliation) (analysisText : string) : prog S Outcome :=
  if negb (mc_accepted rec) then
    end_failed ids ("mission REJECTED: " +:+ join "," (failedCheckNames rec)) (failedCheckNames rec)
  else
    emit_event "verify" TASK_VERIFYING VERIFYING None None None None;;
    match parseAnalysis analysisText with
    | None => throw_st null_access
    | Some analysis =>
        at_ ← md_now deps;
        candidate ← lift_result (completed_result ids (missionSummary analysis) at_);
        stored ← emit_event "complete" TASK_COMPLETED COMPLETED None None (Some candidate) None;
        let finished := default candidate stored in
        notify (out_status finished === O_COMPLETED) (out_completedAt finished);;
        mret finished
    end.

Definition run_reconcile (ids : list string) (reconcile : PlanStep) (input : ReconcileInput) : prog S Outcome :=
  begin reconcile;;
  rec ← lift_result (reconcileMission toLowerCase input);
  base ← fresh_base reconcile;
  evidence ← lift_result (reconcileEvidence url_ok base rec);
  ids' ← complete ids reconcile (reconcile_output (mc_accepted rec)) evidence;
  conclude ids' rec (ri_analysisText input).

(** *** The mission *)

(** After the repository evidence. *)
Definition run_runtimes (ids : list string) (objective : MissionObjective) (facts : GithubFacts) (factsDigest : string)
    (trace : TraceRef) (analyst reviewer reconcile : PlanStep) : prog S Outcome :=
  pins ← select_pins ids analyst reviewer;
  match pins with
  | inr o => mret o
  | inl (pa, pr) =>
      state ← select_cognition ids analyst pa;
      match state with
      | inr o => mret o
      | inl state =>
          a ← run_analyst ids analyst trace objective facts factsDigest pa state;
          match a with
          | inr o => mret o
          | inl (analysisText, ra, ids) =>
              r ← run_reviewer ids reviewer trace facts factsDigest analysisText pr state;
              match r with
              | inr o => mret o
              | inl (reviewText, rr, ids) =>
                  run_reconcile ids reconcile (reconcile_input facts (mo_contract objective) analysisText ra reviewText rr)
              end
          end
      end
  end.

Definition runRepoAnalysisMission : prog S Outcome :=
  objective ← lift_result (parseMissionObjective (task_objective task));
  nodes ← lift_result (orderedSteps plan);
  match nodes with
  | github :: analyst :: reviewer :: reconcile :: _ =>
      let trace := {| tr_traceId := task_traceId task; tr_correlationId := task_id task; tr_spanId := None |} in
      begin github;;
      read ← read_facts (mo_repo objective);
      match read with
      | Throw e =>
          let code := read_code e in
          abort [] github SOURCE_github [("repo", JStr (mo_repo objective)); ("error", JStr code)] ("GITHUB_" +:+ code)
      | Ok (facts, factsDigest) =>
          base ← fresh_base github;
          evidence ← lift_result (githubEvidence url_ok base facts factsDigest);
          ids ← complete [] github (github_output (gf_headSha facts) factsDigest) evidence;
          run_runtimes ids objective facts factsDigest trace analyst reviewer reconcile
      end
  | _ => throw_st (Exn "TypeError" "Cannot read properties of undefined")
  end.
End run.
