(* ===== verification/MissionRunFacts.v ===== *)
(** * What a mission run emits

    The operations of the run are known by what they add to the ledger's log of emissions:
    only [emit] adds one.  Over any such world the run, when it returns, has emitted one
    terminal event, as the last one, and has asked for COMPLETED only after the whole chain of
    evidence and an accepted reconciliation of the recorded texts. *)

From S2P Require Import Prelude JsNumber JsDate Digest Contracts Plan Capability Json Mission Regex MemPolicy.
From S2P Require Import MemContext MemPort Model Faculty Identity Ledger Cognition Assembly MissionRun.
Local Open Scope Z_scope.
Local Open Scope js_scope.

(** ** A world with a log *)

(** [m] takes a state only to states that [R] relates to it, whether it returns or throws. *)
Definition silent {S A} (R : S → S → Prop) (m : prog S A) : Prop := ∀ s, R s (m s).1.

(** Every operation of the mission but [emit] is silent. *)
Class QuietDeps {S} (deps : MissionDeps S) (R : S → S → Prop) : Prop := {
  qd_order :: PreOrder R;
  qd_now : silent R (md_now deps);
  qd_clock : silent R (md_clock deps);
  qd_uuid : silent R (md_uuid deps);
  qd_githubRead repo : silent R (md_githubRead deps repo);
  qd_analyst r : silent R (md_analyst deps r);
  qd_reviewer r : silent R (md_reviewer deps r);
  qd_memory f r : md_memory deps = Some f → silent R (f r);
  qd_pin f i : md_faculties deps = Some f → silent R (fq_pin f i);
  qd_authorize f p r : md_faculties deps = Some f → silent R (fq_authorize f p r);
  qd_latch f i : md_identity deps = Some f → silent R (iq_latch f i);
  qd_iauthorize f s p r d : md_identity deps = Some f → silent R (iq_authorize f s p r d);
  qd_record f b at_ : md_recordModelCall deps = Some f → silent R (f b at_);
  qd_notify n : silent R (md_notify deps n)
}.

Definition same_log {S} (log : S → list Emission) (s s' : S) : Prop := log s' = log s.

#[export] Instance same_log_order {S} (log : S → list Emission) : PreOrder (same_log log).
Proof. split; [by intros s|]. intros s1 s2 s3 H1 H2. unfold same_log in *. congruence. Qed.

Class LoggedDeps {S} (deps : MissionDeps S) (log : S → list Emission) : Prop := {
  ld_quiet :: QuietDeps deps (same_log log);
  ld_emit e s s' r : md_emit deps e s = (s', Ok r) → log s' = log s ++ [e]
}.

Section silent.
Context {S : Type} (R : S → S → Prop) `{!PreOrder R}.

Lemma silent_ret {A} (a : A) : silent R (mret a).
Proof. intros s. reflexivity. Qed.
Lemma silent_lift {A} (r : result A) : silent R (lift_result r).
Proof. intros s. reflexivity. Qed.
Lemma silent_throw {A} e : silent R (throw_st e : prog S A).
Proof. intros s. reflexivity. Qed.
Lemma silent_bind {A B} (m : prog S A) (k : A → prog S B) : silent R m → (∀ a, silent R (k a)) → silent R (m ≫= k).
Proof.
  intros Hm Hk s. unfold mbind, prog_bind. specialize (Hm s). destruct (m s) as [s1 [a|e]]; cbn in *; [|done].
  etrans; [exact Hm|apply Hk].
Qed.
Lemma silent_attempt {A} (m : prog S A) : silent R m → silent R (attempt m).
Proof. intros Hm s. unfold attempt. specialize (Hm s). by destruct (m s). Qed.
End silent.

Create HintDb silent discriminated.
#[export] Hint Constants Opaque : silent.
#[export] Hint Resolve qd_now qd_clock qd_uuid qd_githubRead qd_analyst qd_reviewer
  qd_memory qd_pin qd_authorize qd_latch qd_iauthorize qd_record qd_notify : silent.

(** Goes through a program and leaves the operations the hints do not know. *)
Ltac silent_step :=
  lazymatch goal with
  | |- silent _ ((match ?x with _ => _ end) ≫= _) => destruct x eqn:?
  | |- silent ?R (_ ≫= _) => apply (silent_bind R); [|intros ?]
  | |- silent ?R (attempt _) => apply (silent_attempt R)
  | |- silent ?R (mret _) => apply (silent_ret R)
  | |- silent ?R (lift_result _) => apply (silent_lift R)
  | |- silent ?R (throw_st _) => apply (silent_throw R)
  | |- silent _ (match ?x with _ => _ end) => destruct x eqn:?
  | |- _ => solve [eauto with silent]
  end.
Ltac silent := repeat (cbv beta; silent_step).

Lemma callModel_silent {S} (R : S → S → Prop) `{!PreOrder R} port record request : (∀ r, silent R (port r)) → (∀ r, silent R (record r)) →
  silent R (callModel port record request).
Proof. 
  intros Hp Hr. unfold callModel. apply (silent_bind R); [silent|]. intros q. apply (silent_bind R); [|intros a; silent; apply Hr].
  intros s. pose proof (Hp q s) as H. unfold mbind, prog_bind, lift_result. destruct (port q s) as [s1 [a|e]]; cbn in *; [|done].
  by destruct (validateModelResult q a).
 Qed.

Section quiet.
Context {S : Type} (deps : MissionDeps S) (R : S → S → Prop) `{!QuietDeps deps R} (task : Task).

Definition silent_hooks (h : RuntimeHooks (S := S)) : Prop :=
  (∀ f r, rh_authorize h = Some f → silent R (f r)) ∧ (∀ f r, rh_record h = Some f → silent R (f r)).

Lemma notify_silent c at_ : silent R (notify deps task c at_).
Proof. unfold notify. silent. Qed.

Lemma fresh_silent node : silent R (fresh_base deps task node).
Proof. unfold fresh_base. silent. Qed.

Lemma guarded_silent port pin h req : (∀ r, silent R (port r)) → silent_hooks h → silent R (guarded_port deps port pin h req).
Proof. intros Hp [Ha Hr]. unfold guarded_port, authorize_call_of. silent. Qed.

Lemma chosen_silent port pin h req : (∀ r, silent R (port r)) → silent_hooks h → silent R (chosen_port deps port pin h req).
Proof. intros Hp Hh. unfold chosen_port. destruct pin; [|apply Hp]. destruct (_ || _); [by apply guarded_silent|apply Hp]. Qed.

Lemma call_silent port pin h request : (∀ r, silent R (port r)) → silent_hooks h →
  silent R (callModel (chosen_port deps port pin h) (default (λ _, mret tt) (rh_record h)) request).
Proof.
  intros Hp Hh. apply (callModel_silent R); [intros r; by apply chosen_silent|]. intros r. destruct Hh as [_ Hr].
  destruct (rh_record h) as [f|]; [by apply Hr|apply (silent_ret R)].
Qed.

Lemma ask_pin_silent f node : md_faculties deps = Some f → silent R (ask_pin task f node).
Proof. intros Hf. unfold ask_pin. silent. Qed.

Lemma ask_latch_silent f node pin : md_identity deps = Some f → silent R (ask_latch task f node pin).
Proof. intros Hf. unfold ask_latch. silent. Qed.

Lemma memory_silent analyst callId question repo pin : silent R (memory_context deps task analyst callId question repo pin).
Proof. unfold memory_context. silent. Qed.

Lemma analyst_hooks_silent state cognition pin a : silent_hooks (analyst_hooks deps state cognition pin a).
Proof. 
  unfold analyst_hooks. split; cbn; intros f r.
  - destruct (md_identity deps) as [i|] eqn:Ei; [|done]. destruct state; [|done]. intros [= <-]. silent.
  - destruct (md_recordModelCall deps) as [w|] eqn:Ew; [|done]. destruct (is_contract state); [|done]. intros [= <-].
    unfold record_call. cbv zeta. silent.
 Qed.

Lemma reviewer_build_silent reviewer trace facts fd text pin : silent R (reviewer_build deps task reviewer trace facts fd text pin).
Proof. unfold reviewer_build. silent. Qed.

Lemma read_facts_silent repo : silent R (read_facts deps repo).
Proof. unfold read_facts. silent. Qed.
End quiet.

(** [m] adds emissions that stand in [Q] with what it returns. *)
Definition emits {S A} (log : S → list Emission) (m : prog S A) (Q : list Emission → A → Prop) : Prop :=
  ∀ s s' a, m s = (s', Ok a) → ∃ es, log s' = log s ++ es ∧ Q es a.

Section hoare.
Context {S : Type} (log : S → list Emission).

Lemma emits_ret {A} (a : A) Q : Q [] a → emits log (mret a) Q.
Proof. intros HQ s s' b [-> ->]%ret_ok. exists []. by rewrite app_nil_r. Qed.

Lemma emits_throw {A} e Q : emits log (throw_st e : prog S A) Q.
Proof. by intros s s' a. Qed.

Lemma emits_lift {A} (r : result A) Q : (∀ a, r = Ok a → Q [] a) → emits log (lift_result r) Q.
Proof. intros HQ s s' a [-> Hr]%lift_ok. exists []. rewrite app_nil_r. auto. Qed.

Lemma emits_silent {A} (m : prog S A) (Q : list Emission → A → Prop) : silent (same_log log) m → (∀ a, Q [] a) → emits log m Q.
Proof. intros Hm HQ s s' a H. exists []. rewrite app_nil_r. split; [|done]. specialize (Hm s). by rewrite H in Hm. Qed.

Lemma emits_bind {A B} (m : prog S A) (k : A → prog S B) P Q :
  emits log m P → (∀ es a, P es a → emits log (k a) (λ es' b, Q (es ++ es') b)) → emits log (m ≫= k) Q.
Proof.
  intros Hm Hk s s' b (a & s1 & H1 & H2)%pbind_ok. apply Hm in H1 as (es & E1 & HP).
  apply (Hk _ _ HP) in H2 as (es' & E2 & HQ). exists (es ++ es'). split; [|done]. by rewrite E2, E1, app_assoc.
Qed.

Lemma emits_mono {A} (m : prog S A) (P Q : list Emission → A → Prop) : emits log m P → (∀ es a, P es a → Q es a) → emits log m Q.
Proof. intros Hm HPQ s s' a H. apply Hm in H as (es & ? & ?). exists es. auto. Qed.

(** A step that emits nothing before the rest. *)
Lemma emits_then {A B} (m : prog S A) (k : A → prog S B) Q : silent (same_log log) m → (∀ a, emits log (k a) Q) → emits log (m ≫= k) Q.
Proof. intros Hm Hk. eapply (emits_bind m k (λ es _, es = [])); [by apply emits_silent|]. by intros es a ->. Qed.

Lemma emits_lift_then {A B} (r : result A) (k : A → prog S B) Q : (∀ a, r = Ok a → emits log (k a) Q) → emits log (lift_result r ≫= k) Q.
Proof.
  intros Hk. eapply (emits_bind _ k (λ es a, es = [] ∧ r = Ok a)); [by apply emits_lift|]. intros es a [-> Hr]. by apply Hk.
Qed.

End hoare.

(** ** The emissions of a step and of the end *)

Definition plain_emission (key : string) (type : TaskEventType) (status : TaskStatus) (step : option TaskStep)
    (evidence : option Evidence) (outcome : option Outcome) (payload : option json) : Emission :=
  {| em_key := key; em_type := type; em_status := status; em_step := step; em_evidence := evidence; em_outcome := outcome;
     em_payload := payload |}.

Definition started (node : PlanStep) (e : Emission) : Prop :=
  ∃ st, patched_step node RUNNING None = Ok st ∧
    e = plain_emission (step_key node "start") STEP_STARTED RUNNING (Some st) None None None.

(** The emission of a finished step: the step's row and its evidence. *)
Definition finished (node : PlanStep) (output : json) (ev : Evidence) (st : TaskStep) (e : Emission) : Prop :=
  patched_step node COMPLETED (Some output) = Ok st ∧
  e = plain_emission (step_key node "complete") STEP_COMPLETED RUNNING (Some st) (Some ev) None (Some (JObj [("output", output)])).

Definition quiet (e : Emission) : Prop := em_outcome e = None ∧ (em_status e = RUNNING ∨ em_status e = VERIFYING).

(** The emissions of a mission that ended FAILED with the outcome [o]. *)
Definition ended_failed (taskId : string) (es : list Emission) (o : Outcome) : Prop :=
  ∃ es0 payload, es = es0 ++ [plain_emission "fail" TASK_FAILED FAILED None None (Some o) payload] ∧ Forall quiet es0 ∧
    out_status o = O_FAILED ∧ out_taskId o = taskId ∧ Forall (λ r, ar_passed r = false) (out_acceptanceResults o).

Lemma started_quiet node e : started node e → quiet e.
Proof. intros (st & _ & ->). split; [done|by left]. Qed.
Lemma finished_quiet node output ev st e : finished node output ev st e → quiet e.
Proof. intros (_ & ->). split; [done|by left]. Qed.

Lemma ended_app t es es' o : Forall quiet es → ended_failed t es' o → ended_failed t (es ++ es') o.
Proof.
  intros Hq (es0 & p & -> & Hq' & H). exists (es ++ es0), p. rewrite app_assoc. split; [done|]. split; [by apply Forall_app|done].
Qed.

Lemma AcceptanceResult_parse_passed r r' : AcceptanceResult_parse r = Ok r' → ar_passed r' = ar_passed r.
Proof. unfold AcceptanceResult_parse, ok_or. intros (c & _ & H)%bind_ok. by apply ensure_ok in H as [_ <-%Ok_inj]. Qed.

Lemma parsed_passed b l l' : parse_all AcceptanceResult_parse l = Ok l' → Forall (λ r, ar_passed r = b) l → Forall (λ r, ar_passed r = b) l'.
Proof.
  revert l'. induction l as [|r l IH]; intros l'; cbn [parse_all]; [by intros <-%Ok_inj|].
  intros (y & Hy & (ys & Hys & <-%Ok_inj)%bind_ok)%bind_ok [Hr Hl]%Forall_cons. constructor; [|by apply IH].
  by rewrite (AcceptanceResult_parse_passed _ _ Hy).
Qed.

Section run.
Context {S : Type} (deps : MissionDeps S) (log : S → list Emission) `{!LoggedDeps deps log}.
Context (url_ok : string → bool) (toLowerCase : string → string) (task : Task) (plan : ExecutionPlan).

Lemma emit_emits key type status step ev o p :
  emits log (emit_event deps key type status step ev o p) (λ es _, es = [plain_emission key type status step ev o p]).
Proof. intros s s' r H. apply ld_emit in H. eauto. Qed.

Lemma begin_emits node : emits log (begin deps node) (λ es _, ∃ e, es = [e] ∧ started node e).
Proof.
  apply emits_lift_then. intros st Hst. eapply emits_bind; [apply emit_emits|]. intros es r ->. apply emits_ret.
  eexists. split; [done|]. by exists st.
Qed.

Lemma complete_emits ids node output ev :
  emits log (complete deps ids node output ev) (λ es ids', ids' = ids ++ [ev_id ev] ∧ ∃ st e, es = [e] ∧ finished node output ev st e).
Proof.
  apply emits_lift_then. intros st Hst. eapply emits_bind; [apply emit_emits|]. intros es r ->. apply emits_ret.
  split; [done|]. exists st. by eexists.
Qed.

Lemma fresh_emits node : emits log (fresh_base deps task node) (λ es b, es = [] ∧ ba_task b = task_id task ∧ ba_step b = ps_id node).
Proof.
  apply emits_then; [apply qd_uuid|]. intros id. apply emits_then; [apply qd_now|]. intros at_. by apply emits_ret.
Qed.

Lemma end_failed_emits ids summary failures :
  emits log (end_failed deps task ids summary failures) (ended_failed (task_id task)).
Proof.
  apply emits_then; [apply qd_now|]. intros at_. apply emits_lift_then. intros o Ho.
  eapply emits_bind; [apply emit_emits|]. intros es r ->. apply emits_then; [apply (notify_silent deps (same_log log))|]. intros []. apply emits_ret.
  apply Outcome_parse_same in Ho as (Hs & Ht & _ & Hr & _). exists []. eexists. split; [done|]. split; [constructor|].
  split; [done|]. split; [done|]. apply (parsed_passed _ _ _ Hr). apply Forall_map, Forall_true. done.
Qed.

Lemma abort_emits ids node source md reason :
  emits log (abort deps url_ok task ids node source md reason) (ended_failed (task_id task)).
Proof.
  apply emits_then; [apply (fresh_silent deps (same_log log))|]. intros b. apply emits_lift_then. intros ev _. apply emits_lift_then. intros st _.
  eapply emits_bind; [apply emit_emits|]. intros es r ->. eapply emits_mono; [apply end_failed_emits|].
  intros es o Ho. apply (ended_app _ [_]); [|done]. repeat constructor.
Qed.

Lemma refuse_emits ids node role code :
  emits log (refuse_step deps url_ok task ids node role code) (ended_failed (task_id task)).
Proof.
  eapply emits_bind; [apply begin_emits|]. intros es [] (e & -> & He). eapply emits_mono; [apply abort_emits|].
  intros es o Ho. apply (ended_app _ [_]); [|done]. constructor; [by eapply started_quiet|constructor].
Qed.

(** *** A call of a model *)




(** What the call returns has passed the schema of a result. *)
Lemma callModel_parsed {T} (port : ModelRequest → prog T ModelCallResult) record request s s' r :
  callModel port record request s = (s', Ok r) → ∃ x, ModelCallResult_parse x = Ok r.
Proof.
  unfold callModel. intros (q & s1 & _ & (a & s2 & _ & (b & s3 & [_ Hb]%lift_ok & ([] & s4 & _ & [_ <-]%ret_ok)%pbind_ok)%pbind_ok)%pbind_ok)%pbind_ok.
  eauto.
Qed.

Definition runtime_spec {A} (node : PlanStep) (built : A → Prop) (es : list Emission) (r : RuntimeAnswer * option A) : Prop :=
  match r with
  | (EndedMission o, _) => ended_failed (task_id task) es o
  | (Answered text receipt, a) =>
      (∃ x, a = Some x ∧ built x) ∧ (∃ x, ModelCallResult_parse x = Ok (CallSucceeded text receipt)) ∧
      ∃ e, es = [e] ∧ started node e
  end.

Lemma runRuntime_emits {A} ids node role port (build : prog S (result A)) request_of pin hooks (built : A → Prop) :
  (∀ r, silent (same_log log) (port r)) → (∀ a, silent_hooks (same_log log) (hooks a)) →
  emits log build (λ es r, es = [] ∧ ∀ a, r = Ok a → built a) →
  emits log (runRuntime deps url_ok task ids node role port build request_of pin hooks) (runtime_spec node built).
Proof.
  intros Hp Hh Hb. eapply emits_bind; [by eapply begin_emits|]. intros es [] (e & -> & He).
  assert (Hq : Forall quiet [e]) by (constructor; [by eapply started_quiet|constructor]).
  eapply emits_bind; [exact Hb|]. intros es b [-> Hbuilt]. destruct b as [a|ex].
  - set (P := λ (es : list Emission) (r : ModelCallResult), es = [] ∧ ∃ x, ModelCallResult_parse x = Ok r).
    eapply (emits_bind _ _ _ P).
    { intros s s' r H. exists []. rewrite app_nil_r. split; [|split; [done|by eapply callModel_parsed]].
      pose proof (call_silent deps (same_log log) _ pin (hooks a) (request_of a) Hp (Hh a) s) as Hs. by rewrite H in Hs. }
    intros es r [-> Hr]. destruct r as [text receipt|r].
    + apply emits_ret. cbn. split; [exists a; auto|]. split; [done|]. by exists e.
    + apply emits_lift_then. intros f _. eapply emits_bind; [by apply abort_emits|]. intros es o Ho. apply emits_ret. cbn.
      rewrite app_nil_r. by apply (ended_app _ [e]).
  - apply emits_lift_then. intros f _. eapply emits_bind; [by apply abort_emits|]. intros es o Ho. apply emits_ret. cbn.
    rewrite app_nil_r. by apply (ended_app _ [e]).
Qed.

(** *** The parts of the mission *)


(** Go on, or end the mission. *)
Definition or_ended {A} (go : list Emission → A → Prop) (es : list Emission) (r : A + Outcome) : Prop :=
  match r with inl a => go es a | inr o => ended_failed (task_id task) es o end.

Lemma refuse_ends {A} ids node role code go :
  emits log (o ← refuse_step deps url_ok task ids node role code; mret (inr o)) (or_ended (A := A) go).
Proof.
  eapply emits_bind; [by apply refuse_emits|]. intros es o Ho. apply emits_ret. cbn. by rewrite app_nil_r.
Qed.

Lemma select_pins_emits ids analyst reviewer :
  emits log (select_pins deps url_ok task ids analyst reviewer) (or_ended (λ es _, es = [])).
Proof.
  unfold select_pins. destruct (md_faculties deps) as [f|] eqn:Ef; [|by apply emits_ret].
  apply emits_then; [by apply (ask_pin_silent deps (same_log log))|]. intros [pa|code]; [|apply refuse_ends].
  apply emits_then; [by apply (ask_pin_silent deps (same_log log))|]. intros [pr|code]; [by apply emits_ret|apply refuse_ends].
Qed.

Lemma select_cognition_emits ids analyst pin :
  emits log (select_cognition deps url_ok task ids analyst pin) (or_ended (λ es _, es = [])).
Proof.
  unfold select_cognition. destruct (md_identity deps) as [f|] eqn:Ef; [|by apply emits_ret].
  apply emits_then; [by apply (ask_latch_silent deps (same_log log))|]. intros [st|code]; [by apply emits_ret|apply refuse_ends].
Qed.



(** The evidence record of a runtime's answer. *)
Definition runtime_record (node : PlanStep) (role : RuntimeRole) (text : string) (receipt : SuccessReceipt) (subject : string)
    (ev : Evidence) : Prop :=
  ∃ base mem fac fields, ba_task base = task_id task ∧ ba_step base = ps_id node ∧
    runtimeEvidence url_ok base role text receipt subject mem fac fields = Ok ev.

(** What a runtime that answered has left. *)
Definition answered (ids : list string) (node : PlanStep) (role : RuntimeRole) (subject : string)
    (es : list Emission) (r : string * SuccessReceipt * list string) : Prop :=
  ∃ ev st e1 e2, es = [e1; e2] ∧ started node e1 ∧ finished node (runtime_output (sha256Text r.1.1)) ev st e2 ∧
    r.2 = ids ++ [ev_id ev] ∧ runtime_record node role r.1.1 r.1.2 subject ev ∧
    ∃ x, ModelCallResult_parse x = Ok (CallSucceeded r.1.1 r.1.2).

Lemma run_analyst_emits ids analyst trace objective facts fd pin state :
  emits log (run_analyst deps url_ok task plan ids analyst trace objective facts fd pin state) (or_ended (answered ids analyst ROLE_analyst fd)).
Proof.
  unfold run_analyst. cbn zeta. apply emits_then; [apply qd_uuid|]. intros callId. apply emits_then; [apply (memory_silent deps (same_log log))|]. intros mem.
  eapply emits_bind.
  { eapply (runRuntime_emits _ _ _ _ _ _ _ _ (λ _, True)); [apply qd_analyst|apply (analyst_hooks_silent deps (same_log log))|by apply emits_ret]. }
  intros es [[text receipt|o] a] Hr; [|by apply emits_ret; cbn; rewrite app_nil_r].
  destruct Hr as ((x & -> & _) & Hp & e1 & -> & He1).
  eapply emits_bind; [by apply fresh_emits|]. intros es b (-> & Hbt & Hbs).
  apply emits_lift_then. intros fac _. apply emits_lift_then. intros fs _. apply emits_lift_then. intros ev Hev.
  eapply emits_bind; [by apply complete_emits|]. intros es ids' (-> & st & e2 & -> & He2). apply emits_ret. cbn.
  exists ev, st, e1, e2. split; [done|]. split; [done|]. split; [done|]. split; [done|]. split; [|done].
  by exists b, (memoryEvidence <$> mem), fac, fs.
Qed.


Lemma run_reviewer_emits ids reviewer trace facts fd text pin state :
  emits log (run_reviewer deps url_ok task ids reviewer trace facts fd text pin state)
    (or_ended (answered ids reviewer ROLE_reviewer (sha256Text text))).
Proof.
  unfold run_reviewer. eapply emits_bind.
  { eapply (runRuntime_emits _ _ _ _ _ _ _ _ (λ _, True)); [apply qd_reviewer|by split|].
    apply emits_silent; [apply (reviewer_build_silent deps (same_log log))|done]. }
  intros es [[answer receipt|o] a] Hr; [|by apply emits_ret; cbn; rewrite app_nil_r].
  destruct Hr as ((x & -> & _) & Hp & e1 & -> & He1).
  eapply emits_bind; [by apply fresh_emits|]. intros es b (-> & Hbt & Hbs).
  apply emits_lift_then. intros fac _. apply emits_lift_then. intros ev Hev.
  eapply emits_bind; [by apply complete_emits|]. intros es ids' (-> & st & e2 & -> & He2). apply emits_ret. cbn.
  exists ev, st, e1, e2. split; [done|]. split; [done|]. split; [done|]. split; [done|]. split; [|done].
  eexists b, None, fac, _. by repeat split.
Qed.

(** *** The end of the mission *)

Definition verify_emission : Emission := plain_emission "verify" TASK_VERIFYING VERIFYING None None None None.
Definition complete_emission (o : Outcome) : Emission := plain_emission "complete" TASK_COMPLETED COMPLETED None None (Some o) None.

Lemma conclude_emits ids rec text :
  emits log (conclude deps task ids rec text) (λ es o,
    ended_failed (task_id task) es o ∨
    (mc_accepted rec = true ∧ ∃ analysis candidate at_, parseAnalysis text = Some analysis ∧
       completed_result task ids (missionSummary analysis) at_ = Ok candidate ∧
       es = [verify_emission; complete_emission candidate])).
Proof.
  unfold conclude. destruct (mc_accepted rec) eqn:Ea; cbn [negb].
  2: { eapply emits_mono; [by apply end_failed_emits|]. intros es o H. by left. }
  eapply emits_bind; [by apply emit_emits|]. intros es r ->. destruct (parseAnalysis text) as [analysis|] eqn:Ep; [|apply emits_throw].
  apply emits_then; [apply qd_now|]. intros at_. apply emits_lift_then. intros candidate Hc.
  eapply emits_bind; [by apply emit_emits|]. intros es stored ->. apply emits_then; [by apply (notify_silent deps (same_log log))|]. intros []. apply emits_ret.
  right. split; [done|]. by exists analysis, candidate, at_.
Qed.

(** The whole chain of a run that asked for COMPLETED. *)
Record mission_chain (objective : MissionObjective) (g a r c : PlanStep) (facts : GithubFacts)
    (ta : string) (ra : SuccessReceipt) (tr : string) (rr : SuccessReceipt) (rec : MissionReconciliation)
    (e1 e2 e3 e4 : Evidence) (s1 s2 s3 s4 : TaskStep) (candidate : Outcome) (es : list Emission) : Prop := {
  ch_emissions : ∃ b1 f1 b2 f2 b3 f3 b4 f4,
    es = [b1; f1; b2; f2; b3; f3; b4; f4; verify_emission; complete_emission candidate] ∧
    started g b1 ∧ finished g (github_output (gf_headSha facts) (capabilityDigest (facts_json facts))) e1 s1 f1 ∧
    started a b2 ∧ finished a (runtime_output (sha256Text ta)) e2 s2 f2 ∧
    started r b3 ∧ finished r (runtime_output (sha256Text tr)) e3 s3 f3 ∧
    started c b4 ∧ finished c (reconcile_output (mc_accepted rec)) e4 s4 f4;
  ch_facts : ∃ v, GithubFacts_parse v = Ok facts;
  ch_github : ∃ b, ba_task b = task_id task ∧ ba_step b = ps_id g ∧
    githubEvidence url_ok b facts (capabilityDigest (facts_json facts)) = Ok e1;
  ch_analyst : runtime_record a ROLE_analyst ta ra (capabilityDigest (facts_json facts)) e2;
  ch_reviewer : runtime_record r ROLE_reviewer tr rr (sha256Text ta) e3;
  ch_answers : (∃ x, ModelCallResult_parse x = Ok (CallSucceeded ta ra)) ∧ (∃ x, ModelCallResult_parse x = Ok (CallSucceeded tr rr));
  ch_rec : reconcileMission toLowerCase (reconcile_input facts (mo_contract objective) ta ra tr rr) = Ok rec ∧ mc_accepted rec = true;
  ch_reconcile : ∃ b, ba_task b = task_id task ∧ ba_step b = ps_id c ∧ reconcileEvidence url_ok b rec = Ok e4;
  ch_outcome : ∃ analysis at_, parseAnalysis ta = Some analysis ∧
    completed_result task [ev_id e1; ev_id e2; ev_id e3; ev_id e4] (missionSummary analysis) at_ = Ok candidate
}.

Lemma run_reconcile_emits ids c input :
  emits log (run_reconcile deps url_ok toLowerCase task ids c input) (λ es o,
    ended_failed (task_id task) es o ∨
    ∃ rec ev st b f candidate, reconcileMission toLowerCase input = Ok rec ∧ mc_accepted rec = true ∧
      (∃ b, ba_task b = task_id task ∧ ba_step b = ps_id c ∧ reconcileEvidence url_ok b rec = Ok ev) ∧
      es = [b; f; verify_emission; complete_emission candidate] ∧ started c b ∧
      finished c (reconcile_output (mc_accepted rec)) ev st f ∧
      ∃ analysis at_, parseAnalysis (ri_analysisText input) = Some analysis ∧
        completed_result task (ids ++ [ev_id ev]) (missionSummary analysis) at_ = Ok candidate).
Proof.
  eapply emits_bind; [by apply begin_emits|]. intros es [] (b & -> & Hb). apply emits_lift_then. intros rec Hrec.
  eapply emits_bind; [by apply fresh_emits|]. intros es base (-> & Hbt & Hbs). apply emits_lift_then. intros ev Hev.
  eapply emits_bind; [by apply complete_emits|]. intros es ids' (-> & st & f & -> & Hf).
  eapply emits_mono; [apply conclude_emits|]. intros es o [He|(Ha & analysis & candidate & at_ & Hp & Hc & ->)].
  - left. apply (ended_app _ [b]); [constructor; [by eapply started_quiet|constructor]|].
    apply (ended_app _ [f]); [constructor; [by eapply finished_quiet|constructor]|done].
  - right. exists rec, ev, st, b, f, candidate. split; [done|]. split; [done|]. split; [by exists base|].
    split; [done|]. split; [done|]. split; [done|]. by exists analysis, at_.
Qed.

Lemma answered_quiet ids node role subject es r : answered ids node role subject es r → Forall quiet es.
Proof.
  intros (ev & st & e1 & e2 & -> & H1 & H2 & _). constructor; [by eapply started_quiet|].
  constructor; [by eapply finished_quiet|constructor].
Qed.

Lemma attempt_ok {T A} (m : prog T A) s s' r : attempt m s = (s', Ok r) → m s = (s', r).
Proof. unfold attempt. destruct (m s) as [s1 r1]. by intros [= -> ->]. Qed.

Lemma read_facts_ok repo s s' facts fd : read_facts deps repo s = (s', Ok (Ok (facts, fd))) →
  (∃ v, GithubFacts_parse v = Ok facts) ∧ fd = capabilityDigest (facts_json facts).
Proof.
  intros H%attempt_ok. revert H.
  intros (x & s2 & _ & (f & s3 & [_ Hf]%lift_ok & ([] & s4 & _ & [_ [= -> ->]]%ret_ok)%pbind_ok)%pbind_ok)%pbind_ok. eauto.
Qed.


Lemma read_facts_emits repo : emits log (read_facts deps repo) (λ es r, es = [] ∧
  ∀ facts fd, r = Ok (facts, fd) → (∃ v, GithubFacts_parse v = Ok facts) ∧ fd = capabilityDigest (facts_json facts)).
Proof.
  intros s s' r H. exists []. rewrite app_nil_r. split.
  - pose proof (read_facts_silent deps (same_log log) repo s) as Hs. by rewrite H in Hs.
  - split; [done|]. intros facts fd ->. by eapply read_facts_ok.
Qed.

Lemma run_emits :
  emits log (runRepoAnalysisMission deps url_ok toLowerCase task plan) (λ es o,
    ended_failed (task_id task) es o ∨
    ∃ objective g a r c rest facts ta ra tr rr rec e1 e2 e3 e4 s1 s2 s3 s4 candidate,
      parseMissionObjective (task_objective task) = Ok objective ∧ orderedSteps plan = Ok (g :: a :: r :: c :: rest) ∧
      mission_chain objective g a r c facts ta ra tr rr rec e1 e2 e3 e4 s1 s2 s3 s4 candidate es).
Proof.
  apply emits_lift_then. intros objective Hobj. apply emits_lift_then. intros nodes Hn.
  destruct nodes as [|g [|a [|r [|c rest]]]]; try apply emits_throw. cbn zeta.
  eapply emits_bind; [by apply begin_emits|]. intros es [] (b1 & -> & Hb1).
  assert (Hq1 : Forall quiet [b1]) by (constructor; [by eapply started_quiet|constructor]).
  eapply emits_bind; [apply read_facts_emits|]. intros es x [-> Hx]. destruct x as [[facts fd]|e].
  2: { eapply emits_mono; [by apply abort_emits|]. intros es o Ho. left. by apply (ended_app _ [b1]). }
  destruct (Hx _ _ eq_refl) as [Hv ->].
  eapply emits_bind; [by apply fresh_emits|]. intros es base (-> & Hbt & Hbs). apply emits_lift_then. intros e1 He1.
  eapply emits_bind; [by apply complete_emits|]. intros es ids (-> & s1 & f1 & -> & Hf1).
  assert (Hq2 : Forall quiet [b1; f1]) by (constructor; [by eapply started_quiet|constructor; [by eapply finished_quiet|constructor]]).
  unfold run_runtimes. eapply emits_bind; [apply select_pins_emits|]. intros es pins Hpins. destruct pins as [[pa pr]|o].
  2: { apply emits_ret. left. rewrite app_nil_r. by apply (ended_app _ [b1; f1]). }
  cbn in Hpins. subst es. eapply emits_bind; [apply select_cognition_emits|]. intros es st Hst. destruct st as [state|o].
  2: { apply emits_ret. left. rewrite app_nil_r. by apply (ended_app _ [b1; f1]). }
  cbn in Hst. subst es. eapply emits_bind; [apply run_analyst_emits|]. intros es2 x2 H2. destruct x2 as [[[ta ra] ids2]|o].
  2: { apply emits_ret. left. rewrite app_nil_r. by apply (ended_app _ [b1; f1]). }
  cbn in H2. pose proof (answered_quiet _ _ _ _ _ _ H2) as Hq3.
  eapply emits_bind; [apply run_reviewer_emits|]. intros es3 x3 H3. destruct x3 as [[[tr rr] ids3]|o].
  2: { apply emits_ret. left. rewrite app_nil_r. apply (ended_app _ [b1; f1]); [done|]. by apply (ended_app _ es2). }
  cbn in H3. pose proof (answered_quiet _ _ _ _ _ _ H3) as Hq4.
  eapply emits_mono; [apply run_reconcile_emits|].
  intros es o [Ho|(rec & e4 & s4 & b4 & f4 & candidate & Hrec & Hacc & He4 & -> & Hb4 & Hf4 & analysis & at_ & Hp & Hc)].
  { left. apply (ended_app _ [b1; f1]); [done|]. apply (ended_app _ es2); [done|]. by apply (ended_app _ es3). }
  right. destruct H2 as (e2 & s2 & b2 & f2 & -> & Hb2 & Hf2 & Hids2 & Hr2 & Hp2).
  destruct H3 as (e3 & s3 & b3 & f3 & -> & Hb3 & Hf3 & Hids3 & Hr3 & Hp3). cbn in *. subst ids2 ids3.
  exists objective, g, a, r, c, rest, facts, ta, ra, tr, rr, rec, e1, e2, e3, e4, s1, s2, s3, s4, candidate.
  split; [done|]. split; [done|]. split; try done.
  - exists b1, f1, b2, f2, b3, f3, b4, f4. done.
  - by exists base.
  - by exists analysis, at_.
Qed.
End run.

(** C5: A mission run ends once and claims success only on the whole chain.  Over any ledger, clock,
    reader, model ports, memory, faculty and identity ports (only [emit] adds to the ledger's log),
    when the run returns it has emitted either a sequence that ends in the one TASK_FAILED event, with
    a FAILED outcome in which no criterion passed and no outcome before it; or exactly ten events: the
    start and the completion of the four planned steps in their order, each completion with the step's
    row and its evidence (the parsed repository facts; the two runtime answers with their receipts, the
    review bound to the digest of the analysis; the kernel's own reconciliation of exactly those texts,
    accepted), the move to VERIFYING, and COMPLETED with an outcome that cites exactly those four
    records. *)
Theorem mission_run_ends_once {S} (deps : MissionDeps S) log `{!LoggedDeps deps log} url_ok toLowerCase task plan s s' o :
  runRepoAnalysisMission deps url_ok toLowerCase task plan s = (s', Ok o) →
  ∃ es, log s' = log s ++ es ∧
    (ended_failed (task_id task) es o ∨
     ∃ objective g a r c rest facts ta ra tr rr rec e1 e2 e3 e4 s1 s2 s3 s4 candidate,
       parseMissionObjective (task_objective task) = Ok objective ∧ orderedSteps plan = Ok (g :: a :: r :: c :: rest) ∧
       mission_chain url_ok toLowerCase task objective g a r c facts ta ra tr rr rec e1 e2 e3 e4 s1 s2 s3 s4 candidate es).
Proof. apply run_emits. exact _. Qed.
