(* ===== verification/RepositoryRead.v ===== *)
(** * The repository-read capability and the canary's verifier
    (packages/capabilities/src/index.ts, lines 252-359; packages/runtimes/src: kj-000000.ts and
    claude-md-check.ts)

    The capability whose reader is injected (a parameter here), the runtime registry, the
    one-step plan, and the pure verifier of the canary over a live result, which the workflow
    asks before it requests completion.  The theorem: what that verifier passes, the ledger's
    own check of the persisted receipt accepts. *)

From S2P Require Import Prelude JsNumber JsDate Digest Contracts Plan Capability Json.
Local Open Scope Z_scope.
Local Open Scope js_scope.

(** ** The capability *)

Record RepositoryReadInput := { ri_repo_path : option string; ri_target_file : option string; ri_timeout_seconds : option Z }.

Definition RepositoryReadInput_parse (v : json) : result RepositoryReadInput :=
  fs ← z_strict ["repo_path"; "target_file"; "timeout_seconds"] v;
  repo ← z_optional fs "repo_path" (z_text 1 4096);
  target ← z_optional fs "target_file" (z_text 1 1024);
  timeout ← z_optional fs "timeout_seconds" (z_int 1 3600);
  Ok {| ri_repo_path := repo; ri_target_file := target; ri_timeout_seconds := timeout |}.

(** [z.literal("repository.read")], [z.literal(0)] *)
Definition z_literal (word : string) (v : json) : result string := z_string (λ s, s === word) v.
Definition z_zero (v : json) : result Z := z_int 0 0 v.

Record RepositoryReadOutput := {
  ro_project_name : string; ro_target_path : string; ro_bytes_read : Z; ro_lines_read : Z; ro_content_sha256 : string;
  ro_output_hash : string; ro_skills_mounted : list string; ro_summary : string
}.

Definition RepositoryReadOutput_parse (v : json) : result RepositoryReadOutput :=
  fs ← z_strict ["capability"; "project_name"; "target_path"; "bytes_read"; "lines_read"; "content_sha256"; "output_hash";
                 "skills_mounted"; "mutations_detected"; "summary"] v;
  z_field fs "capability" (z_literal "repository.read");;
  project ← z_field fs "project_name" (z_text 1 512);
  target ← z_field fs "target_path" (z_text 1 4096);
  bytes ← z_field fs "bytes_read" (z_int 0 max_safe);
  lines ← z_field fs "lines_read" (z_int 0 max_safe);
  sha ← z_field fs "content_sha256" (z_string Digest_ok);
  hash ← z_field fs "output_hash" (z_text 1 64);
  skills ← z_field fs "skills_mounted" (z_array 0 64 (z_text 1 max_safe));
  z_field fs "mutations_detected" z_zero;;
  summary ← z_field fs "summary" (z_text 1 2048);
  Ok {| ro_project_name := project; ro_target_path := target; ro_bytes_read := bytes; ro_lines_read := lines;
        ro_content_sha256 := sha; ro_output_hash := hash; ro_skills_mounted := skills; ro_summary := summary |}.

Definition REPOSITORY_READ : CapabilityRef :=
  {| cap_id := "60000000-0000-4000-8000-000000000003"; cap_version := "1.0.0" |}.

(** A schema that changes nothing of what it accepts. *)
Definition schema_of {A} (parse : json → result A) (v : json) : option json :=
  match parse v with Ok _ => Some v | Throw _ => None end.

Section registry.
Context (toUpperCase : string → string).
(** [z.toJSONSchema] of the four schemas. *)
Context (textInputSchema textOutputSchema readInputSchema readOutputSchema : json).

Definition repositoryReadDefinition (read : option (RepositoryReadInput → result json)) : CapabilityDefinition :=
  {| def_metadata :=
       {| meta_id := cap_id REPOSITORY_READ; meta_version := cap_version REPOSITORY_READ;
          meta_description := "Read-only repository/file analysis via new-system Spawner";
          meta_inputSchemaRef := "kerneljson:repository-read-input/v1";
          meta_outputSchemaRef := "kerneljson:repository-read-output/v1"; meta_riskClass := LOW;
          meta_permissions := ["read-only-filesystem"]; meta_implementationType := SANDBOX;
          meta_verificationRequirements := ["content-sha256/v1"; "mutations-zero/v1"] |};
     def_inputSchema := schema_of RepositoryReadInput_parse; def_inputJsonSchema := readInputSchema;
     def_outputSchema := schema_of RepositoryReadOutput_parse; def_outputJsonSchema := readOutputSchema;
     def_execute := λ input,
       match read with
       | Some f => i ← RepositoryReadInput_parse input; f i
       | None => Throw (cap_error "IMPLEMENTATION_FAILED")
       end;
     def_verify := λ _ output,
       Ok match RepositoryReadOutput_parse output with Ok o => Digest_ok (ro_content_sha256 o) | Throw _ => false end |}.

Definition createRuntimeRegistry (read : option (RepositoryReadInput → result json)) : result (list (string * Entry)) :=
  CapabilityRegistry
    [uppercase_definition toUpperCase textInputSchema textOutputSchema;
     reverse_definition textInputSchema textOutputSchema; repositoryReadDefinition read] RUNTIME.
End registry.

(** ** kj-000000.ts *)

Definition KJ_000000_CRITERION : string :=
  "repository.read returns content_sha256 (64 hex) with mutations_detected=0".

Definition deriveStepId (taskId : string) : string :=
  let h := capabilityDigest (JArr [JStr "kj-000000"; JStr taskId; JStr "REPOSITORY_READ"]) in
  slice 0 8 h +:+ "-" +:+ slice 8 12 h +:+ "-8" +:+ slice 13 16 h +:+ "-a" +:+ slice 17 20 h +:+ "-" +:+ slice 20 32 h.

Definition planRepositoryRead (taskId : string) : result ExecutionPlan :=
  let sid := deriveStepId taskId in
  ExecutionPlan_parse
    {| plan_taskId := taskId; plan_recipe := RepositoryRead;
       plan_steps := [{| ps_id := sid; ps_taskId := taskId; ps_operation := OP_REPOSITORY_READ; ps_dependencies := [];
                         ps_input := TASK_OBJECTIVE |}];
       plan_resultStepId := sid |}.

(** [output.key] of a JSON value. *)
Definition get_prop (v : json) (key : string) : option json := match v with JObj fs => map_get fs key | _ => None end.

Definition str_is (v : option json) (word : string) : bool := match v with Some (JStr s) => s === word | _ => false end.
Definition digest_shaped (v : option json) : bool := match v with Some (JStr s) => Digest_ok s | _ => false end.
Definition is_null (v : json) : bool := match v with JNull => true | _ => false end.
Definition is_zero (v : option json) : bool := match v with Some (JNum n) => n =? 0 | _ => false end.

Section verify.
Context (url_ok : string → bool).

(** The failures of a result, an evidence record and an outcome that parse; a null output throws where it is read. *)
Definition read_failures (taskId : string) (res : CapabilityResult) (evidence : Evidence) (outcome : Outcome) : list string :=
  let output := res_output res in
  let sha := get_prop output "content_sha256" in
  issue (res_taskId res !== taskId) "TASK_MISMATCH" ++
  issue (ev_taskId evidence !== taskId) "EVIDENCE_TASK_MISMATCH" ++
  issue (out_taskId outcome !== taskId) "OUTCOME_TASK_MISMATCH" ++
  issue (res_capability res !== REPOSITORY_READ) "CAPABILITY_MISMATCH" ++
  if is_null output then ["PARSE_FAILED"]
  else
    issue (negb (str_is (get_prop output "capability") "repository.read")) "OUTPUT_CAPABILITY" ++
    issue (negb (is_zero (get_prop output "mutations_detected"))) "MUTATIONS_DETECTED" ++
    issue (negb (digest_shaped sha)) "CONTENT_SHA256" ++
    issue (negb (match ev_digest evidence with Some d => str_is sha d | None => negb (bool_decide (is_Some sha)) end)) "EVIDENCE_DIGEST_MISMATCH" ++
    issue (ev_type evidence !== TOOL_RECEIPT) "EVIDENCE_TYPE" ++
    issue (out_status outcome !== O_COMPLETED) "OUTCOME_STATUS" ++
    issue (negb (forallb (λ r, ar_passed r && negb (bool_decide (ar_evidenceRefs r = []))) (out_acceptanceResults outcome))) "ACCEPTANCE".

(** A verdict: the failures and, when there are none, the evidence cited. *)
Record Verification := { vf_failures : list string; vf_evidenceRefs : list string }.
Definition passed (v : Verification) : bool := bool_decide (vf_failures v = []).
Definition verification (failures refs : list string) : Verification :=
  {| vf_failures := failures; vf_evidenceRefs := if failures === [] then refs else [] |}.

Definition verifyRepositoryRead (taskId : string) (rawResult : CapabilityResult) (rawEvidence : Evidence) (rawOutcome : Outcome)
  : Verification :=
  match (res ← CapabilityResult_parse rawResult; evidence ← Evidence_parse url_ok rawEvidence; outcome ← Outcome_parse rawOutcome;
         Ok (res, evidence, outcome)) with
  | Throw _ => verification ["PARSE_FAILED"] []
  | Ok (res, evidence, outcome) => verification (read_failures taskId res evidence outcome) (out_evidenceRefs outcome)
  end.

(** ** claude-md-check.ts *)

(** Which codes of the receipt's check are taken over. *)
Definition takes_over (parsed : bool) (code : string) : bool :=
  negb (code === "CONTENT_SHA256") &&
  (parsed || negb (bool_decide (code ∈ ["TARGET_NOT_CLAUDE_MD"; "CLAUDE_MD_DRIFT"]))).

Definition push_new (failures : list string) (code : string) : list string :=
  if bool_decide (code ∈ failures) then failures else failures ++ [code].

Definition verifyClaudeMdCheck (taskId : string) (rawResult : CapabilityResult) (rawEvidence : Evidence) (rawOutcome : Outcome)
    (approved : string) : Verification :=
  let base := verifyRepositoryRead taskId rawResult rawEvidence rawOutcome in
  let parsed := CapabilityResult_parse rawResult in
  let output := match parsed with Ok r => Some (res_output r) | Throw _ => None end in
  let prop key := output ≫= λ v, get_prop v key in
  let codes := assertClaudeMdReceipt
    {| targetPath := prop "target_path"; contentSha256 := prop "content_sha256"; mutationsDetected := None |} approved in
  verification (fold_left push_new (List.filter (takes_over (is_ok parsed)) codes) (vf_failures base)) (vf_evidenceRefs base).
End verify.
