(* ===== verification/BriefRun.v ===== *)
(** * The run of a morning brief
    (services/kernel/src/mission: brief.ts, run-brief.ts; alerting/format.ts for the escaping)

    What the brief sends to its runtimes, what it records, the text the operator receives, and
    [runMorningBriefMission], which has the shape of the mission's run over its own operations
    [BriefDeps]: no faculties and no identity.  The calendar date of the message (Intl) is a
    parameter. *)

From S2P Require Import Prelude JsNumber JsDate Digest Contracts Plan Capability Json Mission Brief Regex MemPolicy.
From S2P Require Import MemContext MemPort Model Faculty Identity Ledger Cognition Assembly MissionRun.
Local Open Scope Z_scope.
Local Open Scope js_scope.

(** ** The prompts of brief.ts *)

Definition BRIEF_ANALYST_MAX_TOKENS : Z := 4096.
Definition BRIEF_REVIEWER_MAX_TOKENS : Z := 4096.

Definition flag (b : bool) (text : string) : string := if b then text else EmptyString.

Definition commit_line (repo : string) (c : BriefCommit) : string :=
  "  [commit:" +:+ repo +:+ "@" +:+ short (bc_sha c) +:+ "] " +:+ bc_date c +:+ " " +:+ bc_author c +:+ ": " +:+ bc_message c.

Definition pull_line (repo : string) (p : BriefPull) : string :=
  "  [pr:" +:+ repo +:+ "#" +:+ pretty (bp_number p) +:+ "] open" +:+ flag (bp_draft p) " draft" +:+ " PR #" +:+ pretty (bp_number p) +:+
  " by " +:+ bp_author p +:+ ", updated " +:+ bp_updatedAt p +:+ ": " +:+ bp_title p.

Definition ci_line (repo : string) (c : BriefCiRun) : string :=
  "  [ci:" +:+ repo +:+ "] latest workflow run " +:+ quotes "'" +:+ ci_name c +:+ quotes "'" +:+ " on " +:+ short (ci_headSha c) +:+ ": " +:+
  ci_status c +:+ match ci_conclusion c with Some x => if x === EmptyString then EmptyString else "/" +:+ x | None => EmptyString end +:+
  " at " +:+ ci_updatedAt c.

Definition repo_lines (r : BriefActiveRepo) : list string :=
  [EmptyString;
   "[repo:" +:+ ar_repo r +:+ "] REPOSITORY " +:+ ar_repo r +:+ " (" +:+ (if ar_private r then "private" else "public") +:+
     ", default branch " +:+ ar_defaultBranch r +:+ ", last push " +:+ ar_pushedAt r +:+ ")"] ++
  (if ar_commits r === [] then ["  no commits on the default branch in the window"] else []) ++
  map (commit_line (ar_repo r)) (ar_commits r) ++
  (if ar_commitsTruncated r then ["  (more commits than shown)"] else []) ++
  match ar_openPulls r with
  | None => ["  open pull requests: not readable with this token"]
  | Some [] => ["  no open pull requests"]
  | Some l => map (pull_line (ar_repo r)) l
  end ++
  (if ar_pullsTruncated r then ["  (more open pull requests than shown)"] else []) ++
  match ar_ci r with
  | Some c => [ci_line (ar_repo r) c]
  | None => ["  no readable workflow runs on the default branch"]
  end.

Definition count_text (t : TaskCount) : string := tc_recipe t +:+ " " +:+ tc_status t +:+ " x" +:+ pretty (tc_count t).

Definition renderBriefFacts (facts : BriefFacts) (factsDigest : string) : string :=
  let g := bf_github facts in
  let t := ks_tasks (bf_kernel facts) in
  join newline (
    ["EVIDENCE (read-only, digest " +:+ factsDigest +:+ ")";
     "[scan] window " +:+ ga_windowStart g +:+ " to " +:+ ga_windowEnd g +:+ "; repositories visible: " +:+ pretty (ga_reposVisible g) +:+
       flag (ga_reposVisibleTruncated g) " (only the 100 most recently pushed were scanned)" +:+ "; pushed to in the window: " +:+
       pretty (Z.of_nat (length (ga_active g))) +:+ flag (ga_activeTruncated g) " (more were active; only these were read)"] ++
    concat (map repo_lines (ga_active g)) ++
    [EmptyString; "KERNELJSON (its own ledger)";
     "[kj:tasks] tasks created in the window, by recipe and status: " +:+
       match t with [] => "none" | _ => join "; " (map count_text t) end;
     match ks_lastCanary (bf_kernel facts) with
     | Some c => "[kj:canary] latest CLAUDE.md canary: " +:+ lc_status c +:+ ", created " +:+ lc_createdAt c
     | None => "no canary task on record"
     end]).

Definition BRIEF_ANALYST_SYSTEM : string :=
  join newline
    ["You are the analyst runtime writing Jonny's KernelJSON morning brief.";
     "You see only the evidence provided: the last 24 hours of activity across his GitHub repositories and KernelJSON's own task state, plus any operator memory.";
     "Write what he needs to know this morning: what moved, what is stuck or failing (failed CI, stale or draft pull requests, failed tasks, a failed canary), and anything his operator memory says he cares about. Group related activity; do not list every commit.";
     "A quiet day is a valid brief: say so plainly and cite [scan].";
     quotes "Every item must cite at least one reference, copied exactly from the square brackets in the evidence or the memory lines (for memory, write memory: followed by the 8 character id shown). Write the reference without the brackets: 'repo:owner/name', not '[repo:owner/name]'. Do not invent references, repositories, commits or numbers.";
     "Cite what the item actually rests on. An item that summarises a repository's activity as a whole cites that repository's [repo:...] reference; an item about a specific commit, pull request or run cites that one.";
     "Reply with ONE JSON object and nothing else, in exactly this shape:";
     quotes "{'windowEnd': '<the window end from the evidence, copied exactly>', 'headline': '<one sentence>', 'items': [{'title': '<string>', 'detail': '<string>', 'refs': ['<reference>']}]}";
     "Between 1 and 8 items, most important first. UK English, plain tone.";
     "Hard limits, or the brief is rejected: headline at most 200 characters; each title at most 80 characters; each detail at most 400 characters; each item 1 to 8 refs."].

Definition BRIEF_REVIEWER_SYSTEM : string :=
  join newline
    ["You are the independent reviewer runtime for a KernelJSON morning brief.";
     "Check every item of the brief against the evidence. The kernel separately checks that each cited reference exists; your job is to judge whether what each item CLAIMS follows from the evidence it cites. An item that overstates, misreads or invents (a wrong count, a failure that did not happen, a cause the evidence does not show) is unsupported.";
     "Reply with ONE JSON object and nothing else, in exactly this shape:";
     quotes "{'reviewedAnalysisSha256': '<the brief digest, copied exactly>', 'verdict': 'approve' | 'approve_with_notes' | 'reject', 'unsupportedFindings': [<0-based indexes of unsupported items>], 'notes': ['<short string>']}";
     quotes "Use 'approve' only if every item is supported and unsupportedFindings is empty. A [repo:...] reference stands for everything listed under that repository.";
     quotes "Items you list in unsupportedFindings are withheld from Jonny; the rest are delivered. Use 'reject' only if the brief as a whole, including its headline, is misleading.";
     "Be concise: at most 3 notes, each one sentence under 160 characters. No text outside the JSON object."].

(** The fields both prompts share. *)
Record BriefPrompt := {
  bp_callId : string; bp_taskId : string; bp_stepId : string; bp_trace : TraceRef; bp_facts : BriefFacts; bp_factsDigest : string
}.

Definition brief_request (i : BriefPrompt) (maxTokens : Z) (system user : string) : result ModelRequest :=
  ModelRequest_parse
    {| mq_callId := bp_callId i; mq_taskId := bp_taskId i; mq_stepId := bp_stepId i; mq_trace := bp_trace i;
       mq_messages := [{| msg_role := R_system; msg_content := system |}; {| msg_role := R_user; msg_content := user |}];
       mq_maxOutputTokens := maxTokens |}.

Definition briefAnalystRequest (i : BriefPrompt) (memory : string) : result ModelRequest :=
  brief_request i BRIEF_ANALYST_MAX_TOKENS BRIEF_ANALYST_SYSTEM
    ((if memory === EmptyString then EmptyString else memory +:+ newline +:+ newline) +:+ renderBriefFacts (bp_facts i) (bp_factsDigest i)).

Definition briefReviewerRequest (i : BriefPrompt) (analysisText analysisDigest memory : string) : result ModelRequest :=
  brief_request i BRIEF_REVIEWER_MAX_TOKENS BRIEF_REVIEWER_SYSTEM
    (join newline (["Brief digest (copy exactly): " +:+ analysisDigest; "BRIEF (verbatim):"; analysisText; EmptyString] ++
                   (if memory === EmptyString then [] else [memory; EmptyString]) ++
                   [renderBriefFacts (bp_facts i) (bp_factsDigest i)])).

(** ** The evidence records of brief.ts *)

Definition brief_role_source (r : RuntimeRole) : string := ROLE_SOURCE r.

Section evidence.
Context (url_ok : string → bool).

Definition briefFactsEvidence (b : EvidenceBase) (facts : BriefFacts) (factsDigest : string) : result Evidence :=
  evidence_of url_ok b TOOL_RECEIPT BRIEF_SOURCE_facts factsDigest
    [("capability", JStr "github.activity"); ("content_sha256", JStr factsDigest); ("github_digest", JStr (bf_githubDigest facts));
     ("active_repos", JNum (Z.of_nat (length (ga_active (bf_github facts))))); ("facts", brief_facts_json facts)].

Definition briefReconcileEvidence (b : EvidenceBase) (rec : BriefReconciliation) : result Evidence :=
  match brief_reconciliation_json rec with
  | JObj metadata => evidence_of url_ok b DETERMINISTIC_RESULT BRIEF_SOURCE_reconcile (capabilityDigest (brief_reconciliation_json rec)) metadata
  | _ => Throw (zod_error "metadata")
  end.
End evidence.

(** ** The message *)

Definition BRIEF_MESSAGE_LIMIT : Z := 3800.

(** [TELEGRAM_MARKDOWN_V2_SPECIAL] of format.ts. *)
Definition markdown_special (c : ascii) : bool :=
  bool_decide (c ∈ ["_"; "*"; "["; "]"; "("; ")"; "~"; "`"; ">"; "#"; "+"; "-"; "="; "|"; "{"; "}"; "."; "!"; "\"]%char).
Fixpoint escapeTelegramMarkdownV2 (text : string) : string :=
  match text with
  | EmptyString => EmptyString
  | String c rest =>
      if markdown_special c then String "\" (String c (escapeTelegramMarkdownV2 rest)) else String c (escapeTelegramMarkdownV2 rest)
  end.

Definition plural (n : Z) (one many : string) : string := if n =? 1 then one else many.

(** The items that were not withheld, in their order. *)
Definition kept_items (items : list BriefItem) (withheldItems : list Z) : list BriefItem :=
  snd <$> List.filter (λ p, negb (bool_decide (Z.of_nat p.1 ∈ withheldItems))) (imap pair items).

Definition brief_foot (taskId : string) (activeRepos : Z) (reviewerModel : string) (withheld dropped : Z) : string :=
  join newline (
    (if 0 <? dropped then ["(" +:+ pretty dropped +:+ " more item" +:+ plural dropped EmptyString "s" +:+ ": /task " +:+ taskId +:+ ")"] else []) ++
    (if 0 <? withheld then [pretty withheld +:+ " item" +:+ plural withheld EmptyString "s" +:+ " withheld: the reviewer found " +:+
                            plural withheld "it" "them" +:+ " unsupported."] else []) ++
    [pretty activeRepos +:+ " active repo" +:+ plural activeRepos EmptyString "s" +:+ "; reviewed by " +:+ reviewerModel +:+ ". Task " +:+
     slice16 8 taskId]).

Definition item_text (i : nat) (it : BriefItem) : string :=
  pretty (Z.of_nat i + 1) +:+ ". " +:+ bi_title it +:+ newline +:+ bi_detail it.

Definition blank_line : string := newline +:+ newline.

(** The loop of [briefMessage], from [n] items down. *)
Fixpoint message_loop (head : list string) (kept : list BriefItem) (foot : Z → string) (n : nat) : option string :=
  let text := join blank_line (head ++ imap item_text (take n kept) ++ [foot (Z.of_nat (length kept) - Z.of_nat n)]) in
  if js_length (escapeTelegramMarkdownV2 text) <=? BRIEF_MESSAGE_LIMIT then Some text
  else match n with O => None | S n' => message_loop head kept foot n' end.

(** [ukDate] is the en-GB date of an instant in London; the window's end has passed the schema, so it is a date. *)
Definition briefMessage (ukDate : Z → string) (brief : BriefAnalysis) (taskId : string) (activeRepos : Z) (reviewerModel : string)
    (withheldItems : list Z) : result string :=
  let withheld := set_size withheldItems in
  let kept := kept_items (ba_items brief) withheldItems in
  match Date_parse (ba_windowEnd brief) with
  | None => Throw (Exn "RangeError" "Invalid time value")
  | Some t =>
      let first := "Morning brief, " +:+ ukDate t in
      let foot := brief_foot taskId activeRepos reviewerModel withheld in
      Ok (default (join blank_line [first; foot (Z.of_nat (length kept))])
            (message_loop [first; briefHeadline brief withheldItems] kept foot (length kept)))
  end.

(** ** run-brief.ts *)

Record BriefNotice := { bn_taskId : string; bn_completed : bool; bn_at : string; bn_text : option string }.
Record KernelStateRequest := { kq_tenantId : string; kq_since : string; kq_excludeTaskId : string }.

Record BriefDeps (S : Type) := {
  bd_emit : Emission → prog S (option Outcome);
  bd_now : prog S string;
  bd_uuid : prog S string;
  bd_githubActivity : string → prog S (json * string);
  bd_kernelState : KernelStateRequest → prog S json;
  bd_analyst : ModelRequest → prog S ModelCallResult;
  bd_reviewer : ModelRequest → prog S ModelCallResult;
  bd_memory : option (MissionMemoryRequest → prog S MissionMemoryContext);
  bd_notify : BriefNotice → prog S unit
}.
Arguments bd_emit {S}. Arguments bd_now {S}. Arguments bd_uuid {S}. Arguments bd_githubActivity {S}. Arguments bd_kernelState {S}.
Arguments bd_analyst {S}. Arguments bd_reviewer {S}. Arguments bd_memory {S}. Arguments bd_notify {S}.

Section run.
Context {S : Type} (deps : BriefDeps S) (url_ok : string → bool) (toLowerCase : string → string) (ukDate : Z → string).
Context (task : Task) (plan : ExecutionPlan).

Definition brief_emit (key : string) (type : TaskEventType) (status : TaskStatus) (step : option TaskStep)
    (evidence : option Evidence) (outcome : option Outcome) (payload : option json) : prog S (option Outcome) :=
  bd_emit deps {| em_key := key; em_type := type; em_status := status; em_step := step; em_evidence := evidence;
                  em_outcome := outcome; em_payload := payload |}.

Definition brief_begin (node : PlanStep) : prog S unit :=
  step ← lift_result (patched_step node RUNNING None);
  brief_emit (step_key node "start") STEP_STARTED RUNNING (Some step) None None None;;
  mret tt.

Definition brief_complete (ids : list string) (node : PlanStep) (output : json) (evidence : Evidence) : prog S (list string) :=
  step ← lift_result (patched_step node COMPLETED (Some output));
  brief_emit (step_key node "complete") STEP_COMPLETED RUNNING (Some step) (Some evidence) None (Some (JObj [("output", output)]));;
  mret (ids ++ [ev_id evidence]).

Definition brief_notify (notice : BriefNotice) : prog S unit := attempt (bd_notify deps notice);; mret tt.

Definition brief_base (node : PlanStep) : prog S EvidenceBase :=
  id ← bd_uuid deps;
  at_ ← bd_now deps;
  mret {| ba_id := id; ba_task := task_id task; ba_step := ps_id node; ba_capturedAt := at_ |}.

Definition failWith (ids : list string) (summary : string) (failures : list string) : prog S Outcome :=
  at_ ← bd_now deps;
  outcome ← lift_result (failed_result task ids at_ summary);
  brief_emit "fail" TASK_FAILED FAILED None None (Some outcome) (Some (JObj [("failures", strings_json failures)]));;
  brief_notify {| bn_taskId := task_id task; bn_completed := false; bn_at := at_; bn_text := None |};;
  mret outcome.

Definition brief_abort (ids : list string) (node : PlanStep) (source : string) (metadata : fields) (reason : string) : prog S Outcome :=
  base ← brief_base node;
  evidence ← lift_result (failureEvidence url_ok base source metadata);
  step ← lift_result (patched_step node FAILED (Some (JObj [("failure", JStr reason)])));
  brief_emit (step_key node "failed") STEP_COMPLETED RUNNING (Some step) (Some evidence) None (Some (JObj [("failure", JStr reason)]));;
  failWith (ids ++ [ev_id evidence]) ("brief FAILED: " +:+ reason) [reason].

(** The activity, its digest and the kernel's own state, all inside one try. *)
Definition gather_facts : prog S (result BriefFacts) := attempt (
  windowEnd ← bd_now deps;
  read ← bd_githubActivity deps windowEnd;
  github ← lift_result (GithubActivity_parse read.1);
  lift_result (ensure (capabilityDigest (activity_json github) === read.2) (js_error "DIGEST_MISMATCH"));;
  raw ← bd_kernelState deps {| kq_tenantId := task_tenant task; kq_since := ga_windowStart github; kq_excludeTaskId := task_id task |};
  kernel ← lift_result (KernelState_parse raw);
  lift_result (BriefFacts_parse (brief_facts_json {| bf_github := github; bf_githubDigest := read.2; bf_kernel := kernel |}))).

Definition brief_runtime (ids : list string) (node : PlanStep) (role : RuntimeRole) (port : ModelRequest → prog S ModelCallResult)
    (build : prog S (result ModelRequest)) : prog S RuntimeAnswer :=
  brief_begin node;;
  built ← build;
  match built with
  | Throw _ =>
      o ← brief_abort ids node (brief_role_source role) [("role", JStr (role_text role)); ("error", JStr "PROMPT_TOO_LARGE")]
            (role_upper role +:+ "_PROMPT_TOO_LARGE");
      mret (EndedMission o)
  | Ok request =>
      answer ← callModel port (λ _, mret tt) request;
      match answer with
      | CallFailed r =>
          let e := fr_error r in
          o ← brief_abort ids node (brief_role_source role)
                [("role", JStr (role_text role)); ("provider", JStr (rb_provider (fr_base r))); ("model", JStr (rb_model (fr_base r)));
                 ("call_id", JStr (rb_callId (fr_base r))); ("request_digest", JStr (rb_requestDigest (fr_base r)));
                 ("error", JStr (error_code_name (mf_code e))); ("retryable", JBool (mf_retryable e));
                 ("may_have_run", JBool (mf_mayHaveRun e)); ("http_status", opt_json JNum (mf_httpStatus e))]
                (role_upper role +:+ "_" +:+ error_code_name (mf_code e));
          mret (EndedMission o)
      | CallSucceeded text r => mret (Answered text r)
      end
  end.

Definition brief_memory (analyst : PlanStep) (callId : string) : prog S (option MissionMemoryContext) :=
  match bd_memory deps with
  | Some assemble =>
      r ← attempt (assemble
        {| mm_tenantId := task_tenant task; mm_principal := task_principal task; mm_taskId := task_id task;
           mm_stepId := ps_id analyst; mm_callId := callId;
           mm_purpose := "morning brief: priorities, commitments, projects and repositories to watch";
           mm_project := "morning-brief"; mm_allowedClasses := None; mm_maxTokens := None |});
      mret (Some (match r with Ok c => c | Throw _ => UNAVAILABLE_MEMORY end))
  | None => mret None
  end.

Definition brief_prompt (node : PlanStep) (callId : string) (facts : BriefFacts) (factsDigest : string) : BriefPrompt :=
  {| bp_callId := callId; bp_taskId := task_id task; bp_stepId := ps_id node;
     bp_trace := {| tr_traceId := task_traceId task; tr_correlationId := task_id task; tr_spanId := None |};
     bp_facts := facts; bp_factsDigest := factsDigest |}.

Definition memory_text (memory : option MissionMemoryContext) : string :=
  match memory with Some m => mmc_text m | None => EmptyString end.

Definition brief_analyst (ids : list string) (analyst : PlanStep) (facts : BriefFacts) (factsDigest callId : string)
    (memory : option MissionMemoryContext) : prog S ((string * SuccessReceipt * list string) + Outcome) :=
  r ← brief_runtime ids analyst ROLE_analyst (bd_analyst deps)
        (mret (briefAnalystRequest (brief_prompt analyst callId facts factsDigest) (memory_text memory)));
  match r with
  | EndedMission o => mret (inr o)
  | Answered text receipt =>
      base ← brief_base analyst;
      evidence ← lift_result (runtimeEvidence url_ok base ROLE_analyst text receipt factsDigest (memoryEvidence <$> memory) None []);
      ids' ← brief_complete ids analyst (runtime_output (sha256Text text)) evidence;
      mret (inl (text, receipt, ids'))
  end.

Definition brief_review_build (reviewer : PlanStep) (facts : BriefFacts) (factsDigest analysisText : string)
    (memory : option MissionMemoryContext) : prog S (result ModelRequest) := attempt (
  callId ← bd_uuid deps;
  lift_result (briefReviewerRequest (brief_prompt reviewer callId facts factsDigest) analysisText (sha256Text analysisText)
                 (memory_text memory))).

Definition brief_reviewer (ids : list string) (reviewer : PlanStep) (facts : BriefFacts) (factsDigest analysisText : string)
    (memory : option MissionMemoryContext) : prog S ((string * SuccessReceipt * list string) + Outcome) :=
  r ← brief_runtime ids reviewer ROLE_reviewer (bd_reviewer deps) (brief_review_build reviewer facts factsDigest analysisText memory);
  match r with
  | EndedMission o => mret (inr o)
  | Answered text receipt =>
      base ← brief_base reviewer;
      evidence ← lift_result (runtimeEvidence url_ok base ROLE_reviewer text receipt (sha256Text analysisText) None None []);
      ids' ← brief_complete ids reviewer (runtime_output (sha256Text text)) evidence;
      mret (inl (text, receipt, ids'))
  end.

Definition brief_input (facts : BriefFacts) (memory : option MissionMemoryContext) (analysisText : string) (a : SuccessReceipt)
    (reviewText : string) (r : SuccessReceipt) : BriefReconcileInput :=
  {| bri_facts := facts; bri_memoryIds := match memory with Some m => (mmc_memories m).*1 | None => [] end;
     bri_analysisText := analysisText; bri_analystModel := sr_responseModel a; bri_analystProvider := rb_provider (sr_base a);
     bri_reviewText := reviewText; bri_reviewerModel := sr_responseModel r; bri_reviewerProvider := rb_provider (sr_base r) |}.

(** The notice of a brief the ledger has decided on. *)
Definition brief_announce (finished : Outcome) (brief : BriefAnalysis) (activeRepos : Z) (reviewerModel : string) (withheld : list Z)
  : prog S unit :=
  if out_status finished === O_COMPLETED then
    text ← lift_result (briefMessage ukDate brief (task_id task) activeRepos reviewerModel withheld);
    brief_notify {| bn_taskId := task_id task; bn_completed := true; bn_at := out_completedAt finished; bn_text := Some text |}
  else brief_notify {| bn_taskId := task_id task; bn_completed := false; bn_at := out_completedAt finished; bn_text := None |}.

Definition brief_conclude (ids : list string) (rec : BriefReconciliation) (input : BriefReconcileInput) : prog S Outcome :=
  if negb (br_accepted rec) then failWith ids ("brief REJECTED: " +:+ join "," (briefFailedChecks rec)) (briefFailedChecks rec)
  else
    brief_emit "verify" TASK_VERIFYING VERIFYING None None None None;;
    match parseBrief (bri_analysisText input) with
    | None => throw_st null_access
    | Some brief =>
        at_ ← bd_now deps;
        candidate ← lift_result (completed_result task ids (briefSummary brief (br_withheldItems rec)) at_);
        stored ← brief_emit "complete" TASK_COMPLETED COMPLETED None None (Some candidate) None;
        let finished := default candidate stored in
        brief_announce finished brief (Z.of_nat (length (ga_active (bf_github (bri_facts input))))) (bri_reviewerModel input)
          (br_withheldItems rec);;
        mret finished
    end.

Definition brief_reconcile (ids : list string) (reconcile : PlanStep) (input : BriefReconcileInput) : prog S Outcome :=
  brief_begin reconcile;;
  rec ← lift_result (reconcileBrief toLowerCase input);
  base ← brief_base reconcile;
  evidence ← lift_result (briefReconcileEvidence url_ok base rec);
  ids' ← brief_complete ids reconcile (reconcile_output (br_accepted rec)) evidence;
  brief_conclude ids' rec input.

(** After the evidence: the analyst with the operator's memory, the reviewer with the same, the judgement. *)
Definition brief_runtimes (ids : list string) (facts : BriefFacts) (factsDigest : string) (analyst reviewer reconcile : PlanStep)
  : prog S Outcome :=
  callId ← bd_uuid deps;
  memory ← brief_memory analyst callId;
  a ← brief_analyst ids analyst facts factsDigest callId memory;
  match a with
  | inr o => mret o
  | inl (analysisText, ra, ids) =>
      r ← brief_reviewer ids reviewer facts factsDigest analysisText memory;
      match r with
      | inr o => mret o
      | inl (reviewText, rr, ids) => brief_reconcile ids reconcile (brief_input facts memory analysisText ra reviewText rr)
      end
  end.

Definition runMorningBriefMission : prog S Outcome :=
  nodes ← lift_result (orderedSteps plan);
  match nodes with
  | gather :: analyst :: reviewer :: reconcile :: _ =>
      brief_begin gather;;
      read ← gather_facts;
      match read with
      | Throw e =>
          let code := read_code e in
          brief_abort [] gather BRIEF_SOURCE_facts [("error", JStr code)] ("GITHUB_" +:+ code)
      | Ok facts =>
          let factsDigest := capabilityDigest (brief_facts_json facts) in
          base ← brief_base gather;
          evidence ← lift_result (briefFactsEvidence url_ok base facts factsDigest);
          ids ← brief_complete [] gather (brief_facts_output factsDigest) evidence;
          brief_runtimes ids facts factsDigest analyst reviewer reconcile
      end
  | _ => throw_st (Exn "TypeError" "Cannot read properties of undefined")
  end.
End run.
