(* ===== verification/KernelWorkflow.v ===== *)
(** * The kernel's workflow (services/kernel/src/executor/workflow.ts)

    KernelWorkflowV1 takes a submission to its outcome: it compiles the intent, plans the task,
    writes every event through the ledger ([emit]) and runs the recipe: the deterministic plan
    step by step with its cancellation points, the canary's repository read, the repository
    mission or the morning brief.  The state [Kernel] is the ledger's database, the workflow's
    variable [task] and the world outside; [KernelWorld] is what Restate's context gives
    (random ids, the clock, the durable promise of the decision), [ctx.run] runs once.  The
    schemas of a submission are read on typed data, as in Plan.v. *)

From S2P Require Import Prelude JsNumber JsDate Digest Contracts Plan Capability Json Mission Brief Regex MemPolicy.
From S2P Require Import MemContext MemPort Model Faculty Identity Cognition Assembly MissionRun BriefRun.
From S2P Require Import RepositoryRead Ledger.
Local Open Scope Z_scope.
Local Open Scope js_scope.

(** ** State and interfaces *)

Record Kernel (X W : Type) := { k_db : LedgerDb X; k_task : Task; k_world : W }.
Arguments k_db {X W}. Arguments k_task {X W}. Arguments k_world {X W}. Arguments Build_Kernel {X W}.

(** [Signal] of deterministic.ts. *)
Record Signal := { sg_cancel : bool; sg_reason : option string }.

Definition Signal_parse (v : json) : result Signal :=
  fs ← z_strict ["action"; "reason"] v;
  action ← z_field fs "action" (z_enum [("RESUME", false); ("CANCEL", true)]);
  reason ← z_optional fs "reason" (z_string (λ _, true));
  text ← opt_parse Text_parse reason;
  Ok {| sg_cancel := action; sg_reason := text |}.

Record KernelWorld (W : Type) := {
  kw_uuid : prog W string;                 (* ctx.rand.uuidv4() *)
  kw_dateNow : prog W Z;                   (* ctx.date.now() *)
  kw_clock : prog W string;                (* new Date().toISOString(), inside a journaled step *)
  kw_peek : prog W (option Signal);        (* ctx.promise("decision").peek() *)
  kw_decision : prog W Signal;             (* await ctx.promise("decision") *)
  kw_resolve : Signal → prog W unit
}.
Arguments kw_uuid {W}. Arguments kw_dateNow {W}. Arguments kw_clock {W}. Arguments kw_peek {W}. Arguments kw_decision {W}.
Arguments kw_resolve {W}.

Record RepositoryReadRequest := {
  rq_runId : string; rq_taskId : string; rq_stepId : string; rq_trace : TraceRef; rq_idempotencyKey : string; rq_targetFile : string
}.
Record CapabilityService (S : Type) := {
  cs_repositoryRead : RepositoryReadRequest → prog S CapabilityResult;
  cs_githubRead : string → prog S (json * string);
  cs_githubActivity : string → prog S (json * string)
}.
Record BriefWiring (S : Type) := { bw_notify : BriefNotice → prog S unit; bw_kernelState : KernelStateRequest → prog S json }.
Record MissionWiring (S : Type) := {
  mw_analyst : ModelRequest → prog S ModelCallResult;
  mw_reviewer : ModelRequest → prog S ModelCallResult;
  mw_notify : MissionNotice → prog S unit;
  mw_memory : option (MissionMemoryRequest → prog S MissionMemoryContext);
  mw_faculties : option (FacultyPort S);
  mw_identity : option (IdentityPort S);
  mw_brief : option (BriefWiring S)
}.
Record KernelWorkflowOptions (S : Type) := {
  ko_canary : option string;               (* approvedContentSha256 *)
  ko_capabilityService : option (CapabilityService S);
  ko_canaryTargetFile : option string;
  ko_mission : option (MissionWiring S)
}.
Arguments cs_repositoryRead {S}. Arguments cs_githubRead {S}. Arguments cs_githubActivity {S}. Arguments bw_notify {S}.
Arguments bw_kernelState {S}. Arguments mw_analyst {S}. Arguments mw_reviewer {S}. Arguments mw_notify {S}. Arguments mw_memory {S}.
Arguments mw_faculties {S}. Arguments mw_identity {S}. Arguments mw_brief {S}. Arguments ko_canary {S}.
Arguments ko_capabilityService {S}. Arguments ko_canaryTargetFile {S}. Arguments ko_mission {S}.

Definition terminal_error (message : string) : exn := Exn "TerminalError" message.

(** A deterministic event id for a call's MODEL_CALLED record. *)
Definition modelCalledEventId (callId : string) : string :=
  let h := Sha256.sha256_hex ("kerneljson:model-called:" +:+ callId) in
  slice 0 8 h +:+ "-" +:+ slice 8 12 h +:+ "-4" +:+ slice 13 16 h +:+ "-a" +:+ slice 17 20 h +:+ "-" +:+ slice 20 32 h.

(** The objective grammars that reject at admission. *)
Definition objective_grammar (recipe : RecipeId) (objective : string) : result unit :=
  match recipe with
  | RepoAnalysisMission => parseMissionObjective objective;; Ok tt
  | MorningBrief => parseBriefObjective objective;; Ok tt
  | IdentityChange => parseIdentityChangeObjective objective;; Ok tt
  | _ => Ok tt
  end.

Definition intent_json (i : IntentEnvelope) : json :=
  JObj [("id", JStr (in_id i)); ("principal", principal_json (in_principal i)); ("tenant", JObj [("id", JStr (in_tenant i))]);
        ("source", JStr (in_source i)); ("objective", JStr (in_objective i)); ("attachments", strings_json (in_attachments i));
        ("contextRefs", strings_json (in_contextRefs i)); ("receivedAt", JStr (in_receivedAt i)); ("trace", trace_json (in_trace i))].

(** [{ status, ...payload }] *)
Definition with_status_field (status : TaskStatus) (p : EventPayload) : EventPayload :=
  let field := ("status", JStr (status_name status)) in
  match p with
  | PlanPayload before plan others => PlanPayload (field :: before) plan others
  | JsonPayload (JObj fs) => JsonPayload (JObj (field :: fs))
  | p => p
  end.

(** [String(v)] of a JSON value; [None] is undefined. *)
Fixpoint js_String (v : json) : string :=
  match v with
  | JNull => "null"
  | JBool b => bool_text b
  | JNum n => int_text n
  | JFloat f => float_text f
  | JStr s => s
  | JArr l => join "," (map (λ x, match x with JNull => EmptyString | x => js_String x end) l)
  | JObj _ => "[object Object]"
  end.
Definition String_of (v : option json) : string := match v with Some x => js_String x | None => "undefined" end.

(** The task after an emission. *)
Definition progressed (t : Task) (key : string) (status : TaskStatus) (occurredAt : string) : Task :=
  {| task_id := task_id t; task_parentTaskId := task_parentTaskId t; task_principal := task_principal t;
     task_tenant := task_tenant t; task_objective := task_objective t; task_acceptanceCriteria := task_acceptanceCriteria t;
     task_constraints := task_constraints t; task_riskClass := task_riskClass t; task_budget := task_budget t;
     task_deadline := task_deadline t; task_status := status; task_traceId := task_traceId t; task_createdAt := task_createdAt t;
     task_startedAt := if key === "start" then Some occurredAt else task_startedAt t;
     task_completedAt := if status === COMPLETED then Some occurredAt else task_completedAt t |}.

(** A step's row with another status, input and output. *)
Definition step_with (s : TaskStep) (status : TaskStatus) (input : json) (output : option json) : TaskStep :=
  {| step_id := step_id s; step_taskId := step_taskId s; step_kind := step_kind s; step_status := status;
     step_dependencies := step_dependencies s; step_requiredCapabilities := step_requiredCapabilities s;
     step_riskClass := step_riskClass s; step_retryPolicy := step_retryPolicy s; step_timeout := step_timeout s;
     step_input := input; step_output := output; step_idempotencyKey := step_idempotencyKey s |}.
Definition step_as (s : TaskStep) (status : TaskStatus) : TaskStep := step_with s status (step_input s) (step_output s).

Section workflow.
Context {X W : Type} (world : KernelWorld W).
Context (toUpperCase : string → string) (url_ok : string → bool) (toLowerCase : string → string) (ukDate : Z → string).
Context (facultyOracle identityOracle : LedgerDb X → Task → option ExecutionPlan → list Evidence → result unit).
(** The ledger of the worker, for KernelWorkflowV1. *)
Context (wk : Worker).
Local Abbreviation St := (Kernel X W).

Definition on_ledger {A} (m : prog (LedgerDb X) A) : prog St A := λ s,
  let '(d, r) := m (k_db s) in ({| k_db := d; k_task := k_task s; k_world := k_world s |}, r).
Definition on_world {A} (m : prog W A) : prog St A := λ s,
  let '(w, r) := m (k_world s) in ({| k_db := k_db s; k_task := k_task s; k_world := w |}, r).
Definition current : prog St Task := s ← get_st; mret (k_task s).
Definition assign (t : Task) : prog St unit := s ← get_st; put_st {| k_db := k_db s; k_task := t; k_world := k_world s |}.

Definition ledger_write : Write → prog (LedgerDb X) unit :=
  write toUpperCase url_ok toLowerCase facultyOracle identityOracle (wk_workflow wk) (wk_releaseId wk) (wk_canary wk).
Definition ledger_finish : Write → prog (LedgerDb X) Outcome :=
  finish toUpperCase url_ok toLowerCase facultyOracle identityOracle (wk_workflow wk) (wk_releaseId wk) (wk_canary wk).

Definition now : prog St string := ms ← on_world (kw_dateNow world); mret (toISOString ms).

Record Extra := { ex_step : option TaskStep; ex_steps : option (list TaskStep); ex_evidence : option Evidence; ex_outcome : option Outcome }.
Definition no_extra : Extra := {| ex_step := None; ex_steps := None; ex_evidence := None; ex_outcome := None |}.
Definition of_step (s : TaskStep) (e : option Evidence) : Extra :=
  {| ex_step := Some s; ex_steps := None; ex_evidence := e; ex_outcome := None |}.
Definition of_outcome (o : Outcome) (s : option TaskStep) : Extra :=
  {| ex_step := s; ex_steps := None; ex_evidence := None; ex_outcome := Some o |}.
Definition no_fields : EventPayload := JsonPayload (JObj []).

Definition emission_write (key : string) (task : Task) (event : TaskEvent) (extra : Extra) : Write :=
  {| w_key := key; w_task := task; w_event := event; w_step := ex_step extra; w_steps := ex_steps extra;
     w_evidence := ex_evidence extra; w_outcome := ex_outcome extra |}.

(** [emit] *)
Definition emit (key : string) (type : TaskEventType) (status : TaskStatus) (extra : Extra) (payload : EventPayload)
  : prog St (option Outcome) :=
  occurredAt ← now;
  old ← current;
  task ← lift_result (Task_parse (progressed old key status occurredAt));
  assign task;;
  id ← on_world (kw_uuid world);
  event ← lift_result (TaskEvent_parse
    {| te_id := id; te_taskId := task_id task; te_stepId := step_id <$> ex_step extra; te_type := type; te_occurredAt := occurredAt;
       te_actor := task_principal task; te_traceId := task_traceId task; te_payload := with_status_field status payload |});
  if status === COMPLETED then o ← on_ledger (ledger_finish (emission_write key task event extra)); mret (Some o)
  else on_ledger (ledger_write (emission_write key task event extra));; mret None.

(** The [emit] the missions are given. *)
Definition emit_emission (e : Emission) : prog St (option Outcome) :=
  emit (em_key e) (em_type e) (em_status e)
    {| ex_step := em_step e; ex_steps := None; ex_evidence := em_evidence e; ex_outcome := em_outcome e |}
    (JsonPayload (default (JObj []) (em_payload e))).

(** The direct write of a call's binding. *)
Definition recordModelCall (binding : ModelCallBinding) (occurredAt : string) : prog St unit :=
  task ← current;
  event ← lift_result (TaskEvent_parse
    {| te_id := modelCalledEventId (mb_call_id binding); te_taskId := task_id task; te_stepId := Some (mb_step_id binding);
       te_type := MODEL_CALLED; te_occurredAt := occurredAt; te_actor := task_principal task; te_traceId := task_traceId task;
       te_payload := JsonPayload (JObj [("status", JStr "RUNNING"); ("binding", call_binding_json binding)]) |});
  on_ledger (ledger_write (emission_write ("model:" +:+ mb_call_id binding +:+ ":called") task event no_extra)).

Definition mission_deps (service : CapabilityService St) (mission : MissionWiring St) : MissionDeps St :=
  {| md_emit := emit_emission; md_now := now; md_clock := on_world (kw_clock world); md_uuid := on_world (kw_uuid world);
     md_githubRead := cs_githubRead service; md_analyst := mw_analyst mission; md_reviewer := mw_reviewer mission;
     md_memory := mw_memory mission; md_faculties := mw_faculties mission; md_identity := mw_identity mission;
     md_recordModelCall := Some recordModelCall; md_notify := mw_notify mission |}.

Definition brief_deps (service : CapabilityService St) (mission : MissionWiring St) (brief : BriefWiring St) : BriefDeps St :=
  {| bd_emit := emit_emission; bd_now := now; bd_uuid := on_world (kw_uuid world); bd_githubActivity := cs_githubActivity service;
     bd_kernelState := bw_kernelState brief; bd_analyst := mw_analyst mission; bd_reviewer := mw_reviewer mission;
     bd_memory := mw_memory mission; bd_notify := bw_notify brief |}.

(** *** The canary's repository read *)

(** [receipt[key]] of the result's output. *)
Definition receipt_field (receipt : json) (key : string) : result (option json) :=
  match receipt with JNull => Throw null_access | v => Ok (get_prop v key) end.

Definition canary_evidence (task : Task) (node : PlanStep) (id at_ : string) (receipt : json) : result Evidence :=
  sha ← receipt_field receipt "content_sha256";
  let content := String_of sha in
  let field key := nullish (get_prop receipt key) JNull in
  Evidence_parse url_ok
    {| ev_id := id; ev_taskId := task_id task; ev_stepId := Some (ps_id node); ev_type := TOOL_RECEIPT;
       ev_source := "kerneljson:repository-read-local/v1"; ev_ref := None; ev_uri := None; ev_digest := Some content;
       ev_capturedAt := at_;
       ev_metadata := [("capability", JStr "repository.read"); ("target_path", field "target_path"); ("content_sha256", JStr content);
                       ("mutations_detected", field "mutations_detected"); ("output_hash", field "output_hash")] |}.

Definition canary_failed (task : Task) (failures : list string) (at_ : string) : result Outcome :=
  let reason := join "," failures in
  failed_result task [] at_ ("claude_md_check FAILED: " +:+ (if reason === EmptyString then "CLAUDE_MD_DRIFT" else reason)).

Definition run_canary (approved : string) (service : CapabilityService St) (targetFile : option string) (node : PlanStep)
  : prog St Outcome :=
  started ← lift_result (patched_step node RUNNING None);
  emit (step_key node "start") STEP_STARTED RUNNING (of_step started None) no_fields;;
  runId ← on_world (kw_uuid world);
  task ← current;
  res ← cs_repositoryRead service
    {| rq_runId := runId; rq_taskId := task_id task; rq_stepId := ps_id node;
       rq_trace := {| tr_traceId := task_traceId task; tr_correlationId := task_id task; tr_spanId := None |};
       rq_idempotencyKey := task_id task +:+ ":" +:+ ps_id node; rq_targetFile := default "CLAUDE.md" targetFile |};
  lift_result (receipt_field (res_output res) "content_sha256");;
  evidenceId ← on_world (kw_uuid world);
  at_ ← now;
  evidence ← lift_result (canary_evidence task node evidenceId at_ (res_output res));
  done ← lift_result (patched_step node COMPLETED (Some (res_output res)));
  emit (step_key node "complete") STEP_COMPLETED RUNNING (of_step done (Some evidence)) (JsonPayload (JObj [("output", res_output res)]));;
  emit "verify" TASK_VERIFYING VERIFYING no_extra no_fields;;
  at_ ← now;
  task ← current;
  candidate ← lift_result (completed_result task [evidenceId]
    (js_String (nullish (get_prop (res_output res) "summary") (JStr "repository.read complete"))) at_);
  let verification := verifyClaudeMdCheck url_ok (task_id task) res evidence candidate approved in
  if passed verification then
    o ← emit "complete" TASK_COMPLETED COMPLETED (of_outcome candidate None) no_fields;
    mret (default candidate o)
  else
    at_ ← now;
    failed ← lift_result (canary_failed task (vf_failures verification) at_);
    emit "fail" TASK_FAILED FAILED (of_outcome failed None) (JsonPayload (JObj [("failures", strings_json (vf_failures verification))]));;
    mret failed.

(** *** The deterministic plan *)

Definition cancel_run (step : option TaskStep) : prog St Outcome :=
  at_ ← now;
  task ← current;
  outcome ← lift_result (Outcome_parse
    {| out_taskId := task_id task; out_status := O_CANCELLED; out_acceptanceResults := []; out_evidenceRefs := [];
       out_summary := "Cancelled at a step boundary"; out_completedAt := at_ |});
  emit "cancel" TASK_CANCELLED Contracts.CANCELLED (of_outcome outcome ((λ s, step_as s Contracts.CANCELLED) <$> step)) no_fields;;
  mret outcome.

(** The output of a step, or the outcome of the run it cancelled. *)
Definition step_output_of (node : PlanStep) (step : TaskStep) (input : string) : prog St (string + Outcome) :=
  if ps_operation node === OP_WAIT_FOR_EVENT then
    emit (step_key node "wait") TASK_WAITING WAITING (of_step (step_as step WAITING) None) no_fields;;
    decision ← on_world (kw_decision world);
    if sg_cancel decision then o ← cancel_run (Some step); mret (inr o)
    else
      emit (step_key node "resume") TASK_RESUMED RUNNING (of_step step None) no_fields;;
      mret (inl input)
  else output ← lift_result (executeFunction toUpperCase (ps_operation node) input); mret (inl output).

(** [(await peek())?.action === "CANCEL"] *)
Definition asked_to_cancel (d : option Signal) : bool := match d with Some g => sg_cancel g | None => false end.

Definition run_node (node : PlanStep) (outputs : gmap string string) : prog St (string + Outcome) :=
  decision ← on_world (kw_peek world);
  if asked_to_cancel decision then o ← cancel_run None; mret (inr o)
  else
    task ← current;
    input ← lift_result (resolveInput node task outputs);
    base ← lift_result (projectStep node);
    step ← lift_result (TaskStep_parse (step_with base RUNNING (JStr input) (step_output base)));
    emit (step_key node "start") STEP_STARTED RUNNING (of_step step None) no_fields;;
    output ← step_output_of node step input;
    match output with
    | inr o => mret (inr o)
    | inl output =>
        emit (step_key node "complete") STEP_COMPLETED RUNNING
          (of_step (step_with step COMPLETED (step_input step) (Some (JStr output))) None) (JsonPayload (JObj [("output", JStr output)]));;
        mret (inl output)
    end.

Fixpoint run_nodes (nodes : list PlanStep) (outputs : gmap string string) : prog St (gmap string string + Outcome) :=
  match nodes with
  | [] => mret (inl outputs)
  | node :: rest =>
      r ← run_node node outputs;
      match r with
      | inr o => mret (inr o)
      | inl output => run_nodes rest (<[ps_id node := output]> outputs)
      end
  end.

(** The evidence and the request for completion; a valid plan's result step has an output. *)
Definition finish_plan (plan : ExecutionPlan) (outputs : gmap string string) : prog St Outcome :=
  task ← current;
  match outputs !! plan_resultStepId plan with
  | None => throw_st (zod_error "summary")
  | Some output =>
      let metadata := plan_metadata (digest (plan_json plan)) (task_objective task) output in
      id ← on_world (kw_uuid world);
      at_ ← now;
      evidence ← lift_result (Evidence_parse url_ok
        {| ev_id := id; ev_taskId := task_id task; ev_stepId := Some (plan_resultStepId plan); ev_type := DETERMINISTIC_RESULT;
           ev_source := "kerneljson:plan/v1"; ev_ref := None; ev_uri := None; ev_digest := Some (digest (JObj metadata));
           ev_capturedAt := at_; ev_metadata := metadata |});
      emit "evidence" EVIDENCE_RECEIVED RUNNING
        {| ex_step := None; ex_steps := None; ex_evidence := Some evidence; ex_outcome := None |} no_fields;;
      emit "verify" TASK_VERIFYING VERIFYING no_extra no_fields;;
      at_ ← now;
      outcome ← lift_result (completed_result task [ev_id evidence] output at_);
      o ← emit "complete" TASK_COMPLETED COMPLETED (of_outcome outcome None) no_fields;
      mret (default outcome o)
  end.

Definition run_plan (plan : ExecutionPlan) : prog St Outcome :=
  nodes ← lift_result (orderedSteps plan);
  r ← run_nodes nodes ∅;
  match r with
  | inr o => mret o
  | inl outputs => finish_plan plan outputs
  end.

(** *** The handlers *)

(** The five emissions before a recipe runs. *)
Definition admit_task (submission : KernelSubmission) (plan : ExecutionPlan) : prog St unit :=
  let intent := sub_intent submission in
  emit "create" TASK_CREATED RECEIVED no_extra
    (JsonPayload (JObj [("intent", intent_json intent); ("recipe", JStr (recipe_name (plan_recipe plan))); ("compilerVersion", JNum 1)]));;
  emit "intent" INTENT_RESOLVED RECEIVED no_extra
    (JsonPayload (JObj [("intentId", JStr (in_id intent)); ("correlationId", JStr (tr_correlationId (in_trace intent)))]));;
  steps ← lift_result (map_all projectStep (plan_steps plan));
  emit "compile" PLAN_COMPILED COMPILED {| ex_step := None; ex_steps := Some steps; ex_evidence := None; ex_outcome := None |}
    (PlanPayload [] plan [("planDigest", JStr (digest (plan_json plan)))]);;
  emit "ready" TASK_READY READY no_extra no_fields;;
  emit "start" TASK_STARTED RUNNING no_extra no_fields;;
  mret tt.

Context (options : KernelWorkflowOptions St).

Definition run_recipe (plan : ExecutionPlan) : prog St Outcome :=
  if plan_recipe plan === MorningBrief then
    match ko_capabilityService options, ko_mission options with
    | Some service, Some mission =>
        match mw_brief mission with
        | Some brief =>
            task ← current;
            runMorningBriefMission (brief_deps service mission brief) url_ok toLowerCase ukDate task plan
        | None => throw_st (terminal_error "Morning brief requires configured mission runtimes, brief wiring and a capability service")
        end
    | _, _ => throw_st (terminal_error "Morning brief requires configured mission runtimes, brief wiring and a capability service")
    end
  else if plan_recipe plan === RepoAnalysisMission then
    match ko_capabilityService options, ko_mission options with
    | Some service, Some mission =>
        task ← current;
        runRepoAnalysisMission (mission_deps service mission) url_ok toLowerCase task plan
    | _, _ => throw_st (terminal_error "Mission recipe requires configured mission runtimes and a capability service")
    end
  else
    nodes ← lift_result (orderedSteps plan);
    match List.find (λ n, ps_operation n === OP_REPOSITORY_READ) nodes with
    | Some node =>
        match ko_canary options, ko_capabilityService options with
        | Some approved, Some service => run_canary approved service (ko_canaryTargetFile options) node
        | _, _ => throw_st (terminal_error "Capability recipe requires a configured capability service and approved digest")
        end
    | None => run_plan plan
    end.

(** [run] of the workflow with this key. *)
Definition run (key : string) (raw : KernelSubmission) : prog St Outcome :=
  compiled ← lift_result (match compileIntent objective_grammar raw with
    | Ok c => Ok c | Throw _ => Throw (terminal_error "Unsupported or invalid kernel submission") end);
  let task := compiled.1 in
  let invalid := terminal_error "Invalid task key or future receivedAt" in
  assign task;;
  lift_result (ensure (key === task_id task) invalid);;
  ms ← on_world (kw_dateNow world);
  lift_result (ensure (negb (match Date_parse (task_createdAt task) with Some t => ms <? t | None => false end)) invalid);;
  plan ← lift_result (planTask task (sub_recipe compiled.2));
  admit_task compiled.2 plan;;
  run_recipe plan.

(** The shared handlers: [status], [signal] and [cancel]. *)
Definition decide_signal (raw : json) : prog St Signal :=
  match Signal_parse raw with
  | Throw _ => throw_st (terminal_error "Invalid decision")
  | Ok g =>
      prior ← on_world (kw_peek world);
      match prior with
      | Some _ => on_world (kw_decision world)
      | None =>
          r ← attempt (on_world (kw_resolve world g));
          match r with
          | Ok _ => on_world (kw_decision world)
          | Throw e =>
              again ← on_world (kw_peek world);
              match again with Some _ => on_world (kw_decision world) | None => throw_st e end
          end
      end
  end.

Definition run_status (key : string) : prog St (option Task) := on_ledger (status key).
Definition signal_run (raw : json) : prog St Signal := decide_signal raw.
Definition cancel_signal : prog St Signal := decide_signal (JObj [("action", JStr "CANCEL")]).
End workflow.
