(* ===== verification/KernelFacts.v ===== *)
(** * A run of the kernel's workflow ends as its ledger says

    The runs of KernelWorkflow.v over the ledger of Ledger.v, with the mission of MissionRun.v and
    the brief of BriefRun.v inside.  [unsettled] is what holds of the ledger until the workflow
    writes its last event, [settled] what holds after; every operation that is no such write
    preserves both ([quiet]), so a run that returns has settled its task with what it returned. *)

From S2P Require Import Prelude JsNumber JsDate Digest Contracts Plan Capability Json Mission Brief Regex MemPolicy.
From S2P Require Import MemContext MemPort Model Faculty Identity Cognition Assembly MissionRun.
From S2P Require Import MissionRunFacts BriefRun RepositoryRead Ledger KernelWorkflow.
Local Open Scope Z_scope.
Local Open Scope js_scope.

(** ** The ledger before and after the last write *)

Definition status_of (o : OutcomeStatus) : TaskStatus :=
  match o with O_COMPLETED => COMPLETED | O_FAILED => FAILED | O_CANCELLED => Contracts.CANCELLED end.

(** The keys under which a workflow writes an outcome. *)
Definition last_keys : list string := ["complete"; "complete:verification-failed"; "fail"; "cancel"].

Record unsettled {X W} (i : string) (s : Kernel X W) : Prop := {
  us_ledger : ledger_ok (k_db s);
  us_task : task_id (k_task s) = i;
  us_live : terminal (task_status (k_task s)) = false;
  us_keys : ∀ k, k ∈ last_keys → find_key i k (l_events (k_db s)) = None;
  us_outcome : l_outcomes (k_db s) !! i = None;
  us_terminal : l_terminal (k_db s) !! i = None
}.

Record settled {X W} (i : string) (o : Outcome) (s : Kernel X W) : Prop := {
  st_ledger : ledger_ok (k_db s);
  st_row : ∃ t, l_tasks (k_db s) !! i = Some t ∧ task_status t = status_of (out_status o);
  st_outcome : l_outcomes (k_db s) !! i = Some o
}.

(** What neither settles the task nor loses what settled it. *)
Record quiet_step {X W} (i : string) (s s' : Kernel X W) : Prop := {
  qs_unsettled : unsettled i s → unsettled i s';
  qs_settled o : settled i o s → settled i o s'
}.

#[export] Instance quiet_step_order {X W} i : PreOrder (quiet_step (X := X) (W := W) i).
Proof. split; [by intros s|]. intros s1 s2 s3 [H1 H1'] [H2 H2']. split; auto. Qed.

(** What other parts of the system do to the database beside the workflow: any operations of
    the ledger that write no row of this task. *)
Definition beside {X} (i : string) (d d' : LedgerDb X) : Prop :=
  rtc change d d' ∧ l_tasks d' !! i = l_tasks d !! i ∧ l_outcomes d' !! i = l_outcomes d !! i ∧
  l_terminal d' !! i = l_terminal d !! i ∧
  ∀ k, find_key i k (l_events d') = find_key i k (l_events d).

Lemma changes_ok {X} (d d' : LedgerDb X) : rtc change d d' → ledger_ok d → ledger_ok d'.
Proof. induction 1 as [|d1 d2 d3 Hc _ IH]; [done|]. intros Hd. apply IH. by eapply change_ok. Qed.

Lemma beside_quiet {X W} i (s s' : Kernel X W) : beside i (k_db s) (k_db s') → k_task s' = k_task s → quiet_step i s s'.
Proof.
  intros (Hc & Ht & Ho & Hx & Hk) Et. split.
  - intros [Hl Hi Hv Hks Hn Hn']. split; rewrite ?Et, ?Ho, ?Hx; try done; [by eapply changes_ok|]. intros k. rewrite Hk. apply Hks.
  - intros o [Hl Hr Hou]. split; rewrite ?Ht, ?Ho; try done. by eapply changes_ok.
Qed.

(** A change of the ledger keeps what is settled. *)
Lemma change_settled {X W} i o (s s' : Kernel X W) : change (k_db s) (k_db s') → settled i o s → settled i o s'.
Proof.
  intros Hc [Hl (t & Ht & Hst) Ho]. pose proof (change_grown _ _ Hc) as Hg. split; [by eapply change_ok| |by apply Hg].
  destruct (gr_tasks _ _ Hg _ _ Ht) as (t' & Ht' & Heq). exists t'. split; [done|]. rewrite Heq; [done|]. rewrite Hst.
  by destruct (out_status o).
Qed.

(** [m], started where [P] holds, returns only what [Q] holds of. *)
Definition runs {S A} (P : S → Prop) (m : prog S A) (Q : A → S → Prop) : Prop :=
  ∀ s s' a, P s → m s = (s', Ok a) → Q a s'.

Section runs.
Context {S : Type}.
Implicit Types P : S → Prop.

Lemma runs_bind {A B} P (m : prog S A) (k : A → prog S B) R Q :
  runs P m R → (∀ a, runs (R a) (k a) Q) → runs P (m ≫= k) Q.
Proof. intros Hm Hk s s' b HP (a & s1 & H1 & H2)%pbind_ok. eapply Hk; [|exact H2]. by eapply Hm. Qed.

Lemma runs_ret {A} P (a : A) Q : (∀ s, P s → Q a s) → runs P (mret a) Q.
Proof. intros HQ s s' b HP [-> ->]%ret_ok. auto. Qed.

Lemma runs_throw {A} P e Q : runs P (throw_st e : prog S A) Q.
Proof. by intros s s' a. Qed.

Lemma runs_lift_then {A B} P (r : result A) (k : A → prog S B) Q :
  (∀ a, r = Ok a → runs P (k a) Q) → runs P (lift_result r ≫= k) Q.
Proof. intros Hk s s' b HP (a & s1 & [-> Hr]%lift_ok & H2)%pbind_ok. by eapply Hk. Qed.

Lemma runs_mono {A} P (m : prog S A) (Q Q' : A → S → Prop) : runs P m Q → (∀ a s, Q a s → Q' a s) → runs P m Q'.
Proof. intros Hm HQ s s' a HP H. eapply HQ, Hm; done. Qed.

(** A step that keeps [P] before the rest. *)
Lemma runs_then {A B} P (m : prog S A) (k : A → prog S B) Q :
  runs P m (λ _, P) → (∀ a, runs P (k a) Q) → runs P (m ≫= k) Q.
Proof. intros Hm Hk. by eapply runs_bind. Qed.

Lemma runs_quiet {A} (R : S → S → Prop) P (m : prog S A) : silent R m → (∀ s s', R s s' → P s → P s') → runs P m (λ _, P).
Proof. intros Hm HR s s' a HP H. eapply HR; [|exact HP]. specialize (Hm s). by rewrite H in Hm. Qed.
End runs.

(** ** The workflow's emissions *)

Lemma find_key_other t k l e : le_key e ≠ k → find_key t k (l ++ [e]) = find_key t k l.
Proof.
  intros Hk. unfold find_key. induction l as [|x l IH]; cbn.
  - rewrite (bool_decide_false (le_key e = k)) by done. by rewrite andb_false_r.
  - destruct (_ && _); [done|exact IH].
Qed.

Lemma live_terminal_after {X} (d : LedgerDb X) task at_ :
  terminal (task_status task) = false → terminal_after d task at_ = l_terminal d.
Proof. intros Hl. unfold terminal_after. destruct (l_tasks d !! _); [|done]. unfold terminal_trigger. by destruct (task_status task). Qed.

Section emissions.
Context {X W : Type} (world : KernelWorld W).
Context (toUpperCase : string → string) (url_ok : string → bool) (toLowerCase : string → string).
Context (facultyOracle identityOracle : LedgerDb X → Task → option ExecutionPlan → list Evidence → result unit).
Context (wk : Worker) (i : string).
Local Abbreviation St := (Kernel X W).
Local Abbreviation kernel_write := (ledger_write toUpperCase url_ok toLowerCase facultyOracle identityOracle wk).
Local Abbreviation kernel_finish := (ledger_finish toUpperCase url_ok toLowerCase facultyOracle identityOracle wk).
Local Abbreviation kernel_emit := (emit world toUpperCase url_ok toLowerCase facultyOracle identityOracle wk).

Lemma on_world_quiet {A} (m : prog W A) : silent (quiet_step i) (on_world (X := X) m).
Proof.
  intros s. unfold on_world. destruct (m (k_world s)) as [w r]. apply beside_quiet; [|done]. cbn. by split_and!.
Qed.

Lemma now_quiet : silent (quiet_step i) (now (X := X) world).
Proof. unfold now. silent. apply on_world_quiet. Qed.

(** An accepted write of the workflow's task under a key of its own. *)
Lemma write_unsettled (s s' : St) w task status :
  unsettled i s → kernel_write w (k_db s) = (k_db s', Ok tt) → w_key w ∉ last_keys → w_task w = task → k_task s' = task →
  task_id task = i → task_status task = status → terminal status = false → w_outcome w = None → unsettled i s'.
Proof.
  intros [Hl Hi Hv Hk Hn Hx] Hw Hkey Etask Ek Hid Hst Hlive Hno.
  pose proof (write_change _ _ _ _ _ _ _ _ _ Hw) as Hc.
  destruct (write_ok _ _ _ _ _ _ _ _ _ _ _ Hw) as (task' & event & evidence & outcome & Ht & He & Hev & Ho & _ & Hwr).
  rewrite Etask in Ht. apply Task_parse_same in Ht as [Hid' Hst'].
  rewrite Hno in Ho. cbn in Ho. apply Ok_inj in Ho as <-.
  split; [by eapply change_ok|congruence|congruence|..].
  - intros k Hin. destruct Hwr as [(_ & _ & _ & ->)|Hwr]; [by apply Hk|]. rewrite (wr_events _ _ _ _ _ _ _ _ Hwr).
    rewrite find_key_other; [by apply Hk|]. cbn. by intros <-.
  - destruct Hwr as [(_ & _ & _ & ->)|Hwr]; [done|]. by rewrite (wr_outcomes _ _ _ _ _ _ _ _ Hwr).
  - destruct Hwr as [(_ & _ & _ & ->)|Hwr]; [done|]. rewrite (wr_terminal _ _ _ _ _ _ _ _ Hwr), live_terminal_after; [done|congruence].
Qed.

(** An accepted write that carries the task's outcome. *)
Lemma write_settles (s s' : St) w task o :
  unsettled i s → kernel_write w (k_db s) = (k_db s', Ok tt) → w_key w ∈ last_keys → w_task w = task →
  task_id task = i → task_status task = status_of (out_status o) → w_outcome w = Some o → Outcome_parse o = Ok o → settled i o s'.
Proof.
  intros [Hl Hi Hv Hk Hn Hx] Hw Hkey Etask Hid Hst Ho Hpo.
  pose proof (write_change _ _ _ _ _ _ _ _ _ Hw) as Hc.
  destruct (write_ok _ _ _ _ _ _ _ _ _ _ _ Hw) as (task' & event & evidence & outcome & Ht & He & Hev & Ho' & _ & Hwr).
  rewrite Etask in Ht. apply Task_parse_same in Ht as [Hid' Hst'].
  rewrite Ho in Ho'. cbn in Ho'. rewrite Hpo in Ho'. apply Ok_inj in Ho' as <-.
  destruct Hwr as [(prior & Hf & _)|Hwr]; [rewrite Hid', Hid, (Hk _ Hkey) in Hf; done|].
  split; [by eapply change_ok| |].
  - exists task'. rewrite (wr_tasks _ _ _ _ _ _ _ _ Hwr), Hid', Hid, lookup_insert_eq. split; [done|congruence].
  - rewrite (wr_outcomes _ _ _ _ _ _ _ _ Hwr). cbn. by rewrite Hid', Hid, lookup_insert_eq.
Qed.

Lemma on_world_same {A} (m : prog W A) (s s' : St) r : on_world m s = (s', r) → k_db s' = k_db s ∧ k_task s' = k_task s.
Proof. unfold on_world. destruct (m (k_world s)) as [w x]. by intros [= <- _]. Qed.

Lemma now_same (s s' : St) r : now world s = (s', Ok r) → k_db s' = k_db s ∧ k_task s' = k_task s.
Proof. unfold now. by intros (ms & s1 & H & [-> _]%ret_ok)%pbind_ok; apply on_world_same in H. Qed.

(** What an accepted emission did: the task it assigned and the write it made. *)
Lemma emit_ok key type status extra payload (s s' : St) r :
  kernel_emit key type status extra payload s = (s', Ok r) →
  ∃ event, let w := emission_write key (k_task s') event extra in
    task_id (k_task s') = task_id (k_task s) ∧ task_status (k_task s') = status ∧
    if status === COMPLETED then ∃ o, kernel_finish w (k_db s) = (k_db s', Ok o) ∧ r = Some o
    else kernel_write w (k_db s) = (k_db s', Ok tt) ∧ r = None.
Proof.
  unfold emit. intros (at_ & s1 & [Ed Et]%now_same & (old & s2 & [= <- <-] & H)%pbind_ok)%pbind_ok.
  apply pbind_ok in H as (task & s2 & [-> Ht]%lift_ok & H).
  apply Task_parse_same in Ht as [Hid Hst]. cbn in Hid, Hst. rewrite Et in Hid.
  apply pbind_ok in H as ([] & s2 & [= <-] & H). apply pbind_ok in H as (id & s2 & [Ed' Et']%on_world_same & H).
  cbn in Ed', Et'. rewrite Ed in Ed'.
  apply pbind_ok in H as (event & s3 & [-> _]%lift_ok & H). exists event. cbv zeta.
  case_bool_decide.
  - apply pbind_ok in H as (o & s4 & Hf & [-> ->]%ret_ok). unfold on_ledger in Hf.
    destruct (kernel_finish _ _) as [d x] eqn:E in Hf. injection Hf as <- ->. cbn. rewrite Et', <- Ed'. eauto.
  - apply pbind_ok in H as ([] & s4 & Hf & [-> ->]%ret_ok). unfold on_ledger in Hf.
    destruct (kernel_write _ _) as [d x] eqn:E in Hf. injection Hf as <- ->. cbn. rewrite Et', <- Ed'. auto.
Qed.

(** An emission on the way: the task lives on and no outcome is written. *)
Lemma emit_unsettled key type status extra payload :
  key ∉ last_keys → terminal status = false → ex_outcome extra = None →
  runs (unsettled i) (kernel_emit key type status extra payload) (λ _, unsettled i).
Proof.
  intros Hk Hl Ho s s' r Hs (event & Hid & Hst & H)%emit_ok.
  assert (status ≠ COMPLETED) as Hn by (by intros ->). rewrite (bool_decide_false _ Hn) in H. destruct H as [H _].
  eapply write_unsettled; [exact Hs|exact H|done|reflexivity|reflexivity| |exact Hst|done|exact Ho].
  change (task_id (k_task s') = i). rewrite Hid. by apply us_task.
Qed.

(** The emission that ends the task as FAILED or CANCELLED. *)
Lemma emit_last key type extra payload o :
  key ∈ last_keys → ex_outcome extra = Some o → Outcome_parse o = Ok o → out_status o ≠ O_COMPLETED →
  runs (unsettled i) (kernel_emit key type (status_of (out_status o)) extra payload) (λ _, settled i o).
Proof.
  intros Hk Ho Hp Hne s s' r Hs (event & Hid & Hst & H)%emit_ok.
  assert (status_of (out_status o) ≠ COMPLETED) as Hn by (by destruct (out_status o)).
  rewrite (bool_decide_false _ Hn) in H. destruct H as [H _].
  eapply write_settles; [exact Hs|exact H|done|reflexivity| |exact Hst|exact Ho|done].
  change (task_id (k_task s') = i). rewrite Hid. by apply us_task.
Qed.

(** The request for completion: the ledger's answer is what it holds, FAILED or COMPLETED. *)
Lemma emit_complete type extra payload o :
  ex_outcome extra = Some o → Outcome_parse o = Ok o → out_status o = O_COMPLETED →
  runs (unsettled i) (kernel_emit "complete" type COMPLETED extra payload) (λ r s, ∃ o', r = Some o' ∧ settled i o' s).
Proof.
  intros Ho Hp Hc s s' r Hs (event & Hid & Hst & H)%emit_ok. rewrite bool_decide_true in H by done.
  destruct H as (o' & H & ->). exists o'. split; [done|].
  assert (Hi : task_id (k_task s') = i) by (rewrite Hid; by apply us_task).
  apply finish_cases in H as [[_ Hr]|[(_ & Hw & Hr)|(_ & t & ev & o1 & Hp1 & Hid1 & Hw & [= <-] & Hs1 & Hst1)]].
  - exfalso. destruct (Hr o' eq_refl) as (c & Hc' & _). revert Hc'. cbn. unfold stored_outcome. rewrite Hi.
    rewrite (us_outcome _ _ Hs), (us_terminal _ _ Hs). by destruct (l_tasks _ !! _).
  - destruct (Hr o' eq_refl) as (c & Hw' & Hpc). cbn in Hw'. rewrite Ho in Hw'. injection Hw' as <-.
    rewrite Hp in Hpc. apply Ok_inj in Hpc as <-.
    eapply write_settles; [exact Hs|exact Hw|left|reflexivity|exact Hi|by rewrite Hc|exact Ho|exact Hp].
  - eapply write_settles; [exact Hs|exact Hw| |reflexivity| |cbn; by rewrite Hs1, Hst1|reflexivity|exact Hp1].
    + right. left.
    + cbn in Hid1 |- *. by rewrite Hid1.
Qed.
End emissions.

(** ** The missions inside *)

(** An [emit] that behaves as the workflow's. *)
Record ledger_emit {X W} (i : string) (emit : Emission → prog (Kernel X W) (option Outcome)) : Prop := {
  le_live e : em_key e ∉ last_keys → terminal (em_status e) = false → em_outcome e = None →
    runs (unsettled i) (emit e) (λ _, unsettled i);
  le_last e o : em_key e ∈ last_keys → em_outcome e = Some o → Outcome_parse o = Ok o → out_status o ≠ O_COMPLETED →
    em_status e = status_of (out_status o) → runs (unsettled i) (emit e) (λ _, settled i o);
  le_complete e o : em_key e = "complete" → em_status e = COMPLETED → em_outcome e = Some o → Outcome_parse o = Ok o →
    out_status o = O_COMPLETED → runs (unsettled i) (emit e) (λ r s, ∃ o', r = Some o' ∧ settled i o' s)
}.

Lemma quiet_unsettled {X W A} i (m : prog (Kernel X W) A) :
  silent (quiet_step i) m → runs (unsettled i) m (λ _, unsettled i).
Proof. intros Hm. eapply runs_quiet; [exact Hm|]. intros s s' []; auto. Qed.

Lemma quiet_settled {X W A} i o (m : prog (Kernel X W) A) :
  silent (quiet_step i) m → runs (settled i o) m (λ _, settled i o).
Proof. intros Hm. eapply runs_quiet; [exact Hm|]. intros s s' []; auto. Qed.

(** Still running, or ended with this outcome. *)
Definition or_settled {A X W} (i : string) (r : A + Outcome) : Kernel X W → Prop :=
  match r with inl _ => unsettled i | inr o => settled i o end.
Definition answer_or_settled {X W} (i : string) (r : RuntimeAnswer) : Kernel X W → Prop :=
  match r with Answered _ _ => unsettled i | EndedMission o => settled i o end.

Lemma failed_result_ok task ids at_ summary o : failed_result task ids at_ summary = Ok o →
  Outcome_parse o = Ok o ∧ out_status o = O_FAILED.
Proof. intros H. split; [by eapply Outcome_parse_idem|by apply Outcome_parse_same in H as (? & _)]. Qed.

Lemma completed_result_ok task ids at_ summary o : completed_result task ids at_ summary = Ok o →
  Outcome_parse o = Ok o ∧ out_status o = O_COMPLETED.
Proof. intros H. split; [by eapply Outcome_parse_idem|by apply Outcome_parse_same in H as (? & _)]. Qed.

(** A key that is none of the last ones. *)
Ltac live_key := unfold last_keys; rewrite !elem_of_cons, elem_of_nil; let H := fresh in intros H; by repeat destruct H as [H|H].

(** A step's key starts with another letter than the keys of the outcomes. *)
Lemma step_key_live node what : step_key node what ∉ last_keys.
Proof. unfold step_key. live_key. Qed.
Lemma verify_key_live : "verify" ∉ last_keys.
Proof. live_key. Qed.

Create HintDb runs discriminated.
#[export] Hint Constants Opaque : runs.
#[export] Hint Resolve step_key_live verify_key_live : runs.
#[export] Hint Resolve quiet_unsettled quiet_settled | 10 : runs.

(** Goes through a program; the calls are left to the hints. *)
Ltac run_step :=
  lazymatch goal with
  | |- runs _ (lift_result _ ≫= _) _ => apply runs_lift_then; intros ? ?
  | |- runs _ (throw_st _) _ => apply runs_throw
  | |- runs _ ((match ?x with _ => _ end) ≫= _) _ => destruct x eqn:?
  | |- runs _ (_ ≫= _) _ => eapply runs_bind; [solve [eauto with runs silent]|cbv beta; intros ?]
  | |- runs _ (mret _) _ => apply runs_ret; intros ? ?; cbn in *; solve [eauto]
  | |- runs _ (match ?x with _ => _ end) _ => destruct x eqn:?; cbn [or_settled answer_or_settled fst snd]
  | |- _ => solve [eauto with runs silent]
  end.
Ltac runs := repeat (cbv beta zeta; cbn [or_settled answer_or_settled]; run_step).

Section mission.
Context {X W : Type} (i : string) (deps : MissionDeps (Kernel X W)) `{!QuietDeps deps (quiet_step i)}.
Context (Hemit : ledger_emit i (md_emit deps)).
Context (url_ok : string → bool) (toLowerCase : string → string) (task : Task) (plan : ExecutionPlan).
Local Abbreviation quiet := (quiet_step (X := X) (W := W) i).

Lemma begin_runs node : runs (unsettled i) (begin deps node) (λ _, unsettled i).
Proof.
  unfold begin. run_step. eapply runs_then; [|intros; by apply runs_ret].
  apply (le_live _ _ Hemit); [apply step_key_live|done|done].
Qed.

Lemma complete_runs ids node output ev : runs (unsettled i) (complete deps ids node output ev) (λ _, unsettled i).
Proof.
  unfold complete. run_step. eapply runs_then; [|intros; by apply runs_ret].
  apply (le_live _ _ Hemit); [apply step_key_live|done|done].
Qed.

Lemma end_failed_runs ids summary failures :
  runs (unsettled i) (end_failed deps task ids summary failures) (settled i).
Proof.
  unfold end_failed. eapply runs_then; [apply quiet_unsettled, qd_now|]. intros at_.
  apply runs_lift_then. intros o [Hp Hs]%failed_result_ok.
  eapply runs_bind; [apply (le_last _ _ Hemit) with (o := o); cbn; [right; right; left|done|done|congruence|by rewrite Hs]|].
  intros r. eapply runs_then; [apply quiet_settled, (notify_silent deps quiet)|]. intros []. by apply runs_ret.
Qed.
Local Hint Resolve begin_runs complete_runs end_failed_runs : runs.
Local Hint Extern 2 (silent _ (fresh_base _ _ _)) => apply (fresh_silent deps quiet) : silent.

Lemma abort_runs ids node source md reason :
  runs (unsettled i) (abort deps url_ok task ids node source md reason) (settled i).
Proof.
  unfold abort. do 3 run_step. eapply runs_then; [|intros; apply end_failed_runs].
  apply (le_live _ _ Hemit); [apply step_key_live|done|done].
Qed.
Local Hint Resolve abort_runs : runs.

Lemma refuse_runs ids node role code : runs (unsettled i) (refuse_step deps url_ok task ids node role code) (settled i).
Proof. unfold refuse_step. runs. Qed.
Local Hint Resolve refuse_runs : runs.

Lemma runRuntime_runs {A} ids node role port (build : prog (Kernel X W) (result A)) request_of pin hooks :
  (∀ r, silent quiet (port r)) → silent quiet build → (∀ a, silent_hooks quiet (hooks a)) →
  runs (unsettled i) (runRuntime deps url_ok task ids node role port build request_of pin hooks)
    (λ r, answer_or_settled i r.1).
Proof.
  intros Hp Hb Hh. unfold runRuntime. run_step. eapply runs_then; [by apply quiet_unsettled|]. intros [x|e]; [|runs].
  eapply runs_then; [by apply quiet_unsettled, (call_silent deps quiet)|]. intros [text r|r]; runs.
Qed.

Lemma select_pins_runs ids analyst reviewer :
  runs (unsettled i) (select_pins deps url_ok task ids analyst reviewer) (or_settled i).
Proof.
  unfold select_pins. destruct (md_faculties deps) as [f|] eqn:Ef; [|runs].
  eapply runs_then; [by apply quiet_unsettled, (ask_pin_silent deps quiet)|]. intros [pa|code]; [|runs].
  eapply runs_then; [by apply quiet_unsettled, (ask_pin_silent deps quiet)|]. intros [pr|code]; runs.
Qed.

Lemma select_cognition_runs ids analyst pin :
  runs (unsettled i) (select_cognition deps url_ok task ids analyst pin) (or_settled i).
Proof.
  unfold select_cognition. destruct (md_identity deps) as [f|] eqn:Ef; [|runs].
  eapply runs_then; [by apply quiet_unsettled, (ask_latch_silent deps quiet)|]. intros [st|code]; runs.
Qed.

Lemma run_analyst_runs ids analyst trace objective facts fd pin state :
  runs (unsettled i) (run_analyst deps url_ok task plan ids analyst trace objective facts fd pin state) (or_settled i).
Proof.
  unfold run_analyst. cbv zeta. run_step. eapply runs_then; [apply quiet_unsettled, (memory_silent deps quiet)|]. intros mem.
  eapply runs_bind.
  { apply runRuntime_runs; [apply qd_analyst|apply silent_ret; exact _|apply (analyst_hooks_silent deps quiet)]. }
  intros [[text r|o] an]; cbn [fst answer_or_settled]; runs.
Qed.

Lemma run_reviewer_runs ids reviewer trace facts fd text pin state :
  runs (unsettled i) (run_reviewer deps url_ok task ids reviewer trace facts fd text pin state) (or_settled i).
Proof.
  unfold run_reviewer. eapply runs_bind.
  { apply runRuntime_runs; [apply qd_reviewer|apply (reviewer_build_silent deps quiet)|by split]. }
  intros [[answer r|o] an]; cbn [fst answer_or_settled]; runs.
Qed.

Lemma conclude_runs ids rec text : runs (unsettled i) (conclude deps task ids rec text) (settled i).
Proof.
  unfold conclude. destruct (mc_accepted rec); cbn [negb]; [|runs].
  eapply runs_then; [apply (le_live _ _ Hemit); [apply verify_key_live|done|done]|]. intros _. run_step; [|run_step].
  run_step. apply runs_lift_then. intros o [Hp Hs]%completed_result_ok.
  eapply runs_bind; [by apply (le_complete _ _ Hemit) with (o := o)|]. cbv beta zeta.
  intros stored s s' x (o' & -> & Hs') (u & s1 & H1 & [-> ->]%ret_ok)%pbind_ok. cbn [default] in *.
  refine (quiet_settled _ _ _ (notify_silent deps quiet task _ _) _ _ _ Hs' H1).
Qed.
Local Hint Resolve conclude_runs : runs.

Lemma run_reconcile_runs ids c input :
  runs (unsettled i) (run_reconcile deps url_ok toLowerCase task ids c input) (settled i).
Proof. unfold run_reconcile. runs. Qed.
Local Hint Resolve run_reconcile_runs select_pins_runs select_cognition_runs run_analyst_runs run_reviewer_runs : runs.

Lemma mission_runs : runs (unsettled i) (runRepoAnalysisMission deps url_ok toLowerCase task plan) (settled i).
Proof.
  unfold runRepoAnalysisMission. do 2 run_step.
  match goal with |- runs _ (match ?l with _ => _ end) _ => destruct l as [|n1 [|n2 [|n3 [|n4 rest]]]]; try apply runs_throw end.
  cbv zeta. run_step. eapply runs_then; [apply quiet_unsettled, (read_facts_silent deps quiet)|].
  intros [[facts fd]|e]; [|runs]. unfold run_runtimes. runs.
Qed.
End mission.

Class QuietBrief {S} (deps : BriefDeps S) (R : S → S → Prop) : Prop := {
  qb_order :: PreOrder R;
  qb_now : silent R (bd_now deps);
  qb_uuid : silent R (bd_uuid deps);
  qb_githubActivity at_ : silent R (bd_githubActivity deps at_);
  qb_kernelState r : silent R (bd_kernelState deps r);
  qb_analyst r : silent R (bd_analyst deps r);
  qb_reviewer r : silent R (bd_reviewer deps r);
  qb_memory f r : bd_memory deps = Some f → silent R (f r);
  qb_notify n : silent R (bd_notify deps n)
}.
#[export] Hint Resolve qb_now qb_uuid qb_githubActivity qb_kernelState qb_analyst qb_reviewer qb_memory qb_notify : silent.

Section brief.
Context {X W : Type} (i : string) (deps : BriefDeps (Kernel X W)) `{!QuietBrief deps (quiet_step i)}.
Context (Hemit : ledger_emit i (bd_emit deps)).
Context (url_ok : string → bool) (toLowerCase : string → string) (ukDate : Z → string) (task : Task) (plan : ExecutionPlan).
Local Abbreviation quiet := (quiet_step (X := X) (W := W) i).

Lemma brief_base_silent node : silent quiet (brief_base deps task node).
Proof. unfold brief_base. silent. Qed.
Lemma brief_notify_silent n : silent quiet (brief_notify deps n).
Proof. unfold brief_notify. silent. Qed.
Lemma brief_memory_silent analyst callId : silent quiet (brief_memory deps task analyst callId).
Proof. unfold brief_memory. silent. Qed.
Lemma brief_review_silent reviewer facts fd text mem : silent quiet (brief_review_build deps task reviewer facts fd text mem).
Proof. unfold brief_review_build. silent. Qed.
Lemma gather_facts_silent : silent quiet (gather_facts deps task).
Proof. unfold gather_facts. silent. Qed.
Lemma brief_announce_silent finished brief n model withheld :
  silent quiet (brief_announce deps ukDate task finished brief n model withheld).
Proof. unfold brief_announce. pose proof brief_notify_silent. silent. Qed.
Local Hint Resolve brief_base_silent brief_notify_silent brief_memory_silent brief_review_silent gather_facts_silent : silent.

Lemma brief_begin_runs node : runs (unsettled i) (brief_begin deps node) (λ _, unsettled i).
Proof.
  unfold brief_begin. run_step. eapply runs_then; [|intros; by apply runs_ret].
  apply (le_live _ _ Hemit); [apply step_key_live|done|done].
Qed.

Lemma brief_complete_runs ids node output ev : runs (unsettled i) (brief_complete deps ids node output ev) (λ _, unsettled i).
Proof.
  unfold brief_complete. run_step. eapply runs_then; [|intros; by apply runs_ret].
  apply (le_live _ _ Hemit); [apply step_key_live|done|done].
Qed.

Lemma failWith_runs ids summary failures : runs (unsettled i) (failWith deps task ids summary failures) (settled i).
Proof.
  unfold failWith. eapply runs_then; [apply quiet_unsettled, qb_now|]. intros at_.
  apply runs_lift_then. intros o [Hp Hs]%failed_result_ok.
  eapply runs_bind; [apply (le_last _ _ Hemit) with (o := o); cbn; [right; right; left|done|done|congruence|by rewrite Hs]|].
  intros r. eapply runs_then; [apply quiet_settled, brief_notify_silent|]. intros []. by apply runs_ret.
Qed.
Local Hint Resolve brief_begin_runs brief_complete_runs failWith_runs : runs.

Lemma brief_abort_runs ids node source md reason :
  runs (unsettled i) (brief_abort deps url_ok task ids node source md reason) (settled i).
Proof.
  unfold brief_abort. do 3 run_step. eapply runs_then; [|intros; apply failWith_runs].
  apply (le_live _ _ Hemit); [apply step_key_live|done|done].
Qed.
Local Hint Resolve brief_abort_runs : runs.

Lemma brief_runtime_runs ids node role port build :
  (∀ r, silent quiet (port r)) → silent quiet build →
  runs (unsettled i) (brief_runtime deps url_ok task ids node role port build) (answer_or_settled i).
Proof.
  intros Hp Hb. unfold brief_runtime. run_step. eapply runs_then; [by apply quiet_unsettled|]. intros [x|e]; [|runs].
  eapply runs_then; [apply quiet_unsettled, (callModel_silent quiet); [done|intros; apply silent_ret; exact _]|]. intros [text r|r]; runs.
Qed.

Lemma brief_analyst_runs ids analyst facts fd callId mem :
  runs (unsettled i) (brief_analyst deps url_ok task ids analyst facts fd callId mem) (or_settled i).
Proof.
  unfold brief_analyst. eapply runs_bind; [apply brief_runtime_runs; [apply qb_analyst|apply silent_ret; exact _]|].
  intros [text r|o]; cbn [answer_or_settled]; runs.
Qed.

Lemma brief_reviewer_runs ids reviewer facts fd text mem :
  runs (unsettled i) (brief_reviewer deps url_ok task ids reviewer facts fd text mem) (or_settled i).
Proof.
  unfold brief_reviewer. eapply runs_bind; [apply brief_runtime_runs; [apply qb_reviewer|apply brief_review_silent]|].
  intros [answer r|o]; cbn [answer_or_settled]; runs.
Qed.

Lemma brief_conclude_runs ids rec input : runs (unsettled i) (brief_conclude deps ukDate task ids rec input) (settled i).
Proof.
  unfold brief_conclude. destruct (br_accepted rec); cbn [negb]; [|runs].
  eapply runs_then; [apply (le_live _ _ Hemit); [apply verify_key_live|done|done]|]. intros _. run_step; [|run_step].
  run_step. apply runs_lift_then. intros o [Hp Hs]%completed_result_ok.
  eapply runs_bind; [by apply (le_complete _ _ Hemit) with (o := o)|]. cbv beta zeta.
  intros stored s s' x (o' & -> & Hs') (u & s1 & H1 & [-> ->]%ret_ok)%pbind_ok. cbn [default] in *.
  refine (quiet_settled _ _ _ (brief_announce_silent _ _ _ _ _) _ _ _ Hs' H1).
Qed.
Local Hint Resolve brief_conclude_runs brief_analyst_runs brief_reviewer_runs : runs.

Lemma brief_reconcile_runs ids c input :
  runs (unsettled i) (brief_reconcile deps url_ok toLowerCase ukDate task ids c input) (settled i).
Proof. unfold brief_reconcile. runs. Qed.
Local Hint Resolve brief_reconcile_runs : runs.

Lemma brief_runs : runs (unsettled i) (runMorningBriefMission deps url_ok toLowerCase ukDate task plan) (settled i).
Proof.
  unfold runMorningBriefMission. run_step.
  match goal with |- runs _ (match ?l with _ => _ end) _ => destruct l as [|n1 [|n2 [|n3 [|n4 rest]]]]; try apply runs_throw end.
  run_step. eapply runs_then; [apply quiet_unsettled, gather_facts_silent|]. intros [facts|e]; [|runs].
  unfold brief_runtimes. runs.
Qed.
End brief.

(** ** The workflow *)

(** [m] works beside the task: it does not touch the workflow's variable nor the task's rows. *)
Definition aside {X W A} (i : string) (m : prog (Kernel X W) A) : Prop :=
  ∀ s, k_task (m s).1 = k_task s ∧ beside i (k_db s) (k_db (m s).1).

Lemma aside_quiet {X W A} i (m : prog (Kernel X W) A) : aside i m → silent (quiet_step i) m.
Proof. intros Hm s. destruct (Hm s). by apply beside_quiet. Qed.

(** The ports a worker wires in work beside the task. *)
Class PortsAside {X W} (i : string) (options : KernelWorkflowOptions (Kernel X W)) : Prop := {
  pa_service s : ko_capabilityService options = Some s →
    (∀ r, aside i (cs_repositoryRead s r)) ∧ (∀ r, aside i (cs_githubRead s r)) ∧ (∀ r, aside i (cs_githubActivity s r));
  pa_models m : ko_mission options = Some m →
    (∀ r, aside i (mw_analyst m r)) ∧ (∀ r, aside i (mw_reviewer m r)) ∧ (∀ n, aside i (mw_notify m n)) ∧
    (∀ f r, mw_memory m = Some f → aside i (f r));
  pa_faculties m f : ko_mission options = Some m → mw_faculties m = Some f →
    (∀ x, aside i (fq_pin f x)) ∧ (∀ p r, aside i (fq_authorize f p r));
  pa_identity m f : ko_mission options = Some m → mw_identity m = Some f →
    (∀ x, aside i (iq_latch f x)) ∧ (∀ t p r d, aside i (iq_authorize f t p r d));
  pa_brief m b : ko_mission options = Some m → mw_brief m = Some b →
    (∀ n, aside i (bw_notify b n)) ∧ (∀ r, aside i (bw_kernelState b r))
}.

Section workflow.
Context {X W : Type} (world : KernelWorld W).
Context (toUpperCase : string → string) (url_ok : string → bool) (toLowerCase : string → string) (ukDate : Z → string).
Context (facultyOracle identityOracle : LedgerDb X → Task → option ExecutionPlan → list Evidence → result unit).
Context (wk : Worker) (i : string).
Local Abbreviation St := (Kernel X W).
Local Abbreviation quiet := (quiet_step (X := X) (W := W) i).
Local Abbreviation kernel_emit := (emit world toUpperCase url_ok toLowerCase facultyOracle identityOracle wk).

Lemma emission_ledger_emit : ledger_emit i (emit_emission world toUpperCase url_ok toLowerCase facultyOracle identityOracle wk).
Proof.
  split; unfold emit_emission.
  - intros e Hk Hl Ho. by apply emit_unsettled.
  - intros e o Hk Ho Hp Hne ->. by eapply emit_last.
  - intros e o -> -> Ho Hp Hc. by eapply emit_complete.
Qed.

Lemma recordModelCall_quiet binding at_ :
  silent quiet (recordModelCall toUpperCase url_ok toLowerCase facultyOracle identityOracle wk binding at_).
Proof.
  intros s. destruct (recordModelCall _ _ _ _ _ _ binding at_ s) as [s' r] eqn:E. cbn [fst]. revert E. unfold recordModelCall.
  unfold current, mbind, prog_bind, get_st, mret, prog_ret, lift_result. destruct (TaskEvent_parse _) as [event|]; [|by intros [= <- _]].
  unfold on_ledger. destruct (ledger_write _ _ _ _ _ _ _ _) as [d x] eqn:Ew. intros [= <- <-].
  destruct x as [[]|e]; [|apply do_write_throw in Ew as ->; by destruct s]. split.
  - intros Hs. eapply write_unsettled; [exact Hs|exact Ew|unfold emission_write, w_key; live_key|reflexivity|reflexivity|..];
      [apply (us_task i s Hs)|reflexivity|apply (us_live i s Hs)|reflexivity].
  - intros o. apply change_settled. by eapply write_change.
Qed.

(** *** The parts of a run *)

Lemma current_quiet : silent quiet (current (X := X) (W := W)).
Proof. intros s. reflexivity. Qed.
Local Hint Resolve current_quiet now_quiet on_world_quiet : silent.
Local Hint Extern 1 (runs _ (emit _ _ _ _ _ _ _ _ _ _ _ _) _) => apply emit_unsettled; [live_key|reflexivity|reflexivity] : runs.
Local Hint Extern 1 (runs _ (emit _ _ _ _ _ _ _ (step_key _ _) _ _ _ _) _) =>
  apply emit_unsettled; [apply step_key_live|reflexivity|reflexivity] : runs.

Lemma cancel_run_runs step :
  runs (unsettled i) (cancel_run world toUpperCase url_ok toLowerCase facultyOracle identityOracle wk step) (settled i).
Proof.
  unfold cancel_run. do 2 run_step. apply runs_lift_then. intros o Ho. apply Outcome_parse_same in Ho as Hs.
  destruct Hs as (Hs & _). cbn in Hs. apply (runs_bind _ _ _ (λ _, settled i o)); [|intros r; by apply runs_ret].
  change Contracts.CANCELLED with (status_of O_CANCELLED) at 1. rewrite <- Hs.
  apply emit_last; [right; right; right; left|done|by eapply Outcome_parse_idem|congruence].
Qed.
Local Hint Resolve cancel_run_runs : runs.

Lemma step_output_runs node step input :
  runs (unsettled i) (step_output_of world toUpperCase url_ok toLowerCase facultyOracle identityOracle wk node step input) (or_settled i).
Proof. unfold step_output_of. runs. Qed.
Local Hint Resolve step_output_runs : runs.

Lemma run_node_runs node outputs :
  runs (unsettled i) (run_node world toUpperCase url_ok toLowerCase facultyOracle identityOracle wk node outputs) (or_settled i).
Proof. unfold run_node. runs. Qed.
Local Hint Resolve run_node_runs : runs.

Lemma run_nodes_runs nodes outputs :
  runs (unsettled i) (run_nodes world toUpperCase url_ok toLowerCase facultyOracle identityOracle wk nodes outputs) (or_settled i).
Proof. revert outputs. induction nodes as [|node nodes IH]; intros outputs; cbn [run_nodes]; runs. Qed.
Local Hint Resolve run_nodes_runs : runs.

(** The request for completion and its answer. *)
Lemma emit_complete_then type step payload o :
  Outcome_parse o = Ok o → out_status o = O_COMPLETED →
  runs (unsettled i) (r ← kernel_emit "complete" type COMPLETED (of_outcome o step) payload; mret (default o r)) (settled i).
Proof.
  intros Hp Hc. eapply runs_bind; [by eapply emit_complete|]. intros r. apply runs_ret. by intros s (o' & -> & Hs).
Qed.

Lemma finish_plan_runs plan outputs :
  runs (unsettled i) (finish_plan world toUpperCase url_ok toLowerCase facultyOracle identityOracle wk plan outputs) (settled i).
Proof.
  unfold finish_plan. run_step. run_step; [|run_step]. cbv zeta. do 6 run_step.
  apply runs_lift_then. intros o [Hp Hs]%completed_result_ok. by apply emit_complete_then.
Qed.
Local Hint Resolve finish_plan_runs : runs.

Lemma run_plan_runs plan :
  runs (unsettled i) (run_plan world toUpperCase url_ok toLowerCase facultyOracle identityOracle wk plan) (settled i).
Proof. unfold run_plan. runs. Qed.
Local Hint Resolve run_plan_runs : runs.

Context (options : KernelWorkflowOptions St) `{!PortsAside i options}.

Lemma run_canary_runs approved service targetFile node :
  ko_capabilityService options = Some service →
  runs (unsettled i)
    (run_canary world toUpperCase url_ok toLowerCase facultyOracle identityOracle wk approved service targetFile node) (settled i).
Proof.
  intros Hs. destruct (pa_service _ Hs) as (Hr & _). unfold run_canary. do 4 run_step.
  eapply runs_then; [apply quiet_unsettled, aside_quiet, Hr|]. intros res. do 9 run_step.
  apply runs_lift_then. intros o [Hp Hc]%completed_result_ok. case_match; [by apply emit_complete_then|].
  run_step. apply runs_lift_then. intros o' [Hp' Hc']%failed_result_ok.
  apply (runs_bind _ _ _ (λ _, settled i o')); [|intros r; by apply runs_ret].
  change FAILED with (status_of O_FAILED). rewrite <- Hc'. apply emit_last; [right; right; left|done|done|congruence].
Qed.

Lemma mission_ports service mission :
  ko_capabilityService options = Some service → ko_mission options = Some mission →
  QuietDeps (mission_deps world toUpperCase url_ok toLowerCase facultyOracle identityOracle wk service mission) quiet.
Proof.
  intros Hs Hm. destruct (pa_service _ Hs) as (_ & Hg & _). destruct (pa_models _ Hm) as (Ha & Hr & Hn & Hmem).
  split; cbn; try exact _; intros; try (apply aside_quiet; eauto; fail); eauto using now_quiet, on_world_quiet.
  - apply aside_quiet. by eapply pa_faculties.
  - apply aside_quiet. by eapply pa_faculties.
  - apply aside_quiet. by eapply pa_identity.
  - apply aside_quiet. by eapply pa_identity.
  - simplify_eq. apply recordModelCall_quiet.
Qed.

Lemma brief_ports service mission brief :
  ko_capabilityService options = Some service → ko_mission options = Some mission → mw_brief mission = Some brief →
  QuietBrief (brief_deps world toUpperCase url_ok toLowerCase facultyOracle identityOracle wk service mission brief) quiet.
Proof.
  intros Hs Hm Hb. destruct (pa_service _ Hs) as (_ & _ & Hg). destruct (pa_models _ Hm) as (Ha & Hr & _ & Hmem).
  destruct (pa_brief _ _ Hm Hb) as (Hn & Hk).
  split; cbn; try exact _; intros; try (apply aside_quiet; eauto; fail); eauto using now_quiet, on_world_quiet.
Qed.

Lemma admit_runs submission plan :
  runs (unsettled i) (admit_task world toUpperCase url_ok toLowerCase facultyOracle identityOracle wk submission plan)
    (λ _, unsettled i).
Proof. unfold admit_task. runs. Qed.
Local Hint Resolve admit_runs : runs.

Lemma run_recipe_runs plan :
  runs (unsettled i)
    (run_recipe world toUpperCase url_ok toLowerCase ukDate facultyOracle identityOracle wk options plan) (settled i).
Proof.
  unfold run_recipe. case_match.
  { destruct (ko_capabilityService options) as [service|] eqn:Es; [|apply runs_throw].
    destruct (ko_mission options) as [mission|] eqn:Em; [|apply runs_throw].
    destruct (mw_brief mission) as [brief|] eqn:Eb; [|apply runs_throw]. run_step.
    pose proof (brief_ports _ _ _ Es Em Eb). apply brief_runs; [exact _|apply emission_ledger_emit]. }
  case_match.
  { destruct (ko_capabilityService options) as [service|] eqn:Es; [|apply runs_throw].
    destruct (ko_mission options) as [mission|] eqn:Em; [|apply runs_throw]. run_step.
    pose proof (mission_ports _ _ Es Em). apply mission_runs; [exact _|apply emission_ledger_emit]. }
  run_step. case_match; [|runs].
  destruct (ko_canary options) as [approved|]; [|apply runs_throw].
  destruct (ko_capabilityService options) as [service|] eqn:Es; [|apply runs_throw]. by apply run_canary_runs.
Qed.
Local Hint Resolve run_recipe_runs : runs.

Lemma compiled_received parse_objective raw c : compileIntent parse_objective raw = Ok c → task_status c.1 = RECEIVED.
Proof.
  unfold compileIntent. intros (submission & _ & H)%bind_ok. cbv zeta in H.
  do 3 apply bind_ok in H as ([] & _ & H). apply ensure_ok in H as [_ H].
  by apply bind_ok in H as (task & [_ Ht]%Task_parse_same & <-%Ok_inj).
Qed.

(** The ledger has not heard of the task. *)
Record unknown_task (d : LedgerDb X) : Prop := {
  uk_ledger : ledger_ok d;
  uk_task : l_tasks d !! i = None;
  uk_events : ∀ le, le ∈ l_events d → te_taskId (le_event le) ≠ i;
  uk_outcome : l_outcomes d !! i = None
}.

Lemma unknown_unsettled (s : St) task : unknown_task (k_db s) → task_id task = i → terminal (task_status task) = false →
  unsettled i {| k_db := k_db s; k_task := task; k_world := k_world s |}.
Proof.
  intros [Hl Ht He Ho] Hi Hv. split; try done; cbn.
  - intros k _. unfold find_key. apply find_none. intros le Hin%He. by rewrite bool_decide_false.
  - destruct (l_terminal (k_db s) !! i) eqn:E; [|done]. destruct (lk_terminal _ Hl i) as (t & Hti & _); [by eexists|congruence].
Qed.

Lemma run_settles raw s s' o :
  run world toUpperCase url_ok toLowerCase ukDate facultyOracle identityOracle wk options i raw s = (s', Ok o) →
  unknown_task (k_db s) → settled i o s'.
Proof.
  unfold run. intros (c & s1 & [-> Hc]%lift_ok & H)%pbind_ok Hk.
  destruct (compileIntent objective_grammar raw) as [c'|] eqn:Ec; [|done]. injection Hc as ->.
  cbv zeta in H. apply pbind_ok in H as ([] & s1 & [= <-] & H). apply pbind_ok in H as ([] & s1 & [-> Hid]%lift_ok & H).
  unfold ensure in Hid. case_bool_decide as Hk'; [|done]. clear Hid. symmetry in Hk'.
  assert (Hs : unsettled i {| k_db := k_db s; k_task := c.1; k_world := k_world s |}).
  { apply unknown_unsettled; [done|done|]. by rewrite (compiled_received _ _ _ Ec). }
  refine ((_ : runs (unsettled i) _ (settled i)) _ _ _ Hs H). runs.
Qed.
End workflow.

(** C2: A run of the workflow ends as its ledger says.  Started on a task the ledger has not heard of,
    over ports that work beside the task (they may carry on with any other task, but write no row of
    this one), whatever the recipe, the clock, the signals and the models do: when the run returns
    an outcome, the ledger holds exactly that outcome for the task, and the task's row is COMPLETED,
    FAILED or CANCELLED as the outcome says.  A returned COMPLETED is therefore a verified completion:
    an audit event and, for every criterion, a passed result that cites stored evidence of the task. *)
Theorem kernel_run_settles {X W} (world : KernelWorld W) toUpperCase url_ok toLowerCase ukDate
    (facultyOracle identityOracle : LedgerDb X → Task → option ExecutionPlan → list Evidence → result unit) wk
    (options : KernelWorkflowOptions (Kernel X W)) key raw s s' o :
  unknown_task key (k_db s) → PortsAside key options →
  run world toUpperCase url_ok toLowerCase ukDate facultyOracle identityOracle wk options key raw s = (s', Ok o) →
  l_outcomes (k_db s') !! key = Some o ∧ out_taskId o = key ∧
  ∃ t, l_tasks (k_db s') !! key = Some t ∧ task_id t = key ∧ task_status t = status_of (out_status o) ∧
    (out_status o = O_COMPLETED → verified_completion (k_db s') t).
Proof.
  intros Hk Hp H. destruct (run_settles _ _ _ _ _ _ _ _ _ _ _ _ _ _ H Hk) as [Hl (t & Ht & Hst) Ho].
  split; [done|]. split; [by apply (lk_outcomes _ Hl)|]. exists t. split_and!; [done|by apply (lk_tasks _ Hl)|done|].
  intros Hc. apply (lk_completed _ Hl key); [done|]. by rewrite Hst, Hc.
Qed.
