(* ===== verification/RunSample.v ===== *)
(** * Runs on concrete inputs

    A world of constants (a counter gives ids and times), a reader that returns the sample
    repository and two model ports that answer with the sample texts: the mission of MissionRun.v
    over a log of its emissions, and the workflow of KernelWorkflow.v over an empty ledger with the
    text recipe and with the whole repository mission. *)

From S2P Require Import Prelude JsNumber JsDate Digest Contracts Plan Capability Json Mission Brief Regex MemPolicy.
From S2P Require Import MemContext MemPort Model Faculty Identity Cognition Assembly MissionRun.
From S2P Require Import MissionRunFacts BriefRun RepositoryRead Ledger KernelWorkflow KernelFacts.
Local Open Scope Z_scope.
Local Open Scope js_scope.

(** A program that counts up and returns a value of the count. *)
Definition tick {A} (f : Z → A) : prog Z A := λ n, (n + 1, Ok (f n)).
Definition sample_ms (n : Z) : Z := 1789488002000 + n * 1000.

(** ** Ports of constants *)

Definition sample_base (provider model : string) (req : ModelRequest) : ReceiptBase :=
  {| rb_callId := mq_callId req; rb_taskId := mq_taskId req; rb_stepId := mq_stepId req; rb_trace := mq_trace req;
     rb_provider := provider; rb_model := model; rb_requestDigest := call_digest provider model req;
     rb_finishedAt := "2026-09-15T16:10:00.000Z"; rb_durationMs := 1200 |}.

Definition sample_port {S} (provider model text : string) (req : ModelRequest) : prog S ModelCallResult :=
  mret (CallSucceeded text
    {| sr_base := sample_base provider model req; sr_providerRequestId := "gen-1"; sr_responseModel := model;
       sr_usage := {| mu_inputTokens := 1200; mu_outputTokens := 300; mu_totalTokens := 1500 |};
       sr_outputDigest := modelDigest (JStr text) |}).

Definition sample_github {S} (_ : string) : prog S (json * string) :=
  mret (facts_json sample_facts, capabilityDigest (facts_json sample_facts)).

Definition sample_analyst {S} : ModelRequest → prog S ModelCallResult :=
  sample_port "openrouter" "anthropic/claude-x" sample_analysisText.
Definition sample_reviewer {S} : ModelRequest → prog S ModelCallResult :=
  sample_port "openrouter" "x-ai/grok-4" sample_reviewText.

(** ** The mission over a log *)

(** The log of emissions and the count. *)
Definition LogWorld : Type := list Emission * Z.
Definition counted {A} (f : Z → A) : prog LogWorld A := λ s, ((s.1, s.2 + 1), Ok (f s.2)).

Definition log_deps : MissionDeps LogWorld :=
  {| md_emit := λ e s, ((s.1 ++ [e], s.2), Ok None); md_now := counted (λ n, toISOString (sample_ms n));
     md_clock := counted (λ n, toISOString (sample_ms n)); md_uuid := counted sample_id; md_githubRead := sample_github;
     md_analyst := sample_analyst; md_reviewer := sample_reviewer; md_memory := None; md_faculties := None; md_identity := None;
     md_recordModelCall := None; md_notify := λ _, mret tt |}.

#[export] Instance log_deps_logged : LoggedDeps log_deps fst.
Proof. split; [split; try exact _; done|]. by intros e s s' r [= <- _]. Qed.

#[local] Abbreviation log_run plan :=
  (runRepoAnalysisMission log_deps (λ _, true) Mission.ascii_lower mission_task plan (([], 20) : LogWorld)).

(** ** The workflow over an empty ledger *)

Definition sample_world : KernelWorld Z :=
  {| kw_uuid := tick sample_id; kw_dateNow := tick sample_ms; kw_clock := tick (λ n, toISOString (sample_ms n));
     kw_peek := mret None; kw_decision := mret {| sg_cancel := false; sg_reason := None |}; kw_resolve := λ _, mret tt |}.

Definition sample_intent (objective : string) : IntentEnvelope :=
  {| in_id := sample_id 9; in_principal := ledger_actor; in_tenant := sample_id 3; in_source := "test"; in_objective := objective;
     in_attachments := []; in_contextRefs := []; in_receivedAt := "2026-09-15T16:00:00.000Z";
     in_trace := {| tr_traceId := sample_id 4; tr_correlationId := sample_id 4; tr_spanId := None |} |}.
Definition sample_submission (recipe : RecipeId) (objective : string) : KernelSubmission :=
  {| sub_intent := sample_intent objective; sub_recipe := recipe |}.
Definition sample_key (sub : KernelSubmission) : string :=
  match compileIntent objective_grammar sub with Ok c => task_id c.1 | Throw _ => EmptyString end.

Definition sample_target : ExecutionTarget :=
  {| et_service := "KernelWorkflowV1"; et_version := "v1"; et_routingId := "kernel"; et_controls := [C_cancel; C_signal] |}.
Definition sample_worker : Worker := {| wk_workflow := Some sample_target; wk_releaseId := "r1"; wk_canary := None |}.

Definition sample_service : CapabilityService (Kernel unit Z) :=
  {| cs_repositoryRead := λ _, throw_st (js_error "no repository"); cs_githubRead := sample_github;
     cs_githubActivity := λ _, throw_st (js_error "no activity") |}.
Definition sample_wiring : MissionWiring (Kernel unit Z) :=
  {| mw_analyst := sample_analyst; mw_reviewer := sample_reviewer; mw_notify := λ _, mret tt; mw_memory := None;
     mw_faculties := None; mw_identity := None; mw_brief := None |}.
Definition sample_options : KernelWorkflowOptions (Kernel unit Z) :=
  {| ko_canary := None; ko_capabilityService := Some sample_service; ko_canaryTargetFile := None; ko_mission := Some sample_wiring |}.

Definition sample_start : Kernel unit Z := {| k_db := empty_ledger; k_task := sample_task RECEIVED CRITERION; k_world := 20 |}.
#[local] Abbreviation kernel_sample sub :=
  (run sample_world ascii_upper (λ _, true) Mission.ascii_lower (λ _, EmptyString) sample_oracle sample_oracle sample_worker
    sample_options (sample_key sub) sub sample_start).
Definition mission_submission : KernelSubmission := sample_submission RepoAnalysisMission "acme/app findings=1 What should we fix first?".

(** ** The theorems on them *)

Lemma mission_run_ends_once_witness :
  ∃ plan o es, mission_plans = [plan] ∧ (log_run plan).2 = Ok o ∧ (log_run plan).1.1 = es ∧ out_status o = O_COMPLETED ∧
    ∃ objective g a r c rest facts ta ra tr rr rec e1 e2 e3 e4 s1 s2 s3 s4 candidate,
      orderedSteps plan = Ok (g :: a :: r :: c :: rest) ∧
      mission_chain (λ _, true) Mission.ascii_lower mission_task objective g a r c facts ta ra tr rr rec e1 e2 e3 e4 s1 s2 s3 s4 candidate es.
Proof.
  assert (Hl : map (λ p, out_status <$> result_list (log_run p).2) mission_plans = [[O_COMPLETED]]) by (vm_compute; reflexivity).
  generalize dependent mission_plans. intros plans Hl. destruct plans as [|plan [|]]; cbn [map] in Hl; [discriminate Hl| |discriminate Hl]. exists plan.
  destruct (log_run plan) as [s' [o|e]] eqn:E; [|discriminate Hl]. injection Hl as Ho.
  destruct (mission_run_ends_once log_deps fst (λ _, true) Mission.ascii_lower mission_task plan ([], 20) s' o E)
    as (es & Hes & [(es0 & p & _ & _ & Hf & _)|H]); [exfalso; rewrite Ho in Hf; discriminate Hf|].
  exists o, es. split; [reflexivity|]. split; [reflexivity|]. split; [exact Hes|]. split; [exact Ho|].
  destruct H as (objective & g & a & r & c & rest & facts & ta & ra & tr & rr & rec & e1 & e2 & e3 & e4 & s1 & s2 & s3 & s4 & candidate & _ & H).
  exists objective, g, a, r, c, rest, facts, ta, ra, tr, rr, rec, e1, e2, e3, e4, s1, s2, s3, s4, candidate. exact H.
Defined.

Lemma empty_unknown i : unknown_task i empty_ledger.
Proof.
  split; [apply no_tasks_ok, empty_ledger_empty|reflexivity| |reflexivity]. intros le Hle. by apply elem_of_nil in Hle.
Qed.

Lemma aside_constant {X W A} i (m : prog (Kernel X W) A) : (∀ s, (m s).1 = s) → aside i m.
Proof. intros Hm s. rewrite Hm. split; [done|]. by split_and!. Qed.

#[export] Instance sample_ports i : PortsAside i sample_options.
Proof.
  split; cbn.
  - intros s [= <-]. split_and!; intros r; by apply aside_constant.
  - intros m [= <-]. split_and!; try (intros r; by apply aside_constant). intros f r [=].
  - intros m f [= <-] [=].
  - intros m f [= <-] [=].
  - intros m f [= <-] [=].
Qed.

Lemma sample_mission_completes : out_status <$> result_list (kernel_sample mission_submission).2 = [O_COMPLETED].
Proof. vm_compute. reflexivity. Qed.

Lemma kernel_run_settles_witness :
  ∃ s' o t, kernel_sample mission_submission = (s', Ok o) ∧ out_status o = O_COMPLETED ∧
    l_tasks (k_db s') !! sample_key mission_submission = Some t ∧ task_status t = COMPLETED ∧
    verified_completion (k_db s') t.
Proof.
  pose proof sample_mission_completes as Hok.
  destruct (kernel_sample mission_submission) as [s' [o|e]] eqn:E; [|discriminate Hok]. injection Hok as Ho.
  destruct (kernel_run_settles sample_world ascii_upper (λ _, true) Mission.ascii_lower (λ _, EmptyString) sample_oracle sample_oracle
    sample_worker sample_options (sample_key mission_submission) mission_submission sample_start s' o
    (empty_unknown _) (sample_ports _) E) as (_ & _ & t & Ht & _ & Hst & Hv).
  exists s', o, t. rewrite Ho in Hst. split; [reflexivity|]. split; [exact Ho|]. split; [exact Ht|]. split; [exact Hst|exact (Hv Ho)].
Defined.
