(* ===== verification/GovernedSample.v ===== *)
(** * A governed mission on concrete inputs

    A ledger whose tables hold the core team's faculties, one identity and the contract marker,
    and ports that pin, latch and authorise over that very ledger: the sample mission under its
    faculties and its identity, up to the write that completes it.  The theorems of
    CognitionFacts.v, IdentityFacts.v and LedgerOracles.v are applied to the states it reaches. *)

From S2P Require Import Prelude JsNumber JsDate Digest Contracts Plan Capability Json Mission Brief Regex MemPolicy.
From S2P Require Import MemContext MemPort Model Faculty FacultyFacts FacultyPins Identity IdentityFacts.
From S2P Require Import Cognition CognitionFacts LedgerOracles Assembly MissionRun MissionRunFacts.
From S2P Require Import BriefRun RepositoryRead Ledger KernelWorkflow KernelFacts RunSample.
Local Open Scope Z_scope.
Local Open Scope js_scope.

(** ** The tables *)

Record Governed := {
  gv_versions : list FacultyRow; gv_pins : list PinRow; gv_identities : list IdentityVersionRow;
  gv_latches : list Latch; gv_identity_pins : list IdentityPinRow
}.

#[export] Instance governed_faculties : FacultyTables Governed.
Proof.
  refine {| ft_versions := gv_versions; ft_pins := gv_pins;
    ft_add_pin := λ r x, {| gv_versions := gv_versions x; gv_pins := gv_pins x ++ [r]; gv_identities := gv_identities x;
                            gv_latches := gv_latches x; gv_identity_pins := gv_identity_pins x |} |}; done.
Defined.

#[export] Instance governed_identities : IdentityTables Governed.
Proof.
  refine {| it_marker := λ _, Some 5; it_epoch := λ _ _, 7; it_versions := gv_identities; it_activations := λ _, [(sample_id 81, 1)];
    it_latches := gv_latches; it_pins := gv_identity_pins;
    it_add_latch := λ l x, {| gv_versions := gv_versions x; gv_pins := gv_pins x; gv_identities := gv_identities x;
                              gv_latches := gv_latches x ++ [l]; gv_identity_pins := gv_identity_pins x |};
    it_add_pin := λ r x, {| gv_versions := gv_versions x; gv_pins := gv_pins x; gv_identities := gv_identities x;
                            gv_latches := gv_latches x; gv_identity_pins := gv_identity_pins x ++ [r] |} |}; done.
Defined.

Definition sample_document : json :=
  JObj [("id", JStr (sample_id 81)); ("tenantId", JStr FacultySample.tenant); ("version", JNum 1);
        ("sections", JObj
          [("classA", JObj [("name", JStr "Kernel"); ("constitution", JStr "Be accurate."); ("values", JArr [JStr "evidence"]);
                            ("operatorRelationship", JStr "Serves one operator."); ("facultyFraming", JStr "Faculties are bounded.");
                            ("memoryPolicy", JStr "Memory is governed.")]);
           ("classC", JObj [("persona", JStr "Calm."); ("communication", JStr "Brief."); ("behaviour", JStr "Careful.");
                            ("presentation", JStr "Plain.")]);
           ("classD", JObj [("objectives", JArr []); ("vision", JStr "Reliable work.")])])].

Definition digest_or_empty (r : result string) : string := match r with Ok d => d | Throw _ => EmptyString end.
Definition sample_identity : IdentityVersionRow :=
  {| iv_id := sample_id 80; iv_identityId := sample_id 81; iv_tenantId := FacultySample.tenant; iv_version := 1;
     iv_document := jsonb_of sample_document; iv_identityCoreDigest := digest_or_empty (identityCoreDigestV1 sample_document);
     iv_classADigest := digest_or_empty (digest_at (classA_of sample_document)) |}.

Definition governed_tables : Governed :=
  {| gv_versions := map FacultySample.row FacultySample.team; gv_pins := []; gv_identities := [sample_identity];
     gv_latches := []; gv_identity_pins := [] |}.
Definition governed_ledger : LedgerDb Governed :=
  LDb (l_principals empty_ledger) (l_roles empty_ledger) ∅ ∅ ∅ [] ∅ ∅ ∅ [] governed_tables.

(** ** The run up to its completing write *)

(** The world counts and keeps the emission that asks for completion. *)
Definition GovernedWorld : Type := Z * option Emission.
Local Abbreviation St := (Kernel Governed GovernedWorld).
Definition counted_g {A} (f : Z → A) : prog GovernedWorld A := λ s, ((s.1 + 1, s.2), Ok (f s.1)).

Definition governed_world : KernelWorld GovernedWorld :=
  {| kw_uuid := counted_g sample_id; kw_dateNow := counted_g sample_ms; kw_clock := counted_g (λ n, toISOString (sample_ms n));
     kw_peek := mret None; kw_decision := mret {| sg_cancel := false; sg_reason := None |}; kw_resolve := λ _, mret tt |}.

Definition governed_oracle_f := faculty_oracle (X := Governed) (λ _, true).
Definition governed_oracle_i := identity_oracle (X := Governed) (λ _, true).

Definition governed_faculty_port : FacultyPort St :=
  {| fq_pin := λ i, on_ledger (pin FacultySample.routes i);
     fq_authorize := λ p r, on_ledger (λ d, (d, authorize_call FacultySample.routes p r d)) |}.
Definition governed_identity_port : IdentityPort St :=
  {| iq_latch := λ i, on_ledger (latch (Ok true) i);
     iq_authorize := λ s p r e, on_ledger (λ d, (d, authorize_cognition s p r e d)) |}.

Definition governed_service : CapabilityService St :=
  {| cs_repositoryRead := λ _, throw_st (js_error "no repository"); cs_githubRead := sample_github;
     cs_githubActivity := λ _, throw_st (js_error "no activity") |}.
Definition governed_wiring : MissionWiring St :=
  {| mw_analyst := sample_analyst; mw_reviewer := sample_reviewer; mw_notify := λ _, mret tt; mw_memory := None;
     mw_faculties := Some governed_faculty_port; mw_identity := Some governed_identity_port; mw_brief := None |}.

Definition governed_deps : MissionDeps St :=
  mission_deps governed_world ascii_upper (λ _, true) Mission.ascii_lower governed_oracle_f governed_oracle_i sample_worker
    governed_service governed_wiring.

(** The same operations, stopped at the request for completion. *)
Definition stop_at_complete (e : Emission) : prog St (option Outcome) :=
  if em_key e === "complete" then
    λ s, ({| k_db := k_db s; k_task := k_task s; k_world := ((k_world s).1, Some e) |}, Throw (js_error "stopped"))
  else md_emit governed_deps e.
Definition stopped_deps : MissionDeps St :=
  {| md_emit := stop_at_complete; md_now := md_now governed_deps; md_clock := md_clock governed_deps; md_uuid := md_uuid governed_deps;
     md_githubRead := md_githubRead governed_deps; md_analyst := md_analyst governed_deps; md_reviewer := md_reviewer governed_deps;
     md_memory := md_memory governed_deps; md_faculties := md_faculties governed_deps; md_identity := md_identity governed_deps;
     md_recordModelCall := md_recordModelCall governed_deps; md_notify := md_notify governed_deps |}.

Definition governed_run (submission : KernelSubmission) : prog St Outcome :=
  compiled ← lift_result (compileIntent objective_grammar submission);
  assign compiled.1;;
  plan ← lift_result (planTask compiled.1 (sub_recipe submission));
  admit_task governed_world ascii_upper (λ _, true) Mission.ascii_lower governed_oracle_f governed_oracle_i sample_worker submission plan;;
  task ← current;
  runRepoAnalysisMission stopped_deps (λ _, true) Mission.ascii_lower task plan.

Definition governed_start : St := {| k_db := governed_ledger; k_task := sample_task RECEIVED CRITERION; k_world := (20, None) |}.

(** The write the stopped emission asks for. *)
Definition completing_at : string := "2026-09-15T16:01:30.000Z".
Definition completing (s : St) : option Write :=
  match (k_world s).2, Task_parse (progressed (k_task s) "complete" COMPLETED completing_at) with
  | Some e, Ok t =>
      Some (emission_write "complete" t
        {| te_id := sample_id 99; te_taskId := task_id t; te_stepId := None; te_type := em_type e; te_occurredAt := completing_at;
           te_actor := task_principal t; te_traceId := task_traceId t; te_payload := with_status_field COMPLETED no_fields |}
        (of_outcome (default upper_outcome (em_outcome e)) None))
  | _, _ => None
  end.

Definition governed_write : Write → prog (LedgerDb Governed) unit :=
  write ascii_upper (λ _, true) Mission.ascii_lower governed_oracle_f governed_oracle_i (wk_workflow sample_worker)
    (wk_releaseId sample_worker) (wk_canary sample_worker).

(** All that the completion theorem asks of such a write, in one test. *)
Definition completes (s : St) : bool :=
  match completing s with
  | Some w =>
      match Task_parse (w_task w) with
      | Ok task =>
          match plan_events (task_id task) (k_db s) with
          | [event] =>
              match event_plan event with
              | Some plan =>
                  (task_status task === COMPLETED) && (find_key (task_id task) (w_key w) (l_events (k_db s)) === None) &&
                  (plan_recipe plan === RepoAnalysisMission) && is_ok (governed_write w (k_db s)).2 &&
                  negb (isLegacyTask (it_marker (l_pins (k_db s))) (binding_epoch (k_db s) (task_id task)))
              | None => false
              end
          | _ => false
          end
      | Throw _ => false
      end
  | None => false
  end.

Lemma governed_run_completes : completes (governed_run mission_submission governed_start).1 = true.
Proof. vm_compute. reflexivity. Qed.

(** A mission whose identity is REQUIRED, completed on what its ledger holds. *)
Lemma mission_completion_bound_witness :
  ∃ input d d' task plan rows latch analyst call records,
    governed_write input d = (d', Ok tt) ∧ plan_recipe plan = RepoAnalysisMission ∧ task_status task = COMPLETED ∧
    parse_all (Evidence_parse (λ _, true)) rows = Ok records ∧
    cognition_bound (completion_facts d task (Some plan) rows) records latch analyst call.
Proof.
  pose proof governed_run_completes as Hc. destruct (governed_run mission_submission governed_start) as [s r]. cbn [fst] in Hc.
  unfold completes in Hc. destruct (completing s) as [w|]; [|discriminate Hc]. destruct (Task_parse (w_task w)) as [task|] eqn:Et; [|discriminate Hc].
  destruct (plan_events (task_id task) (k_db s)) as [|event [|]] eqn:Ep; [discriminate Hc| |discriminate Hc].
  destruct (event_plan event) as [plan|] eqn:Eev; [|discriminate Hc].
  apply andb_true_iff in Hc as [[[[Hst%bool_decide_eq_true Hk%bool_decide_eq_true]%andb_true_iff Hrec%bool_decide_eq_true]%andb_true_iff
    Hok]%andb_true_iff Hl%negb_true_iff].
  destruct (governed_write w (k_db s)) as [d' [[]|e]] eqn:Ew; [|discriminate Hok].
  destruct (mission_completion_bound ascii_upper (λ _, true) Mission.ascii_lower (wk_workflow sample_worker) (wk_releaseId sample_worker)
    (wk_canary sample_worker) w (k_db s) d' task event plan Ew Et Hst Hk Ep Eev Hrec) as (rows & _ & _ & [[Hleg _]|(_ & records & latch & analyst & call & Hp & Hb)]).
  { rewrite Hl in Hleg. discriminate Hleg. }
  exists w, (k_db s), d', task, plan, (map fst rows), latch, analyst, call, records.
  split; [exact Ew|]. split; [exact Hrec|]. split; [exact Hst|]. split; [exact Hp|exact Hb].
Defined.

(** ** The latch of one step *)

Definition small_task : string := Eval vm_compute in task_id FacultySample.running.
Definition small_step : string := Eval vm_compute in FacultySample.step 1.
Definition small_tenant : string := Eval vm_compute in FacultySample.tenant.

Definition small_binding : ExecutionBinding :=
  {| eb_target := sample_target; eb_taskId := small_task; eb_tenantId := small_tenant;
     eb_principal := task_principal FacultySample.running; eb_releaseId := "r1"; eb_executionKey := small_task;
     eb_boundAt := "2026-09-15T16:00:00.000Z"; eb_definitionDigest := EmptyString |}.
Definition small_ledger : LedgerDb Governed :=
  LDb ∅ [] {[small_task := FacultySample.running]} FacultySample.steps ∅ (map FacultySample.compiled mission_plans) ∅ ∅
    {[small_task := small_binding]} [] governed_tables.
Definition small_pin : LedgerDb Governed * result FacultyPin := pin FacultySample.routes {| pi_tenantId := small_tenant; pi_taskId := small_task; pi_stepId := small_step |} small_ledger.
Definition latch_input (p : option FacultyPin) : LatchInput :=
  {| li_tenantId := small_tenant; li_taskId := small_task; li_stepId := small_step; li_facultyPin := p |}.

(** The assembled request of a pinned and latched step. *)
Definition small_assembled (p : FacultyPin) (c : option CognitionPin) : result AssembledAnalystRequest :=
  assembleAnalystRequest
    {| aa_request := {| an_common := {| pr_callId := sample_id 60; pr_taskId := small_task; pr_stepId := small_step;
                                        pr_trace := mq_trace FacultySample.request; pr_facts := sample_facts;
                                        pr_factsDigest := capabilityDigest (facts_json sample_facts) |};
                        an_question := "What should we fix first?"; an_contract := sample_contract; an_memory := EmptyString |};
       aa_recipe := "repo-analysis-mission/v1"; aa_repo := "acme/app"; aa_facultyPin := Some p; aa_cognition := COG_REQUIRED c;
       aa_memoryAssemblyDigest := None |}.

(** The pin, the latch after it and the authorisation of the call, in one test. *)
Definition small_call (d : LedgerDb Governed) (p : FacultyPin) (state : CognitionState) (c : CognitionPin) : bool :=
  match small_assembled p (Some c) with
  | Ok a => is_ok (authorize_cognition state (Some p) (as_request a) (as_assemblyDigest a) d)
  | Throw _ => false
  end.
Definition small_latched (p : FacultyPin) (x : LedgerDb Governed * result CognitionState) : bool :=
  match x with
  | (d, Ok (S_CONTRACT start l (Some c))) =>
      (la_mode l === "REQUIRED") && (latches_at d small_task small_step === [l]) && small_call d p (S_CONTRACT start l (Some c)) c
  | _ => false
  end.
Definition small_case (x : LedgerDb Governed * result FacultyPin) : bool :=
  match x with
  | (d, Ok p) => small_latched p (latch (Ok true) (latch_input (Some p)) d)
  | _ => false
  end.

Lemma small_case_holds : small_case small_pin = true.
Proof. vm_compute. reflexivity. Qed.

Lemma small_unlatched d p : small_pin = (d, Ok p) → no_identity d.
Proof.
  unfold small_pin. intros H. assert (Hn : no_identity (pin FacultySample.routes {| pi_tenantId := small_tenant; pi_taskId := small_task; pi_stepId := small_step |} small_ledger).1).
  { split; vm_compute; reflexivity. }
  rewrite H in Hn. exact Hn.
Qed.

Lemma latch_is_final_witness : ∃ d p d1 start l c, small_pin = (d, Ok p) ∧
  latch (Ok true) (latch_input (Some p)) d = (d1, Ok (S_CONTRACT start l (Some c))) ∧
  latch (Ok false) (latch_input None) d1 = (d1, Ok (S_CONTRACT start l (Some c))).
Proof.
  pose proof small_case_holds as Hc. destruct small_pin as [d [p|]]; [|discriminate Hc]. cbn [small_case] in Hc.
  destruct (latch (Ok true) (latch_input (Some p)) d) as [d1 [[| start l [c|]]|]] eqn:El; try discriminate Hc.
  exists d, p, d1, start, l, c. split; [reflexivity|]. split; [exact El|].
  exact (latch_is_final (Ok true) (Ok false) (latch_input (Some p)) (latch_input None) d d1 d1 start l (Some c) El (rtc_refl _ _) eq_refl eq_refl eq_refl).
Defined.

Lemma latches_and_pins_agree_witness : ∃ d' l r, latches_at d' (small_task) (small_step) = [l] ∧
  la_mode l = "REQUIRED" ∧ pins_at d' (small_task) (small_step) = [r] ∧ ir_tenantId r = la_tenantId l.
Proof.
  pose proof small_case_holds as Hc. destruct small_pin as [d [p|]] eqn:Ep; [|discriminate Hc]. cbn [small_case] in Hc.
  destruct (latch (Ok true) (latch_input (Some p)) d) as [d1 [[| start l [c|]]|]] eqn:El; try discriminate Hc.
  cbn [small_latched] in Hc. apply andb_true_iff in Hc as [[Hm%bool_decide_eq_true Hl%bool_decide_eq_true]%andb_true_iff _].
  assert (Hs : rtc cognition_step d d1).
  { apply rtc_once. pose proof (cs_latch d (Ok true) (latch_input (Some p))) as Hs. rewrite El in Hs. exact Hs. }
  destruct (latches_and_pins_agree d d1 (small_task) (small_step) (small_unlatched _ _ Ep) Hs) as (l' & Hl' & Hr & _).
  { left. rewrite Hl. discriminate. }
  rewrite Hl in Hl'. injection Hl' as <-. destruct (Hr Hm) as (r & Hr' & Ht).
  exists d1, l, r. split; [exact Hl|]. split; [exact Hm|]. split; [exact Hr'|exact Ht].
Defined.

Lemma authorized_call_is_pinned_witness : ∃ (d : LedgerDb Governed) state p f a,
  authorize_cognition state (Some f) (as_request a) (as_assemblyDigest a) d = Ok tt ∧ carries_identity d p f (system_text (as_request a)).
Proof.
  pose proof small_case_holds as Hc. destruct small_pin as [d [p|]] eqn:Ep; [|discriminate Hc]. cbn [small_case] in Hc.
  destruct (latch (Ok true) (latch_input (Some p)) d) as [d1 [[| start l [c|]]|]] eqn:El; try discriminate Hc.
  cbn [small_latched] in Hc. apply andb_true_iff in Hc as [[Hm%bool_decide_eq_true _]%andb_true_iff Hc].
  unfold small_call in Hc. destruct (small_assembled p (Some c)) as [a|]; [|discriminate Hc].
  destruct (authorize_cognition (S_CONTRACT start l (Some c)) (Some p) (as_request a) (as_assemblyDigest a) d1) as [[]|] eqn:Ea; [|discriminate Hc].
  destruct (authorized_call_is_pinned (S_CONTRACT start l (Some c)) (Some p) (as_request a) (as_assemblyDigest a) d1 Ea)
    as (_ & _ & [(Hn & _)|(_ & p' & f & Hp & Hf & Hci)]); [rewrite Hm in Hn; discriminate Hn|].
  injection Hf as <-. exists d1, (S_CONTRACT start l (Some c)), p', p, a. split; [exact Ea|exact Hci].
Defined.

(** Everything the profile asks for. *)
Definition full_ceiling : list string := default [] (map_get PROFILE_SCOPES ANALYST_INTELLIGENCE_V1).
Local Abbreviation sample_projection := (projectIdentity sample_document ANALYST_INTELLIGENCE_V1 full_ceiling).

Lemma projection_carries_stored_bytes_witness : ∃ p, sample_projection = Ok p ∧ identityCoreDigestV1 sample_document = Ok (pj_coreDigest p) ∧
  pj_id p = sample_id 81.
Proof.
  assert (Hok : is_ok sample_projection = true) by (vm_compute; reflexivity).
  destruct sample_projection as [p|] eqn:E; [|discriminate Hok]. exists p. split; [reflexivity|].
  destruct (projection_carries_stored_bytes sample_document ANALYST_INTELLIGENCE_V1 full_ceiling p E) as (_ & _ & Hid & _ & Hd & _).
  split; [exact Hd|]. change (Some (JStr (sample_id 81)) = Some (JStr (pj_id p))) in Hid. injection Hid as Hid. symmetry. exact Hid.
Defined.
