(* ===== verification/Schedule.v ===== *)
(** * Schedules: specification, civil time, fire windows, policy, tick
    (services/kernel/src/scheduler: spec.ts, time.ts, fire.ts, policy.ts, runtime.ts,
    and nextWindowAfter of durable-timer.ts)

    Instants are integers, milliseconds of UTC.  The time-zone database behind
    [Intl] is a parameter: [wall] gives the wall-clock fields of an instant in
    a zone, [isValidTimeZone] the names it knows.  The theorems: fire windows
    lie in the asked interval, in order, with distinct identities; an interval
    schedule and, in a zone of fixed offset, a daily one fire exactly once per
    slot; re-arming always moves strictly forward; the missed-run policy is
    bounded; a tick admits no identity twice. *)

From stdpp Require Import sorting.
From S2P Require Import Prelude JsNumber JsDate Digest Contracts.
Local Open Scope Z_scope.
Local Open Scope js_scope.

(** ** spec.ts *)

Definition MAX_BACKFILL_RUNS : Z := 100.

Inductive CalendarSpec :=
  | everyNMinutes (n : Z)
  | dailyAt (hour minute : Z)
  | weeklyAt (weekday hour minute : Z).

Inductive MissedRunPolicy := MR_SKIP | MR_RUN_ONCE | MR_BACKLOG_BOUNDED.
Inductive OverlapPolicy := OV_FORBID | OV_QUEUE | OV_REPLACE.
Inductive NonexistentTimePolicy := NE_SKIP | NE_SHIFT_FORWARD.
Inductive ScheduleState := enabled | paused | disabled.

#[export] Instance CalendarSpec_eq_dec : EqDecision CalendarSpec.
Proof. solve_decision. Defined.
#[export] Instance MissedRunPolicy_eq_dec : EqDecision MissedRunPolicy.
Proof. solve_decision. Defined.
#[export] Instance OverlapPolicy_eq_dec : EqDecision OverlapPolicy.
Proof. solve_decision. Defined.
#[export] Instance NonexistentTimePolicy_eq_dec : EqDecision NonexistentTimePolicy.
Proof. solve_decision. Defined.
#[export] Instance ScheduleState_eq_dec : EqDecision ScheduleState.
Proof. solve_decision. Defined.

Definition between (lo hi x : Z) : bool := (lo <=? x) && (x <=? hi).

Definition CalendarSpec_ok (c : CalendarSpec) : bool :=
  match c with
  | everyNMinutes n => between 1 1440 n
  | dailyAt h m => between 0 23 h && between 0 59 m
  | weeklyAt w h m => between 0 6 w && between 0 23 h && between 0 59 m
  end.

Record ScheduleSpec := {
  sp_scheduleId : string;
  sp_version : string;
  sp_tenant : string;
  sp_principal : PrincipalRef;
  sp_owner : PrincipalRef;
  sp_timezone : string;
  sp_calendar : CalendarSpec;
  sp_state : ScheduleState;
  sp_missedRunPolicy : MissedRunPolicy;
  sp_maxBackfillRuns : Z;
  sp_overlapPolicy : OverlapPolicy;
  sp_perScheduleConcurrency : Z;
  sp_nonexistentTimePolicy : NonexistentTimePolicy;
  sp_enabledForProduction : bool;
  sp_createdAt : string
}.

Record SchedulerConfig := { globalConcurrencyCap : Z }.

(** ** time.ts *)

Record Civil := { c_year : Z; c_month : Z; c_day : Z; c_hour : Z; c_minute : Z }.

#[export] Instance Civil_eq_dec : EqDecision Civil.
Proof. solve_decision. Defined.

(** [{ ...Civil, second }] *)
Record Wall := { w_civil : Civil; w_second : Z }.

Inductive CivilResolution :=
  | R_unique (instant : Z)
  | R_fold (first last : Z)
  | R_gap (shiftForwardInstant : Z).

(** A JavaScript [Set] of numbers, in insertion order. *)
Definition znub (l : list Z) : list Z :=
  fold_left (λ s x, if bool_decide (x ∈ s) then s else s ++ [x]) l [].

Definition ascending (l : list Z) : list Z := js_sort (λ a b, a - b) l.

Definition civilWeekday (y m d : Z) : Z := getUTCDay (Date_UTC y m d 0 0 0).

(** [new Date(Date.UTC(y, m - 1, d + 1))], split again. *)
Definition nextCivilDate (ymd : Z * Z * Z) : Z * Z * Z :=
  let '(y, m, d) := ymd in civil_from_days (Date_UTC y m (d + 1) 0 0 0 / msPerDay).

Section timezone.
Context (wall : Z → string → Wall) (isValidTimeZone : string → bool).

(** [ScheduleSpec.parse]: the field ranges, the HUMAN owner, the zone, the final
    refinement. *)
Definition ScheduleSpec_parse (s : ScheduleSpec) : result ScheduleSpec :=
  ok_or (Id_ok (sp_scheduleId s) && (sp_version s !== EmptyString) && Id_ok (sp_tenant s)
         && Id_ok (principal_id (sp_principal s)) && Id_ok (principal_id (sp_owner s))) "schedule ids";;
  ok_or (principal_kind (sp_owner s) === HUMAN) "owner must be HUMAN";;
  ok_or ((sp_timezone s !== EmptyString) && isValidTimeZone (sp_timezone s)) "invalid IANA timezone";;
  ok_or (CalendarSpec_ok (sp_calendar s)) "calendar";;
  ok_or (between 0 MAX_BACKFILL_RUNS (sp_maxBackfillRuns s)
         && between 1 50 (sp_perScheduleConcurrency s) && Timestamp_ok (sp_createdAt s)) "limits";;
  ok_or ((sp_missedRunPolicy s !== MR_BACKLOG_BOUNDED) || (1 <=? sp_maxBackfillRuns s))
    "BACKLOG_BOUNDED requires maxBackfillRuns >= 1";;
  Ok s.

Definition offsetMsAt (utcMs : Z) (tz : string) : Z :=
  let w := wall utcMs tz in let c := w_civil w in
  Date_UTC (c_year c) (c_month c) (c_day c) (c_hour c) (c_minute c) (w_second w) - utcMs.

Definition civil_instant (c : Civil) : Z :=
  Date_UTC (c_year c) (c_month c) (c_day c) (c_hour c) (c_minute c) 0.

Definition resolveCivil (c : Civil) (tz : string) : CivilResolution :=
  let target := civil_instant c in
  let probeOffsets := [offsetMsAt (target - 86400000) tz; offsetMsAt target tz;
                       offsetMsAt (target + 86400000) tz] in
  let seenOff := znub probeOffsets in
  let valid := List.filter (λ inst, w_civil (wall inst tz) === c) (map (λ off, target - off) seenOff) in
  match ascending (znub valid) with
  | [x] => R_unique x
  | x :: rest => R_fold x (List.last rest x)
  | [] => R_gap (target - List.hd 0 (ascending seenOff))
  end.

Definition civilDateInTz (utcMs : Z) (tz : string) : Z * Z * Z :=
  let c := w_civil (wall utcMs tz) in (c_year c, c_month c, c_day c).

(** ** fire.ts *)

Inductive FireNote := utc_interval | unique | fold_first | gap_shifted.

Record FireWindow := {
  fireWindowKey : string;
  fireAtUtcMs : Z;
  fireAtUtcIso : string;
  civilSlot : string;
  fw_note : FireNote
}.

(** [String(n).padStart(2, "0")] *)
Definition pad2 (n : Z) : string :=
  let s : string := pretty n in
  if (String.length s <? 2)%nat then String "0" s else s.

Definition idempotencyKey (spec : ScheduleSpec) (key : string) : string :=
  sp_scheduleId spec +:+ "|" +:+ sp_version spec +:+ "|" +:+ key.

Definition fireIdentity (spec : ScheduleSpec) (key : string) : string :=
  stableId (JArr [JStr "kj-schedule-fire/v1"; JStr (sp_scheduleId spec); JStr (sp_version spec); JStr key]).

(** The interval branch: [for (t = first; t < to; t += step)]. *)
Definition interval_window (n t : Z) : FireWindow :=
  {| fireWindowKey := "everyNMinutes/" +:+ pretty n +:+ "@" +:+ pretty t; fireAtUtcMs := t;
     fireAtUtcIso := toISOString t; civilSlot := toISOString t; fw_note := utc_interval |}.

Fixpoint interval_loop (fuel : nat) (n t to : Z) : list FireWindow :=
  match fuel with
  | O => []
  | S fuel' => if t <? to then interval_window n t :: interval_loop fuel' n (t + n * 60000) to else []
  end.

(** [Math.ceil(a / b)], [b > 0]. *)
Definition ceil_div (a b : Z) : Z := - ((- a) / b).

Definition date_text (ymd : Z * Z * Z) : string :=
  let '(y, m, d) := ymd in pretty y +:+ "-" +:+ pad2 m +:+ "-" +:+ pad2 d.

Definition slot_of (tz : string) (hour minute : Z) (ymd : Z * Z * Z) : string :=
  tz +:+ "|" +:+ date_text ymd +:+ "T" +:+ pad2 hour +:+ ":" +:+ pad2 minute.

Definition key_of (kind tz : string) (hour minute : Z) (ymd : Z * Z * Z) : string :=
  kind +:+ "/" +:+ pad2 hour +:+ ":" +:+ pad2 minute +:+ "|" +:+ tz +:+ "|" +:+ date_text ymd.

(** [fireAt] and [note] of a resolved civil time; [None] is [fireAt === null]. *)
Definition fire_of (policy : NonexistentTimePolicy) (r : CivilResolution) : option (Z * FireNote) :=
  match r with
  | R_unique x => Some (x, unique)
  | R_fold x _ => Some (x, fold_first)
  | R_gap x => if policy === NE_SHIFT_FORWARD then Some (x, gap_shifted) else None
  end.

(** The calendar branch, one civil date per turn. *)
Fixpoint calendar_loop (days : nat) (spec : ScheduleSpec) (kind : string)
    (consider : Z * Z * Z → bool) (hour minute from to : Z) (ymd : Z * Z * Z)
    (seen : list string) (out : list FireWindow) : list FireWindow :=
  match days with
  | O => out
  | S days' =>
      let continue_ := calendar_loop days' spec kind consider hour minute from to (nextCivilDate ymd) in
      let '(y, m, d) := ymd in
      let slot := slot_of (sp_timezone spec) hour minute ymd in
      if consider ymd then
        match fire_of (sp_nonexistentTimePolicy spec)
                (resolveCivil {| c_year := y; c_month := m; c_day := d; c_hour := hour; c_minute := minute |}
                   (sp_timezone spec)) with
        | Some (fireAt, note) =>
            if (from <=? fireAt) && (fireAt <? to) && negb (bool_decide (slot ∈ seen)) then
              continue_ (slot :: seen)
                (out ++ [{| fireWindowKey := key_of kind (sp_timezone spec) hour minute ymd;
                            fireAtUtcMs := fireAt; fireAtUtcIso := toISOString fireAt;
                            civilSlot := slot; fw_note := note |}])
            else continue_ seen out
        | None => continue_ seen out
        end
      else continue_ seen out
  end.

Definition dayMs : Z := 86400000.

Definition calendar_windows (spec : ScheduleSpec) (kind : string) (consider : Z * Z * Z → bool)
    (hour minute from to : Z) : list FireWindow :=
  js_sort (λ a b, fireAtUtcMs a - fireAtUtcMs b)
    (calendar_loop (Z.to_nat ((to - from) / dayMs + 4)) spec kind consider hour minute from to
       (civilDateInTz (from - 2 * dayMs) (sp_timezone spec)) [] []).

Definition dueFireWindows (spec : ScheduleSpec) (from to : Z) : list FireWindow :=
  if negb (from <? to) then []
  else
    match sp_calendar spec with
    | everyNMinutes n =>
        let step := n * 60000 in
        let first := ceil_div from step * step in
        interval_loop (Z.to_nat ((to - first) / step + 1)) n first to
    | dailyAt h m => calendar_windows spec "dailyAt" (λ _, true) h m from to
    | weeklyAt w h m =>
        calendar_windows spec "weeklyAt" (λ '(y, mo, d), civilWeekday y mo d === w) h m from to
    end.

(** [nextWindowAfter] of durable-timer.ts *)
Definition horizonMs (c : CalendarSpec) : Z :=
  match c with everyNMinutes n => n * 60000 * 2 + 60000 | _ => 9 * 86400000 end.

Definition nextWindowAfter (spec : ScheduleSpec) (fromMs : Z) : option FireWindow :=
  head (dueFireWindows spec (fromMs + 1) (fromMs + 1 + horizonMs (sp_calendar spec))).

(** ** policy.ts *)

Definition canFire (spec : ScheduleSpec) (productionRuntime : bool) : bool * string :=
  match sp_state spec with
  | disabled => (false, "state_disabled")
  | paused => (false, "state_paused")
  | enabled =>
      if productionRuntime && negb (sp_enabledForProduction spec) then (false, "production_not_enabled")
      else (true, "enabled")
  end.

Definition policy_error (msg : string) : exn := Exn "UnknownPolicyError" msg.

(** [admit] of [resolveMissedRuns]. *)
Definition resolveMissedRuns (spec : ScheduleSpec) (missed : list FireWindow)
  : result (list FireWindow) :=
  let ordered := js_sort (λ a b, fireAtUtcMs a - fireAtUtcMs b) missed in
  match sp_missedRunPolicy spec with
  | MR_SKIP => Ok []
  | MR_RUN_ONCE => Ok (match last ordered with Some w => [w] | None => [] end)
  | MR_BACKLOG_BOUNDED =>
      let max := sp_maxBackfillRuns spec in
      if max <? 1 then Throw (policy_error "BACKLOG_BOUNDED requires maxBackfillRuns>=1")
      else if max <? Z.of_nat (length ordered)
        then Ok (drop (length ordered - Z.to_nat max) ordered) else Ok ordered
  end.

Definition assertBackfillBounded (spec : ScheduleSpec) (requestedRuns : Z) : result unit :=
  ensure (negb (requestedRuns <? 0)) (policy_error "invalid backfill request");;
  ensure (negb (MAX_BACKFILL_RUNS <? sp_maxBackfillRuns spec))
    (policy_error "maxBackfillRuns exceeds hard cap");;
  ensure (negb (sp_maxBackfillRuns spec <? requestedRuns))
    (policy_error "backfill exceeds schedule cap").

Inductive OverlapAction := PROCEED | SKIP_ACTION | QUEUE_ACTION | REPLACE_ACTION.

Definition resolveOverlap (spec : ScheduleSpec) (running : Z) : OverlapAction * string :=
  if running <=? 0 then (PROCEED, "no_overlap")
  else match sp_overlapPolicy spec with
       | OV_FORBID => (SKIP_ACTION, "forbid_overlap")
       | OV_QUEUE => if sp_perScheduleConcurrency spec <=? running
           then (QUEUE_ACTION, "queued_concurrency_full") else (PROCEED, "queue_within_concurrency")
       | OV_REPLACE => (REPLACE_ACTION, "replace_running")
       end.

Definition withinGlobalConcurrency (config : SchedulerConfig) (globalRunning : Z) : bool :=
  globalRunning <? globalConcurrencyCap config.

(** ** runtime.ts *)

Record AdmissionRequest := {
  rq_identity : string; rq_idempotencyKey : string; rq_scheduleId : string; rq_version : string;
  rq_fireWindowKey : string; rq_fireAtUtcMs : Z
}.

(** [AdmissionSink.admit]: the map of the requests admitted so far, by identity. *)
Definition sink_admit (seen : list (string * AdmissionRequest)) (req : AdmissionRequest)
  : list (string * AdmissionRequest) * bool :=
  if map_has seen (rq_identity req) then (seen, false)
  else (map_set seen (rq_identity req) req, true).

Definition toRequest (spec : ScheduleSpec) (w : FireWindow) : AdmissionRequest :=
  {| rq_identity := fireIdentity spec (fireWindowKey w);
     rq_idempotencyKey := idempotencyKey spec (fireWindowKey w);
     rq_scheduleId := sp_scheduleId spec; rq_version := sp_version spec;
     rq_fireWindowKey := fireWindowKey w; rq_fireAtUtcMs := fireAtUtcMs w |}.

Record TickResult := {
  tk_admitted : list AdmissionRequest; tk_duplicatesSuppressed : Z; tk_fired : Z; tk_reason : string
}.

Fixpoint tick_loop (spec : ScheduleSpec) (ws : list FireWindow) (seen : list (string * AdmissionRequest))
    (admitted : list AdmissionRequest) (dup : Z)
  : list (string * AdmissionRequest) * list AdmissionRequest * Z :=
  match ws with
  | [] => (seen, admitted, dup)
  | w :: ws' =>
      let req := toRequest spec w in
      match sink_admit seen req with
      | (seen', true) => tick_loop spec ws' seen' (admitted ++ [req]) dup
      | (seen', false) => tick_loop spec ws' seen' admitted (dup + 1)
      end
  end.

Definition tick (spec : ScheduleSpec) (lastTickMs nowMs : Z) (productionRuntime : bool)
    (sink : list (string * AdmissionRequest)) : list (string * AdmissionRequest) * TickResult :=
  match canFire spec productionRuntime with
  | (false, reason) =>
      (sink, {| tk_admitted := []; tk_duplicatesSuppressed := 0; tk_fired := 0; tk_reason := reason |})
  | (true, _) =>
      let windows := dueFireWindows spec lastTickMs nowMs in
      let '(sink', admitted, dup) := tick_loop spec windows sink [] 0 in
      (sink', {| tk_admitted := admitted; tk_duplicatesSuppressed := dup;
                 tk_fired := Z.of_nat (length windows); tk_reason := "fired" |})
  end.
End timezone.

(** ** Strings: a fixed-width suffix determines what precedes it *)

Lemma str_app_inj_r (a b c d : string) :
  String.length c = String.length d → a +:+ c = b +:+ d → a = b ∧ c = d.
Proof.
  intros Hl. revert b. induction a as [|x a IH]; intros [|y b] He.
  - done.
  - apply (f_equal String.length) in He. rewrite !str_app_length in He. simpl in He. lia.
  - apply (f_equal String.length) in He. rewrite !str_app_length in He. simpl in He. lia.
  - rewrite !append_cons in He. injection He as -> He. by destruct (IH _ He) as [-> ->].
Qed.

Lemma str_app_inj_l (a c d : string) : a +:+ c = a +:+ d → c = d.
Proof. apply (inj (String.append a)). Qed.

(** ** Fire windows *)

Section windows.
Context (wall : Z → string → Wall).

Definition fw_le (a b : FireWindow) : Prop := fireAtUtcMs a <= fireAtUtcMs b.

(** A window of a calendar schedule: its key and slot are those of a civil date
    with [Q], and its instant is the resolution of that date's civil time. *)
Definition calendar_window (spec : ScheduleSpec) (kind : string) (Q : Z * Z * Z → Prop)
    (hour minute : Z) (w : FireWindow) : Prop := ∃ y m d,
  Q (y, m, d) ∧
  fireWindowKey w = key_of kind (sp_timezone spec) hour minute (y, m, d) ∧
  civilSlot w = slot_of (sp_timezone spec) hour minute (y, m, d) ∧
  fireAtUtcIso w = toISOString (fireAtUtcMs w) ∧
  fire_of (sp_nonexistentTimePolicy spec)
    (resolveCivil wall {| c_year := y; c_month := m; c_day := d; c_hour := hour; c_minute := minute |}
       (sp_timezone spec)) = Some (fireAtUtcMs w, fw_note w).

Lemma calendar_loop_inv (P : Z * Z * Z → Prop) days spec kind consider hour minute from to :
  (∀ x, P x → P (nextCivilDate x)) → ∀ ymd seen out,
  let Q x := consider x = true ∧ P x in
  let ok w := from <= fireAtUtcMs w < to ∧ calendar_window spec kind Q hour minute w in
  P ymd →
  Forall ok out → NoDup (map civilSlot out) → (∀ s, s ∈ map civilSlot out → s ∈ seen) →
  let res := calendar_loop wall days spec kind consider hour minute from to ymd seen out in
  Forall ok res ∧ NoDup (map civilSlot res).
Proof.
  intros Hnext. induction days as [|days IH]; intros [[y m] d] seen out Q ok HP Hok Hnd Hseen;
    cbn [calendar_loop]; [done|].
  destruct (consider (y, m, d)) eqn:Hc; [|by apply IH; auto].
  destruct (fire_of _ _) as [[fireAt note]|] eqn:Hf; [|by apply IH; auto].
  destruct (_ && _) eqn:Hg; [|by apply IH; auto]. to_prop.
  apply IH; [by apply Hnext|..].
  - apply Forall_app. split; [done|]. constructor; [|constructor].
    split; [simpl; lia|]. exists y, m, d. done.
  - rewrite map_app. apply NoDup_app. split_and!; [done| |apply NoDup_singleton].
    intros s Hs. simpl. rewrite list_elem_of_singleton. intros ->. by apply Hseen in Hs.
  - intros s. rewrite map_app, elem_of_app. simpl. rewrite list_elem_of_singleton, elem_of_cons.
    intros [?|?]; auto.
Qed.

Lemma calendar_key_slot spec kind Q hour minute w1 w2 :
  calendar_window spec kind Q hour minute w1 → calendar_window spec kind Q hour minute w2 →
  fireWindowKey w1 = fireWindowKey w2 → civilSlot w1 = civilSlot w2.
Proof.
  intros (y1 & m1 & d1 & _ & -> & -> & _) (y2 & m2 & d2 & _ & -> & -> & _) Hk.
  unfold key_of in Hk. repeat apply str_app_inj_l in Hk. unfold slot_of. by rewrite Hk.
Qed.

Lemma NoDup_map_from {A B C} (f : A → B) (g : A → C) l :
  NoDup (map g l) → (∀ x y, x ∈ l → y ∈ l → f x = f y → g x = g y) → NoDup (map f l).
Proof.
  induction l as [|x l IH]; simpl; intros Hg Hfg; [constructor|].
  apply NoDup_cons in Hg as [Hx Hl]. apply NoDup_cons. split.
  - intros (y & Hy & Hin)%list_elem_of_fmap. apply Hx. apply list_elem_of_fmap. exists y.
    split; [|done]. apply Hfg; [by left|by right|done].
  - apply IH; [done|]. intros a b Ha Hb. apply Hfg; by right.
Qed.

Lemma interval_loop_elem fuel n : ∀ t to w, 0 < n →
  w ∈ interval_loop fuel n t to →
  ∃ k, 0 <= k ∧ w = interval_window n (t + k * (n * 60000)) ∧ t + k * (n * 60000) < to.
Proof.
  induction fuel as [|fuel IH]; intros t to w Hn; cbn [interval_loop]; [by intros ?%elem_of_nil|].
  destruct (Z.ltb_spec t to); [|by intros ?%elem_of_nil].
  intros [->|Hw]%elem_of_cons.
  - exists 0. split_and!; [lia|f_equal; lia|lia].
  - apply IH in Hw as (k & Hk & -> & Hlt); [|done].
    exists (k + 1). split_and!; [lia|f_equal; lia|lia].
Qed.

(** With enough fuel every multiple below [to] is there. *)
Lemma interval_loop_complete fuel n : ∀ t to k, 0 < n → 0 <= k →
  t + k * (n * 60000) < to → k < Z.of_nat fuel →
  interval_window n (t + k * (n * 60000)) ∈ interval_loop fuel n t to.
Proof.
  induction fuel as [|fuel IH]; intros t to k Hn Hk Hlt Hf; cbn [interval_loop]; [lia|].
  rewrite (proj2 (Z.ltb_lt t to)) by nia.
  destruct (decide (k = 0)) as [->|].
  - replace (t + 0 * (n * 60000)) with t by lia. left.
  - right. replace (t + k * (n * 60000)) with (t + n * 60000 + (k - 1) * (n * 60000)) by lia.
    apply IH; lia.
Qed.

Lemma interval_loop_sorted fuel n : ∀ t to, 0 < n → StronglySorted fw_le (interval_loop fuel n t to).
Proof.
  induction fuel as [|fuel IH]; intros t to Hn; cbn [interval_loop]; [constructor|].
  destruct (t <? to); [|constructor]. constructor; [by apply IH|].
  apply Forall_forall. intros w (k & Hk & -> & _)%interval_loop_elem; [|done].
  unfold fw_le. simpl. nia.
Qed.

Lemma interval_loop_keys fuel n : ∀ t to, 0 < n → NoDup (map fireWindowKey (interval_loop fuel n t to)).
Proof.
  induction fuel as [|fuel IH]; intros t to Hn; cbn [interval_loop]; [constructor|].
  destruct (t <? to); [|constructor]. cbn [map]. apply NoDup_cons. split; [|by apply IH].
  intros (w & Hw & Hin)%list_elem_of_fmap. apply interval_loop_elem in Hin as (k & Hk & -> & _); [|done].
  simpl in Hw. repeat apply str_app_inj_l in Hw. apply (inj pretty) in Hw. nia.
Qed.

(** The three branches of [dueFireWindows] are one of these two shapes. *)
Lemma calendar_windows_spec (P : Z * Z * Z → Prop) spec kind consider hour minute from to :
  (∀ x, P x → P (nextCivilDate x)) → P (civilDateInTz wall (from - 2 * dayMs) (sp_timezone spec)) →
  let ws := calendar_windows wall spec kind consider hour minute from to in
  let Q x := consider x = true ∧ P x in
  Forall (λ w, from <= fireAtUtcMs w < to ∧ calendar_window spec kind Q hour minute w) ws ∧
  StronglySorted fw_le ws ∧ NoDup (map fireWindowKey ws).
Proof.
  intros Hnext HP. cbv zeta. unfold calendar_windows.
  destruct (calendar_loop_inv P (Z.to_nat ((to - from) / dayMs + 4)) spec kind consider hour minute from to
    Hnext (civilDateInTz wall (from - 2 * dayMs) (sp_timezone spec)) [] []) as [Hok Hnd];
    [done|constructor|constructor|by intros s ?%elem_of_nil|].
  set (l := calendar_loop _ _ _ _ _ _ _ _ _ _ _ _) in *.
  split_and!; [by rewrite js_sort_perm|apply js_sort_by_key_sorted|].
  apply NoDup_map_from with (g := civilSlot); [by rewrite js_sort_perm|].
  intros x y Hx Hy. rewrite js_sort_elem in Hx, Hy. rewrite Forall_forall in Hok.
  destruct (Hok x Hx) as [_ Hcx]. destruct (Hok y Hy) as [_ Hcy]. by eapply calendar_key_slot.
Qed.

Lemma ceil_div_spec a b : 0 < b → a <= ceil_div a b * b < a + b.
Proof. unfold ceil_div. intros. pose proof (Z.div_mod (- a) b). pose proof (Z.mod_pos_bound (- a) b). nia. Qed.

Lemma interval_windows_elem spec n from to w :
  sp_calendar spec = everyNMinutes n → 0 < n →
  w ∈ dueFireWindows wall spec from to ↔
  ∃ t, w = interval_window n t ∧ from <= t < to ∧ (n * 60000 | t).
Proof.
  intros Hc Hn. unfold dueFireWindows. rewrite Hc.
  destruct (Z.ltb_spec from to) as [Hft|]; simpl.
  2: { split; [by intros ?%elem_of_nil|]. intros (t & _ & ? & _). lia. }
  pose proof (ceil_div_spec from (n * 60000)) as Hcd. set (q := ceil_div from (n * 60000)) in *. split.
  - intros (k & Hk & -> & Hlt)%interval_loop_elem; [|done].
    eexists. split_and!; [done|lia|lia|]. exists (q + k). lia.
  - intros (t & -> & Ht & [j ->]). replace (j * (n * 60000)) with (q * (n * 60000) + (j - q) * (n * 60000)) by lia.
    assert (q <= j) by nia.
    apply interval_loop_complete; [done|lia|lia|].
    assert (j - q <= (to - q * (n * 60000)) / (n * 60000)) by (apply Z.div_le_lower_bound; lia).
    rewrite Z2Nat.id; lia.
Qed.

(** Every window of every schedule. *)
Lemma dueFireWindows_range spec from to w :
  CalendarSpec_ok (sp_calendar spec) = true → w ∈ dueFireWindows wall spec from to →
  from <= fireAtUtcMs w < to.
Proof.
  intros Hcal Hw. destruct (sp_calendar spec) as [n|h m|wd h m] eqn:Ec.
  - apply (interval_windows_elem spec n) in Hw as (t & -> & Ht & _); [done|done|].
    unfold CalendarSpec_ok, between in Hcal. lia.
  - unfold dueFireWindows in Hw. rewrite Ec in Hw. destruct (negb _); [by apply elem_of_nil in Hw|].
    destruct (calendar_windows_spec (λ _, True) spec "dailyAt" (λ _, true) h m from to) as [Hall _]; [done|done|].
    rewrite Forall_forall in Hall. by apply Hall.
  - unfold dueFireWindows in Hw. rewrite Ec in Hw. destruct (negb _); [by apply elem_of_nil in Hw|].
    destruct (calendar_windows_spec (λ _, True) spec "weeklyAt" (λ '(y, mo, d), civilWeekday y mo d === wd) h m from to)
      as [Hall _]; [done|done|].
    rewrite Forall_forall in Hall. by apply Hall.
Qed.

Lemma dueFireWindows_sorted spec from to :
  CalendarSpec_ok (sp_calendar spec) = true → StronglySorted fw_le (dueFireWindows wall spec from to).
Proof.
  intros Hcal. unfold dueFireWindows. destruct (negb _); [constructor|].
  destruct (sp_calendar spec) as [n|h m|wd h m].
  - apply interval_loop_sorted. unfold CalendarSpec_ok, between in Hcal. lia.
  - by apply (calendar_windows_spec (λ _, True)).
  - by apply (calendar_windows_spec (λ _, True)).
Qed.

Lemma dueFireWindows_keys spec from to :
  CalendarSpec_ok (sp_calendar spec) = true → NoDup (map fireWindowKey (dueFireWindows wall spec from to)).
Proof.
  intros Hcal. unfold dueFireWindows. destruct (negb _); [constructor|].
  destruct (sp_calendar spec) as [n|h m|wd h m].
  - apply interval_loop_keys. unfold CalendarSpec_ok, between in Hcal. lia.
  - by apply (calendar_windows_spec (λ _, True)).
  - by apply (calendar_windows_spec (λ _, True)).
Qed.

(** C39: the windows due in [from, to), for any calendar and whatever the zone
    does: each fires in that half-open interval, they come in order, and no two
    have the same key, so a civil slot that occurs twice (a fold) or is probed
    twice still gives one window. *)
Theorem dueFireWindows_spec spec from to :
  CalendarSpec_ok (sp_calendar spec) = true →
  let ws := dueFireWindows wall spec from to in
  Forall (λ w, from <= fireAtUtcMs w < to) ws ∧ StronglySorted fw_le ws ∧ NoDup (map fireWindowKey ws).
Proof.
  intros Hcal. split_and!; [|by apply dueFireWindows_sorted|by apply dueFireWindows_keys].
  apply Forall_forall. intros w. by apply dueFireWindows_range.
Qed.

(** An interval schedule fires on the multiples of its period and nowhere
    else: each once, none missed, however the time line is cut into ticks. *)
Theorem interval_schedule_exact spec n from mid to :
  sp_calendar spec = everyNMinutes n → 1 <= n → from <= mid <= to →
  (∀ t, t ∈ map fireAtUtcMs (dueFireWindows wall spec from to) ↔ from <= t < to ∧ (n * 60000 | t)) ∧
  dueFireWindows wall spec from mid ++ dueFireWindows wall spec mid to ≡ₚ dueFireWindows wall spec from to.
Proof.
  intros Hc Hn Hm.
  assert (Hcal : CalendarSpec_ok (sp_calendar spec) = true ∨ 1440 < n).
  { rewrite Hc. unfold CalendarSpec_ok, between. lia. }
  assert (Hnd : ∀ a b, NoDup (dueFireWindows wall spec a b)).
  { intros a b. unfold dueFireWindows. rewrite Hc. destruct (negb _); [constructor|].
    eapply NoDup_fmap_1, (interval_loop_keys _ _ _ _). lia. }
  split.
  - intros t. rewrite list_elem_of_fmap. split.
    + intros (w & -> & Hw). apply (interval_windows_elem spec n) in Hw as (x & -> & Hx & Hd); [|done|lia]. done.
    + intros [Ht Hd]. exists (interval_window n t). split; [done|].
      apply (interval_windows_elem spec n); [done|lia|]. by exists t.
  - apply NoDup_Permutation; [|done|].
    + apply NoDup_app. split_and!; [done| |done].
      intros w Hw1 Hw2. apply (interval_windows_elem spec n) in Hw1 as (x & -> & ? & _); [|done|lia].
      apply (interval_windows_elem spec n) in Hw2 as (y & E & ? & _); [|done|lia].
      apply (f_equal fireAtUtcMs) in E. simpl in E. lia.
    + intros w. rewrite elem_of_app, !(interval_windows_elem spec n) by (done || lia). split.
      * intros [(t & -> & ? & ?)|(t & -> & ? & ?)]; exists t; split_and!; (done || lia).
      * intros (t & -> & ? & ?). destruct (decide (t < mid)); [left|right]; exists t; split_and!; (done || lia).
Qed.

(** Re-arming moves forward.  The next window is strictly after the instant it
    is computed from, and no window of the search horizon lies between them; for
    an interval schedule there always is one, at the next multiple of the period. *)
Theorem nextWindowAfter_strict spec now w :
  CalendarSpec_ok (sp_calendar spec) = true → nextWindowAfter wall spec now = Some w →
  now < fireAtUtcMs w ∧
  ∀ v, v ∈ dueFireWindows wall spec (now + 1) (now + 1 + horizonMs (sp_calendar spec)) →
    fireAtUtcMs w <= fireAtUtcMs v.
Proof.
  intros Hcal Hw. unfold nextWindowAfter in Hw.
  pose proof (dueFireWindows_sorted spec (now + 1) (now + 1 + horizonMs (sp_calendar spec)) Hcal) as Hs.
  pose proof (λ w, dueFireWindows_range spec (now + 1) (now + 1 + horizonMs (sp_calendar spec)) w Hcal) as Hr.
  destruct (dueFireWindows _ _ _ _) as [|x ws]; [done|]. injection Hw as ->.
  split; [specialize (Hr w (list_elem_of_here _ _)); lia|].
  intros v [->|Hv]%elem_of_cons; [lia|].
  apply StronglySorted_inv in Hs as [_ Hs]. rewrite Forall_forall in Hs. by apply Hs.
Qed.

(** An interval schedule never goes to sleep for good: from any instant there
    is a next window, at the next multiple of the period. *)
Theorem interval_schedule_rearms spec n now :
  sp_calendar spec = everyNMinutes n → 1 <= n <= 1440 →
  nextWindowAfter wall spec now = Some (interval_window n ((now / (n * 60000) + 1) * (n * 60000))).
Proof.
  intros Hc Hn. unfold nextWindowAfter. rewrite Hc. cbn [horizonMs].
  unfold dueFireWindows. rewrite Hc. rewrite (proj2 (Z.ltb_lt _ _)) by lia. cbn [negb].
  assert (Hq : ceil_div (now + 1) (n * 60000) = now / (n * 60000) + 1).
  { pose proof (ceil_div_spec (now + 1) (n * 60000)). 
    pose proof (Z.div_mod now (n * 60000)). pose proof (Z.mod_pos_bound now (n * 60000)). nia. }
  rewrite Hq. pose proof (Z.div_mod now (n * 60000)). pose proof (Z.mod_pos_bound now (n * 60000)).
  set (q := now / (n * 60000)) in *.
  destruct (Z.to_nat _) as [|fuel] eqn:Ef.
  - exfalso.
    assert (0 <= (now + 1 + (n * 60000 * 2 + 60000) - (q + 1) * (n * 60000)) / (n * 60000))
      by (apply Z.div_pos; nia). lia.
  - cbn [interval_loop]. rewrite (proj2 (Z.ltb_lt _ _)) by nia. done.
Qed.
End windows.

(** ** A zone of fixed offset *)

Definition pad2_ok (n : Z) : bool :=
  (String.length (pad2 n) =? 2)%nat &&
  forallb (λ k, negb (bool_decide (pad2 k = pad2 n)) || (k =? n)) (seqZ 0 100).

Lemma pad2_all : forallb pad2_ok (seqZ 0 100) = true.
Proof. vm_compute. reflexivity. Qed.

Lemma pad2_length n : 0 <= n < 100 → String.length (pad2 n) = 2%nat.
Proof.
  intros Hn. pose proof pad2_all as H. rewrite forallb_forall in H.
  specialize (H n). rewrite <- list_elem_of_In, elem_of_seqZ in H.
  assert (H' : pad2_ok n = true) by (apply H; lia). unfold pad2_ok in H'. lia.
Qed.

Lemma pad2_inj n k : 0 <= n < 100 → 0 <= k < 100 → pad2 k = pad2 n → k = n.
Proof.
  intros Hn Hk He. pose proof pad2_all as H. rewrite forallb_forall in H.
  specialize (H n). rewrite <- list_elem_of_In, elem_of_seqZ in H.
  assert (H' : pad2_ok n = true) by (apply H; lia). unfold pad2_ok in H'. to_prop.
  rewrite forallb_forall in H1. specialize (H1 k). rewrite <- list_elem_of_In, elem_of_seqZ in H1.
  rewrite bool_decide_true in H1 by done. simpl in H1. specialize (H1 ltac:(lia)). lia.
Qed.

Lemma date_text_inj y m d y' m' d' :
  0 <= m < 100 → 0 <= d < 100 → 0 <= m' < 100 → 0 <= d' < 100 →
  date_text (y, m, d) = date_text (y', m', d') → (y, m, d) = (y', m', d').
Proof.
  intros Hm Hd Hm' Hd' He. unfold date_text in He.
  apply str_app_inj_r in He as [Hy He].
  2: { rewrite !str_app_length, !pad2_length by done. done. }
  apply str_app_inj_l in He. apply str_app_inj_r in He as [He1 He2].
  2: { rewrite !str_app_length, !pad2_length by done. done. }
  apply str_app_inj_l in He2. apply (inj pretty) in Hy.
  apply pad2_inj in He1; [|done..]. apply pad2_inj in He2; [|done..]. congruence.
Qed.

(** The wall clock that reads UTC. *)
Definition wall_at (x : Z) : Wall :=
  let '(y, m, d) := civil_from_days (x / msPerDay) in
  let ms := x mod msPerDay in
  {| w_civil := {| c_year := y; c_month := m; c_day := d; c_hour := ms / 3600000;
                   c_minute := ms / 60000 mod 60 |};
     w_second := ms / 1000 mod 60 |}.

Section fixed.
Context (wall : Z → string → Wall) (tz : string) (off : Z).
Hypothesis fixed_offset : ∀ t, wall t tz = wall_at (t + off).
Hypothesis off_seconds : (1000 | off).
Hypothesis off_bound : -86400000 <= off <= 86400000.

Lemma Date_UTC_civil k y m d h mi s :
  -365 <= k → civil_from_days k = (y, m, d) →
  Date_UTC y m d h mi s = k * msPerDay + MakeTime h mi s 0.
Proof.
  intros Hk E. unfold Date_UTC.
  assert (1969 <= y). { eapply year_mono; [|exact E|exact Hk]. reflexivity. }
  replace ((0 <=? y) && (y <=? 99)) with false by lia.
  by destruct (civil_from_days_spec _ _ _ _ E) as [_ ->].
Qed.

Lemma offsetMsAt_fixed t : -365 * 86400000 <= t + off → (1000 | t) → offsetMsAt wall t tz = off.
Proof.
  intros Ht [j Hj]. destruct off_seconds as [i Hi]. unfold offsetMsAt. rewrite fixed_offset. unfold wall_at.
  destruct (civil_from_days ((t + off) / msPerDay)) as [[y m] d] eqn:E. cbn [w_civil w_second c_year c_month c_day c_hour c_minute].
  rewrite (Date_UTC_civil ((t + off) / msPerDay)) by (done || unfold msPerDay; zdiv).
  unfold MakeTime, msPerDay. zdiv.
Qed.

Lemma resolveCivil_fixed k y m d h mi :
  -300 <= k → civil_from_days k = (y, m, d) → 0 <= h <= 23 → 0 <= mi <= 59 →
  resolveCivil wall {| c_year := y; c_month := m; c_day := d; c_hour := h; c_minute := mi |} tz =
  R_unique (k * msPerDay + h * 3600000 + mi * 60000 - off).
Proof.
  intros Hk E Hh Hmi. unfold resolveCivil, civil_instant. cbn [c_year c_month c_day c_hour c_minute].
  rewrite (Date_UTC_civil k) by (done || lia).
  assert (Ht : k * msPerDay + MakeTime h mi 0 0 = k * 86400000 + h * 3600000 + mi * 60000)
    by (unfold MakeTime, msPerDay; lia). rewrite Ht.
  set (target := k * 86400000 + h * 3600000 + mi * 60000) in *.
  assert (Hdiv : (1000 | target)) by (exists (k * 86400 + h * 3600 + mi * 60); lia).
  destruct Hdiv as [q Hq].
  rewrite !offsetMsAt_fixed by (lia || (exists (q - 86400); lia) || (exists q; lia) || (exists (q + 86400); lia)).
  assert (Hn : znub [off; off; off] = [off]).
  { unfold znub. simpl. by rewrite !(bool_decide_true (off ∈ [off])) by left. }
  rewrite Hn. cbn [map List.filter]. rewrite fixed_offset. 
  replace (target - off + off) with target by lia.
  assert (Hw : wall_at target = {| w_civil := {| c_year := y; c_month := m; c_day := d; c_hour := h; c_minute := mi |};
    w_second := 0 |}).
  { unfold wall_at. replace (target / msPerDay) with k by (unfold msPerDay; zdiv).
    rewrite E. unfold msPerDay. f_equal; [f_equal|]; zdiv. }
  rewrite Hw. cbn [w_civil]. rewrite bool_decide_true by done. cbn. f_equal.
Qed.

Lemma days_from_civil_succ y m d : days_from_civil y m (d + 1) = days_from_civil y m d + 1.
Proof. unfold days_from_civil, doe_of. lia. Qed.

Lemma nextCivilDate_fixed k : -365 <= k → nextCivilDate (civil_from_days k) = civil_from_days (k + 1).
Proof.
  intros Hk. destruct (civil_from_days k) as [[y m] d] eqn:E. unfold nextCivilDate.
  assert (Hd : Date_UTC y m (d + 1) 0 0 0 = (k + 1) * msPerDay).
  { pose proof (Date_UTC_civil k y m d 0 0 0 Hk E) as H. unfold Date_UTC in *.
    rewrite days_from_civil_succ. unfold MakeTime in *. lia. }
  rewrite Hd. f_equal. unfold msPerDay. zdiv.
Qed.
Definition late_date (x : Z * Z * Z) : Prop := ∃ k, -300 <= k ∧ x = civil_from_days k.

Lemma late_date_next x : late_date x → late_date (nextCivilDate x).
Proof. intros (k & Hk & ->). exists (k + 1). rewrite nextCivilDate_fixed by lia. split; [lia|done]. Qed.

Lemma civil_from_days_inj j k : civil_from_days j = civil_from_days k → j = k.
Proof.
  intros E. destruct (civil_from_days k) as [[y m] d] eqn:Ek.
  destruct (civil_from_days_spec _ _ _ _ E) as [_ <-]. by destruct (civil_from_days_spec _ _ _ _ Ek) as [_ <-].
Qed.

Lemma slot_of_inj h mi j k :
  slot_of tz h mi (civil_from_days j) = slot_of tz h mi (civil_from_days k) → j = k.
Proof.
  intros He. apply civil_from_days_inj. unfold slot_of in He. do 2 apply str_app_inj_l in He.
  apply str_app_inj_r in He as [He _]; [|done].
  destruct (civil_from_days j) as [[y m] d] eqn:Ej, (civil_from_days k) as [[y' m'] d'] eqn:Ek.
  destruct (civil_from_days_spec _ _ _ _ Ej) as [[Hm Hd] _], (civil_from_days_spec _ _ _ _ Ek) as [[Hm' Hd'] _].
  pose proof (days_in_month_le y m). pose proof (days_in_month_le y' m').
  apply date_text_inj in He; [done|lia..].
Qed.

Definition slot_instant (k h mi : Z) : Z := k * msPerDay + h * 3600000 + mi * 60000 - off.

(** The walk visits day [k0 + i] in its turn [i], and keeps its window when it is due. *)
Lemma calendar_loop_complete spec kind h mi from to days : ∀ k0 seen out i,
  sp_timezone spec = tz → 0 <= h <= 23 → 0 <= mi <= 59 → -300 <= k0 →
  (∀ s, s ∈ seen → s ∈ map civilSlot out) → 0 <= i < Z.of_nat days →
  from <= slot_instant (k0 + i) h mi < to →
  slot_of tz h mi (civil_from_days (k0 + i)) ∈
    map civilSlot (calendar_loop wall days spec kind (λ _, true) h mi from to (civil_from_days k0) seen out).
Proof.
  assert (Hgrow : ∀ n ymd seen out s, s ∈ map civilSlot out →
    s ∈ map civilSlot (calendar_loop wall n spec kind (λ _, true) h mi from to ymd seen out)).
  { induction n as [|n IH]; intros [[y m] d] seen out s Hs; cbn [calendar_loop]; [done|].
    destruct (fire_of _ _) as [[f nt]|]; [|by apply IH]. destruct (_ && _); apply IH; [|done].
    rewrite map_app, elem_of_app. by left. }
  induction days as [|n IH]; intros k0 seen out i Htz Hh Hmi Hk Hseen Hi Hr; [lia|].
  cbn [calendar_loop]. destruct (civil_from_days k0) as [[y m] d] eqn:E.
  rewrite Htz, (resolveCivil_fixed k0) by (done || lia). cbn [fire_of]. fold (slot_instant k0 h mi).
  rewrite <- E, nextCivilDate_fixed by lia.
  destruct (decide (i = 0)) as [->|Hne].
  - rewrite Z.add_0_r in Hr. rewrite (proj2 (Z.leb_le _ _)), (proj2 (Z.ltb_lt _ _)) by lia. cbn [andb].
    rewrite Z.add_0_r. case_bool_decide as Hin; cbn [negb]; apply Hgrow; [by apply Hseen|].
    rewrite map_app, elem_of_app. right. simpl. left.
  - replace (k0 + i) with (k0 + 1 + (i - 1)) in * by lia.
    destruct (_ && _); apply IH; try done; try lia.
    intros s. rewrite map_app, elem_of_app, elem_of_cons. intros [->|Hs]; [right; simpl; left|left; auto].
Qed.

(** In a zone of fixed offset a daily schedule fires at its local time every
    day: the instants due in [from, to) are exactly those whose local time of day
    is the scheduled one, each once. *)
Theorem daily_schedule_exact spec h mi from to :
  sp_calendar spec = dailyAt h mi → CalendarSpec_ok (dailyAt h mi) = true → sp_timezone spec = tz →
  0 <= from <= to →
  (∀ t, t ∈ map fireAtUtcMs (dueFireWindows wall spec from to) ↔
     from <= t < to ∧ (t + off) mod msPerDay = h * 3600000 + mi * 60000) ∧
  NoDup (map fireAtUtcMs (dueFireWindows wall spec from to)).
Proof.
  intros Hc Hok Htz Hft.
  assert (Hh : 0 <= h <= 23 ∧ 0 <= mi <= 59) by (unfold CalendarSpec_ok, between in Hok; lia).
  destruct Hh as [Hh Hmi]. unfold dueFireWindows. rewrite Hc.
  destruct (Z.ltb_spec from to) as [Hlt|]; cbn [negb].
  2: { split; [|constructor]. intros t. split; [by intros ?%elem_of_nil|lia]. }
  set (k0 := (from - 2 * dayMs + off) / msPerDay).
  assert (Hk0 : -300 <= k0) by (unfold k0, dayMs, msPerDay; zdiv).
  assert (Hstart : civilDateInTz wall (from - 2 * dayMs) tz = civil_from_days k0).
  { unfold civilDateInTz. rewrite fixed_offset. unfold wall_at. fold k0.
    by destruct (civil_from_days k0) as [[y m] d]. }
  destruct (calendar_windows_spec wall late_date spec "dailyAt" (λ _, true) h mi from to late_date_next)
    as (Hall & _ & Hnd). { rewrite Htz, Hstart. by exists k0. }
  rewrite Forall_forall in Hall.
  assert (Hday : ∀ w, w ∈ calendar_windows wall spec "dailyAt" (λ _, true) h mi from to →
    ∃ k, civilSlot w = slot_of tz h mi (civil_from_days k) ∧
      fireWindowKey w = key_of "dailyAt" tz h mi (civil_from_days k) ∧ fireAtUtcMs w = slot_instant k h mi).
  { intros w Hw. destruct (Hall w Hw) as (_ & y & m & d & (_ & k & Hk & E) & Hkey & Hslot & _ & Hf).
    exists k. rewrite Htz in Hkey, Hslot, Hf. rewrite <- E. split_and!; [done|done|].
    rewrite (resolveCivil_fixed k) in Hf by done. by injection Hf as <- _. }
  split.
  - intros t. rewrite list_elem_of_fmap. split.
    + intros (w & -> & Hw). destruct (Hall w Hw) as [Hr _]. split; [done|].
      destruct (Hday w Hw) as (k & _ & _ & ->). unfold slot_instant, msPerDay. zdiv.
    + intros [Ht Hm]. set (k := (t + off) / msPerDay).
      assert (Hkt : t = slot_instant k h mi).
      { unfold slot_instant, k. pose proof (Z.div_mod (t + off) msPerDay ltac:(done)). lia. }
      pose proof (calendar_loop_complete spec "dailyAt" h mi from to (Z.to_nat ((to - from) / dayMs + 4))
        k0 [] [] (k - k0) Htz Hh Hmi Hk0) as Hcomp.
      replace (k0 + (k - k0)) with k in Hcomp by lia. rewrite <- Hkt in Hcomp.
      rewrite <- Hstart, <- Htz in Hcomp. rewrite Htz in Hcomp at 1.
      destruct (proj1 (list_elem_of_fmap civilSlot _ _) (Hcomp ltac:(by intros s ?%elem_of_nil)
        ltac:(unfold k, k0, dayMs, msPerDay in *; zdiv) Ht)) as (w & Hw & Hin).
      exists w. assert (Hin' : w ∈ calendar_windows wall spec "dailyAt" (λ _, true) h mi from to).
      { unfold calendar_windows. by apply js_sort_elem. }
      split; [|done]. destruct (Hday w Hin') as (k' & Hs & _ & ->). rewrite Hs in Hw.
      apply slot_of_inj in Hw as <-. done.
  - eapply NoDup_map_from; [exact Hnd|]. intros v w Hv Hw Hf.
    destruct (Hday v Hv) as (k & _ & -> & Hfv), (Hday w Hw) as (k' & _ & -> & Hfw).
    rewrite Hfv, Hfw in Hf. unfold slot_instant, msPerDay in Hf. by replace k' with k by lia.
Qed.
End fixed.

(** ** The wall clock at a fire *)

Lemma elem_of_znub l x : x ∈ znub l ↔ x ∈ l.
Proof.
  unfold znub. assert (H : ∀ s, x ∈ fold_left (λ s x, if bool_decide (x ∈ s) then s else s ++ [x]) l s
    ↔ x ∈ s ∨ x ∈ l); [|by rewrite H, elem_of_nil; naive_solver].
  induction l as [|y l IH]; intros s; simpl; [by rewrite elem_of_nil; naive_solver|].
  rewrite IH. case_bool_decide as Hy.
  - rewrite elem_of_cons. naive_solver.
  - rewrite elem_of_app, list_elem_of_singleton, elem_of_cons. naive_solver.
Qed.

Lemma resolveCivil_sound wall c tz x :
  (resolveCivil wall c tz = R_unique x ∨ ∃ y, resolveCivil wall c tz = R_fold x y) →
  w_civil (wall x tz) = c.
Proof.
  unfold resolveCivil. intros H.
  set (v := List.filter (λ inst, bool_decide (w_civil (wall inst tz) = c)) _) in H.
  assert (Hx : x ∈ ascending (znub v)).
  { destruct (ascending (znub v)) as [|a [|b r]]; [by destruct H as [[=]|[y [=]]]| |].
    - destruct H as [[= ->]|[y [=]]]. left.
    - destruct H as [[=]|[y [= -> _]]]. left. }
  unfold ascending in Hx. rewrite js_sort_elem, elem_of_znub in Hx.
  unfold v in Hx. rewrite list_elem_of_In, filter_In in Hx. destruct Hx as [_ Hx]. by to_prop.
Qed.

(** A fire happens at the scheduled local time.  Whatever the zone's rules,
    the zone's own wall clock at the instant of a daily or weekly window reads
    the scheduled hour and minute, on the civil date the window's slot names, and
    for a weekly schedule on its weekday; the only exception is a window marked
    [gap_shifted], whose civil time does not exist. *)
Theorem window_shows_local_time wall spec from to w :
  w ∈ dueFireWindows wall spec from to → fw_note w ≠ gap_shifted →
  match sp_calendar spec with
  | everyNMinutes _ => True
  | dailyAt h mi => ∃ y m d,
      w_civil (wall (fireAtUtcMs w) (sp_timezone spec)) =
        {| c_year := y; c_month := m; c_day := d; c_hour := h; c_minute := mi |} ∧
      civilSlot w = slot_of (sp_timezone spec) h mi (y, m, d)
  | weeklyAt wd h mi => ∃ y m d,
      w_civil (wall (fireAtUtcMs w) (sp_timezone spec)) =
        {| c_year := y; c_month := m; c_day := d; c_hour := h; c_minute := mi |} ∧
      civilSlot w = slot_of (sp_timezone spec) h mi (y, m, d) ∧ civilWeekday y m d = wd
  end.
Proof.
  intros Hw Hn.
  assert (Hs : ∀ c, fire_of (sp_nonexistentTimePolicy spec) (resolveCivil wall c (sp_timezone spec))
    = Some (fireAtUtcMs w, fw_note w) → w_civil (wall (fireAtUtcMs w) (sp_timezone spec)) = c).
  { intros c Hf. apply resolveCivil_sound. destruct (resolveCivil _ _ _) as [x|x y|x]; simpl in Hf.
    - left. congruence.
    - right. exists y. congruence.
    - case_bool_decide; congruence. }
  unfold dueFireWindows in Hw. destruct (negb _); [by apply elem_of_nil in Hw|].
  destruct (sp_calendar spec) as [n|h mi|wd h mi]; [done| |].
  - destruct (calendar_windows_spec wall (λ _, True) spec "dailyAt" (λ _, true) h mi from to) as [Hall _]; [done|done|].
    rewrite Forall_forall in Hall. destruct (Hall w Hw) as (_ & y & m & d & _ & _ & Hslot & _ & Hf). eauto 6.
  - destruct (calendar_windows_spec wall (λ _, True) spec "weeklyAt" (λ '(y, mo, d), civilWeekday y mo d === wd)
      h mi from to) as [Hall _]; [done|done|].
    rewrite Forall_forall in Hall. destruct (Hall w Hw) as (_ & y & m & d & [Hc _] & _ & Hslot & _ & Hf).
    to_prop. exists y, m, d. auto.
Qed.

(** ** Policy *)

(** No schedule fires unless its owner turned it on: [canFire] says yes only for
    an enabled schedule, and in a production runtime only for one that is also
    enabled for production. *)
Theorem canFire_fail_closed spec prod :
  (canFire spec prod).1 = true ↔
  sp_state spec = enabled ∧ (prod = true → sp_enabledForProduction spec = true).
Proof.
  unfold canFire. destruct (sp_state spec), prod, (sp_enabledForProduction spec); simpl; naive_solver.
Qed.

(** Catching up is bounded.  For a schedule that parses, [resolveMissedRuns]
    never throws; it admits none, at most one or at most [maxBackfillRuns] (itself
    at most 100) of the missed windows according to the policy, always the latest
    ones. *)
Theorem resolveMissedRuns_bounded valid_tz raw spec missed :
  ScheduleSpec_parse valid_tz raw = Ok spec →
  ∃ older due, resolveMissedRuns spec missed = Ok due ∧ older ++ due ≡ₚ missed ∧
    (∀ o a, o ∈ older → a ∈ due → fireAtUtcMs o <= fireAtUtcMs a) ∧
    Z.of_nat (length due) <= match sp_missedRunPolicy spec with
      | MR_SKIP => 0 | MR_RUN_ONCE => 1 | MR_BACKLOG_BOUNDED => sp_maxBackfillRuns spec end ∧
    sp_maxBackfillRuns spec <= MAX_BACKFILL_RUNS.
Proof.
  intros Hp. unfold ScheduleSpec_parse, ok_or in Hp.
  do 4 (apply ensure_ok in Hp as [_ Hp]). apply ensure_ok in Hp as [Hlim Hp].
  apply ensure_ok in Hp as [Hb Hp]. apply Ok_inj in Hp as ->. unfold between, MAX_BACKFILL_RUNS in *. to_prop.
  pose proof (js_sort_by_key_sorted fireAtUtcMs missed) as Hs.
  pose proof (js_sort_perm (λ a b, fireAtUtcMs a - fireAtUtcMs b) missed) as Hperm.
  unfold resolveMissedRuns. set (l := js_sort _ missed) in *.
  assert (Hsplit : ∀ older due, older ++ due = l →
    older ++ due ≡ₚ missed ∧ ∀ o a, o ∈ older → a ∈ due → fireAtUtcMs o <= fireAtUtcMs a).
  { intros older due He. rewrite He. split; [done|]. rewrite <- He in Hs.
    intros o a Ho Ha. exact (StronglySorted_app_1_elem_of _ _ _ _ _ Hs Ho Ha). }
  destruct (sp_missedRunPolicy spec).
  - exists l, []. destruct (Hsplit l [] (app_nil_r _)). split_and!; [done|done|done|simpl; lia|lia].
  - destruct (last l) as [w|] eqn:El.
    + apply last_Some in El as [older Eo].
      exists older, [w]. destruct (Hsplit older [w] (eq_sym Eo)). split_and!; [done|done|done|simpl; lia|lia].
    + apply last_None in El. exists [], []. destruct (Hsplit [] []) as [? ?]; [by rewrite El|].
      split_and!; [done|done|done|simpl; lia|lia].
  - simpl in Hb. rewrite (proj2 (Z.ltb_ge _ _)) by lia.
    destruct (Z.ltb_spec (sp_maxBackfillRuns spec) (Z.of_nat (length l))).
    + set (n := (length l - Z.to_nat (sp_maxBackfillRuns spec))%nat).
      exists (take n l), (drop n l). destruct (Hsplit (take n l) (drop n l) (take_drop n l)).
      split_and!; [done|done|done|rewrite length_drop; lia|lia].
    + exists [], l. destruct (Hsplit [] l eq_refl). split_and!; [done|done|done|lia|lia].
Qed.

(** ** Ticks *)

Lemma tick_loop_spec spec ws : ∀ seen admitted dup,
  NoDup (map rq_identity admitted) → (∀ r, r ∈ admitted → map_has seen (rq_identity r) = true) →
  let '(seen', admitted', dup') := tick_loop spec ws seen admitted dup in
  ∃ new, admitted' = admitted ++ new ∧ NoDup (map rq_identity admitted') ∧
    Forall (λ r, map_has seen (rq_identity r) = false) new ∧
    map_keys seen' = map_keys seen ++ map rq_identity new ∧
    Z.of_nat (length new) + dup' = dup + Z.of_nat (length ws) ∧
    Forall (λ w, map_has seen' (fireIdentity spec (fireWindowKey w)) = true) ws ∧
    (∀ k, map_has seen k = true → map_has seen' k = true).
Proof.
  induction ws as [|w ws IH]; intros seen admitted dup Hnd Hin; cbn [tick_loop].
  { exists []. rewrite !app_nil_r. simpl. split_and!; (done || lia || constructor). }
  unfold sink_admit. destruct (map_has seen (rq_identity (toRequest spec w))) eqn:Eh.
  - specialize (IH seen admitted (dup + 1) Hnd Hin).
    destruct (tick_loop _ _ _ _ _) as [[seen' admitted'] dup'].
    destruct IH as (new & ? & ? & ? & ? & Hl & Hall & Hk). exists new.
    split_and!; try done; [simpl; lia|]. constructor; [by apply Hk|done].
  - set (req := toRequest spec w) in *.
    assert (Hset : ∀ k, map_has (map_set seen (rq_identity req) req) k =
      bool_decide (rq_identity req = k) || map_has seen k).
    { intros k. unfold map_has. rewrite map_get_set. by case_bool_decide. }
    assert (Hnew : ∀ r, r ∈ admitted → rq_identity r ≠ rq_identity req).
    { intros r Hr He. apply Hin in Hr. rewrite He in Hr. congruence. }
    specialize (IH (map_set seen (rq_identity req) req) (admitted ++ [req]) dup).
    destruct (tick_loop _ _ _ _ _) as [[seen' admitted'] dup'].
    destruct IH as (new & -> & Hnd' & Hfr & Hkeys & Hl & Hall & Hk).
    { rewrite map_app. apply NoDup_app. split_and!; [done| |apply NoDup_singleton].
      intros x (r & -> & Hr)%list_elem_of_fmap He%list_elem_of_singleton. by apply (Hnew r Hr). }
    { intros r [Hr|Hr%list_elem_of_singleton]%elem_of_app; rewrite Hset.
      - apply Hin in Hr. by rewrite Hr, orb_true_r.
      - subst r. by rewrite bool_decide_true. }
    exists (req :: new). rewrite <- app_assoc in *. cbn [app] in *.
    split; [reflexivity|]. split; [exact Hnd'|]. split_and!.
    + constructor; [done|]. eapply Forall_impl; [exact Hfr|]. intros r Hr. cbv beta in Hr.
      rewrite Hset in Hr. by apply orb_false_iff in Hr as [_ ?].
    + rewrite Hkeys, map_keys_set, Eh. by rewrite <- app_assoc.
    + cbn [length]. lia.
    + constructor; [|done]. apply Hk. rewrite Hset. by rewrite bool_decide_true.
    + intros k Hkk. apply Hk. by rewrite Hset, Hkk, orb_true_r.
Qed.

(** A tick admits no fire identity twice.  What it admits was not in the sink, is
    admitted once each and is in the sink afterwards, every due window is admitted
    or counted as a suppressed duplicate, and the same tick again (a duplicate wake,
    a replay after a restart) admits nothing and leaves the sink as it is. *)
Theorem tick_admits_once wall spec last now prod sink :
  let '(sink', r) := tick wall spec last now prod sink in
  NoDup (map rq_identity (tk_admitted r)) ∧
  Forall (λ q, map_has sink (rq_identity q) = false) (tk_admitted r) ∧
  map_keys sink' = map_keys sink ++ map rq_identity (tk_admitted r) ∧
  tk_fired r = Z.of_nat (length (tk_admitted r)) + tk_duplicatesSuppressed r ∧
  let '(sink'', r') := tick wall spec last now prod sink' in
  sink'' = sink' ∧ tk_admitted r' = [] ∧ tk_fired r' = tk_fired r.
Proof.
  unfold tick. destruct (canFire spec prod) as [[] reason].
  2: { simpl. rewrite app_nil_r. split_and!; (done || constructor). }
  pose proof (tick_loop_spec spec (dueFireWindows wall spec last now) sink [] 0) as H.
  destruct (tick_loop _ _ _ _ _) as [[sink' admitted] dup].
  destruct H as (new & -> & Hnd & Hfr & Hk & Hl & Hall & _); [constructor|by intros r ?%elem_of_nil|].
  assert (Hrep : ∀ ws s a k, Forall (λ w, map_has s (fireIdentity spec (fireWindowKey w)) = true) ws →
    tick_loop spec ws s a k = (s, a, k + Z.of_nat (length ws))).
  { clear. induction ws as [|w ws IH]; intros s a k; cbn [tick_loop]; [intros _; rewrite Z.add_0_r; reflexivity|].
    intros [Hw Hws]%Forall_cons. unfold sink_admit. cbn [toRequest rq_identity]. rewrite Hw.
    rewrite IH by done. cbn [length]. by replace (k + 1 + Z.of_nat (length ws)) with (k + Z.of_nat (S (length ws))) by lia. }
  cbn [tk_admitted tk_fired tk_duplicatesSuppressed]. rewrite Hrep by done.
  cbn [app tk_admitted tk_fired] in *. split_and!; try done.
Qed.

(** ** Concrete schedules *)

Definition sample_spec (c : CalendarSpec) (ne : NonexistentTimePolicy) : ScheduleSpec :=
  {| sp_scheduleId := sample_id 20; sp_version := "1"; sp_tenant := sample_id 3;
     sp_principal := {| principal_id := sample_id 2; principal_kind := HUMAN |};
     sp_owner := {| principal_id := sample_id 2; principal_kind := HUMAN |};
     sp_timezone := "America/New_York"; sp_calendar := c; sp_state := enabled;
     sp_missedRunPolicy := MR_BACKLOG_BOUNDED; sp_maxBackfillRuns := 3; sp_overlapPolicy := OV_FORBID;
     sp_perScheduleConcurrency := 1; sp_nonexistentTimePolicy := ne; sp_enabledForProduction := true;
     sp_createdAt := "2026-09-15T16:00:00.000Z" |}.

(** New York around its spring transition: 2027-03-14T07:00Z, from -5 h to -4 h. *)
Definition new_york (t : Z) (tz : string) : Wall :=
  if t <? 1805007600000 then wall_at (t - 18000000) else wall_at (t - 14400000).

(** Sunday 2027-03-07, 02:30 in New York: 07:30 UTC. *)
Definition sunday_before : Z := 1804404600000.

Example new_york_transition : toISOString 1805007600000 = "2027-03-14T07:00:00.000Z".
Proof. vm_compute. reflexivity. Qed.

(** The nine-day search horizon of [nextWindowAfter] is too short for a weekly
    schedule with the SKIP policy.  In New York, a schedule for Sundays at 02:30
    that has just fired on 2027-03-07 gets no next window, because the slot of
    the 14th does not exist, although its slot of the 21st does: the driver arms
    no further wake and the schedule never fires again by itself. *)
Theorem weekly_skip_gap_stalls :
  let spec := sample_spec (weeklyAt 0 2 30) NE_SKIP in
  map fireAtUtcMs (dueFireWindows new_york spec sunday_before (sunday_before + 1)) = [sunday_before] ∧
  nextWindowAfter new_york spec sunday_before = None ∧
  map fireAtUtcIso (dueFireWindows new_york spec (sunday_before + 1) (sunday_before + 15 * 86400000)) =
    ["2027-03-21T06:30:00.000Z"].
Proof. vm_compute. repeat split. Qed.

(** A tick covers [last, now), not (last, now] as its comment says: a window due
    exactly at [now] waits for the next tick, and one due exactly at [last] is
    offered again. *)
Theorem tick_interval_half_open :
  let spec := sample_spec (everyNMinutes 10) NE_SKIP in
  tk_fired (tick new_york spec 0 600000 false []).2 = 1 ∧
  map rq_fireAtUtcMs (tk_admitted (tick new_york spec 0 600000 false []).2) = [0].
Proof. vm_compute. split; reflexivity. Qed.

(** In a spring gap the code shifts by the offset in force before the transition:
    02:30 becomes 03:30 daylight time, one hour later, not the first real time
    after the gap. *)
Lemma gap_shift_uses_earlier_offset :
  resolveCivil new_york {| c_year := 2027; c_month := 3; c_day := 14; c_hour := 2; c_minute := 30 |}
    "America/New_York" = R_gap (1805007600000 + 1800000) ∧
  offsetMsAt new_york (1805007600000 - 1000) "America/New_York" = -18000000 ∧
  civil_instant {| c_year := 2027; c_month := 3; c_day := 14; c_hour := 2; c_minute := 30 |} - -18000000 =
    1805007600000 + 1800000.
Proof. vm_compute. repeat split. Qed.

Lemma dueFireWindows_spec_witness :
  let ws := dueFireWindows new_york (sample_spec (dailyAt 2 30) NE_SHIFT_FORWARD) sunday_before
    (sunday_before + 9 * 86400000) in
  length ws = 10%nat ∧ NoDup (map fireWindowKey ws).
Proof.
  split; [vm_compute; reflexivity|].
  apply (dueFireWindows_spec new_york (sample_spec (dailyAt 2 30) NE_SHIFT_FORWARD)). reflexivity.
Defined.

Lemma interval_schedule_exact_witness :
  let spec := sample_spec (everyNMinutes 15) NE_SKIP in
  dueFireWindows new_york spec 0 1000000 ++ dueFireWindows new_york spec 1000000 3600000 ≡ₚ
  dueFireWindows new_york spec 0 3600000.
Proof.
  apply (interval_schedule_exact new_york (sample_spec (everyNMinutes 15) NE_SKIP) 15 0 1000000 3600000);
    [reflexivity|lia|lia].
Defined.

Lemma nextWindowAfter_strict_witness : ∃ w,
  nextWindowAfter new_york (sample_spec (dailyAt 2 30) NE_SKIP) sunday_before = Some w ∧
  sunday_before < fireAtUtcMs w.
Proof.
  assert (H : ∃ w, nextWindowAfter new_york (sample_spec (dailyAt 2 30) NE_SKIP) sunday_before = Some w)
    by (eexists; vm_compute; reflexivity).
  destruct H as [w Hw]. exists w. split; [exact Hw|].
  exact (proj1 (nextWindowAfter_strict new_york (sample_spec (dailyAt 2 30) NE_SKIP) sunday_before w
    eq_refl Hw)).
Defined.

Lemma interval_schedule_rearms_witness :
  fireAtUtcMs <$> nextWindowAfter new_york (sample_spec (everyNMinutes 15) NE_SKIP) 900000 = Some 1800000.
Proof.
  rewrite (interval_schedule_rearms new_york (sample_spec (everyNMinutes 15) NE_SKIP) 15 900000 eq_refl);
    [reflexivity|lia].
Defined.

Lemma daily_schedule_exact_witness :
  NoDup (map fireAtUtcMs (dueFireWindows (λ t _, wall_at (t + 3600000)) (sample_spec (dailyAt 9 0) NE_SKIP)
    0 864000000)).
Proof.
  apply (daily_schedule_exact (λ t _, wall_at (t + 3600000)) "America/New_York" 3600000) with (h := 9) (mi := 0).
  - intros t. reflexivity.
  - exists 3600. reflexivity.
  - lia.
  - reflexivity.
  - reflexivity.
  - reflexivity.
  - lia.
Defined.

Lemma window_shows_local_time_witness : ∃ w y m d,
  fireAtUtcMs w = sunday_before ∧
  w_civil (new_york (fireAtUtcMs w) "America/New_York") =
    {| c_year := y; c_month := m; c_day := d; c_hour := 2; c_minute := 30 |}.
Proof.
  pose (spec := sample_spec (dailyAt 2 30) NE_SKIP).
  assert (H : ∃ w, dueFireWindows new_york spec sunday_before (sunday_before + 1) = [w] ∧
    fw_note w = unique ∧ fireAtUtcMs w = sunday_before).
  { eexists. split; [vm_compute; reflexivity|split; reflexivity]. }
  destruct H as (w & Hw & Hn & Hf).
  assert (Hin : w ∈ dueFireWindows new_york spec sunday_before (sunday_before + 1)) by (rewrite Hw; left).
  destruct (window_shows_local_time new_york spec sunday_before (sunday_before + 1) w Hin)
    as (y & m & d & Hc & _); [rewrite Hn; discriminate|].
  exists w, y, m, d. split; [exact Hf|exact Hc].
Defined.

Lemma resolveMissedRuns_bounded_witness : ∃ due,
  resolveMissedRuns (sample_spec (everyNMinutes 15) NE_SKIP)
    (dueFireWindows new_york (sample_spec (everyNMinutes 15) NE_SKIP) 0 7200000) = Ok due ∧
  Z.of_nat (length due) <= 3.
Proof.
  destruct (resolveMissedRuns_bounded (λ _, true) (sample_spec (everyNMinutes 15) NE_SKIP)
    (sample_spec (everyNMinutes 15) NE_SKIP)
    (dueFireWindows new_york (sample_spec (everyNMinutes 15) NE_SKIP) 0 7200000))
    as (older & due & Ha & _ & _ & Hl & _); [vm_compute; reflexivity|].
  exists due. split; [exact Ha|exact Hl].
Defined.
