(* ===== verification/SchedStore.v ===== *)
(** * The durable schedule store (services/kernel/src/scheduler: persistence.ts, store.ts)

    The persisted entities with their schema checks, and [InMemoryScheduleStore],
    the reference semantics the PostgreSQL store mirrors: its maps are JavaScript
    Maps ([map_get], [map_set]), its methods programs over the store's state
    (assignments made before a throw stay).  [uuid] stands for [randomUUID],
    indexed by the number of calls made.  The theorems: a fire is created once
    and bound once, every ownership-sensitive change needs the current lease, two
    owners never hold a live lease, a takeover advances the epoch, and no backfill
    approves itself. *)

From S2P Require Import Prelude JsNumber JsDate Digest Contracts Plan Capability Schedule.
Local Open Scope Z_scope.
Local Open Scope js_scope.

(** ** persistence.ts *)

Record PersistedScheduleSpec := {
  pss_scheduleId : string; pss_version : string; pss_tenant : string; pss_principal : PrincipalRef;
  pss_owner : PrincipalRef; pss_name : string; pss_timezone : string; pss_calendar : CalendarSpec;
  pss_missedRunPolicy : MissedRunPolicy; pss_overlapPolicy : OverlapPolicy;
  pss_nonexistentTimePolicy : NonexistentTimePolicy; pss_maxBackfillRuns : Z;
  pss_perScheduleConcurrency : Z; pss_enabledForProduction : bool; pss_createdAt : string;
  pss_createdBy : string
}.

#[export] Instance PersistedScheduleSpec_eq_dec : EqDecision PersistedScheduleSpec.
Proof. solve_decision. Defined.

Definition nonempty (s : string) : bool := s !== EmptyString.

Definition PersistedScheduleSpec_parse (s : PersistedScheduleSpec) : result PersistedScheduleSpec :=
  ok_or (Id_ok (pss_scheduleId s) && nonempty (pss_version s) && Id_ok (pss_tenant s)
         && Id_ok (principal_id (pss_principal s)) && Id_ok (principal_id (pss_owner s))) "spec ids";;
  ok_or (nonempty (pss_name s) && (js_length (pss_name s) <=? 200) && nonempty (pss_timezone s)
         && CalendarSpec_ok (pss_calendar s)) "spec fields";;
  ok_or ((0 <=? pss_maxBackfillRuns s) && (1 <=? pss_perScheduleConcurrency s)
         && Timestamp_ok (pss_createdAt s) && Id_ok (pss_createdBy s)) "spec limits";;
  Ok s.

Record PersistedScheduleState := {
  pst_scheduleId : string; pst_state : ScheduleState; pst_activeVersion : string;
  pst_updatedAt : string; pst_updatedBy : string
}.

Definition PersistedScheduleState_parse (s : PersistedScheduleState) : result PersistedScheduleState :=
  ok_or (Id_ok (pst_scheduleId s) && nonempty (pst_activeVersion s) && Timestamp_ok (pst_updatedAt s)
         && Id_ok (pst_updatedBy s)) "state";;
  Ok s.

Inductive FireState := PLANNED | ADMISSION_PENDING | ADMITTED | SKIPPED | FIRE_FAILED | FIRE_CANCELLED.

#[export] Instance FireState_eq_dec : EqDecision FireState.
Proof. solve_decision. Defined.

Record ScheduleFire := {
  fi_idempotencyKey : string; fi_scheduleId : string; fi_version : string; fi_fireWindowKey : string;
  fi_fireIdentity : string; fi_fireAtUtc : string; fi_state : FireState;
  fi_admissionRequestId : option string; fi_admittedChildTaskId : option string;
  fi_admittedAt : option string; fi_createdAt : string
}.

Definition ScheduleFire_parse (f : ScheduleFire) : result ScheduleFire :=
  ok_or (nonempty (fi_idempotencyKey f) && Id_ok (fi_scheduleId f) && nonempty (fi_version f)
         && nonempty (fi_fireWindowKey f) && Id_ok (fi_fireIdentity f) && Timestamp_ok (fi_fireAtUtc f)
         && opt_ok Id_ok (fi_admissionRequestId f) && opt_ok Id_ok (fi_admittedChildTaskId f)
         && opt_ok Timestamp_ok (fi_admittedAt f) && Timestamp_ok (fi_createdAt f)) "ScheduleFire";;
  Ok f.

Inductive BackfillStatus := PREVIEW | APPROVED | EXECUTED | REJECTED.

#[export] Instance BackfillStatus_eq_dec : EqDecision BackfillStatus.
Proof. solve_decision. Defined.

Record ScheduleBackfillRequest := {
  bf_id : string; bf_scheduleId : string; bf_version : string; bf_requestedBy : string;
  bf_requestedFrom : string; bf_requestedTo : string; bf_computedWindows : Z; bf_maxRuns : Z;
  bf_previewDigest : string; bf_status : BackfillStatus; bf_approvedBy : option string;
  bf_createdAt : string; bf_executedAt : option string
}.

Definition ScheduleBackfillRequest_parse (b : ScheduleBackfillRequest) : result ScheduleBackfillRequest :=
  ok_or (Id_ok (bf_id b) && Id_ok (bf_scheduleId b) && nonempty (bf_version b) && Id_ok (bf_requestedBy b)
         && Timestamp_ok (bf_requestedFrom b) && Timestamp_ok (bf_requestedTo b)
         && (0 <=? bf_computedWindows b) && (1 <=? bf_maxRuns b) && nonempty (bf_previewDigest b)
         && opt_ok Id_ok (bf_approvedBy b) && Timestamp_ok (bf_createdAt b)
         && opt_ok Timestamp_ok (bf_executedAt b)) "backfill fields";;
  ok_or (bf_computedWindows b <=? bf_maxRuns b) "backfill exceeds maxRuns";;
  ok_or ((bf_status b === PREVIEW) || (bf_status b === REJECTED) || (bf_approvedBy b !== None))
    "APPROVED/EXECUTED require an approver (no self-approval)";;
  ok_or ((bf_approvedBy b === None) || (bf_approvedBy b !== Some (bf_requestedBy b)))
    "approver must differ from requester (no self-approval)";;
  Ok b.

Inductive ObservationKind := MISS | OVERLAP | FAILURE | REPLAY | AUTHORITY | LEASE_RECOVERED.

Record ScheduleObservation := {
  ob_id : string; ob_scheduleId : string; ob_idempotencyKey : option string; ob_kind : ObservationKind;
  ob_detail : list (string * json); ob_createdAt : string
}.

Definition ScheduleObservation_parse (o : ScheduleObservation) : result ScheduleObservation :=
  ok_or (Id_ok (ob_id o) && Id_ok (ob_scheduleId o) && Timestamp_ok (ob_createdAt o)) "observation";; Ok o.

Record ScheduleLease := {
  le_scheduleId : string; le_owner : string; le_epoch : Z; le_acquiredAt : string; le_expiresAt : string
}.

Definition ScheduleLease_parse (l : ScheduleLease) : result ScheduleLease :=
  ok_or (Id_ok (le_scheduleId l) && nonempty (le_owner l) && (0 <=? le_epoch l)
         && Timestamp_ok (le_acquiredAt l) && Timestamp_ok (le_expiresAt l)) "lease";; Ok l.

(** ** store.ts *)

Record LeaseFence := { fence_owner : string; fence_epoch : Z }.

Record FireInput := {
  in_idempotencyKey : string; in_scheduleId : string; in_version : string; in_fireWindowKey : string;
  in_fireIdentity : string; in_fireAtUtc : string; in_createdAt : string
}.

Record Binding := { b_admissionRequestId : string; b_childTaskId : string; b_at : string }.

Record Store := {
  s_specs : list (string * PersistedScheduleSpec);
  s_states : list (string * PersistedScheduleState);
  s_fires : list (string * ScheduleFire);
  s_leases : list (string * ScheduleLease);
  s_backfills : list ScheduleBackfillRequest;
  s_observations : list ScheduleObservation;
  s_uuids : nat                              (* randomUUID calls made *)
}.

Definition empty_store : Store :=
  {| s_specs := []; s_states := []; s_fires := []; s_leases := []; s_backfills := [];
     s_observations := []; s_uuids := 0 |}.

Definition upd_specs x s := {| s_specs := x; s_states := s_states s; s_fires := s_fires s;
  s_leases := s_leases s; s_backfills := s_backfills s; s_observations := s_observations s; s_uuids := s_uuids s |}.
Definition upd_states x s := {| s_specs := s_specs s; s_states := x; s_fires := s_fires s;
  s_leases := s_leases s; s_backfills := s_backfills s; s_observations := s_observations s; s_uuids := s_uuids s |}.
Definition upd_fires x s := {| s_specs := s_specs s; s_states := s_states s; s_fires := x;
  s_leases := s_leases s; s_backfills := s_backfills s; s_observations := s_observations s; s_uuids := s_uuids s |}.
Definition upd_leases x s := {| s_specs := s_specs s; s_states := s_states s; s_fires := s_fires s;
  s_leases := x; s_backfills := s_backfills s; s_observations := s_observations s; s_uuids := s_uuids s |}.
Definition upd_backfills x s := {| s_specs := s_specs s; s_states := s_states s; s_fires := s_fires s;
  s_leases := s_leases s; s_backfills := x; s_observations := s_observations s; s_uuids := s_uuids s |}.
Definition upd_observations x n s := {| s_specs := s_specs s; s_states := s_states s; s_fires := s_fires s;
  s_leases := s_leases s; s_backfills := s_backfills s; s_observations := x; s_uuids := n |}.

Definition store_error (msg : string) : exn := Exn "StoreError" msg.
Definition guard_st {S} (c : bool) (e : exn) : prog S unit := lift_result (ensure c e).

Definition spec_key (scheduleId version : string) : string := scheduleId +:+ "|" +:+ version.

Section inmemory.
Context (uuid : nat → string).

(** The immutability test compares the JSON texts of two objects with the schema's
    fields; here, the fields. *)
Definition upsertSpecVersion (spec : PersistedScheduleSpec) : prog Store unit :=
  let key := spec_key (pss_scheduleId spec) (pss_version spec) in
  s ← get_st;
  guard_st (match map_get (s_specs s) key with
            | Some existing => existing === spec | None => true end)
    (store_error "spec version is immutable; bump version for semantic changes");;
  p ← lift_result (PersistedScheduleSpec_parse spec);
  put_st (upd_specs (map_set (s_specs s) key p) s).

Definition getSchedule (scheduleId : string) (s : Store)
  : option (PersistedScheduleState * PersistedScheduleSpec) :=
  state ← map_get (s_states s) scheduleId;
  spec ← map_get (s_specs s) (spec_key scheduleId (pst_activeVersion state));
  Some (state, spec).

Definition setState (next : PersistedScheduleState) : prog Store unit :=
  p ← lift_result (PersistedScheduleState_parse next);
  s ← get_st;
  put_st (upd_states (map_set (s_states s) (pst_scheduleId next) p) s).

Definition createOrGetFire (input : FireInput) : prog Store (ScheduleFire * bool) :=
  s ← get_st;
  match map_get (s_fires s) (in_idempotencyKey input) with
  | Some existing => mret (existing, false)
  | None =>
      guard_st (negb (existsb (λ f, (fi_fireIdentity f === in_fireIdentity input) &&
                   (fi_fireWindowKey f !== in_fireWindowKey input)) (map_values (s_fires s))))
        (store_error "fire identity collision across distinct windows");;
      fire ← lift_result (ScheduleFire_parse
        {| fi_idempotencyKey := in_idempotencyKey input; fi_scheduleId := in_scheduleId input;
           fi_version := in_version input; fi_fireWindowKey := in_fireWindowKey input;
           fi_fireIdentity := in_fireIdentity input; fi_fireAtUtc := in_fireAtUtc input;
           fi_state := PLANNED; fi_admissionRequestId := None; fi_admittedChildTaskId := None;
           fi_admittedAt := None; fi_createdAt := in_createdAt input |});
      put_st (upd_fires (map_set (s_fires s) (fi_idempotencyKey fire) fire) s);;
      mret (fire, true)
  end.

Definition fence_current (s : Store) (scheduleId : string) (fence : LeaseFence) : bool :=
  match map_get (s_leases s) scheduleId with
  | Some l => (le_owner l === fence_owner fence) && (le_epoch l =? fence_epoch fence)
  | None => false
  end.

Definition assertFence (scheduleId : string) (fence : option LeaseFence) : prog Store unit :=
  match fence with
  | None => mret tt
  | Some f => s ← get_st; guard_st (fence_current s scheduleId f) (Exn "StaleFenceError" scheduleId)
  end.

Definition recordObservation (o : ScheduleObservation) : prog Store unit :=
  p ← lift_result (ScheduleObservation_parse o);
  s ← get_st;
  put_st (upd_observations (s_observations s ++ [p]) (s_uuids s) s).

(** [id: randomUUID()] *)
Definition next_uuid : prog Store string :=
  s ← get_st;
  put_st (upd_observations (s_observations s) (S (s_uuids s)) s);;
  mret (uuid (s_uuids s)).

Definition bindImpl (key : string) (b : Binding) (fence : option LeaseFence)
  : prog Store (ScheduleFire * bool) :=
  s ← get_st;
  match map_get (s_fires s) key with
  | None => throw_st (store_error "no such fire")
  | Some fire =>
      assertFence (fi_scheduleId fire) fence;;
      match fi_admittedChildTaskId fire with
      | Some bound =>
          if bound === b_childTaskId b then mret (fire, true)
          else
            id ← next_uuid;
            recordObservation
              {| ob_id := id; ob_scheduleId := fi_scheduleId fire; ob_idempotencyKey := Some key;
                 ob_kind := AUTHORITY;
                 ob_detail := [("reason", JStr "fire_bind_conflict"); ("bound", JStr bound);
                               ("attempted", JStr (b_childTaskId b))];
                 ob_createdAt := b_at b |};;
            throw_st (Exn "FireBindingConflict" key)
      | None =>
          let next :=
            {| fi_idempotencyKey := fi_idempotencyKey fire; fi_scheduleId := fi_scheduleId fire;
               fi_version := fi_version fire; fi_fireWindowKey := fi_fireWindowKey fire;
               fi_fireIdentity := fi_fireIdentity fire; fi_fireAtUtc := fi_fireAtUtc fire;
               fi_state := ADMITTED; fi_admissionRequestId := Some (b_admissionRequestId b);
               fi_admittedChildTaskId := Some (b_childTaskId b); fi_admittedAt := Some (b_at b);
               fi_createdAt := fi_createdAt fire |} in
          p ← lift_result (ScheduleFire_parse next);
          s' ← get_st;
          put_st (upd_fires (map_set (s_fires s') key p) s');;
          mret (next, false)
      end
  end.

Definition bindAdmission (key : string) (b : Binding) (fence : LeaseFence) :=
  bindImpl key b (Some fence).
Definition bindAdmissionPrivileged (key : string) (b : Binding) := bindImpl key b None.

Definition transitionImpl (key : string) (to : FireState) (fence : option LeaseFence)
  : prog Store ScheduleFire :=
  s ← get_st;
  match map_get (s_fires s) key with
  | None => throw_st (store_error "no such fire")
  | Some fire =>
      assertFence (fi_scheduleId fire) fence;;
      guard_st (negb ((fi_admittedChildTaskId fire !== None) && (to !== ADMITTED)))
        (store_error "cannot move an admitted fire out of ADMITTED");;
      next ← lift_result (ScheduleFire_parse
        {| fi_idempotencyKey := fi_idempotencyKey fire; fi_scheduleId := fi_scheduleId fire;
           fi_version := fi_version fire; fi_fireWindowKey := fi_fireWindowKey fire;
           fi_fireIdentity := fi_fireIdentity fire; fi_fireAtUtc := fi_fireAtUtc fire;
           fi_state := to; fi_admissionRequestId := fi_admissionRequestId fire;
           fi_admittedChildTaskId := fi_admittedChildTaskId fire; fi_admittedAt := fi_admittedAt fire;
           fi_createdAt := fi_createdAt fire |});
      put_st (upd_fires (map_set (s_fires s) key next) s);;
      mret next
  end.

Definition transition (key : string) (to : FireState) (fence : LeaseFence) :=
  transitionImpl key to (Some fence).
Definition transitionPrivileged (key : string) (to : FireState) := transitionImpl key to None.

(** A lease somebody else holds at [nowMs]; [Date.parse] of a stored expiry. *)
Definition lease_live (l : ScheduleLease) (nowMs : Z) : bool :=
  match Date_parse (le_expiresAt l) with Some x => nowMs <? x | None => false end.
Definition lease_dead (l : ScheduleLease) (nowMs : Z) : bool :=
  match Date_parse (le_expiresAt l) with Some x => x <=? nowMs | None => false end.

Definition claimLease (scheduleId owner : string) (nowMs ttlMs : Z) : prog Store (option ScheduleLease) :=
  s ← get_st;
  let cur := map_get (s_leases s) scheduleId in
  let nowIso := toISOString nowMs in
  if match cur with Some c => lease_live c nowMs && (le_owner c !== owner) | None => false end
  then mret None
  else
    lease ← lift_result (ScheduleLease_parse
      {| le_scheduleId := scheduleId; le_owner := owner;
         le_epoch := match cur with Some c => le_epoch c | None => -1 end + 1;
         le_acquiredAt := nowIso; le_expiresAt := toISOString (nowMs + ttlMs) |});
    (match cur with
     | Some c =>
         if lease_dead c nowMs && (le_owner c !== owner) then
           id ← next_uuid;
           recordObservation
             {| ob_id := id; ob_scheduleId := scheduleId; ob_idempotencyKey := None;
                ob_kind := LEASE_RECOVERED;
                ob_detail := [("from", JStr (le_owner c)); ("to", JStr owner); ("epoch", JNum (le_epoch lease))];
                ob_createdAt := nowIso |}
         else mret tt
     | None => mret tt
     end);;
    s' ← get_st;
    put_st (upd_leases (map_set (s_leases s') scheduleId lease) s');;
    mret (Some lease).

Definition releaseLease (scheduleId owner : string) (epoch : Z) : prog Store unit :=
  s ← get_st;
  match map_get (s_leases s) scheduleId with
  | Some cur =>
      if (le_owner cur === owner) && (le_epoch cur =? epoch)
      then put_st (upd_leases (map_delete (s_leases s) scheduleId) s) else mret tt
  | None => mret tt
  end.

Definition createBackfillRequest (req : ScheduleBackfillRequest) : prog Store ScheduleBackfillRequest :=
  parsed ← lift_result (ScheduleBackfillRequest_parse req);
  s ← get_st;
  put_st (upd_backfills (s_backfills s ++ [parsed]) s);;
  mret parsed.

Definition listFires (scheduleId : string) (s : Store) : list ScheduleFire :=
  List.filter (λ f, fi_scheduleId f === scheduleId) (map_values (s_fires s)).
Definition listObservations (scheduleId : string) (s : Store) : list ScheduleObservation :=
  List.filter (λ o, ob_scheduleId o === scheduleId) (s_observations s).
End inmemory.

(** ** What each operation does to the fires and the leases *)

Inductive store_op :=
  | Op_upsertSpecVersion (spec : PersistedScheduleSpec)
  | Op_setState (st : PersistedScheduleState)
  | Op_createOrGetFire (input : FireInput)
  | Op_bind (key : string) (b : Binding) (fence : option LeaseFence)
  | Op_transition (key : string) (to : FireState) (fence : option LeaseFence)
  | Op_claimLease (scheduleId owner : string) (nowMs ttlMs : Z)
  | Op_releaseLease (scheduleId owner : string) (epoch : Z)
  | Op_createBackfillRequest (req : ScheduleBackfillRequest)
  | Op_recordObservation (o : ScheduleObservation).

Section store_theorems.
Context (uuid : nat → string).

(** The state after an operation, whether it returned or threw. *)
Definition run_op (o : store_op) (s : Store) : Store :=
  match o with
  | Op_upsertSpecVersion spec => (upsertSpecVersion spec s).1
  | Op_setState st => (setState st s).1
  | Op_createOrGetFire input => (createOrGetFire input s).1
  | Op_bind key b fence => (bindImpl uuid key b fence s).1
  | Op_transition key to fence => (transitionImpl key to fence s).1
  | Op_claimLease i owner now ttl => (claimLease uuid i owner now ttl s).1
  | Op_releaseLease i owner epoch => (releaseLease i owner epoch s).1
  | Op_createBackfillRequest req => (createBackfillRequest req s).1
  | Op_recordObservation o => (recordObservation o s).1
  end.

Inductive store_run : Store → Prop :=
  | store_start : store_run empty_store
  | store_next s o : store_run s → store_run (run_op o s).

Lemma pbind_fst {S A B} (m : prog S A) (f : A → prog S B) s :
  ((m ≫= f) s).1 = match m s with (s1, Ok a) => (f a s1).1 | (s1, Throw _) => s1 end.
Proof. unfold mbind, prog_bind. by destruct (m s) as [s1 [a|]]. Qed.

Lemma recordObservation_frame o s :
  s_fires (recordObservation o s).1 = s_fires s ∧ s_leases (recordObservation o s).1 = s_leases s ∧
  s_backfills (recordObservation o s).1 = s_backfills s.
Proof.
  unfold recordObservation. rewrite pbind_fst. unfold lift_result at 1.
  by destruct (ScheduleObservation_parse o).
Qed.

(** A throw of [assertFence] is the stale-fence error; it never changes anything. *)
Lemma assertFence_eq i fence s :
  assertFence i fence s =
  (s, match fence with
      | None => Ok tt
      | Some f => if fence_current s i f then Ok tt else Throw (Exn "StaleFenceError" i) end).
Proof. by destruct fence. Qed.

(** The binding a fire gets. *)
Definition bound_fire (fire : ScheduleFire) (b : Binding) : ScheduleFire :=
  {| fi_idempotencyKey := fi_idempotencyKey fire; fi_scheduleId := fi_scheduleId fire;
     fi_version := fi_version fire; fi_fireWindowKey := fi_fireWindowKey fire;
     fi_fireIdentity := fi_fireIdentity fire; fi_fireAtUtc := fi_fireAtUtc fire;
     fi_state := ADMITTED; fi_admissionRequestId := Some (b_admissionRequestId b);
     fi_admittedChildTaskId := Some (b_childTaskId b); fi_admittedAt := Some (b_at b);
     fi_createdAt := fi_createdAt fire |}.

Definition with_state (fire : ScheduleFire) (to : FireState) : ScheduleFire :=
  {| fi_idempotencyKey := fi_idempotencyKey fire; fi_scheduleId := fi_scheduleId fire;
     fi_version := fi_version fire; fi_fireWindowKey := fi_fireWindowKey fire;
     fi_fireIdentity := fi_fireIdentity fire; fi_fireAtUtc := fi_fireAtUtc fire;
     fi_state := to; fi_admissionRequestId := fi_admissionRequestId fire;
     fi_admittedChildTaskId := fi_admittedChildTaskId fire; fi_admittedAt := fi_admittedAt fire;
     fi_createdAt := fi_createdAt fire |}.

Lemma ScheduleFire_parse_ok f f' : ScheduleFire_parse f = Ok f' → f' = f.
Proof. unfold ScheduleFire_parse, ok_or. by intros [_ ?%Ok_inj]%ensure_ok. Qed.

(** [bindImpl] by cases: it changes the fires in one case only. *)
Lemma bindImpl_cases key b fence s :
  let '(s', r) := bindImpl uuid key b fence s in
  s_leases s' = s_leases s ∧ s_backfills s' = s_backfills s ∧
  match map_get (s_fires s) key with
  | None => s' = s ∧ r = Throw (store_error "no such fire")
  | Some fire =>
      match (assertFence (fi_scheduleId fire) fence s).2 with
      | Throw e => s' = s ∧ r = Throw e
      | Ok _ =>
          match fi_admittedChildTaskId fire with
          | Some bound => s_fires s' = s_fires s ∧
              if decide (bound = b_childTaskId b) then s' = s ∧ r = Ok (fire, true) else ∃ e, r = Throw e
          | None =>
              (∃ e, s' = s ∧ r = Throw e) ∨
              (s' = upd_fires (map_set (s_fires s) key (bound_fire fire b)) s ∧ r = Ok (bound_fire fire b, false))
          end
      end
  end.
Proof.
  unfold bindImpl. unfold mbind at 1, prog_bind at 1, get_st at 1.
  destruct (map_get (s_fires s) key) as [fire|]; [|done].
  unfold mbind at 1, prog_bind at 1. rewrite assertFence_eq. cbn [snd].
  destruct (match fence with Some f => _ | None => _ end) as [[]|e]; [|done].
  destruct (fi_admittedChildTaskId fire) as [bound|].
  - case_decide as Hb; [by rewrite bool_decide_true|]. rewrite bool_decide_false by done.
    unfold next_uuid, get_st, put_st, mret, prog_ret, mbind, prog_bind. cbn [upd_observations s_observations s_uuids].
    match goal with |- context [recordObservation ?o ?s1] =>
      pose proof (recordObservation_frame o s1) as (Hf & Hl & Hbf);
      destruct (recordObservation o s1) as [s2 [[]|e]] end;
    cbn in Hf, Hl, Hbf; unfold throw_st; split_and!; eauto.
  - fold (bound_fire fire b). unfold mbind, prog_bind, lift_result.
    destruct (ScheduleFire_parse (bound_fire fire b)) as [p|e] eqn:Ep; [|split_and!; eauto].
    apply ScheduleFire_parse_ok in Ep as ->. split_and!; [done|done|]. by right.
Qed.

Lemma transitionImpl_cases key to fence s :
  let '(s', r) := transitionImpl key to fence s in
  (s' = s ∧ ∃ e, r = Throw e) ∨
  ∃ fire, map_get (s_fires s) key = Some fire ∧ (assertFence (fi_scheduleId fire) fence s).2 = Ok tt ∧
    (fi_admittedChildTaskId fire ≠ None → to = ADMITTED) ∧
    s' = upd_fires (map_set (s_fires s) key (with_state fire to)) s ∧ r = Ok (with_state fire to).
Proof.
  unfold transitionImpl. unfold mbind at 1, prog_bind at 1, get_st at 1.
  destruct (map_get (s_fires s) key) as [fire|]; [|left; split; [done|by eexists]].
  unfold mbind at 1, prog_bind at 1. rewrite assertFence_eq. cbn [snd].
  destruct (match fence with Some f => _ | None => _ end) as [[]|e] eqn:Ef; [|left; split; [done|by eexists]].
  unfold mbind at 1, prog_bind at 1, guard_st, lift_result at 1.
  destruct (negb _) eqn:Eg; cbn [ensure]; [|left; split; [done|by eexists]].
  fold (with_state fire to). unfold mbind, prog_bind, lift_result.
  destruct (ScheduleFire_parse (with_state fire to)) as [p|e] eqn:Ep; [|left; split; [done|by eexists]].
  apply ScheduleFire_parse_ok in Ep as ->. right. exists fire. split_and!; try done.
  { by rewrite assertFence_eq. }
  intros Hb. apply negb_true_iff in Eg. rewrite bool_decide_false in Eg by done. simpl in Eg. by to_prop.
Qed.

Lemma createOrGetFire_cases input s :
  let '(s', r) := createOrGetFire input s in
  match map_get (s_fires s) (in_idempotencyKey input) with
  | Some f => s' = s ∧ r = Ok (f, false)
  | None => (s' = s ∧ ∃ e, r = Throw e) ∨
      ∃ f, s' = upd_fires (map_set (s_fires s) (in_idempotencyKey input) f) s ∧ r = Ok (f, true) ∧
        fi_idempotencyKey f = in_idempotencyKey input ∧ fi_scheduleId f = in_scheduleId input ∧
        fi_version f = in_version input ∧
        fi_fireIdentity f = in_fireIdentity input ∧ fi_fireWindowKey f = in_fireWindowKey input ∧
        fi_state f = PLANNED ∧ fi_admittedChildTaskId f = None ∧ fi_admissionRequestId f = None
  end.
Proof.
  unfold createOrGetFire. unfold mbind at 1, prog_bind at 1, get_st at 1.
  destruct (map_get (s_fires s) _) as [f|]; [done|].
  unfold mbind at 1, prog_bind at 1, guard_st, lift_result at 1.
  destruct (negb _); cbn [ensure]; [|left; split; [done|by eexists]].
  unfold mbind, prog_bind, lift_result.
  destruct (ScheduleFire_parse _) as [p|e] eqn:Ep; [|left; split; [done|by eexists]].
  apply ScheduleFire_parse_ok in Ep as ->. right. eexists. split_and!; done.
Qed.

(** The lease a claim writes. *)
Definition claimed (i owner : string) (nowMs ttlMs : Z) (cur : option ScheduleLease) : ScheduleLease :=
  {| le_scheduleId := i; le_owner := owner; le_epoch := match cur with Some c => le_epoch c | None => -1 end + 1;
     le_acquiredAt := toISOString nowMs; le_expiresAt := toISOString (nowMs + ttlMs) |}.

Definition held_by_other (s : Store) (i owner : string) (nowMs : Z) : bool :=
  match map_get (s_leases s) i with Some c => lease_live c nowMs && (le_owner c !== owner) | None => false end.

Lemma claimLease_cases i owner now ttl s :
  let '(s', r) := claimLease uuid i owner now ttl s in
  s_fires s' = s_fires s ∧ s_backfills s' = s_backfills s ∧
  if held_by_other s i owner now then s' = s ∧ r = Ok None
  else let l := claimed i owner now ttl (map_get (s_leases s) i) in
    (s_leases s' = s_leases s ∧ ∃ e, r = Throw e) ∨
    (s_leases s' = map_set (s_leases s) i l ∧ r = Ok (Some l)).
Proof.
  unfold claimLease. unfold mbind at 1, prog_bind at 1, get_st at 1. fold (held_by_other s i owner now).
  destruct (held_by_other s i owner now); [done|].
  unfold mbind at 1, prog_bind at 1, lift_result at 1. fold (claimed i owner now ttl (map_get (s_leases s) i)).
  unfold ScheduleLease_parse, ok_or. destruct (ensure _ _) as [[]|e]; [|by split_and!; eauto].
  cbn [mbind result_bind]. unfold mbind at 1, prog_bind at 1.
  destruct (map_get (s_leases s) i) as [c|]; [|by split_and!; eauto].
  destruct (lease_dead c now && _); [|by split_and!; eauto].
  unfold next_uuid, get_st, put_st, mret, prog_ret, mbind, prog_bind. cbn [upd_observations s_observations s_uuids].
  match goal with |- context [recordObservation ?o ?s1] =>
    pose proof (recordObservation_frame o s1) as (Hf & Hl & Hbf);
    destruct (recordObservation o s1) as [s2 [[]|e]] end;
  cbn in Hf, Hl, Hbf; cbn; rewrite ?Hl; split_and!; eauto.
Qed.

(** ** Invariants of every run *)

(** How the fires may change: a new unbound fire, a binding of an unbound fire, or a
    lifecycle move that keeps a bound fire ADMITTED. *)
Inductive fires_step : list (string * ScheduleFire) → list (string * ScheduleFire) → Prop :=
  | fires_same m : fires_step m m
  | fires_create m k f : map_get m k = None → fi_idempotencyKey f = k → fi_admittedChildTaskId f = None →
      fires_step m (map_set m k f)
  | fires_bind m k f b : map_get m k = Some f → fi_admittedChildTaskId f = None →
      fires_step m (map_set m k (bound_fire f b))
  | fires_move m k f to : map_get m k = Some f → (fi_admittedChildTaskId f ≠ None → to = ADMITTED) →
      fires_step m (map_set m k (with_state f to)).

Lemma run_op_fires o s : fires_step (s_fires s) (s_fires (run_op o s)).
Proof.
  destruct o as [spec|st|input|key b fence|key to fence|i owner now ttl|i owner epoch|req|ob]; cbn [run_op].
  - unfold upsertSpecVersion, mbind, prog_bind, get_st, guard_st, lift_result.
    destruct (ensure _ _) as [[]|]; [|constructor]. destruct (PersistedScheduleSpec_parse spec); constructor.
  - unfold setState, mbind, prog_bind, get_st, lift_result. destruct (PersistedScheduleState_parse st); constructor.
  - pose proof (createOrGetFire_cases input s) as H. destruct (createOrGetFire input s) as [s' r].
    cbn [fst]. destruct (map_get _ _) as [f|] eqn:Eg; [by destruct H as [-> _]; constructor|].
    destruct H as [[-> _]|(f & -> & _ & Hk & _ & _ & _ & _ & _ & Hc & _)]; [constructor|by constructor].
  - pose proof (bindImpl_cases key b fence s) as H. destruct (bindImpl uuid key b fence s) as [s' r].
    cbn [fst]. destruct H as (_ & _ & H).
    destruct (map_get _ _) as [f|] eqn:Eg; [|by destruct H as [-> _]; constructor].
    destruct (assertFence _ _ _).2; [|by destruct H as [-> _]; constructor].
    destruct (fi_admittedChildTaskId f) eqn:Ec; [by destruct H as [-> _]; constructor|].
    destruct H as [(? & -> & _)|[-> _]]; [constructor|by constructor].
  - pose proof (transitionImpl_cases key to fence s) as H. destruct (transitionImpl key to fence s) as [s' r].
    cbn [fst]. destruct H as [[-> _]|(f & Hf & _ & Hto & -> & _)]; [constructor|by constructor].
  - pose proof (claimLease_cases i owner now ttl s) as H. destruct (claimLease uuid i owner now ttl s) as [s' r].
    cbn [fst]. destruct H as (-> & _). constructor.
  - unfold releaseLease, mbind, prog_bind, get_st. destruct (map_get _ _); [|constructor].
    destruct (_ && _); constructor.
  - unfold createBackfillRequest, mbind, prog_bind, lift_result. destruct (ScheduleBackfillRequest_parse req); constructor.
  - destruct (recordObservation_frame ob s) as (-> & _). constructor.
Qed.

Definition fire_ok (kf : string * ScheduleFire) : Prop :=
  fi_idempotencyKey kf.2 = kf.1 ∧ (fi_admittedChildTaskId kf.2 ≠ None → fi_state kf.2 = ADMITTED).

Definition fires_ok (m : list (string * ScheduleFire)) : Prop := Forall fire_ok m ∧ NoDup (map_keys m).

Lemma fires_step_ok m m' : fires_ok m → fires_step m m' → fires_ok m'.
Proof.
  intros [Hok Hnd] Hs. assert (Hget : ∀ k f, map_get m k = Some f → fire_ok (k, f)).
  { intros k f Hf%map_get_elem. by eapply Forall_forall in Hok. }
  destruct Hs as [m|m k f Hn Hk Hc|m k f b Hf Hc|m k f to Hf Hto]; [done|..];
    (split; [apply map_set_Forall; [done|]|by apply map_set_NoDup]).
  - split; [done|]. simpl. by rewrite Hc.
  - split; [|done]. by destruct (Hget k f Hf).
  - destruct (Hget k f Hf) as [Hk Hst]. by split.
Qed.

Lemma store_run_fires_ok s : store_run s → fires_ok (s_fires s).
Proof.
  induction 1 as [|s o _ IH]; [split; constructor|]. eapply fires_step_ok; [exact IH|apply run_op_fires].
Qed.

(** C23: a bound fire is final.  Once a fire is bound to a child task, no operation of
    the store, fenced or privileged, successful or not, changes its record in any
    field: it stays ADMITTED, bound to that task. *)
Theorem bound_fire_final s o k f c :
  store_run s → map_get (s_fires s) k = Some f → fi_admittedChildTaskId f = Some c →
  map_get (s_fires (run_op o s)) k = Some f ∧ fi_state f = ADMITTED.
Proof.
  intros [Hok _]%store_run_fires_ok Hf Hc.
  assert (Hadm : fi_state f = ADMITTED).
  { apply map_get_elem in Hf. eapply Forall_forall in Hok as [_ Hok]; [|exact Hf]. apply Hok. simpl. congruence. }
  split; [|done].
  destruct (run_op_fires o s) as [m|m j g Hn _ _|m j g b Hg Hgc|m j g to Hg Hto]; [done|..];
    rewrite map_get_set; case_bool_decide as Hj; subst; try done; [congruence..|].
  rewrite Hf in Hg. injection Hg as <-. rewrite (Hto ltac:(congruence)).
  destruct f. simpl in *. by subst.
Qed.

(** A second creation of a fire gets the first one.  Whatever window, identity or
    time the second request carries, it returns the stored fire, reports that it
    created nothing, and changes nothing. *)
Theorem createOrGetFire_once input input2 s s1 f c :
  fires_ok (s_fires s) → createOrGetFire input s = (s1, Ok (f, c)) →
  in_idempotencyKey input2 = in_idempotencyKey input →
  map_get (s_fires s1) (in_idempotencyKey input) = Some f ∧
  createOrGetFire input2 s1 = (s1, Ok (f, false)) ∧
  (c = true ↔ map_get (s_fires s) (in_idempotencyKey input) = None).
Proof.
  intros [Hok _] H Hk. pose proof (createOrGetFire_cases input s) as Hc. rewrite H in Hc.
  assert (Hget : map_get (s_fires s1) (in_idempotencyKey input) = Some f ∧
    (c = true ↔ map_get (s_fires s) (in_idempotencyKey input) = None)).
  { destruct (map_get (s_fires s) _) as [g|] eqn:Eg.
    - destruct Hc as [-> [= -> ->]]. by split.
    - destruct Hc as [[_ [e [=]]]|(g & -> & [= -> ->] & _)]. cbn [s_fires upd_fires].
      by rewrite map_get_set_eq. }
  destruct Hget as [Hget Hiff]. split_and!; [done| |done].
  pose proof (createOrGetFire_cases input2 s1) as H2. destruct (createOrGetFire input2 s1) as [s2 r].
  rewrite Hk, Hget in H2. by destruct H2 as [-> ->].
Qed.

(** A stale fence fails closed.  Binding or moving a fire under a fence that is not
    the current lease of the fire's schedule (another owner, another epoch, no
    lease) throws [StaleFenceError] and changes nothing. *)
Theorem stale_fence_fails_closed s key fire fence b to :
  map_get (s_fires s) key = Some fire → fence_current s (fi_scheduleId fire) fence = false →
  bindAdmission uuid key b fence s = (s, Throw (Exn "StaleFenceError" (fi_scheduleId fire))) ∧
  transition key to fence s = (s, Throw (Exn "StaleFenceError" (fi_scheduleId fire))).
Proof.
  intros Hf Hfc. unfold bindAdmission, transition, bindImpl, transitionImpl.
  unfold mbind, prog_bind, get_st. rewrite Hf, assertFence_eq, Hfc. done.
Qed.

(** Leases exclude each other.  While another owner's lease is live a claim returns
    null and changes nothing; a claim that succeeds makes its own (owner, epoch) the
    current fence, raises the epoch over the lease it replaces, and turns every fence
    that was current for that schedule stale. *)
Theorem claimLease_exclusive s i owner now ttl :
  (held_by_other s i owner now = true → claimLease uuid i owner now ttl s = (s, Ok None)) ∧
  ∀ s' l, claimLease uuid i owner now ttl s = (s', Ok (Some l)) →
    held_by_other s i owner now = false ∧
    fence_current s' i {| fence_owner := owner; fence_epoch := le_epoch l |} = true ∧
    (∀ c, map_get (s_leases s) i = Some c → le_epoch l = le_epoch c + 1) ∧
    (∀ fence, fence_current s i fence = true → fence_current s' i fence = false).
Proof.
  pose proof (claimLease_cases i owner now ttl s) as H.
  destruct (claimLease uuid i owner now ttl s) as [s1 r]. destruct H as (_ & _ & H). split.
  - intros Hh. rewrite Hh in H. by destruct H as [-> ->].
  - intros s' l [= -> ->]. destruct (held_by_other s i owner now); [by destruct H as [_ [=]]|].
    destruct H as [[_ [e [=]]]|[Hl [= ->]]]. split_and!; [done| | |].
    + unfold fence_current. rewrite Hl, map_get_set_eq. cbn [claimed le_owner le_epoch fence_owner fence_epoch].
      rewrite bool_decide_true by done. lia.
    + intros c Hc. cbn [claimed le_epoch]. by rewrite Hc.
    + intros fence Hf. unfold fence_current in *. rewrite Hl, map_get_set_eq.
      destruct (map_get (s_leases s) i) as [c|]; [|done]. cbn [claimed le_owner le_epoch]. to_prop.
      apply andb_false_iff. right. lia.
Qed.

(** No backfill approves itself.  In every reachable store each recorded backfill
    request is bounded by its own maximum, and one that is APPROVED or EXECUTED
    has an approver, who is not the requester. *)
Theorem backfills_never_self_approved s :
  store_run s →
  Forall (λ b, bf_computedWindows b <= bf_maxRuns b ∧
    (bf_status b = APPROVED ∨ bf_status b = EXECUTED →
       ∃ a, bf_approvedBy b = Some a ∧ a ≠ bf_requestedBy b)) (s_backfills s).
Proof.
  induction 1 as [|s o _ IH]; [constructor|].
  destruct o as [spec|st|input|key b fence|key to fence|i owner now ttl|i owner epoch|req|ob]; cbn [run_op].
  - unfold upsertSpecVersion, mbind, prog_bind, get_st, guard_st, lift_result.
    destruct (ensure _ _) as [[]|]; [|done]. by destruct (PersistedScheduleSpec_parse spec).
  - unfold setState, mbind, prog_bind, get_st, lift_result. by destruct (PersistedScheduleState_parse st).
  - pose proof (createOrGetFire_cases input s) as H. destruct (createOrGetFire input s) as [s' r].
    cbn [fst]. destruct (map_get _ _); [by destruct H as [-> _]|].
    by destruct H as [[-> _]|(f & -> & _)].
  - pose proof (bindImpl_cases key b fence s) as H. destruct (bindImpl uuid key b fence s) as [s' r].
    cbn [fst]. by destruct H as (_ & -> & _).
  - pose proof (transitionImpl_cases key to fence s) as H. destruct (transitionImpl key to fence s) as [s' r].
    cbn [fst]. by destruct H as [[-> _]|(f & _ & _ & _ & -> & _)].
  - pose proof (claimLease_cases i owner now ttl s) as H. destruct (claimLease uuid i owner now ttl s) as [s' r].
    cbn [fst]. by destruct H as (_ & -> & _).
  - unfold releaseLease, mbind, prog_bind, get_st. destruct (map_get _ _); [|done]. by destruct (_ && _).
  - unfold createBackfillRequest, mbind, prog_bind, lift_result.
    destruct (ScheduleBackfillRequest_parse req) as [p|] eqn:Ep; [|done].
    cbn. apply Forall_app. split; [done|]. constructor; [|constructor].
    unfold ScheduleBackfillRequest_parse, ok_or in Ep. apply ensure_ok in Ep as [_ Ep].
    apply ensure_ok in Ep as [Hb Ep]. apply ensure_ok in Ep as [Hst Ep]. apply ensure_ok in Ep as [Hap <-%Ok_inj].
    split; [lia|]. intros Hs. destruct (bf_approvedBy req) as [a|].
    + exists a. split; [done|]. intros ->. simpl in Hap. rewrite bool_decide_true in Hap by done. done.
    + by destruct Hs as [E|E]; rewrite E in Hst.
  - by destruct (recordObservation_frame ob s) as (_ & _ & ->).
Qed.
End store_theorems.

(** ** Concrete stores *)

Definition sample_uuid (n : nat) : string := sample_id (50 + Z.of_nat n).

Definition sample_input : FireInput :=
  {| in_idempotencyKey := "k"; in_scheduleId := sample_id 20; in_version := "1";
     in_fireWindowKey := "everyNMinutes/15@0"; in_fireIdentity := sample_id 21;
     in_fireAtUtc := "2026-09-15T16:00:00.000Z"; in_createdAt := "2026-09-15T16:00:00.000Z" |}.

Definition sample_binding (c : Z) : Binding :=
  {| b_admissionRequestId := sample_id 21; b_childTaskId := sample_id c; b_at := "2026-09-15T16:00:01.000Z" |}.

(** A fire created, the lease claimed by A, the fire bound under A's fence. *)
Definition store_created : Store := run_op sample_uuid (Op_createOrGetFire sample_input) empty_store.
Definition store_leased : Store :=
  run_op sample_uuid (Op_claimLease (sample_id 20) "A" 1789488000000 60000) store_created.
Definition store_bound : Store :=
  run_op sample_uuid (Op_bind "k" (sample_binding 30) (Some {| fence_owner := "A"; fence_epoch := 0 |})) store_leased.

Lemma store_bound_run : store_run sample_uuid store_bound.
Proof. repeat apply store_next. apply store_start. Qed.

(** A fence can come back to life.  Owner A claims (epoch 0), releases, and claims
    again: the new lease is again (A, 0), so a continuation of the first claim,
    which should be stale, may still bind fires. *)
Theorem lease_fence_reused_after_release :
  let s1 := run_op sample_uuid (Op_claimLease (sample_id 20) "A" 1789488000000 60000) store_created in
  let s2 := run_op sample_uuid (Op_releaseLease (sample_id 20) "A" 0) s1 in
  let s3 := run_op sample_uuid (Op_claimLease (sample_id 20) "A" 1789488060000 60000) s2 in
  let fence := {| fence_owner := "A"; fence_epoch := 0 |} in
  fence_current s1 (sample_id 20) fence = true ∧ fence_current s2 (sample_id 20) fence = false ∧
  fence_current s3 (sample_id 20) fence = true ∧
  is_ok (bindAdmission sample_uuid "k" (sample_binding 30) fence s3).2 = true.
Proof. vm_compute. repeat split. Qed.

(** The in-memory store lets an unbound fire become ADMITTED; the database's check
    constraint (state = ADMITTED exactly when a child task is bound) refuses it. *)
Lemma unbound_fire_can_be_admitted : ∃ f,
  (transition "k" ADMITTED {| fence_owner := "A"; fence_epoch := 0 |} store_leased).2 = Ok f ∧
  fi_state f = ADMITTED ∧ fi_admittedChildTaskId f = None.
Proof. eexists. split; [vm_compute; reflexivity|]. split; reflexivity. Qed.

Lemma bound_fire_final_witness : ∃ f,
  map_get (s_fires store_bound) "k" = Some f ∧ fi_admittedChildTaskId f = Some (sample_id 30) ∧
  map_get (s_fires (run_op sample_uuid (Op_bind "k" (sample_binding 31) None) store_bound)) "k" = Some f.
Proof.
  assert (H : ∃ f, map_get (s_fires store_bound) "k" = Some f ∧ fi_admittedChildTaskId f = Some (sample_id 30)).
  { eexists. split; [vm_compute; reflexivity|vm_compute; reflexivity]. }
  destruct H as (f & Hf & Hc). exists f. split; [exact Hf|]. split; [exact Hc|].
  exact (proj1 (bound_fire_final sample_uuid store_bound (Op_bind "k" (sample_binding 31) None) "k" f
    (sample_id 30) store_bound_run Hf Hc)).
Defined.

Lemma createOrGetFire_once_witness : ∃ f,
  createOrGetFire sample_input store_created = (store_created, Ok (f, false)).
Proof.
  assert (H : ∃ f, createOrGetFire sample_input empty_store = (store_created, Ok (f, true)))
    by (eexists; vm_compute; reflexivity).
  destruct H as (f & Hf). exists f.
  apply (createOrGetFire_once sample_input sample_input empty_store store_created f true); [|exact Hf|reflexivity].
  split; constructor.
Defined.

Lemma stale_fence_fails_closed_witness :
  bindAdmission sample_uuid "k" (sample_binding 30) {| fence_owner := "B"; fence_epoch := 0 |} store_leased =
    (store_leased, Throw (Exn "StaleFenceError" (sample_id 20))).
Proof.
  assert (H : ∃ f, map_get (s_fires store_leased) "k" = Some f ∧ fi_scheduleId f = sample_id 20)
    by (eexists; split; [vm_compute; reflexivity|reflexivity]).
  destruct H as (f & Hf & Hi).
  pose proof (stale_fence_fails_closed sample_uuid store_leased "k" f {| fence_owner := "B"; fence_epoch := 0 |}
    (sample_binding 30) ADMITTED Hf) as H. rewrite Hi in H. apply H. vm_compute. reflexivity.
Defined.

Definition sample_backfill : ScheduleBackfillRequest :=
  {| bf_id := sample_id 40; bf_scheduleId := sample_id 20; bf_version := "1"; bf_requestedBy := sample_id 2;
     bf_requestedFrom := "2026-09-15T16:00:00.000Z"; bf_requestedTo := "2026-09-16T16:00:00.000Z";
     bf_computedWindows := 4; bf_maxRuns := 5; bf_previewDigest := "d"; bf_status := APPROVED;
     bf_approvedBy := Some (sample_id 3); bf_createdAt := "2026-09-15T16:00:00.000Z"; bf_executedAt := None |}.

Definition store_backfilled : Store :=
  run_op sample_uuid (Op_createBackfillRequest sample_backfill) store_bound.

Lemma backfills_never_self_approved_witness :
  length (s_backfills store_backfilled) = 1%nat ∧
  Forall (λ b, bf_computedWindows b <= bf_maxRuns b ∧
    (bf_status b = APPROVED ∨ bf_status b = EXECUTED →
       ∃ a, bf_approvedBy b = Some a ∧ a ≠ bf_requestedBy b)) (s_backfills store_backfilled).
Proof.
  split; [vm_compute; reflexivity|].
  apply (backfills_never_self_approved sample_uuid). apply store_next, store_bound_run.
Defined.
