(* ===== verification/SchedDriver.v ===== *)
(** * The durable schedule driver (services/kernel/src/scheduler/durable-timer.ts)

    The driver is written against three interfaces, as in the source: a schedule
    store, an admission gateway (the only minter of child tasks) and a durable
    timer runtime.  Each is a class of operations with a class of laws; the
    theorems about [onWake] are proved from the laws, and the in-memory
    implementations are instances.  A wake's state is the product of the three.
    The journal is [directJournal]: every step runs inline.  The theorems: what
    the driver binds is what the gateway minted and is never rebound, a wake that
    returned has bound every due window, a second wake over the same interval
    creates and admits nothing, and a stopped schedule loses its timers. *)

From S2P Require Import Prelude JsNumber JsDate Digest Contracts Plan Capability Schedule SchedStore.
Local Open Scope Z_scope.
Local Open Scope js_scope.

(** ** The interfaces *)

Class ScheduleStore (St : Type) := {
  st_getSchedule : string → St → option (PersistedScheduleState * PersistedScheduleSpec);
  st_createOrGetFire : FireInput → prog St (ScheduleFire * bool);
  st_bindAdmission : string → Binding → LeaseFence → prog St (ScheduleFire * bool);
  st_claimLease : string → string → Z → Z → prog St (option ScheduleLease);
  st_fire : St → string → option ScheduleFire        (* the row of an idempotency key *)
}.

(** What the store promises: a fire is created once, bound once, and nothing else moves;
    schedules are not touched by fires and leases.  Any operation may throw, before or after it
    has done its work, as one whose reply is lost does. *)
Class ScheduleStoreLaws (St : Type) `{ScheduleStore St} := {
  law_create i s s' r : st_createOrGetFire i s = (s', r) →
    (∀ k, k ≠ in_idempotencyKey i → st_fire s' k = st_fire s k) ∧
    (∀ j, st_getSchedule j s' = st_getSchedule j s) ∧
    match st_fire s (in_idempotencyKey i) with
    | Some f => s' = s ∧ (r = Ok (f, false) ∨ ∃ e, r = Throw e)
    | None => (s' = s ∧ ∃ e, r = Throw e) ∨
        ∃ f, st_fire s' (in_idempotencyKey i) = Some f ∧ fi_admittedChildTaskId f = None ∧ (r = Ok (f, true) ∨ ∃ e, r = Throw e)
    end;
  law_bind k b fence s s' r : st_bindAdmission k b fence s = (s', r) →
    (∀ j, j ≠ k → st_fire s' j = st_fire s j) ∧
    (∀ j, st_getSchedule j s' = st_getSchedule j s) ∧
    match st_fire s k with
    | None => st_fire s' k = None ∧ ∃ e, r = Throw e
    | Some f =>
        match fi_admittedChildTaskId f with
        | Some c => st_fire s' k = Some f ∧ (r = Ok (f, true) ∧ c = b_childTaskId b ∨ ∃ e, r = Throw e)
        | None => st_fire s' k = Some f ∧ (∃ e, r = Throw e) ∨
            st_fire s' k = Some (bound_fire f b) ∧ (r = Ok (bound_fire f b, false) ∨ ∃ e, r = Throw e)
        end
    end;
  law_claim i owner now ttl s s' r : st_claimLease i owner now ttl s = (s', r) →
    (∀ k, st_fire s' k = st_fire s k) ∧ (∀ j, st_getSchedule j s' = st_getSchedule j s)
}.

Record AdmissionRequestInput := {
  aq_admissionIdentity : string; aq_scheduleId : string; aq_version : string;
  aq_fireWindowKey : string; aq_fireAtUtc : string; aq_at : string
}.

Record AdmissionResult := { ad_childTaskId : string; ad_deduped : bool }.

Class AdmissionGateway (G : Type) := {
  gw_admit : AdmissionRequestInput → prog G AdmissionResult;
  gw_task : G → string → option string               (* the task minted for an identity *)
}.

(** Admission is idempotent on the identity and never re-mints. *)
Class AdmissionGatewayLaws (G : Type) `{AdmissionGateway G} := {
  law_admit q g g' r : gw_admit q g = (g', r) →
    (∀ i c, gw_task g i = Some c → gw_task g' i = Some c) ∧
    (∀ i, i ≠ aq_admissionIdentity q → gw_task g' i = gw_task g i) ∧
    ∀ a, r = Ok a → gw_task g' (aq_admissionIdentity q) = Some (ad_childTaskId a)
}.

Class DurableTimerRuntime (T : Type) := {
  tm_scheduleWake : string → string → Z → T → T;
  tm_cancelWake : string → string → T → T;
  tm_observe : T → string → list (string * Z)
}.

Class DurableTimerLaws (T : Type) `{DurableTimerRuntime T} := {
  law_schedule t i k z : (k, z) ∈ tm_observe (tm_scheduleWake i k z t) i;
  law_cancel_all t i : tm_observe (fold_left (λ t' w, tm_cancelWake i w.1 t') (tm_observe t i) t) i = [];
  law_cancel_other t i j k : i ≠ j → tm_observe (tm_cancelWake i k t) j = tm_observe t j
}.

(** ** The driver *)

Record WindowResult := { wr_childTaskId : string; wr_created : bool; wr_replay : bool }.

Record WakeResult := {
  wk_scheduleId : string; wk_gated : bool; wk_reason : string; wk_admittedChildTaskIds : list string;
  wk_replays : Z; wk_createdFires : Z; wk_nextWakeAtMs : option Z
}.

Record DriverOpts := { do_owner : string; do_productionRuntime : bool; do_leaseTtlMs : Z }.

Section driver.
Context {St G T : Type} `{ScheduleStore St} `{AdmissionGateway G} `{DurableTimerRuntime T}.
Context (wall : Z → string → Wall) (isValidTimeZone : string → bool).

(** The three services a wake works on. *)
Definition World : Type := St * G * T.

Definition on_store {A} (m : prog St A) : prog World A := λ '(s, g, t),
  let '(s', r) := m s in (s', g, t, r).
Definition on_gateway {A} (m : prog G A) : prog World A := λ '(s, g, t),
  let '(g', r) := m g in (s, g', t, r).
Definition on_timers (f : T → T) : prog World unit := λ '(s, g, t), (s, g, f t, Ok tt).

Definition runtimeSpecFrom (spec : PersistedScheduleSpec) (state : PersistedScheduleState)
  : result ScheduleSpec :=
  ScheduleSpec_parse isValidTimeZone
    {| sp_scheduleId := pss_scheduleId spec; sp_version := pss_version spec; sp_tenant := pss_tenant spec;
       sp_principal := pss_principal spec; sp_owner := pss_owner spec; sp_timezone := pss_timezone spec;
       sp_calendar := pss_calendar spec; sp_state := pst_state state;
       sp_missedRunPolicy := pss_missedRunPolicy spec; sp_maxBackfillRuns := pss_maxBackfillRuns spec;
       sp_overlapPolicy := pss_overlapPolicy spec;
       sp_perScheduleConcurrency := pss_perScheduleConcurrency spec;
       sp_nonexistentTimePolicy := pss_nonexistentTimePolicy spec;
       sp_enabledForProduction := pss_enabledForProduction spec; sp_createdAt := pss_createdAt spec |}.

Definition processWindowUnderFence (spec : ScheduleSpec) (w : FireWindow) (fence : LeaseFence)
    (atIso : string) : prog World WindowResult :=
  let idem := idempotencyKey spec (fireWindowKey w) in
  let identity := fireIdentity spec (fireWindowKey w) in
  fc ← on_store (st_createOrGetFire
    {| in_idempotencyKey := idem; in_scheduleId := sp_scheduleId spec; in_version := sp_version spec;
       in_fireWindowKey := fireWindowKey w; in_fireIdentity := identity;
       in_fireAtUtc := fireAtUtcIso w; in_createdAt := atIso |});
  match fi_admittedChildTaskId fc.1 with
  | Some c => mret {| wr_childTaskId := c; wr_created := fc.2; wr_replay := true |}
  | None =>
      adm ← on_gateway (gw_admit
        {| aq_admissionIdentity := identity; aq_scheduleId := sp_scheduleId spec;
           aq_version := sp_version spec; aq_fireWindowKey := fireWindowKey w;
           aq_fireAtUtc := fireAtUtcIso w; aq_at := atIso |});
      bound ← on_store (st_bindAdmission idem
        {| b_admissionRequestId := identity; b_childTaskId := ad_childTaskId adm; b_at := atIso |} fence);
      mret {| wr_childTaskId := default (ad_childTaskId adm) (fi_admittedChildTaskId bound.1);
              wr_created := fc.2; wr_replay := bound.2 |}
  end.

Fixpoint process_windows (spec : ScheduleSpec) (ws : list FireWindow) (fence : LeaseFence)
    (atIso : string) (admitted : list string) (replays created : Z)
  : prog World (list string * Z * Z) :=
  match ws with
  | [] => mret (admitted, replays, created)
  | w :: ws' =>
      res ← processWindowUnderFence spec w fence atIso;
      let created' := if wr_created res then created + 1 else created in
      if wr_replay res then process_windows spec ws' fence atIso admitted (replays + 1) created'
      else process_windows spec ws' fence atIso (admitted ++ [wr_childTaskId res]) replays created'
  end.

Definition gatedResult (scheduleId reason : string) : WakeResult :=
  {| wk_scheduleId := scheduleId; wk_gated := true; wk_reason := reason;
     wk_admittedChildTaskIds := []; wk_replays := 0; wk_createdFires := 0; wk_nextWakeAtMs := None |}.

Definition onWake (opts : DriverOpts) (scheduleId : string) (lastTickMs nowMs : Z) : prog World WakeResult :=
  world ← get_st;
  match st_getSchedule scheduleId world.1.1 with
  | None => mret (gatedResult scheduleId "no_such_schedule")
  | Some (state, pspec) =>
      spec ← lift_result (runtimeSpecFrom pspec state);
      let '(ok, reason) := canFire spec (do_productionRuntime opts) in
      if negb ok then
        on_timers (λ t, fold_left (λ t' w, tm_cancelWake scheduleId w.1 t') (tm_observe t scheduleId) t);;
        mret (gatedResult scheduleId reason)
      else
        lease ← on_store (st_claimLease scheduleId (do_owner opts) nowMs (do_leaseTtlMs opts));
        match lease with
        | None => mret (gatedResult scheduleId "lease_held_by_other")
        | Some l =>
            let fence := {| fence_owner := le_owner l; fence_epoch := le_epoch l |} in
            let windows := dueFireWindows wall spec lastTickMs nowMs in
            '(admitted, replays, created) ←
              process_windows spec windows fence (toISOString nowMs) [] 0 0;
            match nextWindowAfter wall spec nowMs with
            | Some next =>
                on_timers (tm_scheduleWake scheduleId (idempotencyKey spec (fireWindowKey next)) (fireAtUtcMs next));;
                mret {| wk_scheduleId := scheduleId; wk_gated := false; wk_reason := reason;
                        wk_admittedChildTaskIds := admitted; wk_replays := replays;
                        wk_createdFires := created; wk_nextWakeAtMs := Some (fireAtUtcMs next) |}
            | None =>
                mret {| wk_scheduleId := scheduleId; wk_gated := false; wk_reason := reason;
                        wk_admittedChildTaskIds := admitted; wk_replays := replays;
                        wk_createdFires := created; wk_nextWakeAtMs := None |}
            end
        end
  end.
End driver.

(** ** The driver against the laws *)

Section driver_theorems.
Context {St G T : Type} `{SS : ScheduleStore St} `{SL : !ScheduleStoreLaws St}.
Context `{GW : AdmissionGateway G} `{GL : !AdmissionGatewayLaws G}.
Context `{TM : DurableTimerRuntime T} `{TL : !DurableTimerLaws T}.
Context (wall : Z → string → Wall) (isValidTimeZone : string → bool).
Implicit Types x : World (St:=St) (G:=G) (T:=T).

Definition fire x (k : string) : option ScheduleFire := st_fire x.1.1 k.
Definition task x (i : string) : option string := gw_task x.1.2 i.
Definition schedule x (i : string) := st_getSchedule i x.1.1.

(** Every bound fire is bound to the task the gateway minted for the identity it was
    admitted under. *)
Definition authority x : Prop := ∀ k f c, fire x k = Some f → fi_admittedChildTaskId f = Some c →
  ∃ i, fi_admissionRequestId f = Some i ∧ task x i = Some c.

Definition bound_in x (k : string) (c : string) : Prop :=
  ∃ f, fire x k = Some f ∧ fi_admittedChildTaskId f = Some c.

(** What every step of the driver preserves. *)
Definition progress x x' : Prop :=
  (∀ k f c, fire x k = Some f → fi_admittedChildTaskId f = Some c → fire x' k = Some f) ∧
  (∀ i c, task x i = Some c → task x' i = Some c) ∧
  (∀ j, schedule x' j = schedule x j) ∧
  (authority x → authority x').

#[local] Instance progress_po : PreOrder progress.
Proof.
  split; [by repeat split|].
  intros x y z (A1 & A2 & A3 & A4) (B1 & B2 & B3 & B4). split_and!; [eauto|eauto| |auto].
  intros j. by rewrite B3, A3.
Qed.

Lemma bound_mono x x' k c : progress x x' → bound_in x k c → bound_in x' k c.
Proof. intros (Hf & _) (f & Hk & Hc). exists f. eauto. Qed.

(** A step that leaves fires, tasks and schedules alone. *)
Lemma progress_frame x x' :
  (∀ k, fire x' k = fire x k) → (∀ i, task x' i = task x i) → (∀ j, schedule x' j = schedule x j) →
  progress x x'.
Proof.
  intros Hf Ht Hs. split_and!; [congruence|congruence|done|].
  intros Ha k f c. rewrite Hf. intros Hk Hc. destruct (Ha k f c Hk Hc) as (i & Hi & Hti).
  exists i. by rewrite Ht.
Qed.

(** A step that changes one fire, to an unbound one or one bound with authority. *)
Lemma progress_fire x x' k :
  (∀ j, j ≠ k → fire x' j = fire x j) → (∀ i c, task x i = Some c → task x' i = Some c) →
  (∀ j, schedule x' j = schedule x j) →
  (∀ f c, fire x k = Some f → fi_admittedChildTaskId f = Some c → fire x' k = Some f) →
  (∀ f c, fire x' k = Some f → fi_admittedChildTaskId f = Some c →
     fire x k = Some f ∨ ∃ i, fi_admissionRequestId f = Some i ∧ task x' i = Some c) →
  progress x x'.
Proof.
  intros Hother Ht Hs Hk Hnew. split_and!; [|done|done|].
  - intros j f c. destruct (decide (j = k)) as [->|]; [apply Hk|by rewrite Hother].
  - intros Ha j f c Hj Hc.
    assert (Hold : fire x j = Some f ∨ ∃ i, fi_admissionRequestId f = Some i ∧ task x' i = Some c).
    { destruct (decide (j = k)) as [->|Hne]; [by apply Hnew|]. rewrite Hother in Hj by done. by left. }
    destruct Hold as [Hold|]; [|done]. destruct (Ha j f c Hold Hc) as (i & Hi & Hti). eauto.
Qed.

Definition create_input (spec : ScheduleSpec) (w : FireWindow) (at_ : string) : FireInput :=
  {| in_idempotencyKey := idempotencyKey spec (fireWindowKey w); in_scheduleId := sp_scheduleId spec;
     in_version := sp_version spec; in_fireWindowKey := fireWindowKey w;
     in_fireIdentity := fireIdentity spec (fireWindowKey w); in_fireAtUtc := fireAtUtcIso w;
     in_createdAt := at_ |}.

Lemma process_window_spec spec w fence at_ x x' r :
  processWindowUnderFence spec w fence at_ x = (x', r) →
  let k := idempotencyKey spec (fireWindowKey w) in
  progress x x' ∧ (∀ res, r = Ok res → bound_in x' k (wr_childTaskId res)) ∧
  ∀ c, bound_in x k c → x' = x ∧ ∀ res, r = Ok res → res = {| wr_childTaskId := c; wr_created := false; wr_replay := true |}.
Proof.
  intros H k. destruct x as [[s g] t]. unfold processWindowUnderFence in H. fold (create_input spec w at_) in H.
  unfold mbind at 1, prog_bind at 1, on_store at 1 in H.
  destruct (st_createOrGetFire (create_input spec w at_) s) as [s1 r1] eqn:Ec.
  destruct (law_create _ _ _ _ Ec) as (Hother & Hsch & Hcase). cbn [create_input in_idempotencyKey] in *. fold k in Hother, Hcase.
  assert (Hp1 : progress (s, g, t) (s1, g, t)).
  { apply progress_fire with (k := k); [done|done|done| |]; unfold fire; simpl.
    - intros f c Hf Hc. rewrite Hf in Hcase. by destruct Hcase as [-> _].
    - intros f c Hf Hc. destruct (st_fire s k) as [f0|] eqn:E0; [destruct Hcase as [-> _]; left; congruence|].
      destruct Hcase as [[-> _]|(f1 & Hf1 & Hn & _)]; [congruence|]. rewrite Hf in Hf1. injection Hf1 as <-. congruence. }
  destruct r1 as [[f cr]|e].
  2: { injection H as <- <-. split_and!; [done|done|]. intros c (f & Hf & _). unfold fire in Hf. simpl in Hf.
       rewrite Hf in Hcase. by destruct Hcase as [-> _]. }
  assert (Hf1 : st_fire s1 k = Some f).
  { destruct (st_fire s k) as [f0|] eqn:E0; [by destruct Hcase as [-> [[= -> ->]|[e [=]]]]|].
    by destruct Hcase as [[_ [e [=]]]|(f1 & Hf1 & _ & [[= -> ->]|[e [=]]])]. }
  assert (Hb : ∀ c, bound_in (s, g, t) k c → s1 = s ∧ fi_admittedChildTaskId f = Some c ∧ cr = false).
  { intros c (f0 & Hf0 & Hc). unfold fire in Hf0. simpl in Hf0. rewrite Hf0 in Hcase.
    by destruct Hcase as [-> [[= -> ->]|[e [=]]]]. }
  cbn [fst snd] in H. destruct (fi_admittedChildTaskId f) as [c|] eqn:Efc.
  { injection H as <- <-. split_and!; [done| |].
    - intros res [= <-]. exists f. done.
    - intros c' Hb'. destruct (Hb c' Hb') as (-> & [= ->] & ->). split; [done|]. by intros res [= <-]. }
  assert (Hnb : ∀ c, ¬ bound_in (s, g, t) k c) by (intros c Hc; destruct (Hb c Hc) as (_ & [=] & _)).
  unfold mbind at 1, prog_bind at 1, on_gateway at 1 in H.
  match type of H with context [gw_admit ?q g] => destruct (gw_admit q g) as [g1 r2] eqn:Ea end.
  destruct (law_admit _ _ _ _ Ea) as (Hmono & _ & Hminted). cbn [aq_admissionIdentity] in Hminted.
  assert (Hp2 : progress (s1, g, t) (s1, g1, t)).
  { split_and!; [done|done|done|]. intros Hau j f' c' Hj Hc'. destruct (Hau j f' c' Hj Hc') as (i & Hi & Hti).
    exists i. split; [done|]. by apply Hmono. }
  destruct r2 as [a|e].
  2: { injection H as <- <-. split_and!; [by etrans|done|]. intros c Hc. by destruct (Hnb c Hc). }
  unfold mbind at 1, prog_bind at 1, on_store at 1 in H.
  match type of H with context [st_bindAdmission ?kk ?b fence s1] =>
    change kk with k in H; set (bnd := b) in *; destruct (st_bindAdmission k bnd fence s1) as [s2 r3] eqn:Eb end.
  destruct (law_bind _ _ _ _ _ _ Eb) as (Hother2 & Hsch2 & Hcase2). rewrite Hf1, Efc in Hcase2.
  assert (Hp3 : progress (s1, g1, t) (s2, g1, t)).
  { apply progress_fire with (k := k); [done|done|done| |]; unfold fire, task; simpl.
    - intros f' c' Hf' Hc'. congruence.
    - intros f' c' Hf' Hc'. destruct Hcase2 as [[Hs2 _]|[Hs2 _]]; [left; congruence|right].
      rewrite Hs2 in Hf'. injection Hf' as <-. simpl in Hc'. injection Hc' as <-.
      eexists. split; [done|]. by apply Hminted. }
  assert (Hp : progress (s, g, t) (s2, g1, t)) by (etrans; [exact Hp1|]; etrans; [exact Hp2|exact Hp3]).
  destruct r3 as [[f2 rep]|e]; injection H as <- <-; split_and!; try done;
    try (intros c Hc; by destruct (Hnb c Hc)).
  intros res [= <-]. destruct Hcase2 as [[_ [e [=]]]|[Hs2 [[= -> ->]|[e [=]]]]]. by exists (bound_fire f bnd).
Qed.

Lemma process_windows_spec spec ws fence at_ : ∀ x x' r adm rep cr,
  process_windows spec ws fence at_ adm rep cr x = (x', r) →
  progress x x' ∧
  (is_ok r = true → Forall (λ w, ∃ c, bound_in x' (idempotencyKey spec (fireWindowKey w)) c) ws) ∧
  (Forall (λ w, ∃ c, bound_in x (idempotencyKey spec (fireWindowKey w)) c) ws →
     x' = x ∧ ∀ res, r = Ok res → res = (adm, rep + Z.of_nat (length ws), cr)).
Proof.
  induction ws as [|w ws IH]; intros x x' r adm rep cr H; cbn [process_windows] in H.
  { injection H as <- <-. split_and!; [done|constructor|]. intros _. split; [done|]. intros res [= <-]. simpl. by rewrite Z.add_0_r. }
  unfold mbind at 1, prog_bind at 1 in H.
  destruct (processWindowUnderFence spec w fence at_ x) as [x1 r1] eqn:Ew.
  destruct (process_window_spec _ _ _ _ _ _ _ Ew) as (Hp & Hbound & Hrep).
  destruct r1 as [res|e].
  2: { injection H as <- <-. split_and!; [done|done|]. intros [[c Hc] _]%Forall_cons. by destruct (Hrep c Hc) as [-> _]. }
  assert (Hrest : progress x1 x' ∧ (is_ok r = true → Forall (λ w, ∃ c, bound_in x' (idempotencyKey spec (fireWindowKey w)) c) ws)).
  { destruct (wr_replay res); apply IH in H as (? & ? & _); done. }
  destruct Hrest as [Hp' Hall]. split_and!; [by etrans| |].
  - intros Hok. constructor; [|auto]. exists (wr_childTaskId res). eapply bound_mono; [exact Hp'|]. auto.
  - intros [[c Hc] Hws]%Forall_cons. destruct (Hrep c Hc) as [-> Hres]. rewrite (Hres res eq_refl) in H. simpl in H.
    apply IH in H as (_ & _ & H). destruct (H Hws) as [-> Hr]. split; [done|]. intros v Hv. rewrite (Hr v Hv). simpl.
    by replace (rep + 1 + Z.of_nat (length ws)) with (rep + Z.of_nat (S (length ws))) by lia.
Qed.

Definition due_bound spec (lastTickMs nowMs : Z) x : Prop :=
  Forall (λ w, ∃ c, bound_in x (idempotencyKey spec (fireWindowKey w)) c) (dueFireWindows wall spec lastTickMs nowMs).

(** A wake by cases: it ends early without touching fires, fails on the way, or has
    bound every due window and armed the next one. *)
Lemma onWake_cases opts i last now x x' r :
  onWake wall isValidTimeZone opts i last now x = (x', r) →
  progress x x' ∧
  match r with
  | Throw _ => True
  | Ok k =>
      wk_scheduleId k = i ∧
      if wk_gated k then
        k = gatedResult i (wk_reason k) ∧ (∀ j, fire x' j = fire x j) ∧ (∀ j, task x' j = task x j)
      else ∃ state pspec spec,
        schedule x i = Some (state, pspec) ∧ runtimeSpecFrom isValidTimeZone pspec state = Ok spec ∧
        (canFire spec (do_productionRuntime opts)).1 = true ∧
        due_bound spec last now x' ∧
        wk_nextWakeAtMs k = fireAtUtcMs <$> nextWindowAfter wall spec now ∧
        (∀ w, nextWindowAfter wall spec now = Some w →
           (idempotencyKey spec (fireWindowKey w), fireAtUtcMs w) ∈ tm_observe x'.2 i) ∧
        (due_bound spec last now x →
           wk_createdFires k = 0 ∧ wk_admittedChildTaskIds k = [] ∧
           wk_replays k = Z.of_nat (length (dueFireWindows wall spec last now)) ∧
           (∀ j, fire x' j = fire x j) ∧ (∀ j, task x' j = task x j))
  end.
Proof.
  intros Hrun. destruct x as [[s g] t]. unfold onWake in Hrun.
  unfold mbind at 1, prog_bind at 1, get_st at 1 in Hrun. cbn [fst snd] in Hrun.
  destruct (st_getSchedule i s) as [[state pspec]|] eqn:Es; [|by injection Hrun as <- <-].
  unfold mbind at 1, prog_bind at 1, lift_result at 1 in Hrun.
  destruct (runtimeSpecFrom isValidTimeZone pspec state) as [spec|e] eqn:Er; [|by injection Hrun as <- <-].
  destruct (canFire spec _) as [ok reason] eqn:Ef. destruct ok; cbn [negb] in Hrun.
  2: { injection Hrun as <- <-. split; [by apply progress_frame|done]. }
  unfold mbind at 1, prog_bind at 1, on_store at 1 in Hrun.
  destruct (st_claimLease i _ now _ s) as [s1 rl] eqn:El.
  destruct (law_claim _ _ _ _ _ _ _ El) as [Hf Hsch].
  assert (Hp : progress (s, g, t) (s1, g, t)) by by apply progress_frame.
  destruct rl as [[l|]|e]; [|by injection Hrun as <- <-|by injection Hrun as <- <-].
  unfold mbind at 1, prog_bind at 1 in Hrun.
  match type of Hrun with context [process_windows spec ?ws ?fn ?a [] 0 0 ?y] =>
    destruct (process_windows spec ws fn a [] 0 0 y) as [x2 rw] eqn:Ew end.
  destruct (process_windows_spec _ _ _ _ _ _ _ _ _ _ Ew) as (Hp2 & Hall & Hrep).
  destruct rw as [[[adm rep] cr]|e]; [|injection Hrun as <- <-; split; [by etrans|done]].
  assert (Hp3 : progress (s, g, t) x2) by by etrans.
  specialize (Hall eq_refl).
  assert (Hrep' : due_bound spec last now (s, g, t) →
    x2 = (s1, g, t) ∧ cr = 0 ∧ adm = [] ∧ rep = Z.of_nat (length (dueFireWindows wall spec last now))).
  { intros Hd. destruct Hrep as [-> Hr]; [|by injection (Hr _ eq_refl) as -> -> ->].
    eapply Forall_impl; [exact Hd|]. intros w [c Hc]. exists c. by eapply bound_mono. }
  destruct x2 as [[s2 g2] t2].
  destruct (nextWindowAfter wall spec now) as [next|] eqn:En; injection Hrun as <- <-;
    (split; [try (etrans; [exact Hp3|]; by apply progress_frame); exact Hp3|]);
    (split; [done|]); exists state, pspec, spec; cbn [wk_nextWakeAtMs wk_createdFires wk_admittedChildTaskIds wk_replays];
    (split_and!; [done|done|by rewrite Ef|exact Hall|by rewrite En| |]); rewrite ?En.
  - intros w [= <-]. apply law_schedule.
  - intros Hd. destruct (Hrep' Hd) as ([= -> -> ->] & -> & -> & ->). done.
  - done.
  - intros Hd. destruct (Hrep' Hd) as ([= -> -> ->] & -> & -> & ->). done.
Qed.

(** A sequence of wakes, of any schedules, by any drivers, in any order, over any
    intervals: overlapping, repeated or out of order. *)
Definition wake : Type := DriverOpts * string * Z * Z.
Definition run_wakes (ws : list wake) x : World :=
  fold_left (λ y '(o, i, last, now), (onWake wall isValidTimeZone o i last now y).1) ws x.

Lemma run_wakes_progress ws x : progress x (run_wakes ws x).
Proof.
  revert x. induction ws as [|[[[o i] last] now] ws IH]; intros x; [done|]. simpl.
  etrans; [|apply IH]. destruct (onWake _ _ o i last now x) as [x' r] eqn:Er.
  by apply onWake_cases in Er as [].
Qed.

(** C24: the scheduler never mints and never rebinds.  Over any sequence of wakes, whether
    they return or throw, from a world where every bound fire carries the task the
    admission gateway minted for the identity it was admitted under: that stays
    true of every fire, a bound fire keeps its record, and an identity keeps its
    task. *)
Theorem wakes_bind_only_minted ws x :
  authority x →
  authority (run_wakes ws x) ∧
  (∀ k f c, fire x k = Some f → fi_admittedChildTaskId f = Some c → fire (run_wakes ws x) k = Some f) ∧
  (∀ i c, task x i = Some c → task (run_wakes ws x) i = Some c).
Proof. intros Ha. destruct (run_wakes_progress ws x) as (Hf & Ht & _ & Hau). auto. Qed.

(** Replaying a wake is harmless.  A wake that returned without being gated has bound
    a child task to every window due in its interval; whatever wakes run in between,
    a later wake over the same interval creates no fire, admits no task, reports
    one replay per window, and leaves every fire and every minted task as they were. *)
Theorem wake_replay_idempotent opts opts2 i last now x x1 x2 x3 k k2 ws :
  onWake wall isValidTimeZone opts i last now x = (x1, Ok k) → wk_gated k = false →
  run_wakes ws x1 = x2 →
  onWake wall isValidTimeZone opts2 i last now x2 = (x3, Ok k2) → wk_gated k2 = false →
  ∃ spec, due_bound spec last now x1 ∧
    wk_createdFires k2 = 0 ∧ wk_admittedChildTaskIds k2 = [] ∧
    wk_replays k2 = Z.of_nat (length (dueFireWindows wall spec last now)) ∧
    (∀ j, fire x3 j = fire x2 j) ∧ (∀ j, task x3 j = task x2 j).
Proof.
  intros H1 Hg1 <- H2 Hg2. pose proof (run_wakes_progress ws x1) as Hpw.
  apply onWake_cases in H1 as (Hp & _ & Hk). rewrite Hg1 in Hk.
  destruct Hk as (st & ps & spec & Hs & Hspec & _ & Hdue & _).
  apply onWake_cases in H2 as (_ & _ & Hk2). rewrite Hg2 in Hk2.
  destruct Hk2 as (st2 & ps2 & spec2 & Hs2 & Hspec2 & _ & _ & _ & _ & Hrep).
  assert (Hsame : schedule (run_wakes ws x1) i = schedule x i).
  { pose proof Hp as (_ & _ & E1 & _). pose proof Hpw as (_ & _ & E2 & _). by rewrite E2, E1. }
  rewrite Hsame, Hs in Hs2. injection Hs2 as <- <-. rewrite Hspec in Hspec2. injection Hspec2 as <-.
  exists spec. split; [done|]. apply Hrep. eapply Forall_impl; [exact Hdue|].
  intros w [c Hc]. exists c. by eapply bound_mono.
Qed.

(** A stopped schedule starts nothing and forgets its timers.  A wake of a schedule
    that is paused, disabled, or not enabled for production under a production
    runtime is gated with the reason, changes no fire and no task, arms nothing,
    and leaves no timer outstanding, so that no old wake survives the stop; the
    timers of other schedules stay. *)
Theorem stopped_wake_clears_timers opts i last now x state pspec spec :
  schedule x i = Some (state, pspec) → runtimeSpecFrom isValidTimeZone pspec state = Ok spec →
  (canFire spec (do_productionRuntime opts)).1 = false →
  let '(x', r) := onWake wall isValidTimeZone opts i last now x in
  r = Ok (gatedResult i (canFire spec (do_productionRuntime opts)).2) ∧ x'.1 = x.1 ∧
  tm_observe x'.2 i = [] ∧ ∀ j, i ≠ j → tm_observe x'.2 j = tm_observe x.2 j.
Proof.
  intros Hs Hspec Hf. destruct x as [[s g] t]. unfold schedule in Hs. cbn [fst] in Hs. unfold onWake.
  unfold mbind at 1, prog_bind at 1, get_st at 1. cbn [fst snd]. rewrite Hs.
  unfold mbind at 1, prog_bind at 1, lift_result at 1. rewrite Hspec.
  destruct (canFire spec _) as [ok reason]. cbn [fst snd] in Hf |- *. subst ok.
  cbn [negb mbind prog_bind on_timers mret prog_ret fst snd]. split_and!; [done|done|apply law_cancel_all|].
  intros j Hj. cbn [snd]. generalize (tm_observe t i) as ws. intros ws. revert t Hs.
  induction ws as [|w ws IH]; intros t Hs; [done|]. simpl. rewrite IH by done. by apply law_cancel_other.
Qed.

(** A wake re-arms the schedule.  A wake that returned without being gated reports as
    next wake the first window after now, which lies strictly in the future, and
    the timer runtime holds it under that window's idempotency key; if there is no
    such window it reports none. *)
Theorem wake_rearms opts i last now x x' k :
  onWake wall isValidTimeZone opts i last now x = (x', Ok k) → wk_gated k = false →
  ∃ state pspec spec,
    schedule x i = Some (state, pspec) ∧ runtimeSpecFrom isValidTimeZone pspec state = Ok spec ∧
    match nextWindowAfter wall spec now with
    | Some w => wk_nextWakeAtMs k = Some (fireAtUtcMs w) ∧ now < fireAtUtcMs w ∧
        (idempotencyKey spec (fireWindowKey w), fireAtUtcMs w) ∈ tm_observe x'.2 i
    | None => wk_nextWakeAtMs k = None
    end.
Proof.
  intros Hrun Hg. apply onWake_cases in Hrun as (_ & _ & Hk). rewrite Hg in Hk.
  destruct Hk as (st & ps & spec & Hs & Hspec & _ & _ & Hnext & Harm & _).
  exists st, ps, spec. split_and!; [done|done|].
  destruct (nextWindowAfter wall spec now) as [w|] eqn:En; [|done].
  split_and!; [done| |by apply Harm]. unfold nextWindowAfter in En.
  assert (Hw : w ∈ dueFireWindows wall spec (now + 1) (now + 1 + horizonMs (sp_calendar spec))).
  { destruct (dueFireWindows _ _ _ _); [done|]. injection En as ->. apply list_elem_of_here. }
  apply dueFireWindows_range in Hw; [lia|].
  unfold runtimeSpecFrom, ScheduleSpec_parse, ok_or in Hspec.
  repeat apply ensure_ok in Hspec as [? Hspec]. apply Ok_inj in Hspec as <-. done.
Qed.
End driver_theorems.

(** ** The in-memory implementations *)

(** [InMemoryDurableTimerRuntime]: schedule id to wake key to instant. *)
Definition Wakes : Type := list (string * list (string * Z)).

Definition scheduleWake (scheduleId wakeKey : string) (fireAtUtcMs : Z) (wakes : Wakes) : Wakes :=
  map_set wakes scheduleId (map_set (default [] (map_get wakes scheduleId)) wakeKey fireAtUtcMs).
Definition cancelWake (scheduleId wakeKey : string) (wakes : Wakes) : Wakes :=
  match map_get wakes scheduleId with
  | Some m => map_set wakes scheduleId (map_delete m wakeKey)
  | None => wakes
  end.
Definition observe (wakes : Wakes) (scheduleId : string) : list (string * Z) :=
  default [] (map_get wakes scheduleId).

#[export] Instance InMemoryDurableTimerRuntime : DurableTimerRuntime Wakes :=
  {| tm_scheduleWake := scheduleWake; tm_cancelWake := cancelWake; tm_observe := observe |}.

Lemma observe_cancel wakes i k j :
  observe (cancelWake i k wakes) j = if decide (i = j) then map_delete (observe wakes i) k else observe wakes j.
Proof.
  unfold observe, cancelWake. destruct (map_get wakes i) as [m|] eqn:E.
  - rewrite map_get_set. case_decide; subst; [by rewrite bool_decide_true|by rewrite bool_decide_false].
  - case_decide; subst; [by rewrite E|done].
Qed.

#[export] Instance InMemoryDurableTimerLaws : DurableTimerLaws Wakes.
Proof.
  split; simpl.
  - intros t i k z. unfold observe, scheduleWake. rewrite map_get_set_eq. simpl. by apply map_get_elem, map_get_set_eq.
  - intros t i. remember (observe t i) as ws eqn:E. symmetry in E. revert t E.
    induction ws as [|[k z] ws IH]; intros t E; simpl; [done|].
    apply IH. rewrite observe_cancel, decide_True, E by done. simpl. by rewrite bool_decide_true.
  - intros t i j k Hij. by rewrite observe_cancel, decide_False by done.
Qed.

(** [InMemoryAdmissionGateway]; [uuid n] is the n-th [randomUUID()]. *)
Record Gateway := { gw_minted : list (string * string); gw_admitCallCount : nat; gw_uuids : nat }.

Section gateway.
Context (uuid : nat → string) (uuid_nonempty : ∀ n, uuid n ≠ EmptyString).

(** [if (existing)] is [truthy]. *)
Definition gateway_admit (q : AdmissionRequestInput) : prog Gateway AdmissionResult := λ g,
  match truthy (map_get (gw_minted g) (aq_admissionIdentity q)) with
  | Some existing =>
      ({| gw_minted := gw_minted g; gw_admitCallCount := S (gw_admitCallCount g); gw_uuids := gw_uuids g |},
       Ok {| ad_childTaskId := existing; ad_deduped := true |})
  | None =>
      let childTaskId := uuid (gw_uuids g) in
      ({| gw_minted := map_set (gw_minted g) (aq_admissionIdentity q) childTaskId;
          gw_admitCallCount := S (gw_admitCallCount g); gw_uuids := S (gw_uuids g) |},
       Ok {| ad_childTaskId := childTaskId; ad_deduped := false |})
  end.

Definition InMemoryAdmissionGateway : AdmissionGateway Gateway :=
  {| gw_admit := gateway_admit; gw_task := λ g i, truthy (map_get (gw_minted g) i) |}.

Lemma InMemoryAdmissionGatewayLaws : @AdmissionGatewayLaws Gateway InMemoryAdmissionGateway.
Proof using uuid_nonempty.
  split. simpl. intros q g g' r. unfold gateway_admit.
  destruct (truthy (map_get (gw_minted g) (aq_admissionIdentity q))) as [c|] eqn:Et; intros [= <- <-]; simpl.
  - split_and!; [done|done|]. by intros a [= <-].
  - split_and!.
    + intros i c Hc. rewrite map_get_set_ne; [done|]. intros <-. congruence.
    + intros i Hi. by rewrite map_get_set_ne.
    + intros a [= <-]. rewrite map_get_set_eq. simpl. by rewrite decide_False by apply uuid_nonempty.
Qed.

(** [InMemoryScheduleStore] as the driver's store. *)
Definition InMemoryScheduleStore : ScheduleStore Store :=
  {| st_getSchedule := getSchedule; st_createOrGetFire := createOrGetFire;
     st_bindAdmission := bindAdmission uuid; st_claimLease := claimLease uuid;
     st_fire := λ s k, map_get (s_fires s) k |}.

Definition same_schedules (s s' : Store) : Prop := s_specs s' = s_specs s ∧ s_states s' = s_states s.

Lemma same_schedules_get s s' j : same_schedules s s' → getSchedule j s' = getSchedule j s.
Proof. unfold getSchedule. by intros [-> ->]. Qed.

Lemma bind_schedules key b fence s : same_schedules s (bindImpl uuid key b fence s).1.
Proof.
  unfold bindImpl, next_uuid, recordObservation, mbind, prog_bind, get_st, put_st, mret, prog_ret, lift_result, throw_st.
  destruct (map_get (s_fires s) key) as [fire|]; [|done]. rewrite assertFence_eq.
  destruct (match fence with Some f => _ | None => _ end); [|done].
  destruct (fi_admittedChildTaskId fire); [case_bool_decide; [done|]|];
    [destruct (ScheduleObservation_parse _)|destruct (ScheduleFire_parse _)]; done.
Qed.

Lemma claim_schedules i owner now ttl s : same_schedules s (claimLease uuid i owner now ttl s).1.
Proof.
  unfold claimLease, next_uuid, recordObservation, mbind, prog_bind, get_st, put_st, mret, prog_ret, lift_result.
  destruct (match map_get _ _ with Some c => _ | None => _ end); [done|].
  destruct (ScheduleLease_parse _); [|done]. destruct (map_get _ _) as [c|]; [|done].
  destruct (lease_dead c now && _); [|done]. by destruct (ScheduleObservation_parse _).
Qed.

(** The in-memory store keeps the store's promises. *)
Lemma InMemoryScheduleStoreLaws : @ScheduleStoreLaws Store InMemoryScheduleStore.
Proof.
  split; simpl.
  - intros i s s' r E. pose proof (createOrGetFire_cases i s) as H. rewrite E in H.
    destruct (map_get (s_fires s) _) as [f|]; [destruct H as [-> ->]; split_and!; auto|].
    destruct H as [[-> [e ->]]|(f & -> & -> & _ & _ & _ & _ & _ & _ & Hn & _)]; [split_and!; eauto|].
    split_and!; [|done|].
    + intros k Hk. by apply map_get_set_ne.
    + right. exists f. split_and!; [apply map_get_set_eq|done|by left].
  - intros k b fence s s' r E. pose proof (bindImpl_cases uuid k b (Some fence) s) as H.
    pose proof (bind_schedules k b (Some fence) s) as Hs. unfold bindAdmission in E. rewrite E in H, Hs.
    split_and!; [|intros j; by apply same_schedules_get|]; destruct H as (_ & _ & H).
    + intros j Hj. destruct (map_get (s_fires s) k) as [f|]; [|by destruct H as [-> _]].
      destruct (assertFence _ _ s).2; [|by destruct H as [-> _]].
      destruct (fi_admittedChildTaskId f); [by destruct H as [-> _]|].
      destruct H as [(? & -> & _)|[-> _]]; [done|]. by apply map_get_set_ne.
    + destruct (map_get (s_fires s) k) as [f|] eqn:Ek; [|destruct H as [-> ->]; eauto].
      destruct (assertFence _ _ s).2; [|destruct H as [-> ->]; destruct (fi_admittedChildTaskId f); eauto 6].
      destruct (fi_admittedChildTaskId f) as [c|].
      * destruct H as [-> H]. split; [done|]. case_decide; [left|right; done]. by destruct H as [_ ->].
      * destruct H as [(e & -> & ->)|[-> ->]]; [left; eauto|right]. split; [apply map_get_set_eq|by left].
  - intros i owner now ttl s s' r E. pose proof (claimLease_cases uuid i owner now ttl s) as H.
    pose proof (claim_schedules i owner now ttl s) as Hs. rewrite E in H, Hs.
    destruct H as (Hf & _). split; intros j; [by rewrite Hf|by apply same_schedules_get].
Qed.
End gateway.

(** ** A concrete run *)

Definition sample_pspec : PersistedScheduleSpec :=
  {| pss_scheduleId := sample_id 20; pss_version := "1"; pss_tenant := sample_id 3;
     pss_principal := {| principal_id := sample_id 2; principal_kind := HUMAN |};
     pss_owner := {| principal_id := sample_id 2; principal_kind := HUMAN |};
     pss_name := "quarter-hourly"; pss_timezone := "America/New_York"; pss_calendar := everyNMinutes 15;
     pss_missedRunPolicy := MR_SKIP; pss_overlapPolicy := OV_FORBID; pss_nonexistentTimePolicy := NE_SKIP;
     pss_maxBackfillRuns := 0; pss_perScheduleConcurrency := 1; pss_enabledForProduction := true;
     pss_createdAt := "2026-09-15T16:00:00.000Z"; pss_createdBy := sample_id 2 |}.

Definition sample_pstate (st : ScheduleState) : PersistedScheduleState :=
  {| pst_scheduleId := sample_id 20; pst_state := st; pst_activeVersion := "1";
     pst_updatedAt := "2026-09-15T16:00:00.000Z"; pst_updatedBy := sample_id 2 |}.

Lemma sample_uuid_nonempty n : sample_uuid n ≠ EmptyString.
Proof. done. Qed.

#[local] Instance sample_store : ScheduleStore Store := InMemoryScheduleStore sample_uuid.
#[local] Instance sample_store_laws : ScheduleStoreLaws Store := InMemoryScheduleStoreLaws sample_uuid.
#[local] Instance sample_gateway : AdmissionGateway Gateway := InMemoryAdmissionGateway sample_uuid.
#[local] Instance sample_gateway_laws : AdmissionGatewayLaws Gateway :=
  InMemoryAdmissionGatewayLaws sample_uuid sample_uuid_nonempty.

(** One quarter-hourly schedule, with a stale timer outstanding. *)
Definition sample_world (st : ScheduleState) : World :=
  (run_op sample_uuid (Op_setState (sample_pstate st))
     (run_op sample_uuid (Op_upsertSpecVersion sample_pspec) empty_store),
   {| gw_minted := []; gw_admitCallCount := 0; gw_uuids := 0 |}, [(sample_id 20, [("old", 0)])]).

Definition sample_opts : DriverOpts := {| do_owner := "A"; do_productionRuntime := true; do_leaseTtlMs := 60000 |}.

(** A wake over half an hour: two windows are due. *)
Definition sample_wake : prog World WakeResult :=
  onWake new_york (λ _, true) sample_opts (sample_id 20) 1789488000000 1789489800000.

Definition sample_outcome (r : result WakeResult) : option (bool * Z * Z * nat * option Z) :=
  match r with
  | Ok k => Some (wk_gated k, wk_createdFires k, wk_replays k, length (wk_admittedChildTaskIds k), wk_nextWakeAtMs k)
  | Throw _ => None
  end.

Definition world1 : World := (sample_wake (sample_world enabled)).1.
Definition world2 : World := (sample_wake world1).1.

Lemma sample_outcomes :
  sample_outcome (sample_wake (sample_world enabled)).2 = Some (false, 2, 0, 2%nat, Some 1789490700000) ∧
  sample_outcome (sample_wake world1).2 = Some (false, 0, 2, 0%nat, Some 1789490700000).
Proof. split; vm_compute; reflexivity. Qed.

Lemma sample_wake_ok x o :
  sample_outcome (sample_wake x).2 = Some o → ∃ k, sample_wake x = ((sample_wake x).1, Ok k) ∧
    sample_outcome (Ok k) = Some o.
Proof. destruct (sample_wake x) as [x' [k|e]]; [|done]. intros H. by exists k. Qed.

Lemma wakes_bind_only_minted_witness :
  authority (sample_world enabled) ∧
  authority (run_wakes new_york (λ _, true) [(sample_opts, sample_id 20, 1789488000000, 1789489800000)]
    (sample_world enabled)).
Proof.
  assert (H : authority (sample_world enabled)).
  { intros k f c Hf. assert (Hn : fire (sample_world enabled) k = None) by (vm_compute; reflexivity).
    rewrite Hn in Hf. discriminate Hf. }
  split; [exact H|].
  exact (proj1 (wakes_bind_only_minted new_york (λ _, true)
    [(sample_opts, sample_id 20, 1789488000000, 1789489800000)] (sample_world enabled) H)).
Defined.

Lemma wake_replay_idempotent_witness : ∃ k,
  sample_wake world1 = (world2, Ok k) ∧ wk_createdFires k = 0 ∧ ∀ j, task world2 j = task world1 j.
Proof.
  assert (Hgen : ∀ x x1 x2 k1 k2, sample_wake x = (x1, Ok k1) → wk_gated k1 = false →
    sample_wake x1 = (x2, Ok k2) → wk_gated k2 = false → wk_createdFires k2 = 0 ∧ ∀ j, task x2 j = task x1 j).
  { intros x x1 x2 k1 k2 E1 G1 E2 G2.
    destruct (wake_replay_idempotent new_york (λ _, true) sample_opts sample_opts (sample_id 20) 1789488000000
      1789489800000 x x1 x1 x2 k1 k2 [] E1 G1 eq_refl E2 G2) as (spec & _ & Hc & _ & _ & _ & Ht).
    split; [exact Hc|exact Ht]. }
  destruct sample_outcomes as [H1 H2].
  destruct (sample_wake_ok _ _ H1) as (k1 & E1 & O1), (sample_wake_ok _ _ H2) as (k2 & E2 & O2).
  injection O1 as G1 _ _ _ _. injection O2 as G2 _ _ _ _.
  exists k2. split; [exact E2|]. exact (Hgen (sample_world enabled) world1 world2 k1 k2 E1 G1 E2 G2).
Defined.

Lemma stopped_wake_clears_timers_witness :
  observe (sample_world paused).2 (sample_id 20) = [("old", 0)] ∧
  observe (sample_wake (sample_world paused)).1.2 (sample_id 20) = [].
Proof.
  split; [reflexivity|].
  assert (H : ∃ a b c, schedule (sample_world paused) (sample_id 20) = Some (a, b) ∧
    runtimeSpecFrom (λ _, true) b a = Ok c ∧ (canFire c (do_productionRuntime sample_opts)).1 = false).
  { do 3 eexists. split; [vm_compute; reflexivity|]. split; vm_compute; reflexivity. }
  destruct H as (a & b & c & Ha & Hb & Hc).
  pose proof (stopped_wake_clears_timers new_york (λ _, true) sample_opts (sample_id 20) 1789488000000
    1789489800000 (sample_world paused) a b c Ha Hb Hc) as H.
  unfold sample_wake. destruct (onWake _ _ _ _ _ _ _) as [x' r]. destruct H as (_ & _ & Hobs & _). exact Hobs.
Defined.

Lemma wake_rearms_witness : ∃ k z, sample_wake (sample_world enabled) = (world1, Ok k) ∧
  wk_nextWakeAtMs k = Some z ∧ 1789489800000 < z.
Proof.
  assert (Hgen : ∀ x x1 k z, sample_wake x = (x1, Ok k) → wk_gated k = false → wk_nextWakeAtMs k = Some z →
    1789489800000 < z).
  { intros x x1 k z E G N.
    destruct (wake_rearms new_york (λ _, true) sample_opts (sample_id 20) 1789488000000 1789489800000
      x x1 k E G) as (a & b & c & _ & _ & Hw).
    destruct (nextWindowAfter new_york c 1789489800000) as [w|].
    - destruct Hw as (Hn & Hlt & _). rewrite N in Hn. injection Hn as ->. exact Hlt.
    - rewrite N in Hw. discriminate Hw. }
  destruct sample_outcomes as [H1 _].
  destruct (sample_wake_ok _ _ H1) as (k & E & O). injection O as G _ _ _ N.
  exists k, 1789490700000. split; [exact E|]. split; [exact N|]. exact (Hgen _ _ _ _ E G N).
Defined.
