(* ===== verification/Health.v ===== *)
(** * The health model (services/kernel/src/health: types, snapshot, aggregate, evaluate, report, run)

    Evaluation is pure in the source: a snapshot and explicit expectations give the
    checks of eleven domains, a domain's status is the worst of its checks and the
    overall status the worst of the domains.  Collection (collect.ts: SQL and HTTP)
    is not modelled; its results are the snapshot records.  [Date.parse] gives [None]
    for NaN, whose comparisons are false.  The theorems: a HEALTHY report means every
    check of every domain was made and passed, a source that could not be observed
    is never HEALTHY, and the statuses every check can take. *)

From S2P Require Import Prelude JsNumber JsDate Digest Contracts Plan Capability Schedule.
Local Open Scope Z_scope.
Local Open Scope js_scope.

(** ** types.ts *)

Inductive HealthStatus := HEALTHY | DEGRADED | CRITICAL | UNKNOWN.

#[export] Instance HealthStatus_eq_dec : EqDecision HealthStatus.
Proof. solve_decision. Defined.

Definition SEVERITY (s : HealthStatus) : Z :=
  match s with HEALTHY => 0 | UNKNOWN => 1 | DEGRADED => 2 | CRITICAL => 3 end.

Definition worseOf (a b : HealthStatus) : HealthStatus := if SEVERITY a <? SEVERITY b then b else a.

Definition status_text (s : HealthStatus) : string :=
  match s with
  | HEALTHY => "HEALTHY" | DEGRADED => "DEGRADED" | CRITICAL => "CRITICAL" | UNKNOWN => "UNKNOWN"
  end.

Record CheckResult := {
  ch_id : string; ch_status : HealthStatus; ch_observed : option json; ch_expected : option json;
  ch_evidence : string; ch_message : string; ch_checkedAt : string
}.

Record DomainResult := { dr_status : HealthStatus; dr_checks : list CheckResult }.

(** The keys of [HealthReport.domains], in the order run.ts builds them. *)
Inductive DomainName :=
  | D_authority | D_admission | D_scheduler | D_execution | D_restate | D_database | D_evidence
  | D_releaseParity | D_productionConfig | D_legacyAuthority | D_identity.

#[export] Instance DomainName_eq_dec : EqDecision DomainName.
Proof. solve_decision. Defined.

Record HealthReport := {
  hr_overall : HealthStatus; hr_checkedAt : string; hr_release : option string;
  hr_domains : list (DomainName * DomainResult);
  hr_criticalIssues : Z; hr_degradedIssues : Z; hr_unknownChecks : Z;
  hr_lastFireAtUtc : option string; hr_nextWakeAtUtc : option string
}.

(** A collected value, or the reason it could not be collected ([isUnavailable]). *)
Inductive collected (A : Type) : Type :=
  | Collected (a : A)
  | Unavailable (reason : string).
Arguments Collected {_} _.
Arguments Unavailable {_} _.

(** ** aggregate.ts *)

Definition aggregateDomain (checks : list CheckResult) : DomainResult :=
  match checks with
  | [] => {| dr_status := UNKNOWN; dr_checks := checks |}
  | _ => {| dr_status := fold_left (λ acc c, worseOf acc (ch_status c)) checks HEALTHY; dr_checks := checks |}
  end.

Definition aggregateOverall (domains : list (DomainName * DomainResult)) : HealthStatus :=
  match map (dr_status ∘ snd) domains with
  | [] => UNKNOWN
  | statuses => fold_left worseOf statuses HEALTHY
  end.

Definition count_status (s : HealthStatus) (checks : list CheckResult) : Z :=
  Z.of_nat (length (List.filter (λ c, ch_status c === s) checks)).

(** [countByStatus]: critical, degraded, unknown *)
Definition countByStatus (domains : list (DomainName * DomainResult)) : Z * Z * Z :=
  let checks := concat (map (dr_checks ∘ snd) domains) in
  (count_status CRITICAL checks, count_status DEGRADED checks, count_status UNKNOWN checks).

(** ** snapshot.ts *)

Record HealthExpectations := {
  ex_scheduleId : string; ex_scheduleState : string; ex_activeVersion : option string;
  ex_recipe : string; ex_approvedDigestSha256 : option string; ex_armNext : bool;
  ex_releaseId : option string; ex_services : list string;
  ex_fireStalenessGraceMs : option Z; ex_plannedFireGraceMs : option Z;
  ex_stuckWakeGraceMs : option Z; ex_identityBootstrapGraceMs : option Z
}.

Record ScheduleStateRow := {
  ss_scheduleId : string; ss_state : string; ss_activeVersion : string; ss_updatedAt : string
}.

Record ScheduleFireRow := {
  fr_scheduleId : string; fr_scheduleVersion : string; fr_fireWindowKey : string; fr_fireAtUtc : string;
  fr_state : string; fr_admittedChildTaskId : option string; fr_createdAt : string
}.

Record BindingProvenance := {
  bp_activeEpoch : string; bp_activeReleaseId : option string; bp_currentBindingCount : Z;
  bp_mismatchedBindingCount : Z; bp_missingProvenanceCount : Z; bp_legacyBindingCount : Z
}.

Record RestateInvocationRow := {
  ri_id : string; ri_status : string; ri_scheduledStartAt : option string; ri_invokedById : option string;
  ri_createdAt : string; ri_completedAt : option string
}.

Record HealthEvidenceRow := {
  her_id : string; her_taskId : string; her_type : string; her_source : string; her_digest : option string;
  her_capturedAt : string; her_metadata : list (string * json)
}.

Record SchedulerSnapshot := {
  sn_sched_dbReachable : bool; sn_scheduleState : option ScheduleStateRow; sn_recipe : option string;
  sn_fires : list ScheduleFireRow; sn_restateInvocations : collected (list RestateInvocationRow)
}.

Record AuthoritySnapshot := {
  sn_auth_dbReachable : bool; sn_auth_bindingProvenance : option BindingProvenance;
  sn_admittedFireTaskIdsMissingAdmission : list string;
  sn_admittedFireTaskIdsUnmaterialised : list string; sn_auth_boundReleaseRejectionSeen : bool
}.

Record AdmissionSnapshot := {
  sn_adm_dbReachable : bool; sn_doorHealthy : collected bool; sn_humanOperatorPresent : bool
}.

Record ExecutionSnapshot := {
  sn_exec_registeredServices : collected (list string); sn_workerRestartCount : collected Z;
  sn_doorRestartCount : collected Z
}.

Record RestateSnapshot := {
  sn_rst_reachable : collected bool; sn_rst_registeredServices : collected (list string);
  sn_scheduleInvocations : collected (list RestateInvocationRow)
}.

Record DatabaseSnapshot := { sn_db_reachable : bool; sn_scheduleReadOk : bool; sn_taskReadOk : bool }.

Record EvidenceSnapshot := {
  sn_ev_dbReachable : bool; sn_mostRecentScheduledTaskId : option string;
  sn_evidenceForTask : list HealthEvidenceRow
}.

Record ReleaseParitySnapshot := {
  sn_rel_dbReachable : bool; sn_selfReportedReleaseId : option string;
  sn_rel_bindingProvenance : option BindingProvenance; sn_rel_boundReleaseRejectionSeen : bool
}.

Record ProductionConfigSnapshot := {
  sn_armNext : option bool; sn_approvedDigestShapeValid : option bool;
  sn_scheduleIdConfigured : option string; sn_recipeConfigured : option string
}.

Record LegacyAuthoritySnapshot := { sn_b1FreezeObservable : collected bool }.

Record IdentityOrphanRow := { or_taskId : string; or_ageMs : Z }.
Record IncompleteBootstrapRow := { ib_identityId : string; ib_tenantId : string; ib_ageMs : Z }.

Record IdentityCognitionSnapshot := {
  ic_digestParityFailures : list string; ic_tenantsWithMultipleCurrent : list string;
  ic_headCurrentMismatches : list string; ic_contractActive : bool; ic_requiredLatches : Z;
  ic_unboundRequired : list (string * string * string);      (* taskId, stepId, reason *)
  ic_contractRuntimeRecords : Z;
  ic_isolationViolations : list (string * string)            (* taskId, reason *)
}.

Record IdentitySnapshot := {
  sn_id_dbReachable : bool; sn_completedTasksMissingActivation : list IdentityOrphanRow;
  sn_profilesWithoutCurrentIdentity : list IncompleteBootstrapRow;
  sn_cognition : collected IdentityCognitionSnapshot
}.

Record HealthSnapshot := {
  hs_checkedAt : string; hs_scheduler : SchedulerSnapshot; hs_authority : AuthoritySnapshot;
  hs_admission : AdmissionSnapshot; hs_execution : ExecutionSnapshot; hs_restate : RestateSnapshot;
  hs_database : DatabaseSnapshot; hs_evidence : EvidenceSnapshot; hs_releaseParity : ReleaseParitySnapshot;
  hs_productionConfig : ProductionConfigSnapshot; hs_legacyAuthority : LegacyAuthoritySnapshot;
  hs_identity : IdentitySnapshot
}.

(** ** release-provenance.ts *)

Definition bindingProvenanceVerdict (p : option BindingProvenance) (expectedRelease : option string)
  : HealthStatus * string :=
  match p with
  | Some p =>
      match truthy (bp_activeReleaseId p) with
      | Some active =>
          if bp_activeEpoch p === "0" then
            (UNKNOWN, "NO_PROVENANCE: canonical release activation unavailable; transition qualification blocked")
          else if (0 <? bp_mismatchedBindingCount p)
                  || match expectedRelease with Some e => active !== e | None => false end then
            (CRITICAL, "release epoch mismatch: binding differs from its activation or active release differs from expectation")
          else if 0 <? bp_missingProvenanceCount p then
            (UNKNOWN, "NO_PROVENANCE: binding provenance incomplete; transition qualification blocked")
          else if bp_currentBindingCount p =? 0 then
            (UNKNOWN, "NO_OBSERVATION: no bindings in the active release epoch")
          else (HEALTHY, "bindings match their canonical release epochs; pre-cutover history is preserved")
      | None => (UNKNOWN, "NO_PROVENANCE: canonical release activation unavailable; transition qualification blocked")
      end
  | None => (UNKNOWN, "NO_PROVENANCE: canonical release activation unavailable; transition qualification blocked")
  end.

(** ** evaluate.ts *)

Definition DEFAULT_IDENTITY_BOOTSTRAP_GRACE_MS : Z := 10 * 60000.
Definition DEFAULT_FIRE_STALENESS_GRACE_MS : Z := 25 * 3600000.
Definition DEFAULT_PLANNED_FIRE_GRACE_MS : Z := 10 * 60000.
Definition DEFAULT_STUCK_WAKE_GRACE_MS : Z := 5 * 60000.

Definition check (id : string) (status : HealthStatus) (evidence message checkedAt : string)
    (observed expected : option json) : CheckResult :=
  {| ch_id := id; ch_status := status; ch_observed := observed; ch_expected := expected;
     ch_evidence := evidence; ch_message := message; ch_checkedAt := checkedAt |}.

Definition unknownFromUnavailable (id reason evidence checkedAt : string) : CheckResult :=
  check id UNKNOWN evidence ("evidence unavailable: " +:+ reason) checkedAt None None.

(** The UNKNOWN of a check that reads an unreachable database. *)
Definition dbUnknown (id evidence checkedAt : string) : CheckResult :=
  check id UNKNOWN evidence "database unreachable — see the database domain" checkedAt None None.

(** A verdict with its two statuses and its two messages. *)
Definition verdict (ok : bool) (bad : HealthStatus) : HealthStatus := if ok then HEALTHY else bad.

Definition quoted (s : string) : string := String dquote (s +:+ String dquote EmptyString).
Definition count_text {A} (l : list A) : string := pretty (Z.of_nat (length l)).
Definition no_rows {A} (l : list A) : bool := match l with [] => true | _ => false end.

(** A JavaScript number that may be NaN, its difference, its order and its text. *)
Definition js_sub (a b : option Z) : option Z := x ← a; y ← b; Some (x - y).
Definition js_gt (a : option Z) (b : Z) : bool := match a with Some x => b <? x | None => false end.
Definition js_le (a : option Z) (b : Z) : bool := match a with Some x => x <=? b | None => false end.
Definition js_lt (a : option Z) (b : Z) : bool := match a with Some x => x <? b | None => false end.

(** [Math.round(ms / unit)] *)
Definition round_div (ms unit : Z) : Z := (2 * ms + unit) / (2 * unit).
Definition round_text (ms : option Z) (unit : Z) : string :=
  match ms with Some x => pretty (round_div x unit) | None => "NaN" end.

(** A comparison function's NaN counts as 0. *)
Definition js_cmp (a b : option Z) : Z := default 0 (js_sub a b).

Definition null_text (s : option string) : string := default "null" s.
Definition null_json (s : option string) : json := match s with Some x => JStr x | None => JNull end.

Definition fires_by_recency (fires : list ScheduleFireRow) : list ScheduleFireRow :=
  js_sort (λ a b, js_cmp (Date_parse (fr_fireAtUtc b)) (Date_parse (fr_fireAtUtc a))) fires.

Definition scheduleEnabled (s : SchedulerSnapshot) (exp : HealthExpectations) (checkedAt : string)
  : list CheckResult :=
  match sn_scheduleState s with
  | None =>
      [check "scheduler.scheduleEnabled" CRITICAL "schedule_state"
         ("no schedule_state row found for " +:+ ex_scheduleId exp) checkedAt
         (Some JNull) (Some (JStr (ex_scheduleState exp)))]
  | Some row =>
      let ok := ss_state row === ex_scheduleState exp in
      check "scheduler.scheduleEnabled" (verdict ok CRITICAL) "schedule_state.state"
        (if ok then "schedule is " +:+ ex_scheduleState exp +:+ " as expected"
         else "schedule state is " +:+ quoted (ss_state row) +:+ ", expected " +:+ quoted (ex_scheduleState exp))
        checkedAt (Some (JStr (ss_state row))) (Some (JStr (ex_scheduleState exp)))
      :: match truthy (ex_activeVersion exp) with
         | Some v =>
             let ok := ss_activeVersion row === v in
             [check "scheduler.activeVersionExpected" (verdict ok CRITICAL) "schedule_state.active_version"
                (if ok then "active version is " +:+ v +:+ " as expected"
                 else "active version is " +:+ quoted (ss_activeVersion row) +:+ ", expected " +:+ quoted v)
                checkedAt (Some (JStr (ss_activeVersion row))) (Some (JStr v))]
         | None => []
         end
  end.

Definition recentFireExists (s : SchedulerSnapshot) (fireGrace : Z) (now : option Z) (checkedAt : string)
  : CheckResult :=
  match head (fires_by_recency (sn_fires s)) with
  | None =>
      let enabled := match sn_scheduleState s with Some r => ss_state r === "enabled" | None => false end in
      check "scheduler.recentFireExists" (if enabled then CRITICAL else UNKNOWN) "schedule_fires"
        (if enabled then "schedule is enabled but has never fired"
         else "no fires yet (schedule is not enabled, or not yet due)") checkedAt None None
  | Some f =>
      let ageMs := js_sub now (Date_parse (fr_fireAtUtc f)) in
      let ok := js_le ageMs fireGrace in
      check "scheduler.recentFireExists" (verdict ok DEGRADED) "schedule_fires.fire_at_utc"
        (if ok then "most recent fire " +:+ fr_fireAtUtc f +:+ " is within the "
                    +:+ round_text (Some fireGrace) 3600000 +:+ "h staleness grace"
         else "most recent fire " +:+ fr_fireAtUtc f +:+ " is " +:+ round_text ageMs 3600000
              +:+ "h old, beyond the " +:+ round_text (Some fireGrace) 3600000 +:+ "h grace")
        checkedAt (Some (JStr (fr_fireAtUtc f))) None
  end.

Definition window_key (f : ScheduleFireRow) : string :=
  fr_scheduleId f +:+ "|" +:+ fr_scheduleVersion f +:+ "|" +:+ fr_fireWindowKey f.

Definition byWindow (fires : list ScheduleFireRow) : list (string * Z) :=
  fold_left (λ m f, map_set m (window_key f) (default 0 (map_get m (window_key f)) + 1)) fires [].

Definition noDuplicateFireWindow (s : SchedulerSnapshot) (checkedAt : string) : CheckResult :=
  let duplicates := List.filter (λ kn, 1 <? kn.2) (byWindow (sn_fires s)) in
  check "scheduler.noDuplicateFireWindow" (verdict (no_rows duplicates) CRITICAL)
    "schedule_fires (schedule_id,schedule_version,fire_window_key)"
    (if no_rows duplicates then "no calendar window has more than one fire row"
     else count_text duplicates +:+ " window(s) have duplicate fire rows: " +:+ join ", " (map fst duplicates))
    checkedAt (Some (JArr (map (λ kn, JObj [("window", JStr kn.1); ("count", JNum kn.2)]) duplicates))) None.

Definition noOrphanPlannedFire (s : SchedulerSnapshot) (plannedGrace : Z) (now : option Z) (checkedAt : string)
  : CheckResult :=
  let stuckPlanned := List.filter (λ f, (fr_state f === "PLANNED")
      && negb (bool_decide (is_Some (truthy (fr_admittedChildTaskId f))))
      && js_gt (js_sub now (Date_parse (fr_createdAt f))) plannedGrace) (sn_fires s) in
  check "scheduler.noOrphanPlannedFire" (verdict (no_rows stuckPlanned) DEGRADED) "schedule_fires.state"
    (if no_rows stuckPlanned then "no fire is stuck PLANNED past the admission grace period"
     else count_text stuckPlanned +:+ " fire(s) stuck PLANNED (never admitted) past "
          +:+ round_text (Some plannedGrace) 60000 +:+ "min: " +:+ join ", " (map fr_fireWindowKey stuckPlanned))
    checkedAt (Some (JArr (map (JStr ∘ fr_fireWindowKey) stuckPlanned))) None.

Definition admittedFiresBoundConsistently (s : SchedulerSnapshot) (checkedAt : string) : CheckResult :=
  let inconsistentAdmitted := List.filter (λ f, (fr_state f === "ADMITTED")
      && negb (bool_decide (is_Some (truthy (fr_admittedChildTaskId f))))) (sn_fires s) in
  check "scheduler.admittedFiresBoundConsistently" (verdict (no_rows inconsistentAdmitted) CRITICAL)
    "schedule_fires.state/admitted_child_task_id"
    (if no_rows inconsistentAdmitted then "every ADMITTED fire has a bound child task"
     else count_text inconsistentAdmitted +:+ " fire(s) are ADMITTED with no admitted_child_task_id")
    checkedAt None None.

(** The database half of [evaluateScheduler]. *)
Definition scheduler_db_checks (s : SchedulerSnapshot) (exp : HealthExpectations) (checkedAt : string)
  : list CheckResult :=
  let fireGrace := default DEFAULT_FIRE_STALENESS_GRACE_MS (ex_fireStalenessGraceMs exp) in
  let plannedGrace := default DEFAULT_PLANNED_FIRE_GRACE_MS (ex_plannedFireGraceMs exp) in
  let now := Date_parse checkedAt in
  if sn_sched_dbReachable s then
    scheduleEnabled s exp checkedAt ++
    [recentFireExists s fireGrace now checkedAt; noDuplicateFireWindow s checkedAt;
     noOrphanPlannedFire s plannedGrace now checkedAt; admittedFiresBoundConsistently s checkedAt]
  else
    let unknown id := dbUnknown id "schedule_state/schedule_fires" checkedAt in
    [unknown "scheduler.scheduleEnabled"]
    ++ match truthy (ex_activeVersion exp) with Some _ => [unknown "scheduler.activeVersionExpected"] | None => [] end
    ++ map unknown ["scheduler.recentFireExists"; "scheduler.noDuplicateFireWindow";
                    "scheduler.noOrphanPlannedFire"; "scheduler.admittedFiresBoundConsistently"].

Definition pending_wakes (invocations : list RestateInvocationRow) : list RestateInvocationRow :=
  List.filter (λ i, ri_status i === "scheduled") invocations.

(** [i.scheduledStartAt && now - Date.parse(i.scheduledStartAt) > grace] *)
Definition wake_stuck (now : option Z) (grace : Z) (i : RestateInvocationRow) : bool :=
  match truthy (ri_scheduledStartAt i) with
  | Some t => js_gt (js_sub now (Date_parse t)) grace
  | None => false
  end.
Definition wake_future (now : option Z) (i : RestateInvocationRow) : bool :=
  match truthy (ri_scheduledStartAt i), now with
  | Some t, Some n => js_gt (Date_parse t) n
  | _, _ => false
  end.

Definition nextWakeArmedAndFuture (invocations : list RestateInvocationRow) (armNext : bool) (stuckGrace : Z)
    (now : option Z) (checkedAt : string) : CheckResult :=
  let pending := pending_wakes invocations in
  if armNext then
    match pending with
    | [] =>
        check "scheduler.nextWakeArmedAndFuture" CRITICAL "restate sys_invocation (status=scheduled)"
          "recurring mode is expected (armNext=true) but no next wake is durably armed — the self-rearm chain has stopped"
          checkedAt None None
    | first :: _ =>
        let future := List.filter (wake_future now) pending in
        let stuck := List.filter (wake_stuck now stuckGrace) pending in
        check "scheduler.nextWakeArmedAndFuture"
          (if negb (no_rows stuck) then CRITICAL else if negb (no_rows future) then HEALTHY else DEGRADED)
          "restate sys_invocation.scheduled_start_at"
          (if negb (no_rows stuck) then
             count_text stuck +:+ " pending wake(s) are past their scheduled_start_at by more than "
             +:+ round_text (Some stuckGrace) 60000 +:+ "min — stuck, not merely about to run"
           else if negb (no_rows future) then
             "next wake is durably armed for " +:+ null_text (ri_scheduledStartAt first) +:+ ", in the future"
           else "a wake is pending but not clearly in the future")
          checkedAt (Some (JArr (map (null_json ∘ ri_scheduledStartAt) pending))) None
    end
  else
    check "scheduler.nextWakeArmedAndFuture" HEALTHY "productionConfig.armNext"
      "recurring mode (armNext) is not expected on; a pending self-armed wake is not required"
      checkedAt None None.

Definition completion (i : RestateInvocationRow) : option Z :=
  match ri_completedAt i with Some t => Date_parse t | None => None end.

(** The completed invocations in the order of their completion. *)
Definition completed_runs (invocations : list RestateInvocationRow) : list RestateInvocationRow :=
  js_sort (λ a b, js_cmp (completion a) (completion b))
    (List.filter (λ i, (ri_status i === "completed") && bool_decide (is_Some (truthy (ri_completedAt i))))
       invocations).

Fixpoint count_tight (l : list RestateInvocationRow) : Z :=
  match l with
  | a :: l' =>
      match l' with
      | b :: _ => if js_lt (js_sub (completion b) (completion a)) 60000 then 1 else 0
      | [] => 0
      end + count_tight l'
  | [] => 0
  end.

Definition noZeroDelayLoop (invocations : list RestateInvocationRow) (checkedAt : string) : CheckResult :=
  let completed := completed_runs invocations in
  let tightPairs := count_tight completed in
  check "scheduler.noZeroDelayLoop" (verdict (tightPairs =? 0) CRITICAL)
    "restate sys_invocation.completed_at (consecutive gaps)"
    (if tightPairs =? 0 then "no two completed invocations landed within 60s of each other"
     else pretty tightPairs +:+ " consecutive-completion gap(s) under 60s — indicative of a zero-delay self-rearm loop")
    checkedAt (Some (JArr (map (null_json ∘ ri_completedAt) completed))) None.

(** The Restate half of [evaluateScheduler]. *)
Definition scheduler_restate_checks (s : SchedulerSnapshot) (exp : HealthExpectations) (checkedAt : string)
  : list CheckResult :=
  match sn_restateInvocations s with
  | Unavailable reason =>
      [unknownFromUnavailable "scheduler.nextWakeArmedAndFuture" reason "restate sys_invocation" checkedAt;
       unknownFromUnavailable "scheduler.noZeroDelayLoop" reason "restate sys_invocation" checkedAt]
  | Collected invocations =>
      [nextWakeArmedAndFuture invocations (ex_armNext exp)
         (default DEFAULT_STUCK_WAKE_GRACE_MS (ex_stuckWakeGraceMs exp)) (Date_parse checkedAt) checkedAt;
       noZeroDelayLoop invocations checkedAt]
  end.

Definition evaluateScheduler (s : SchedulerSnapshot) (exp : HealthExpectations) (checkedAt : string) : DomainResult :=
  aggregateDomain (scheduler_db_checks s exp checkedAt ++ scheduler_restate_checks s exp checkedAt).

Definition provenance_json (p : option BindingProvenance) : json :=
  match p with
  | None => JNull
  | Some p => JObj [("activeEpoch", JStr (bp_activeEpoch p)); ("activeReleaseId", null_json (bp_activeReleaseId p));
      ("currentBindingCount", JNum (bp_currentBindingCount p));
      ("mismatchedBindingCount", JNum (bp_mismatchedBindingCount p));
      ("missingProvenanceCount", JNum (bp_missingProvenanceCount p));
      ("legacyBindingCount", JNum (bp_legacyBindingCount p))]
  end.

Definition rejection_evidence : string :=
  "outcomes/task_events (text search: " +:+ quoted "Task requires its bound worker release" +:+ ")".

Definition evaluateAuthority (s : AuthoritySnapshot) (checkedAt : string) (expectedRelease : option string)
  : DomainResult :=
  if sn_auth_dbReachable s then
    let '(st, msg) := bindingProvenanceVerdict (sn_auth_bindingProvenance s) expectedRelease in
    let missing := sn_admittedFireTaskIdsMissingAdmission s in
    let unmaterialised := sn_admittedFireTaskIdsUnmaterialised s in
    aggregateDomain
      [check "authority.bindingReleaseConsistent" st "database release epochs" msg checkedAt
         (Some (provenance_json (sn_auth_bindingProvenance s))) None;
       check "authority.admittedFiresHaveCanonicalTasks" (verdict (no_rows missing) CRITICAL)
         "schedule_fires.admitted_child_task_id vs kernel_private.task_admissions"
         (if no_rows missing then "every admitted fire has a real KernelJSON admission record"
          else count_text missing +:+ " admitted fire(s) reference a task id with NO kernel_private.task_admissions row — the scheduler minted without KernelJSON ever recording an admission")
         checkedAt (Some (JArr (map JStr missing))) None;
       check "authority.admittedFiresMaterialised" (verdict (no_rows unmaterialised) DEGRADED)
         "schedule_fires.admitted_child_task_id vs tasks.id (where task_admissions exists)"
         (if no_rows unmaterialised then
            "every admitted fire with a KernelJSON admission record has a materialised canonical task"
          else count_text unmaterialised +:+ " admitted fire(s) have a real admission record but never materialised a canonical task — an execution/materialisation failure downstream of a successful admission, not an authority breach")
         checkedAt (Some (JArr (map JStr unmaterialised))) None;
       check "authority.noReleaseMismatchIncidents" (verdict (negb (sn_auth_boundReleaseRejectionSeen s)) CRITICAL)
         rejection_evidence
         (if sn_auth_boundReleaseRejectionSeen s then
            "a recent task was rejected for binding to the wrong worker release — a real release-parity incident occurred"
          else "no recent bound-worker-release rejection found") checkedAt None None]
  else
    aggregateDomain
      [dbUnknown "authority.bindingReleaseConsistent" "kernel_private.execution_bindings" checkedAt;
       dbUnknown "authority.admittedFiresHaveCanonicalTasks"
         "schedule_fires.admitted_child_task_id vs kernel_private.task_admissions" checkedAt;
       dbUnknown "authority.admittedFiresMaterialised"
         "schedule_fires.admitted_child_task_id vs tasks.id (where task_admissions exists)" checkedAt;
       dbUnknown "authority.noReleaseMismatchIncidents" rejection_evidence checkedAt].

Definition evaluateAdmission (s : AdmissionSnapshot) (checkedAt : string) : DomainResult :=
  aggregateDomain
    [match sn_doorHealthy s with
     | Unavailable reason => unknownFromUnavailable "admission.doorReachable" reason "GET /healthz" checkedAt
     | Collected ok =>
         check "admission.doorReachable" (verdict ok CRITICAL) "GET /healthz"
           (if ok then "admission door responded 200 to /healthz"
            else "admission door did not respond healthy to /healthz") checkedAt None None
     end;
     if sn_adm_dbReachable s then
       check "admission.humanOperatorPresent" (verdict (sn_humanOperatorPresent s) CRITICAL)
         "principals / tenant_memberships"
         (if sn_humanOperatorPresent s then "at least one ACTIVE HUMAN operator principal exists"
          else "no ACTIVE HUMAN operator principal exists — admission cannot be owned/approved")
         checkedAt None None
     else dbUnknown "admission.humanOperatorPresent" "principals / tenant_memberships" checkedAt].

Definition coreServices : list string := ["KernelWorkflowV1"; "TaskWorkflow"].
Definition includes (l : list string) (x : string) : bool := existsb (λ y, y === x) l.
Definition missing_services (expected registered : list string) : list string :=
  List.filter (λ name, negb (includes registered name)) expected.

Definition evaluateExecution (s : ExecutionSnapshot) (exp : HealthExpectations) (checkedAt : string) : DomainResult :=
  aggregateDomain
    (match sn_exec_registeredServices s with
     | Unavailable reason =>
         [unknownFromUnavailable "execution.workerRegistered" reason "restate admin /deployments" checkedAt]
     | Collected registered =>
         let missing := missing_services coreServices registered in
         check "execution.workerRegistered" (verdict (no_rows missing) CRITICAL) "restate admin /deployments"
           (if no_rows missing then "canonical workflow services are registered"
            else "missing registered service(s): " +:+ join ", " missing) checkedAt
           (Some (JArr (map JStr registered))) (Some (JArr (map JStr coreServices)))
         :: (if includes (ex_services exp) "CapabilityServiceV1" then
               let has := includes registered "CapabilityServiceV1" in
               [check "execution.capabilityServiceRegistered" (verdict has CRITICAL) "restate admin /deployments"
                  (if has then "CapabilityServiceV1 is registered"
                   else "CapabilityServiceV1 is not registered — the sealed canary capability cannot run")
                  checkedAt None None]
             else [])
     end
     ++ [match sn_workerRestartCount s with
         | Unavailable reason =>
             unknownFromUnavailable "execution.noWorkerRestartLoop" reason
               "container restart count (operator-supplied)" checkedAt
         | Collected n =>
             check "execution.noWorkerRestartLoop"
               (if n =? 0 then HEALTHY else if n <? 3 then DEGRADED else CRITICAL)
               "container restart count (operator-supplied)" ("worker restart count is " +:+ pretty n)
               checkedAt (Some (JNum n)) None
         end]).

(** [stuckGraceMs] defaults to [DEFAULT_STUCK_WAKE_GRACE_MS]; run.ts leaves it out. *)
Definition evaluateRestate (s : RestateSnapshot) (exp : HealthExpectations) (checkedAt : string)
    (stuckGraceMs : option Z) : DomainResult :=
  let grace := default DEFAULT_STUCK_WAKE_GRACE_MS stuckGraceMs in
  let now := Date_parse checkedAt in
  aggregateDomain
    [match sn_rst_reachable s with
     | Unavailable reason => unknownFromUnavailable "restate.reachable" reason "GET restate admin /health" checkedAt
     | Collected ok =>
         check "restate.reachable" (verdict ok CRITICAL) "GET restate admin /health"
           (if ok then "Restate admin endpoint responded healthy"
            else "Restate admin endpoint did not respond healthy") checkedAt None None
     end;
     match sn_rst_registeredServices s with
     | Unavailable reason =>
         unknownFromUnavailable "restate.expectedServicesRegistered" reason "restate admin /deployments" checkedAt
     | Collected registered =>
         let missing := missing_services (ex_services exp) registered in
         check "restate.expectedServicesRegistered" (verdict (no_rows missing) CRITICAL) "restate admin /deployments"
           (if no_rows missing then "all expected services are registered"
            else "missing registered service(s): " +:+ join ", " missing) checkedAt
           (Some (JArr (map JStr registered))) (Some (JArr (map JStr (ex_services exp))))
     end;
     match sn_scheduleInvocations s with
     | Unavailable reason =>
         unknownFromUnavailable "restate.noStuckInvocation" reason "restate sys_invocation" checkedAt
     | Collected invocations =>
         let stuck := List.filter (λ i, (ri_status i === "scheduled") && wake_stuck now grace i) invocations in
         check "restate.noStuckInvocation" (verdict (no_rows stuck) CRITICAL)
           "restate sys_invocation (status=scheduled, past scheduled_start_at)"
           (if no_rows stuck then "no scheduled invocation is stuck past its own wake time"
            else count_text stuck +:+ " invocation(s) stuck past their scheduled_start_at")
           checkedAt (Some (JArr (map (JStr ∘ ri_id) stuck))) None
     end].

Definition evaluateDatabase (s : DatabaseSnapshot) (checkedAt : string) : DomainResult :=
  aggregateDomain
    (check "database.reachable" (verdict (sn_db_reachable s) CRITICAL) "select 1"
       (if sn_db_reachable s then "production database is reachable" else "production database is not reachable")
       checkedAt None None
     :: if sn_db_reachable s then
          [check "database.scheduleReadsSucceed" (verdict (sn_scheduleReadOk s) CRITICAL)
             "select from schedule_state/schedule_fires"
             (if sn_scheduleReadOk s then "scheduler reads succeed" else "scheduler reads failed")
             checkedAt None None;
           check "database.taskReadsSucceed" (verdict (sn_taskReadOk s) CRITICAL) "select from tasks"
             (if sn_taskReadOk s then "task reads succeed" else "task reads failed") checkedAt None None]
        else []).

(** [String(v)] of a JSON value. *)
Fixpoint js_String (v : json) : string :=
  match v with
  | JStr s => s
  | JArr l => join "," (map (λ x, match x with JNull => EmptyString | _ => js_String x end) l)
  | JObj _ => "[object Object]"
  | _ => stringify v
  end.

(** [receipt.digest ?? receipt.metadata.content_sha256 ?? null] *)
Definition observed_digest (r : HealthEvidenceRow) : json :=
  match her_digest r with
  | Some d => JStr d
  | None => default JNull (map_get (her_metadata r) "content_sha256")
  end.

Definition is_string (v : json) (s : string) : bool := match v with JStr d => d === s | _ => false end.

Definition digestMatchesApproved (receipt : option HealthEvidenceRow) (exp : HealthExpectations)
    (checkedAt : string) : CheckResult :=
  match truthy (ex_approvedDigestSha256 exp), receipt with
  | None, _ =>
      check "evidence.digestMatchesApproved" UNKNOWN "SCHED_APPROVED_SHA256"
        "no approved digest configured to compare against" checkedAt None None
  | Some _, None =>
      check "evidence.digestMatchesApproved" CRITICAL "evidence.digest / metadata"
        "no TOOL_RECEIPT to read a digest from" checkedAt None None
  | Some approved, Some r =>
      let observed := observed_digest r in
      let ok := is_string observed approved in
      check "evidence.digestMatchesApproved" (verdict ok CRITICAL) "evidence.digest"
        (if ok then "observed digest matches the approved digest exactly"
         else "observed digest " +:+ quoted (js_String observed) +:+ " does not match approved " +:+ quoted approved)
        checkedAt (Some observed) (Some (JStr approved))
  end.

Definition evaluateEvidence (s : EvidenceSnapshot) (exp : HealthExpectations) (checkedAt : string) : DomainResult :=
  if sn_ev_dbReachable s then
    match truthy (sn_mostRecentScheduledTaskId s) with
    | None =>
        aggregateDomain [check "evidence.mostRecentCompletedTaskHasEvidence" UNKNOWN "schedule_fires -> evidence"
          "no scheduled task exists yet to check evidence for" checkedAt None None]
    | Some task =>
        let rows := sn_evidenceForTask s in
        let receipt := List.find (λ r, her_type r === "TOOL_RECEIPT") rows in
        let boundOk := forallb (λ r, her_taskId r === task) rows in
        aggregateDomain
          [check "evidence.mostRecentCompletedTaskHasEvidence" (verdict (negb (no_rows rows)) CRITICAL)
             ("evidence where task_id=" +:+ task)
             (if negb (no_rows rows) then "the most recently scheduled task has evidence recorded"
              else "the most recently scheduled task has no evidence at all") checkedAt None None;
           check "evidence.toolReceiptPresentWhereRequired" (verdict (bool_decide (is_Some receipt)) CRITICAL)
             ("evidence where task_id=" +:+ task +:+ " and type='TOOL_RECEIPT'")
             (if bool_decide (is_Some receipt) then "a TOOL_RECEIPT is present"
              else "no TOOL_RECEIPT found for the most recent scheduled task") checkedAt None None;
           digestMatchesApproved receipt exp checkedAt;
           check "evidence.boundToCorrectTask" (verdict boundOk CRITICAL) "evidence.task_id"
             (if boundOk then "all returned evidence is bound to the queried task"
              else "evidence rows returned for the wrong task") checkedAt None None]
    end
  else aggregateDomain
    [dbUnknown "evidence.mostRecentCompletedTaskHasEvidence" "schedule_fires -> evidence" checkedAt].

Definition evaluateReleaseParity (s : ReleaseParitySnapshot) (exp : HealthExpectations) (checkedAt : string)
  : DomainResult :=
  let self := truthy (sn_selfReportedReleaseId s) in
  let '(st, msg) := bindingProvenanceVerdict
    (if sn_rel_dbReachable s then sn_rel_bindingProvenance s else None) (ex_releaseId exp) in
  aggregateDomain
    [check "releaseParity.selfReportedReleaseKnown" (if bool_decide (is_Some self) then HEALTHY else UNKNOWN)
       "process.env.KERNELJSON_RELEASE_ID"
       (match self with
        | Some r => "this component reports release " +:+ r
        | None => "this component has no KERNELJSON_RELEASE_ID set" end)
       checkedAt (Some (null_json (sn_selfReportedReleaseId s))) None;
     match truthy (ex_releaseId exp), self with
     | None, _ =>
         check "releaseParity.matchesExpected" UNKNOWN "EXPECTED_RELEASE_ID"
           "no expected release id configured to compare against" checkedAt None None
     | Some _, None =>
         check "releaseParity.matchesExpected" UNKNOWN "process.env.KERNELJSON_RELEASE_ID"
           "this component does not report its own release id" checkedAt None None
     | Some e, Some r =>
         let ok := r === e in
         check "releaseParity.matchesExpected" (verdict ok CRITICAL)
           "process.env.KERNELJSON_RELEASE_ID vs EXPECTED_RELEASE_ID"
           (if ok then "self-reported release matches the expected release"
            else "self-reported release " +:+ quoted r +:+ " does not match expected " +:+ quoted e)
           checkedAt (Some (JStr r)) (Some (JStr e))
     end;
     check "releaseParity.recentBindingsConsistent" st "database release epochs" msg checkedAt
       (Some (provenance_json (sn_rel_bindingProvenance s))) None;
     if sn_rel_dbReachable s then
       check "releaseParity.noBoundReleaseRejection" (verdict (negb (sn_rel_boundReleaseRejectionSeen s)) CRITICAL)
         rejection_evidence
         (if sn_rel_boundReleaseRejectionSeen s then "a live release mismatch rejection was observed"
          else "no release mismatch rejection observed") checkedAt None None
     else dbUnknown "releaseParity.noBoundReleaseRejection" rejection_evidence checkedAt].

Definition bool_text (b : bool) : string := if b then "true" else "false".

Definition evaluateProductionConfig (s : ProductionConfigSnapshot) (exp : HealthExpectations) (checkedAt : string)
  : DomainResult :=
  let scheduleOk := match sn_scheduleIdConfigured s with None => true | Some i => i === ex_scheduleId exp end in
  let recipeOk := match sn_recipeConfigured s with None => true | Some r => r === ex_recipe exp end in
  aggregateDomain
    [match sn_armNext s with
     | None =>
         check "productionConfig.armNextExpected" UNKNOWN "process.env.SCHED_ARM_NEXT"
           "this component does not report SCHED_ARM_NEXT (expected when run against the admission door, which has no scheduler config)"
           checkedAt None None
     | Some arm =>
         let ok := arm === ex_armNext exp in
         check "productionConfig.armNextExpected" (verdict ok CRITICAL) "process.env.SCHED_ARM_NEXT"
           (if ok then "SCHED_ARM_NEXT=" +:+ bool_text arm +:+ " matches expectation"
            else "SCHED_ARM_NEXT=" +:+ bool_text arm +:+ ", expected " +:+ bool_text (ex_armNext exp))
           checkedAt (Some (JBool arm)) (Some (JBool (ex_armNext exp)))
     end;
     match sn_approvedDigestShapeValid s with
     | None =>
         check "productionConfig.approvedDigestPresentAndValid" UNKNOWN "process.env.SCHED_APPROVED_SHA256"
           "SCHED_APPROVED_SHA256 not set on this component" checkedAt None None
     | Some ok =>
         check "productionConfig.approvedDigestPresentAndValid" (verdict ok CRITICAL)
           "process.env.SCHED_APPROVED_SHA256"
           (if ok then "approved digest is present and correctly shaped"
            else "approved digest is present but not a valid 64-char lowercase hex sha256") checkedAt None None
     end;
     check "productionConfig.scheduleIdentityMatchesCanonical" (verdict (scheduleOk && recipeOk) CRITICAL)
       "process.env.SCHED_RECIPE vs canonical schedule/recipe"
       (if scheduleOk && recipeOk then "configured schedule/recipe identity matches canonical production values"
        else "configured identity diverges — schedule=" +:+ default "n/a" (sn_scheduleIdConfigured s)
             +:+ " recipe=" +:+ default "n/a" (sn_recipeConfigured s))
       checkedAt None (Some (JObj [("scheduleId", JStr (ex_scheduleId exp)); ("recipe", JStr (ex_recipe exp))]))].

Definition IDENTITY_CHECK_SOURCES : list (string * string) :=
  [("identity.completedTasksHaveActivation", "public.tasks vs public.identity_activations");
   ("identity.profilesHaveActivatedIdentity", "public.identity_profiles vs public.identity_activations");
   ("identity.currentDigestParity", "public.identity_versions vs kernel_private.identity_core_digest_v1");
   ("identity.singleCurrentPerTenant", "public.identity_current grouped by tenant");
   ("identity.headEqualsCurrent", "public.identity_head vs public.identity_current");
   ("identity.analystRunsBound", "identity_cognition_latches (REQUIRED) vs identity_pins, identity_versions, analyst evidence");
   ("identity.verifierIsolated", "reviewer evidence, identity_pins, NONE latches vs analyst evidence")].

(** [source(id)]; the ids it is asked for are in the table. *)
Definition source (id : string) : string := default EmptyString (map_get IDENTITY_CHECK_SOURCES id).

(** [invariant] of [evaluateIdentityCognition] *)
Definition identity_invariant (id : string) (observed : list string) (ok bad checkedAt : string) : CheckResult :=
  check id (verdict (no_rows observed) CRITICAL) (source id)
    (if no_rows observed then ok else count_text observed +:+ " " +:+ bad) checkedAt
    (Some (JArr (map JStr observed))) (Some (JArr [])).

Definition analystRunsBound (c : IdentityCognitionSnapshot) (checkedAt : string) : CheckResult :=
  let id := "identity.analystRunsBound" in
  if ic_requiredLatches c =? 0 then
    check id UNKNOWN (source id)
      "NO_OBSERVATION: no REQUIRED analyst latch exists (cognition OFF or not yet run) — nothing consumed identity"
      checkedAt None None
  else
    check id (verdict (no_rows (ic_unboundRequired c)) CRITICAL) (source id)
      (if no_rows (ic_unboundRequired c) then
         "every one of " +:+ pretty (ic_requiredLatches c) +:+ " REQUIRED analyst latch(es) is bound: pin, pinned version, projection and evidence verify"
       else count_text (ic_unboundRequired c) +:+ " REQUIRED analyst latch(es) do not verify — a model may have received identity bytes that are not provably governed")
      checkedAt
      (Some (JArr (map (λ '(t, st, r), JObj [("taskId", JStr t); ("stepId", JStr st); ("reason", JStr r)])
         (ic_unboundRequired c)))) (Some (JArr [])).

Definition verifierIsolated (c : IdentityCognitionSnapshot) (checkedAt : string) : CheckResult :=
  let id := "identity.verifierIsolated" in
  if negb (no_rows (ic_isolationViolations c)) then
    check id CRITICAL (source id) (count_text (ic_isolationViolations c) +:+ " identity isolation violation(s)")
      checkedAt
      (Some (JArr (map (λ '(t, r), JObj [("taskId", JStr t); ("reason", JStr r)]) (ic_isolationViolations c))))
      (Some (JArr []))
  else if negb (ic_contractActive c) || (ic_contractRuntimeRecords c =? 0) then
    check id UNKNOWN (source id)
      "NO_OBSERVATION: no mission runtime record under the identity cognition contract yet" checkedAt None None
  else
    check id HEALTHY (source id)
      ("no identity on the reviewer or outside the analyst across " +:+ pretty (ic_contractRuntimeRecords c)
       +:+ " contract-era runtime record(s)") checkedAt None None.

(** The checks [evaluateIdentityCognition] pushes. *)
Definition evaluateIdentityCognition (s : IdentitySnapshot) (checkedAt : string) : list CheckResult :=
  match sn_cognition s with
  | Unavailable reason =>
      map (λ e, unknownFromUnavailable e.1 reason e.2 checkedAt) (drop 2 IDENTITY_CHECK_SOURCES)
  | Collected c =>
      [identity_invariant "identity.currentDigestParity" (ic_digestParityFailures c)
         "every identity version's stored digests equal kerneljson:identity-core/v1"
         "identity version(s) whose stored digests differ from kerneljson:identity-core/v1" checkedAt;
       identity_invariant "identity.singleCurrentPerTenant" (ic_tenantsWithMultipleCurrent c)
         "at most one current identity per tenant" "tenant(s) with more than one current identity" checkedAt;
       identity_invariant "identity.headEqualsCurrent" (ic_headCurrentMismatches c)
         "every identity head is its current activated version"
         "identity/identities whose head is not the current activated version" checkedAt;
       analystRunsBound c checkedAt; verifierIsolated c checkedAt]
  end.

Definition evaluateIdentity (s : IdentitySnapshot) (exp : HealthExpectations) (checkedAt : string) : DomainResult :=
  let bootstrapGrace := default DEFAULT_IDENTITY_BOOTSTRAP_GRACE_MS (ex_identityBootstrapGraceMs exp) in
  if sn_id_dbReachable s then
    let stuck := sn_completedTasksMissingActivation s in
    let incomplete := List.filter (λ r, bootstrapGrace <=? ib_ageMs r) (sn_profilesWithoutCurrentIdentity s) in
    aggregateDomain
      ([check "identity.completedTasksHaveActivation" (verdict (no_rows stuck) CRITICAL)
          "public.tasks (COMPLETED, identity-change/v1) vs public.identity_activations.request_task_id"
          (if no_rows stuck then "every completed identity-change task has a matching activation"
           else count_text stuck +:+ " completed identity-change task(s) have no matching identity_activations row — ADR-0021 D8 orphan: the task claims success but the identity change never took effect")
          checkedAt (Some (JArr (map (JStr ∘ or_taskId) stuck))) (Some (JArr []));
        check "identity.profilesHaveActivatedIdentity" (verdict (no_rows incomplete) DEGRADED)
          "public.identity_profiles vs public.identity_activations"
          (if no_rows incomplete then "every identity profile past the bootstrap grace period has an activated identity"
           else count_text incomplete +:+ " identity profile(s) have no activated identity — an interrupted bootstrap; the owner's next bootstrap request resumes the same profile")
          checkedAt (Some (JArr (map (JStr ∘ ib_identityId) incomplete))) (Some (JArr []))]
       ++ evaluateIdentityCognition s checkedAt)
  else aggregateDomain (map (λ e, dbUnknown e.1 e.2 checkedAt) IDENTITY_CHECK_SOURCES).

Definition evaluateLegacyAuthority (s : LegacyAuthoritySnapshot) (checkedAt : string) : DomainResult :=
  aggregateDomain
    [match sn_b1FreezeObservable s with
     | Unavailable reason =>
         unknownFromUnavailable "legacyAuthority.b1FreezeObservable" reason
           "Shared Brain (cross-system, out of scope for this module)" checkedAt
     | Collected ok =>
         check "legacyAuthority.b1FreezeObservable" (verdict ok CRITICAL)
           "Shared Brain authority_mode observation"
           (if ok then "B1 authority freeze remains observably in effect"
            else "B1 authority freeze does not appear to be in effect") checkedAt None None
     end].

(** ** report.ts and run.ts *)

Definition buildReport (domains : list (DomainName * DomainResult)) (checkedAt : string)
    (release lastFireAtUtc nextWakeAtUtc : option string) : HealthReport :=
  let '(critical, degraded, unknown) := countByStatus domains in
  {| hr_overall := aggregateOverall domains; hr_checkedAt := checkedAt; hr_release := release;
     hr_domains := domains; hr_criticalIssues := critical; hr_degradedIssues := degraded;
     hr_unknownChecks := unknown; hr_lastFireAtUtc := lastFireAtUtc; hr_nextWakeAtUtc := nextWakeAtUtc |}.

Definition exitCodeFor (report : HealthReport) : Z :=
  match hr_overall report with HEALTHY => 0 | DEGRADED => 1 | CRITICAL => 2 | UNKNOWN => 3 end.

(** The domains of [evaluateHealthSnapshot]. *)
Definition snapshot_domains (s : HealthSnapshot) (exp : HealthExpectations) : list (DomainName * DomainResult) :=
  let checkedAt := hs_checkedAt s in
  [(D_authority, evaluateAuthority (hs_authority s) checkedAt (ex_releaseId exp));
   (D_admission, evaluateAdmission (hs_admission s) checkedAt);
   (D_scheduler, evaluateScheduler (hs_scheduler s) exp checkedAt);
   (D_execution, evaluateExecution (hs_execution s) exp checkedAt);
   (D_restate, evaluateRestate (hs_restate s) exp checkedAt None);
   (D_database, evaluateDatabase (hs_database s) checkedAt);
   (D_evidence, evaluateEvidence (hs_evidence s) exp checkedAt);
   (D_releaseParity, evaluateReleaseParity (hs_releaseParity s) exp checkedAt);
   (D_productionConfig, evaluateProductionConfig (hs_productionConfig s) exp checkedAt);
   (D_legacyAuthority, evaluateLegacyAuthority (hs_legacyAuthority s) checkedAt);
   (D_identity, evaluateIdentity (hs_identity s) exp checkedAt)].

(** The armed wakes' instants, sorted as strings. *)
Definition wake_instants (invocations : list RestateInvocationRow) : list string :=
  map fst (js_sort key_compare
    (map (λ t, (t, tt)) (omap (λ i, truthy (ri_scheduledStartAt i)) (pending_wakes invocations)))).

Definition evaluateHealthSnapshot (s : HealthSnapshot) (exp : HealthExpectations) : HealthReport :=
  buildReport (snapshot_domains s exp) (hs_checkedAt s) (sn_selfReportedReleaseId (hs_releaseParity s))
    (fr_fireAtUtc <$> head (fires_by_recency (sn_fires (hs_scheduler s))))
    (match sn_scheduleInvocations (hs_restate s) with
     | Collected invocations => head (wake_instants invocations)
     | Unavailable _ => None
     end).

(** ** The aggregation *)

Lemma worseOf_severity a b : SEVERITY (worseOf a b) = Z.max (SEVERITY a) (SEVERITY b).
Proof. by destruct a, b. Qed.

Lemma SEVERITY_inj a b : SEVERITY a = SEVERITY b → a = b.
Proof. by destruct a, b. Qed.

Lemma worseOf_pick a b : worseOf a b = a ∨ worseOf a b = b.
Proof. unfold worseOf. destruct (_ <? _); auto. Qed.

(** The fold returns the worst status of its list. *)
Lemma fold_worst l : ∀ acc,
  let w := fold_left worseOf l acc in
  SEVERITY acc <= SEVERITY w ∧ Forall (λ s, SEVERITY s <= SEVERITY w) l ∧ (w = acc ∨ w ∈ l).
Proof.
  induction l as [|s l IH]; intros acc; cbv zeta; simpl; [split_and!; [lia|constructor|by left]|].
  destruct (IH (worseOf acc s)) as (Ha & Hl & Hw). pose proof (worseOf_severity acc s) as Hs.
  split_and!; [lia|constructor; [lia|done]|].
  destruct Hw as [->|?]; [|right; by right]. destruct (worseOf_pick acc s) as [->| ->]; [by left|right; left].
Qed.

Definition statuses (checks : list CheckResult) : list HealthStatus := map ch_status checks.

Lemma fold_checks checks : ∀ acc,
  fold_left (λ acc c, worseOf acc (ch_status c)) checks acc = fold_left worseOf (statuses checks) acc.
Proof. induction checks as [|c cs IH]; intros acc; [done|]. apply IH. Qed.

Lemma fold_healthy l : fold_left worseOf l HEALTHY = HEALTHY ↔ Forall (λ s, s = HEALTHY) l.
Proof.
  destruct (fold_worst l HEALTHY) as (_ & Hl & Hw). split.
  - intros E. rewrite E in Hl. eapply Forall_impl; [exact Hl|]. intros [] Hs; simpl in Hs; first [done|lia].
  - intros Hall. destruct Hw as [->|Hin]; [done|]. rewrite Forall_forall in Hall. by apply Hall.
Qed.

Lemma aggregateDomain_healthy checks :
  dr_status (aggregateDomain checks) = HEALTHY ↔ checks ≠ [] ∧ Forall (λ c, ch_status c = HEALTHY) checks.
Proof.
  destruct checks as [|c cs]; [naive_solver|]. unfold aggregateDomain. cbn [dr_status].
  rewrite fold_checks, fold_healthy. unfold statuses. rewrite Forall_map. naive_solver.
Qed.

Lemma aggregateDomain_checks checks : dr_checks (aggregateDomain checks) = checks.
Proof. by destruct checks. Qed.

Lemma aggregateOverall_healthy ds :
  aggregateOverall ds = HEALTHY ↔ ds ≠ [] ∧ Forall (λ d, dr_status d.2 = HEALTHY) ds.
Proof.
  unfold aggregateOverall. destruct ds as [|d ds]; [naive_solver|].
  change (map (dr_status ∘ snd) (d :: ds)) with ((dr_status d.2) :: map (dr_status ∘ snd) ds).
  rewrite fold_healthy. rewrite !Forall_cons, Forall_map. naive_solver.
Qed.

Lemma domain_severity checks c :
  c ∈ checks → SEVERITY (ch_status c) <= SEVERITY (dr_status (aggregateDomain checks)).
Proof.
  destruct checks as [|c0 cs]; [by intros ?%elem_of_nil|]. intros Hc. unfold aggregateDomain. cbn [dr_status].
  rewrite fold_checks. destruct (fold_worst (statuses (c0 :: cs)) HEALTHY) as (_ & Hl & _).
  rewrite Forall_forall in Hl. apply Hl. by apply list_elem_of_fmap_2.
Qed.

(** A domain the evaluators built: its status is the aggregate of its checks. *)
Definition aggregated (d : DomainName * DomainResult) : Prop := d.2 = aggregateDomain (dr_checks d.2).

Lemma aggregateDomain_aggregated n checks : aggregated (n, aggregateDomain checks).
Proof. unfold aggregated. simpl. by rewrite aggregateDomain_checks. Qed.

(** The overall status is the worst of the checks, never an average.  For any domains
    the evaluators build, no check is worse than the overall status; and the overall
    status is the status of some check, or UNKNOWN because a domain (or the report)
    had nothing to check, or HEALTHY. *)
Theorem overall_is_worst ds :
  Forall aggregated ds →
  (∀ d c, d ∈ ds → c ∈ dr_checks d.2 → SEVERITY (ch_status c) <= SEVERITY (aggregateOverall ds)) ∧
  ((∃ d c, d ∈ ds ∧ c ∈ dr_checks d.2 ∧ ch_status c = aggregateOverall ds) ∨
   (aggregateOverall ds = UNKNOWN ∧ (ds = [] ∨ ∃ d, d ∈ ds ∧ dr_checks d.2 = [])) ∨
   aggregateOverall ds = HEALTHY).
Proof.
  intros Hagg. destruct ds as [|d0 ds]; [split; [by intros ?? ?%elem_of_nil|]; auto|].
  set (l := d0 :: ds) in *.
  assert (E : aggregateOverall l = fold_left worseOf (map (dr_status ∘ snd) l) HEALTHY) by done.
  rewrite E. destruct (fold_worst (map (dr_status ∘ snd) l) HEALTHY) as (_ & Hl & Hw).
  set (w := fold_left worseOf _ HEALTHY) in *. clearbody w l. split.
  - intros d c Hd Hc. rewrite Forall_forall in Hagg. pose proof (Hagg d Hd) as Ha.
    unfold aggregated in Ha. apply domain_severity in Hc. rewrite <- Ha in Hc.
    rewrite Forall_map, Forall_forall in Hl. specialize (Hl d Hd). simpl in Hl. lia.
  - destruct Hw as [->|Hw]; [by right; right|]. apply list_elem_of_fmap in Hw as (d & -> & Hd).
    rewrite Forall_forall in Hagg. pose proof (Hagg d Hd) as Ha. unfold aggregated in Ha. simpl.
    rewrite Ha. destruct (dr_checks d.2) as [|c cs] eqn:Ec; [right; left; eauto|].
    unfold aggregateDomain. cbn [dr_status]. rewrite fold_checks.
    destruct (fold_worst (statuses (c :: cs)) HEALTHY) as (_ & _ & [->|Hin]); [by right; right|].
    apply list_elem_of_fmap in Hin as (c' & -> & Hc'). left. exists d, c'. by rewrite Ec.
Qed.

(** ** A HEALTHY report has looked at everything *)

Lemma verdict_healthy ok bad : bad ≠ HEALTHY → verdict ok bad = HEALTHY ↔ ok = true.
Proof. by destruct ok. Qed.

(** Take a HEALTHY domain apart into the verdicts of its checks. *)
Ltac healthy H :=
  apply aggregateDomain_healthy in H as [_ H];
  repeat match type of H with
  | Forall _ (_ :: _) => let Hc := fresh "Hc" in apply Forall_cons in H as [Hc H]; cbn [ch_status check] in Hc
  | Forall _ (_ ++ _) => let Ha := fresh "Ha" in apply Forall_app in H as [Ha H]
  end.

Lemma no_rows_nil {A} (l : list A) : no_rows l = true ↔ l = [].
Proof. by destruct l. Qed.

Lemma includes_elem l x : includes l x = true ↔ x ∈ l.
Proof.
  unfold includes. rewrite existsb_exists. setoid_rewrite <- list_elem_of_In. split.
  - intros (y & Hy & E). by to_prop; subst.
  - intros Hx. exists x. by rewrite bool_decide_true.
Qed.

Lemma missing_services_nil expected registered :
  no_rows (missing_services expected registered) = true → ∀ x, x ∈ expected → x ∈ registered.
Proof.
  rewrite no_rows_nil. intros E x Hx. apply includes_elem. destruct (includes registered x) eqn:Ei; [done|].
  assert (Hin : x ∈ missing_services expected registered).
  { apply list_elem_of_In, filter_In. rewrite Ei. split; [by apply list_elem_of_In|done]. }
  rewrite E in Hin. by apply elem_of_nil in Hin.
Qed.

Lemma scheduler_observed s exp at_ :
  dr_status (evaluateScheduler s exp at_) = HEALTHY →
  sn_sched_dbReachable s = true ∧ (∃ row, sn_scheduleState s = Some row ∧ ss_state row = ex_scheduleState exp) ∧
  sn_fires s ≠ [] ∧ ∃ inv, sn_restateInvocations s = Collected inv.
Proof.
  unfold evaluateScheduler, scheduler_db_checks, scheduler_restate_checks. intros H.
  destruct (sn_sched_dbReachable s); cbn [app] in H; [|healthy H; done].
  apply aggregateDomain_healthy in H as [_ H]. apply Forall_app in H as [Ha Hr]. apply Forall_app in Ha as [Hs Hf].
  apply Forall_cons in Hf as [Hf _]. split_and!; [done| | |].
  - unfold scheduleEnabled in Hs. destruct (sn_scheduleState s) as [row|]; apply Forall_cons in Hs as [Hs _]; [|done].
    exists row. split; [done|]. cbn [ch_status check] in Hs. apply verdict_healthy in Hs; [|done]. by to_prop.
  - intros E. unfold recentFireExists in Hf. rewrite E in Hf. simpl in Hf.
    destruct (sn_scheduleState s) as [row|]; [|done]. by destruct (ss_state row === "enabled").
  - destruct (sn_restateInvocations s) as [inv|]; [by exists inv|]. by apply Forall_cons in Hr as [Hr _].
Qed.

Lemma authority_observed s at_ e :
  dr_status (evaluateAuthority s at_ e) = HEALTHY →
  sn_auth_dbReachable s = true ∧ sn_auth_boundReleaseRejectionSeen s = false ∧
  sn_admittedFireTaskIdsMissingAdmission s = [] ∧ sn_admittedFireTaskIdsUnmaterialised s = [].
Proof.
  unfold evaluateAuthority. destruct (sn_auth_dbReachable s); [|intros H; by healthy H].
  destruct (bindingProvenanceVerdict _ e) as [st msg]. intros H. healthy H.
  apply verdict_healthy in Hc0, Hc1, Hc2; [|done..]. apply no_rows_nil in Hc0, Hc1. by to_prop.
Qed.

Lemma execution_observed s exp at_ :
  dr_status (evaluateExecution s exp at_) = HEALTHY →
  (∃ l, sn_exec_registeredServices s = Collected l ∧ ∀ x, x ∈ coreServices → x ∈ l) ∧
  sn_workerRestartCount s = Collected 0.
Proof.
  unfold evaluateExecution. intros H. apply aggregateDomain_healthy in H as [_ H]. apply Forall_app in H as [H Hw].
  apply Forall_cons in Hw as [Hw _]. split.
  - destruct (sn_exec_registeredServices s) as [l|]; apply Forall_cons in H as [H _]; [|done].
    exists l. split; [done|]. apply missing_services_nil. by apply verdict_healthy in H.
  - destruct (sn_workerRestartCount s) as [n|]; [|done]. cbn [ch_status check] in Hw.
    destruct (Z.eqb_spec n 0); [by subst|]. by destruct (n <? 3).
Qed.

Lemma restate_observed s exp at_ g :
  dr_status (evaluateRestate s exp at_ g) = HEALTHY →
  sn_rst_reachable s = Collected true ∧
  (∃ l, sn_rst_registeredServices s = Collected l ∧ ∀ x, x ∈ ex_services exp → x ∈ l) ∧
  ∃ inv, sn_scheduleInvocations s = Collected inv.
Proof.
  unfold evaluateRestate. intros H. healthy H. split_and!.
  - destruct (sn_rst_reachable s) as [[]|]; done.
  - destruct (sn_rst_registeredServices s) as [l|]; [|done]. exists l. split; [done|].
    apply missing_services_nil. cbn [ch_status check] in Hc0. by apply verdict_healthy in Hc0.
  - destruct (sn_scheduleInvocations s) as [inv|]; [by exists inv|done].
Qed.

Lemma evidence_observed s exp at_ :
  dr_status (evaluateEvidence s exp at_) = HEALTHY →
  sn_ev_dbReachable s = true ∧ ∃ task approved r,
    sn_mostRecentScheduledTaskId s = Some task ∧ ex_approvedDigestSha256 exp = Some approved ∧
    r ∈ sn_evidenceForTask s ∧ her_type r = "TOOL_RECEIPT" ∧ her_taskId r = task ∧
    observed_digest r = JStr approved.
Proof.
  unfold evaluateEvidence. destruct (sn_ev_dbReachable s); [|intros H; by healthy H].
  unfold truthy at 1. destruct (sn_mostRecentScheduledTaskId s) as [task|]; [|intros H; by healthy H].
  case_decide; [intros Hx; by healthy Hx|]. intros H1. split; [done|]. healthy H1.
  unfold digestMatchesApproved, truthy in Hc1. destruct (ex_approvedDigestSha256 exp) as [approved|]; [|done].
  case_decide; [done|]. destruct (List.find _ _) as [r|] eqn:Er; [|done]. cbn [ch_status check] in Hc1.
  apply find_some in Er as [Hr Ht]. apply verdict_healthy in Hc1, Hc2; [|done..]. to_prop.
  exists task, approved, r. split_and!; [done|done|by apply list_elem_of_In|done| |].
  - rewrite forallb_forall in Hc2. specialize (Hc2 r Hr). by to_prop.
  - destruct (observed_digest r); try done. simpl in Hc1. by to_prop; subst.
Qed.

Lemma identity_observed s exp at_ :
  dr_status (evaluateIdentity s exp at_) = HEALTHY →
  sn_id_dbReachable s = true ∧ sn_completedTasksMissingActivation s = [] ∧ ∃ c,
    sn_cognition s = Collected c ∧ ic_digestParityFailures c = [] ∧ ic_tenantsWithMultipleCurrent c = [] ∧
    ic_headCurrentMismatches c = [] ∧ ic_unboundRequired c = [] ∧ ic_isolationViolations c = [].
Proof.
  unfold evaluateIdentity. destruct (sn_id_dbReachable s).
  2: { intros H. cbn [map IDENTITY_CHECK_SOURCES] in H. by healthy H. }
  intros H. split; [done|].
  apply aggregateDomain_healthy in H as [_ H]. apply Forall_app in H as [Ha H]. apply Forall_cons in Ha as [Ha _].
  cbn [ch_status check] in Ha. apply verdict_healthy, no_rows_nil in Ha; [|done]. split; [done|].
  unfold evaluateIdentityCognition in H. destruct (sn_cognition s) as [c|].
  2: { cbn [map drop IDENTITY_CHECK_SOURCES] in H. by apply Forall_cons in H as [H _]. }
  exists c.
  repeat match type of H with
  | Forall _ (_ :: _) => let Hx := fresh "Hx" in apply Forall_cons in H as [Hx H]
  end.
  cbn [ch_status check identity_invariant] in *.
  repeat match goal with H : verdict (no_rows _) _ = HEALTHY |- _ =>
    apply verdict_healthy, no_rows_nil in H; [|done] end.
  split_and!; try done.
  - match goal with H : ch_status (analystRunsBound _ _) = _ |- _ => rename H into Hb end.
    unfold analystRunsBound in Hb. destruct (_ =? 0); [done|]. cbn [ch_status check] in Hb.
    by apply verdict_healthy, no_rows_nil in Hb.
  - match goal with H : ch_status (verifierIsolated _ _) = _ |- _ => rename H into Hv end.
    unfold verifierIsolated in Hv. by destruct (ic_isolationViolations c).
Qed.

Lemma snapshot_aggregated s exp : Forall aggregated (snapshot_domains s exp).
Proof.
  unfold snapshot_domains. repeat apply Forall_cons_2; [..|apply Forall_nil_2]; try apply aggregateDomain_aggregated.
  - unfold evaluateAuthority. destruct (sn_auth_dbReachable _); [|apply aggregateDomain_aggregated].
    destruct (bindingProvenanceVerdict _ _). apply aggregateDomain_aggregated.
  - unfold evaluateEvidence. destruct (sn_ev_dbReachable _); [case_match|]; apply aggregateDomain_aggregated.
  - unfold evaluateReleaseParity. destruct (bindingProvenanceVerdict _ _). apply aggregateDomain_aggregated.
  - unfold evaluateIdentity. destruct (sn_id_dbReachable _); apply aggregateDomain_aggregated.
Qed.

Lemma count_status_none st checks :
  Forall (λ c, ch_status c = HEALTHY) checks → st ≠ HEALTHY → count_status st checks = 0.
Proof.
  intros Hall Hst. unfold count_status. induction Hall as [|c cs Hc _ IH]; [done|]. simpl.
  rewrite bool_decide_false by congruence. exact IH.
Qed.

Lemma countByStatus_healthy ds :
  Forall (λ d, Forall (λ c, ch_status c = HEALTHY) (dr_checks d.2)) ds → countByStatus ds = (0, 0, 0).
Proof.
  intros H. unfold countByStatus.
  assert (Hnone : Forall (λ c, ch_status c = HEALTHY) (concat (map (dr_checks ∘ snd) ds)))
    by (rewrite Forall_concat, Forall_map; done).
  by rewrite !(count_status_none _ _ Hnone) by done.
Qed.

Lemma healthy_domains s exp :
  hr_overall (evaluateHealthSnapshot s exp) = HEALTHY →
  Forall (λ d, dr_status d.2 = HEALTHY) (snapshot_domains s exp) ∧
  Forall (λ d, Forall (λ c, ch_status c = HEALTHY) (dr_checks d.2)) (snapshot_domains s exp).
Proof.
  unfold evaluateHealthSnapshot, buildReport. destruct (countByStatus _) as [[cr dg] un].
  cbn [hr_overall]. intros [_ H]%aggregateOverall_healthy. split; [done|].
  pose proof (snapshot_aggregated s exp) as Ha. rewrite Forall_forall in *. intros d Hd.
  specialize (H d Hd). specialize (Ha d Hd). unfold aggregated in Ha. rewrite Ha in H.
  by apply aggregateDomain_healthy in H as [_ H].
Qed.

Lemma healthy_counts s exp :
  Forall (λ d, Forall (λ c, ch_status c = HEALTHY) (dr_checks d.2)) (snapshot_domains s exp) →
  hr_criticalIssues (evaluateHealthSnapshot s exp) = 0 ∧
  hr_degradedIssues (evaluateHealthSnapshot s exp) = 0 ∧ hr_unknownChecks (evaluateHealthSnapshot s exp) = 0.
Proof.
  intros H. unfold evaluateHealthSnapshot, buildReport. by rewrite (countByStatus_healthy _ H).
Qed.

Lemma door_observed s at_ :
  dr_status (evaluateAdmission s at_) = HEALTHY → sn_adm_dbReachable s = true ∧ sn_doorHealthy s = Collected true.
Proof.
  unfold evaluateAdmission. intros H. healthy H. destruct (sn_adm_dbReachable s); [|done]. split; [done|].
  by destruct (sn_doorHealthy s) as [[]|].
Qed.

Lemma database_observed s at_ :
  dr_status (evaluateDatabase s at_) = HEALTHY →
  sn_db_reachable s = true ∧ sn_scheduleReadOk s = true ∧ sn_taskReadOk s = true.
Proof.
  unfold evaluateDatabase. intros H. destruct (sn_db_reachable s); healthy H; [|done].
  by destruct (sn_scheduleReadOk s), (sn_taskReadOk s).
Qed.

Lemma config_observed s exp at_ :
  dr_status (evaluateProductionConfig s exp at_) = HEALTHY →
  sn_armNext s = Some (ex_armNext exp) ∧ sn_approvedDigestShapeValid s = Some true.
Proof.
  unfold evaluateProductionConfig. intros H. healthy H. split.
  - destruct (sn_armNext s) as [b|]; [|done]. cbn [ch_status check] in Hc. apply verdict_healthy in Hc; [|done]. by to_prop; subst.
  - by destruct (sn_approvedDigestShapeValid s) as [[]|].
Qed.

Lemma release_observed s exp at_ :
  dr_status (evaluateReleaseParity s exp at_) = HEALTHY →
  sn_rel_dbReachable s = true ∧ sn_rel_boundReleaseRejectionSeen s = false ∧
  ∃ r, truthy (sn_selfReportedReleaseId s) = Some r ∧ truthy (ex_releaseId exp) = Some r.
Proof.
  unfold evaluateReleaseParity. destruct (bindingProvenanceVerdict _ _). intros H. healthy H.
  destruct (sn_rel_dbReachable s); [|done]. cbn [ch_status check] in *. split; [done|]. split.
  - by destruct (sn_rel_boundReleaseRejectionSeen s).
  - destruct (truthy (ex_releaseId exp)) as [e|]; [|done]. destruct (truthy (sn_selfReportedReleaseId s)) as [r|]; [|done].
    exists r. split; [done|]. cbn [ch_status check] in *.
    match goal with H : verdict (r === e) _ = HEALTHY |- _ => apply verdict_healthy in H; [|done] end. by to_prop; subst.
Qed.

(** What stands behind a HEALTHY report, source by source. *)
Record all_observed (s : HealthSnapshot) (exp : HealthExpectations) : Prop := {
  ao_database : sn_db_reachable (hs_database s) && sn_scheduleReadOk (hs_database s) && sn_taskReadOk (hs_database s)
    && sn_sched_dbReachable (hs_scheduler s) && sn_auth_dbReachable (hs_authority s) && sn_adm_dbReachable (hs_admission s)
    && sn_ev_dbReachable (hs_evidence s) && sn_id_dbReachable (hs_identity s) && sn_rel_dbReachable (hs_releaseParity s) = true;
  ao_door : sn_doorHealthy (hs_admission s) = Collected true;
  ao_restate : sn_rst_reachable (hs_restate s) = Collected true ∧
    (∃ l, sn_rst_registeredServices (hs_restate s) = Collected l ∧ ∀ x, x ∈ ex_services exp → x ∈ l) ∧
    (∃ i, sn_scheduleInvocations (hs_restate s) = Collected i);
  ao_execution : sn_workerRestartCount (hs_execution s) = Collected 0 ∧
    (∃ l, sn_exec_registeredServices (hs_execution s) = Collected l ∧ ∀ x, x ∈ coreServices → x ∈ l);
  ao_scheduler : (∃ row, sn_scheduleState (hs_scheduler s) = Some row ∧ ss_state row = ex_scheduleState exp) ∧
    sn_fires (hs_scheduler s) ≠ [] ∧ (∃ i, sn_restateInvocations (hs_scheduler s) = Collected i);
  ao_authority : sn_auth_boundReleaseRejectionSeen (hs_authority s) = false ∧
    sn_admittedFireTaskIdsMissingAdmission (hs_authority s) = [] ∧ sn_admittedFireTaskIdsUnmaterialised (hs_authority s) = [];
  ao_freeze : sn_b1FreezeObservable (hs_legacyAuthority s) = Collected true;
  ao_evidence : ∃ task approved r, sn_mostRecentScheduledTaskId (hs_evidence s) = Some task ∧
    ex_approvedDigestSha256 exp = Some approved ∧ r ∈ sn_evidenceForTask (hs_evidence s) ∧
    her_type r = "TOOL_RECEIPT" ∧ her_taskId r = task ∧ observed_digest r = JStr approved;
  ao_release : sn_rel_boundReleaseRejectionSeen (hs_releaseParity s) = false ∧
    ∃ r, truthy (sn_selfReportedReleaseId (hs_releaseParity s)) = Some r ∧ truthy (ex_releaseId exp) = Some r;
  ao_config : sn_armNext (hs_productionConfig s) = Some (ex_armNext exp) ∧
    sn_approvedDigestShapeValid (hs_productionConfig s) = Some true;
  ao_identity : sn_completedTasksMissingActivation (hs_identity s) = [] ∧
    ∃ c, sn_cognition (hs_identity s) = Collected c ∧ ic_digestParityFailures c = [] ∧ ic_tenantsWithMultipleCurrent c = [] ∧
      ic_headCurrentMismatches c = [] ∧ ic_unboundRequired c = [] ∧ ic_isolationViolations c = []
}.

(** C40: A HEALTHY report has looked everywhere and found nothing.  If the overall status is
    HEALTHY then every check of every domain is HEALTHY (no critical, degraded or unknown one
    is counted), and every source was really observed and good: the database was reachable for
    each domain; the door, Restate and its invocations, the two lists of registered services,
    the worker's restart count and the legacy freeze were collected; the expected services are
    registered; the schedule is in its expected state and has fired, and every admitted fire
    has its admission; the latest scheduled task has a receipt with the approved digest; the
    component runs the expected release and configuration; and identity's stores were
    collected and agree (digest parity, one current identity, its head the current one, every
    required latch bound).  A source that could not be reached never passes for a healthy one. *)
Theorem healthy_report_observed s exp :
  hr_overall (evaluateHealthSnapshot s exp) = HEALTHY →
  Forall (λ d, Forall (λ c, ch_status c = HEALTHY) (dr_checks d.2)) (snapshot_domains s exp) ∧
  hr_criticalIssues (evaluateHealthSnapshot s exp) = 0 ∧
  hr_degradedIssues (evaluateHealthSnapshot s exp) = 0 ∧ hr_unknownChecks (evaluateHealthSnapshot s exp) = 0 ∧
  all_observed s exp.
Proof.
  intros H. apply healthy_domains in H as [H Hall]. destruct (healthy_counts s exp Hall) as (-> & -> & ->).
  do 4 (split; [done|]). unfold snapshot_domains in H.
  repeat match type of H with
  | Forall _ (_ :: _) => let Hd := fresh "Hd" in apply Forall_cons in H as [Hd H]; cbn [snd] in Hd
  end.
  apply authority_observed in Hd as (Ea & Hau). apply door_observed in Hd0 as [Ed Hdoor].
  apply scheduler_observed in Hd1 as (Es & Hsch). apply execution_observed in Hd2 as [Hsv Hwr].
  apply restate_observed in Hd3 as Hrst. apply database_observed in Hd4 as (E1 & E2 & E3).
  apply evidence_observed in Hd5 as (Ee & Hev). apply release_observed in Hd6 as (Er & Hrel).
  apply config_observed in Hd7. apply identity_observed in Hd9 as (Ei & Hid).
  unfold evaluateLegacyAuthority in Hd8. healthy Hd8.
  split; try done; [by rewrite E1, E2, E3, Es, Ea, Ed, Ee, Ei, Er|].
  by destruct (sn_b1FreezeObservable _) as [[]|].
Qed.

(** ** The double-admission and self-loop detectors *)

Definition count_in (k : string) (l : list string) : Z := Z.of_nat (length (List.filter (λ x, x === k) l)).

Lemma byWindow_count fires k :
  default 0 (map_get (byWindow fires) k) = count_in k (map window_key fires) ∧ NoDup (map_keys (byWindow fires)) ∧
  Forall (λ kn, 0 < kn.2) (byWindow fires).
Proof.
  unfold byWindow.
  assert (H : ∀ m, NoDup (map_keys m) → Forall (λ kn, 0 < kn.2) m →
    let m' := fold_left (λ m f, map_set m (window_key f) (default 0 (map_get m (window_key f)) + 1)) fires m in
    default 0 (map_get m' k) = default 0 (map_get m k) + count_in k (map window_key fires) ∧
    NoDup (map_keys m') ∧ Forall (λ kn, 0 < kn.2) m').
  { induction fires as [|f fires IH]; intros m Hm Hp; cbv zeta; simpl; [split_and!; [unfold count_in; simpl; lia|done|done]|].
    destruct (IH (map_set m (window_key f) (default 0 (map_get m (window_key f)) + 1))) as (He & Hn & Hpos).
    - by apply map_set_NoDup.
    - apply map_set_Forall; [done|]. simpl. destruct (map_get m (window_key f)) as [n|] eqn:E; simpl; [|lia].
      apply map_get_elem in E. rewrite Forall_forall in Hp. specialize (Hp _ E). simpl in Hp. lia.
    - split_and!; [|done|done]. rewrite He, map_get_set. unfold count_in. simpl.
      case_bool_decide; subst; simpl; lia. }
  destruct (H [] (NoDup_nil_2) (Forall_nil_2 _)) as (He & Hn & Hp). split_and!; [|done|done]. by rewrite He.
Qed.

Lemma count_in_NoDup l : NoDup l ↔ ∀ k, count_in k l <= 1.
Proof.
  unfold count_in. induction l as [|x l IH]; simpl; [split; [intros _ k; lia|intros; constructor]|].
  rewrite NoDup_cons, IH. split.
  - intros [Hx Hl] k. case_bool_decide as Hk; subst; simpl; [|apply Hl].
    assert (List.filter (λ y, y === k) l = []) as ->; [|simpl; lia].
    apply elem_of_nil_inv. intros y Hy. apply list_elem_of_In, filter_In in Hy as [Hy E]. to_prop. subst.
    apply Hx. by apply list_elem_of_In.
  - intros H. split.
    + intros Hx. specialize (H x). rewrite bool_decide_true in H by done. simpl in H.
      assert (Hin : x ∈ List.filter (λ y, y === x) l).
      { apply list_elem_of_In, filter_In. rewrite bool_decide_true by done. split; [by apply list_elem_of_In|done]. }
      destruct (List.filter _ l); [by apply elem_of_nil in Hin|]. simpl in H. lia.
    + intros k. specialize (H k). case_bool_decide; simpl in H; lia.
Qed.

(** The double-admission detector is exact.  The check reports HEALTHY exactly when no
    two fire rows have the same (schedule, version, window) key, and CRITICAL
    otherwise. *)
Theorem noDuplicateFireWindow_exact s at_ :
  ch_status (noDuplicateFireWindow s at_) =
  if decide (NoDup (map window_key (sn_fires s))) then HEALTHY else CRITICAL.
Proof.
  unfold noDuplicateFireWindow. cbn [ch_status check].
  set (dup := List.filter _ _). unfold verdict.
  assert (H : no_rows dup = true ↔ NoDup (map window_key (sn_fires s))).
  { rewrite no_rows_nil, count_in_NoDup. subst dup. split.
    - intros E k. destruct (byWindow_count (sn_fires s) k) as (<- & _ & _).
      destruct (map_get (byWindow (sn_fires s)) k) as [n|] eqn:Eg; simpl; [|lia].
      apply map_get_elem in Eg. destruct (Z.ltb_spec 1 n) as [Hlt|]; [|lia].
      assert (Hin : (k, n) ∈ List.filter (λ kn : string * Z, 1 <? kn.2) (byWindow (sn_fires s))).
      { apply list_elem_of_In, filter_In. split; [by apply list_elem_of_In|]. simpl. lia. }
      rewrite E in Hin. by apply elem_of_nil in Hin.
    - intros Hle. apply elem_of_nil_inv. intros [k n] Hin.
      apply list_elem_of_In, filter_In in Hin as [Hin%list_elem_of_In Hn]. simpl in Hn.
      destruct (byWindow_count (sn_fires s) k) as (Hk & Hnd & _).
      rewrite (map_elem_get _ _ _ Hnd Hin) in Hk. specialize (Hle k). simpl in Hk. lia. }
  destruct (no_rows dup); case_decide as Hd; try done; naive_solver.
Qed.

Definition is_completed (i : RestateInvocationRow) : bool :=
  (ri_status i === "completed") && bool_decide (is_Some (truthy (ri_completedAt i))).

Definition instant (i : RestateInvocationRow) : Z := default 0 (completion i).

(** Two completions at least a minute apart. *)
Definition apart (a b : RestateInvocationRow) : Prop := 60000 <= Z.abs (instant a - instant b).

Lemma count_tight_nonneg l : 0 <= count_tight l.
Proof.
  induction l as [|a l IH]; simpl; [lia|]. destruct l as [|b l]; [lia|]. destruct (js_lt _ _); lia.
Qed.

Lemma count_tight_sorted l :
  Forall (λ i, is_Some (completion i)) l → StronglySorted (λ a b, instant a <= instant b) l →
  count_tight l = 0 ↔ ForallOrdPairs apart l.
Proof.
  intros Hsome Hs. induction Hs as [|a l Hs IH Ha]; [by split; [constructor|]|].
  apply Forall_cons in Hsome as [Hsa Hsl]. specialize (IH Hsl). simpl.
  pose proof (count_tight_nonneg l) as Hnn. destruct l as [|b l].
  { split; [intros _; repeat constructor|done]. }
  apply Forall_cons in Hsl as [Hsb Hsl]. apply Forall_cons in Ha as [Hab Ha].
  assert (Hgap : js_lt (js_sub (completion b) (completion a)) 60000 = (instant b - instant a <? 60000)).
  { unfold instant. destruct Hsa as [x ->], Hsb as [y ->]. done. }
  rewrite Hgap. split.
  - intros H. destruct (Z.ltb_spec (instant b - instant a) 60000); [lia|].
    constructor; [|apply IH; lia]. apply Forall_cons. split; [unfold apart; lia|].
    apply StronglySorted_inv in Hs as [_ Hb]. rewrite Forall_forall in Hb |- *. intros c Hc.
    specialize (Hb c Hc). unfold apart. lia.
  - intros H. inversion H as [|? ? Hx Hl]; subst. apply IH in Hl. apply Forall_cons in Hx as [Hx _].
    unfold apart in Hx. destruct (Z.ltb_spec (instant b - instant a) 60000); lia.
Qed.

(** The self-loop detector is exact.  When every completion time parses, the check
    reports HEALTHY exactly when every two completed invocations, adjacent or not
    and in whatever order they were listed, are at least a minute apart; otherwise
    it is CRITICAL. *)
Theorem noZeroDelayLoop_exact invocations at_ :
  Forall (λ i, is_Some (completion i)) (List.filter is_completed invocations) →
  (ch_status (noZeroDelayLoop invocations at_) = HEALTHY ↔
     ForallOrdPairs apart (List.filter is_completed invocations)) ∧
  (ch_status (noZeroDelayLoop invocations at_) = HEALTHY ∨ ch_status (noZeroDelayLoop invocations at_) = CRITICAL).
Proof.
  intros Hsome. unfold noZeroDelayLoop. cbn [ch_status check].
  assert (E : completed_runs invocations = js_sort (λ a b, instant a - instant b) (List.filter is_completed invocations)).
  { unfold completed_runs. fold is_completed. apply js_sort_ext. intros x y Hx Hy.
    rewrite Forall_forall in Hsome. unfold js_cmp, instant.
    destruct (Hsome x Hx) as [u ->], (Hsome y Hy) as [v ->]. done. }
  rewrite E. split; [|by destruct (_ =? 0); [left|right]].
  rewrite verdict_healthy, Z.eqb_eq by done. rewrite count_tight_sorted.
  - split; apply ForallOrdPairs_perm; try (intros ??; unfold apart; lia); [|symmetry]; apply js_sort_perm.
  - by rewrite js_sort_perm.
  - apply js_sort_by_key_sorted.
Qed.

(** ** Concrete snapshots *)

Definition healthy_expectations (grace : option Z) : HealthExpectations :=
  {| ex_scheduleId := "s"; ex_scheduleState := "enabled"; ex_activeVersion := Some "v2"; ex_recipe := "r";
     ex_approvedDigestSha256 := Some "d"; ex_armNext := true; ex_releaseId := Some "rel";
     ex_services := ["KernelWorkflowV1"; "TaskWorkflow"]; ex_fireStalenessGraceMs := None;
     ex_plannedFireGraceMs := None; ex_stuckWakeGraceMs := grace; ex_identityBootstrapGraceMs := None |}.

Definition healthy_invocation (status due : string) : RestateInvocationRow :=
  {| ri_id := "i"; ri_status := status; ri_scheduledStartAt := Some due; ri_invokedById := None;
     ri_createdAt := "2026-09-15T15:00:00.000Z"; ri_completedAt := None |}.

Definition healthy_provenance : BindingProvenance :=
  {| bp_activeEpoch := "1"; bp_activeReleaseId := Some "rel"; bp_currentBindingCount := 1;
     bp_mismatchedBindingCount := 0; bp_missingProvenanceCount := 0; bp_legacyBindingCount := 0 |}.

(** A snapshot taken at noon whose one armed wake is due at [due]. *)
Definition healthy_snapshot (due : string) : HealthSnapshot :=
  {| hs_checkedAt := "2026-09-15T12:00:00.000Z";
     hs_scheduler := {| sn_sched_dbReachable := true;
       sn_scheduleState := Some {| ss_scheduleId := "s"; ss_state := "enabled"; ss_activeVersion := "v2";
         ss_updatedAt := "2026-09-15T00:00:00.000Z" |};
       sn_recipe := Some "r";
       sn_fires := [{| fr_scheduleId := "s"; fr_scheduleVersion := "v2"; fr_fireWindowKey := "w";
         fr_fireAtUtc := "2026-09-15T02:30:00.000Z"; fr_state := "ADMITTED"; fr_admittedChildTaskId := Some "t";
         fr_createdAt := "2026-09-15T02:30:00.000Z" |}];
       sn_restateInvocations := Collected [healthy_invocation "scheduled" due] |};
     hs_authority := {| sn_auth_dbReachable := true; sn_auth_bindingProvenance := Some healthy_provenance;
       sn_admittedFireTaskIdsMissingAdmission := []; sn_admittedFireTaskIdsUnmaterialised := [];
       sn_auth_boundReleaseRejectionSeen := false |};
     hs_admission := {| sn_adm_dbReachable := true; sn_doorHealthy := Collected true;
       sn_humanOperatorPresent := true |};
     hs_execution := {| sn_exec_registeredServices := Collected ["TaskWorkflow"; "KernelWorkflowV1"];
       sn_workerRestartCount := Collected 0; sn_doorRestartCount := Collected 0 |};
     hs_restate := {| sn_rst_reachable := Collected true;
       sn_rst_registeredServices := Collected ["TaskWorkflow"; "KernelWorkflowV1"];
       sn_scheduleInvocations := Collected [healthy_invocation "scheduled" due] |};
     hs_database := {| sn_db_reachable := true; sn_scheduleReadOk := true; sn_taskReadOk := true |};
     hs_evidence := {| sn_ev_dbReachable := true; sn_mostRecentScheduledTaskId := Some "t";
       sn_evidenceForTask := [{| her_id := "e"; her_taskId := "t"; her_type := "TOOL_RECEIPT"; her_source := "x";
         her_digest := Some "d"; her_capturedAt := "2026-09-15T02:31:00.000Z"; her_metadata := [] |}] |};
     hs_releaseParity := {| sn_rel_dbReachable := true; sn_selfReportedReleaseId := Some "rel";
       sn_rel_bindingProvenance := Some healthy_provenance; sn_rel_boundReleaseRejectionSeen := false |};
     hs_productionConfig := {| sn_armNext := Some true; sn_approvedDigestShapeValid := Some true;
       sn_scheduleIdConfigured := Some "s"; sn_recipeConfigured := Some "r" |};
     hs_legacyAuthority := {| sn_b1FreezeObservable := Collected true |};
     hs_identity := {| sn_id_dbReachable := true; sn_completedTasksMissingActivation := [];
       sn_profilesWithoutCurrentIdentity := [];
       sn_cognition := Collected {| ic_digestParityFailures := []; ic_tenantsWithMultipleCurrent := [];
         ic_headCurrentMismatches := []; ic_contractActive := true; ic_requiredLatches := 1;
         ic_unboundRequired := []; ic_contractRuntimeRecords := 2; ic_isolationViolations := [] |} |} |}.

(** The grace for a stuck wake that an operator configures reaches the scheduler domain
    only: with an hour's grace and a wake thirty minutes overdue the scheduler's check is
    not CRITICAL (the wake is merely not in the future), and restate's is, since run.ts
    evaluates it with the default five minutes. *)
Theorem restate_ignores_stuck_grace :
  let s := healthy_snapshot "2026-09-15T11:30:00.000Z" in
  let exp := healthy_expectations (Some 3600000) in
  dr_status (evaluateScheduler (hs_scheduler s) exp (hs_checkedAt s)) = DEGRADED ∧
  dr_status <$> (map_get (hr_domains (evaluateHealthSnapshot s exp)) D_restate) = Some CRITICAL ∧
  dr_status (evaluateRestate (hs_restate s) exp (hs_checkedAt s) (ex_stuckWakeGraceMs exp)) = HEALTHY.
Proof. vm_compute. repeat split. Qed.

Lemma overall_is_worst_witness :
  SEVERITY CRITICAL <= SEVERITY (aggregateOverall
    (snapshot_domains (healthy_snapshot "2026-09-15T11:30:00.000Z") (healthy_expectations None))).
Proof.
  set (s := healthy_snapshot "2026-09-15T11:30:00.000Z"). set (exp := healthy_expectations None).
  destruct (overall_is_worst (snapshot_domains s exp) (snapshot_aggregated s exp)) as [H _].
  assert (Hc : ∃ d c, d ∈ snapshot_domains s exp ∧ c ∈ dr_checks d.2 ∧ ch_status c = CRITICAL).
  { exists (D_restate, evaluateRestate (hs_restate s) exp (hs_checkedAt s) None). eexists.
    split; [unfold snapshot_domains; do 4 apply list_elem_of_further; apply list_elem_of_here|].
    split; [do 2 apply list_elem_of_further; apply list_elem_of_here|vm_compute; reflexivity]. }
  destruct Hc as (d & c & Hd & Hc & <-). exact (H d c Hd Hc).
Defined.

Lemma healthy_report_observed_witness :
  hr_overall (evaluateHealthSnapshot (healthy_snapshot "2026-09-16T02:30:00.000Z") (healthy_expectations None))
    = HEALTHY ∧
  hr_unknownChecks (evaluateHealthSnapshot (healthy_snapshot "2026-09-16T02:30:00.000Z") (healthy_expectations None)) = 0.
Proof.
  assert (H : hr_overall (evaluateHealthSnapshot (healthy_snapshot "2026-09-16T02:30:00.000Z")
    (healthy_expectations None)) = HEALTHY) by (vm_compute; reflexivity).
  split; [exact H|]. apply (healthy_report_observed _ _ H).
Defined.

Lemma noZeroDelayLoop_exact_witness :
  let run t := {| ri_id := "i"; ri_status := "completed"; ri_scheduledStartAt := None; ri_invokedById := None;
                  ri_createdAt := t; ri_completedAt := Some t |} in
  let l := [run "2026-09-15T12:00:30.000Z"; run "2026-09-15T12:00:00.000Z"] in
  ch_status (noZeroDelayLoop l "2026-09-15T12:01:00.000Z") = CRITICAL ∧ ¬ ForallOrdPairs apart l.
Proof.
  cbv zeta. set (l := [_; _]). split; [vm_compute; reflexivity|]. intros H.
  assert (Hs : Forall (λ i, is_Some (completion i)) (List.filter is_completed l)).
  { repeat constructor; vm_compute; eauto. }
  pose proof (proj2 (proj1 (noZeroDelayLoop_exact l "2026-09-15T12:01:00.000Z" Hs)) H) as E.
  vm_compute in E. discriminate E.
Defined.
