(* ===== verification/Alerting.v ===== *)
(** * Production alerting (services/kernel/src/alerting: types, fingerprint, policy, reducer)

    The policy table gives each health check the severity of each of its statuses, and
    the reducer turns the stored episode of a check and a fresh result into the next
    episode and at most one decision.  The policy's [rationale] texts are documentation
    and are left out.  The theorems: the decisions of a check follow the episode's
    grammar, an episode announced silently closes silently, every notification has its
    own identity, the policy covers every problem the health model can report, and
    what an unmapped UNKNOWN does to an open episode. *)

From S2P Require Import Prelude JsNumber JsDate Digest Contracts Plan Capability Schedule Health.
Local Open Scope Z_scope.
Local Open Scope js_scope.

(** ** types.ts *)

Inductive AlertSeverity := P0 | P1 | P2 | P3.

#[export] Instance AlertSeverity_eq_dec : EqDecision AlertSeverity.
Proof. solve_decision. Defined.

Definition SEVERITY_RANK (s : AlertSeverity) : Z := match s with P0 => 0 | P1 => 1 | P2 => 2 | P3 => 3 end.
Definition isWorse (a b : AlertSeverity) : bool := SEVERITY_RANK a <? SEVERITY_RANK b.
Definition severity_text (s : AlertSeverity) : string :=
  match s with P0 => "P0" | P1 => "P1" | P2 => "P2" | P3 => "P3" end.

Inductive AlertEventKind := NEW | ONGOING | ESCALATED | DEESCALATED | RECOVERED.

#[export] Instance AlertEventKind_eq_dec : EqDecision AlertEventKind.
Proof. solve_decision. Defined.

Definition kind_text (k : AlertEventKind) : string :=
  match k with
  | NEW => "NEW" | ONGOING => "ONGOING" | ESCALATED => "ESCALATED" | DEESCALATED => "DEESCALATED"
  | RECOVERED => "RECOVERED"
  end.

Inductive EpisodeState := EP_OPEN | EP_RECOVERED.

#[export] Instance EpisodeState_eq_dec : EqDecision EpisodeState.
Proof. solve_decision. Defined.

Record AlertStateRow := {
  ar_fingerprint : string; ar_checkId : string; ar_entityId : string; ar_severity : AlertSeverity;
  ar_currentState : EpisodeState; ar_firstSeenAt : string; ar_lastSeenAt : string;
  ar_lastNotifiedAt : option string; ar_occurrenceCount : Z; ar_recoveredAt : option string
}.

Record AlertDecision := {
  de_kind : AlertEventKind; de_severity : AlertSeverity; de_fingerprint : string; de_checkId : string;
  de_entityId : string; de_message : string; de_notify : bool; de_observed : option json;
  de_firstSeenAt : string; de_lastSeenAt : string; de_lastNotifiedAt : option string;
  de_occurrenceCount : Z; de_durationMs : option (option Z)      (* the inner None is NaN *)
}.

Record AlertPolicyEntry := {
  pe_checkId : string; pe_severityFor : HealthStatus → option AlertSeverity; pe_notify : option bool;
  pe_notifyFor : option (HealthStatus → AlertSeverity → bool); pe_alertMessage : option (CheckResult → string)
}.

(** ** fingerprint.ts *)

Definition newline : string := String (ascii_of_N 10) EmptyString.

Definition fingerprintFor (checkId entityId : string) : string :=
  slice 0 32 (Sha256.sha256_hex (checkId +:+ newline +:+ entityId)).

Definition resolveEntityId (checkId canonicalScheduleId : string) : string := canonicalScheduleId.

(** ** policy.ts *)

Definition simple_full (checkId : string) (m : list (HealthStatus * AlertSeverity)) (notify : option bool)
    (alertMessage : option (CheckResult → string)) : AlertPolicyEntry :=
  {| pe_checkId := checkId;
     pe_severityFor := λ status, if status === HEALTHY then None else map_get m status;
     pe_notify := notify; pe_notifyFor := None; pe_alertMessage := alertMessage |}.
Definition simple (checkId : string) (m : list (HealthStatus * AlertSeverity)) : AlertPolicyEntry :=
  simple_full checkId m None None.

Definition identity (checkId : string) (m : list (HealthStatus * AlertSeverity)) : AlertPolicyEntry :=
  let e := simple checkId (m ++ [(UNKNOWN, P3)]) in
  {| pe_checkId := pe_checkId e; pe_severityFor := pe_severityFor e; pe_notify := pe_notify e;
     pe_notifyFor := Some (λ status _, status !== UNKNOWN); pe_alertMessage := pe_alertMessage e |}.

Definition prefixed (text : string) : option (CheckResult → string) := Some (λ c, text +:+ ch_message c).

Definition ALERT_POLICY : list AlertPolicyEntry :=
  [simple "authority.bindingReleaseConsistent" [(CRITICAL, P1); (UNKNOWN, P3)];
   simple_full "authority.admittedFiresHaveCanonicalTasks" [(CRITICAL, P0)] None
     (Some (λ _, "An admitted schedule fire has no corresponding KernelJSON admission record — the scheduler may have minted outside KernelJSON's authority"));
   simple "authority.admittedFiresMaterialised" [(DEGRADED, P2)];
   simple "authority.noReleaseMismatchIncidents" [(CRITICAL, P1)];
   simple "admission.doorReachable" [(CRITICAL, P1); (UNKNOWN, P3)];
   simple "admission.humanOperatorPresent" [(CRITICAL, P1)];
   simple "scheduler.scheduleEnabled" [(CRITICAL, P1)];
   simple "scheduler.activeVersionExpected" [(CRITICAL, P2)];
   simple "scheduler.recentFireExists" [(CRITICAL, P1); (DEGRADED, P2)];
   simple_full "scheduler.noDuplicateFireWindow" [(CRITICAL, P0)] None
     (prefixed "Duplicate fire row detected for a canonical window — ");
   simple "scheduler.noOrphanPlannedFire" [(DEGRADED, P2)];
   simple "scheduler.admittedFiresBoundConsistently" [(CRITICAL, P0)];
   simple_full "scheduler.nextWakeArmedAndFuture" [(CRITICAL, P1); (DEGRADED, P2)] None
     (prefixed "Enabled production schedule has no valid future wake — ");
   simple_full "scheduler.noZeroDelayLoop" [(CRITICAL, P0)] None
     (prefixed "Possible zero-delay self-rearm loop detected — ");
   simple "execution.workerRegistered" [(CRITICAL, P1)];
   simple "execution.capabilityServiceRegistered" [(CRITICAL, P1)];
   simple "execution.noWorkerRestartLoop" [(CRITICAL, P1); (DEGRADED, P2)];
   simple "restate.reachable" [(CRITICAL, P1)];
   simple "restate.expectedServicesRegistered" [(CRITICAL, P1)];
   simple_full "restate.noStuckInvocation" [(CRITICAL, P1)] None
     (prefixed "A scheduled wake is stuck past its own due time — ");
   simple "database.reachable" [(CRITICAL, P1)];
   simple "database.scheduleReadsSucceed" [(CRITICAL, P1)];
   simple "database.taskReadsSucceed" [(CRITICAL, P1)];
   simple "evidence.mostRecentCompletedTaskHasEvidence" [(CRITICAL, P2)];
   simple "evidence.toolReceiptPresentWhereRequired" [(CRITICAL, P2)];
   simple "evidence.digestMatchesApproved" [(CRITICAL, P1)];
   simple "evidence.boundToCorrectTask" [(CRITICAL, P0)];
   simple "releaseParity.selfReportedReleaseKnown" [(UNKNOWN, P3)];
   simple "releaseParity.matchesExpected" [(CRITICAL, P1)];
   simple "releaseParity.recentBindingsConsistent" [(CRITICAL, P1)];
   simple "releaseParity.noBoundReleaseRejection" [(CRITICAL, P1)];
   simple "productionConfig.armNextExpected" [(CRITICAL, P1)];
   simple "productionConfig.approvedDigestPresentAndValid" [(CRITICAL, P1)];
   simple "productionConfig.scheduleIdentityMatchesCanonical" [(CRITICAL, P1)];
   simple_full "legacyAuthority.b1FreezeObservable" [(UNKNOWN, P3); (CRITICAL, P0)] (Some false) None;
   identity "identity.completedTasksHaveActivation" [(CRITICAL, P1)];
   identity "identity.profilesHaveActivatedIdentity" [(DEGRADED, P2)];
   identity "identity.currentDigestParity" [(CRITICAL, P1)];
   identity "identity.singleCurrentPerTenant" [(CRITICAL, P0)];
   identity "identity.headEqualsCurrent" [(CRITICAL, P1)];
   identity "identity.analystRunsBound" [(CRITICAL, P0)];
   identity "identity.verifierIsolated" [(CRITICAL, P1)]].

Definition POLICY_BY_CHECK_ID : list (string * AlertPolicyEntry) :=
  fold_left (λ m entry, map_set m (pe_checkId entry) entry) ALERT_POLICY [].

Definition DEFAULT_POLICY : AlertPolicyEntry :=
  {| pe_checkId := "*"; pe_severityFor := λ status, if status === CRITICAL then Some P2 else None;
     pe_notify := None; pe_notifyFor := None; pe_alertMessage := None |}.

Definition resolvePolicy (checkId : string) : AlertPolicyEntry :=
  default DEFAULT_POLICY (map_get POLICY_BY_CHECK_ID checkId).

(** ** reducer.ts *)

Definition policyNotifies (policy : AlertPolicyEntry) (status : HealthStatus) (severity : AlertSeverity) : bool :=
  if pe_notify policy === Some false then false
  else match pe_notifyFor policy with Some f => f status severity | None => true end.

Definition alertMessage (policy : AlertPolicyEntry) (c : CheckResult) : string :=
  match pe_alertMessage policy with Some f => f c | None => ch_message c end.

Definition recoveredMessage (c : CheckResult) : string := ch_id c +:+ " recovered — " +:+ ch_message c.

(** [!existing || existing.currentState === "RECOVERED"] *)
Definition open_episode (existing : option AlertStateRow) : option AlertStateRow :=
  match existing with
  | Some r => if ar_currentState r === EP_RECOVERED then None else Some r
  | None => None
  end.

(** The branches of [reduceCheck]: the episode closes, opens, or goes on. *)
Definition close_episode (policy : AlertPolicyEntry) (r : AlertStateRow) (c : CheckResult)
    (entityId fingerprint now : string) : AlertStateRow * AlertDecision :=
  let notify := (pe_notify policy !== Some false)
                && (match pe_notifyFor policy with None => true | Some _ => bool_decide (is_Some (ar_lastNotifiedAt r)) end) in
  let lastNotifiedAt := if notify then Some now else ar_lastNotifiedAt r in
  ({| ar_fingerprint := ar_fingerprint r; ar_checkId := ar_checkId r; ar_entityId := ar_entityId r;
      ar_severity := ar_severity r; ar_currentState := EP_RECOVERED; ar_firstSeenAt := ar_firstSeenAt r;
      ar_lastSeenAt := now; ar_lastNotifiedAt := lastNotifiedAt; ar_occurrenceCount := ar_occurrenceCount r;
      ar_recoveredAt := Some now |},
   {| de_kind := RECOVERED; de_severity := ar_severity r; de_fingerprint := fingerprint; de_checkId := ch_id c;
      de_entityId := entityId; de_message := recoveredMessage c; de_notify := notify; de_observed := None;
      de_firstSeenAt := ar_firstSeenAt r; de_lastSeenAt := now; de_lastNotifiedAt := lastNotifiedAt;
      de_occurrenceCount := ar_occurrenceCount r;
      de_durationMs := Some (js_sub (Date_parse now) (Date_parse (ar_firstSeenAt r))) |}).

Definition new_episode (policy : AlertPolicyEntry) (severity : AlertSeverity) (c : CheckResult)
    (entityId fingerprint now : string) : AlertStateRow * AlertDecision :=
  let notify := policyNotifies policy (ch_status c) severity in
  let lastNotifiedAt := if notify then Some now else None in
  ({| ar_fingerprint := fingerprint; ar_checkId := ch_id c; ar_entityId := entityId; ar_severity := severity;
      ar_currentState := EP_OPEN; ar_firstSeenAt := now; ar_lastSeenAt := now;
      ar_lastNotifiedAt := lastNotifiedAt; ar_occurrenceCount := 1; ar_recoveredAt := None |},
   {| de_kind := NEW; de_severity := severity; de_fingerprint := fingerprint; de_checkId := ch_id c;
      de_entityId := entityId; de_message := alertMessage policy c; de_notify := notify;
      de_observed := ch_observed c; de_firstSeenAt := now; de_lastSeenAt := now;
      de_lastNotifiedAt := lastNotifiedAt; de_occurrenceCount := 1; de_durationMs := None |}).

Definition episode_kind (severity previous : AlertSeverity) : AlertEventKind :=
  if severity === previous then ONGOING else if isWorse severity previous then ESCALATED else DEESCALATED.

Definition continue_episode (policy : AlertPolicyEntry) (severity : AlertSeverity) (r : AlertStateRow)
    (c : CheckResult) (entityId fingerprint now : string) : AlertStateRow * option AlertDecision :=
  let kind := episode_kind severity (ar_severity r) in
  let notify := (kind !== ONGOING) && policyNotifies policy (ch_status c) severity in
  let nextRow :=
    {| ar_fingerprint := ar_fingerprint r; ar_checkId := ar_checkId r; ar_entityId := ar_entityId r;
       ar_severity := severity; ar_currentState := ar_currentState r; ar_firstSeenAt := ar_firstSeenAt r;
       ar_lastSeenAt := now; ar_lastNotifiedAt := if notify then Some now else ar_lastNotifiedAt r;
       ar_occurrenceCount := ar_occurrenceCount r + 1; ar_recoveredAt := ar_recoveredAt r |} in
  (nextRow,
   if kind === ONGOING then None
   else Some {| de_kind := kind; de_severity := severity; de_fingerprint := fingerprint; de_checkId := ch_id c;
      de_entityId := entityId; de_message := alertMessage policy c; de_notify := notify;
      de_observed := ch_observed c; de_firstSeenAt := ar_firstSeenAt r; de_lastSeenAt := now;
      de_lastNotifiedAt := ar_lastNotifiedAt nextRow; de_occurrenceCount := ar_occurrenceCount nextRow;
      de_durationMs := None |}).

Definition reduceCheck (existing : option AlertStateRow) (c : CheckResult) (canonicalScheduleId now : string)
  : option AlertStateRow * option AlertDecision :=
  let policy := resolvePolicy (ch_id c) in
  let entityId := resolveEntityId (ch_id c) canonicalScheduleId in
  let fingerprint := fingerprintFor (ch_id c) entityId in
  match pe_severityFor policy (ch_status c), open_episode existing with
  | None, None => (existing, None)
  | None, Some r => let '(row, d) := close_episode policy r c entityId fingerprint now in (Some row, Some d)
  | Some severity, None =>
      let '(row, d) := new_episode policy severity c entityId fingerprint now in (Some row, Some d)
  | Some severity, Some r =>
      let '(row, d) := continue_episode policy severity r c entityId fingerprint now in (Some row, d)
  end.

Definition option_list {A} (o : option A) : list A := match o with Some a => [a] | None => [] end.

Definition check_fingerprint (canonicalScheduleId : string) (c : CheckResult) : string :=
  fingerprintFor (ch_id c) (resolveEntityId (ch_id c) canonicalScheduleId).

Definition reduceChecks (checks : list CheckResult) (existingByFingerprint : list (string * AlertStateRow))
    (canonicalScheduleId now : string) : list AlertStateRow * list AlertDecision :=
  let reduced := map (λ c, reduceCheck
    (map_get existingByFingerprint (check_fingerprint canonicalScheduleId c)) c canonicalScheduleId now) checks in
  (concat (map (option_list ∘ fst) reduced), concat (map (option_list ∘ snd) reduced)).

(** ** The episode grammar *)

(** What an open episode remembers: its severity, and whether it was ever announced. *)
Definition episode (existing : option AlertStateRow) : option (AlertSeverity * bool) :=
  match open_episode existing with
  | Some r => Some (ar_severity r, bool_decide (is_Some (ar_lastNotifiedAt r)))
  | None => None
  end.

(** Whether the closing of an episode is announced. *)
Definition closing_announced (policy : AlertPolicyEntry) (announced : bool) : bool :=
  (pe_notify policy !== Some false) && (match pe_notifyFor policy with None => true | Some _ => announced end).

(** The abstract machine of one check: the state after a decision, or [None] when the
    decision is not allowed there. *)
Definition episode_step (policy : AlertPolicyEntry) (st : option (AlertSeverity * bool)) (d : AlertDecision)
  : option (option (AlertSeverity * bool)) :=
  match st, de_kind d with
  | None, NEW => Some (Some (de_severity d, de_notify d))
  | Some (s, a), ESCALATED =>
      if isWorse (de_severity d) s then Some (Some (de_severity d, a || de_notify d)) else None
  | Some (s, a), DEESCALATED =>
      if isWorse s (de_severity d) then Some (Some (de_severity d, a || de_notify d)) else None
  | Some (s, a), RECOVERED =>
      if (de_severity d === s) && (de_notify d === closing_announced policy a) then Some None else None
  | _, _ => None
  end.

Fixpoint episode_run (policy : AlertPolicyEntry) (st : option (AlertSeverity * bool)) (ds : list AlertDecision)
  : option (option (AlertSeverity * bool)) :=
  match ds with
  | [] => Some st
  | d :: ds' => st' ← episode_step policy st d; episode_run policy st' ds'
  end.

(** Successive evaluations of one check. *)
Fixpoint reduce_run (scheduleId : string) (existing : option AlertStateRow) (evs : list (CheckResult * string))
  : option AlertStateRow * list AlertDecision :=
  match evs with
  | [] => (existing, [])
  | (c, now) :: evs' =>
      let '(row, d) := reduceCheck existing c scheduleId now in
      let '(final, ds) := reduce_run scheduleId row evs' in (final, option_list d ++ ds)
  end.

Lemma episode_open r :
  ar_currentState r = EP_OPEN → episode (Some r) = Some (ar_severity r, bool_decide (is_Some (ar_lastNotifiedAt r))).
Proof. intros H. unfold episode, open_episode. by rewrite H. Qed.

Lemma open_episode_some existing r :
  open_episode existing = Some r → existing = Some r ∧ ar_currentState r = EP_OPEN.
Proof.
  unfold open_episode. destruct existing as [r0|]; [|done]. case_bool_decide; [done|].
  intros [= ->]. split; [done|]. by destruct (ar_currentState r).
Qed.

Lemma episode_closed existing : open_episode existing = None → episode existing = None.
Proof. unfold episode. by intros ->. Qed.

Lemma episode_kind_cases sev previous :
  episode_kind sev previous = ONGOING ∧ sev = previous ∨
  episode_kind sev previous = ESCALATED ∧ isWorse sev previous = true ∨
  episode_kind sev previous = DEESCALATED ∧ isWorse previous sev = true.
Proof. destruct sev, previous; vm_compute; auto. Qed.

Lemma announced_or (b : bool) (now : string) (last : option string) :
  bool_decide (is_Some (if b then Some now else last)) = orb (bool_decide (is_Some last)) b.
Proof. destruct b; [by rewrite orb_true_r|by rewrite orb_false_r]. Qed.

(** One evaluation is at most one step of the machine. *)
Lemma reduceCheck_step existing c i now :
  let policy := resolvePolicy (ch_id c) in
  let '(row, d) := reduceCheck existing c i now in
  match d with
  | None => episode row = episode existing
  | Some d => episode_step policy (episode existing) d = Some (episode row)
  end.
Proof.
  cbv zeta. unfold reduceCheck. set (policy := resolvePolicy (ch_id c)). clearbody policy.
  destruct (pe_severityFor policy (ch_status c)) as [sev|], (open_episode existing) as [r|] eqn:Eo; [..|done].
  - apply open_episode_some in Eo as [-> Hopen]. unfold continue_episode.
    rewrite (episode_open r Hopen), episode_open by exact Hopen. cbn [ar_severity ar_lastNotifiedAt].
    rewrite announced_or.
    destruct (episode_kind_cases sev (ar_severity r)) as [[-> ->]|[[-> Hw]|[-> Hw]]].
    + rewrite bool_decide_true by done. cbn [negb andb]. by rewrite orb_false_r.
    + rewrite bool_decide_false by done. cbn. by rewrite Hw.
    + rewrite bool_decide_false by done. cbn. by rewrite Hw.
  - rewrite (episode_closed existing Eo). unfold new_episode. cbn. by destruct (policyNotifies policy (ch_status c) sev).
  - apply open_episode_some in Eo as [-> Hopen]. rewrite (episode_open r Hopen). unfold close_episode.
    fold (closing_announced policy (bool_decide (is_Some (ar_lastNotifiedAt r)))). cbn.
    by rewrite (bool_decide_true (ar_severity r = _)), (bool_decide_true (closing_announced _ _ = _)) by done.
Qed.

(** Alerts follow the episode's grammar.  Whatever statuses a check takes, in any number
    and at any times, its decisions are a run of the abstract machine: an episode is
    opened by NEW, moves by ESCALATED only to a strictly more severe level and by
    DEESCALATED only to a strictly less severe one, is closed once by RECOVERED at its
    last severity, and nothing is decided while the severity stands; an entry with
    per-status control announces a recovery only if it announced something since the
    episode opened. *)
Theorem alerts_follow_grammar scheduleId id existing evs :
  Forall (λ ev, ch_id ev.1 = id) evs →
  let '(final, ds) := reduce_run scheduleId existing evs in
  episode_run (resolvePolicy id) (episode existing) ds = Some (episode final).
Proof.
  revert existing. induction evs as [|[c now] evs IH]; intros existing Hid; [done|].
  apply Forall_cons in Hid as [Hc Hid]. simpl in Hc. subst id. simpl.
  pose proof (reduceCheck_step existing c scheduleId now) as Hs. cbv zeta in Hs.
  destruct (reduceCheck existing c scheduleId now) as [row d].
  specialize (IH row Hid). destruct (reduce_run scheduleId row evs) as [final ds].
  destruct d as [d|]; simpl; [rewrite Hs; exact IH|by rewrite <- Hs].
Qed.

(** ** The identity of a notification *)

(** What [deriveNotificationId] hashes besides the fingerprint. *)
Definition moment (d : AlertDecision) : string * AlertEventKind * Z :=
  (de_firstSeenAt d, de_kind d, de_occurrenceCount d).

(** A decision of an episode that is at [r]: a later moment of that episode, or one of an
    episode that opens at one of [nows]. *)
Definition later_moment (existing : option AlertStateRow) (nows : list string) (d : AlertDecision) : Prop :=
  de_firstSeenAt d ∈ nows ∨
  ∃ r, open_episode existing = Some r ∧ de_firstSeenAt d = ar_firstSeenAt r ∧
    (de_kind d = RECOVERED ∨
     (de_kind d = ESCALATED ∨ de_kind d = DEESCALATED) ∧ ar_occurrenceCount r < de_occurrenceCount d).

(** What one evaluation does to the moments. *)
Lemma reduceCheck_moment existing c i now :
  let '(row, d) := reduceCheck existing c i now in
  (∀ r', open_episode row = Some r' →
     ar_firstSeenAt r' = now ∨ ∃ r, open_episode existing = Some r ∧ ar_firstSeenAt r' = ar_firstSeenAt r) ∧
  (∀ nows d', later_moment row nows d' → later_moment existing (now :: nows) d') ∧
  ∀ d0, d = Some d0 → later_moment existing [now] d0 ∧
    ∀ nows d', later_moment row nows d' → now ∉ nows →
      (∀ r, open_episode existing = Some r → ar_firstSeenAt r ∉ now :: nows) → moment d' ≠ moment d0.
Proof.
  unfold reduceCheck. set (policy := resolvePolicy (ch_id c)). clearbody policy.
  assert (Hmono : ∀ ex nows d', later_moment ex nows d' → later_moment ex (now :: nows) d').
  { intros ex nows d' [?|?]; [left; by right|by right]. }
  destruct (pe_severityFor policy (ch_status c)) as [sev|], (open_episode existing) as [r|] eqn:Eo.
  - unfold continue_episode. apply open_episode_some in Eo as [-> Hopen].
    assert (Hro : open_episode (Some r) = Some r) by (unfold open_episode; by rewrite Hopen).
    cbv zeta. match goal with |- context [later_moment (Some ?row) _ _] => set (row' := row) end.
    assert (Hro' : open_episode (Some row') = Some row') by (unfold open_episode; simpl; by rewrite Hopen).
    split_and!.
    + rewrite Hro'. intros r1 [= <-]. right. by exists r.
    + intros nows d' [?|(r1 & E & Hf & Hk)]; [left; by right|]. rewrite Hro' in E. injection E as <-.
      right. exists r. split_and!; [done|done|]. destruct Hk as [?|[? Hlt]]; [by left|right]. simpl in Hlt. split; [done|lia].
    + intros d0 Hd0. destruct (episode_kind_cases sev (ar_severity r)) as [[E _]|Hk]; [by rewrite E, bool_decide_true in Hd0|].
      assert (Hkind : episode_kind sev (ar_severity r) = ESCALATED ∨ episode_kind sev (ar_severity r) = DEESCALATED)
        by (destruct Hk as [[E _]|[E _]]; rewrite E; auto).
      rewrite bool_decide_false in Hd0 by (destruct Hkind; congruence). injection Hd0 as <-. split.
      * right. exists r. split_and!; [done|done|right]. simpl. split; [done|lia].
      * intros nows d' Hl Hnow Hfirst. unfold moment. simpl. intros [= Ef Ek Eoc].
        specialize (Hfirst r eq_refl). destruct Hl as [Hin|(r1 & E & _ & Hk1)].
        -- rewrite Ef in Hin. apply Hfirst. by right.
        -- rewrite Hro' in E. injection E as <-. simpl in Hk1.
           destruct Hk1 as [Hk1|[_ Hlt]]; [destruct Hkind; congruence|lia].
  - unfold new_episode. split_and!.
    + intros r1 [= <-]. by left.
    + intros nows d' [?|(r1 & [= <-] & Hf & _)]; [left; by right|]. left. rewrite Hf. left.
    + intros d0 [= <-]. split; [left; left|]. intros nows d' Hl Hnow _. unfold moment. simpl.
      intros [= Ef Ek _]. destruct Hl as [Hin|(r1 & E & Hf & Hk1)]; [congruence|].
      rewrite Ek in Hk1. naive_solver.
  - unfold close_episode. apply open_episode_some in Eo as [-> Hopen].
    assert (Hro : open_episode (Some r) = Some r) by (unfold open_episode; by rewrite Hopen).
    split_and!; [done| |].
    + intros nows d' [?|(r1 & E & _)]; [left; by right|done].
    + intros d0 [= <-]. split; [right; exists r; auto|]. intros nows d' Hl Hnow Hfirst. unfold moment. simpl.
      intros [= Ef _ _]. specialize (Hfirst r eq_refl). destruct Hl as [Hin|(r1 & E & _)]; [|done].
      rewrite Ef in Hin. apply Hfirst. by right.
  - split_and!; [|auto|done]. rewrite Eo. done.
Qed.

Lemma reduce_run_moments i evs : ∀ existing,
  let nows := map snd evs in let ds := (reduce_run i existing evs).2 in
  NoDup nows → (∀ r, open_episode existing = Some r → ar_firstSeenAt r ∉ nows) →
  Forall (later_moment existing nows) ds ∧ NoDup (map moment ds).
Proof.
  induction evs as [|[c now] evs IH]; intros existing; cbv zeta; simpl; [by split; constructor|].
  intros [Hnow Hnd]%NoDup_cons Hfirst.
  pose proof (reduceCheck_moment existing c i now) as Hm.
  destruct (reduceCheck existing c i now) as [row d]. destruct Hm as (Hrow & Hlater & Hd).
  assert (Hfirst' : ∀ r, open_episode row = Some r → ar_firstSeenAt r ∉ map snd evs).
  { intros r Hr. destruct (Hrow r Hr) as [->|(r0 & Hr0 & ->)]; [done|]. specialize (Hfirst r0 Hr0). set_solver. }
  destruct (IH row Hnd Hfirst') as [Hl Hn]. destruct (reduce_run i row evs) as [final ds]. cbn [snd] in *.
  assert (Hl' : Forall (later_moment existing (now :: map snd evs)) ds) by (eapply Forall_impl; [exact Hl|auto]).
  destruct d as [d0|]; simpl; [|done]. destruct (Hd d0 eq_refl) as [H0 Hne]. split.
  - constructor; [|done]. destruct H0 as [?|?]; [left; set_solver|by right].
  - constructor; [|done]. intros Hin. apply list_elem_of_fmap in Hin as (d' & E & Hd').
    rewrite Forall_forall in Hl. exact (Hne _ d' (Hl d' Hd') Hnow Hfirst (eq_sym E)).
Qed.

(** ** The policy against the health model *)

(** The policy has an explicit entry that gives this status of this check a severity;
    HEALTHY and UNKNOWN are not problems. *)
Definition covered_at (id : string) (status : HealthStatus) : bool :=
  match status with
  | HEALTHY | UNKNOWN => true
  | _ =>
      match map_get POLICY_BY_CHECK_ID id with
      | Some entry => bool_decide (is_Some (pe_severityFor entry status))
      | None => false
      end
  end.

Definition covered (c : CheckResult) : Prop := covered_at (ch_id c) (ch_status c) = true.

(** Split the verdicts a check's status depends on and evaluate the policy there. *)
Ltac cover :=
  unfold covered; cbn [ch_id ch_status check dbUnknown unknownFromUnavailable];
  repeat match goal with |- context [verdict ?b _] =>
    lazymatch b with true => fail | false => fail | _ => destruct b end end;
  repeat case_match; vm_compute; reflexivity.

Ltac cover_all :=
  cbv beta iota zeta;
  repeat match goal with
  | |- Forall _ (_ ++ _) => apply Forall_app; split
  | |- Forall _ (?c :: _) => constructor; [lazymatch c with
      | check _ ?st _ _ _ _ _ => tryif is_var st then idtac else cover
      | dbUnknown _ _ _ => cover
      | unknownFromUnavailable _ _ _ _ => cover
      | _ => idtac end|]
  | |- Forall _ [] => constructor
  end.

Definition all_covered (d : DomainResult) : Prop := Forall covered (dr_checks d).

Lemma all_covered_aggregate checks : Forall covered checks → all_covered (aggregateDomain checks).
Proof. unfold all_covered. by rewrite aggregateDomain_checks. Qed.

Lemma binding_verdict_unknown p e :
  (bindingProvenanceVerdict p e).1 = HEALTHY ∨ (bindingProvenanceVerdict p e).1 = UNKNOWN ∨
  (bindingProvenanceVerdict p e).1 = CRITICAL.
Proof. unfold bindingProvenanceVerdict. repeat case_match; auto. Qed.

Lemma scheduler_covered s exp at_ : all_covered (evaluateScheduler s exp at_).
Proof.
  apply all_covered_aggregate, Forall_app. split.
  - unfold scheduler_db_checks. destruct (sn_sched_dbReachable s).
    + apply Forall_app. split.
      * unfold scheduleEnabled. destruct (sn_scheduleState s); [|cover_all].
        constructor; [cover|]. destruct (truthy _); cover_all.
      * cover_all; [unfold recentFireExists; destruct (head _)|unfold noDuplicateFireWindow
          |unfold noOrphanPlannedFire|unfold admittedFiresBoundConsistently]; cover.
    + apply Forall_app. split; [cover_all|]. destruct (truthy _); cbn [map app]; cover_all.
  - unfold scheduler_restate_checks. destruct (sn_restateInvocations s); [|cover_all].
    cover_all; [|unfold noZeroDelayLoop; cover]. unfold nextWakeArmedAndFuture.
    destruct (ex_armNext exp); [|cover]. destruct (pending_wakes _); cover.
Qed.

Lemma binding_covered id p e at_ ob :
  In id ["authority.bindingReleaseConsistent"; "releaseParity.recentBindingsConsistent"] →
  covered (check id (bindingProvenanceVerdict p e).1 "database release epochs"
             (bindingProvenanceVerdict p e).2 at_ ob None).
Proof.
  intros Hid. unfold covered. cbn [ch_id ch_status check].
  destruct (binding_verdict_unknown p e) as [-> | [-> | ->]]; [done|done|].
  destruct Hid as [<-|[<-|[]]]; vm_compute; reflexivity.
Qed.

Lemma authority_covered s at_ e : all_covered (evaluateAuthority s at_ e).
Proof.
  unfold evaluateAuthority. destruct (sn_auth_dbReachable s); [|apply all_covered_aggregate; cover_all].
  pose proof (binding_covered "authority.bindingReleaseConsistent" (sn_auth_bindingProvenance s) e at_
    (Some (provenance_json (sn_auth_bindingProvenance s))) (or_introl eq_refl)) as Hb.
  destruct (bindingProvenanceVerdict _ e) as [st msg]. apply all_covered_aggregate.
  constructor; [exact Hb|]. cover_all.
Qed.

Lemma admission_covered s at_ : all_covered (evaluateAdmission s at_).
Proof.
  apply all_covered_aggregate. cover_all; [destruct (sn_doorHealthy s)|destruct (sn_adm_dbReachable s)]; cover.
Qed.

Lemma execution_covered s exp at_ : all_covered (evaluateExecution s exp at_).
Proof.
  apply all_covered_aggregate, Forall_app. split.
  - destruct (sn_exec_registeredServices s); [|cover_all]. constructor; [cover|].
    destruct (includes (ex_services exp) _); cover_all.
  - destruct (sn_workerRestartCount s) as [n|]; [|cover_all]. constructor; [|constructor].
    destruct (n =? 0); [cover|]. destruct (n <? 3); cover.
Qed.

Lemma restate_covered s exp at_ g : all_covered (evaluateRestate s exp at_ g).
Proof.
  apply all_covered_aggregate. cover_all;
    [destruct (sn_rst_reachable s)|destruct (sn_rst_registeredServices s)|destruct (sn_scheduleInvocations s)]; cover.
Qed.

Lemma database_covered s at_ : all_covered (evaluateDatabase s at_).
Proof. apply all_covered_aggregate. constructor; [cover|]. destruct (sn_db_reachable s); cover_all. Qed.

Lemma evidence_covered s exp at_ : all_covered (evaluateEvidence s exp at_).
Proof.
  unfold evaluateEvidence. destruct (sn_ev_dbReachable s); [|apply all_covered_aggregate; cover_all].
  destruct (truthy _); apply all_covered_aggregate; cover_all.
  unfold digestMatchesApproved. destruct (truthy _); [|cover]. match goal with |- context [List.find ?f ?l] => destruct (List.find f l) end; cover.
Qed.

Lemma parity_covered s exp at_ : all_covered (evaluateReleaseParity s exp at_).
Proof.
  unfold evaluateReleaseParity.
  match goal with |- context [bindingProvenanceVerdict ?p ?e] =>
    pose proof (binding_covered "releaseParity.recentBindingsConsistent" p e at_
      (Some (provenance_json (sn_rel_bindingProvenance s))) (or_intror (or_introl eq_refl))) as Hb;
    destruct (bindingProvenanceVerdict p e) as [st msg] end.
  apply all_covered_aggregate. cover_all.
  - destruct (truthy (ex_releaseId exp)), (truthy (sn_selfReportedReleaseId s)); cover.
  - exact Hb.
  - destruct (sn_rel_dbReachable s); cover.
Qed.

Lemma config_covered s exp at_ : all_covered (evaluateProductionConfig s exp at_).
Proof.
  apply all_covered_aggregate. cover_all; [destruct (sn_armNext s)|destruct (sn_approvedDigestShapeValid s)]; cover.
Qed.

Lemma legacy_covered s at_ : all_covered (evaluateLegacyAuthority s at_).
Proof. apply all_covered_aggregate. cover_all. destruct (sn_b1FreezeObservable s); cover. Qed.

Lemma identity_covered s exp at_ : all_covered (evaluateIdentity s exp at_).
Proof.
  unfold evaluateIdentity. destruct (sn_id_dbReachable s); apply all_covered_aggregate;
    [|cbn [map IDENTITY_CHECK_SOURCES]; cover_all].
  apply Forall_app. split; [cover_all|]. unfold evaluateIdentityCognition.
  destruct (sn_cognition s) as [c|]; [|cbn [map drop IDENTITY_CHECK_SOURCES]; cover_all].
  cover_all; [unfold identity_invariant; cover..|unfold analystRunsBound|unfold verifierIsolated].
  - destruct (_ =? 0); cover.
  - destruct (negb _); [cover|]. destruct (_ || _); cover.
Qed.

(** The policy covers every problem the health model can report.  Whatever was
    observed and expected, each check of the report that is CRITICAL or DEGRADED has
    an explicit entry in the policy table (never the default one) that gives this
    status a severity, so it opens or moves an alert episode. *)
Theorem policy_covers_problems s exp d c :
  d ∈ snapshot_domains s exp → c ∈ dr_checks d.2 → ch_status c = CRITICAL ∨ ch_status c = DEGRADED →
  ∃ entry sev, map_get POLICY_BY_CHECK_ID (ch_id c) = Some entry ∧ resolvePolicy (ch_id c) = entry ∧
    pe_severityFor entry (ch_status c) = Some sev.
Proof.
  intros Hd Hc Hst. assert (Hall : Forall (λ d, all_covered d.2) (snapshot_domains s exp)).
  { unfold snapshot_domains. rewrite !Forall_cons. repeat match goal with |- _ ∧ _ => split end; cbn [snd];
      auto using Forall_nil_2, authority_covered, admission_covered, scheduler_covered, execution_covered, restate_covered,
        database_covered, evidence_covered, parity_covered, config_covered, legacy_covered, identity_covered. }
  rewrite Forall_forall in Hall. specialize (Hall d Hd). unfold all_covered in Hall.
  rewrite Forall_forall in Hall. specialize (Hall c Hc). unfold covered, covered_at in Hall.
  unfold resolvePolicy. destruct Hst as [E|E]; rewrite E in Hall |- *; revert Hall;
    (destruct (map_get POLICY_BY_CHECK_ID (ch_id c)) as [entry|]; [|done]);
    intros [sev Hsev]%bool_decide_eq_true; by exists entry, sev.
Qed.

(** ** What the policy does with an unmapped UNKNOWN *)

(** The open episode of a duplicate fire window, and the check the scheduler's evaluation
    makes when the database cannot be reached. *)
Definition duplicate_window_open : AlertStateRow :=
  {| ar_fingerprint := fingerprintFor "scheduler.noDuplicateFireWindow" "s";
     ar_checkId := "scheduler.noDuplicateFireWindow"; ar_entityId := "s"; ar_severity := P0;
     ar_currentState := EP_OPEN; ar_firstSeenAt := "2026-09-15T12:00:00.000Z";
     ar_lastSeenAt := "2026-09-15T12:00:00.000Z"; ar_lastNotifiedAt := Some "2026-09-15T12:00:00.000Z";
     ar_occurrenceCount := 1; ar_recoveredAt := None |}.

Definition outage_check : CheckResult :=
  dbUnknown "scheduler.noDuplicateFireWindow" "schedule_state/schedule_fires" "2026-09-15T12:05:00.000Z".

(** An outage closes the worst alert.  With the database unreachable the duplicate-window
    check is UNKNOWN; its policy entry does not map UNKNOWN, so the reducer treats it
    as healthy: an open P0 episode is closed, and RECOVERED is announced. *)
Theorem unknown_closes_open_p0 :
  (∀ s exp at_, sn_sched_dbReachable s = false →
     dbUnknown "scheduler.noDuplicateFireWindow" "schedule_state/schedule_fires" at_
       ∈ dr_checks (evaluateScheduler s exp at_)) ∧
  ∃ row d, reduceCheck (Some duplicate_window_open) outage_check "s" "2026-09-15T12:05:00.000Z" = (Some row, Some d) ∧
    ar_currentState row = EP_RECOVERED ∧ de_kind d = RECOVERED ∧ de_severity d = P0 ∧ de_notify d = true.
Proof.
  split.
  - intros s exp at_ H. unfold evaluateScheduler. rewrite aggregateDomain_checks. unfold scheduler_db_checks.
    rewrite H. apply elem_of_app. left. apply elem_of_app. right. apply elem_of_app. right. cbn [map].
    apply list_elem_of_further, list_elem_of_here.
  - unfold reduceCheck, outage_check. cbn [ch_id ch_status dbUnknown check]. generalize (fingerprintFor "scheduler.noDuplicateFireWindow" (resolveEntityId "scheduler.noDuplicateFireWindow" "s")). intros fp.
    eexists _, _. vm_compute. repeat split.
Qed.

(** The rationale of the legacy freeze's entry says a CRITICAL is notified normally; the
    entry's [notify: false] wins for every status. *)
Theorem b1_freeze_never_notified st sev :
  policyNotifies (resolvePolicy "legacyAuthority.b1FreezeObservable") st sev = false.
Proof. unfold resolvePolicy. vm_compute. reflexivity. Qed.

Lemma alerts_follow_grammar_witness :
  let bad := {| ch_id := "scheduler.recentFireExists"; ch_status := DEGRADED; ch_observed := None;
                ch_expected := None; ch_evidence := "e"; ch_message := "m"; ch_checkedAt := "t" |} in
  let worse := {| ch_id := "scheduler.recentFireExists"; ch_status := CRITICAL; ch_observed := None;
                  ch_expected := None; ch_evidence := "e"; ch_message := "m"; ch_checkedAt := "t" |} in
  let evs := [(bad, "1"); (bad, "2"); (worse, "3")] in
  map de_kind (reduce_run "s" None evs).2 = [NEW; ESCALATED] ∧
  episode_run (resolvePolicy "scheduler.recentFireExists") None (reduce_run "s" None evs).2 =
    Some (Some (P1, true)).
Proof.
  cbv zeta. set (evs := [_; _; _]).
  assert (Hid : Forall (λ ev, ch_id ev.1 = "scheduler.recentFireExists") evs) by (repeat constructor).
  pose proof (alerts_follow_grammar "s" "scheduler.recentFireExists" None evs Hid) as H.
  assert (Hf : map de_kind (reduce_run "s" None evs).2 = [NEW; ESCALATED] ∧
    episode (reduce_run "s" None evs).1 = Some (P1, true)) by (split; vm_compute; reflexivity).
  destruct Hf as [Hk Hf]. split; [exact Hk|].
  revert H Hf. generalize (reduce_run "s" None evs). intros [final ds]. cbn [fst snd]. intros H Hf.
  exact (eq_trans H (f_equal Some Hf)).
Defined.

Lemma policy_covers_problems_witness : ∃ entry sev,
  resolvePolicy "restate.noStuckInvocation" = entry ∧ pe_severityFor entry CRITICAL = Some sev.
Proof.
  set (s := healthy_snapshot "2026-09-15T11:30:00.000Z"). set (exp := healthy_expectations None).
  assert (Hc : ∃ d c, d ∈ snapshot_domains s exp ∧ c ∈ dr_checks d.2 ∧ ch_id c = "restate.noStuckInvocation" ∧
    ch_status c = CRITICAL).
  { exists (D_restate, evaluateRestate (hs_restate s) exp (hs_checkedAt s) None). eexists.
    split; [unfold snapshot_domains; do 4 apply list_elem_of_further; apply list_elem_of_here|].
    split; [do 2 apply list_elem_of_further; apply list_elem_of_here|]. split; [reflexivity|vm_compute; reflexivity]. }
  destruct Hc as (d & c & Hd & Hc & Hi & Hst).
  destruct (policy_covers_problems s exp d c Hd Hc (or_introl Hst)) as (entry & sev & _ & Hr & Hs).
  exists entry, sev. rewrite Hi in Hr. rewrite Hst in Hs. split; [exact Hr|exact Hs].
Defined.
