(* ===== verification/Outbox.v ===== *)
(** * Notification outbox (services/kernel/src/alerting: outbox-types, outbox, outbox-store)

    A decision worth telling someone about becomes a durable intent with its own
    identity, an outbox row carries it through PENDING, SENDING, DELIVERED or POISON,
    and a store keeps the rows and the log of attempts.  The store is an interface
    ([NotificationOutboxStore]) with its laws; the in-memory store discharges them.
    An operation that throws has changed nothing, which is what a lost connection to
    the database store leaves behind. *)

From S2P Require Import Prelude JsNumber JsDate Digest Contracts Plan Capability Schedule Health Alerting.
Local Open Scope Z_scope.
Local Open Scope js_scope.

(** ** outbox-types.ts *)

Inductive OutboxStatus := PENDING | SENDING | DELIVERED | POISON.

#[export] Instance OutboxStatus_eq_dec : EqDecision OutboxStatus.
Proof. solve_decision. Defined.

Inductive DeliveryOutcome := DO_DELIVERED | TRANSIENT_FAILURE | PERMANENT_FAILURE | AMBIGUOUS_RECOVERED.

#[export] Instance DeliveryOutcome_eq_dec : EqDecision DeliveryOutcome.
Proof. solve_decision. Defined.

Record NotificationPayload := {
  np_notificationId : string; np_fingerprint : string; np_checkId : string; np_entityId : string;
  np_firstSeenAt : string; np_lastSeenAt : string; np_kind : AlertEventKind; np_occurrenceCount : Z;
  np_severity : AlertSeverity; np_message : string;
  np_durationMs : option (option Z)                                  (* [null]; NaN *)
}.

Record NotificationIntent := { ni_payload : NotificationPayload; ni_createdAt : string }.

Record NotificationOutboxRow := {
  or_intent : NotificationIntent; or_status : OutboxStatus; or_attemptCount : Z;
  or_lastAttemptAt : option string; or_nextAttemptAt : string; or_deliveredAt : option string;
  or_lastError : option string
}.

Definition or_payload (r : NotificationOutboxRow) : NotificationPayload := ni_payload (or_intent r).
Definition or_id (r : NotificationOutboxRow) : string := np_notificationId (or_payload r).

Inductive DeliveryAttemptResult :=
  | AttemptOk
  | AttemptFailed (permanent : bool) (errorClass : string).

Record DeliveryEvent := {
  ev_notificationId : string; ev_attemptNumber : Z; ev_attemptedAt : string;
  ev_outcome : DeliveryOutcome; ev_errorClass : option string; ev_transport : string
}.

Record DeliveryConfig := { baseDelayMs : Z; maxDelayMs : Z; maxAttempts : Z; staleSendingMs : Z }.

Definition DEFAULT_DELIVERY_CONFIG : DeliveryConfig :=
  {| baseDelayMs := 5000; maxDelayMs := 300000; maxAttempts := 8; staleSendingMs := 120000 |}.

(** ** outbox.ts *)

Definition moment_text (fingerprint firstSeenAt : string) (kind : AlertEventKind) (occurrenceCount : Z) : string :=
  fingerprint +:+ newline +:+ firstSeenAt +:+ newline +:+ kind_text kind +:+ newline +:+ pretty occurrenceCount.

Definition deriveNotificationId (fingerprint firstSeenAt : string) (kind : AlertEventKind) (occurrenceCount : Z)
  : string :=
  slice 0 32 (Sha256.sha256_hex (moment_text fingerprint firstSeenAt kind occurrenceCount)).

Definition intent_of (now : string) (d : AlertDecision) : NotificationIntent :=
  {| ni_payload :=
       {| np_notificationId :=
            deriveNotificationId (de_fingerprint d) (de_firstSeenAt d) (de_kind d) (de_occurrenceCount d);
          np_fingerprint := de_fingerprint d; np_checkId := de_checkId d; np_entityId := de_entityId d;
          np_firstSeenAt := de_firstSeenAt d; np_lastSeenAt := de_lastSeenAt d; np_kind := de_kind d;
          np_occurrenceCount := de_occurrenceCount d; np_severity := de_severity d; np_message := de_message d;
          np_durationMs := de_durationMs d |};
     ni_createdAt := now |}.

Definition intentsFromDecisions (decisions : list AlertDecision) (now : string) : list NotificationIntent :=
  map (intent_of now) (List.filter de_notify decisions).

Definition computeBackoffMs (attemptCount : Z) (config : DeliveryConfig) : Z :=
  Z.min (baseDelayMs config * 2 ^ Z.max 0 (attemptCount - 1)) (maxDelayMs config).

Record DeliveryDecision := {
  dd_row : NotificationOutboxRow; dd_eventOutcome : DeliveryOutcome; dd_errorClass : option string
}.

(** [new Date(t).toISOString()]: an invalid date throws. *)
Definition Date_toISOString (t : option Z) : result string :=
  match t with
  | Some t => if Z.abs t <=? 8640000000000000 then Ok (toISOString t) else Throw (Exn "RangeError" "Invalid time value")
  | None => Throw (Exn "RangeError" "Invalid time value")
  end.

(** The row after an attempt: its status, and what the attempt rewrote. *)
Definition after_attempt (row : NotificationOutboxRow) (status : OutboxStatus) (now next : string)
    (deliveredAt lastError : option string) : NotificationOutboxRow :=
  {| or_intent := or_intent row; or_status := status; or_attemptCount := or_attemptCount row;
     or_lastAttemptAt := Some now; or_nextAttemptAt := next; or_deliveredAt := deliveredAt;
     or_lastError := lastError |}.

Definition decideNextOutboxState (row : NotificationOutboxRow) (attempt : DeliveryAttemptResult) (now : string)
    (config : DeliveryConfig) : result DeliveryDecision :=
  let attemptCount := or_attemptCount row in
  match attempt with
  | AttemptOk =>
      Ok {| dd_row := after_attempt row DELIVERED now (or_nextAttemptAt row) (Some now) None;
            dd_eventOutcome := DO_DELIVERED; dd_errorClass := None |}
  | AttemptFailed true errorClass =>
      Ok {| dd_row := after_attempt row POISON now (or_nextAttemptAt row) (or_deliveredAt row) (Some errorClass);
            dd_eventOutcome := PERMANENT_FAILURE; dd_errorClass := Some errorClass |}
  | AttemptFailed false errorClass =>
      if maxAttempts config <=? attemptCount then
        Ok {| dd_row := after_attempt row POISON now (or_nextAttemptAt row) (or_deliveredAt row) (Some errorClass);
              dd_eventOutcome := TRANSIENT_FAILURE; dd_errorClass := Some errorClass |}
      else
        let delay := computeBackoffMs attemptCount config in
        nextAttemptAt ← Date_toISOString (Date_parse now ≫= λ t, Some (t + delay));
        Ok {| dd_row := after_attempt row PENDING now nextAttemptAt (or_deliveredAt row) (Some errorClass);
              dd_eventOutcome := TRANSIENT_FAILURE; dd_errorClass := Some errorClass |}
  end.

Definition recoverIfStaleSending (row : NotificationOutboxRow) (now : string) (config : DeliveryConfig)
  : option DeliveryDecision :=
  match or_status row, or_lastAttemptAt row with
  | SENDING, Some lastAttemptAt =>
      let ageMs := js_sub (Date_parse now) (Date_parse lastAttemptAt) in
      if js_lt ageMs (staleSendingMs config) then None
      else Some {| dd_row :=
                     {| or_intent := or_intent row; or_status := PENDING;
                        or_attemptCount := or_attemptCount row; or_lastAttemptAt := or_lastAttemptAt row;
                        or_nextAttemptAt := now; or_deliveredAt := or_deliveredAt row;
                        or_lastError := or_lastError row |};
                   dd_eventOutcome := AMBIGUOUS_RECOVERED; dd_errorClass := None |}
  | _, _ => None
  end.

(** ** outbox-store.ts: the interface *)

Class NotificationOutboxStore (S : Type) := {
  enqueue : list NotificationIntent → prog S unit;
  listDue : string → nat → prog S (list NotificationOutboxRow);
  markSending : string → string → prog S (option NotificationOutboxRow);
  applyOutcome : NotificationOutboxRow → DeliveryOutcome → option string → Z → string → string → prog S unit;
  listStaleSending : string → Z → prog S (list NotificationOutboxRow)
}.

(** The row of a fresh intent. *)
Definition pending_row (intent : NotificationIntent) : NotificationOutboxRow :=
  {| or_intent := intent; or_status := PENDING; or_attemptCount := 0; or_lastAttemptAt := None;
     or_nextAttemptAt := ni_createdAt intent; or_deliveredAt := None; or_lastError := None |}.

(** A row claimed for delivery. *)
Definition sending_row (row : NotificationOutboxRow) (now : string) : NotificationOutboxRow :=
  {| or_intent := or_intent row; or_status := SENDING; or_attemptCount := or_attemptCount row + 1;
     or_lastAttemptAt := Some now; or_nextAttemptAt := or_nextAttemptAt row;
     or_deliveredAt := or_deliveredAt row; or_lastError := or_lastError row |}.

Definition row_due (now : string) (r : NotificationOutboxRow) : bool :=
  (or_status r === PENDING) && str_le (or_nextAttemptAt r) now.

(** [x >= b] on a number that may be NaN. *)
Definition js_ge (a : option Z) (b : Z) : bool := match a with Some x => b <=? x | None => false end.

Definition row_stale (now : string) (stale : Z) (r : NotificationOutboxRow) : bool :=
  (or_status r === SENDING) &&
  match or_lastAttemptAt r with
  | Some last => js_ge (js_sub (Date_parse now) (Date_parse last)) stale
  | None => false
  end.

(** The rows after [enqueue]: an id already there keeps its row, and the first intent of
    an id wins. *)
Definition enqueued (intents : list NotificationIntent) (rows : gmap string NotificationOutboxRow)
  : gmap string NotificationOutboxRow :=
  rows ∪ list_to_map (map (λ i, (np_notificationId (ni_payload i), pending_row i)) intents).

Definition event_of (row : NotificationOutboxRow) (outcome : DeliveryOutcome) (errorClass : option string)
    (attemptNumber : Z) (now transport : string) : DeliveryEvent :=
  {| ev_notificationId := or_id row; ev_attemptNumber := attemptNumber; ev_attemptedAt := now;
     ev_outcome := outcome; ev_errorClass := errorClass; ev_transport := transport |}.

(** What a delivery transport is called through. *)
Class Notifier (N : Type) := { notify : NotificationPayload → prog N unit }.

(** What the worker relies on.  A call that throws may or may not have taken effect, the
    way a connection lost around a commit leaves it. *)
Class NotificationOutboxStoreLaws (S : Type) `{!NotificationOutboxStore S} := {
  ob_wf : S → Prop;
  ob_rows : S → gmap string NotificationOutboxRow;
  ob_events : S → list DeliveryEvent;
  ob_key : ∀ s id r, ob_wf s → ob_rows s !! id = Some r → or_id r = id;
  enqueue_law : ∀ l s s' r, ob_wf s → enqueue l s = (s', r) →
    ob_wf s' ∧ ob_events s' = ob_events s ∧
    (ob_rows s' = enqueued l (ob_rows s) ∨ is_ok r = false ∧ ob_rows s' = ob_rows s);
  listDue_law : ∀ now n s s' r, ob_wf s → listDue now n s = (s', r) →
    ob_wf s' ∧ ob_events s' = ob_events s ∧ ob_rows s' = ob_rows s ∧
    ∀ l, r = Ok l → ∀ row, row ∈ l → ob_rows s !! or_id row = Some row ∧ row_due now row = true;
  markSending_law : ∀ id now s s' r, ob_wf s → markSending id now s = (s', r) →
    ob_wf s' ∧ ob_events s' = ob_events s ∧
    match r with
    | Ok (Some row) => ∃ r0, ob_rows s !! id = Some r0 ∧ row_due now r0 = true ∧
        row = sending_row r0 now ∧ ob_rows s' = <[id := row]> (ob_rows s)
    | Ok None => ob_rows s' = ob_rows s ∧ ∀ r0, ob_rows s !! id = Some r0 → row_due now r0 = false
    | Throw _ => ob_rows s' = ob_rows s ∨ ∃ r0, ob_rows s !! id = Some r0 ∧ row_due now r0 = true ∧
        ob_rows s' = <[id := sending_row r0 now]> (ob_rows s)
    end;
  applyOutcome_law : ∀ row o e n now t s s' r, ob_wf s → applyOutcome row o e n now t s = (s', r) →
    ob_wf s' ∧
    (ob_rows s' = <[or_id row := row]> (ob_rows s) ∧ ob_events s' = ob_events s ++ [event_of row o e n now t] ∨
     is_ok r = false ∧ ob_rows s' = ob_rows s ∧ ob_events s' = ob_events s);
  listStaleSending_law : ∀ now st s s' r, ob_wf s → listStaleSending now st s = (s', r) →
    ob_wf s' ∧ ob_events s' = ob_events s ∧ ob_rows s' = ob_rows s ∧
    ∀ l, r = Ok l → NoDup (map or_id l) ∧
      ∀ row, row ∈ l → ob_rows s !! or_id row = Some row ∧ row_stale now st row = true
}.

(** The payloads a transport accepted: a call that returned was accepted, one that threw
    may have been. *)
Class NotifierLaws (N : Type) `{!Notifier N} := {
  nt_sent : N → list NotificationPayload;
  notify_ok : ∀ p n n', notify p n = (n', Ok tt) → nt_sent n' = nt_sent n ++ [p];
  notify_throw : ∀ p n n' e, notify p n = (n', Throw e) →
    nt_sent n' = nt_sent n ∨ nt_sent n' = nt_sent n ++ [p]
}.

(** ** InMemoryNotificationOutboxStore *)

Record OutboxStore := {
  os_rows : list (string * NotificationOutboxRow);       (* the [Map], in insertion order *)
  os_events : list DeliveryEvent
}.

Definition empty_outbox : OutboxStore := {| os_rows := []; os_events := [] |}.

Definition enqueue_one (rows : list (string * NotificationOutboxRow)) (intent : NotificationIntent)
  : list (string * NotificationOutboxRow) :=
  let id := np_notificationId (ni_payload intent) in
  if map_has rows id then rows else map_set rows id (pending_row intent).

Definition enqueue_mem (intents : list NotificationIntent) : prog OutboxStore unit := λ s,
  ({| os_rows := fold_left enqueue_one intents (os_rows s); os_events := os_events s |}, Ok tt).

Definition markSending_mem (notificationId now : string) : prog OutboxStore (option NotificationOutboxRow) := λ s,
  match map_get (os_rows s) notificationId with
  | Some row =>
      if negb (or_status row === PENDING) || negb (str_le (or_nextAttemptAt row) now) then (s, Ok None)
      else
        let next := sending_row row now in
        ({| os_rows := map_set (os_rows s) notificationId next; os_events := os_events s |}, Ok (Some next))
  | None => (s, Ok None)
  end.

Definition applyOutcome_mem (row : NotificationOutboxRow) (eventOutcome : DeliveryOutcome)
    (errorClass : option string) (attemptNumber : Z) (now transport : string) : prog OutboxStore unit := λ s,
  ({| os_rows := map_set (os_rows s) (or_id row) row;
      os_events := os_events s ++ [event_of row eventOutcome errorClass attemptNumber now transport] |}, Ok tt).

Definition listStaleSending_mem (now : string) (staleSendingMs : Z)
  : prog OutboxStore (list NotificationOutboxRow) := λ s,
  (s, Ok (List.filter (row_stale now staleSendingMs) (map_values (os_rows s)))).

Section due.
(** [String.prototype.localeCompare]. *)
Variable localeCompare : string → string → Z.

Definition listDue_mem (now : string) (limit : nat) : prog OutboxStore (list NotificationOutboxRow) := λ s,
  (s, Ok (take limit (js_sort (λ a b, localeCompare (ni_createdAt (or_intent a)) (ni_createdAt (or_intent b)))
    (List.filter (row_due now) (map_values (os_rows s)))))).

#[export] Instance InMemoryNotificationOutboxStore : NotificationOutboxStore OutboxStore :=
  {| enqueue := enqueue_mem; listDue := listDue_mem; markSending := markSending_mem;
     applyOutcome := applyOutcome_mem; listStaleSending := listStaleSending_mem |}.
End due.

(** [RecordingNotifier]: the payloads in the order they were handed over. *)
#[export] Instance RecordingNotifier : Notifier (list NotificationPayload) :=
  {| notify := λ payload sent, (sent ++ [payload], Ok tt) |}.

#[export] Instance RecordingNotifierLaws : NotifierLaws (list NotificationPayload).
Proof. refine {| nt_sent := λ sent, sent |}; [by intros p n n' [= <-]|by intros p n n' e [=]]. Defined.

(** *** The in-memory store keeps the laws *)

Definition keyed (rows : list (string * NotificationOutboxRow)) : Prop :=
  NoDup (map_keys rows) ∧ Forall (λ kr, or_id kr.2 = kr.1) rows.

Definition rows_map (s : OutboxStore) : gmap string NotificationOutboxRow := list_to_map (os_rows s).

Lemma keyed_set rows id row : keyed rows → or_id row = id → keyed (map_set rows id row).
Proof. intros [Hn Hf] He. split; [by apply map_set_NoDup|]. by apply map_set_Forall. Qed.

Lemma keyed_get rows id row : keyed rows → map_get rows id = Some row → or_id row = id.
Proof. intros [_ Hf] Hg%map_get_elem. rewrite Forall_forall in Hf. by apply (Hf _ Hg). Qed.

Lemma keyed_value rows row : keyed rows → row ∈ map_values rows → map_get rows (or_id row) = Some row.
Proof.
  intros [Hn Hf] ([id r] & -> & Hin)%list_elem_of_fmap. simpl. rewrite Forall_forall in Hf.
  pose proof (Hf _ Hin) as E. simpl in E. subst id. by apply map_elem_get.
Qed.

Lemma keyed_ids rows : keyed rows → map or_id (map_values rows) = map_keys rows.
Proof.
  intros [_ Hf]. unfold map_values, map_keys. induction Hf as [|[id r] rows Hr _ IH]; [done|].
  simpl. simpl in Hr. rewrite Hr. f_equal. exact IH.
Qed.

Lemma enqueue_one_view rows intent : keyed rows →
  keyed (enqueue_one rows intent) ∧
  list_to_map (enqueue_one rows intent) =@{gmap string _} enqueued [intent] (list_to_map rows).
Proof.
  intros Hk. unfold enqueue_one, enqueued, map_has. cbn [map list_to_map foldr fst snd].
  set (id := np_notificationId (ni_payload intent)). destruct (map_get rows id) as [r|] eqn:Hg.
  - split; [done|]. apply map_eq. intros j. rewrite lookup_union, lookup_insert, lookup_empty.
    case_decide; subst; [rewrite list_to_map_get, Hg; done|]. by rewrite (right_id_L None _).
  - split; [by apply keyed_set|]. rewrite list_to_map_set. apply map_eq. intros j.
    rewrite lookup_union, !lookup_insert, lookup_empty.
    case_decide; subst; [by rewrite list_to_map_get, Hg|by rewrite (right_id_L None _)].
Qed.

Lemma enqueued_nil rows : enqueued [] rows = rows.
Proof. unfold enqueued. simpl. by rewrite (right_id_L ∅ _). Qed.

Lemma enqueued_app l l' rows : enqueued l' (enqueued l rows) = enqueued (l ++ l') rows.
Proof. unfold enqueued. by rewrite map_app, list_to_map_app, (assoc_L (∪)). Qed.

Lemma enqueue_view intents : ∀ rows, keyed rows →
  keyed (fold_left enqueue_one intents rows) ∧
  list_to_map (fold_left enqueue_one intents rows) =@{gmap string _} enqueued intents (list_to_map rows).
Proof.
  induction intents as [|i l IH]; intros rows Hk; simpl.
  - split; [done|]. by rewrite enqueued_nil.
  - destruct (enqueue_one_view rows i Hk) as [Hk' Hm]. destruct (IH _ Hk') as [Hk'' Hm'].
    split; [done|]. by rewrite Hm', Hm, enqueued_app.
Qed.

#[export] Instance InMemoryNotificationOutboxStoreLaws localeCompare :
  @NotificationOutboxStoreLaws OutboxStore (InMemoryNotificationOutboxStore localeCompare).
Proof.
  refine {| ob_wf := λ s, keyed (os_rows s); ob_rows := rows_map; ob_events := os_events |}.
  - intros s id r Hk Hr. unfold rows_map in Hr. rewrite list_to_map_get in Hr. by eapply keyed_get.
  - intros l s s' r Hk [= <- <-]. destruct (enqueue_view l _ Hk) as [Hk' Hm]. split_and!; [done..|].
    left. exact Hm.
  - intros now n s s' r Hk [= <- <-]. split_and!; [done..|]. intros l [= <-] row Hin.
    apply elem_of_take in Hin as (i & Hi & _). apply list_elem_of_lookup_2 in Hi.
    apply js_sort_elem, elem_of_filter_bool in Hi as [Hv Hd]. split; [|done].
    unfold rows_map. rewrite list_to_map_get. by apply keyed_value.
  - intros id now s s' r Hk E. unfold markSending in E. cbn in E. unfold markSending_mem in E.
    assert (Hsame : ∀ id, rows_map s !! id = map_get (os_rows s) id) by (intros; apply list_to_map_get).
    destruct (map_get (os_rows s) id) as [row|] eqn:Hg.
    2: { injection E as <- <-. split_and!; [done..|]. intros r0. by rewrite Hsame, Hg. }
    destruct (negb _ || negb _) eqn:Hd; injection E as <- <-.
    + split_and!; [done..|]. intros r0. rewrite Hsame, Hg. intros [= <-].
      rewrite <- negb_andb in Hd. by apply negb_true_iff in Hd.
    + split_and!; [by apply keyed_set, (keyed_get _ _ _ Hk Hg)|done|]. exists row.
      rewrite Hsame, Hg. rewrite <- negb_andb in Hd. apply negb_false_iff in Hd.
      split_and!; [done..|]. apply list_to_map_set.
  - intros row o e n now t s s' r Hk [= <- <-]. split; [by apply keyed_set|]. left. split; [|done].
    apply list_to_map_set.
  - intros now st s s' r Hk [= <- <-]. split_and!; [done..|]. intros l [= <-]. split.
    + apply filter_map_NoDup. rewrite keyed_ids by done. by destruct Hk.
    + intros row Hin. apply elem_of_filter_bool in Hin as [Hv Hd]. split; [|done].
      unfold rows_map. rewrite list_to_map_get. by apply keyed_value.
Defined.

(** ** The identity of a notification *)

Lemma substring_0_length n : ∀ s, (n <= String.length s)%nat → String.length (String.substring 0 n s) = n.
Proof. induction n as [|n IH]; intros [|c s] H; simpl in *; [done|done|lia|]. rewrite IH; lia. Qed.

Lemma string_of_list_length l : String.length (String.string_of_list_ascii l) = length l.
Proof. induction l as [|c l IH]; simpl; [done|]. by rewrite IH. Qed.

Lemma fingerprint_length checkId entityId : String.length (fingerprintFor checkId entityId) = 32%nat.
Proof.
  unfold fingerprintFor, slice. apply substring_0_length. unfold Sha256.sha256_hex.
  rewrite string_of_list_length. fold (Sha256.digest_chars (checkId +:+ newline +:+ entityId)).
  rewrite Sha256.digest_chars_length. lia.
Qed.

Lemma digits_length w n : String.length (digits w n) = w.
Proof. revert n. induction w as [|w IH]; intros n; simpl; [done|]. by rewrite ?str_app_length, IH. Qed.

Lemma iso_length t : iso_range t → String.length (toISOString t) = 24%nat.
Proof.
  intros Ht. unfold toISOString. destruct (civil_from_days _) as [[y m] d] eqn:E.
  pose proof (iso_range_year t y m d Ht E) as Hy. unfold iso_year.
  replace ((0 <=? y) && (y <=? 9999)) with true by lia.
  repeat (rewrite str_app_length || rewrite digits_length || cbn [String.length]). done.
Qed.

Lemma kind_text_inj k1 k2 (p1 p2 : string) :
  kind_text k1 +:+ newline +:+ p1 = kind_text k2 +:+ newline +:+ p2 → k1 = k2 ∧ p1 = p2.
Proof. destruct k1, k2; intros [=]; done. Qed.

Lemma moment_text_inj f1 f2 s1 s2 k1 k2 n1 n2 :
  String.length f1 = String.length f2 → String.length s1 = String.length s2 →
  moment_text f1 s1 k1 n1 = moment_text f2 s2 k2 n2 → f1 = f2 ∧ s1 = s2 ∧ k1 = k2 ∧ n1 = n2.
Proof.
  intros Hf Hs He. unfold moment_text in He.
  assert (Hsplit : ∀ a b c d, String.length a = String.length b → a +:+ c = b +:+ d → a = b ∧ c = d).
  { clear. induction a as [|x a IH]; intros [|y b] c d Hl E; simpl in *; try done.
    injection E as -> E. injection Hl as Hl. by destruct (IH _ _ _ Hl E) as [-> ->]. }
  apply Hsplit in He as [-> He]; [|done]. apply str_app_inj_l in He.
  apply Hsplit in He as [-> He]; [|done]. apply str_app_inj_l in He.
  apply kind_text_inj in He as [-> He]. by apply (inj pretty) in He.
Qed.

Lemma reduce_run_fingerprints i evs : ∀ existing,
  Forall (λ d, String.length (de_fingerprint d) = 32%nat) (reduce_run i existing evs).2.
Proof.
  induction evs as [|[c now] evs IH]; intros existing; simpl; [constructor|].
  destruct (reduceCheck existing c i now) as [row d] eqn:E. specialize (IH row).
  destruct (reduce_run i row evs) as [final ds]. cbn [snd] in *. apply Forall_app. split; [|done].
  destruct d as [d|]; [|constructor]. constructor; [|constructor].
  assert (Hd : de_fingerprint d = check_fingerprint i c).
  { unfold reduceCheck, continue_episode, new_episode, close_episode in E.
    destruct (pe_severityFor _ _), (open_episode existing); [case_bool_decide| | |]; by simplify_eq. }
  rewrite Hd. apply fingerprint_length.
Qed.

(** The text a decision's notification id is the hash of. *)
Definition id_text (d : AlertDecision) : string :=
  moment_text (de_fingerprint d) (de_firstSeenAt d) (de_kind d) (de_occurrenceCount d).

(** Every notification has its own identity.  Over any number of evaluations of a
    check, at pairwise different times and whatever the results were, the decisions hash
    pairwise different texts: no two announcements of an episode, and no announcement of
    a later episode of the same check, share a [notificationId] unless SHA-256 collides
    on its first 32 digits. *)
Theorem notifications_distinct i existing evs ts :
  map snd evs = map toISOString ts → NoDup ts → Forall iso_range ts →
  (∀ r, open_episode existing = Some r → ∃ t, iso_range t ∧ (t ∉ ts) ∧ ar_firstSeenAt r = toISOString t) →
  NoDup (map id_text (reduce_run i existing evs).2) ∧
  ∀ now, Forall (λ ni, ∃ d, d ∈ (reduce_run i existing evs).2 ∧
    np_notificationId (ni_payload ni) = slice 0 32 (Sha256.sha256_hex (id_text d)))
    (intentsFromDecisions (reduce_run i existing evs).2 now).
Proof.
  intros Hnow Hts Hiso Hex. set (ds := (reduce_run i existing evs).2). rewrite Forall_forall in Hiso. split.
  2: { intros now. apply Forall_forall. intros ni Hni. unfold intentsFromDecisions in Hni.
       apply list_elem_of_fmap in Hni as (d & -> & Hd). apply elem_of_filter_bool in Hd as [Hd _].
       by exists d. }
  assert (Hnd : NoDup (map snd evs)).
  { rewrite Hnow. apply NoDup_map_from with (g := λ t, t); [by rewrite map_id|].
    intros x y Hx Hy. by apply toISOString_inj; auto. }
  assert (Hfirst : ∀ r, open_episode existing = Some r → ar_firstSeenAt r ∉ map snd evs).
  { intros r Hr Hin. destruct (Hex r Hr) as (t & Ht & Hni & E). rewrite Hnow, E in Hin.
    apply list_elem_of_fmap in Hin as (t' & E' & Hin). apply toISOString_inj in E'; [by subst|by auto..]. }
  destruct (reduce_run_moments i evs existing Hnd Hfirst) as [Hl Hm].
  pose proof (reduce_run_fingerprints i evs existing) as Hf. fold ds in Hl, Hm, Hf.
  rewrite Forall_forall in Hl, Hf.
  assert (Hlen : ∀ d, d ∈ ds → String.length (de_firstSeenAt d) = 24%nat).
  { intros d Hd. destruct (Hl d Hd) as [Hin|(r & Hr & E & _)].
    - rewrite Hnow in Hin. apply list_elem_of_fmap in Hin as (t & -> & Ht). apply iso_length; auto.
    - destruct (Hex r Hr) as (t & Ht & _ & E'). rewrite E, E'. by apply iso_length. }
  apply NoDup_map_from with (g := moment); [done|]. intros x y Hx Hy E.
  apply moment_text_inj in E as (_ & Es & Ek & En); [|rewrite !Hf by done; done|rewrite !Hlen by done; done].
  unfold moment. by rewrite Es, Ek, En.
Qed.

(** The backoff doubles and is bounded.  For a positive base delay the delay after the
    first failure is the base (or the maximum, when that is smaller), each further failure
    doubles it until the maximum caps it, it never shrinks, and it never exceeds the
    maximum however many attempts have failed. *)
Theorem backoff_bounded config n m :
  0 < baseDelayMs config → 0 <= maxDelayMs config → 1 <= n → n <= m →
  computeBackoffMs 1 config = Z.min (baseDelayMs config) (maxDelayMs config) ∧
  computeBackoffMs (n + 1) config = Z.min (2 * computeBackoffMs n config) (maxDelayMs config) ∧
  0 <= computeBackoffMs n config ∧ computeBackoffMs n config <= computeBackoffMs m config ∧
  computeBackoffMs m config <= maxDelayMs config.
Proof.
  intros Hb Hmax Hn Hnm. unfold computeBackoffMs.
  assert (H1 : 0 < 2 ^ Z.max 0 (n - 1)) by (apply Z.pow_pos_nonneg; lia).
  assert (H2 : 2 ^ Z.max 0 (n - 1) <= 2 ^ Z.max 0 (m - 1)) by (apply Z.pow_le_mono_r; lia).
  split_and!; [by rewrite Z.mul_1_r| |nia|nia|nia].
  replace (Z.max 0 (n + 1 - 1)) with (Z.succ (Z.max 0 (n - 1))) by lia.
  rewrite Z.pow_succ_r by lia. nia.
Qed.

(** ** The theorems at concrete inputs *)

Definition sample_check (status : HealthStatus) : CheckResult :=
  check "scheduler.scheduleEnabled" status "schedule_state.state" "schedule is paused"
    "2026-09-15T16:00:00.000Z" None None.

Definition sample_evaluations : list (CheckResult * string) :=
  [(sample_check CRITICAL, toISOString 1000); (sample_check HEALTHY, toISOString 2000);
   (sample_check CRITICAL, toISOString 3000)].

Lemma notifications_distinct_witness :
  length (reduce_run "canary" None sample_evaluations).2 = 3%nat ∧
  NoDup (map id_text (reduce_run "canary" None sample_evaluations).2).
Proof.
  split; [vm_compute; reflexivity|].
  refine (proj1 (notifications_distinct "canary" None sample_evaluations [1000; 2000; 3000] _ _ _ _)).
  - reflexivity.
  - by apply (bool_decide_unpack _); vm_compute.
  - rewrite !Forall_cons. by split_and!.
  - done.
Defined.

Lemma backoff_bounded_witness :
  computeBackoffMs 1 DEFAULT_DELIVERY_CONFIG = 5000 ∧ computeBackoffMs 100 DEFAULT_DELIVERY_CONFIG <= 300000.
Proof.
  destruct (backoff_bounded DEFAULT_DELIVERY_CONFIG 7 100) as (H1 & _ & _ & _ & H2); [done|done|lia|lia|].
  split; [exact H1|exact H2].
Defined.
