(* ===== verification/Delivery.v ===== *)
(** * Alert delivery (services/kernel/src/alerting: delivery-worker, engine, state-store, runner)

    One monitor tick: collect a health report, reduce it against the stored episodes and
    queue the intents (the engine), then recover abandoned rows and drain the due ones
    through a transport (the worker).  The worker is written against the interfaces of
    Outbox.v.  Its runs, complete or cut short by an operation that throws, refine the
    abstract protocol [delivery_step]; the invariants are proved of the protocol. *)

From S2P Require Import Prelude JsNumber JsDate Digest Contracts Plan Capability Schedule Health Alerting Outbox.
Local Open Scope Z_scope.
Local Open Scope js_scope.

(** ** The rows whose text may leave the system *)

Fixpoint strip_prefix (p s : string) : option string :=
  match p, s with
  | EmptyString, _ => Some s
  | String c p', String d s' => if bool_decide (c = d) then strip_prefix p' s' else None
  | String _ _, EmptyString => None
  end.

Definition is_decimal (c : ascii) : bool := let n := N_of_ascii c in ((48 <=? n) && (n <=? 57))%N.

(** [/^OPERATOR\.reply\.\d{1,20}$/] *)
Definition isOperatorReplyCheckId (checkId : string) : bool :=
  match strip_prefix "OPERATOR.reply." checkId with
  | Some rest =>
      let cs := String.list_ascii_of_string rest in
      (1 <=? Z.of_nat (length cs)) && (Z.of_nat (length cs) <=? 20) && forallb is_decimal cs
  | None => false
  end.

(** [/^MISSION\.morningBrief\.[0-9a-f]{8}\.completed$/] *)
Definition isBriefCompletedCheckId (checkId : string) : bool :=
  match strip_prefix "MISSION.morningBrief." checkId with
  | Some rest =>
      forallb Sha256.is_hex (String.list_ascii_of_string (slice 0 8 rest)) &&
      (slice 8 (String.length rest) rest === ".completed")
  | None => false
  end.

(** ** delivery-worker.ts *)

Definition summary_message (p : NotificationPayload) : string :=
  np_checkId p +:+ ": " +:+ kind_text (np_kind p) +:+ " (" +:+ severity_text (np_severity p) +:+ ")".

Definition with_message (p : NotificationPayload) (message : string) : NotificationPayload :=
  {| np_notificationId := np_notificationId p; np_fingerprint := np_fingerprint p; np_checkId := np_checkId p;
     np_entityId := np_entityId p; np_firstSeenAt := np_firstSeenAt p; np_lastSeenAt := np_lastSeenAt p;
     np_kind := np_kind p; np_occurrenceCount := np_occurrenceCount p; np_severity := np_severity p;
     np_message := message; np_durationMs := np_durationMs p |}.

Definition rowToPayload (row : NotificationOutboxRow) : NotificationPayload :=
  let payload := or_payload row in
  if isOperatorReplyCheckId (np_checkId payload) then payload
  else if isBriefCompletedCheckId (np_checkId payload) then payload
  else with_message payload (summary_message payload).

(** The counters of a [DeliverySummary]. *)
Record Counts := { n_recovered : Z; n_attempted : Z; n_delivered : Z; n_retried : Z; n_poisoned : Z }.

Definition no_counts : Counts :=
  {| n_recovered := 0; n_attempted := 0; n_delivered := 0; n_retried := 0; n_poisoned := 0 |}.

Inductive DeliveryRunResult := DR_OK | DR_OVERLAP_SKIPPED | DR_OUTBOX_FAILED.

Record DeliverySummary := {
  ds_startedAt : string; ds_completedAt : string; ds_durationMs : Z; ds_counts : Counts;
  ds_result : DeliveryRunResult
}.

Definition count_recovered (c : Counts) : Counts :=
  {| n_recovered := n_recovered c + 1; n_attempted := n_attempted c; n_delivered := n_delivered c;
     n_retried := n_retried c; n_poisoned := n_poisoned c |}.
Definition count_attempted (c : Counts) : Counts :=
  {| n_recovered := n_recovered c; n_attempted := n_attempted c + 1; n_delivered := n_delivered c;
     n_retried := n_retried c; n_poisoned := n_poisoned c |}.

Definition count_outcome (status : OutboxStatus) (c : Counts) : Counts :=
  match status with
  | DELIVERED =>
      {| n_recovered := n_recovered c; n_attempted := n_attempted c; n_delivered := n_delivered c + 1;
         n_retried := n_retried c; n_poisoned := n_poisoned c |}
  | POISON =>
      {| n_recovered := n_recovered c; n_attempted := n_attempted c; n_delivered := n_delivered c;
         n_retried := n_retried c; n_poisoned := n_poisoned c + 1 |}
  | _ =>
      {| n_recovered := n_recovered c; n_attempted := n_attempted c; n_delivered := n_delivered c;
         n_retried := n_retried c + 1; n_poisoned := n_poisoned c |}
  end.

(** The store, the transport and the counters the worker runs over. *)
Record DWorld (S N : Type) := DW { dw_outbox : S; dw_notifier : N; dw_counts : Counts }.
Arguments DW {_ _} _ _ _.
Arguments dw_outbox {_ _} _.
Arguments dw_notifier {_ _} _.
Arguments dw_counts {_ _} _.

Section worker.
Context {S N : Type} `{HS : !NotificationOutboxStore S} `{HN : !Notifier N}.
Implicit Types (w : DWorld S N).

Definition on_outbox {A} (m : prog S A) : prog (DWorld S N) A := λ w,
  let '(s, r) := m (dw_outbox w) in (DW s (dw_notifier w) (dw_counts w), r).

Definition bump (f : Counts → Counts) : prog (DWorld S N) unit := λ w,
  (DW (dw_outbox w) (dw_notifier w) (f (dw_counts w)), Ok tt).

(** A thrown value that is not an [Error] is taken to have the class UnknownError. *)
Definition attemptDelivery (row : NotificationOutboxRow) : prog (DWorld S N) DeliveryAttemptResult := λ w,
  let '(n, r) := notify (rowToPayload row) (dw_notifier w) in
  (DW (dw_outbox w) n (dw_counts w),
   Ok (match r with
       | Ok _ => AttemptOk
       | Throw err => AttemptFailed (exn_class err === "PermanentDeliveryError") (exn_class err)
       end)).

Section run.
Context (config : DeliveryConfig) (transport nowIso : string).

Fixpoint recover_loop (stale : list NotificationOutboxRow) : prog (DWorld S N) unit :=
  match stale with
  | [] => mret tt
  | row :: stale' =>
      match recoverIfStaleSending row nowIso config with
      | None => recover_loop stale'
      | Some decision =>
          on_outbox (applyOutcome (dd_row decision) (dd_eventOutcome decision) (dd_errorClass decision)
            (or_attemptCount row) nowIso transport);;
          bump count_recovered;;
          recover_loop stale'
      end
  end.

Definition deliver_one (notificationId : string) : prog (DWorld S N) unit :=
  claimed ← on_outbox (markSending notificationId nowIso);
  match claimed with
  | None => mret tt
  | Some row =>
      bump count_attempted;;
      attempt ← attemptDelivery row;
      decision ← lift_result (decideNextOutboxState row attempt nowIso config);
      on_outbox (applyOutcome (dd_row decision) (dd_eventOutcome decision) (dd_errorClass decision)
        (or_attemptCount row) nowIso transport);;
      bump (count_outcome (or_status (dd_row decision)))
  end.

Fixpoint deliver_loop (ids : list string) : prog (DWorld S N) unit :=
  match ids with
  | [] => mret tt
  | id :: ids' => deliver_one id;; deliver_loop ids'
  end.

Definition worker_body (limit : nat) : prog (DWorld S N) unit :=
  stale ← on_outbox (listStaleSending nowIso (staleSendingMs config));
  recover_loop stale;;
  due ← on_outbox (listDue nowIso limit);
  deliver_loop (map or_id due).
End run.

(** [try { body } catch { summary.result = "OUTBOX_FAILED" }], then the clock again. *)
Definition summarise (start end_ : Z) (body : prog (DWorld S N) unit) (s : S) (n : N) : S * N * DeliverySummary :=
  let '(w, r) := body (DW s n no_counts) in
  (dw_outbox w, dw_notifier w,
   {| ds_startedAt := toISOString start; ds_completedAt := toISOString end_;
      ds_durationMs := Z.max 0 (end_ - start); ds_counts := dw_counts w;
      ds_result := if is_ok r then DR_OK else DR_OUTBOX_FAILED |}).

(** [start] and [end_] are the two readings of the clock. *)
Definition runDeliveryWorker (config : DeliveryConfig) (transport : string) (start end_ : Z) (limit : nat)
  : S → N → S * N * DeliverySummary :=
  summarise start end_ (worker_body config transport (toISOString start) limit).

Definition deliverRows (config : DeliveryConfig) (transport : string) (start end_ : Z) (ids : list string)
  : S → N → S * N * DeliverySummary :=
  summarise start end_ (deliver_loop config transport (toISOString start) ids).
End worker.

(** ** state-store.ts and engine.ts *)

Section engine.
Context {S : Type} `{HS : !NotificationOutboxStore S}.

(** [InMemoryAlertStateStore]: the episodes by fingerprint, and the paired outbox. *)
Record AlertStore := { as_rows : list (string * AlertStateRow); as_outbox : S }.

Definition getAll (st : AlertStore) : list AlertStateRow := map_values (as_rows st).

Definition putAll (rows : list AlertStateRow) (intents : list NotificationIntent) : prog AlertStore unit := λ st,
  let rows' := fold_left (λ m row, map_set m (ar_fingerprint row) row) rows (as_rows st) in
  let '(s, r) := enqueue intents (as_outbox st) in
  ({| as_rows := rows'; as_outbox := s |}, r).

Definition allChecks (report : HealthReport) : list CheckResult :=
  concat (map (λ d, dr_checks d.2) (hr_domains report)).

Definition existing_by_fingerprint (canonicalScheduleId : string) (rows : list AlertStateRow)
  : list (string * AlertStateRow) :=
  fold_left (λ m row,
    map_set m (fingerprintFor (ar_checkId row) (resolveEntityId (ar_checkId row) canonicalScheduleId)) row) rows [].

Definition runAlertEngine (report : HealthReport) (canonicalScheduleId : string) (nowMs : Z)
  : prog AlertStore (list AlertDecision * list AlertStateRow) := λ st,
  let now := toISOString nowMs in
  let existing := existing_by_fingerprint canonicalScheduleId (getAll st) in
  let '(nextRows, decisions) := reduceChecks (allChecks report) existing canonicalScheduleId now in
  (putAll nextRows (intentsFromDecisions decisions now);; mret (decisions, nextRows)) st.
End engine.
Arguments AlertStore : clear implicits.

(** ** runner.ts *)

Inductive RunResult := RUN_OK | OVERLAP_SKIPPED | COLLECTION_FAILED | STATE_FAILED | DELIVERY_FAILED.

Record RunSummary := {
  rs_startedAt : string; rs_completedAt : string; rs_durationMs : Z; rs_overall : option HealthStatus;
  rs_decisionCounts : AlertSeverity → Z; rs_notificationsQueued : Z; rs_delivery : Counts; rs_result : RunResult
}.

(** What asking for the database-wide monitor lock came to. *)
Inductive Exclusive := LockAcquired | LockHeld | LockFailed (e : exn).

(** The readings of the clock, in the order the run takes them. *)
Record Readings := {
  rd_start : Z; rd_engine : Z; rd_delivery : Z; rd_delivered : Z; rd_end : Z
}.

Section runner.
Context {S N : Type} `{HS : !NotificationOutboxStore S} `{HN : !Notifier N}.
Context (canonicalScheduleId transport : string) (config : DeliveryConfig).

(** The part of the summary the callback fills in. *)
Record Progress := {
  pg_overall : option HealthStatus; pg_decisionCounts : AlertSeverity → Z; pg_notificationsQueued : Z;
  pg_delivery : Counts; pg_result : RunResult
}.

Definition no_progress (r : RunResult) : Progress :=
  {| pg_overall := None; pg_decisionCounts := λ _, 0; pg_notificationsQueued := 0; pg_delivery := no_counts;
     pg_result := r |}.

Definition count_severity (decisions : list AlertDecision) (s : AlertSeverity) : Z :=
  Z.of_nat (length (List.filter (λ d, de_severity d === s) decisions)).

(** The callback under the lock: the state it leaves and the progress it made; [None]
    for the exception of the engine. *)
Definition monitor_body (collected : result HealthReport) (rd : Readings) (st : AlertStore S) (n : N)
  : AlertStore S * N * Progress :=
  match collected with
  | Throw _ => (st, n, no_progress COLLECTION_FAILED)
  | Ok report =>
      match runAlertEngine report canonicalScheduleId (rd_engine rd) st with
      | (st', Throw _) =>
          (st', n, {| pg_overall := Some (hr_overall report); pg_decisionCounts := λ _, 0;
                      pg_notificationsQueued := 0; pg_delivery := no_counts; pg_result := STATE_FAILED |})
      | (st', Ok (decisions, _)) =>
          let '(s, n', delivery) :=
            runDeliveryWorker config transport (rd_delivery rd) (rd_delivered rd) 50 (as_outbox st') n in
          ({| as_rows := as_rows st'; as_outbox := s |}, n',
           {| pg_overall := Some (hr_overall report); pg_decisionCounts := count_severity decisions;
              pg_notificationsQueued := Z.of_nat (length (List.filter de_notify decisions));
              pg_delivery := ds_counts delivery;
              pg_result := match ds_result delivery with DR_OK => RUN_OK | _ => DELIVERY_FAILED end |})
      end
  end.

Definition runMonitor (exclusive : Exclusive) (collected : result HealthReport) (rd : Readings)
    (st : AlertStore S) (n : N) : AlertStore S * N * RunSummary :=
  let '(st', n', p) :=
    match exclusive with
    | LockAcquired => monitor_body collected rd st n
    | LockHeld => (st, n, no_progress OVERLAP_SKIPPED)
    | LockFailed _ => (st, n, no_progress STATE_FAILED)
    end in
  (st', n',
   {| rs_startedAt := toISOString (rd_start rd); rs_completedAt := toISOString (rd_end rd);
      rs_durationMs := Z.max 0 (rd_end rd - rd_start rd); rs_overall := pg_overall p;
      rs_decisionCounts := pg_decisionCounts p; rs_notificationsQueued := pg_notificationsQueued p;
      rs_delivery := pg_delivery p; rs_result := pg_result p |}).
End runner.

(** ** The delivery protocol *)

(** What the protocol speaks of: the rows, the log of attempts, and what the transport
    has accepted. *)
Record View := {
  vw_rows : gmap string NotificationOutboxRow; vw_events : list DeliveryEvent; vw_sent : list NotificationPayload
}.

(** One step: an intent is queued, a due row is claimed, a claimed row's payload reaches
    the transport, the outcome of an attempt is recorded, or an abandoned row is put back. *)
Inductive delivery_step (config : DeliveryConfig) : View → View → Prop :=
  | step_enqueue l v :
      delivery_step config v {| vw_rows := enqueued l (vw_rows v); vw_events := vw_events v; vw_sent := vw_sent v |}
  | step_claim id r now v :
      vw_rows v !! id = Some r → row_due now r = true →
      delivery_step config v
        {| vw_rows := <[id := sending_row r now]> (vw_rows v); vw_events := vw_events v; vw_sent := vw_sent v |}
  | step_send id r v :
      vw_rows v !! id = Some r → or_status r = SENDING →
      delivery_step config v
        {| vw_rows := vw_rows v; vw_events := vw_events v; vw_sent := vw_sent v ++ [rowToPayload r] |}
  | step_outcome id r attempt now d ev v :
      vw_rows v !! id = Some r → or_status r = SENDING →
      decideNextOutboxState r attempt now config = Ok d →
      (attempt = AttemptOk → rowToPayload r ∈ vw_sent v) →
      ev_notificationId ev = id → ev_outcome ev = dd_eventOutcome d →
      delivery_step config v
        {| vw_rows := <[id := dd_row d]> (vw_rows v); vw_events := vw_events v ++ [ev]; vw_sent := vw_sent v |}
  | step_recover id r now d ev v :
      vw_rows v !! id = Some r → recoverIfStaleSending r now config = Some d →
      ev_notificationId ev = id → ev_outcome ev = AMBIGUOUS_RECOVERED →
      delivery_step config v
        {| vw_rows := <[id := dd_row d]> (vw_rows v); vw_events := vw_events v ++ [ev]; vw_sent := vw_sent v |}.

Lemma decide_row row attempt now config d :
  decideNextOutboxState row attempt now config = Ok d →
  or_intent (dd_row d) = or_intent row ∧ or_attemptCount (dd_row d) = or_attemptCount row ∧
  dd_eventOutcome d ≠ AMBIGUOUS_RECOVERED ∧
  (or_status (dd_row d) = DELIVERED ↔ attempt = AttemptOk) ∧
  (or_status (dd_row d) = DELIVERED ∨ or_status (dd_row d) = POISON ∨
   or_status (dd_row d) = PENDING ∧ or_attemptCount row < maxAttempts config).
Proof.
  intros H. unfold decideNextOutboxState in H. destruct attempt as [|[] e]; inv_ok; [naive_solver..|].
  destruct (maxAttempts config <=? or_attemptCount row) eqn:Hm; inv_ok; [naive_solver|].
  simpl. split_and!; try done. right. right. split; [done|]. lia.
Qed.

Lemma recover_row row now config d :
  recoverIfStaleSending row now config = Some d →
  or_intent (dd_row d) = or_intent row ∧ or_attemptCount (dd_row d) = or_attemptCount row ∧
  or_status row = SENDING ∧ or_status (dd_row d) = PENDING ∧ dd_eventOutcome d = AMBIGUOUS_RECOVERED.
Proof.
  unfold recoverIfStaleSending. destruct (or_status row), (or_lastAttemptAt row); try done.
  destruct (js_lt _ _); [done|]. by intros [= <-].
Qed.

Definition settled (r : NotificationOutboxRow) : Prop := or_status r = DELIVERED ∨ or_status r = POISON.

(** What never changes about a row, and what only grows. *)
Definition row_advances (r r' : NotificationOutboxRow) : Prop :=
  or_intent r' = or_intent r ∧ or_attemptCount r <= or_attemptCount r' ∧ (settled r → r' = r).

#[export] Instance row_advances_preorder : PreOrder row_advances.
Proof.
  split; [by intros r; split_and!|]. intros r1 r2 r3 (E1 & L1 & S1) (E2 & L2 & S2).
  split_and!; [congruence|lia|]. intros Hs. assert (r2 = r1) as -> by auto. auto.
Qed.

Definition rows_advance (m m' : gmap string NotificationOutboxRow) : Prop :=
  ∀ id r, m !! id = Some r → ∃ r', m' !! id = Some r' ∧ row_advances r r'.

#[export] Instance rows_advance_preorder : PreOrder rows_advance.
Proof.
  split; [by intros m id r Hr; exists r|]. intros m1 m2 m3 H1 H2 id r Hr.
  destruct (H1 id r Hr) as (r' & Hr' & A). destruct (H2 id r' Hr') as (r'' & Hr'' & A').
  exists r''. split; [done|]. by transitivity r'.
Qed.

Lemma rows_advance_insert m id r r' : m !! id = Some r → row_advances r r' → rows_advance m (<[id := r']> m).
Proof.
  intros Hr Ha j x Hj. destruct (decide (id = j)) as [->|Hne].
  - rewrite lookup_insert_eq. exists r'. by rewrite Hr in Hj; simplify_eq.
  - rewrite lookup_insert_ne by done. by exists x.
Qed.

Lemma step_rows_advance config v v' :
  delivery_step config v v' → rows_advance (vw_rows v) (vw_rows v').
Proof.
  destruct 1 as
    [l v|id r now v Hr Hdue|id r v Hr Hs|id r attempt now d ev v Hr Hs Hd _ _ _|id r now d ev v Hr Hd _ _]; simpl.
  - intros id r Hr. exists r. split; [|done]. by apply lookup_union_Some_l.
  - eapply rows_advance_insert; [done|]. split_and!; simpl; [done|lia|].
    unfold row_due in Hdue. to_prop. intros [?|?]; congruence.
  - done.
  - eapply rows_advance_insert; [done|]. apply decide_row in Hd as (Hi & Ha & _).
    split_and!; [done|lia|]. intros [?|?]; congruence.
  - eapply rows_advance_insert; [done|]. apply recover_row in Hd as (Hi & Ha & Hs & _).
    split_and!; [done|lia|]. intros [?|?]; congruence.
Qed.

(** *** The invariant: what is marked delivered was accepted, and attempts are bounded *)

Definition recoveries (id : string) (evs : list DeliveryEvent) : Z :=
  Z.of_nat (length (List.filter
    (λ e, (ev_notificationId e === id) && (ev_outcome e === AMBIGUOUS_RECOVERED)) evs)).

(** The budget of attempts of a row. *)
Definition attempt_budget (config : DeliveryConfig) (id : string) (v : View) : Z :=
  Z.max 1 (maxAttempts config) + recoveries id (vw_events v).

Definition row_inv (config : DeliveryConfig) (v : View) (id : string) (r : NotificationOutboxRow) : Prop :=
  (or_status r = DELIVERED → rowToPayload r ∈ vw_sent v) ∧
  or_attemptCount r + (if or_status r === PENDING then 1 else 0) <= attempt_budget config id v.

Definition view_inv (config : DeliveryConfig) (v : View) : Prop :=
  ∀ id r, vw_rows v !! id = Some r → row_inv config v id r.

Lemma recoveries_app id evs ev :
  recoveries id (evs ++ [ev]) = recoveries id evs +
    (if (ev_notificationId ev === id) && (ev_outcome ev === AMBIGUOUS_RECOVERED) then 1 else 0).
Proof.
  unfold recoveries. rewrite List.filter_app, length_app. simpl. destruct (_ && _); simpl; lia.
Qed.

Lemma recoveries_nonneg id evs : 0 <= recoveries id evs.
Proof. unfold recoveries. lia. Qed.

(** A row that did not change keeps the invariant when the log and the transport grow. *)
Lemma row_inv_grow config v v' id r :
  (∀ p, p ∈ vw_sent v → p ∈ vw_sent v') → recoveries id (vw_events v) <= recoveries id (vw_events v') →
  row_inv config v id r → row_inv config v' id r.
Proof. intros Hs He [Hd Ha]. split; [auto|]. unfold attempt_budget in *. lia. Qed.

Lemma rowToPayload_intent r r' : or_intent r = or_intent r' → rowToPayload r = rowToPayload r'.
Proof. intros E. unfold rowToPayload, or_payload. by rewrite E. Qed.

Lemma recoveries_grow id evs ev : recoveries id evs <= recoveries id (evs ++ [ev]).
Proof. rewrite recoveries_app. destruct (_ && _); lia. Qed.

Lemma step_view_inv config v v' : delivery_step config v v' → view_inv config v → view_inv config v'.
Proof.
  intros Hstep Hv. destruct Hstep as
    [l v|id r now v Hr Hdue|id r v Hr Hs|id r attempt now d ev v Hr Hs Hd Hsent Hev Ho|id r now d ev v Hr Hd Hev Ho];
    intros j x Hj; simpl in Hj.
  - unfold enqueued in Hj. apply lookup_union_Some_raw in Hj as [Hj|[_ Hj]]; [by apply (Hv j x Hj)|].
    apply elem_of_list_to_map_2, list_elem_of_fmap in Hj as (i & [= -> ->] & _). split; [done|].
    unfold attempt_budget. pose proof (recoveries_nonneg (np_notificationId (ni_payload i)) (vw_events v)). simpl in *. lia.
  - apply lookup_insert_Some in Hj as [[-> <-]|[_ Hj]]; [|by apply (Hv j x Hj)].
    destruct (Hv _ _ Hr) as [_ Ha]. unfold row_due in Hdue. to_prop. split; [done|].
    rewrite (bool_decide_true (or_status r = PENDING)) in Ha by done. unfold attempt_budget in *. simpl in *. lia.
  - eapply row_inv_grow; [| |by apply (Hv j x Hj)]; [set_solver|done].
  - apply lookup_insert_Some in Hj as [[-> <-]|[_ Hj]].
    + destruct (Hv _ _ Hr) as [_ Ha]. apply decide_row in Hd as (Hi & Hc & Hno & Hdel & Hst). split.
      * intros E%Hdel. rewrite (rowToPayload_intent _ r) by done. auto.
      * unfold attempt_budget in *. simpl. rewrite recoveries_app, Ho.
        rewrite (bool_decide_false (dd_eventOutcome d = _)) by done. rewrite andb_false_r, Hc.
        pose proof (recoveries_nonneg j (vw_events v)). rewrite Hs in Ha. simpl in Ha.
        destruct Hst as [->|[->|[-> Hlt]]]; simpl; lia.
    + eapply row_inv_grow; [| |by apply (Hv j x Hj)]; [done|]. apply recoveries_grow.
  - apply lookup_insert_Some in Hj as [[-> <-]|[_ Hj]].
    + destruct (Hv _ _ Hr) as [_ Ha]. apply recover_row in Hd as (Hi & Hc & Hs & Hp & _). split; [congruence|].
      unfold attempt_budget in *. simpl. rewrite recoveries_app, Ho, Hev, !bool_decide_true by done.
      rewrite Hs in Ha. simpl in *. rewrite Hc. simpl. lia.
    + eapply row_inv_grow; [| |by apply (Hv j x Hj)]; [done|]. apply recoveries_grow.
Qed.

(** ** The worker refines the protocol *)

Section refinement.
Context {S N : Type} `{HS : !NotificationOutboxStore S} `{HL : !NotificationOutboxStoreLaws S}
  `{HN : !Notifier N} `{HNL : !NotifierLaws N} (config : DeliveryConfig).
Implicit Types (w : DWorld S N) (v : View).

Definition view (s : S) (n : N) : View :=
  {| vw_rows := ob_rows s; vw_events := ob_events s; vw_sent := nt_sent n |}.
Definition dw_view w : View := view (dw_outbox w) (dw_notifier w).
Definition steps : View → View → Prop := rtc (delivery_step config).

(** From a state with [P] the program takes protocol steps only, whether it returns or
    throws, and when it returns its value and state satisfy [Q]. *)
Definition triple {A} (P : View → Prop) (m : prog (DWorld S N) A) (Q : A → View → Prop) : Prop :=
  ∀ w w' r, ob_wf (dw_outbox w) → P (dw_view w) → m w = (w', r) →
  ob_wf (dw_outbox w') ∧ steps (dw_view w) (dw_view w') ∧ ∀ a, r = Ok a → Q a (dw_view w').

Lemma triple_bind {A B} P (m : prog (DWorld S N) A) Q (k : A → prog (DWorld S N) B) R :
  triple P m Q → (∀ a, triple (Q a) (k a) R) → triple P (m ≫= k) R.
Proof.
  intros Hm Hk w w' r Hwf Hp E. unfold mbind, prog_bind in E.
  destruct (m w) as [w1 [a|e]] eqn:Em.
  - destruct (Hm _ _ _ Hwf Hp Em) as (Hwf1 & S1 & Hq).
    destruct (Hk a _ _ _ Hwf1 (Hq a eq_refl) E) as (Hwf' & S2 & Hr). split_and!; [done| |done]. by etrans.
  - simplify_eq. destruct (Hm _ _ _ Hwf Hp Em) as (Hwf1 & S1 & _). by split_and!.
Qed.

Lemma triple_ret {A} P (a : A) : triple P (mret a) (λ _, P).
Proof. intros w w' r Hwf Hp [= <- <-]. split_and!; [done|apply rtc_refl|done]. Qed.

Lemma triple_lift {A} P (x : result A) : triple P (lift_result x) (λ a v, x = Ok a ∧ P v).
Proof. intros w w' r Hwf Hp [= <- <-]. split_and!; [done|apply rtc_refl|done]. Qed.

Lemma triple_bump P f : triple P (bump f) (λ _, P).
Proof. intros w w' r Hwf Hp [= <- <-]. split_and!; [done|apply rtc_refl|done]. Qed.

Lemma triple_post {A} P (m : prog (DWorld S N) A) (Q Q' : A → View → Prop) :
  triple P m Q → (∀ a v, Q a v → Q' a v) → triple P m Q'.
Proof.
  intros Hm HQ w w' r Hwf Hp E. destruct (Hm _ _ _ Hwf Hp E) as (? & ? & Hq). split_and!; [done..|auto].
Qed.

Lemma triple_pre {A} P P' (m : prog (DWorld S N) A) Q : triple P m Q → (∀ v, P' v → P v) → triple P' m Q.
Proof. intros Hm HP w w' r Hwf Hp E. by apply (Hm w w' r); auto. Qed.

(** The row is in the store, claimed. *)
Definition claimed (row : NotificationOutboxRow) (v : View) : Prop :=
  vw_rows v !! or_id row = Some row ∧ or_status row = SENDING.

(** Every listed row is in the store as it was listed. *)
Definition listed (l : list NotificationOutboxRow) (v : View) : Prop :=
  NoDup (map or_id l) ∧ ∀ row, row ∈ l → vw_rows v !! or_id row = Some row.

Lemma view_same (s s' : S) (n : N) : ob_rows s' = ob_rows s → ob_events s' = ob_events s → view s' n = view s n.
Proof. intros E1 E2. unfold view. by rewrite E1, E2. Qed.

Lemma triple_stale now st P :
  triple P (on_outbox (listStaleSending now st)) (λ l v, P v ∧ listed l v).
Proof.
  intros [s n c] w' r Hwf Hp E. unfold on_outbox in E. simpl in E.
  destruct (listStaleSending now st s) as [s' x] eqn:El. injection E as <- <-.
  destruct (listStaleSending_law _ _ _ _ _ Hwf El) as (Hwf' & He & Hr & Hl). unfold dw_view in *. simpl in *.
  rewrite (view_same s s') by done. split_and!; [done|apply rtc_refl|]. intros l ->. split; [done|].
  destruct (Hl l eq_refl) as [Hn Hin]. split; [done|]. intros row Hrow. by destruct (Hin row Hrow).
Qed.

Lemma triple_due now k P : triple P (on_outbox (listDue now k)) (λ _, P).
Proof.
  intros [s n c] w' r Hwf Hp E. unfold on_outbox in E. simpl in E.
  destruct (listDue now k s) as [s' x] eqn:El. injection E as <- <-.
  destruct (listDue_law _ _ _ _ _ Hwf El) as (Hwf' & He & Hr & _). unfold dw_view in *. simpl in *.
  rewrite (view_same s s') by done. split_and!; [done|apply rtc_refl|done].
Qed.

Lemma triple_mark id now P :
  triple P (on_outbox (markSending id now)) (λ o v, match o with Some row => claimed row v | None => True end).
Proof.
  intros [s n c] w' r Hwf _ E. unfold on_outbox in E. simpl in E.
  destruct (markSending id now s) as [s' x] eqn:El. injection E as <- <-.
  destruct (markSending_law _ _ _ _ _ Hwf El) as (Hwf' & He & Hx). unfold dw_view, steps. simpl.
  assert (Hclaim : ∀ r0, ob_rows s !! id = Some r0 → row_due now r0 = true →
    ob_rows s' = <[id := sending_row r0 now]> (ob_rows s) → delivery_step config (view s n) (view s' n)).
  { intros r0 Hr0 Hd E. unfold view. rewrite E, He. by apply (step_claim config id r0 now (view s n)). }
  split; [done|]. destruct x as [[row|]|e].
  - destruct Hx as (r0 & Hr0 & Hd & -> & E). split; [by eapply rtc_once, Hclaim|]. intros a [= <-].
    split; [|done]. simpl. rewrite E.
    rewrite (ob_key s id r0 Hwf Hr0 : or_id (sending_row r0 now) = id). by rewrite lookup_insert_eq.
  - destruct Hx as [E _]. rewrite (view_same s s') by done. split; [apply rtc_refl|]. by intros a [= <-].
  - split; [|done]. destruct Hx as [E|(r0 & Hr0 & Hd & E)]; [|by eapply rtc_once, Hclaim].
    rewrite (view_same s s') by done. apply rtc_refl.
Qed.

Lemma triple_attempt row :
  triple (claimed row) (attemptDelivery row)
    (λ a v, claimed row v ∧ (a = AttemptOk → rowToPayload row ∈ vw_sent v)).
Proof.
  intros [s n c] w' r Hwf [Hrow Hst] E. unfold attemptDelivery in E. simpl in E.
  destruct (notify (rowToPayload row) n) as [n' x] eqn:En. injection E as <- <-. unfold dw_view, steps in *. simpl in *.
  assert (Hsend : nt_sent n' = nt_sent n ++ [rowToPayload row] → delivery_step config (view s n) (view s n')).
  { intros E. unfold view. rewrite E. by apply (step_send config (or_id row) row (view s n)). }
  split; [done|]. destruct x as [[]|e].
  - pose proof (notify_ok _ _ _ En) as E. split; [by apply rtc_once, Hsend|]. intros a _.
    split; [done|]. intros _. simpl. rewrite E. set_solver.
  - split; [|by intros a [= <-]]. destruct (notify_throw _ _ _ _ En) as [E|E]; [|by apply rtc_once, Hsend].
    unfold view. rewrite E. apply rtc_refl.
Qed.

(** Writing an outcome is the protocol step it stands for. *)
Lemma triple_apply row (P : View → Prop) d o n now t :
  (∀ v ev, P v → ev_notificationId ev = or_id (dd_row d) → ev_outcome ev = dd_eventOutcome d →
    delivery_step config v
      {| vw_rows := <[or_id (dd_row d) := dd_row d]> (vw_rows v); vw_events := vw_events v ++ [ev];
         vw_sent := vw_sent v |}) →
  (∀ v, P v → or_id (dd_row d) = or_id row) →
  triple P (on_outbox (applyOutcome (dd_row d) (dd_eventOutcome d) o n now t))
    (λ _ v, ∃ v0, P v0 ∧ vw_rows v = <[or_id row := dd_row d]> (vw_rows v0)).
Proof.
  intros Hstep Hid [s k c] w' r Hwf Hp E. unfold on_outbox in E. simpl in E.
  destruct (applyOutcome (dd_row d) _ o n now t s) as [s' x] eqn:El. injection E as <- <-.
  destruct (applyOutcome_law _ _ _ _ _ _ _ _ _ Hwf El) as (Hwf' & Hx). unfold dw_view, steps in *. simpl in *.
  split; [done|]. destruct Hx as [[E1 E2]|(Hno & E1 & E2)].
  - split.
    + apply rtc_once. unfold view. rewrite E1, E2.
      by apply (Hstep (view s k) (event_of (dd_row d) (dd_eventOutcome d) o n now t)).
    + intros a _. exists (view s k). split; [done|]. simpl. by rewrite E1, (Hid _ Hp).
  - rewrite (view_same s s') by done. split; [apply rtc_refl|]. intros a ->. done.
Qed.

Lemma recover_loop_refines transport now stale :
  triple (listed stale) (recover_loop config transport now stale) (λ _ _, True).
Proof.
  induction stale as [|row stale IH]; simpl; [by eapply triple_post; [apply triple_ret|]|].
  assert (Hrest : ∀ v, listed (row :: stale) v → listed stale v).
  { intros v [Hn Hl]. apply NoDup_cons in Hn as [_ Hn]. split; [done|]. intros x Hx. apply Hl. by right. }
  destruct (recoverIfStaleSending row now config) as [d|] eqn:Hd; [|by eapply triple_pre; [exact IH|]].
  pose proof (recover_row _ _ _ _ Hd) as (Hi & _ & Hs & _ & Ho).
  assert (Hid : or_id (dd_row d) = or_id row) by (unfold or_id, or_payload; by rewrite Hi).
  eapply triple_bind.
  - eapply (triple_apply row); [|by intros]. intros v ev [_ Hl] Hev Hout.
    eapply (step_recover config _ row now d); [|done|done|congruence]. rewrite Hid. apply Hl. by left.
  - intros []. eapply triple_bind; [apply triple_bump|]. intros []. eapply triple_pre; [exact IH|].
    intros v (v0 & Hv0 & E). destruct Hv0 as [Hn Hl]. apply NoDup_cons in Hn as [Hni Hn].
    split; [done|]. intros x Hx. rewrite E, lookup_insert_ne; [apply Hl; by right|].
    intros Hxe. apply Hni. apply list_elem_of_fmap. by exists x.
Qed.

Lemma deliver_one_refines transport now id P :
  triple P (deliver_one config transport now id) (λ _ _, True).
Proof.
  unfold deliver_one. eapply triple_bind; [apply triple_mark|]. intros [row|]; [|apply triple_ret].
  eapply triple_bind; [apply triple_bump|]. intros [].
  eapply triple_bind; [apply triple_attempt|]. intros attempt.
  eapply triple_bind; [apply triple_lift|]. intros d.
  eapply triple_bind; [|intros []; by eapply triple_post; [apply triple_bump|]].
  assert (Hid : decideNextOutboxState row attempt now config = Ok d → or_id (dd_row d) = or_id row).
  { intros Hd. apply decide_row in Hd as [Hi _]. unfold or_id, or_payload. by rewrite Hi. }
  eapply (triple_apply row); [|by intros v [Hd _]; auto]. intros v ev (Hd & (Hrow & Hst) & Hsent) Hev Ho.
  rewrite (Hid Hd) in Hev |- *. by eapply (step_outcome config _ row attempt now d).
Qed.

Lemma deliver_loop_refines transport now ids P :
  triple P (deliver_loop config transport now ids) (λ _ _, True).
Proof.
  revert P. induction ids as [|id ids IH]; intros P; simpl; [by eapply triple_post; [apply triple_ret|]|].
  eapply triple_bind; [apply deliver_one_refines|]. intros []. apply IH.
Qed.

Lemma worker_body_refines transport now limit :
  triple (λ _, True) (worker_body config transport now limit) (λ _ _, True).
Proof.
  eapply triple_bind; [apply triple_stale|]. intros stale.
  eapply triple_bind; [eapply triple_pre; [apply recover_loop_refines|by intros v [_ Hl]]|]. intros [].
  eapply triple_bind; [apply triple_due|]. intros due. apply deliver_loop_refines.
Qed.

Lemma summarise_refines start end_ body s n s' n' x :
  triple (λ _, True) body (λ _ _, True) → ob_wf s → summarise start end_ body s n = (s', n', x) →
  ob_wf s' ∧ steps (view s n) (view s' n').
Proof.
  intros Hb Hwf E. unfold summarise in E. destruct (body (DW s n no_counts)) as [w r] eqn:Ew.
  injection E as <- <- _. by destruct (Hb (DW s n no_counts) w r Hwf I Ew) as (? & ? & _).
Qed.

(** ** What happens to an outbox *)

(** The calls that reach an outbox, in the order they are made: an engine commit, a run of
    the worker, and an immediate delivery of named rows. *)
Inductive outbox_call :=
  | CallEnqueue (intents : list NotificationIntent)
  | CallWorker (transport : string) (start end_ : Z) (limit : nat)
  | CallDeliverRows (transport : string) (start end_ : Z) (ids : list string).

Definition run_call (c : outbox_call) (s : S) (n : N) : S * N :=
  match c with
  | CallEnqueue intents => (fst (enqueue intents s), n)
  | CallWorker transport start end_ limit => fst (runDeliveryWorker config transport start end_ limit s n)
  | CallDeliverRows transport start end_ ids => fst (deliverRows config transport start end_ ids s n)
  end.

Definition run_calls (cs : list outbox_call) (s : S) (n : N) : S * N :=
  fold_left (λ sn c, run_call c sn.1 sn.2) cs (s, n).

Lemma run_call_refines c s n :
  ob_wf s → let '(s', n') := run_call c s n in ob_wf s' ∧ steps (view s n) (view s' n').
Proof.
  intros Hwf. destruct c as [l|t a b k|t a b ids]; simpl.
  - destruct (enqueue l s) as [s' r] eqn:E. simpl.
    destruct (enqueue_law _ _ _ _ Hwf E) as (Hwf' & He & Hr). split; [done|]. destruct Hr as [Hr|[_ Hr]].
    + apply rtc_once. unfold view. rewrite He, Hr. apply (step_enqueue config l (view s n)).
    + rewrite (view_same s s') by done. apply rtc_refl.
  - destruct (runDeliveryWorker config t a b k s n) as [[s' n'] x] eqn:E. simpl.
    eapply summarise_refines; [apply worker_body_refines|done|exact E].
  - destruct (deliverRows config t a b ids s n) as [[s' n'] x] eqn:E. simpl.
    eapply summarise_refines; [apply deliver_loop_refines|done|exact E].
Qed.

Lemma run_calls_refines cs : ∀ s n,
  ob_wf s → let '(s', n') := run_calls cs s n in ob_wf s' ∧ steps (view s n) (view s' n').
Proof.
  induction cs as [|c cs IH]; intros s n Hwf; [split; [done|apply rtc_refl]|].
  unfold run_calls. simpl. pose proof (run_call_refines c s n Hwf) as Hc.
  destruct (run_call c s n) as [s1 n1]. destruct Hc as [Hwf1 S1]. specialize (IH s1 n1 Hwf1).
  unfold run_calls in IH. simpl. destruct (fold_left _ cs (s1, n1)) as [s' n']. destruct IH as [? S2].
  split; [done|]. unfold steps in *. by etrans.
Qed.

Lemma steps_rows_advance v v' : steps v v' → rows_advance (vw_rows v) (vw_rows v').
Proof. induction 1 as [|v1 v2 v3 H _ IH]; [done|]. etrans; [by eapply step_rows_advance|done]. Qed.

Lemma steps_view_inv v v' : steps v v' → view_inv config v → view_inv config v'.
Proof. induction 1 as [|v1 v2 v3 H _ IH]; [done|]. eauto using step_view_inv. Qed.

(** C25: the worker refines the delivery protocol.  Over any store and any transport, with
    any operation throwing at any point and whether or not it took effect, a run of the
    worker, an immediate delivery and any sequence of calls change the rows, the log and
    what was sent by protocol steps only: queue, claim a due pending row, send a claimed
    row, record the decided outcome of a claimed row, put an abandoned row back. *)
Theorem worker_refines_protocol cs s n :
  ob_wf s → rtc (delivery_step config) (view s n) (view (run_calls cs s n).1 (run_calls cs s n).2).
Proof.
  intros Hwf. pose proof (run_calls_refines cs s n Hwf) as H. by destruct (run_calls cs s n), H.
Qed.

(** Nothing is lost and nothing is rewritten.  Whatever calls reach an outbox, a row
    in it stays in it with the intent it was queued with and at least as many attempts,
    and a row that is DELIVERED or POISON does not change any more in any field. *)
Theorem outbox_rows_persist cs s n id r :
  ob_wf s → ob_rows s !! id = Some r → ∃ r', ob_rows (run_calls cs s n).1 !! id = Some r' ∧
    or_intent r' = or_intent r ∧ or_attemptCount r <= or_attemptCount r' ∧
    (or_status r = DELIVERED ∨ or_status r = POISON → r' = r).
Proof.
  intros Hwf Hr. pose proof (run_calls_refines cs s n Hwf) as H. destruct (run_calls cs s n) as [s' n'].
  destruct H as [_ H]. exact (steps_rows_advance _ _ H id r Hr).
Qed.

(** C27: DELIVERED means accepted, and the attempts are bounded.  In an outbox filled only
    by calls, a row marked DELIVERED was accepted by the transport in the form the transport
    may see, and a row has been attempted at most [maxAttempts] times plus once for every
    recovery of an abandoned attempt of it in the log. *)
Theorem delivered_was_sent cs s n id r :
  ob_wf s → ob_rows s = ∅ → ob_rows (run_calls cs s n).1 !! id = Some r →
  (or_status r = DELIVERED → rowToPayload r ∈ nt_sent (run_calls cs s n).2) ∧
  or_attemptCount r <= Z.max 1 (maxAttempts config) + recoveries id (ob_events (run_calls cs s n).1).
Proof.
  intros Hwf H0 Hr. pose proof (run_calls_refines cs s n Hwf) as H. destruct (run_calls cs s n) as [s' n'].
  destruct H as [_ H]. simpl in *.
  assert (Hi : view_inv config (view s n)) by (intros j x; simpl; rewrite H0, lookup_empty; done).
  destruct (steps_view_inv _ _ H Hi id r Hr) as [Hd Ha]. split; [exact Hd|].
  unfold attempt_budget in Ha. simpl in Ha. destruct (_ === _); lia.
Qed.
End refinement.

(** ** Settling: retries end *)

#[local] Arguments toISOString : simpl never.
#[local] Arguments decideNextOutboxState : simpl never.
#[local] Arguments rowToPayload : simpl never.

Section settling.
Context (localeCompare : string → string → Z) {N : Type} `{HN : !Notifier N}.
Context (config : DeliveryConfig) (transport : string).
Hypotheses (Hbase : 0 < baseDelayMs config) (Hmax : 0 <= maxDelayMs config).
#[local] Instance memory_store : NotificationOutboxStore OutboxStore := InMemoryNotificationOutboxStore localeCompare.
Implicit Types (w : DWorld OutboxStore N).

Definition rows (w : DWorld OutboxStore N) : list (string * NotificationOutboxRow) := os_rows (dw_outbox w).

(** The clock is at a date of a four-digit year, and so is the latest retry. *)
Definition clock_ok (t : Z) : Prop := iso_range t ∧ iso_range (t + maxDelayMs config).

Lemma backoff_range n : 0 <= computeBackoffMs n config <= maxDelayMs config.
Proof.
  unfold computeBackoffMs. assert (0 < 2 ^ Z.max 0 (n - 1)) by (apply Z.pow_pos_nonneg; lia). nia.
Qed.

Lemma Date_toISOString_ok t : iso_range t → Date_toISOString (Some t) = Ok (toISOString t).
Proof.
  intros H. unfold Date_toISOString. replace (Z.abs t <=? 8640000000000000) with true; [done|].
  unfold iso_range in H. lia.
Qed.

(** On such a date the outcome of an attempt is always decided. *)
Lemma decide_total row attempt t : clock_ok t →
  ∃ d, decideNextOutboxState row attempt (toISOString t) config = Ok d ∧
    or_id (dd_row d) = or_id row ∧
    (settled (dd_row d) ∨
     or_status (dd_row d) = PENDING ∧ or_attemptCount (dd_row d) = or_attemptCount row ∧
     or_attemptCount row < maxAttempts config ∧
     ∃ t', t <= t' <= t + maxDelayMs config ∧ or_nextAttemptAt (dd_row d) = toISOString t').
Proof.
  intros [Ht Ht']. pose proof (backoff_range (or_attemptCount row)) as Hb.
  unfold decideNextOutboxState, settled, or_id, or_payload. destruct attempt as [|[] e]; [eauto 10..|].
  destruct (maxAttempts config <=? or_attemptCount row) eqn:Hm; [eauto 10|].
  rewrite Date_parse_toISOString by done. cbn [mbind option_bind].
  rewrite Date_toISOString_ok by (unfold iso_range in *; lia). cbn.
  eexists. split; [done|]. split; [done|]. right. cbn. split_and!; [done|done|lia|].
  eexists. split; [|done]. lia.
Qed.

(** A delivery of one id always returns, keeps the store well formed with the same number
    of rows, and leaves every other row alone. *)
Definition tidy (w w' : DWorld OutboxStore N) : Prop := keyed (rows w') ∧ length (rows w') = length (rows w).

Lemma length_replace (m : list (string * NotificationOutboxRow)) k v x :
  map_get m k = Some x → length (map_set m k v) = length m.
Proof. intros H. rewrite map_set_length. unfold map_has. by rewrite H. Qed.

Lemma deliver_one_mem t id w w' r : clock_ok t → keyed (rows w) →
  deliver_one config transport (toISOString t) id w = (w', r) →
  r = Ok tt ∧ tidy w w' ∧
  (∀ j, j ≠ id → map_get (rows w') j = map_get (rows w) j) ∧
  ∀ r0, map_get (rows w) id = Some r0 → row_due (toISOString t) r0 = true →
    ∃ r', map_get (rows w') id = Some r' ∧
      (settled r' ∨
       or_status r' = PENDING ∧ or_attemptCount r' = or_attemptCount r0 + 1 ∧
       or_attemptCount r0 + 1 < maxAttempts config ∧
       ∃ t', t <= t' <= t + maxDelayMs config ∧ or_nextAttemptAt r' = toISOString t').
Proof.
  intros Ht Hk E. destruct w as [[m evs] n c]. unfold deliver_one in E.
  unfold mbind at 1, prog_bind at 1, on_outbox at 1 in E. cbn [dw_outbox markSending memory_store InMemoryNotificationOutboxStore] in E.
  unfold markSending_mem in E. unfold tidy, rows in *. cbn [os_rows dw_outbox dw_notifier dw_counts] in *.
  destruct (map_get m id) as [r0|] eqn:Hg.
  2: { injection E as <- <-. by split_and!. }
  rewrite <- negb_andb in E. fold (row_due (toISOString t) r0) in E.
  destruct (row_due (toISOString t) r0) eqn:Hd; cbn [negb] in E.
  2: { injection E as <- <-. split_and!; [done..|]. intros r1 [= <-]. congruence. }
  assert (Hrow : or_id (sending_row r0 (toISOString t)) = id) by exact (keyed_get m id r0 Hk Hg).
  assert (Hcount : or_attemptCount (sending_row r0 (toISOString t)) = or_attemptCount r0 + 1) by done.
  generalize dependent (sending_row r0 (toISOString t)). intros row E Hrow Hcount.
  unfold mbind, prog_bind, bump, attemptDelivery, lift_result, on_outbox in E. cbn in E.
  destruct (notify (rowToPayload row) n) as [n' x]. cbn in E.
  match type of E with context [decideNextOutboxState row ?a _ _] =>
    destruct (decide_total row a t Ht) as (d & Hdec & Hid & Hst) end.
  rewrite Hdec in E. cbn in E.
  injection E as <- <-. cbn. rewrite Hid, Hrow.
  split; [done|]. split; [|split].
  - split; [apply keyed_set; [by apply keyed_set|congruence]|]. cbn.
    rewrite (length_replace _ _ _ row) by apply map_get_set_eq. by apply (length_replace _ _ _ r0).
  - intros j Hj. by rewrite !map_get_set_ne by congruence.
  - intros r1 [= <-] _. rewrite map_get_set_eq. exists (dd_row d). split; [done|]. by rewrite Hcount in Hst.
Qed.

Lemma deliver_loop_mem t ids : ∀ w w' r, clock_ok t → keyed (rows w) → NoDup ids →
  deliver_loop config transport (toISOString t) ids w = (w', r) →
  r = Ok tt ∧ tidy w w' ∧ (∀ j, j ∉ ids → map_get (rows w') j = map_get (rows w) j) ∧
  ∀ id r0, id ∈ ids → map_get (rows w) id = Some r0 → row_due (toISOString t) r0 = true →
    ∃ r', map_get (rows w') id = Some r' ∧
      (settled r' ∨
       or_status r' = PENDING ∧ or_attemptCount r' = or_attemptCount r0 + 1 ∧
       or_attemptCount r0 + 1 < maxAttempts config ∧
       ∃ t', t <= t' <= t + maxDelayMs config ∧ or_nextAttemptAt r' = toISOString t').
Proof.
  induction ids as [|i ids IH]; intros w w' r Ht Hk Hn E.
  - injection E as <- <-. split_and!; [done..|]. by intros id r0 ?%elem_of_nil.
  - apply NoDup_cons in Hn as [Hi Hn]. cbn [deliver_loop] in E.
    unfold mbind, prog_bind in E.
    destruct (deliver_one config transport (toISOString t) i w) as [w1 r1] eqn:E1.
    destruct (deliver_one_mem _ _ _ _ _ Ht Hk E1) as (-> & [Hk1 Hl1] & Hother & Hone).
    destruct (IH _ _ _ Ht Hk1 Hn E) as (-> & [Hk2 Hl2] & Hother2 & Hrest).
    split; [done|]. split; [split; [done|congruence]|]. split.
    + intros j Hj. apply not_elem_of_cons in Hj as [Hji Hj]. by rewrite Hother2, Hother.
    + intros id r0 [->|Hin]%elem_of_cons Hg Hd.
      * destruct (Hone r0 Hg Hd) as (r' & Hr' & H). exists r'. by rewrite Hother2.
      * apply (Hrest id r0 Hin); [|done]. rewrite Hother; [done|]. by intros ->.
Qed.

Lemma recover_loop_mem now stale : ∀ w w' r, keyed (rows w) →
  Forall (λ row, is_Some (map_get (rows w) (or_id row))) stale →
  recover_loop config transport now stale w = (w', r) →
  r = Ok tt ∧ tidy w w' ∧ ∀ j, j ∉ map or_id stale → map_get (rows w') j = map_get (rows w) j.
Proof.
  induction stale as [|row stale IH]; intros w w' r Hk Hin E.
  - injection E as <- <-. by split_and!.
  - cbn [recover_loop] in E. apply Forall_cons in Hin as [[x Hx] Hin].
    destruct (recoverIfStaleSending row now config) as [d|] eqn:Hd.
    2: { destruct (IH _ _ _ Hk Hin E) as (? & ? & Ho). split_and!; [done..|].
         intros j Hj. apply Ho. simpl in Hj. set_solver. }
    pose proof (recover_row _ _ _ _ Hd) as (Hi & _).
    assert (Hid : or_id (dd_row d) = or_id row) by (unfold or_id, or_payload; by rewrite Hi).
    unfold mbind, prog_bind, bump, on_outbox in E. cbn in E. revert E.
    match goal with |- recover_loop _ _ _ _ ?w1 = _ → _ => set (w2 := w1) end. intros E.
    assert (Hrows : rows w2 = map_set (rows w) (or_id row) (dd_row d)) by (unfold rows; cbn; by rewrite Hid).
    destruct (IH w2 w' r) as (-> & [Hk2 Hl2] & Ho); [|..|done|].
    + rewrite Hrows. by apply keyed_set.
    + rewrite Hrows. eapply Forall_impl; [exact Hin|]. intros y [z Hz]. simpl.
      rewrite map_get_set. case_bool_decide; eauto.
    + split; [done|]. split; [split; [done|]|].
      * rewrite Hl2, Hrows. by apply (length_replace _ _ _ x).
      * intros j Hj. simpl in Hj. apply not_elem_of_cons in Hj as [Hne Hj].
        rewrite Ho, Hrows by done. by rewrite map_get_set_ne by congruence.
Qed.

(** One run of the worker attempts every due row of a store within the limit. *)
Lemma worker_mem t limit s n s' n' sum id r0 : clock_ok t → keyed (os_rows s) →
  (length (os_rows s) <= limit)%nat →
  map_get (os_rows s) id = Some r0 → row_due (toISOString t) r0 = true →
  runDeliveryWorker config transport t t limit s n = (s', n', sum) →
  keyed (os_rows s') ∧ length (os_rows s') = length (os_rows s) ∧
  ∃ r', map_get (os_rows s') id = Some r' ∧
    (settled r' ∨
     or_status r' = PENDING ∧ or_attemptCount r' = or_attemptCount r0 + 1 ∧
     or_attemptCount r0 + 1 < maxAttempts config ∧
     ∃ t', t <= t' <= t + maxDelayMs config ∧ or_nextAttemptAt r' = toISOString t').
Proof.
  intros Ht Hk Hlim Hg Hd E. unfold runDeliveryWorker, summarise in E.
  destruct (worker_body _ _ _ _ _) as [w r] eqn:Eb. injection E as <- <- _.
  unfold worker_body in Eb. unfold mbind at 1, prog_bind at 1, on_outbox at 1 in Eb. cbn in Eb.
  set (stale := List.filter _ _) in Eb.
  assert (Hpend : or_status r0 = PENDING) by (unfold row_due in Hd; by to_prop).
  assert (Hns : id ∉ map or_id stale).
  { intros (x & -> & Hx)%list_elem_of_fmap. apply elem_of_filter_bool in Hx as [Hx Hst].
    apply keyed_value in Hx; [|done]. rewrite Hx in Hg. simplify_eq. unfold row_stale in Hst. to_prop. congruence. }
  unfold mbind at 1, prog_bind at 1 in Eb.
  destruct (recover_loop _ _ _ stale _) as [w1 r1] eqn:E1.
  eapply recover_loop_mem in E1 as (-> & [Hk1 Hl1] & Ho1); [|done|].
  2: { apply Forall_forall. intros x Hx. apply elem_of_filter_bool in Hx as [Hx _]. exists x. by apply keyed_value. }
  unfold mbind at 1, prog_bind at 1, on_outbox at 1 in Eb. cbn in Eb. unfold rows in *. cbn in Hl1.
  rewrite <- (Ho1 id Hns : _ = map_get (os_rows s) id) in Hg.
  destruct w1 as [s1 n1 c1]. cbn in *.
  set (due := List.filter (row_due (toISOString t)) (map_values (os_rows s1))) in Eb.
  assert (Hdue : (length due <= limit)%nat).
  { unfold due. etrans; [apply List.filter_length_le|]. unfold map_values. rewrite length_fmap. lia. }
  rewrite take_ge in Eb by (rewrite js_sort_length; exact Hdue).
  match type of Eb with context [js_sort ?c due] => pose proof (js_sort_perm c due) as Hp; set (l := js_sort c due) in * end.
  assert (Hnd : NoDup (map or_id l)).
  { rewrite Hp. apply filter_map_NoDup. rewrite keyed_ids by done. by destruct Hk1. }
  eapply deliver_loop_mem in Eb as (_ & [Hk2 Hl2] & _ & Hin); [|done|done|done].
  unfold rows in *. cbn in *. split; [done|]. split; [congruence|].
  apply (Hin id r0); [|done|done].
  assert (Hid : or_id r0 = id) by exact (keyed_get _ _ _ Hk1 Hg).
  rewrite <- Hid. apply list_elem_of_fmap. exists r0. split; [done|]. rewrite Hp. apply elem_of_filter_bool.
  split; [|done]. apply map_get_elem in Hg. apply list_elem_of_fmap. by exists (id, r0).
Qed.

Context `{HNL : !NotifierLaws N}.

(** Ticks at least the maximal delay apart, the first not before [next]. *)
Fixpoint spaced (next : Z) (ts : list Z) : Prop :=
  match ts with
  | [] => True
  | t :: ts' => next <= t ∧ clock_ok t ∧ spaced (t + maxDelayMs config) ts'
  end.

Definition ticks (limit : nat) (ts : list Z) : list outbox_call := map (λ t, CallWorker transport t t limit) ts.

Lemma settled_stays cs s n id r :
  keyed (os_rows s) → map_get (os_rows s) id = Some r → settled r →
  map_get (os_rows (run_calls config cs s n).1) id = Some r.
Proof.
  intros Hk Hg Hs.
  pose proof (run_calls_refines (HL := InMemoryNotificationOutboxStoreLaws localeCompare) config cs s n Hk) as H.
  destruct (run_calls config cs s n) as [s' n']. destruct H as [_ H].
  destruct (steps_rows_advance _ _ _ H id r) as (r' & Hr' & _ & _ & Hsame).
  { simpl. unfold rows_map. by rewrite list_to_map_get. }
  rewrite (Hsame Hs) in Hr'. simpl in *. unfold rows_map in Hr'. by rewrite list_to_map_get in Hr'.
Qed.

Lemma pending_settles limit ts : ∀ s n id r0 t0 next,
  keyed (os_rows s) → (length (os_rows s) <= limit)%nat →
  map_get (os_rows s) id = Some r0 → or_status r0 = PENDING →
  or_nextAttemptAt r0 = toISOString t0 → iso_range t0 → t0 <= next → spaced next ts →
  Z.max 1 (maxAttempts config - or_attemptCount r0) <= Z.of_nat (length ts) →
  ∃ r', map_get (os_rows (run_calls config (ticks limit ts) s n).1) id = Some r' ∧ settled r'.
Proof.
  induction ts as [|t ts IH]; intros s n id r0 t0 next Hk Hlim Hg Hp Hnext H0 Hle Hsp Hlen; [simpl in Hlen; lia|].
  destruct Hsp as (Ht & Hc & Hsp). unfold ticks, run_calls. cbn [map fold_left fst snd run_call].
  destruct (runDeliveryWorker config transport t t limit s n) as [[s' n'] sum] eqn:E.
  assert (Hd : row_due (toISOString t) r0 = true).
  { unfold row_due. rewrite Hp, Hnext, bool_decide_true by done. rewrite str_le_iso by (done || apply Hc). simpl. lia. }
  destruct (worker_mem _ _ _ _ _ _ _ _ _ Hc Hk Hlim Hg Hd E) as (Hk' & Hl' & r' & Hg' & Hr').
  cbn [fst snd]. fold (ticks limit ts). fold (run_calls config (ticks limit ts) s' n').
  destruct Hr' as [Hs|(Hp' & Ha & Hlt & t' & Ht' & Hnext')].
  - exists r'. split; [by apply settled_stays|done].
  - assert (Hi' : iso_range t') by (destruct Hc; unfold iso_range in *; lia).
    apply (IH s' n' id r' t' (t + maxDelayMs config)); try done; [lia|lia|]. simpl in Hlen. lia.
Qed.

(** C26: every notification settles.  Over the in-memory outbox store, whose operations do not
    throw, and for ticks that run to their end: a queued row of an outbox within the worker's
    limit is DELIVERED or POISON after at most [maxAttempts] ticks (those not used up yet) that
    are at least the maximal delay apart, whatever the transport does: it cannot be retried for
    ever by the worker, and it cannot be forgotten. *)
Theorem queued_rows_settle limit ts s n id r0 t0 :
  keyed (os_rows s) → (length (os_rows s) <= limit)%nat →
  map_get (os_rows s) id = Some r0 → or_status r0 = PENDING →
  or_nextAttemptAt r0 = toISOString t0 → iso_range t0 → spaced t0 ts →
  Z.max 1 (maxAttempts config - or_attemptCount r0) <= Z.of_nat (length ts) →
  ∃ r', map_get (os_rows (run_calls config (ticks limit ts) s n).1) id = Some r' ∧
    (or_status r' = DELIVERED ∨ or_status r' = POISON).
Proof. intros. by apply (pending_settles limit ts s n id r0 t0 t0). Qed.
End settling.

(** An abandoned attempt is put back whatever its count: [maxAttempts] bounds the attempts
    that were answered, not those that were interrupted. *)
Lemma recovery_ignores_max_attempts row config last t t' :
  or_status row = SENDING → or_lastAttemptAt row = Some last → Date_parse last = Some t → iso_range t' →
  t + staleSendingMs config <= t' →
  ∃ d, recoverIfStaleSending row (toISOString t') config = Some d ∧ or_status (dd_row d) = PENDING ∧
    or_attemptCount (dd_row d) = or_attemptCount row ∧ row_due (toISOString t') (dd_row d) = true.
Proof.
  intros Hs Hl Hp Ht Hle. unfold recoverIfStaleSending. rewrite Hs, Hl, Hp, Date_parse_toISOString by done.
  simpl. replace (t' - t <? staleSendingMs config) with false by lia. eexists. split_and!; try done.
  unfold row_due. simpl. rewrite str_le_iso by done. lia.
Qed.

(** ** What the transport can learn *)

(** A row as the transport sees it: its payload with the text withheld unless the row is
    an operator reply or a completed brief. *)
Definition mask (r : NotificationOutboxRow) : NotificationOutboxRow :=
  {| or_intent := {| ni_payload := rowToPayload r; ni_createdAt := ni_createdAt (or_intent r) |};
     or_status := or_status r; or_attemptCount := or_attemptCount r; or_lastAttemptAt := or_lastAttemptAt r;
     or_nextAttemptAt := or_nextAttemptAt r; or_deliveredAt := or_deliveredAt r; or_lastError := or_lastError r |}.

Definition mask_store (s : OutboxStore) : OutboxStore :=
  {| os_rows := map (λ kr, (kr.1, mask kr.2)) (os_rows s); os_events := os_events s |}.

Lemma mask_fields r :
  or_id (mask r) = or_id r ∧ rowToPayload (mask r) = rowToPayload r ∧
  ni_createdAt (or_intent (mask r)) = ni_createdAt (or_intent r).
Proof.
  set (c := np_checkId (or_payload r)).
  assert (Hcheck : np_checkId (rowToPayload r) = c).
  { unfold rowToPayload. by destruct (isOperatorReplyCheckId _); [|destruct (isBriefCompletedCheckId _)]. }
  split_and!; [| |done].
  - unfold or_id, or_payload, mask, rowToPayload. cbn [or_intent ni_payload]. fold (or_payload r). fold c.
    by destruct (isOperatorReplyCheckId c); [|destruct (isBriefCompletedCheckId c)].
  - unfold rowToPayload at 1. change (or_payload (mask r)) with (rowToPayload r). rewrite Hcheck.
    unfold rowToPayload. fold c.
    by destruct (isOperatorReplyCheckId c); [|destruct (isBriefCompletedCheckId c)].
Qed.

Lemma map_get_mask (m : list (string * NotificationOutboxRow)) k :
  map_get (map (λ kr, (kr.1, mask kr.2)) m) k = mask <$> map_get m k.
Proof. induction m as [|[j r] m IH]; simpl; [done|]. by case_bool_decide. Qed.

Lemma map_set_mask (m : list (string * NotificationOutboxRow)) k r :
  map_set (map (λ kr, (kr.1, mask kr.2)) m) k (mask r) = map (λ kr, (kr.1, mask kr.2)) (map_set m k r).
Proof. induction m as [|[j x] m IH]; simpl; [done|]. case_bool_decide; simpl; by rewrite ?IH. Qed.

Lemma filter_map_comm {A} (p : A → bool) (f : A → A) l :
  (∀ x, p (f x) = p x) → List.filter p (map f l) = map f (List.filter p l).
Proof. intros H. induction l as [|x l IH]; simpl; [done|]. rewrite H. destruct (p x); simpl; by rewrite IH. Qed.

Lemma js_sort_map {A} (cmp : A → A → Z) (f : A → A) l :
  (∀ x y, cmp (f x) (f y) = cmp x y) → js_sort cmp (map f l) = map f (js_sort cmp l).
Proof.
  intros H. unfold js_sort. induction l as [|x l IH]; simpl; [done|]. rewrite IH. generalize (foldr (sort_insert cmp) [] l).
  intros l'. induction l' as [|y l' IH']; simpl; [done|]. rewrite H. destruct (_ <=? _); simpl; [done|]. by rewrite IH'.
Qed.

Lemma values_mask (m : list (string * NotificationOutboxRow)) :
  map_values (map (λ kr, (kr.1, mask kr.2)) m) = map mask (map_values m).
Proof. unfold map_values. induction m as [|[k r] m IH]; simpl; [done|]. f_equal. exact IH. Qed.

Lemma decide_mask row attempt now config :
  decideNextOutboxState (mask row) attempt now config =
  match decideNextOutboxState row attempt now config with
  | Ok d => Ok {| dd_row := mask (dd_row d); dd_eventOutcome := dd_eventOutcome d; dd_errorClass := dd_errorClass d |}
  | Throw e => Throw e
  end.
Proof.
  unfold decideNextOutboxState. destruct attempt as [|[] e]; [done|done|].
  change (or_attemptCount (mask row)) with (or_attemptCount row).
  destruct (_ <=? _); [done|]. cbv zeta. by destruct (Date_toISOString _).
Qed.

Lemma recover_mask row now config :
  recoverIfStaleSending (mask row) now config =
  match recoverIfStaleSending row now config with
  | Some d => Some {| dd_row := mask (dd_row d); dd_eventOutcome := dd_eventOutcome d; dd_errorClass := dd_errorClass d |}
  | None => None
  end.
Proof.
  unfold recoverIfStaleSending. change (or_status (mask row)) with (or_status row).
  change (or_lastAttemptAt (mask row)) with (or_lastAttemptAt row).
  destruct (or_status row), (or_lastAttemptAt row); try done. by destruct (js_lt _ _).
Qed.

#[local] Arguments map_values : simpl never.

Section noninterference.
Context (localeCompare : string → string → Z) {N : Type} `{HN : !Notifier N}.
Context (config : DeliveryConfig) (transport now : string).
#[local] Instance masked_store : NotificationOutboxStore OutboxStore := InMemoryNotificationOutboxStore localeCompare.
Implicit Types (w : DWorld OutboxStore N).

Definition mask_world (w : DWorld OutboxStore N) : DWorld OutboxStore N :=
  DW (mask_store (dw_outbox w)) (dw_notifier w) (dw_counts w).

(** [m'] does on the masked store what [m] does on the store, and returns [f] of its value. *)
Definition mirrors {A} (f : A → A) (m' m : prog (DWorld OutboxStore N) A) : Prop :=
  ∀ w, m' (mask_world w) = (mask_world (m w).1, f <$> (m w).2).

Lemma mirrors_bind {A B} (f : A → A) (g : B → B) m' m k' k :
  mirrors f m' m → (∀ x, mirrors g (k' (f x)) (k x)) → mirrors g (m' ≫= k') (m ≫= k).
Proof.
  intros Hm Hk w. unfold mbind, prog_bind. rewrite Hm. destruct (m w) as [w1 [a|e]]; [|done]. apply Hk.
Qed.

Lemma mirrors_ret {A} (f : A → A) (a : A) : mirrors f (mret (f a)) (mret a).
Proof. done. Qed.

Lemma mirrors_bump f : mirrors id (bump f) (bump f).
Proof. done. Qed.

Lemma mirrors_apply row o e n :
  mirrors id (on_outbox (applyOutcome (mask row) o e n now transport))
    (on_outbox (applyOutcome row o e n now transport)).
Proof.
  intros [[m evs] k c]. unfold on_outbox, mask_world, mask_store. cbn. unfold event_of.
  destruct (mask_fields row) as [Hid _]. by rewrite Hid, map_set_mask.
Qed.

Lemma mirrors_mark id :
  mirrors (fmap mask) (on_outbox (markSending id now)) (on_outbox (markSending id now)).
Proof.
  intros [[m evs] k c]. unfold on_outbox, mask_world, mask_store. cbn. unfold markSending_mem. cbn.
  rewrite map_get_mask. destruct (map_get m id) as [r|]; [|done]. cbn. destruct (_ || _); [done|].
  change (sending_row (mask r) now) with (mask (sending_row r now)). by rewrite map_set_mask.
Qed.

Lemma mirrors_attempt row : mirrors id (attemptDelivery (mask row)) (attemptDelivery row).
Proof.
  intros [s n c]. unfold attemptDelivery, mask_world. cbn. destruct (mask_fields row) as (_ & Hp & _).
  rewrite Hp. by destruct (notify _ n) as [n' []].
Qed.

Definition mask_decision (d : DeliveryDecision) : DeliveryDecision :=
  {| dd_row := mask (dd_row d); dd_eventOutcome := dd_eventOutcome d; dd_errorClass := dd_errorClass d |}.

Lemma mirrors_decide row attempt :
  mirrors mask_decision (lift_result (decideNextOutboxState (mask row) attempt now config))
    (lift_result (decideNextOutboxState row attempt now config)).
Proof. intros w. unfold lift_result. rewrite decide_mask. by destruct (decideNextOutboxState row attempt now config). Qed.

Lemma mirrors_deliver_one id' : mirrors id (deliver_one config transport now id') (deliver_one config transport now id').
Proof.
  unfold deliver_one. eapply mirrors_bind; [apply mirrors_mark|]. intros [row|]; [|apply (mirrors_ret id tt)].
  cbn [fmap option_fmap option_map]. eapply mirrors_bind; [apply mirrors_bump|]. intros [].
  eapply mirrors_bind; [apply mirrors_attempt|]. intros attempt.
  eapply mirrors_bind; [apply mirrors_decide|]. intros d.
  eapply mirrors_bind; [apply (mirrors_apply (dd_row d))|]. intros []. apply mirrors_bump.
Qed.

Lemma mirrors_deliver_loop ids :
  mirrors id (deliver_loop config transport now ids) (deliver_loop config transport now ids).
Proof.
  induction ids as [|i ids IH]; [apply (mirrors_ret id tt)|]. simpl.
  eapply mirrors_bind; [apply mirrors_deliver_one|]. intros []. exact IH.
Qed.

Lemma mirrors_recover_loop l :
  mirrors id (recover_loop config transport now (map mask l)) (recover_loop config transport now l).
Proof.
  induction l as [|row l IH]; [apply (mirrors_ret id tt)|]. simpl. rewrite recover_mask.
  destruct (recoverIfStaleSending row now config) as [d|]; [|exact IH]. cbn [dd_row dd_eventOutcome dd_errorClass].
  eapply mirrors_bind; [apply mirrors_apply|]. intros [].
  eapply mirrors_bind; [apply mirrors_bump|]. intros []. exact IH.
Qed.

Lemma mirrors_worker limit :
  mirrors id (worker_body config transport now limit) (worker_body config transport now limit).
Proof.
  unfold worker_body. eapply (mirrors_bind (map mask)).
  { intros [[m evs] n c]. unfold on_outbox, mask_world, mask_store. cbn. unfold listStaleSending_mem. cbn.
    by rewrite values_mask, filter_map_comm. }
  intros stale. eapply mirrors_bind; [apply mirrors_recover_loop|]. intros [].
  eapply (mirrors_bind (map mask)).
  { intros [[m evs] n c]. unfold on_outbox, mask_world, mask_store. cbn. unfold listDue_mem. cbn.
    rewrite values_mask, filter_map_comm, js_sort_map by done. by rewrite firstn_map. }
  intros due. replace (map or_id (map mask due)) with (map or_id due); [apply mirrors_deliver_loop|].
  rewrite map_map. apply map_ext. intros r. by destruct (mask_fields r) as [-> _].
Qed.
End noninterference.

(** The text of an alert never reaches the transport.  Take two outboxes that agree in
    everything but the messages of rows that are neither operator replies nor completed
    briefs: a run of the worker hands the transport exactly the same payloads (it is left in
    the same state, whatever the transport is), reports the same counts, and leaves outboxes
    that still agree. *)
Theorem alert_text_stays_inside {N} `{HN : !Notifier N} localeCompare config transport start end_ limit
    (s1 s2 : OutboxStore) (n : N) :
  mask_store s1 = mask_store s2 →
  let run s := runDeliveryWorker (HS := InMemoryNotificationOutboxStore localeCompare)
                 config transport start end_ limit s n in
  (run s1).1.2 = (run s2).1.2 ∧ (run s1).2 = (run s2).2 ∧ mask_store (run s1).1.1 = mask_store (run s2).1.1.
Proof.
  intros He. cbv zeta. unfold runDeliveryWorker, summarise.
  pose proof (mirrors_worker localeCompare (HN := HN) config transport (toISOString start) limit) as Hm.
  pose proof (Hm (DW s1 n no_counts)) as H1. pose proof (Hm (DW s2 n no_counts)) as H2.
  unfold mask_world in H1 at 1, H2 at 1. cbn [dw_outbox dw_notifier dw_counts] in H1, H2. rewrite He in H1. unfold masked_store in *.
  rewrite H1 in H2.
  destruct (worker_body config transport (toISOString start) limit (DW s1 n no_counts)) as [[a1 b1 c1] r1].
  destruct (worker_body config transport (toISOString start) limit (DW s2 n no_counts)) as [[a2 b2 c2] r2].
  unfold mask_world in H2. cbn in *. injection H2 as Ha Hev -> -> Hr. split_and!; [done| |unfold mask_store; congruence].
  assert (is_ok r1 = is_ok r2) as -> by (destruct r1, r2; done). done.
Qed.

(** ** The engine *)

Section engine_facts.
Context {S : Type} `{HS : !NotificationOutboxStore S} `{HL : !NotificationOutboxStoreLaws S}.
Context (scheduleId : string).

(** Each stored episode is under its own, current fingerprint. *)
Definition episodes_wf (rows : list (string * AlertStateRow)) : Prop :=
  NoDup (map_keys rows) ∧
  Forall (λ kr, ar_fingerprint kr.2 = kr.1 ∧
    fingerprintFor (ar_checkId kr.2) (resolveEntityId (ar_checkId kr.2) scheduleId) = kr.1) rows.

Definition row_keyed (row : AlertStateRow) : Prop :=
  fingerprintFor (ar_checkId row) (resolveEntityId (ar_checkId row) scheduleId) = ar_fingerprint row.

Lemma rows_set_view rows : ∀ m, episodes_wf m → Forall row_keyed rows →
  let m' := fold_left (λ m row, map_set m (ar_fingerprint row) row) rows m in
  episodes_wf m' ∧
  ∀ k, (∀ row, row ∈ rows → ar_fingerprint row ≠ k) → map_get m' k = map_get m k.
Proof.
  induction rows as [|row rows IH]; intros m Hm Hr; cbv zeta; cbn [fold_left]; [done|].
  apply Forall_cons in Hr as [Hk Hr]. destruct Hm as [Hn Hf].
  destruct (IH (map_set m (ar_fingerprint row) row)) as [Hwf Hget]; [|done|].
  - split; [by apply map_set_NoDup|]. by apply map_set_Forall.
  - split; [done|]. intros k Hne. rewrite Hget by (intros x Hx; apply Hne; by right).
    apply map_get_set_ne. apply Hne. by left.
Qed.

(** With distinct fingerprints every row of the batch is stored. *)
Lemma rows_set_get rows : ∀ m row, episodes_wf m → Forall row_keyed rows → NoDup (map ar_fingerprint rows) →
  row ∈ rows →
  map_get (fold_left (λ m row, map_set m (ar_fingerprint row) row) rows m) (ar_fingerprint row) = Some row.
Proof.
  induction rows as [|r rows IH]; intros m row Hm Hr Hn Hin; [by apply elem_of_nil in Hin|].
  cbn [fold_left map] in *. apply Forall_cons in Hr as [Hk Hr]. apply NoDup_cons in Hn as [Hni Hn].
  assert (Hm' : episodes_wf (map_set m (ar_fingerprint r) r)).
  { destruct Hm. split; [by apply map_set_NoDup|]. by apply map_set_Forall. }
  apply elem_of_cons in Hin as [->|Hin]; [|by apply IH].
  destruct (rows_set_view rows _ Hm' Hr) as [_ Hget]. rewrite Hget; [apply map_get_set_eq|].
  intros x Hx E. apply Hni. apply list_elem_of_fmap. by exists x.
Qed.

(** The map the engine re-derives is the stored one. *)
Lemma existing_same rows : episodes_wf rows →
  ∀ k, map_get (existing_by_fingerprint scheduleId (map_values rows)) k = map_get rows k.
Proof.
  intros [Hn Hf] k. unfold existing_by_fingerprint.
  enough (H : ∀ l m, NoDup (map_keys l) → Forall (λ kr, fingerprintFor (ar_checkId kr.2) (resolveEntityId (ar_checkId kr.2) scheduleId) = kr.1) l →
    map_get (fold_left (λ m row, map_set m (fingerprintFor (ar_checkId row) (resolveEntityId (ar_checkId row) scheduleId)) row) (map_values l) m) k
    = match map_get l k with Some r => Some r | None => map_get m k end).
  { rewrite H by (done || (eapply Forall_impl; [exact Hf|]; by intros x [_ ?])). by destruct (map_get rows k). }
  clear. induction l as [|[j r] l IH]; intros m Hn Hf; [done|].
  apply NoDup_cons in Hn as [Hj Hn]. apply Forall_cons in Hf as [E Hf]. simpl in E.
  change (map_values ((j, r) :: l)) with (r :: map_values l). cbn [fold_left]. rewrite IH by done.
  rewrite E, map_get_set. cbn [map_get]. destruct (decide (k = j)) as [->|Hne].
  - rewrite !bool_decide_true by done. destruct (map_get l j) as [x|] eqn:Hg; [|done].
    exfalso. apply Hj. apply map_get_elem in Hg. apply list_elem_of_fmap. by exists (j, x).
  - by rewrite !bool_decide_false by congruence.
Qed.

(** What one evaluation leaves: a row of the check, or nothing. *)
Lemma reduceCheck_row existing c now row d :
  reduceCheck existing c scheduleId now = (Some row, d) →
  (∀ r, existing = Some r → ar_fingerprint r = check_fingerprint scheduleId c ∧ row_keyed r) →
  ar_fingerprint row = check_fingerprint scheduleId c ∧ row_keyed row.
Proof.
  intros E Hex. unfold reduceCheck, close_episode, new_episode, continue_episode in E.
  generalize dependent (resolvePolicy (ch_id c)). intros policy E.
  destruct (pe_severityFor _ _) as [sev|], (open_episode existing) as [r|] eqn:Eo; simplify_eq;
    try (apply open_episode_some in Eo as [-> _]); first [exact (Hex _ eq_refl)|done].
Qed.

(** The same status again changes no decision. *)
Lemma reduceCheck_again existing c now now' c' :
  ch_id c' = ch_id c → ch_status c' = ch_status c →
  (reduceCheck (reduceCheck existing c scheduleId now).1 c' scheduleId now').2 = None.
Proof.
  intros Ei Es. unfold reduceCheck. rewrite Ei, Es. generalize (resolvePolicy (ch_id c)). intros policy.
  destruct (pe_severityFor policy (ch_status c)) as [sev|] eqn:Ep,
    (open_episode existing) as [r|] eqn:Eo; cbn.
  - apply open_episode_some in Eo as [_ Ho]. rewrite Ho. by destruct sev.
  - by destruct sev.
  - done.
  - by rewrite Eo.
Qed.

Definition next_rows (existing : list (string * AlertStateRow)) (checks : list CheckResult) (now : string)
  : list AlertStateRow := (reduceChecks checks existing scheduleId now).1.

Lemma elem_of_option_lists {A B} (g : A → option B) l y :
  y ∈ concat (map (λ x, option_list (g x)) l) ↔ ∃ x, x ∈ l ∧ g x = Some y.
Proof.
  induction l as [|x l IH]; simpl.
  - split; [by intros ?%elem_of_nil|by intros (x & ?%elem_of_nil & _)].
  - rewrite elem_of_app, IH. setoid_rewrite elem_of_cons.
    destruct (g x) as [z|] eqn:E; simpl; rewrite ?list_elem_of_singleton, ?elem_of_nil; naive_solver.
Qed.

Lemma option_lists_NoDup {A B C} (g : A → option B) (f : A → C) (h : B → C) l :
  NoDup (map f l) → (∀ x y, x ∈ l → g x = Some y → h y = f x) →
  NoDup (map h (concat (map (λ x, option_list (g x)) l))).
Proof.
  induction l as [|x l IH]; simpl; intros Hn Hh; [constructor|]. apply NoDup_cons in Hn as [Hx Hn].
  rewrite map_app. apply NoDup_app. split_and!.
  - destruct (g x); simpl; [apply NoDup_singleton|constructor].
  - intros k (y & -> & Hy)%list_elem_of_fmap (y' & E & Hy')%list_elem_of_fmap.
    apply elem_of_option_lists in Hy' as (x' & Hx' & E'). destruct (g x) as [z|] eqn:Ez; [|by apply elem_of_nil in Hy].
    apply list_elem_of_singleton in Hy as ->. apply Hx. apply list_elem_of_fmap. exists x'. split; [|done].
    rewrite <- (Hh x z), <- (Hh x' y') by (done || left || by right). done.
  - apply IH; [done|]. intros a b Ha. apply Hh. by right.
Qed.

Lemma next_rows_eq existing checks now :
  next_rows existing checks now = concat (map (λ c, option_list
    (reduceCheck (map_get existing (check_fingerprint scheduleId c)) c scheduleId now).1) checks).
Proof. unfold next_rows, reduceChecks. cbn [fst]. by rewrite map_map. Qed.

(** After a batch each check's episode is the one its evaluation left. *)
Lemma engine_batch rows checks now :
  episodes_wf rows → NoDup (map (check_fingerprint scheduleId) checks) →
  let existing := existing_by_fingerprint scheduleId (map_values rows) in
  let rows' := fold_left (λ m row, map_set m (ar_fingerprint row) row) (next_rows existing checks now) rows in
  episodes_wf rows' ∧
  ∀ c, c ∈ checks → map_get rows' (check_fingerprint scheduleId c) =
    (reduceCheck (map_get rows (check_fingerprint scheduleId c)) c scheduleId now).1.
Proof.
  intros Hwf Hn existing rows'. set (fp := check_fingerprint scheduleId) in *.
  set (g := λ c, (reduceCheck (map_get existing (fp c)) c scheduleId now).1).
  assert (Hex : ∀ k, map_get existing k = map_get rows k) by (by apply existing_same).
  assert (Hrow : ∀ c row, g c = Some row → ar_fingerprint row = fp c ∧ row_keyed row).
  { intros c row E. unfold g in E. destruct (reduceCheck _ _ _ _) as [o d] eqn:Er. simpl in E. subst o.
    apply (reduceCheck_row _ _ _ _ _ Er). intros r Hr. rewrite Hex in Hr. apply map_get_elem in Hr.
    destruct Hwf as [_ Hf]. rewrite Forall_forall in Hf. destruct (Hf _ Hr) as [E1 E2]. simpl in *. unfold row_keyed.
    split; [done|congruence]. }
  assert (Enext : next_rows existing checks now = concat (map (λ c, option_list (g c)) checks)) by apply next_rows_eq.
  assert (Hkeyed : Forall row_keyed (next_rows existing checks now)).
  { rewrite Enext. apply Forall_forall. intros row (c & _ & E)%elem_of_option_lists. by destruct (Hrow c row E). }
  assert (Hnd : NoDup (map ar_fingerprint (next_rows existing checks now))).
  { rewrite Enext. apply (option_lists_NoDup g fp); [done|]. intros c row _ E. by destruct (Hrow c row E). }
  destruct (rows_set_view (next_rows existing checks now) rows Hwf Hkeyed) as [Hwf' Hother].
  split; [exact Hwf'|]. intros c Hc. rewrite <- Hex. fold (g c). destruct (g c) as [row|] eqn:Eg.
  - destruct (Hrow c row Eg) as [<- _]. apply rows_set_get; [done..|]. rewrite Enext.
    apply elem_of_option_lists. by exists c.
  - unfold rows'. rewrite Hother.
    + rewrite <- Hex. unfold g in Eg. revert Eg. unfold reduceCheck.
      generalize (resolvePolicy (ch_id c)). intros policy.
      destruct (map_get existing (fp c)) as [r|]; [|done]. cbn. unfold open_episode, close_episode, new_episode, continue_episode.
      by destruct (pe_severityFor _ _), (ar_currentState r === EP_RECOVERED).
    + rewrite Enext. intros row (c' & Hc' & E)%elem_of_option_lists Hfp. destruct (Hrow c' row E) as [E' _].
      assert (c' = c) as ->; [|congruence]. apply (NoDup_map_inj fp checks); [done..|congruence].
Qed.

(** What was announced is not announced again.  After a tick of the engine, a tick
    with the same statuses, at any later time, makes no decision and leaves the outbox as
    it was, however many times the tick is repeated by a replay or by the schedule. *)
Theorem repeated_tick_is_silent st st1 st2 report report' t1 t2 ds1 rows1 r2 :
  episodes_wf (as_rows st) → ob_wf (as_outbox st) →
  NoDup (map (check_fingerprint scheduleId) (allChecks report)) →
  Forall2 (λ c c', ch_id c' = ch_id c ∧ ch_status c' = ch_status c) (allChecks report) (allChecks report') →
  runAlertEngine report scheduleId t1 st = (st1, Ok (ds1, rows1)) →
  runAlertEngine report' scheduleId t2 st1 = (st2, r2) →
  episodes_wf (as_rows st1) ∧ ob_rows (as_outbox st2) = ob_rows (as_outbox st1) ∧
  ∀ ds2 rows2, r2 = Ok (ds2, rows2) → ds2 = [].
Proof.
  intros Hwf Hob Hn Hsame E1 E2. set (now1 := toISOString t1) in *. set (now2 := toISOString t2) in *.
  destruct (engine_batch (as_rows st) (allChecks report) now1 Hwf Hn) as [Hwf1 Hget].
  assert (Est1 : as_rows st1 = fold_left (λ m row, map_set m (ar_fingerprint row) row)
    (next_rows (existing_by_fingerprint scheduleId (map_values (as_rows st))) (allChecks report) now1) (as_rows st)
    ∧ ob_wf (as_outbox st1)).
  { unfold runAlertEngine in E1. unfold next_rows, getAll in *. fold now1 in E1.
    destruct (reduceChecks _ _ _ _) as [nr ds]. unfold mbind, prog_bind, putAll in E1.
    destruct (enqueue _ _) as [s [u|e]] eqn:Eq; [|done]. injection E1 as <- _ _. split; [done|].
    by destruct (enqueue_law _ _ _ _ Hob Eq). }
  destruct Est1 as [Est1 Hob1]. cbv zeta in Hget, Hwf1. rewrite <- Est1 in Hget, Hwf1. split; [done|].
  assert (Hds : (reduceChecks (allChecks report') (existing_by_fingerprint scheduleId (getAll st1)) scheduleId now2).2 = []).
  { unfold reduceChecks. cbn [snd]. rewrite map_map. apply elem_of_nil_inv.
    intros d (c' & Hc' & E)%elem_of_option_lists. apply list_elem_of_lookup in Hc' as [k Hk].
    destruct (Forall2_lookup_r _ _ _ _ _ Hsame Hk) as (c & Hc & Ei & Es). apply list_elem_of_lookup_2 in Hc.
    assert (Ef : check_fingerprint scheduleId c' = check_fingerprint scheduleId c) by (unfold check_fingerprint; by rewrite Ei).
    rewrite Ef in E. unfold getAll in E. rewrite existing_same, Hget in E by done.
    by rewrite reduceCheck_again in E. }
  unfold runAlertEngine in E2. fold now2 in E2. destruct (reduceChecks _ _ _ now2) as [nr ds] eqn:Er.
  cbn [snd] in Hds. subst ds. unfold mbind, prog_bind, putAll in E2. cbn [intentsFromDecisions List.filter map] in E2.
  destruct (enqueue _ (as_outbox st1)) as [s [u|e]] eqn:Eq; injection E2 as <- <-; cbn [as_outbox].
  all: destruct (enqueue_law _ _ _ _ Hob1 Eq) as (_ & _ & [E|[_ E]]); rewrite E; split; [|by intros ? ? [= <- <-]|done|by intros ? ? [= <- <-]].
  all: apply enqueued_nil.
Qed.
End engine_facts.

(** ** The monitor tick *)

Section monitor.
Context {S N : Type} `{HS : !NotificationOutboxStore S} `{HL : !NotificationOutboxStoreLaws S}
  `{HN : !Notifier N} `{HNL : !NotifierLaws N}.
Context (scheduleId transport : string) (config : DeliveryConfig).

Lemma enqueued_lookup l (rows : gmap string NotificationOutboxRow) i :
  i ∈ l → is_Some (enqueued l rows !! np_notificationId (ni_payload i)).
Proof.
  intros Hin. unfold enqueued. apply lookup_union_is_Some. right. rewrite list_to_map_get.
  destruct (map_get _ _) eqn:E; [done|]. exfalso. apply map_get_not_elem in E. apply E.
  unfold map_keys. apply list_elem_of_fmap. exists (np_notificationId (ni_payload i), pending_row i).
  split; [done|]. apply list_elem_of_fmap. by exists i.
Qed.

(** A tick commits before it delivers, and fails without side effects.  A tick that did
    not get the lock, or could not collect a report, changed and sent nothing; one whose
    engine failed sent nothing; and after any other tick, however its delivery phase ended,
    every decision that notifies has its row in the outbox. *)
Theorem monitor_commits_before_delivery exclusive collected rd st n st' n' sum :
  ob_wf (as_outbox st) →
  runMonitor scheduleId transport config exclusive collected rd st n = (st', n', sum) →
  match rs_result sum with
  | OVERLAP_SKIPPED | COLLECTION_FAILED => st' = st ∧ n' = n ∧ rs_notificationsQueued sum = 0
  | STATE_FAILED => n' = n ∧ rs_notificationsQueued sum = 0
  | RUN_OK | DELIVERY_FAILED => exclusive = LockAcquired ∧ ∃ report decisions nextRows st1,
      collected = Ok report ∧
      runAlertEngine report scheduleId (rd_engine rd) st = (st1, Ok (decisions, nextRows)) ∧
      rs_notificationsQueued sum = Z.of_nat (length (List.filter de_notify decisions)) ∧
      ∀ d, d ∈ decisions → de_notify d = true → is_Some (ob_rows (as_outbox st') !!
        deriveNotificationId (de_fingerprint d) (de_firstSeenAt d) (de_kind d) (de_occurrenceCount d))
  end.
Proof.
  intros Hob E. unfold runMonitor in E. destruct exclusive as [| |e]; [|by injection E as <- <- <-..].
  unfold monitor_body in E. destruct collected as [report|e]; [|by injection E as <- <- <-].
  destruct (runAlertEngine report scheduleId (rd_engine rd) st) as [st1 [[ds nr]|e]] eqn:Ee; [|by injection E as <- <- <-].
  destruct (runDeliveryWorker _ _ _ _ _ _ _) as [[s k] x] eqn:Ew. injection E as <- <- <-.
  assert (Hq : ob_wf (as_outbox st1) ∧ ∀ d, d ∈ ds → de_notify d = true → is_Some (ob_rows (as_outbox st1) !!
    deriveNotificationId (de_fingerprint d) (de_firstSeenAt d) (de_kind d) (de_occurrenceCount d))).
  { unfold runAlertEngine in Ee. destruct (reduceChecks _ _ _ _) as [nr' ds'].
    unfold mbind, prog_bind, putAll in Ee. destruct (enqueue _ _) as [s1 [u|e]] eqn:Eq; [|done].
    injection Ee as <- <- <-. cbn [as_outbox]. destruct (enqueue_law _ _ _ _ Hob Eq) as (Hwf & _ & [Er|[? _]]); [|done].
    split; [done|]. intros d Hd Hn. rewrite Er.
    set (now := toISOString (rd_engine rd)). change (deriveNotificationId _ _ _ _) with
      (np_notificationId (ni_payload (intent_of now d))).
    apply enqueued_lookup. apply list_elem_of_fmap. exists d. split; [done|]. by apply elem_of_filter_bool. }
  destruct Hq as [Hwf1 Hq].
  pose proof (summarise_refines config _ _ _ _ _ _ _ _ (worker_body_refines config _ _ _) Hwf1 Ew) as [_ Hs].
  apply steps_rows_advance in Hs. cbn [rs_result rs_notificationsQueued as_outbox].
  destruct (ds_result x); (split; [done|]); exists report, ds, nr, st1; (split_and!; [done..|]);
    intros d Hd Hn; destruct (Hq d Hd Hn) as [r Hr]; destruct (Hs _ _ Hr) as (r' & Hr' & _); by exists r'.
Qed.
End monitor.

(** ** The theorems at concrete inputs *)

(** A transport that fails as often as its counter says, and records what it accepts. *)
#[local] Instance sample_transport : Notifier (nat * list NotificationPayload) :=
  {| notify := λ p n, match n with
       | (O, sent) => ((O, sent ++ [p]), Ok tt)
       | (S k, sent) => ((k, sent), Throw (js_error "connection reset"))
       end |}.

#[local] Instance sample_transport_laws : NotifierLaws (nat * list NotificationPayload).
Proof.
  refine {| nt_sent := snd |}.
  - intros p [[|k] sent] n' [=]. by subst.
  - intros p [[|k] sent] n' e [=]. subst. by left.
Defined.

Definition sample_config : DeliveryConfig :=
  {| baseDelayMs := 1000; maxDelayMs := 4000; maxAttempts := 3; staleSendingMs := 60000 |}.

Definition sample_intent : NotificationIntent :=
  {| ni_payload := {| np_notificationId := "n1"; np_fingerprint := "f1"; np_checkId := "database.reachable";
       np_entityId := "canary"; np_firstSeenAt := toISOString 0; np_lastSeenAt := toISOString 0; np_kind := NEW;
       np_occurrenceCount := 1; np_severity := P0; np_message := "connect failed: postgres://user:secret@db";
       np_durationMs := None |};
     ni_createdAt := toISOString 0 |}.

Definition no_locale (a b : string) : Z := 0.

#[local] Instance sample_store : NotificationOutboxStore OutboxStore := InMemoryNotificationOutboxStore no_locale.
#[local] Instance sample_store_laws : NotificationOutboxStoreLaws OutboxStore :=
  InMemoryNotificationOutboxStoreLaws no_locale.

(** Queued, claimed and failed at 1 s, delivered at 7 s. *)
Definition sample_calls : list outbox_call :=
  [CallEnqueue [sample_intent]; CallWorker "sample" 1000 1000 50; CallWorker "sample" 7000 7000 50].

Definition delivered_row : NotificationOutboxRow :=
  {| or_intent := sample_intent; or_status := DELIVERED; or_attemptCount := 2;
     or_lastAttemptAt := Some (toISOString 7000); or_nextAttemptAt := toISOString 2000;
     or_deliveredAt := Some (toISOString 7000); or_lastError := None |}.

Lemma empty_keyed : keyed (os_rows empty_outbox).
Proof. by repeat constructor. Qed.

Lemma worker_refines_protocol_witness :
  let final := run_calls sample_config sample_calls empty_outbox (1%nat, []) in
  length final.2.2 = 1%nat ∧
  rtc (delivery_step sample_config) (view empty_outbox (1%nat, [])) (view final.1 final.2).
Proof.
  cbv zeta. split; [vm_compute; reflexivity|].
  exact (worker_refines_protocol sample_config sample_calls empty_outbox (1%nat, []) empty_keyed).
Defined.

Lemma one_row_keyed row : or_id row = "n1" → keyed [("n1", row)].
Proof. intros H. split; [apply NoDup_singleton|by repeat constructor]. Qed.

Lemma outbox_rows_persist_witness :
  let s := {| os_rows := [("n1", delivered_row)]; os_events := [] |} in
  ∃ r', ob_rows (run_calls sample_config [CallEnqueue [sample_intent]; CallWorker "sample" 9000 9000 50] s
    (0%nat, [])).1 !! "n1" = Some r' ∧ r' = delivered_row.
Proof.
  cbv zeta.
  destruct (outbox_rows_persist sample_config [CallEnqueue [sample_intent]; CallWorker "sample" 9000 9000 50]
    {| os_rows := [("n1", delivered_row)]; os_events := [] |} (0%nat, []) "n1" delivered_row)
    as (r' & Hr' & _ & _ & Hsame).
  - by apply one_row_keyed.
  - vm_compute. reflexivity.
  - exists r'. split; [exact Hr'|]. apply Hsame. by left.
Defined.

Lemma delivered_was_sent_witness :
  rowToPayload delivered_row ∈ nt_sent (run_calls sample_config sample_calls empty_outbox (1%nat, [])).2 ∧
  np_message (rowToPayload delivered_row) = "database.reachable: NEW (P0)".
Proof.
  split; [|reflexivity].
  refine (proj1 (delivered_was_sent sample_config sample_calls empty_outbox (1%nat, []) "n1" delivered_row
    empty_keyed _ _) _).
  - reflexivity.
  - vm_compute. reflexivity.
  - reflexivity.
Defined.

Lemma queued_rows_settle_witness :
  ∃ r', map_get (os_rows (run_calls sample_config (ticks "sample" 50 [1000; 5000; 9000])
    {| os_rows := [("n1", pending_row sample_intent)]; os_events := [] |} (7%nat, [])).1) "n1" = Some r' ∧
    (or_status r' = DELIVERED ∨ or_status r' = POISON).
Proof.
  apply (queued_rows_settle no_locale sample_config "sample") with (r0 := pending_row sample_intent) (t0 := 0).
  - done.
  - done.
  - exact sample_transport_laws.
  - by apply one_row_keyed.
  - cbn. lia.
  - reflexivity.
  - reflexivity.
  - reflexivity.
  - done.
  - by repeat split.
  - done.
Defined.

(** The same row with an innocent text. *)
Definition other_text : NotificationOutboxRow :=
  {| or_intent := {| ni_payload := with_message (or_payload (pending_row sample_intent)) "ok";
                     ni_createdAt := toISOString 0 |};
     or_status := PENDING; or_attemptCount := 0; or_lastAttemptAt := None; or_nextAttemptAt := toISOString 0;
     or_deliveredAt := None; or_lastError := None |}.

Lemma alert_text_stays_inside_witness :
  let run row := runDeliveryWorker sample_config "sample" 1000 1000 50
    {| os_rows := [("n1", row)]; os_events := [] |} (0%nat, []) in
  (run (pending_row sample_intent)).1.2 = (run other_text).1.2 ∧
  length (run (pending_row sample_intent)).1.2.2 = 1%nat.
Proof.
  cbv zeta. split; [|vm_compute; reflexivity].
  refine (proj1 (alert_text_stays_inside no_locale sample_config "sample" 1000 1000 50
    {| os_rows := [("n1", pending_row sample_intent)]; os_events := [] |}
    {| os_rows := [("n1", other_text)]; os_events := [] |} (0%nat, []) _)).
  reflexivity.
Defined.

Definition sample_report (checkedAt : string) : HealthReport :=
  {| hr_overall := CRITICAL; hr_checkedAt := checkedAt; hr_release := None;
     hr_domains := [(D_scheduler, {| dr_status := CRITICAL; dr_checks := [sample_check CRITICAL] |})];
     hr_criticalIssues := 1; hr_degradedIssues := 0; hr_unknownChecks := 0; hr_lastFireAtUtc := None;
     hr_nextWakeAtUtc := None |}.

Definition no_episodes : AlertStore OutboxStore := {| as_rows := []; as_outbox := empty_outbox |}.

Lemma repeated_tick_is_silent_witness :
  let tick1 := runAlertEngine (sample_report "a") "canary" 1000 no_episodes in
  let tick2 := runAlertEngine (sample_report "b") "canary" 301000 tick1.1 in
  match tick1.2, tick2.2 with
  | Ok (ds1, _), Ok (ds2, _) => length ds1 = 1%nat ∧ ds2 = []
  | _, _ => False
  end.
Proof.
  assert (H1 : match (runAlertEngine (sample_report "a") "canary" 1000 no_episodes).2 with
    | Ok (ds1, _) => length ds1 = 1%nat | Throw _ => False end) by (vm_compute; reflexivity).
  assert (H2 : is_ok (runAlertEngine (sample_report "b") "canary" 301000
    (runAlertEngine (sample_report "a") "canary" 1000 no_episodes).1).2 = true) by (vm_compute; reflexivity).
  cbv zeta. destruct (runAlertEngine (sample_report "a") "canary" 1000 no_episodes) as [st1 [[ds1 rows1]|]] eqn:E1; [|done].
  cbn [fst snd] in *.
  destruct (runAlertEngine (sample_report "b") "canary" 301000 st1) as [st2 [[ds2 rows2]|]] eqn:E2; [|done].
  cbn [fst snd] in *. split; [exact H1|].
  refine (proj2 (proj2 (repeated_tick_is_silent "canary" no_episodes st1 st2 (sample_report "a") (sample_report "b")
    1000 301000 ds1 rows1 (Ok (ds2, rows2)) _ _ _ _ E1 E2)) ds2 rows2 eq_refl).
  - by repeat constructor.
  - exact empty_keyed.
  - apply NoDup_singleton.
  - by repeat constructor.
Defined.

Lemma monitor_commits_before_delivery_witness :
  let readings := {| rd_start := 1000; rd_engine := 1000; rd_delivery := 1000; rd_delivered := 1000; rd_end := 1000 |} in
  let run := runMonitor "canary" "sample" sample_config LockAcquired (Throw (js_error "no database")) readings
    no_episodes (0%nat, []) in
  rs_result run.2 = COLLECTION_FAILED ∧ run.1.1 = no_episodes ∧ run.1.2 = (0%nat, []).
Proof.
  cbv zeta. split; [reflexivity|].
  pose proof (monitor_commits_before_delivery "canary" "sample" sample_config LockAcquired
    (Throw (js_error "no database"))
    {| rd_start := 1000; rd_engine := 1000; rd_delivery := 1000; rd_delivered := 1000; rd_end := 1000 |}
    no_episodes (0%nat, []) _ _ _ empty_keyed eq_refl) as (H1 & H2 & _).
  split; [exact H1|exact H2].
Defined.
