(* ===== verification/Codec.v ===== *)
(** * Byte codecs of Node's standard library

    Base64url ([Buffer.from(s, "base64url")], [toString("base64url")]), the UTF-8 decoder,
    percent-decoding, [application/x-www-form-urlencoded] and HMAC-SHA256, as the operator
    door's OAuth server uses them.  The decoders are Node's: lenient where it is lenient.
    The lemmas: base64url decoding inverts encoding, and its alphabet has no dot. *)

From S2P Require Import Prelude JsNumber JsDate Digest Contracts Plan Capability Json Mission.
Local Open Scope Z_scope.
Local Open Scope js_scope.

Abbreviation bytes_of := Sha256.string_bytes.

(** ** Base64url, without padding *)

Definition sextet_char (n : Z) : ascii :=
  ascii_of_N (Z.to_N (if n <? 26 then 65 + n else if n <? 52 then 71 + n else if n <? 62 then n - 4
                      else if n =? 62 then 45 else 95)).

(** Both alphabets are read. *)
Definition sextet_value (c : ascii) : option Z :=
  let n := Z.of_N (N_of_ascii c) in
  if (65 <=? n) && (n <=? 90) then Some (n - 65)
  else if (97 <=? n) && (n <=? 122) then Some (n - 71)
  else if (48 <=? n) && (n <=? 57) then Some (n + 4)
  else if (n =? 45) || (n =? 43) then Some 62
  else if (n =? 95) || (n =? 47) then Some 63 else None.

Fixpoint sextets (bs : list Z) : list Z :=
  match bs with
  | a :: b :: c :: r => a / 4 :: a mod 4 * 16 + b / 16 :: b mod 16 * 4 + c / 64 :: c mod 64 :: sextets r
  | [a; b] => [a / 4; a mod 4 * 16 + b / 16; b mod 16 * 4]
  | [a] => [a / 4; a mod 4 * 16]
  | [] => []
  end.

(** A leftover sextet holds no whole byte. *)
Fixpoint octets (ds : list Z) : list Z :=
  match ds with
  | a :: b :: c :: d :: r => a * 4 + b / 16 :: b mod 16 * 16 + c / 4 :: c mod 4 * 64 + d :: octets r
  | [a; b; c] => [a * 4 + b / 16; b mod 16 * 16 + c / 4]
  | [a; b] => [a * 4 + b / 16]
  | _ => []
  end.

(** [Buffer.from(bytes).toString("base64url")] *)
Definition base64url (bs : list Z) : string := String.string_of_list_ascii (map sextet_char (sextets bs)).

(** The characters before the first padding sign. *)
Fixpoint before_padding (cs : list ascii) : list ascii :=
  match cs with
  | [] => []
  | c :: cs' => if c === "="%char then [] else c :: before_padding cs'
  end.

(** [Buffer.from(s, "base64url")], and [Buffer.from(s, "base64")]: characters outside the
    alphabets are skipped, and [=] ends the text. *)
Definition from_base64 (s : string) : list Z :=
  octets (omap sextet_value (before_padding (String.list_ascii_of_string s))).

(** ** The UTF-8 decoder *)

Definition replacement : list Z := [239; 191; 189].

(** What a byte in first position begins: the bytes written at once, and the number and the
    range of the continuation bytes awaited. *)
Definition utf8_lead (b : Z) : list Z * (nat * Z * Z) :=
  if b <? 128 then ([b], (0%nat, 0, 0))
  else if b <? 194 then (replacement, (0%nat, 0, 0))
  else if b <? 224 then ([], (1%nat, 128, 191))
  else if b <? 240 then ([], (2%nat, (if b =? 224 then 160 else 128), (if b =? 237 then 159 else 191)))
  else if b <? 245 then ([], (3%nat, (if b =? 240 then 144 else 128), (if b =? 244 then 143 else 191)))
  else (replacement, (0%nat, 0, 0)).

(** Each maximal ill-formed part is written as U+FFFD. *)
Fixpoint utf8_from (await : nat * Z * Z) (pending bs : list Z) : list Z :=
  match bs with
  | [] => match await with (O, _, _) => [] | _ => replacement end
  | b :: bs' =>
      let fresh (out : list Z) :=
        let '(now, await') := utf8_lead b in
        out ++ now ++ utf8_from await' (match await' with (O, _, _) => [] | _ => [b] end) bs' in
      match await with
      | (O, _, _) => fresh []
      | (S n, lo, hi) =>
          if (lo <=? b) && (b <=? hi) then
            match n with
            | O => pending ++ [b] ++ utf8_from (0%nat, 0, 0) [] bs'
            | S _ => utf8_from (n, 128, 191) (pending ++ [b]) bs'
            end
          else fresh replacement
      end
  end.

Definition utf8_decode (bs : list Z) : list Z := utf8_from (0%nat, 0, 0) [] bs.

(** [buffer.toString("utf8")] *)
Definition utf8_text (bs : list Z) : string := bytes_string (utf8_decode bs).

(** ** Percent-decoding *)

Definition byte_hex (b : Z) : option Z := hex_value (ascii_of_N (Z.to_N b)).

(** The URL standard's percent-decode: a sign without two hexadecimal digits stays. *)
Fixpoint percent_decode (bs : list Z) : list Z :=
  match bs with
  | 37 :: ((h :: l :: bs') as rest) =>
      match byte_hex h, byte_hex l with
      | Some h, Some l => h * 16 + l :: percent_decode bs'
      | _, _ => 37 :: percent_decode rest
      end
  | b :: bs' => b :: percent_decode bs'
  | [] => []
  end.

(** Every percent sign is followed by two hexadecimal digits. *)
Fixpoint percent_ok (bs : list Z) : bool :=
  match bs with
  | 37 :: rest =>
      match rest with
      | h :: l :: bs' => match byte_hex h, byte_hex l with Some _, Some _ => percent_ok bs' | _, _ => false end
      | _ => false
      end
  | _ :: bs' => percent_ok bs'
  | [] => true
  end.

(** [decodeURIComponent(s)]: a URIError unless the escapes are well formed and write UTF-8. *)
Definition decodeURIComponent (s : string) : result string :=
  let bs := percent_decode (bytes_of s) in
  if percent_ok (bytes_of s) && bool_decide (utf8_decode bs = bs) then Ok (bytes_string bs)
  else Throw (Exn "URIError" "URI malformed").

(** One component of a form: [+] is a space. *)
Definition form_component (s : string) : string :=
  utf8_text (percent_decode (map (λ b, if b =? 43 then 32 else b) (bytes_of s))).

(** [new URLSearchParams(text)]: the pairs in order. *)
Definition form_pairs (text : string) : list (string * string) :=
  map (λ p, match cut_at "=" p with
            | Some (k, v) => (form_component k, form_component v)
            | None => (form_component p, EmptyString)
            end)
    (List.filter (λ p, p !== EmptyString)
       (split "&" (match text with String "?"%char rest => rest | _ => text end))).

(** ** HMAC-SHA256 (RFC 2104) *)

Definition sha256_bytes (bs : list Z) : list Z :=
  concat (map (Sha256.be_bytes 4) (Sha256.sha256_words (bytes_string bs))).

Definition hmac_key (key : list Z) : list Z :=
  let k := if (64 <? length key)%nat then sha256_bytes key else key in
  k ++ repeat 0 (64 - length k).

Definition hmac_sha256 (key msg : list Z) : list Z :=
  let k := hmac_key key in
  sha256_bytes (map (Z.lxor 92) k ++ sha256_bytes (map (Z.lxor 54) k ++ msg)).

(** RFC 4231, test case 2. *)
Example hmac_rfc4231 :
  String.string_of_list_ascii (concat (map (λ b, [Sha256.hex_digit (b / 16); Sha256.hex_digit (b mod 16)])
    (hmac_sha256 (bytes_of "Jefe") (bytes_of "what do ya want for nothing?"))))
  = "5bdcc146bf60754e6a042426089575c75a003f089d2739839dec58b964ec3843".
Proof. vm_compute. reflexivity. Qed.

(** RFC 7636, appendix B. *)
Example pkce_rfc7636 :
  base64url (sha256_bytes (bytes_of "dBjftJeZ4CVP-mB92K27uhbUJU1p1r_wW1gFWFOEjXk")) = "E9Melhoa2OwvFrEMTJguCHaoeK1t8URWbuGJSstw-cM".
Proof. vm_compute. reflexivity. Qed.

Example decoders_lenient :
  from_base64 "w0*= ignored" = [195] ∧ from_base64 "=bad" = [] ∧ utf8_text [65; 240; 159; 65; 128] = "A�A�" ∧
  form_pairs "?a=b+c&&d&e=%C3%A9%2" = [("a", "b c"); ("d", EmptyString); ("e", "é%2")] ∧
  decodeURIComponent "a%20b" = Ok "a b" ∧ is_ok (decodeURIComponent "%C3") = false.
Proof. by vm_compute. Qed.

(** ** Base64url round trip *)

Definition is_byte (b : Z) : Prop := 0 <= b < 256.

Lemma three_ind (P : list Z → Prop) :
  P [] → (∀ a, P [a]) → (∀ a b, P [a; b]) → (∀ a b c r, P r → P (a :: b :: c :: r)) → ∀ l, P l.
Proof.
  intros H0 H1 H2 H3. fix IH 1. intros [|a [|b [|c r]]]; [done|apply H1|apply H2|apply H3, IH].
Qed.

Lemma sextets_range bs : Forall is_byte bs → Forall (λ d, 0 <= d < 64) (sextets bs).
Proof.
  unfold is_byte. induction bs as [|a|a b|a b c r IH] using three_ind; intros H; cbn [sextets];
    repeat match goal with H : Forall _ (_ :: _) |- _ => apply Forall_cons in H as [? ?] end;
    repeat (constructor; [zdiv|]); auto.
Qed.

Lemma octets_sextets bs : Forall is_byte bs → octets (sextets bs) = bs.
Proof.
  unfold is_byte. induction bs as [|a|a b|a b c r IH] using three_ind; intros H; cbn [sextets octets];
    repeat match goal with H : Forall _ (_ :: _) |- _ => apply Forall_cons in H as [? ?] end.
  - done.
  - f_equal. zdiv.
  - f_equal; [zdiv|]. f_equal. zdiv.
  - f_equal; [zdiv|]. f_equal; [zdiv|]. f_equal; [zdiv|]. auto.
Qed.

(** Every sextet's character is in the alphabet: it is read back, and is neither the padding
    sign nor a dot. *)
Lemma sextet_char_ok n : 0 <= n < 64 →
  sextet_value (sextet_char n) = Some n ∧ sextet_char n ≠ "="%char ∧ sextet_char n ≠ "."%char.
Proof.
  intros Hn. assert (forallb (λ n, (sextet_value (sextet_char n) === Some n) && (sextet_char n !== "="%char) &&
    (sextet_char n !== "."%char)) (seqZ 0 64) = true) as H by (vm_compute; reflexivity).
  rewrite forallb_forall in H. specialize (H n). rewrite <- list_elem_of_In, elem_of_seqZ in H.
  specialize (H ltac:(lia)). by to_prop.
Qed.

Lemma before_padding_all cs : "="%char ∉ cs → before_padding cs = cs.
Proof.
  induction cs as [|c cs IH]; [done|]. intros [Hc Hcs]%not_elem_of_cons. cbn. rewrite bool_decide_false by done. by rewrite IH.
Qed.

(** Node reads back what it wrote. *)
Lemma from_base64url bs : Forall is_byte bs → from_base64 (base64url bs) = bs.
Proof.
  intros H. unfold from_base64, base64url. rewrite String.list_ascii_of_string_of_list_ascii.
  pose proof (sextets_range bs H) as Hs. rewrite before_padding_all.
  - assert (omap sextet_value (map sextet_char (sextets bs)) = sextets bs) as ->; [|by apply octets_sextets].
    induction Hs as [|n l Hn Hs IH]; [done|]. cbn. destruct (sextet_char_ok n Hn) as [-> _]. by rewrite IH.
  - intros (n & E & Hn)%list_elem_of_In%in_map_iff. apply list_elem_of_In in Hn. rewrite Forall_forall in Hs.
    by destruct (sextet_char_ok n (Hs n Hn)) as (_ & ? & _).
Qed.

Lemma base64url_no_dot bs : Forall is_byte bs → "."%char ∉ String.list_ascii_of_string (base64url bs).
Proof.
  intros H. unfold base64url. rewrite String.list_ascii_of_string_of_list_ascii.
  pose proof (sextets_range bs H) as Hs. rewrite Forall_forall in Hs.
  intros (n & E & Hn)%list_elem_of_In%in_map_iff. apply list_elem_of_In in Hn.
  by destruct (sextet_char_ok n (Hs n Hn)) as (_ & _ & ?).
Qed.

Lemma string_bytes_ok s : Forall is_byte (bytes_of s).
Proof.
  apply Forall_forall. intros b (c & <- & _)%list_elem_of_In%in_map_iff. unfold is_byte.
  pose proof (N_ascii_bounded c). lia.
Qed.

Lemma be_bytes_ok w n : Forall is_byte (Sha256.be_bytes w n).
Proof.
  apply Forall_forall. intros b (i & <- & _)%list_elem_of_In%in_map_iff. unfold is_byte. apply Z.mod_pos_bound. lia.
Qed.

Lemma sha256_bytes_ok bs : Forall is_byte (sha256_bytes bs).
Proof.
  apply Forall_concat, Forall_forall. intros l (w & <- & _)%list_elem_of_In%in_map_iff. apply be_bytes_ok.
Qed.

Lemma hmac_bytes_ok key msg : Forall is_byte (hmac_sha256 key msg).
Proof. apply sha256_bytes_ok. Qed.

(** A text without the separator is one part, and a joined text splits into its parts. *)
Lemma split_from_end sep acc s : sep ∉ s → split_from sep acc s = [String.string_of_list_ascii (rev acc ++ s)].
Proof.
  revert acc. induction s as [|c s IH]; intros acc; [by rewrite app_nil_r|].
  intros [Hc Hs]%not_elem_of_cons. cbn [split_from]. rewrite bool_decide_false by done. rewrite IH by done.
  cbn [rev]. by rewrite <- app_assoc.
Qed.

Lemma split_from_part sep acc s t : sep ∉ s →
  split_from sep acc (s ++ sep :: t) = String.string_of_list_ascii (rev acc ++ s) :: split_from sep [] t.
Proof.
  revert acc. induction s as [|c s IH]; intros acc; cbn [app split_from]; [by rewrite bool_decide_true, app_nil_r|].
  intros [Hc Hs]%not_elem_of_cons. rewrite bool_decide_false by done. rewrite IH by done. cbn [rev]. by rewrite <- app_assoc.
Qed.

Lemma list_of_string_app (a b : string) :
  String.list_ascii_of_string (a +:+ b) = String.list_ascii_of_string a ++ String.list_ascii_of_string b.
Proof. induction a as [|c a IH]; [done|]. exact (f_equal (cons c) IH). Qed.

Lemma split_one (sep : ascii) (s : string) : sep ∉ String.list_ascii_of_string s → split sep s = [s].
Proof. intros H. unfold split. rewrite split_from_end by done. cbn. by rewrite String.string_of_list_ascii_of_string. Qed.

Lemma split_cons (sep : ascii) (s t : string) : sep ∉ String.list_ascii_of_string s →
  split sep (s +:+ String sep t) = s :: split sep t.
Proof.
  intros H. unfold split. rewrite list_of_string_app. cbn [String.list_ascii_of_string].
  rewrite split_from_part by done. cbn [rev app]. by rewrite String.string_of_list_ascii_of_string.
Qed.
