(* ===== verification/OAuthTokens.v ===== *)
(** * Tokens, client profiles and Google sign-in (apps/mcp/src/oauth: tokens.ts, profiles.ts,
    google.ts)

    Access tokens, refresh tokens and client ids are HMAC-signed claims; a client's profile is
    a function of its redirect URIs; an ID token is checked for issuer, audience, expiry and
    nonce.  [fetch] is a parameter.  The theorems: a token is accepted exactly when it is this
    key's for this purpose and its claims match the schema, what was signed is read back, and
    no client that is not ChatGPT's callback alone has the operator scope. *)

From S2P Require Import Prelude JsNumber JsDate Digest Contracts Plan Capability Json Mission Codec.
Local Open Scope Z_scope.
Local Open Scope js_scope.

(** ** tokens.ts *)

Definition TOKEN_PREFIX : string := "kjm1".

(** [AccessClaims], and [RefreshClaims] whose [typ] is another literal. *)
Record AccessClaims := {
  ac_iss : string; ac_aud : string; ac_sub : string; ac_cid : string; ac_fam : string; ac_scope : string;
  ac_iat : Z; ac_exp : Z; ac_jti : string
}.

Inductive ClientAuth := AUTH_NONE | CLIENT_SECRET_POST | CLIENT_SECRET_BASIC.

#[export] Instance ClientAuth_eq_dec : EqDecision ClientAuth.
Proof. solve_decision. Defined.

Record ClientClaims := {
  cl_iss : string; cl_name : string; cl_redirect_uris : list string; cl_auth : ClientAuth; cl_iat : Z; cl_jti : string
}.

#[export] Instance ClientClaims_eq_dec : EqDecision ClientClaims.
Proof. solve_decision. Defined.

Definition any_string : json → result string := z_string (λ _, true).
Definition any_int : json → result Z := z_int (- max_safe) max_safe.

Definition Claims_parse (typ : string) (v : json) : result AccessClaims :=
  fs ← z_strict ["typ"; "iss"; "aud"; "sub"; "cid"; "fam"; "scope"; "iat"; "exp"; "jti"] v;
  _ ← z_field fs "typ" (z_literal typ);
  iss ← z_field fs "iss" any_string; aud ← z_field fs "aud" any_string; sub ← z_field fs "sub" any_string;
  cid ← z_field fs "cid" any_string; fam ← z_field fs "fam" any_string; scope ← z_field fs "scope" any_string;
  iat ← z_field fs "iat" any_int; exp ← z_field fs "exp" any_int; jti ← z_field fs "jti" any_string;
  Ok {| ac_iss := iss; ac_aud := aud; ac_sub := sub; ac_cid := cid; ac_fam := fam; ac_scope := scope;
        ac_iat := iat; ac_exp := exp; ac_jti := jti |}.

Definition AccessClaims_parse : json → result AccessClaims := Claims_parse "access".
Definition RefreshClaims_parse : json → result AccessClaims := Claims_parse "refresh".

Definition auth_names : list (string * ClientAuth) :=
  [("none", AUTH_NONE); ("client_secret_post", CLIENT_SECRET_POST); ("client_secret_basic", CLIENT_SECRET_BASIC)].

Definition ClientClaims_parse (v : json) : result ClientClaims :=
  fs ← z_strict ["typ"; "iss"; "name"; "redirect_uris"; "auth"; "iat"; "jti"] v;
  _ ← z_field fs "typ" (z_literal "client");
  iss ← z_field fs "iss" any_string; name ← z_field fs "name" (z_text 0 100);
  uris ← z_field fs "redirect_uris" (z_array 1 5 any_string); auth ← z_field fs "auth" (z_enum auth_names);
  iat ← z_field fs "iat" any_int; jti ← z_field fs "jti" any_string;
  Ok {| cl_iss := iss; cl_name := name; cl_redirect_uris := uris; cl_auth := auth; cl_iat := iat; cl_jti := jti |}.

(** The objects the server signs, their keys in the order it writes them. *)
Definition claims_json (typ : string) (c : AccessClaims) : json :=
  JObj [("typ", JStr typ); ("iss", JStr (ac_iss c)); ("aud", JStr (ac_aud c)); ("sub", JStr (ac_sub c));
        ("cid", JStr (ac_cid c)); ("fam", JStr (ac_fam c)); ("scope", JStr (ac_scope c)); ("iat", JNum (ac_iat c));
        ("exp", JNum (ac_exp c)); ("jti", JStr (ac_jti c))].

Definition client_json (c : ClientClaims) : json :=
  JObj [("typ", JStr "client"); ("iss", JStr (cl_iss c)); ("name", JStr (cl_name c));
        ("redirect_uris", JArr (map JStr (cl_redirect_uris c))); ("auth", JStr (enum_name auth_names (cl_auth c)));
        ("iat", JNum (cl_iat c)); ("jti", JStr (cl_jti c))].

Definition b64 (s : string) : string := base64url (bytes_of s).

Definition pkceChallenge (verifier : string) : string := base64url (sha256_bytes (bytes_of verifier)).

Definition safeEqual (a b : string) : bool := a === b.

Module TokenSigner.

(** The constructor's refusal: at least 32 bytes of key material. *)
Definition new_TokenSigner (key : string) : result (list Z) :=
  ensure (32 <=? Z.of_nat (length (bytes_of key))) (js_error "MCP_TOKEN_SIGNING_KEY must be at least 32 bytes");;
  Ok (bytes_of key).

Section signer.
Context (key : list Z).

Definition mac (purpose payload : string) : string :=
  base64url (hmac_sha256 key (bytes_of (TOKEN_PREFIX +:+ "." +:+ purpose +:+ "." +:+ payload))).

Definition sign (typ : string) (claims : json) : string :=
  let payload := b64 (stringify claims) in
  TOKEN_PREFIX +:+ "." +:+ payload +:+ "." +:+ mac typ payload.

Definition result_option {A} (r : result A) : option A := match r with Ok a => Some a | Throw _ => None end.

Definition verify {A} (token : option string) (schema : json → result A) (typ : string) : option A :=
  match token with
  | None => None
  | Some token =>
      if 4096 <? js_length token then None
      else
        match split "." token with
        | [prefix; payload; m] =>
            if negb (prefix === TOKEN_PREFIX) then None
            else if negb (safeEqual m (mac typ payload)) then None
            else result_option (JSON_parse (utf8_text (from_base64 payload)) ≫= schema)
        | _ => None
        end
  end.

Definition clientSecret (clientId : string) : string := mac "client-secret" clientId.

End signer.
End TokenSigner.

(** ** profiles.ts *)

Definition OPERATOR_SCOPE : string := "kerneljson.operator".
Definition READ_SCOPE : string := "kerneljson.read".
Definition CHATGPT_REDIRECT_URIS : list string := ["https://chatgpt.com/connector_platform_oauth_redirect"].
Definition GROKBOT_REDIRECT_URIS : list string :=
  ["https://www.cursor.com/bot/mcp/oauth/callback"; "https://www.cursor.com/agents/mcp/oauth/callback";
   "https://grok.com/connectors-oauth-exchange-code/"; "http://localhost:8787/callback"; "http://127.0.0.1:8787/callback"].

Inductive ClientProfileName := CHATGPT | GROKBOT.

#[export] Instance ClientProfileName_eq_dec : EqDecision ClientProfileName.
Proof. solve_decision. Defined.

Record ClientProfile := {
  pf_name : ClientProfileName; pf_label : string; pf_scope : string; pf_readOnly : bool; pf_redirectUris : list string;
  pf_grants : string
}.

#[export] Instance ClientProfile_eq_dec : EqDecision ClientProfile.
Proof. solve_decision. Defined.

Definition CLIENT_PROFILES (name : ClientProfileName) : ClientProfile :=
  match name with
  | CHATGPT =>
      {| pf_name := CHATGPT; pf_label := "ChatGPT"; pf_scope := OPERATOR_SCOPE; pf_readOnly := false;
         pf_redirectUris := CHATGPT_REDIRECT_URIS;
         pf_grants := "read your tasks, evidence, memory and health, start a morning brief or a read-only repository analysis, and cancel tasks. It cannot approve anything." |}
  | GROKBOT =>
      {| pf_name := GROKBOT; pf_label := "Grok Bot (Cursor MCP client)"; pf_scope := READ_SCOPE; pf_readOnly := true;
         pf_redirectUris := GROKBOT_REDIRECT_URIS;
         pf_grants := "read your tasks, evidence, history, memory and health. It cannot start, cancel or approve anything." |}
  end.

Definition PROFILE_NAMES : list ClientProfileName := [CHATGPT; GROKBOT].

Definition profile_name (n : ClientProfileName) : string := match n with CHATGPT => "chatgpt" | GROKBOT => "grokbot" end.

Definition includes (l : list string) (x : string) : bool := bool_decide (x ∈ l).

Definition profileFor (redirectUris : list string) : option ClientProfile :=
  match redirectUris with
  | [] => None
  | _ =>
      match List.filter (λ name, forallb (includes (pf_redirectUris (CLIENT_PROFILES name))) redirectUris) PROFILE_NAMES with
      | [name] => Some (CLIENT_PROFILES name)
      | _ => None
      end
  end.

(** ** google.ts *)

Definition ISSUERS : list string := ["https://accounts.google.com"; "accounts.google.com"].

Record IdTokenClaims := { it_iss : string; it_aud : list string; it_sub : string; it_exp : number; it_nonce : option string }.

(** [/^[0-9]{1,64}$/] *)
Definition subject_ok (s : string) : bool :=
  let cs := String.list_ascii_of_string s in
  (1 <=? Z.of_nat (length cs)) && (Z.of_nat (length cs) <=? 64) && forallb is_num cs.

(** [z.object]: unknown fields are dropped. *)
Definition z_object (v : json) : result fields :=
  match v with JObj fs => Ok fs | _ => Throw (zod_error "invalid_type") end.

(** [z.union([z.string(), z.array(z.string())])], as the list of audiences. *)
Definition audience (v : json) : result (list string) :=
  match v with JStr s => Ok [s] | JArr l => map_all any_string l | _ => Throw (zod_error "invalid_union") end.

Definition IdTokenClaims_parse (v : json) : result IdTokenClaims :=
  fs ← z_object v;
  iss ← z_field fs "iss" any_string; aud ← z_field fs "aud" audience; sub ← z_field fs "sub" (z_string subject_ok);
  exp ← z_field fs "exp" number_of; nonce ← z_optional fs "nonce" any_string;
  Ok {| it_iss := iss; it_aud := aud; it_sub := sub; it_exp := exp; it_nonce := nonce |}.

Record IdExpected := { ie_clientId : string; ie_nonce : string; ie_nowSeconds : Z }.

(** The verified subject. *)
Definition checkIdToken (idToken : option json) (expected : IdExpected) : option string :=
  match idToken with
  | Some (JStr token) =>
      match split "." token with
      | [_; payload; _] =>
          match JSON_parse (utf8_text (from_base64 payload)) ≫= IdTokenClaims_parse with
          | Throw _ => None
          | Ok claims =>
              if negb (includes ISSUERS (it_iss claims)) then None
              else if negb (it_aud claims === [ie_clientId expected]) then None
              else if number_leb (it_exp claims) (ie_nowSeconds expected) then None
              else if it_nonce claims !== Some (ie_nonce expected) then None
              else Some (it_sub claims)
          end
      | _ => None
      end
  | _ => None
  end.

Record GoogleConfig := { gc_clientId : string; gc_clientSecret : string; gc_redirectUri : string }.

Definition GOOGLE_SUFFIX : string := ".apps.googleusercontent.com".

(** [/^[0-9A-Za-z._-]{10,200}\.apps\.googleusercontent\.com$/]: the suffix is 27 characters. *)
Definition google_client_id (s : string) : bool :=
  let n := (String.length s - 27)%nat in
  let name := String.list_ascii_of_string (String.substring 0 n s) in
  (String.substring n 27 s === GOOGLE_SUFFIX) && (10 <=? length name)%nat && (length name <=? 200)%nat &&
  forallb (λ c, is_alpha c || is_num c || bool_decide (c ∈ ["."; "_"; "-"]%char)) name.

Module HttpGoogleSignIn.

(** The constructor's refusals. *)
Definition new_HttpGoogleSignIn (config : GoogleConfig) : result GoogleConfig :=
  ensure (google_client_id (gc_clientId config)) (js_error "GOOGLE_CLIENT_ID is not a Google OAuth client id");;
  ensure (10 <=? js_length (gc_clientSecret config)) (js_error "GOOGLE_CLIENT_SECRET missing or malformed");;
  Ok config.

(** The query of the redirect to Google; writing it as a URL is [URLSearchParams]'s. *)
Definition authorize_params (config : GoogleConfig) (state nonce codeChallenge : string) : list (string * string) :=
  [("client_id", gc_clientId config); ("redirect_uri", gc_redirectUri config); ("response_type", "code");
   ("scope", "openid"); ("state", state); ("nonce", nonce); ("code_challenge", codeChallenge);
   ("code_challenge_method", "S256"); ("prompt", "select_account")].

(** The body of the token request. *)
Definition exchange_params (config : GoogleConfig) (code codeVerifier : string) : list (string * string) :=
  [("code", code); ("client_id", gc_clientId config); ("client_secret", gc_clientSecret config);
   ("redirect_uri", gc_redirectUri config); ("grant_type", "authorization_code"); ("code_verifier", codeVerifier)].

(** What the token endpoint answered: no answer, an error status, or a body that may be JSON. *)
Inductive TokenResponse := NoResponse | NotOk | OkBody (body : option json).

(** [body.id_token]: a TypeError on [null], [undefined] where there is none. *)
Definition id_token (body : json) : option (option json) :=
  match body with JNull => None | JObj fs => Some (map_get fs "id_token") | _ => Some None end.

Definition exchange (config : GoogleConfig) (fetch : list (string * string) → TokenResponse) (now : Z)
    (code codeVerifier nonce : string) : option string :=
  match fetch (exchange_params config code codeVerifier) with
  | OkBody (Some body) =>
      match id_token body with
      | Some t => checkIdToken t {| ie_clientId := gc_clientId config; ie_nonce := nonce; ie_nowSeconds := now / 1000 |}
      | None => None
      end
  | _ => None
  end.

End HttpGoogleSignIn.
