(* ===== verification/RateLimit.v ===== *)
(** * The rate limiter of the public OAuth endpoints (apps/mcp/src/oauth/rate-limit.ts)

    Fixed windows in a bounded table.  The theorems: the table never holds more than
    [MAX_TRACKED] addresses, a window never counts past its limit, and however the requests of
    different addresses interleave, an address passes at most twice its limit of requests in
    any span shorter than a window. *)

From S2P Require Import Prelude JsNumber JsDate Digest Contracts Plan Capability Json Mission Codec.
Local Open Scope Z_scope.
Local Open Scope js_scope.

Record RateRule := { rr_limit : Z; rr_windowMs : Z }.
Record RateLimits := { perClient : RateRule; registerPerClient : RateRule; global : RateRule }.

Definition DEFAULT_RATE_LIMITS : RateLimits :=
  {| perClient := {| rr_limit := 30; rr_windowMs := 60000 |};
     registerPerClient := {| rr_limit := 10; rr_windowMs := 3600000 |};
     global := {| rr_limit := 300; rr_windowMs := 60000 |} |}.
Definition MAX_TRACKED : Z := 10000.

Inductive RuleName := PER_CLIENT | REGISTER_PER_CLIENT | GLOBAL.

#[export] Instance RuleName_eq_dec : EqDecision RuleName.
Proof. solve_decision. Defined.

Definition rule_text (r : RuleName) : string :=
  match r with PER_CLIENT => "perClient" | REGISTER_PER_CLIENT => "registerPerClient" | GLOBAL => "global" end.

Inductive RateDecision := RATE_OK | RATE_REFUSED (rule : RuleName) (retryAfterS : Z).

Module RateLimiter.

Record Window := { w_start : Z; w_count : Z }.
Definition windows := list (string * Window).

#[export] Instance Window_eq_dec : EqDecision Window.
Proof. solve_decision. Defined.

Section limiter.
Context (limits : RateLimits).

Definition rule_of (r : RuleName) : RateRule :=
  match r with PER_CLIENT => perClient limits | REGISTER_PER_CLIENT => registerPerClient limits | GLOBAL => global limits end.

Definition longest : Z :=
  Z.max (rr_windowMs (perClient limits)) (Z.max (rr_windowMs (registerPerClient limits)) (rr_windowMs (global limits))).

Definition sweep (t : Z) (ws : windows) : windows := List.filter (λ kw, negb (longest <=? t - w_start kw.2)) ws.

(** [Math.ceil(a / 1000)] *)
Definition ceil_s (a : Z) : Z := - ((- a) / 1000).

(** [None] when allowed, otherwise the seconds until this window ends. *)
Definition take (t : Z) (key : string) (rule : RateRule) (ws : windows) : windows * option Z :=
  let count (w : Window) (ws : windows) :=
    if rr_limit rule <=? w_count w then (ws, Some (Z.max 1 (ceil_s (w_start w + rr_windowMs rule - t))))
    else (map_set ws key {| w_start := w_start w; w_count := w_count w + 1 |}, None) in
  let renew (ws : windows) := let w := {| w_start := t; w_count := 0 |} in count w (map_set ws key w) in
  match map_get ws key with
  | Some w => if rr_windowMs rule <=? t - w_start w then renew ws else count w ws
  | None =>
      let ws := if MAX_TRACKED <=? Z.of_nat (length ws) then sweep t ws else ws in
      if MAX_TRACKED <=? Z.of_nat (length ws) then (ws, Some (ceil_s (rr_windowMs rule))) else renew ws
  end.

Definition rules (client : string) (register : bool) : list (RuleName * string) :=
  [(PER_CLIENT, "c:" +:+ client)] ++ (if register then [(REGISTER_PER_CLIENT, "r:" +:+ client)] else []) ++ [(GLOBAL, "g")].

(** The rules in turn; the first that refuses ends the loop. *)
Fixpoint take_all (t : Z) (rs : list (RuleName * string)) (ws : windows) : windows * RateDecision :=
  match rs with
  | [] => (ws, RATE_OK)
  | (rule, key) :: rs' =>
      match take t key (rule_of rule) ws with
      | (ws', Some refused) => (ws', RATE_REFUSED rule refused)
      | (ws', None) => take_all t rs' ws'
      end
  end.

Definition check (t : Z) (client : string) (register : bool) (ws : windows) : windows * RateDecision :=
  take_all t (rules client register) ws.

End limiter.
End RateLimiter.

(** ** The client's address *)

(** [/^[0-9A-Fa-f:.]{2,45}$/] *)
Definition address_ok (s : string) : bool :=
  let cs := String.list_ascii_of_string s in
  (2 <=? length cs)%nat && (length cs <=? 45)%nat &&
  forallb (λ c, match hex_value c with Some _ => true | None => false end || (c === ":"%char) || (c === "."%char)) cs.

(** The last entry of X-Forwarded-For, which Node gives as one comma-separated text. *)
Definition clientAddress (forwarded remoteAddress : option string) : string :=
  match truthy ((λ value, js_trim (List.last (split "," value) EmptyString)) <$> forwarded) with
  | Some last => if address_ok last then last else default "unknown" remoteAddress
  | None => default "unknown" remoteAddress
  end.

(** ** The requests the limiter lets through *)

Import RateLimiter.

Record Request := { rq_at : Z; rq_client : string; rq_register : bool }.

Section bound.
Context (limits : RateLimits).

Implicit Types (ws : windows) (t : Z).

(** The limiter over a sequence of requests, and its decisions. *)
Fixpoint run_checks (reqs : list Request) ws : windows * list (Request * RateDecision) :=
  match reqs with
  | [] => (ws, [])
  | r :: reqs' =>
      let '(ws1, d) := check limits (rq_at r) (rq_client r) (rq_register r) ws in
      let '(ws2, ds) := run_checks reqs' ws1 in (ws2, (r, d) :: ds)
  end.

Definition passed (sel : Request → bool) (ds : list (Request * RateDecision)) : Z :=
  Z.of_nat (length (List.filter (λ rd, sel rd.1 && match rd.2 with RATE_OK => true | _ => false end) ds)).

(** *** The table's invariant: bounded, one window per address, no negative count *)
Definition table_ok ws : Prop :=
  Z.of_nat (length ws) ≤ MAX_TRACKED ∧ NoDup (map_keys ws) ∧ Forall (λ kw, 0 ≤ w_count kw.2) ws.

Lemma sweep_ok t ws : table_ok ws → table_ok (sweep limits t ws).
Proof.
  intros (Hl & Hn & Hc). split_and!; [|by apply filter_map_NoDup|].
  - pose proof (filter_length_le (λ kw : string * Window, negb (longest limits <=? t - w_start kw.2)) ws). unfold sweep. lia.
  - apply Forall_forall. intros kw [Hk _]%elem_of_filter_bool. by eapply Forall_forall in Hc.
Qed.

Lemma set_ok ws key w : table_ok ws → 0 ≤ w_count w →
  is_Some (map_get ws key) ∨ Z.of_nat (length ws) < MAX_TRACKED → table_ok (map_set ws key w).
Proof.
  intros (Hl & Hn & Hc) Hw Hk. split_and!; [|by apply map_set_NoDup|by apply map_set_Forall].
  rewrite map_set_length. unfold map_has. destruct (map_get ws key); [done|]. destruct Hk as [[? ?]|?]; [done|lia].
Qed.

Lemma set_again ws key (v w : Window) : map_set (map_set ws key v) key w = map_set ws key w.
Proof.
  induction ws as [|[k x] ws IH]; cbn; [by rewrite bool_decide_true|].
  case_bool_decide; cbn; [by rewrite bool_decide_true|]. rewrite bool_decide_false by done. by rewrite IH.
Qed.

(** The count of a window just opened, and the answer. *)
Inductive renewed (rule : RateRule) : Z → option Z → Prop :=
  | renewed_counted : 0 < rr_limit rule → renewed rule 1 None
  | renewed_refused s : renewed rule 0 (Some s).

(** What [take] does to the table: it is refused and at most a sweep or an empty window is
    left, or the window of its key counts one more. *)
Inductive taken (t : Z) (key : string) (rule : RateRule) (ws : windows) : windows → option Z → Prop :=
  | taken_full : MAX_TRACKED ≤ Z.of_nat (length ws) → map_get ws key = None → ∀ s, taken t key rule ws (sweep limits t ws) (Some s)
  | taken_over w : map_get ws key = Some w → t - w_start w < rr_windowMs rule → ∀ s, taken t key rule ws ws (Some s)
  | taken_counted w : map_get ws key = Some w → t - w_start w < rr_windowMs rule → w_count w < rr_limit rule →
      taken t key rule ws (map_set ws key {| w_start := w_start w; w_count := w_count w + 1 |}) None
  | taken_renewed w ws' n o : map_get ws key = Some w → rr_windowMs rule ≤ t - w_start w → ws' = ws →
      renewed rule n o → taken t key rule ws (map_set ws' key {| w_start := t; w_count := n |}) o
  | taken_new ws' n o : map_get ws key = None → ws' = ws ∨ ws' = sweep limits t ws → Z.of_nat (length ws') < MAX_TRACKED →
      renewed rule n o → taken t key rule ws (map_set ws' key {| w_start := t; w_count := n |}) o.

Lemma take_taken t key rule ws : taken t key rule ws (take limits t key rule ws).1 (take limits t key rule ws).2.
Proof.
  unfold take. destruct (map_get ws key) as [w|] eqn:Ew.
  - destruct (Z.leb_spec (rr_windowMs rule) (t - w_start w)) as [Hx|Hx]; cbn [w_count w_start].
    + destruct (Z.leb_spec (rr_limit rule) 0); cbn [fst snd]; [|rewrite set_again];
        (eapply taken_renewed; [done|done|done|by constructor]).
    + destruct (Z.leb_spec (rr_limit rule) (w_count w)); cbn [fst snd]; [by eapply taken_over|by apply taken_counted].
  - destruct (Z.leb_spec MAX_TRACKED (Z.of_nat (length ws))) as [Hx|Hx].
    + destruct (Z.leb_spec MAX_TRACKED (Z.of_nat (length (sweep limits t ws)))); cbn [w_count w_start fst snd]; [by apply taken_full|].
      destruct (Z.leb_spec (rr_limit rule) 0); cbn [fst snd]; [|rewrite set_again];
        (eapply taken_new; [done|by right|done|by constructor]).
    + destruct (Z.leb_spec MAX_TRACKED (Z.of_nat (length ws))); [lia|]. cbn [w_count w_start fst snd].
      destruct (Z.leb_spec (rr_limit rule) 0); cbn [fst snd]; [|rewrite set_again];
        (eapply taken_new; [done|by left|done|by constructor]).
Qed.

Lemma taken_ok t key rule ws ws' o : taken t key rule ws ws' o → table_ok ws → table_ok ws'.
Proof.
  intros H Hok. assert (∀ n o', renewed rule n o' → 0 ≤ n) as Hr by (intros n o' []; lia).
  destruct H as [| |w Hw|w ws' n o' Hw _ ->|ws' n o' Hk Hs Hl]; [by apply sweep_ok|done| | |].
  - apply set_ok; [done| |by left]. destruct Hok as (_ & _ & Hc). apply map_get_elem in Hw.
    rewrite Forall_forall in Hc. specialize (Hc _ Hw). simpl in *. lia.
  - apply set_ok; [done|cbn; eauto|by left].
  - apply set_ok; [destruct Hs as [->| ->]; [done|by apply sweep_ok]|cbn; eauto|by right].
Qed.

(** *** A budget for one key over a span shorter than its window *)
Context (T : Z) (rule : RuleName) (key : string).
Definition L : Z := Z.max 0 (rr_limit (rule_of limits rule)).
Definition W : Z := rr_windowMs (rule_of limits rule).

(** How many requests the key may still pass before [T + W]. *)
Definition budget ws : Z :=
  match map_get ws key with
  | None => L
  | Some w => Z.max 0 (L - w_count w) + (if T <=? w_start w then 0 else L)
  end.

Lemma budget_nonneg ws : 0 ≤ budget ws.
Proof. unfold budget, L. destruct (map_get _ _); [|lia]. destruct (_ <=? _); lia. Qed.

Lemma sweep_budget t ws : t < T + W → NoDup (map_keys ws) → budget (sweep limits t ws) ≤ budget ws.
Proof.
  intros Ht Hn. unfold budget. assert (HW : W ≤ longest limits) by (unfold W, longest, rule_of; destruct rule; lia).
  destruct (map_get (sweep limits t ws) key) as [w|] eqn:E.
  - apply map_get_elem, elem_of_filter_bool in E as [E _]. by rewrite (map_elem_get _ _ _ Hn E).
  - destruct (map_get ws key) as [w|] eqn:Ew; [|lia]. destruct (Z.leb_spec T (w_start w)) as [Hw|Hw]; [|unfold L in *; lia].
    apply map_get_not_elem in E. destruct E. apply map_get_elem in Ew. apply list_elem_of_fmap. exists (key, w). split; [done|].
    apply elem_of_filter_bool. split; [done|]. simpl. lia.
Qed.

(** A take never enlarges the budget, and one it allows on the key itself costs one. *)
Lemma taken_budget t k r ws ws' o :
  taken t k (rule_of limits r) ws ws' o → T ≤ t < T + W → NoDup (map_keys ws) → (k = key → r = rule) →
  budget ws' + (if bool_decide (k = key) && (o === None) then 1 else 0) ≤ budget ws.
Proof.
  intros H Ht Hn Hk. pose proof (sweep_budget t ws ltac:(lia) Hn) as Hs.
  assert (Hset : ∀ ws0 w, k ≠ key → budget (map_set ws0 k w) = budget ws0)
    by (intros ws0 w Hne; unfold budget; by rewrite map_get_set_ne).
  destruct (decide (k = key)) as [Hkk|Hne].
  - rewrite (bool_decide_true (k = key)) by done. specialize (Hk Hkk). subst k r. cbn [andb].
    destruct H as [_ Hg s|w Hg Hx s|w Hg Hx Hc|w ws' n o Hg Hx -> Hr|ws' n o Hg Hw _ Hr].
    + rewrite bool_decide_false by done. lia.
    + rewrite bool_decide_false by done. lia.
    + rewrite bool_decide_true by done. unfold budget. rewrite map_get_set_eq, Hg. cbn [w_count w_start].
      destruct (_ <=? _); unfold L in *; lia.
    + unfold budget. rewrite map_get_set_eq, Hg. cbn [w_count w_start]. change (W ≤ t - w_start w) in Hx.
      destruct (Z.leb_spec T t); [|lia]. destruct (Z.leb_spec T (w_start w)); [lia|].
      destruct Hr; [rewrite bool_decide_true by done|rewrite bool_decide_false by done]; unfold L in *; lia.
    + unfold budget. rewrite map_get_set_eq, Hg. cbn [w_count w_start].
      destruct (Z.leb_spec T t); [|lia].
      destruct Hr; [rewrite bool_decide_true by done|rewrite bool_decide_false by done]; unfold L in *; lia.
  - rewrite (bool_decide_false (k = key)) by done. cbn [andb].
    destruct H as [| | |w ws' n o Hg _ -> _|ws' n o _ [->| ->] _ _]; rewrite ?Hset by done; lia.
Qed.

(** The rules of one request spend the budget in turn; a request that was let through spent it. *)
Lemma take_all_budget t rs : ∀ ws, (∀ r, (r, key) ∈ rs → r = rule) → T ≤ t < T + W → table_ok ws →
  let '(ws', d) := take_all limits t rs ws in
  table_ok ws' ∧ budget ws' + (if bool_decide ((rule, key) ∈ rs) && (match d with RATE_OK => true | _ => false end) then 1 else 0) ≤ budget ws.
Proof.
  induction rs as [|[r k] rs IH]; intros ws Hk Ht Hok; cbn [take_all].
  - rewrite bool_decide_false by (by intros ?%elem_of_nil). split; [done|]. cbn. lia.
  - pose proof (take_taken t k (rule_of limits r) ws) as Htk. destruct (take limits t k (rule_of limits r) ws) as [ws1 o]. cbn [fst snd] in Htk.
    pose proof (taken_ok _ _ _ _ _ _ Htk Hok) as Hok1.
    pose proof (taken_budget _ _ _ _ _ _ Htk Ht (proj1 (proj2 Hok)) ltac:(intros ->; apply Hk; by left)) as Hb.
    destruct o as [s|].
    { split; [done|]. rewrite andb_false_r. destruct (bool_decide (k = key)); cbn in Hb; lia. }
    specialize (IH ws1 ltac:(intros r' Hr'; apply Hk; by right) Ht Hok1).
    destruct (take_all limits t rs ws1) as [ws2 d]. destruct IH as [Hok2 Hb2]. split; [done|].
    pose proof (budget_nonneg ws2).
    destruct (decide ((rule, key) ∈ (r, k) :: rs)) as [[[= <- <-]|Hin]%elem_of_cons|Hout].
    + rewrite (bool_decide_true (key = key)) in Hb by done. cbn in Hb.
      destruct (bool_decide _), d, (bool_decide _); cbn in *; lia.
    + rewrite (bool_decide_true _ Hin) in Hb2. rewrite bool_decide_true by (by right). destruct (bool_decide (k = key)); cbn in *; lia.
    + rewrite (bool_decide_false _ Hout). destruct (bool_decide (k = key)), (bool_decide _), d; cbn in *; lia.
Qed.

Lemma check_budget req ws :
  (∀ r, (r, key) ∈ rules (rq_client req) (rq_register req) → r = rule) → T ≤ rq_at req < T + W → table_ok ws →
  let '(ws', d) := check limits (rq_at req) (rq_client req) (rq_register req) ws in
  table_ok ws' ∧ budget ws' + (if bool_decide ((rule, key) ∈ rules (rq_client req) (rq_register req)) &&
                                  (match d with RATE_OK => true | _ => false end) then 1 else 0) ≤ budget ws.
Proof. apply take_all_budget. Qed.

Lemma span_budget sel reqs : ∀ ws,
  (∀ req r, (r, key) ∈ rules (rq_client req) (rq_register req) → r = rule) →
  (∀ req, sel req = true → (rule, key) ∈ rules (rq_client req) (rq_register req)) →
  Forall (λ req, T ≤ rq_at req < T + W) reqs → table_ok ws →
  let '(ws', ds) := run_checks reqs ws in passed sel ds ≤ budget ws.
Proof.
  induction reqs as [|req reqs IH]; intros ws Hk Hsel HT Hok; cbn [run_checks]; [apply budget_nonneg|].
  apply Forall_cons in HT as [HT1 HT]. pose proof (check_budget req ws (Hk req) HT1 Hok) as Hc.
  destruct (check _ _ _ _ ws) as [ws1 d]. destruct Hc as [Hok1 Hc].
  specialize (IH ws1 Hk Hsel HT Hok1). destruct (run_checks reqs ws1) as [ws2 ds]. unfold passed in *. cbn [List.filter fst snd].
  destruct (sel req) eqn:Hs; cbn [andb].
  - rewrite (bool_decide_true _ (Hsel _ Hs)) in Hc. cbn [andb] in Hc. destruct d; cbn [length]; lia.
  - destruct (bool_decide _ && _); lia.
Qed.
End bound.

Section theorems.
Context (limits : RateLimits).

Lemma run_checks_ok reqs : ∀ ws, table_ok ws → table_ok (run_checks limits reqs ws).1.
Proof.
  assert (Htake : ∀ t rs ws, table_ok ws → table_ok (take_all limits t rs ws).1).
  { intros t rs. induction rs as [|[r k] rs IH]; intros ws Hok; [done|]. cbn [take_all].
    pose proof (take_taken limits t k (rule_of limits r) ws) as Htk. destruct (take _ _ _ _ ws) as [ws1 [s|]]; cbn [fst snd] in *;
      apply taken_ok in Htk; auto. }
  induction reqs as [|r reqs IH]; intros ws Hok; [done|]. cbn [run_checks].
  pose proof (Htake (rq_at r) (rules (rq_client r) (rq_register r)) ws Hok) as H1. unfold check.
  destruct (take_all _ _ _ ws) as [ws1 d]. specialize (IH ws1 H1). by destruct (run_checks limits reqs ws1) as [ws2 ds].
Qed.

(** The span's requests, whatever came before it. *)
Definition decisions (history span : list Request) : list (Request * RateDecision) :=
  (run_checks limits span (run_checks limits history []).1).2.

Definition within_span (T : Z) (rule : RuleName) (span : list Request) : Prop :=
  Forall (λ req, T ≤ rq_at req < T + rr_windowMs (rule_of limits rule)) span.

Definition from_client (c : string) (req : Request) : bool := rq_client req === c.

(** At most twice a rule's limit, for a key that belongs to the rule alone. *)
Lemma passed_bound T rule key sel history span :
  (∀ req r, (r, key) ∈ rules (rq_client req) (rq_register req) → r = rule) →
  (∀ req, sel req = true → (rule, key) ∈ rules (rq_client req) (rq_register req)) →
  within_span T rule span → passed sel (decisions history span) ≤ 2 * Z.max 0 (rr_limit (rule_of limits rule)).
Proof.
  intros Hk Hsel HT. assert (Hok : table_ok (run_checks limits history []).1).
  { apply run_checks_ok. split_and!; [unfold MAX_TRACKED; simpl; lia|constructor|constructor]. }
  pose proof (span_budget limits T rule key sel span _ Hk Hsel HT Hok) as H. unfold decisions.
  destruct (run_checks limits span _) as [ws ds]. cbn [snd]. etrans; [exact H|].
  unfold budget, L. destruct (map_get _ key) as [w|] eqn:E; [|lia].
  apply map_get_elem in E. destruct Hok as (_ & _ & Hc). rewrite Forall_forall in Hc. specialize (Hc _ E). simpl in Hc.
  destruct (T <=? w_start w); lia.
Qed.

Lemma rules_keys c b r k : (r, k) ∈ rules c b →
  (r, k) = (PER_CLIENT, "c:" +:+ c) ∨ (r, k) = (REGISTER_PER_CLIENT, "r:" +:+ c) ∨ (r, k) = (GLOBAL, "g").
Proof. unfold rules. destruct b; cbn [app]; rewrite !elem_of_cons, elem_of_nil; tauto. Qed.

(** C22: What a flood can do. After any history, over any requests all inside a span shorter than
    the rule's window, and however the addresses interleave: one address passes at most twice
    the per-client limit, at most twice the registration limit of registrations, and everyone
    together at most twice the global limit. The table of addresses stays within
    [MAX_TRACKED] and counts no address twice. *)
Theorem rate_limit_bound history span T :
  table_ok (run_checks limits (history ++ span) []).1 ∧
  (within_span T GLOBAL span → passed (λ _, true) (decisions history span) ≤ 2 * Z.max 0 (rr_limit (global limits))) ∧
  (∀ c, within_span T PER_CLIENT span →
     passed (from_client c) (decisions history span) ≤ 2 * Z.max 0 (rr_limit (perClient limits))) ∧
  (∀ c, within_span T REGISTER_PER_CLIENT span →
     passed (λ req, from_client c req && rq_register req) (decisions history span) ≤ 2 * Z.max 0 (rr_limit (registerPerClient limits))).
Proof.
  split_and!.
  - apply run_checks_ok. split_and!; [unfold MAX_TRACKED; simpl; lia|constructor|constructor].
  - apply (passed_bound T GLOBAL "g").
    + intros req r [[= -> ?]|[[= -> ?]|[= ->]]]%rules_keys; done.
    + intros req _. unfold rules. destruct (rq_register req); repeat (left || right).
  - intros c. apply (passed_bound T PER_CLIENT ("c:" +:+ c)).
    + intros req r [[= ->]|[[= -> ?]|[= ->]]]%rules_keys; done.
    + intros req Hc. unfold from_client in Hc. to_prop. subst c. unfold rules. left.
  - intros c. apply (passed_bound T REGISTER_PER_CLIENT ("r:" +:+ c)).
    + intros req r [[= -> ?]|[[= -> ?]|[= ->]]]%rules_keys; done.
    + intros req [Hc Hr]%andb_true_iff. unfold from_client in Hc. to_prop. subst c. unfold rules. rewrite Hr. right. left.
Qed.
End theorems.

(** Two windows meet inside the span: 60 requests of one address pass in 60 seconds. *)
Definition sample_check (t : Z) : Request := {| rq_at := t; rq_client := "203.0.113.7"; rq_register := false |}.
Definition sample_history : list Request := map sample_check [30000].
Definition sample_span : list Request := map sample_check (repeat 80000 40 ++ repeat 90001 40).

Lemma rate_limit_bound_witness :
  passed (from_client "203.0.113.7") (decisions DEFAULT_RATE_LIMITS sample_history sample_span) = 59 ∧
  passed (from_client "203.0.113.7") (decisions DEFAULT_RATE_LIMITS sample_history sample_span) ≤ 60.
Proof.
  split; [vm_compute; reflexivity|].
  destruct (rate_limit_bound DEFAULT_RATE_LIMITS sample_history sample_span 80000) as (_ & _ & H & _).
  apply (H "203.0.113.7"). unfold within_span. cbn [rule_of perClient DEFAULT_RATE_LIMITS rr_windowMs].
  apply Forall_forall. intros r (t & <- & Ht)%list_elem_of_In%in_map_iff. cbn [rq_at sample_check].
  apply list_elem_of_In, elem_of_app in Ht as [Ht%list_elem_of_In%repeat_spec|Ht%list_elem_of_In%repeat_spec]; lia.
Defined.
