(* ===== verification/OAuthServer.v ===== *)
(** * The operator door's authorisation server (apps/mcp/src/oauth/server.ts)

    Its state is four bounded tables, two revocation tables and the rate limiter's windows;
    each endpoint is a function from the state, the clock and the request to the state and the
    response.  A handler runs without interruption between its [await]s: the body of a request
    is read before anything is looked up, and [googleCallback], which waits for Google between
    taking the login and storing the consent, is two steps ([googleCallback], [resume]).
    [new URL] and Google are parameters; the n-th [randomToken] is a function of n. *)

From S2P Require Import Prelude JsNumber JsDate Digest Contracts Plan Capability Json Mission Codec OAuthTokens RateLimit.
Local Open Scope Z_scope.
Local Open Scope js_scope.

Definition SCOPE : string := OPERATOR_SCOPE.
Definition ACCESS_TTL_S : Z := 3600.
Definition REFRESH_TTL_S : Z := 30 * 24 * 3600.
Definition CODE_TTL_MS : Z := 5 * 60000.
Definition LOGIN_TTL_MS : Z := 10 * 60000.
Definition MAX_PENDING : Z := 1000.
Definition MAX_FORM_BYTES : Z := 8192.

Record OAuthConfig := {
  oc_publicUrl : string; oc_allowedGoogleSub : string; oc_allowedRedirectUris : list string; oc_registrationOpen : bool;
  oc_registrationUntil : option Z; oc_registrationProfiles : option (list ClientProfileName);
  oc_signer : list Z; oc_rateLimits : option RateLimits
}.

Record PendingLogin := {
  pl_client : ClientClaims; pl_clientId : string; pl_redirectUri : string; pl_state : option string;
  pl_codeChallenge : string; pl_scope : string; pl_nonce : string; pl_googleVerifier : string; pl_expiresAt : Z
}.

Record PendingConsent := { pc_login : PendingLogin; pc_sub : string; pc_expiresAt : Z }.

Record IssuedCode := {
  ic_clientId : string; ic_redirectUri : string; ic_codeChallenge : string; ic_scope : string; ic_sub : string;
  ic_expiresAt : Z
}.

(** ** Requests and responses *)

Record HttpRequest := {
  hr_method : string; hr_path : string; hr_query : list (string * string); hr_header : string → option string;
  hr_body : list Z; hr_remote : option string
}.

Record Response := { rs_status : Z; rs_headers : list (string * string); rs_body : string }.

(** [OAuthError], or any other exception. *)
Inductive failure := OAuthError (status : Z) (code description : string) | OtherError.

(** A double quote is written as a backquote in the texts below. *)
Fixpoint quoted (s : string) : string :=
  match s with
  | EmptyString => EmptyString
  | String c s' => String (if c === "`"%char then dquote else c) (quoted s')
  end.

Definition escape_char (c : ascii) : string :=
  if bool_decide (c ∈ ["&"%char; "<"%char; ">"%char; dquote; "'"%char]) then "&#" +:+ pretty (Z.of_N (N_of_ascii c)) +:+ ";"
  else String c EmptyString.

Fixpoint escapeHtml (s : string) : string :=
  match s with EmptyString => EmptyString | String c s' => escape_char c +:+ escapeHtml s' end.

Definition STYLE : string :=
  "<style>body{font:16px/1.5 system-ui,sans-serif;max-width:34rem;margin:3rem auto;padding:0 1rem;color:#1a1a1a}button{font:inherit;padding:.5rem 1.2rem;margin-right:.5rem}code{background:#eee;padding:0 .2rem}</style>".

Definition page (status : Z) (title body : string) (redirectOrigin : option string) : Response :=
  let formAction := match truthy redirectOrigin with Some o => "'self' " +:+ o | None => "'self'" end in
  {| rs_status := status;
     rs_headers :=
       [("content-type", "text/html; charset=utf-8");
        ("content-security-policy",
         "default-src 'none'; style-src 'unsafe-inline'; form-action " +:+ formAction +:+ "; frame-ancestors 'none'; base-uri 'none'");
        ("x-frame-options", "DENY"); ("referrer-policy", "same-origin")];
     rs_body :=
       quoted "<!doctype html><html lang=`en-GB`><head><meta charset=`utf-8`><meta name=`viewport` content=`width=device-width,initial-scale=1`><title>"
       +:+ escapeHtml title +:+ "</title>" +:+ STYLE +:+ "</head><body><h1>" +:+ escapeHtml title +:+ "</h1>" +:+ body +:+ "</body></html>" |}.

Definition json_response (status : Z) (value : json) : Response :=
  {| rs_status := status;
     rs_headers := [("content-type", "application/json"); ("cache-control", "no-store"); ("pragma", "no-cache")];
     rs_body := stringify value |}.

Definition with_header (h : string * string) (r : Response) : Response :=
  {| rs_status := rs_status r; rs_headers := h :: rs_headers r; rs_body := rs_body r |}.

Definition error_json (error description : string) : json :=
  JObj [("error", JStr error); ("error_description", JStr description)].

(** ** [OneShot]: a bounded single-use store *)
Module OneShot.
Section store.
Context {T : Type} (expiresAt : T → Z).

Definition store := list (string * T).

Definition put (now : Z) (key : string) (value : T) (items : store) : store * bool :=
  let live := List.filter (λ kv, negb (expiresAt kv.2 <=? now)) items in
  if MAX_PENDING <=? Z.of_nat (length live) then (live, false) else (map_set live key value, true).

Definition take (now : Z) (key : option string) (items : store) : store * option T :=
  match truthy key with
  | None => (items, None)
  | Some key =>
      (map_delete items key,
       match map_get items key with Some v => if now <? expiresAt v then Some v else None | None => None end)
  end.
End store.
End OneShot.

(** ** The server's state *)

Record OAuthState := {
  os_logins : list (string * PendingLogin); os_consents : list (string * PendingConsent);
  os_codes : list (string * IssuedCode); os_usedRefresh : list (string * Z); os_revokedFamilies : list (string * Z);
  os_windows : RateLimiter.windows; os_draws : nat; os_log : list json
}.

Definition empty_state : OAuthState :=
  {| os_logins := []; os_consents := []; os_codes := []; os_usedRefresh := []; os_revokedFamilies := [];
     os_windows := []; os_draws := 0; os_log := [] |}.

Definition set_logins x (s : OAuthState) : OAuthState :=
  {| os_logins := x; os_consents := os_consents s; os_codes := os_codes s; os_usedRefresh := os_usedRefresh s;
     os_revokedFamilies := os_revokedFamilies s; os_windows := os_windows s; os_draws := os_draws s; os_log := os_log s |}.
Definition set_consents x (s : OAuthState) : OAuthState :=
  {| os_logins := os_logins s; os_consents := x; os_codes := os_codes s; os_usedRefresh := os_usedRefresh s;
     os_revokedFamilies := os_revokedFamilies s; os_windows := os_windows s; os_draws := os_draws s; os_log := os_log s |}.
Definition set_codes x (s : OAuthState) : OAuthState :=
  {| os_logins := os_logins s; os_consents := os_consents s; os_codes := x; os_usedRefresh := os_usedRefresh s;
     os_revokedFamilies := os_revokedFamilies s; os_windows := os_windows s; os_draws := os_draws s; os_log := os_log s |}.
Definition set_revocation used revoked (s : OAuthState) : OAuthState :=
  {| os_logins := os_logins s; os_consents := os_consents s; os_codes := os_codes s; os_usedRefresh := used;
     os_revokedFamilies := revoked; os_windows := os_windows s; os_draws := os_draws s; os_log := os_log s |}.
Definition set_windows x (s : OAuthState) : OAuthState :=
  {| os_logins := os_logins s; os_consents := os_consents s; os_codes := os_codes s; os_usedRefresh := os_usedRefresh s;
     os_revokedFamilies := os_revokedFamilies s; os_windows := x; os_draws := os_draws s; os_log := os_log s |}.
Definition drawn (s : OAuthState) : OAuthState :=
  {| os_logins := os_logins s; os_consents := os_consents s; os_codes := os_codes s; os_usedRefresh := os_usedRefresh s;
     os_revokedFamilies := os_revokedFamilies s; os_windows := os_windows s; os_draws := S (os_draws s); os_log := os_log s |}.
Definition logged e (s : OAuthState) : OAuthState :=
  {| os_logins := os_logins s; os_consents := os_consents s; os_codes := os_codes s; os_usedRefresh := os_usedRefresh s;
     os_revokedFamilies := os_revokedFamilies s; os_windows := os_windows s; os_draws := os_draws s; os_log := os_log s ++ [e] |}.

(** A handler: what it changed stays when it throws. *)
Definition handler (A : Type) : Type := OAuthState → OAuthState * (failure + A).

#[export] Instance handler_ret : MRet handler := λ A a s, (s, inr a).
#[export] Instance handler_bind : MBind handler := λ A B f m s,
  match m s with (s', inr a) => f a s' | (s', inl e) => (s', inl e) end.

Definition refuse {A} (status : Z) (code description : string) : handler A := λ s, (s, inl (OAuthError status code description)).
Definition crash {A} : handler A := λ s, (s, inl OtherError).
Definition refuse_when (c : bool) (status : Z) (code description : string) : handler unit :=
  if c then refuse status code description else mret tt.
Definition gets {A} (f : OAuthState → A) : handler A := λ s, (s, inr (f s)).
Definition update (f : OAuthState → OAuthState) : handler unit := λ s, (f s, inr tt).
Definition some_or_crash {A} (o : option A) : handler A := match o with Some a => mret a | None => crash end.

(** [headers["content-type"]?.split(";")[0]?.trim()] *)
Definition content_type (req : HttpRequest) : option string :=
  (λ v, js_trim (List.hd EmptyString (split ";" v))) <$> hr_header req "content-type".

Definition readBody (req : HttpRequest) : handler string :=
  refuse_when (MAX_FORM_BYTES <? Z.of_nat (length (hr_body req))) 413 "invalid_request" "Request too large";;
  mret (utf8_text (hr_body req)).

(** The first key that occurs more than once. *)
Fixpoint repeated_key (keys : list string) : option string :=
  match keys with
  | [] => None
  | k :: rest => if bool_decide (k ∈ rest) then Some k else repeated_key rest
  end.

Definition readForm (req : HttpRequest) : handler (list (string * string)) :=
  refuse_when (content_type req !== Some "application/x-www-form-urlencoded") 400 "invalid_request" "Form encoding required";;
  body ← readBody req;
  let form := form_pairs body in
  match repeated_key (map_keys form) with
  | Some key => refuse 400 "invalid_request" ("Repeated parameter: " +:+ key)
  | None => mret form
  end.

(** [/^[A-Za-z0-9_-]{43}$/] and [/^[A-Za-z0-9._~-]{43,128}$/] *)
Definition challenge_ok (s : string) : bool := (String.length s =? 43)%nat && chars_ok ["_"; "-"]%char s.
Definition verifier_ok (s : string) : bool :=
  (43 <=? String.length s)%nat && (String.length s <=? 128)%nat && chars_ok ["."; "_"; "~"; "-"]%char s.

(** ** [RegistrationRequest] *)

Record RegistrationRequest := {
  rg_redirect_uris : list string; rg_client_name : option string; rg_auth : ClientAuth;
  rg_grant_types : option (list string); rg_response_types : option (list string)
}.

Definition string_list (v : json) : result (list string) :=
  match v with JArr l => map_all any_string l | _ => Throw (zod_error "invalid_type") end.

Definition RegistrationRequest_parse (v : json) : result RegistrationRequest :=
  fs ← z_object v;
  uris ← z_field fs "redirect_uris" (z_array 1 5 (z_text 0 500));
  name ← z_optional fs "client_name" (z_trimmed 0 100);
  auth ← z_optional fs "token_endpoint_auth_method" (z_enum auth_names);
  grants ← z_optional fs "grant_types" string_list;
  types ← z_optional fs "response_types" string_list;
  Ok {| rg_redirect_uris := uris; rg_client_name := name; rg_auth := default AUTH_NONE auth;
        rg_grant_types := grants; rg_response_types := types |}.

(** ** [createOAuthServer] *)

(** [/\/+$/] removed. *)
Definition strip_slashes (s : string) : string :=
  String.string_of_list_ascii (rev ((fix go cs := match cs with "/"%char :: cs' => go cs' | _ => cs end)
    (rev (String.list_ascii_of_string s)))).

(** The refusals of the constructor, given [new URL(publicUrl).origin]. *)
Definition createOAuthServer (config : OAuthConfig) (origin : string) : result OAuthState :=
  ensure (origin === strip_slashes (oc_publicUrl config)) (js_error "MCP_PUBLIC_URL must be an origin with no path");;
  ensure (subject_ok (oc_allowedGoogleSub config)) (js_error "MCP_ALLOWED_GOOGLE_SUB must be a Google subject id (digits)");;
  Ok empty_state.

Section server.
Context (config : OAuthConfig) (origin : string).
(** The n-th [randomToken(bytes)]; [url.searchParams.set] for each pair; [new URL(u).origin];
    [google.authorizeUrl]. *)
Context (randomToken : nat → Z → string) (url_with : string → list (string * string) → option string)
  (url_origin : string → option string) (authorizeUrl : string → string → string → string).

Definition issuer : string := origin.
Definition resource : string := origin +:+ "/mcp".
Definition seconds (now : Z) : Z := now / 1000.
Definition redirectAllowList : list string := oc_allowedRedirectUris config.
Definition signer : list Z := oc_signer config.

Definition draw (bytes : Z) : handler string := λ s, (drawn s, inr (randomToken (os_draws s) bytes)).
Definition audit (event : string) (detail : list (string * json)) : handler unit :=
  update (logged (JObj (("oauth", JStr event) :: detail))).

Definition strings (l : list string) : json := JArr (map JStr l).

Definition resourceMetadata : json :=
  JObj [("resource", JStr resource); ("authorization_servers", strings [issuer]); ("bearer_methods_supported", strings ["header"]);
        ("scopes_supported", strings [OPERATOR_SCOPE; READ_SCOPE]); ("resource_name", JStr "KernelJSON operator")].

Definition serverMetadata : json :=
  JObj [("issuer", JStr issuer); ("authorization_endpoint", JStr (origin +:+ "/oauth/authorize"));
        ("token_endpoint", JStr (origin +:+ "/oauth/token")); ("registration_endpoint", JStr (origin +:+ "/oauth/register"));
        ("scopes_supported", strings [OPERATOR_SCOPE; READ_SCOPE]); ("response_types_supported", strings ["code"]);
        ("response_modes_supported", strings ["query"]);
        ("grant_types_supported", strings ["authorization_code"; "refresh_token"]);
        ("token_endpoint_auth_methods_supported", strings ["none"; "client_secret_post"; "client_secret_basic"]);
        ("code_challenge_methods_supported", strings ["S256"]);
        ("authorization_response_iss_parameter_supported", JBool true)].

Definition clientFrom (clientId : option string) : option ClientClaims :=
  match truthy clientId with
  | Some id => TokenSigner.verify signer (Some id) ClientClaims_parse "client"
  | None => None
  end.

Definition expired (t : Z) (kv : string * Z) : bool := kv.2 <=? t.

Definition pruneRefresh (now : Z) (s : OAuthState) : OAuthState :=
  let t := seconds now in
  set_revocation (List.filter (λ kv, negb (expired t kv)) (os_usedRefresh s))
                 (List.filter (λ kv, negb (expired t kv)) (os_revokedFamilies s)) s.

Definition claims_of (sub clientId fam scope : string) (iat exp : Z) (jti : string) : AccessClaims :=
  {| ac_iss := issuer; ac_aud := resource; ac_sub := sub; ac_cid := clientId; ac_fam := fam; ac_scope := scope;
     ac_iat := iat; ac_exp := exp; ac_jti := jti |}.

(** The token response for given token identifiers. *)
Definition token_pair (now : Z) (sub clientId scope fam jti jti' : string) : json :=
  let iat := seconds now in
  JObj [("access_token", JStr (TokenSigner.sign signer "access"
           (claims_json "access" (claims_of sub clientId fam scope iat (iat + ACCESS_TTL_S) jti))));
        ("token_type", JStr "Bearer"); ("expires_in", JNum ACCESS_TTL_S);
        ("refresh_token", JStr (TokenSigner.sign signer "refresh"
           (claims_json "refresh" (claims_of sub clientId fam scope iat (iat + REFRESH_TTL_S) jti'))));
        ("scope", JStr scope)].

Definition issueTokens (now : Z) (sub clientId scope : string) (family : option string) : handler json :=
  fam ← (match family with Some f => mret f | None => draw 12 end);
  jti ← draw 12;
  jti' ← draw 12;
  mret (token_pair now sub clientId scope fam jti jti').

Definition profileOf (client : ClientClaims) : option ClientProfile :=
  if existsb (includes redirectAllowList) (cl_redirect_uris client) then profileFor (cl_redirect_uris client) else None.

(** The bearer without its scheme. *)
Definition bearer (authorization : option string) : option string :=
  match authorization with Some v => strip_text "Bearer " v | None => None end.

Definition verifyAccess (now : Z) (authorization : option string) : OAuthState → OAuthState * option (AccessClaims * ClientProfile * string) :=
  λ s,
  match bearer authorization with
  | None => (s, None)
  | Some token =>
      match TokenSigner.verify signer (Some token) AccessClaims_parse "access" with
      | None => (s, None)
      | Some claims =>
          if (ac_iss claims !== issuer) || (ac_aud claims !== resource) || (ac_exp claims <=? seconds now) then (s, None)
          else if ac_sub claims !== oc_allowedGoogleSub config then (s, None)
          else
            let s := pruneRefresh now s in
            if map_has (os_revokedFamilies s) (ac_fam claims) then (s, None)
            else
              (s, client ← clientFrom (Some (ac_cid claims)); profile ← profileOf client;
                  if ac_scope claims === pf_scope profile then Some (claims, profile, cl_name client) else None)
      end
  end.

Definition defined (params : list (string * option string)) : list (string * string) :=
  omap (λ kv, (λ v, (kv.1, v)) <$> kv.2) params.

(** A redirect carries the issuer; [new URL] throws on what is not a URL. *)
Definition redirectWith (redirectUri : string) (params : list (string * option string)) : handler Response :=
  url ← some_or_crash (url_with redirectUri (defined params ++ [("iss", issuer)]));
  mret {| rs_status := 302; rs_headers := [("location", url); ("cache-control", "no-store")]; rs_body := EmptyString |}.

Definition access_error (status : Z) (error description : string) : handler Response :=
  mret (json_response status (error_json error description)).

Definition all_in (allowed : list string) (o : option (list string)) : bool :=
  match o with Some l => forallb (includes allowed) l | None => true end.

Definition register (now : Z) (body : json) : handler Response :=
  if negb (oc_registrationOpen config) || (match oc_registrationUntil config with Some u => u <=? now | None => false end) then
    audit "registration_refused_closed" [];;
    access_error 403 "access_denied" "Client registration is closed"
  else
    match RegistrationRequest_parse body with
    | Throw _ => access_error 400 "invalid_client_metadata" "Malformed registration"
    | Ok r =>
        match (if forallb (includes redirectAllowList) (rg_redirect_uris r) then profileFor (rg_redirect_uris r) else None) with
        | None =>
            audit "registration_refused" [("redirectUris", strings (rg_redirect_uris r))];;
            access_error 400 "invalid_redirect_uri" "This server accepts only its registered connector callbacks"
        | Some profile =>
            if match oc_registrationProfiles config with Some ps => bool_decide (pf_name profile ∉ ps) | None => false end then
              audit "registration_refused_profile" [("profile", JStr (profile_name (pf_name profile)))];;
              access_error 403 "access_denied" "Registration is not open for this kind of client"
            else if negb (all_in ["authorization_code"; "refresh_token"] (rg_grant_types r)) then
              access_error 400 "invalid_client_metadata" "Unsupported grant type"
            else if negb (all_in ["code"] (rg_response_types r)) then
              access_error 400 "invalid_client_metadata" "Unsupported response type"
            else
              let iat := seconds now in
              let name := default "Unnamed client" (rg_client_name r) in
              let auth := JStr (enum_name auth_names (rg_auth r)) in
              jti ← draw 9;
              let clientId := TokenSigner.sign signer "client" (client_json
                {| cl_iss := issuer; cl_name := name; cl_redirect_uris := rg_redirect_uris r; cl_auth := rg_auth r;
                   cl_iat := iat; cl_jti := jti |}) in
              audit "client_registered" [("name", JStr name); ("profile", JStr (profile_name (pf_name profile)));
                                         ("redirectUris", strings (rg_redirect_uris r)); ("auth", auth)];;
              mret (json_response 201 (JObj (
                [("client_id", JStr clientId)] ++
                (if rg_auth r === AUTH_NONE then []
                 else [("client_secret", JStr (TokenSigner.clientSecret signer clientId)); ("client_secret_expires_at", JNum 0)]) ++
                [("client_id_issued_at", JNum iat); ("client_name", JStr name); ("redirect_uris", strings (rg_redirect_uris r));
                 ("token_endpoint_auth_method", auth); ("grant_types", strings ["authorization_code"; "refresh_token"]);
                 ("response_types", strings ["code"]); ("scope", JStr (pf_scope profile))])))
        end
    end.

(** Each scope asked for is one of the two known. *)
Definition scopes_known (scope : option string) : bool :=
  match truthy scope with Some s => forallb (includes [OPERATOR_SCOPE; READ_SCOPE]) (split " " s) | None => true end.

(** What the authorisation request must name, in the order the code asks. *)
Definition authorize_error (q : list (string * string)) : option (string * string) :=
  if map_get q "response_type" !== Some "code" then
    Some ("unsupported_response_type", "Only the authorisation code flow is supported")
  else if (map_get q "code_challenge_method" !== Some "S256") ||
          negb (match map_get q "code_challenge" with Some c => challenge_ok c | None => false end) then
    Some ("invalid_request", "PKCE with S256 is required")
  else if match map_get q "resource" with Some r => r !== resource | None => false end then
    Some ("invalid_target", "Unknown resource")
  else if negb (scopes_known (map_get q "scope")) then Some ("invalid_scope", "Unknown scope")
  else None.

(** The client, its profile, and its redirect URI, when all three are good. *)
Definition authorize_client (q : list (string * string)) : option (string * ClientClaims * ClientProfile * string) :=
  clientId ← truthy (map_get q "client_id");
  client ← clientFrom (Some clientId);
  profile ← profileOf client;
  redirectUri ← truthy (map_get q "redirect_uri");
  if includes (cl_redirect_uris client) redirectUri && includes redirectAllowList redirectUri
  then Some (clientId, client, profile, redirectUri) else None.

Definition authorize (now : Z) (q : list (string * string)) : handler Response :=
  match repeated_key (map_keys q) with
  | Some _ => mret (page 400 "Invalid request" "<p>A parameter was repeated.</p>" None)
  | None =>
      match authorize_client q with
      | None => mret (page 400 "Invalid request" "<p>Unknown client or redirect address.</p>" None)
      | Some (clientId, client, profile, redirectUri) =>
          let state := map_get q "state" in
          let fail error description :=
            redirectWith redirectUri [("error", Some error); ("error_description", Some description); ("state", state)] in
          match authorize_error q with
          | Some (error, description) => fail error description
          | None =>
              googleState ← draw 32;
              nonce ← draw 32;
              googleVerifier ← draw 48;
              logins ← gets os_logins;
              let '(logins', stored) := OneShot.put pl_expiresAt now googleState
                {| pl_client := client; pl_clientId := clientId; pl_redirectUri := redirectUri; pl_state := state;
                   pl_codeChallenge := default EmptyString (map_get q "code_challenge"); pl_scope := pf_scope profile;
                   pl_nonce := nonce; pl_googleVerifier := googleVerifier; pl_expiresAt := now + LOGIN_TTL_MS |} logins in
              update (set_logins logins');;
              if negb stored then fail "temporarily_unavailable" "Too many sign-ins in progress"
              else mret {| rs_status := 302;
                           rs_headers := [("location", authorizeUrl googleState nonce (pkceChallenge googleVerifier)); ("cache-control", "no-store")];
                           rs_body := EmptyString |}
          end
      end
  end.

(** What a request leads to: an answer, a route of another component, or the wait for Google. *)
Inductive handled := Answered (r : Response) | NotMine | Exchanging (login : PendingLogin) (code : string).

Definition answer (m : handler Response) : handler handled := r ← m; mret (Answered r).

Definition denied (login : PendingLogin) (description : string) : handler Response :=
  redirectWith (pl_redirectUri login)
    [("error", Some "access_denied"); ("error_description", Some description); ("state", pl_state login)].

Definition googleCallback (now : Z) (q : list (string * string)) : handler handled :=
  logins ← gets os_logins;
  let '(logins', login) := OneShot.take pl_expiresAt now (map_get q "state") logins in
  update (set_logins logins');;
  match login with
  | None => mret (Answered (page 400 "Sign-in expired" "<p>This sign-in link has expired or was already used. Start again from the application that asked.</p>" None))
  | Some login =>
      match truthy (map_get q "code") with
      | None => answer (denied login "Google sign-in was cancelled")
      | Some code => mret (Exchanging login code)
      end
  end.

Definition consent_page (login : PendingLogin) (ticket target : string) (profile : ClientProfile) : Response :=
  page 200 "Allow access to KernelJSON?"
    ("<p><strong>" +:+ escapeHtml (cl_name (pl_client login)) +:+ "</strong> (" +:+ escapeHtml (pf_label profile) +:+ ") is asking to act as you in KernelJSON.</p>"
     +:+ "<p>It will be able to " +:+ escapeHtml (pf_grants profile) +:+ "</p>"
     +:+ "<p>Access goes to <code>" +:+ escapeHtml target +:+ "</code>. Only allow this if you have just asked " +:+ escapeHtml (pf_label profile) +:+ " to connect to KernelJSON.</p>"
     +:+ quoted "<form method=`post` action=`/oauth/consent`><input type=`hidden` name=`ticket` value=`" +:+ escapeHtml ticket +:+ quoted "`>"
     +:+ quoted "<button type=`submit` name=`decision` value=`allow`>Allow</button><button type=`submit` name=`decision` value=`deny`>Deny</button></form>")
    (Some target).

(** The rest of [googleCallback], once [google.exchange] has answered with a subject or null. *)
Definition resume (now : Z) (login : PendingLogin) (identity : option string) : handler Response :=
  match identity with
  | None => denied login "Google sign-in could not be verified"
  | Some sub =>
      if negb (safeEqual sub (oc_allowedGoogleSub config)) then
        audit "signin_refused" [("sub", JStr sub)];;
        mret (page 403 "Not permitted"
          ("<p>This Google account is not permitted to use KernelJSON. Nothing was shared with the application that asked.</p><p>Your Google account id is <code>"
           +:+ escapeHtml sub +:+ "</code>.</p>") None)
      else
        ticket ← draw 32;
        consents ← gets os_consents;
        let '(consents', stored) := OneShot.put pc_expiresAt now ticket
          {| pc_login := login; pc_sub := sub; pc_expiresAt := now + LOGIN_TTL_MS |} consents in
        update (set_consents consents');;
        if negb stored then
          redirectWith (pl_redirectUri login) [("error", Some "temporarily_unavailable"); ("state", pl_state login)]
        else
          target ← some_or_crash (url_origin (pl_redirectUri login));
          profile ← some_or_crash (profileOf (pl_client login));
          mret (consent_page login ticket target profile)
  end.

Definition consent (now : Z) (req : HttpRequest) : handler Response :=
  if match hr_header req "origin" with Some sent => sent !== origin | None => false end then
    mret (page 403 "Not permitted" "<p>Cross-site request refused.</p>" None)
  else
    form ← readForm req;
    consents ← gets os_consents;
    let '(consents', pending) := OneShot.take pc_expiresAt now (map_get form "ticket") consents in
    update (set_consents consents');;
    match pending with
    | None => mret (page 400 "Sign-in expired" "<p>This approval has expired or was already used. Start again from the application that asked.</p>" None)
    | Some pending =>
        let login := pc_login pending in
        let allowed := map_get form "decision" === Some "allow" in
        audit (if allowed then "consent_allowed" else "consent_denied")
          [("client", JStr (cl_name (pl_client login)));
           ("profile", opt_json (λ p, JStr (profile_name (pf_name p))) (profileOf (pl_client login)))];;
        if negb allowed then denied login "Access was denied"
        else
          code ← draw 32;
          codes ← gets os_codes;
          update (set_codes (OneShot.put ic_expiresAt now code
            {| ic_clientId := pl_clientId login; ic_redirectUri := pl_redirectUri login; ic_codeChallenge := pl_codeChallenge login;
               ic_scope := pl_scope login; ic_sub := pc_sub pending; ic_expiresAt := now + CODE_TTL_MS |} codes).1);;
          redirectWith (pl_redirectUri login) [("code", Some code); ("state", pl_state login)]
    end.

(** [client_id] and [client_secret] of the form, or those of a Basic header. *)
Definition credentials (req : HttpRequest) (form : list (string * string)) : handler (option string * option string) :=
  match strip_text "Basic " (default EmptyString (hr_header req "authorization")) with
  | None => mret (map_get form "client_id", map_get form "client_secret")
  | Some basic =>
      match cut_at ":" (utf8_text (from_base64 basic)) with
      | None => refuse 401 "invalid_client" "Malformed client credentials"
      | Some (id, secret) =>
          match decodeURIComponent id, decodeURIComponent secret with
          | Ok id, Ok secret => mret (Some id, Some secret)
          | _, _ => crash
          end
      end
  end.

Definition authenticateClient (req : HttpRequest) (form : list (string * string)) : handler (string * ClientClaims) :=
  '(clientId, secret) ← credentials req form;
  match truthy clientId, clientFrom clientId with
  | Some id, Some client =>
      refuse_when ((cl_auth client !== AUTH_NONE) &&
        negb (match truthy secret with Some sec => safeEqual sec (TokenSigner.clientSecret signer id) | None => false end))
        401 "invalid_client" "Client authentication failed";;
      mret (id, client)
  | _, _ => refuse 401 "invalid_client" "Unknown client"
  end.

Definition redeem_code (now : Z) (clientId : string) (form : list (string * string)) : handler Response :=
  codes ← gets os_codes;
  let '(codes', issued) := OneShot.take ic_expiresAt now (map_get form "code") codes in
  update (set_codes codes');;
  match issued with
  | None => refuse 400 "invalid_grant" "Invalid or expired code"
  | Some issued =>
      refuse_when ((ic_clientId issued !== clientId) || (Some (ic_redirectUri issued) !== map_get form "redirect_uri"))
        400 "invalid_grant" "Invalid or expired code";;
      refuse_when (negb (match map_get form "code_verifier" with
                         | Some v => verifier_ok v && safeEqual (pkceChallenge v) (ic_codeChallenge issued)
                         | None => false end))
        400 "invalid_grant" "PKCE verification failed";;
      tokens ← issueTokens now (ic_sub issued) clientId (ic_scope issued) None;
      mret (json_response 200 tokens)
  end.

Definition refresh (now : Z) (clientId : string) (form : list (string * string)) : handler Response :=
  update (pruneRefresh now);;
  match TokenSigner.verify signer (map_get form "refresh_token") RefreshClaims_parse "refresh" with
  | None => refuse 400 "invalid_grant" "Invalid refresh token"
  | Some claims =>
      refuse_when ((ac_iss claims !== issuer) || (ac_aud claims !== resource) || (ac_exp claims <=? seconds now) ||
                   (ac_cid claims !== clientId)) 400 "invalid_grant" "Invalid refresh token";;
      revoked ← gets (λ s, map_has (os_revokedFamilies s) (ac_fam claims));
      refuse_when ((ac_sub claims !== oc_allowedGoogleSub config) || revoked) 400 "invalid_grant" "Access revoked";;
      refuse_when (negb (match clientFrom (Some clientId) ≫= profileOf with
                         | Some p => ac_scope claims === pf_scope p | None => false end)) 400 "invalid_grant" "Access revoked";;
      used ← gets os_usedRefresh;
      families ← gets os_revokedFamilies;
      if map_has used (ac_jti claims) then
        update (set_revocation used (map_set families (ac_fam claims) (seconds now + REFRESH_TTL_S)));;
        audit "refresh_reuse_family_revoked" [("client", opt_json (λ c, JStr (cl_name c)) (clientFrom (Some clientId)))];;
        refuse 400 "invalid_grant" "Refresh token reuse detected"
      else
        update (set_revocation (map_set used (ac_jti claims) (ac_exp claims)) families);;
        tokens ← issueTokens now (ac_sub claims) clientId (ac_scope claims) (Some (ac_fam claims));
        mret (json_response 200 tokens)
  end.

Definition token (now : Z) (req : HttpRequest) : handler Response :=
  form ← readForm req;
  '(clientId, _) ← authenticateClient req form;
  refuse_when (match map_get form "resource" with Some r => r !== resource | None => false end)
    400 "invalid_target" "Unknown resource";;
  if map_get form "grant_type" === Some "authorization_code" then redeem_code now clientId form
  else if map_get form "grant_type" === Some "refresh_token" then refresh now clientId form
  else refuse 400 "unsupported_grant_type" "Unsupported grant type".

Definition register_route (now : Z) (req : HttpRequest) : handler Response :=
  refuse_when (content_type req !== Some "application/json") 400 "invalid_client_metadata" "JSON required";;
  body ← readBody req;
  match JSON_parse body with
  | Ok v => register now v
  | Throw _ => refuse 400 "invalid_client_metadata" "Malformed JSON"
  end.

(** The [switch] on the route. *)
Definition dispatch (now : Z) (req : HttpRequest) : handler handled :=
  let route := hr_method req +:+ " " +:+ hr_path req in
  if (route === "GET /.well-known/oauth-protected-resource") || (route === "GET /.well-known/oauth-protected-resource/mcp") then
    mret (Answered (json_response 200 resourceMetadata))
  else if (route === "GET /.well-known/oauth-authorization-server") || (route === "GET /.well-known/openid-configuration") then
    mret (Answered (json_response 200 serverMetadata))
  else if route === "POST /oauth/register" then answer (register_route now req)
  else if route === "GET /oauth/authorize" then answer (authorize now (hr_query req))
  else if route === "GET /oauth/google/callback" then googleCallback now (hr_query req)
  else if route === "POST /oauth/consent" then answer (consent now req)
  else if route === "POST /oauth/token" then answer (token now req)
  else mret NotMine.

(** The [catch]: an [OAuthError] is its answer, anything else is a server error. *)
Definition caught (o : OAuthState * (failure + handled)) : OAuthState * handled :=
  match o with
  | (s, inr h) => (s, h)
  | (s, inl (OAuthError status code description)) =>
      let r := json_response status (error_json code description) in
      (s, Answered (if status =? 401 then with_header ("www-authenticate", quoted "Basic realm=`kerneljson-operator`") r else r))
  | (s, inl OtherError) => (s, Answered (json_response 500 (JObj [("error", JStr "server_error")])))
  end.

Definition handle (now : Z) (req : HttpRequest) (s : OAuthState) : OAuthState * handled :=
  match strip_text "/oauth/" (hr_path req) with
  | None => caught (dispatch now req s)
  | Some _ =>
      let route := hr_method req +:+ " " +:+ hr_path req in
      match RateLimiter.check (default DEFAULT_RATE_LIMITS (oc_rateLimits config)) now
              (clientAddress (hr_header req "x-forwarded-for") (hr_remote req)) (route === "POST /oauth/register") (os_windows s) with
      | (ws, RATE_OK) => caught (dispatch now req (set_windows ws s))
      | (ws, RATE_REFUSED rule retryAfterS) =>
          (logged (JObj [("oauth", JStr "rate_limited"); ("route", JStr route); ("rule", JStr (rule_text rule))]) (set_windows ws s),
           Answered (with_header ("retry-after", pretty retryAfterS)
             (json_response 429 (error_json "rate_limited" "Too many requests; try again shortly"))))
      end
  end.

(** The answer once Google has replied. *)
Definition handle_resumed (now : Z) (login : PendingLogin) (identity : option string) (s : OAuthState) : OAuthState * handled :=
  caught (answer (resume now login identity) s).

End server.
