(* ===== verification/OAuthTokenFacts.v ===== *)
(** * What a signed token proves

    A token is accepted exactly when it is the signer's text for this purpose and its payload
    reads as the schema's claims; what the signer writes it reads back; a client's profile
    follows from its redirect URIs; an ID token's subject is taken only from Google, for this
    client and this sign-in. *)

From S2P Require Import Prelude JsNumber JsDate Digest Contracts Plan Capability Json Mission Codec OAuthTokens.
Local Open Scope Z_scope.
Local Open Scope js_scope.

(** ** Splitting a text at a separator *)

(** The text of the parts with a separator between them. *)
Fixpoint joined (sep : ascii) (parts : list string) : string :=
  match parts with
  | [] => EmptyString
  | [p] => p
  | p :: rest => p +:+ String sep (joined sep rest)
  end.

Lemma string_of_list_app_str a b :
  String.string_of_list_ascii (a ++ b) = String.string_of_list_ascii a +:+ String.string_of_list_ascii b.
Proof. induction a as [|c a IH]; [done|]. exact (f_equal (String c) IH). Qed.

Lemma split_from_joined sep s : ∀ acc, sep ∉ acc →
  joined sep (split_from sep acc s) = String.string_of_list_ascii (rev acc ++ s) ∧
  Forall (λ p, sep ∉ String.list_ascii_of_string p) (split_from sep acc s) ∧ split_from sep acc s ≠ [].
Proof.
  assert (Hrev : ∀ acc : list ascii, sep ∉ acc → sep ∉ String.list_ascii_of_string (String.string_of_list_ascii (rev acc))).
  { intros acc Ha. rewrite String.list_ascii_of_string_of_list_ascii, list_elem_of_In, <- in_rev, <- list_elem_of_In. done. }
  induction s as [|c s IH]; intros acc Ha; cbn [split_from].
  - split_and!; [by rewrite app_nil_r| |done]. constructor; [auto|constructor].
  - case_bool_decide as Hc.
    + subst c. destruct (IH [] ltac:(by intros ?%elem_of_nil)) as (E & HF & Hn). split_and!; [|by constructor; auto|done].
      rewrite string_of_list_app_str. cbn [rev app] in E. cbn [joined String.string_of_list_ascii].
      destruct (split_from sep [] s) as [|p ps] eqn:Es; [done|]. by rewrite <- E.
    + destruct (IH (c :: acc)) as (E & HF & Hn).
      { intros [?|?]%elem_of_cons; [by apply Hc|done]. }
      split_and!; [|done|done]. rewrite E. cbn [rev]. by rewrite <- app_assoc.
Qed.

Lemma split_joined sep s :
  joined sep (split sep s) = s ∧ Forall (λ p, sep ∉ String.list_ascii_of_string p) (split sep s).
Proof.
  destruct (split_from_joined sep (String.list_ascii_of_string s) []) as (E & HF & _); [by intros ?%elem_of_nil|].
  split; [|done]. unfold split. rewrite E. apply String.string_of_list_ascii_of_string.
Qed.

(** ** Tokens *)

(** The text of a token. *)
Definition token_text (key : list Z) (typ payload : string) : string :=
  TOKEN_PREFIX +:+ "." +:+ payload +:+ "." +:+ TokenSigner.mac key typ payload.

Lemma mac_no_dot key typ payload : "."%char ∉ String.list_ascii_of_string (TokenSigner.mac key typ payload).
Proof. apply base64url_no_dot, hmac_bytes_ok. Qed.

Lemma split_token_text key typ payload : "."%char ∉ String.list_ascii_of_string payload →
  split "." (token_text key typ payload) = [TOKEN_PREFIX; payload; TokenSigner.mac key typ payload].
Proof.
  intros Hp. unfold token_text.
  change (split "." (TOKEN_PREFIX +:+ String "." (payload +:+ String "." (TokenSigner.mac key typ payload)))
    = [TOKEN_PREFIX; payload; TokenSigner.mac key typ payload]).
  rewrite split_cons by (vm_compute; intros H; repeat apply elem_of_cons in H as [H|H]; try done; by apply elem_of_nil in H).
  rewrite split_cons by done. by rewrite split_one by apply mac_no_dot.
Qed.

Section tokens.
Context (key : list Z) {A : Type} (schema : json → result A) (typ : string).

(** What the payload of an accepted token holds. *)
Definition claims_in (payload : string) (a : A) : Prop :=
  ∃ v, JSON_parse (utf8_text (from_base64 payload)) = Ok v ∧ schema v = Ok a.

Lemma verify_ok token a :
  TokenSigner.verify key token schema typ = Some a →
  ∃ payload, token = Some (token_text key typ payload) ∧ js_length (token_text key typ payload) ≤ 4096 ∧
    "."%char ∉ String.list_ascii_of_string payload ∧ claims_in payload a.
Proof.
  destruct token as [token|]; [|done]. unfold TokenSigner.verify.
  destruct (Z.ltb_spec 4096 (js_length token)) as [|Hl]; [done|].
  destruct (split_joined "." token) as [E HF].
  destruct (split "." token) as [|p [|payload [|m [|]]]]; try done.
  destruct (negb (p === TOKEN_PREFIX)) eqn:Hp; [done|]. destruct (negb (safeEqual m _)) eqn:Hm; [done|].
  unfold safeEqual in Hm. to_prop. subst p m. intros Hs.
  assert (token = token_text key typ payload) as -> by (symmetry; exact E).
  exists payload. apply Forall_cons in HF as [_ [HF _]%Forall_cons].
  split_and!; [done|done|done|]. unfold claims_in.
  destruct (JSON_parse _) as [v|e]; [|done]. exists v. split; [done|]. cbn in Hs. by destruct (schema v); [injection Hs as ->|].
Qed.

Lemma verify_text payload a :
  js_length (token_text key typ payload) ≤ 4096 → "."%char ∉ String.list_ascii_of_string payload → claims_in payload a →
  TokenSigner.verify key (Some (token_text key typ payload)) schema typ = Some a.
Proof.
  intros Hl Hp (v & Hv & Ha). unfold TokenSigner.verify. destruct (Z.ltb_spec 4096 (js_length (token_text key typ payload))); [lia|].
  rewrite split_token_text by done. rewrite bool_decide_true by done. unfold safeEqual. rewrite bool_decide_true by done. cbn [negb].
  rewrite Hv. cbn [mbind result_bind]. by rewrite Ha.
Qed.

(** A text is well formed when Node's decoder changes nothing in it. *)
Definition well_formed (s : string) : Prop := utf8_decode (bytes_of s) = bytes_of s.

Lemma sign_text claims : TokenSigner.sign key typ claims = token_text key typ (b64 (stringify claims)).
Proof. done. Qed.

Lemma verify_sign claims a :
  json_wf claims → schema claims = Ok a → well_formed (stringify claims) →
  js_length (TokenSigner.sign key typ claims) ≤ 4096 →
  TokenSigner.verify key (Some (TokenSigner.sign key typ claims)) schema typ = Some a.
Proof.
  intros Hj Ha Hw Hl. rewrite sign_text in *. apply verify_text; [done|apply base64url_no_dot, string_bytes_ok|].
  exists claims. split; [|done]. unfold b64. rewrite from_base64url by apply string_bytes_ok.
  unfold utf8_text. unfold well_formed in Hw. rewrite Hw, bytes_of_string. by apply JSON_parse_stringify.
Qed.
End tokens.

(** An integer the schema reads back. *)
Definition safe (n : Z) : Prop := - max_safe ≤ n ≤ max_safe.

Lemma safe_wf n : safe n → json_wf (JNum n).
Proof. intros H. constructor. unfold safe, max_safe, exact_bound in *. lia. Qed.

(** The claims objects have distinct keys. *)
Lemma claims_json_wf typ c : safe (ac_iat c) → safe (ac_exp c) → json_wf (claims_json typ c).
Proof.
  intros Hi%safe_wf He%safe_wf. constructor; [apply (bool_decide_unpack _); vm_compute; exact I|].
  repeat (apply List.Forall_cons; [cbn [snd]; first [assumption|constructor]|]). constructor.
Qed.

Lemma client_json_wf c : safe (cl_iat c) → json_wf (client_json c).
Proof.
  intros Hi%safe_wf. constructor; [apply (bool_decide_unpack _); vm_compute; exact I|].
  repeat (apply List.Forall_cons; [cbn [snd]; first [assumption|constructor]|]); [|constructor].
  apply Forall_map, Forall_true. constructor.
Qed.

Lemma any_int_ok n : safe n → any_int (JNum n) = Ok n.
Proof. unfold safe, any_int, z_int. intros Hn. by destruct (Z.leb_spec (- max_safe) n), (Z.leb_spec n max_safe); try lia. Qed.

Lemma z_literal_same w : z_literal w (JStr w) = Ok w.
Proof. unfold z_literal, z_string. by rewrite bool_decide_true. Qed.

Lemma any_string_same s : any_string (JStr s) = Ok s.
Proof. done. Qed.

(** Read the fields of an encoded object whose values are known to be read back. *)
Ltac read_same :=
  repeat match goal with |- (z_field _ ?k ?s ≫= _) = _ =>
    first [ match goal with F : s _ = Ok _ |- _ => rewrite (z_field_at _ k s _ _ F) by reflexivity end
          | rewrite (z_field_at _ k s _ _ (any_string_same _)) by reflexivity ]; cbn [mbind result_bind]
  end.

Lemma Claims_parse_json typ c : safe (ac_iat c) → safe (ac_exp c) → Claims_parse typ (claims_json typ c) = Ok c.
Proof.
  intros Hi He. apply any_int_ok in Hi, He. pose proof (z_literal_same typ).
  unfold Claims_parse, claims_json. read_strict. read_same. by destruct c.
Qed.

(** Claims of one purpose are not claims of another. *)
Lemma Claims_parse_other typ typ' c a : Claims_parse typ' (claims_json typ c) = Ok a → typ' = typ.
Proof.
  intros (fs & [_ <-%Ok_inj]%ensure_ok & (x & Hx & _)%bind_ok)%bind_ok. unfold z_field in Hx. cbn [map_get] in Hx.
  rewrite bool_decide_true in Hx by done. unfold z_literal, z_string in Hx. apply ensure_ok in Hx as [Hx _]. by to_prop.
Qed.

Lemma ClientClaims_parse_other typ c a : ClientClaims_parse (claims_json typ c) = Ok a → False.
Proof.
  intros (fs & [H _]%ensure_ok & _)%bind_ok. rewrite forallb_forall in H. specialize (H ("aud", JStr (ac_aud c))).
  apply bool_decide_eq_true in H; [by vm_compute in H; repeat apply elem_of_cons in H as [H|H]; try apply elem_of_nil in H|].
  do 2 right. by left.
Qed.

Lemma map_all_strings l : map_all any_string (map JStr l) = Ok l.
Proof. induction l as [|x l IH]; [done|]. cbn in *. by rewrite IH. Qed.

Lemma ClientClaims_parse_json c :
  js_length (cl_name c) ≤ 100 → (1 ≤ length (cl_redirect_uris c) ≤ 5)%nat → safe (cl_iat c) →
  ClientClaims_parse (client_json c) = Ok c.
Proof.
  intros Hn Hu Hi. apply any_int_ok in Hi. pose proof (z_literal_same "client").
  assert (z_text 0 100 (JStr (cl_name c)) = Ok (cl_name c)).
  { unfold z_text, z_string. assert (0 ≤ js_length (cl_name c)) as H0.
    { unfold js_length. induction (bytes_of (cl_name c)) as [|b bs IH]; simpl; [lia|]. repeat case_match; lia. }
    destruct (Z.leb_spec 0 (js_length (cl_name c))); [|lia]. by destruct (Z.leb_spec (js_length (cl_name c)) 100); [|lia]. }
  assert (z_array 1 5 any_string (JArr (map JStr (cl_redirect_uris c))) = Ok (cl_redirect_uris c)).
  { unfold z_array. rewrite map_all_strings. cbn [mbind result_bind].
    destruct (Z.leb_spec 1 (Z.of_nat (length (cl_redirect_uris c)))); [|lia].
    by destruct (Z.leb_spec (Z.of_nat (length (cl_redirect_uris c))) 5); [|lia]. }
  assert (z_enum auth_names (JStr (enum_name auth_names (cl_auth c))) = Ok (cl_auth c)) by (by destruct (cl_auth c)).
  unfold ClientClaims_parse, client_json. read_strict. read_same. by destruct c.
Qed.

(** The payload of a signed token is what was signed. *)
Lemma claims_in_signed {A} (schema : json → result A) (claims : json) a :
  json_wf claims → well_formed (stringify claims) → claims_in schema (b64 (stringify claims)) a → schema claims = Ok a.
Proof.
  intros Hj Hw (v & Hv & Ha). unfold b64 in Hv. rewrite from_base64url in Hv by apply string_bytes_ok.
  unfold utf8_text in Hv. unfold well_formed in Hw. rewrite Hw, bytes_of_string, JSON_parse_stringify in Hv by done.
  by injection Hv as ->.
Qed.

Lemma token_text_inj key typ typ' p p' : "."%char ∉ String.list_ascii_of_string p → "."%char ∉ String.list_ascii_of_string p' →
  token_text key typ p = token_text key typ' p' → p = p'.
Proof. intros Hp Hp' E. apply (f_equal (split ".")) in E. rewrite !split_token_text in E by done. by injection E. Qed.

(** ** The properties *)

(** C21: Which texts a signer accepts, for a purpose and a schema: exactly [kjm1.payload.mac] with
    the HMAC of the purpose and the payload under its key, at most 4096 long, whose payload
    decodes to JSON the schema reads; the claims returned are those. *)
Theorem token_accepted_exactly {A} key (schema : json → result A) typ token a :
  TokenSigner.verify key token schema typ = Some a ↔
  ∃ payload, token = Some (token_text key typ payload) ∧ js_length (token_text key typ payload) ≤ 4096 ∧
    "."%char ∉ String.list_ascii_of_string payload ∧ claims_in schema payload a.
Proof. split; [apply verify_ok|]. intros (payload & -> & Hl & Hp & Hc). by apply verify_text. Qed.

(** Signing and verifying. Claims signed as access (or refresh) tokens are read back
    unchanged, for that purpose; for the other purpose, and as a client id, the same text is
    refused, whatever the MACs are. *)
Theorem signed_claims_roundtrip key typ c :
  safe (ac_iat c) → safe (ac_exp c) → well_formed (stringify (claims_json typ c)) →
  js_length (TokenSigner.sign key typ (claims_json typ c)) ≤ 4096 →
  let token := Some (TokenSigner.sign key typ (claims_json typ c)) in
  TokenSigner.verify key token (Claims_parse typ) typ = Some c ∧
  (∀ typ', typ' ≠ typ → TokenSigner.verify key token (Claims_parse typ') typ' = None) ∧
  ∀ typ', TokenSigner.verify key token ClientClaims_parse typ' = None.
Proof.
  intros Hi He Hw Hl token. split; [apply verify_sign; [by apply claims_json_wf|by apply Claims_parse_json|done|done]|].
  assert (H : ∀ {A} (schema : json → result A) typ' a,
    TokenSigner.verify key token schema typ' = Some a → schema (claims_json typ c) = Ok a).
  { intros A schema typ' a (payload & E & _ & Hp & Hc)%verify_ok. apply (inj Some) in E. rewrite sign_text in E.
    apply token_text_inj in E as <-; [|apply base64url_no_dot, string_bytes_ok|done].
    apply claims_in_signed; [by apply claims_json_wf|done|done]. }
  split; intros typ'; [intros Hne|]; destruct (TokenSigner.verify _ _ _ _) as [a|] eqn:E; [|done| |done]; apply H in E.
  - by apply Claims_parse_other in E.
  - by apply ClientClaims_parse_other in E.
Qed.

(** The profile of a client: all its redirect URIs are the profile's. *)
Lemma profileFor_ok uris p : profileFor uris = Some p →
  (pf_readOnly p = false ↔ pf_scope p = OPERATOR_SCOPE) ∧ ∀ u, u ∈ uris → u ∈ pf_redirectUris p.
Proof.
  unfold profileFor. destruct uris as [|u us]; [done|].
  assert (H : ∀ n, n ∈ List.filter (λ name, forallb (includes (pf_redirectUris (CLIENT_PROFILES name))) (u :: us)) PROFILE_NAMES →
    (pf_readOnly (CLIENT_PROFILES n) = false ↔ pf_scope (CLIENT_PROFILES n) = OPERATOR_SCOPE) ∧
    ∀ x, x ∈ u :: us → x ∈ pf_redirectUris (CLIENT_PROFILES n)).
  { intros n [_ Hn]%elem_of_filter_bool. split; [by destruct n|]. intros x Hx. rewrite forallb_forall in Hn.
    apply list_elem_of_In, Hn in Hx. unfold includes in Hx. by apply bool_decide_eq_true in Hx. }
  destruct (List.filter _ _) as [|n [|]]; try done. intros E. apply (inj Some) in E. subst p. apply H. left.
Qed.

Lemma profileFor_named uris p : profileFor uris = Some p → ∃ n, p = CLIENT_PROFILES n.
Proof.
  unfold profileFor. destruct uris as [|u us]; [done|]. destruct (List.filter _ _) as [|n [|]]; try done.
  intros E. exists n. by apply (inj Some) in E.
Qed.

(** A client's profile is a function of its redirect URIs, and the operator scope belongs to
    ChatGPT's callback alone: a client resolves to a profile exactly when it has redirect URIs
    and all of them are the profile's; it may act (its profile is not read-only) only when
    every one of them is ChatGPT's. *)
Theorem profile_by_redirects uris p :
  (profileFor uris = Some p ↔ uris ≠ [] ∧ ∃ n, p = CLIENT_PROFILES n ∧ ∀ u, u ∈ uris → u ∈ pf_redirectUris p) ∧
  (profileFor uris = Some p →
     (pf_readOnly p = false ↔ pf_scope p = OPERATOR_SCOPE) ∧
     (pf_readOnly p = false ↔ ∀ u, u ∈ uris → u ∈ CHATGPT_REDIRECT_URIS)).
Proof.
  set (all n := forallb (includes (pf_redirectUris (CLIENT_PROFILES n))) uris).
  assert (Hall : ∀ n, all n = true ↔ ∀ u, u ∈ uris → u ∈ pf_redirectUris (CLIENT_PROFILES n)).
  { intros n. unfold all. rewrite forallb_forall. setoid_rewrite <- list_elem_of_In. unfold includes.
    split; intros H u Hu; apply (bool_decide_eq_true (u ∈ pf_redirectUris (CLIENT_PROFILES n))); auto. }
  assert (Hone : uris ≠ [] → all CHATGPT = true → all GROKBOT = true → False).
  { destruct uris as [|u us]; [done|]. intros _ H1 H2. apply Hall with (u := u) in H1; [|left]. apply Hall with (u := u) in H2; [|left].
    apply list_elem_of_singleton in H1 as ->. vm_compute in H2. repeat apply elem_of_cons in H2 as [H2|H2]; try done. by apply elem_of_nil in H2. }
  assert (Heq : uris ≠ [] → profileFor uris =
    match (if all CHATGPT then CHATGPT :: (if all GROKBOT then [GROKBOT] else []) else if all GROKBOT then [GROKBOT] else []) with
    | [n] => Some (CLIENT_PROFILES n) | _ => None end) by (intros Hu; unfold profileFor, all; by destruct uris).
  assert (Hp : profileFor uris = Some p → uris ≠ [] ∧ ∃ n, p = CLIENT_PROFILES n ∧ all n = true).
  { intros E. assert (uris ≠ []) as Hu by (by intros ->). split; [done|]. rewrite Heq in E by done.
    destruct (all CHATGPT) eqn:H1, (all GROKBOT) eqn:H2; try done; apply (inj Some) in E; eauto. }
  split; [split|].
  - intros [Hne (n & -> & Ha)]%Hp. split; [done|]. exists n. split; [done|]. by apply Hall.
  - intros [Hne (n & -> & Ha)]. assert (H := proj2 (Hall n) Ha). rewrite Heq by done.
    destruct n; rewrite H; [destruct (all GROKBOT) eqn:H2|destruct (all CHATGPT) eqn:H2]; try done; exfalso; by apply Hone.
  - intros [Hne (n & -> & Ha)]%Hp. destruct n; cbn [pf_readOnly pf_scope CLIENT_PROFILES].
    + split; [done|]. by rewrite Hall in Ha.
    + split; [done|]. split; [done|]. intros H. exfalso. apply Hone; [done|by apply Hall|done].
Qed.

(** Who Google says signed in. A subject is taken from an ID token only when its three parts
    carry claims from Google's issuers, for this server's client id and nothing else, not yet
    expired, with the nonce of this sign-in; it is then 1 to 64 digits. *)
Theorem id_token_subject t expected sub : checkIdToken t expected = Some sub →
  ∃ token header payload signature claims, t = Some (JStr token) ∧ split "." token = [header; payload; signature] ∧
    claims_in IdTokenClaims_parse payload claims ∧ it_sub claims = sub ∧ it_iss claims ∈ ISSUERS ∧
    it_aud claims = [ie_clientId expected] ∧ number_leb (it_exp claims) (ie_nowSeconds expected) = false ∧
    it_nonce claims = Some (ie_nonce expected) ∧ subject_ok sub = true.
Proof.
  unfold checkIdToken. destruct t as [[| | |token| | |]|]; try done.
  destruct (split "." token) as [|h [|payload [|sg [|]]]] eqn:Es; try done.
  destruct (JSON_parse _) as [v|] eqn:Ev; [|done]. cbn [mbind result_bind].
  destruct (IdTokenClaims_parse v) as [claims|] eqn:Ec; [|done]. unfold includes.
  destruct (negb (bool_decide _)) eqn:Hi; [done|]. destruct (negb (_ === [_])) eqn:Ha; [done|].
  destruct (number_leb (it_exp claims) (ie_nowSeconds expected)) eqn:He; [done|].
  destruct (decide (it_nonce claims = Some (ie_nonce expected))) as [Hn|Hn]; [rewrite bool_decide_true by done|by rewrite bool_decide_false].
  cbn [negb]. intros E. apply (inj Some) in E. subst sub. to_prop.
  exists token, h, payload, sg, claims. split_and!; try done; [by exists v|].
  unfold IdTokenClaims_parse in Ec. repeat (let x := fresh "x" in apply bind_ok in Ec as (x & ? & Ec)).
  apply Ok_inj in Ec as <-. cbn [it_sub]. match goal with F : z_field _ "sub" _ = Ok _ |- _ => apply z_field_ok in F as [w F] end.
  destruct w; try done. match goal with F : z_string _ _ = Ok _ |- _ => apply ensure_ok in F as [? <-%Ok_inj] end. done.
Qed.

(** ** Witnesses *)

Definition sample_key : list Z := Eval vm_compute in bytes_of "0123456789abcdef0123456789abcdef".

Definition sample_claims : AccessClaims :=
  {| ac_iss := "https://kj-mcp.example"; ac_aud := "https://kj-mcp.example/mcp"; ac_sub := "1029384756"; ac_cid := "kjm1.c";
     ac_fam := "fam-1"; ac_scope := READ_SCOPE; ac_iat := 1790000000; ac_exp := 1790003600; ac_jti := "jti-1" |}.

Lemma signed_claims_roundtrip_witness :
  TokenSigner.verify sample_key (Some (TokenSigner.sign sample_key "access" (claims_json "access" sample_claims)))
    AccessClaims_parse "access" = Some sample_claims.
Proof.
  apply (signed_claims_roundtrip sample_key "access" sample_claims).
  - unfold safe, max_safe, sample_claims; cbn [ac_iat]; lia.
  - unfold safe, max_safe, sample_claims; cbn [ac_exp]; lia.
  - unfold well_formed. vm_compute. reflexivity.
  - apply Z.leb_le. vm_compute. reflexivity.
Defined.

Lemma profile_by_redirects_witness :
  ¬ pf_readOnly (CLIENT_PROFILES GROKBOT) = false ∧
  ∀ u, u ∈ ["http://localhost:8787/callback"] → u ∈ pf_redirectUris (CLIENT_PROFILES GROKBOT).
Proof.
  assert (profileFor ["http://localhost:8787/callback"] = Some (CLIENT_PROFILES GROKBOT)) as E by (vm_compute; reflexivity).
  destruct (profile_by_redirects ["http://localhost:8787/callback"] (CLIENT_PROFILES GROKBOT)) as [H1 H2].
  split; [done|]. apply H1 in E as (_ & n & Hn & H). done.
Defined.

Definition sample_id_token : string := Eval vm_compute in
  "e30." +:+ b64 (stringify (JObj [("iss", JStr "accounts.google.com"); ("aud", JStr "client"); ("sub", JStr "42");
                                  ("exp", JNum 100); ("nonce", JStr "n"); ("email", JStr "a@b")])) +:+ ".sig".
Definition sample_expected : IdExpected := {| ie_clientId := "client"; ie_nonce := "n"; ie_nowSeconds := 99 |}.

Lemma id_token_subject_witness : subject_ok "42" = true ∧ checkIdToken (Some (JStr sample_id_token)) sample_expected = Some "42".
Proof.
  assert (checkIdToken (Some (JStr sample_id_token)) sample_expected = Some "42") as E by (vm_compute; reflexivity).
  destruct (id_token_subject _ _ _ E) as (? & ? & ? & ? & ? & ? & ? & ? & ? & ? & ? & ? & ? & H). by split.
Defined.
