(* ===== verification/OAuthFacts.v ===== *)
(** * The authorisation server's protocol

    Every endpoint is shown to be a sequence of the changes below (begin a sign-in, end it,
    ask for consent, issue a code against a consent, redeem a code, mark a refresh token used,
    revoke a family, drop what has expired), and the properties are proved by rule induction
    over them: what is pending always belongs to a registered client and the permitted
    subject, a code is redeemed once, a family whose refresh token is used twice is dead. *)

From S2P Require Import Prelude JsNumber JsDate Digest Contracts Plan Capability Json Mission Codec OAuthTokens RateLimit OAuthServer.
From S2P Require Import OAuthTokenFacts.
Local Open Scope Z_scope.
Local Open Scope js_scope.

#[local] Arguments TokenSigner.verify : simpl never.
#[local] Arguments TokenSigner.sign : simpl never.
#[local] Arguments profileFor : simpl never.

(** ** One-shot stores *)
Section oneshot.
Context {T : Type} (expiresAt : T → Z).
Implicit Types (items : OneShot.store (T := T)).

Definition store_ok (P : T → Prop) items : Prop :=
  Z.of_nat (length items) ≤ MAX_PENDING ∧ NoDup (map_keys items) ∧ Forall (λ kv, P kv.2) items.

Lemma map_delete_sub items k kv : kv ∈ map_delete items k → kv ∈ items.
Proof.
  induction items as [|[j v] items IH]; [done|]. cbn. case_bool_decide; [by right|].
  intros [->|Hk]%elem_of_cons; [left|right; auto].
Qed.

Lemma map_delete_length items k : (length (map_delete items k) ≤ length items)%nat.
Proof. induction items as [|[j v] items IH]; [done|]. cbn. case_bool_decide; cbn; lia. Qed.

Lemma map_delete_NoDup items k : NoDup (map_keys items) → NoDup (map_keys (map_delete items k)).
Proof.
  induction items as [|[j v] items IH]; [done|]. cbn. intros [Hj Hn]%NoDup_cons. case_bool_decide; [done|].
  cbn. apply NoDup_cons. split; [|auto]. intros (kw & -> & Hw%map_delete_sub)%list_elem_of_fmap.
  apply Hj, list_elem_of_fmap. by exists kw.
Qed.

Lemma put_ok P now key v items : store_ok P items → P v → store_ok P (OneShot.put expiresAt now key v items).1.
Proof.
  intros (Hl & Hn & HP) Hv. unfold OneShot.put.
  set (live := List.filter (λ kv, negb (expiresAt kv.2 <=? now)) items).
  assert (Hlive : store_ok P live).
  { split_and!; [|by apply filter_map_NoDup|].
    - pose proof (filter_length_le (λ kv : string * T, negb (expiresAt kv.2 <=? now)) items). unfold live. lia.
    - apply Forall_forall. intros kv [Hk _]%elem_of_filter_bool. by eapply Forall_forall in HP. }
  destruct Hlive as (Hl' & Hn' & HP'). destruct (Z.leb_spec MAX_PENDING (Z.of_nat (length live))); cbn [fst]; [done|].
  split_and!; [rewrite map_set_length; destruct (map_has live key); lia|by apply map_set_NoDup|by apply map_set_Forall].
Qed.

Lemma take_ok P now key items : store_ok P items →
  store_ok P (OneShot.take expiresAt now key items).1 ∧
  ∀ v, (OneShot.take expiresAt now key items).2 = Some v → P v ∧ now < expiresAt v.
Proof.
  intros (Hl & Hn & HP). unfold OneShot.take. destruct (truthy key) as [k|]; cbn [fst snd]; [|done].
  split; [split_and!; [pose proof (map_delete_length items k); lia|by apply map_delete_NoDup|]|].
  - apply Forall_forall. intros kv Hk%map_delete_sub. by eapply Forall_forall in HP.
  - intros v. destruct (map_get items k) as [w|] eqn:E; [|done]. destruct (Z.ltb_spec now (expiresAt w)); [|done].
    intros [= <-]. apply map_get_elem in E. rewrite Forall_forall in HP. by specialize (HP _ E).
Qed.

(** The keys after a [put]: old ones and the new one. *)
Lemma put_keys now key v items k :
  k ∈ map_keys (OneShot.put expiresAt now key v items).1 → k = key ∨ k ∈ map_keys items.
Proof.
  unfold OneShot.put. set (live := List.filter _ items).
  assert (Hs : k ∈ map_keys live → k ∈ map_keys items).
  { intros (kw & -> & [Hw _]%elem_of_filter_bool)%list_elem_of_fmap. apply list_elem_of_fmap. by exists kw. }
  destruct (_ <=? _); cbn [fst]; [auto|]. rewrite map_keys_set. destruct (map_has live key); [auto|].
  intros [?|?%list_elem_of_singleton]%elem_of_app; auto.
Qed.

Lemma take_keys now key items k : k ∈ map_keys (OneShot.take expiresAt now key items).1 → k ∈ map_keys items.
Proof.
  unfold OneShot.take. destruct (truthy key) as [j|]; cbn [fst]; [|done].
  intros (kw & -> & Hw%map_delete_sub)%list_elem_of_fmap. apply list_elem_of_fmap. by exists kw.
Qed.

(** A taken key is gone. *)
Lemma take_gone now k items v : NoDup (map_keys items) →
  (OneShot.take expiresAt now (Some k) items).2 = Some v → k ∉ map_keys (OneShot.take expiresAt now (Some k) items).1.
Proof.
  intros Hn. unfold OneShot.take. destruct (truthy (Some k)) as [j|] eqn:Et; cbn [fst snd]; [|done].
  assert (j = k) as -> by (cbn in Et; destruct (decide _); [done|by injection Et]).
  intros _ ([i w] & E & Hw)%list_elem_of_fmap. cbn in E. subst i. pose proof (map_get_delete_eq items k Hn) as Hd.
  by rewrite (map_elem_get _ _ _ (map_delete_NoDup _ _ Hn) Hw) in Hd.
Qed.
End oneshot.

(** ** The protocol *)
Section protocol.
Context (config : OAuthConfig) (origin : string) (randomToken : nat → Z → string).
Context (url_with : string → list (string * string) → option string) (url_origin : string → option string)
  (authorizeUrl : string → string → string → string).

(** A client the server signed, and the profile it resolves to now. *)
Definition known (clientId : string) (client : ClientClaims) (profile : ClientProfile) : Prop :=
  clientFrom config (Some clientId) = Some client ∧ profileOf config client = Some profile.

(** One of the client's own redirect URIs, still allowed here. *)
Definition redirects_to (client : ClientClaims) (uri : string) : Prop :=
  uri ∈ cl_redirect_uris client ∧ uri ∈ oc_allowedRedirectUris config.

Definition login_ok (l : PendingLogin) : Prop :=
  (∃ p, known (pl_clientId l) (pl_client l) p ∧ pl_scope l = pf_scope p) ∧ redirects_to (pl_client l) (pl_redirectUri l).

Definition consent_ok (c : PendingConsent) : Prop := login_ok (pc_login c) ∧ pc_sub c = oc_allowedGoogleSub config.

Definition code_ok (c : IssuedCode) : Prop :=
  ic_sub c = oc_allowedGoogleSub config ∧
  ∃ client p, known (ic_clientId c) client p ∧ ic_scope c = pf_scope p ∧ redirects_to client (ic_redirectUri c).

(** What the tables hold, in every reachable state. *)
Record tables_ok (s : OAuthState) : Prop := {
  ok_logins : store_ok login_ok (os_logins s);
  ok_consents : store_ok consent_ok (os_consents s);
  ok_codes : store_ok code_ok (os_codes s)
}.

(** The code issued against a consent. *)
Definition code_of (now : Z) (c : PendingConsent) : IssuedCode :=
  let login := pc_login c in
  {| ic_clientId := pl_clientId login; ic_redirectUri := pl_redirectUri login; ic_codeChallenge := pl_codeChallenge login;
     ic_scope := pl_scope login; ic_sub := pc_sub c; ic_expiresAt := now + CODE_TTL_MS |}.

(** What an event brings with it: Google's word that the permitted subject signed in, and the
    [Allow] of the consent page. *)
Record mode := { signed_in : bool; allowed : bool }.
Context (md : mode).

(** The changes a handler makes at time [now]. *)
Inductive change (now : Z) : OAuthState → OAuthState → Prop :=
  | ch_draw s : change now s (drawn s)
  | ch_log e s : change now s (logged e s)
  | ch_windows ws s : change now s (set_windows ws s)
  | ch_login key l s : login_ok l → change now s (set_logins (OneShot.put pl_expiresAt now key l (os_logins s)).1 s)
  | ch_end_login key s : change now s (set_logins (OneShot.take pl_expiresAt now key (os_logins s)).1 s)
  | ch_consent key l s : login_ok l → signed_in md = true →
      change now s (set_consents (OneShot.put pc_expiresAt now key
        {| pc_login := l; pc_sub := oc_allowedGoogleSub config; pc_expiresAt := now + LOGIN_TTL_MS |} (os_consents s)).1 s)
  | ch_end_consent key s : change now s (set_consents (OneShot.take pc_expiresAt now key (os_consents s)).1 s)
  | ch_code ticket c e s : allowed md = true → (OneShot.take pc_expiresAt now ticket (os_consents s)).2 = Some c →
      let s1 := logged e (set_consents (OneShot.take pc_expiresAt now ticket (os_consents s)).1 s) in
      change now s (set_codes (OneShot.put ic_expiresAt now (randomToken (os_draws s) 32) (code_of now c) (os_codes s)).1 (drawn s1))
  | ch_end_code key s : change now s (set_codes (OneShot.take ic_expiresAt now key (os_codes s)).1 s)
  | ch_prune s : change now s (pruneRefresh now s)
  | ch_use jti exp s : map_has (os_usedRefresh s) jti = false →
      change now s (set_revocation (map_set (os_usedRefresh s) jti exp) (os_revokedFamilies s) s)
  | ch_revoke fam s :
      change now s (set_revocation (os_usedRefresh s) (map_set (os_revokedFamilies s) fam (seconds now + REFRESH_TTL_S)) s).

Definition changes (now : Z) : OAuthState → OAuthState → Prop := rtc (change now).

Lemma change_tables now s s' : change now s s' → tables_ok s → tables_ok s'.
Proof.
  intros Hc [Hl Hn Hk]. destruct Hc; constructor;
    cbn [os_logins os_consents os_codes drawn logged set_windows set_logins set_consents set_codes set_revocation pruneRefresh]; try done;
    try (by apply put_ok); try (by apply take_ok).
  apply (take_ok pc_expiresAt _ now ticket) in Hn as [_ Hc]. specialize (Hc c ltac:(done)) as [[[(p & Hp & Hs) Hr] Hsub] _].
  apply put_ok; [done|]. split; [done|]. by exists (pl_client (pc_login c)), p.
Qed.

Lemma changes_tables now s s' : changes now s s' → tables_ok s → tables_ok s'.
Proof. induction 1; [done|]. eauto using change_tables. Qed.

(** ** Handlers as sequences of changes *)

(** A run from [s] that ended in [x]: its changes, and what holds of what it returned. *)
Definition yields {A} (now : Z) (s : OAuthState) (Q : A → Prop) (x : OAuthState * (failure + A)) : Prop :=
  changes now s x.1 ∧ match x.2 with inr a => Q a | inl _ => True end.

Definition does {A} (now : Z) (m : handler A) (Q : A → Prop) : Prop := ∀ s, tables_ok s → yields now s Q (m s).

Lemma yields_after {A} now s s' (Q : A → Prop) x : changes now s s' → yields now s' Q x → yields now s Q x.
Proof. intros Hc [Hx HQ]. split; [by etrans|done]. Qed.

Lemma does_ret {A} now (a : A) (Q : A → Prop) : Q a → does now (mret a) Q.
Proof. intros HQ s _. by split; [apply rtc_refl|]. Qed.

Lemma does_fail {A} now e (Q : A → Prop) : does now (λ s, (s, inl e)) Q.
Proof. intros s _. by split; [apply rtc_refl|]. Qed.

Lemma does_bind {A B} now (m : handler A) (f : A → handler B) Q R :
  does now m Q → (∀ a, Q a → does now (f a) R) → does now (m ≫= f) R.
Proof.
  intros Hm Hf s Hs. unfold mbind, handler_bind. destruct (Hm s Hs) as [Hc HQ].
  destruct (m s) as [s1 [e|a]]; cbn [fst snd] in *; [done|].
  destruct (Hf a HQ s1 (changes_tables _ _ _ Hc Hs)) as [Hc' HR]. split; [by etrans|done].
Qed.

Lemma does_mono {A} now (m : handler A) (Q R : A → Prop) : does now m Q → (∀ a, Q a → R a) → does now m R.
Proof. intros Hm H s Hs. destruct (Hm s Hs) as [Hc HQ]. split; [done|]. destruct (m s).2; auto. Qed.

Lemma does_then {A B} now (m : handler A) (f : A → handler B) R :
  does now m (λ _, True) → (∀ a, does now (f a) R) → does now (m ≫= f) R.
Proof. intros Hm Hf. eapply does_bind; [done|auto]. Qed.

Lemma does_step {A} now (m : handler A) (Q : A → Prop) :
  (∀ s, tables_ok s → change now s (m s).1 ∧ match (m s).2 with inr a => Q a | inl _ => True end) → does now m Q.
Proof. intros H s Hs. destruct (H s Hs). split; [by apply rtc_once|done]. Qed.

Lemma does_refuse_when now c status code description : does now (refuse_when c status code description) (λ _, c = false).
Proof. unfold refuse_when. destruct c; [apply does_fail|by apply does_ret]. Qed.

Lemma does_audit now event detail : does now (audit event detail) (λ _, True).
Proof. apply does_step. intros s _. split; [apply ch_log|done]. Qed.

Lemma does_draw now bytes : does now (draw randomToken bytes) (λ _, True).
Proof. apply does_step. intros s _. split; [apply ch_draw|done]. Qed.

Lemma does_some {A} now (o : option A) (Q : A → Prop) : (∀ a, o = Some a → Q a) → does now (some_or_crash o) Q.
Proof. destruct o; intros H; [by apply does_ret, H|apply does_fail]. Qed.

(** Reading a table and writing it back, with what was read out of it. *)
Lemma does_table {T R B} now (get : OAuthState → T) (set : T → OAuthState → OAuthState) (f : T → T * R) (k : R → handler B) Q Q' :
  (∀ s, tables_ok s → change now s (set (f (get s)).1 s) ∧ Q (f (get s)).2) →
  (∀ r, Q r → does now (k r) Q') →
  does now (t ← gets get; let '(t', r) := f t in update (set t');; k r) Q'.
Proof.
  intros Hs Hk s Ht. destruct (Hs s Ht) as [Hc HQ]. unfold mbind, handler_bind, gets, update. destruct (f (get s)) as [t' r].
  cbn [fst snd] in *. destruct (Hk r HQ (set t' s) (change_tables _ _ _ Hc Ht)) as [Hc' HR].
  split; [by eapply rtc_l|done].
Qed.

Lemma does_gets {A} now (f : OAuthState → A) : does now (gets f) (λ _, True).
Proof. intros s _. split; [apply rtc_refl|done]. Qed.

Lemma does_guard now c status code description : does now (refuse_when c status code description) (λ _, True).
Proof. eapply does_mono; [apply does_refuse_when|done]. Qed.

(** Where a response sends the browser: to Google, or to an allowed redirect URI with the
    issuer named. *)
Definition lands (r : Response) : Prop := ∀ u, ("location", u) ∈ rs_headers r →
  (∃ state nonce challenge, u = authorizeUrl state nonce challenge) ∨
  ∃ uri params, uri ∈ oc_allowedRedirectUris config ∧ url_with uri (params ++ [("iss", issuer origin)]) = Some u.

(** A response without a location. *)
Lemma lands_nowhere r : "location" ∉ (rs_headers r).*1 → lands r.
Proof. intros H u Hu. destruct H. apply list_elem_of_fmap. by exists ("location", u). Qed.

Lemma lands_page status title body o : lands (page status title body o).
Proof.
  apply lands_nowhere. unfold page. cbn [rs_headers fmap list_fmap fst]. intros H.
  repeat (apply elem_of_cons in H as [H|H]; [discriminate H|]). by apply elem_of_nil in H.
Qed.

Lemma lands_json status v : lands (json_response status v).
Proof.
  apply lands_nowhere. unfold json_response. cbn [rs_headers fmap list_fmap fst]. intros H.
  repeat (apply elem_of_cons in H as [H|H]; [discriminate H|]). by apply elem_of_nil in H.
Qed.

Lemma lands_with_header h r : h.1 ≠ "location" → lands r → lands (with_header h r).
Proof. intros Hh Hr u [E|Hu]%elem_of_cons; [by subst h|by apply Hr]. Qed.

Lemma lands_at u : (∃ state nonce challenge, u = authorizeUrl state nonce challenge) ∨
    (∃ uri params, uri ∈ oc_allowedRedirectUris config ∧ url_with uri (params ++ [("iss", issuer origin)]) = Some u) →
  lands {| rs_status := 302; rs_headers := [("location", u); ("cache-control", "no-store")]; rs_body := EmptyString |}.
Proof. intros H v [E|[E|E%elem_of_nil]%elem_of_cons]%elem_of_cons; [|discriminate E|done]. injection E as ->. exact H. Qed.

Create HintDb lands discriminated.
#[local] Hint Resolve lands_page lands_json : lands.

Ltac does :=
  repeat match goal with
  | |- does _ (mret _) _ => apply does_ret; auto with lands
  | |- does _ (refuse _ _ _) _ => apply does_fail
  | |- does _ crash _ => apply does_fail
  | |- does _ (access_error _ _ _) _ => apply does_ret; auto with lands
  | |- does _ (audit _ _ ≫= _) _ => apply does_then; [apply does_audit|intros _]
  | |- does _ (draw _ _ ≫= _) _ => apply does_then; [apply does_draw|intros ?]
  | |- does _ (some_or_crash _ ≫= _) _ => eapply does_bind; [apply does_some; intros ? ?; shelve|intros ? _]
  | |- does _ (if ?c then _ else _) _ => destruct c eqn:?
  | |- does _ (match ?o with _ => _ end) _ => destruct o eqn:?
  end.

Lemma redirect_does now uri params : uri ∈ oc_allowedRedirectUris config → does now (redirectWith origin url_with uri params) lands.
Proof.
  intros Hu. unfold redirectWith. eapply does_bind; [by apply (does_some _ _ (λ u, url_with uri (defined params ++ [("iss", issuer origin)]) = Some u))|].
  intros u Hw. apply does_ret, lands_at. right. by exists uri, (defined params).
Qed.

Lemma denied_does now login description : login_ok login → does now (denied origin url_with login description) lands.
Proof. intros [_ [_ Hu]]. by apply redirect_does. Qed.

Lemma register_does now body : does now (register config origin randomToken now body) lands.
Proof. unfold register. does. Qed.

Lemma authorize_client_ok q clientId client profile uri :
  authorize_client config q = Some (clientId, client, profile, uri) →
  known clientId client profile ∧ redirects_to client uri ∧ map_get q "redirect_uri" = Some uri.
Proof.
  unfold authorize_client, includes. destruct (truthy (map_get q "client_id")) as [id|]; [|done]. cbn [mbind option_bind].
  destruct (clientFrom config (Some id)) as [c|] eqn:Ec; [|done]. cbn [mbind option_bind].
  destruct (profileOf config c) as [p|] eqn:Ep; [|done]. cbn [mbind option_bind].
  destruct (map_get q "redirect_uri") as [u|] eqn:Eu; [|done]. cbn [truthy]. destruct (decide (u = EmptyString)); [done|]. cbn [mbind option_bind].
  destruct (bool_decide _ && bool_decide _) eqn:Eb; [|done]. apply andb_true_iff in Eb as [?%bool_decide_eq_true ?%bool_decide_eq_true].
  intros E. by simplify_eq.
Qed.

Lemma authorize_does now q : does now (authorize config origin randomToken url_with authorizeUrl now q) lands.
Proof.
  unfold authorize. destruct (repeated_key _); [does|].
  destruct (authorize_client config q) as [[[[clientId client] profile] uri]|] eqn:Ea; [|does].
  apply authorize_client_ok in Ea as (Hk & Hr & _).
  destruct (authorize_error origin q) as [[error description]|]; [by apply redirect_does, Hr|]. does.
  apply (does_table _ os_logins set_logins (λ t, OneShot.put pl_expiresAt now a _ t) _ (λ _, True)).
  - intros s _. split; [|done]. apply ch_login. split; [by exists profile|done].
  - intros stored _. destruct stored; cbn [negb]; [|by apply redirect_does, Hr]. apply does_ret, lands_at. left. by eexists _, _, _.
Qed.

(** A wait for Google carries the login it was begun with. *)
Definition waits_ok (h : handled) : Prop :=
  match h with Exchanging login _ => login_ok login | Answered r => lands r | NotMine => True end.

Lemma answer_does now m : does now m lands → does now (answer m) waits_ok.
Proof. intros Hm. unfold answer. eapply does_bind; [done|]. intros r Hr. by apply does_ret. Qed.

Lemma googleCallback_does now q : does now (googleCallback origin url_with now q) waits_ok.
Proof.
  unfold googleCallback. apply (does_table _ os_logins set_logins (λ t, OneShot.take pl_expiresAt now _ t) _
    (λ o, ∀ l, o = Some l → login_ok l)).
  - intros s [Hl _ _]. split; [apply ch_end_login|]. intros l Ho.
    destruct (take_ok pl_expiresAt _ now (map_get q "state") _ Hl) as [_ Ht]. by apply Ht in Ho as [? _].
  - intros [login|] Hl; [|apply does_ret, lands_page]. specialize (Hl _ eq_refl). destruct (truthy _).
    + by apply does_ret.
    + by apply answer_does, denied_does.
Qed.

Lemma resume_does now login identity :
  login_ok login → (identity = Some (oc_allowedGoogleSub config) → signed_in md = true) →
  does now (resume config origin randomToken url_with url_origin now login identity) lands.
Proof.
  intros Hl Hm. unfold resume. destruct identity as [sub|]; [|by apply denied_does].
  unfold safeEqual. destruct (negb _) eqn:Hs; to_prop; [does|]. subst sub. apply does_then; [apply does_draw|intros ticket].
  apply (does_table _ os_consents set_consents (λ t, OneShot.put pc_expiresAt now ticket _ t) _ (λ _, True)).
  - intros s _. split; [|done]. apply ch_consent; auto.
  - intros stored _. destruct stored; cbn [negb]; [|by apply redirect_does, Hl].
    eapply does_bind; [by apply (does_some _ _ (λ _, True))|intros target _].
    eapply does_bind; [by apply (does_some _ _ (λ _, True))|intros profile _]. apply does_ret, lands_page.
Qed.

Lemma readBody_does now req : does now (readBody req) (λ _, True).
Proof. unfold readBody. apply does_then; [apply does_guard|]. intros. by apply does_ret. Qed.

(** The form a request carries, if it carries one; reading it looks at nothing else. *)
Definition form_of (req : HttpRequest) : option (list (string * string)) :=
  match (readForm req empty_state).2 with inr form => Some form | inl _ => None end.

Lemma readForm_does now req : does now (readForm req) (λ form, form_of req = Some form).
Proof.
  intros s _. assert (readForm req s = (s, (readForm req empty_state).2)) as ->.
  { unfold readForm, readBody, refuse_when. destruct (content_type req !== _); [done|]. destruct (MAX_FORM_BYTES <? _); [done|].
    unfold mbind, handler_bind, mret, handler_ret. cbn beta iota. by destruct (repeated_key _). }
  split; [apply rtc_refl|]. cbn [snd]. unfold form_of. by destruct (readForm req empty_state).2.
Qed.

(** The [Allow] of the consent page. *)
Definition allows (req : HttpRequest) : bool :=
  match form_of req with Some form => map_get form "decision" === Some "allow" | None => false end.

(** Taking a consent, recording the decision and issuing the code, as one change. *)
Lemma consent_does now req : (allows req = true → allowed md = true) → does now (consent config origin randomToken url_with now req) lands.
Proof.
  intros Hm. unfold consent. destruct (match hr_header req "origin" with Some _ => _ | None => _ end); [apply does_ret, lands_page|].
  eapply does_bind; [apply readForm_does|intros form Hf]. unfold allows in Hm. rewrite Hf in Hm. intros s Hs.
  unfold mbind at 1, handler_bind at 1, gets at 1. cbn beta iota.
  destruct (OneShot.take pc_expiresAt now (map_get form "ticket") (os_consents s)) as [cs o] eqn:Et.
  set (s1 := set_consents cs s). assert (Hc1 : change now s s1).
  { pose proof (ch_end_consent now (map_get form "ticket") s) as H. rewrite Et in H. exact H. }
  pose proof (change_tables _ _ _ Hc1 Hs) as Hs1.
  unfold mbind at 1, handler_bind at 1, update at 1. cbn beta iota. fold s1.
  destruct o as [c|]; [|split; [by apply rtc_once|apply lands_page]].
  assert (Hlogin : login_ok (pc_login c)).
  { destruct (take_ok pc_expiresAt _ now (map_get form "ticket") _ (ok_consents _ Hs)) as [_ Ht]. rewrite Et in Ht. by destruct (Ht c eq_refl) as [[? _] _]. }
  unfold mbind at 1, handler_bind at 1, audit at 1, update at 1. cbn beta iota.
  match goal with |- context [logged ?x s1] => set (e := x) end.
  destruct (map_get form "decision" === Some "allow"); cbn [negb].
  - specialize (Hm eq_refl). unfold draw, gets, update. unfold mbind at 1 2 3, handler_bind at 1 2 3. cbn beta iota. cbn [os_codes drawn].
    set (s3 := set_codes _ _). assert (Hc3 : change now s s3).
    { pose proof (ch_code now (map_get form "ticket") c e s Hm) as H. rewrite Et in H. exact (H eq_refl). }
    apply (yields_after _ _ s3); [by apply rtc_once|]. apply redirect_does; [by apply Hlogin|]. by eapply change_tables.
  - apply (yields_after _ _ (logged e s1)); [eapply rtc_l; [exact Hc1|]; apply rtc_once, ch_log|].
    apply denied_does; [done|]. apply (change_tables now s1); [apply ch_log|done].
Qed.

(** *** The token endpoint *)

(** A token response: for the permitted subject, to a client the server knows, with the scope
    of the client's profile. *)
Definition granted (now : Z) (r : Response) : Prop :=
  ∃ clientId client p fam jti jti', known clientId client p ∧
    r = json_response 200 (token_pair config origin now (oc_allowedGoogleSub config) clientId (pf_scope p) fam jti jti').

Lemma truthy_some o x : truthy o = Some x → o = Some x.
Proof. destruct o as [y|]; [|done]. cbn. destruct (decide _); [done|]. by intros [= ->]. Qed.

Lemma clientFrom_truthy o id : truthy o = Some id → clientFrom config o = clientFrom config (Some id).
Proof. intros H. apply truthy_some in H as E. subst o. unfold clientFrom. by rewrite H. Qed.

Lemma credentials_does now req form : does now (credentials req form) (λ _, True).
Proof.
  unfold credentials. destruct (strip_text _ _) as [basic|]; [|by apply does_ret].
  destruct (cut_at _ _) as [[id secret]|]; [|apply does_fail].
  destruct (decodeURIComponent id), (decodeURIComponent secret); try apply does_fail. by apply does_ret.
Qed.

Lemma authenticateClient_does now req form :
  does now (authenticateClient config req form) (λ ic, clientFrom config (Some ic.1) = Some ic.2).
Proof.
  unfold authenticateClient. apply does_then; [apply credentials_does|intros [clientId secret]].
  destruct (truthy clientId) as [id|] eqn:Et; [|apply does_fail].
  destruct (clientFrom config clientId) as [client|] eqn:Ec; [|apply does_fail].
  apply does_then; [apply does_guard|intros _]. apply does_ret. cbn. by rewrite <- (clientFrom_truthy _ _ Et).
Qed.

Lemma issueTokens_does now sub clientId scope family :
  does now (issueTokens config origin randomToken now sub clientId scope family)
    (λ v, ∃ fam jti jti', v = token_pair config origin now sub clientId scope fam jti jti').
Proof.
  unfold issueTokens. apply does_then; [destruct family; [by apply does_ret|apply does_draw]|intros fam].
  apply does_then; [apply does_draw|intros jti]. apply does_then; [apply does_draw|intros jti']. apply does_ret. by exists fam, jti, jti'.
Qed.

Lemma redeem_code_does now clientId form : does now (redeem_code config origin randomToken now clientId form) (granted now).
Proof.
  unfold redeem_code. apply (does_table _ os_codes set_codes (λ t, OneShot.take ic_expiresAt now (map_get form "code") t) _
    (λ o, ∀ c, o = Some c → code_ok c)).
  - intros s [_ _ Hk]. split; [apply ch_end_code|]. intros c Ho.
    destruct (take_ok ic_expiresAt _ now (map_get form "code") _ Hk) as [_ Ht]. by apply Ht in Ho as [? _].
  - intros [c|] Hc; [|apply does_fail]. destruct (Hc _ eq_refl) as (Hsub & client & p & Hk & Hs & Hr).
    eapply does_bind; [apply does_refuse_when|intros ? Hg]. apply orb_false_iff in Hg as [Hid _]. to_prop. subst clientId.
    apply does_then; [apply does_guard|intros _].
    eapply does_bind; [apply issueTokens_does|intros v (fam & jti & jti' & ->)]. apply does_ret.
    exists (ic_clientId c), client, p, fam, jti, jti'. by rewrite Hsub, Hs.
Qed.

Lemma refresh_does now clientId form : does now (refresh config origin randomToken now clientId form) (granted now).
Proof.
  unfold refresh. apply does_then; [apply does_step; intros s _; split; [apply ch_prune|done]|intros _].
  destruct (TokenSigner.verify _ _ _ _) as [c|]; [|apply does_fail].
  eapply does_bind; [apply does_refuse_when|intros ? Hg]. apply does_then; [apply does_gets|intros revoked].
  eapply does_bind; [apply does_refuse_when|intros ? Hsub]. eapply does_bind; [apply does_refuse_when|intros ? Hp].
  apply orb_false_iff in Hg as [_ Hid]. apply orb_false_iff in Hsub as [Hsub _]. to_prop.
  destruct (clientFrom config (Some clientId)) as [client|] eqn:Ec; [|done]. cbn [mbind option_bind] in Hp.
  destruct (profileOf config client) as [p|] eqn:Ep; [|done]. to_prop.
  intros s Hs. unfold gets. unfold mbind at 1 2, handler_bind at 1 2. cbn beta iota.
  destruct (map_has (os_usedRefresh s) (ac_jti c)) eqn:Hu.
  - unfold update, audit. unfold mbind, handler_bind. cbn beta iota. split; [|done].
    eapply rtc_l; [apply ch_revoke|]. apply rtc_once, ch_log.
  - unfold update. unfold mbind at 1, handler_bind at 1. cbn beta iota.
    assert (Hc : change now s (set_revocation (map_set (os_usedRefresh s) (ac_jti c) (ac_exp c)) (os_revokedFamilies s) s)) by (by apply ch_use).
    apply (yields_after _ _ _ _ _ (rtc_once _ _ Hc)).
    apply (does_bind now _ _ (λ v, ∃ fam jti jti', v = token_pair config origin now (ac_sub c) clientId (ac_scope c) fam jti jti'));
      [apply issueTokens_does| |by eapply change_tables].
    intros v (fam & jti & jti' & ->). apply does_ret. exists clientId, client, p, fam, jti, jti'. by rewrite Hsub, Hp.
Qed.

Lemma token_does now req : does now (token config origin randomToken now req) (granted now).
Proof.
  unfold token. eapply does_bind; [apply readForm_does|intros form _].
  apply does_then; [eapply does_mono; [apply authenticateClient_does|done]|intros [clientId client]].
  apply does_then; [apply does_guard|intros _].
  destruct (_ === Some "authorization_code"); [apply redeem_code_does|].
  destruct (_ === Some "refresh_token"); [apply refresh_does|apply does_fail].
Qed.

(** The consent page's [Allow] arrives on its route only. *)
Definition allowing (req : HttpRequest) : bool :=
  (hr_method req +:+ " " +:+ hr_path req === "POST /oauth/consent") && allows req.

Lemma dispatch_does now req : (allowing req = true → allowed md = true) →
  does now (dispatch config origin randomToken url_with authorizeUrl now req) waits_ok.
Proof.
  intros Hm. unfold dispatch. destruct (_ || _); [apply does_ret, lands_json|]. destruct (_ || _); [apply does_ret, lands_json|].
  repeat case_bool_decide; try (apply answer_does); try (by apply does_ret).
  - unfold register_route. apply does_then; [apply does_guard|intros _]. apply does_then; [apply readBody_does|intros body].
    destruct (JSON_parse body); [apply register_does|apply does_fail].
  - apply authorize_does.
  - apply googleCallback_does.
  - apply consent_does. intros Ha. apply Hm. unfold allowing. by rewrite bool_decide_true.
  - eapply does_mono; [apply token_does|]. intros r (? & ? & ? & ? & ? & ? & _ & ->). apply lands_json.
Qed.

Lemma caught_yields now s x :
  yields now s waits_ok x → changes now s (caught x).1 ∧ waits_ok (caught x).2.
Proof.
  destruct x as [s' [[status code description|]|h]]; cbn; intros [? ?]; (split; [done|]); auto with lands.
  destruct (status =? 401); [by apply lands_with_header, lands_json|apply lands_json].
Qed.

Lemma handle_does now req s : (allowing req = true → allowed md = true) → tables_ok s →
  let '(s', h) := handle config origin randomToken url_with authorizeUrl now req s in changes now s s' ∧ waits_ok h.
Proof.
  intros Hm Hs. rewrite (surjective_pairing (handle _ _ _ _ _ _ _ _)). unfold handle.
  destruct (strip_text _ _); [|by apply caught_yields, dispatch_does].
  destruct (RateLimiter.check _ _ _ _ _) as [ws [|rule retry]].
  - assert (Hc : change now s (set_windows ws s)) by apply ch_windows.
    apply caught_yields, (yields_after _ _ _ _ _ (rtc_once _ _ Hc)), dispatch_does; [done|]. by eapply change_tables.
  - cbn [fst snd]. split; [|by apply lands_with_header, lands_json]. eapply rtc_l; [apply ch_windows|]. apply rtc_once, ch_log.
Qed.

Lemma handle_resumed_does now login identity s : tables_ok s → login_ok login →
  (identity = Some (oc_allowedGoogleSub config) → signed_in md = true) →
  let '(s', h) := handle_resumed config origin randomToken url_with url_origin now login identity s in changes now s s' ∧ waits_ok h.
Proof.
  intros Hs Hl Hm. rewrite (surjective_pairing (handle_resumed _ _ _ _ _ _ _ _ _)). unfold handle_resumed.
  by apply caught_yields, answer_does; [apply resume_does|].
Qed.

Lemma verifyAccess_does now authorization s : changes now s (verifyAccess config origin now authorization s).1.
Proof.
  unfold verifyAccess. destruct (bearer _); [|apply rtc_refl]. destruct (TokenSigner.verify _ _ _ _); [|apply rtc_refl].
  destruct (_ || _); [apply rtc_refl|]. destruct (_ !== _); [apply rtc_refl|].
  destruct (map_has _ _); apply rtc_once, ch_prune.
Qed.
End protocol.

(** ** The server over time *)
Section system.
Context (config : OAuthConfig) (origin : string) (randomToken : nat → Z → string).
Context (url_with : string → list (string * string) → option string) (url_origin : string → option string)
  (authorizeUrl : string → string → string → string).

(** The server, and the sign-ins that wait for Google. *)
Record sys := { sy_state : OAuthState; sy_waiting : list PendingLogin }.

(** A request, Google's answer to one of those that wait, or the check of a bearer. *)
Inductive event :=
  | Ev_request (now : Z) (req : HttpRequest)
  | Ev_google (now : Z) (i : nat) (identity : option string)
  | Ev_verify (now : Z) (authorization : option string).

Definition ev_now (e : event) : Z := match e with Ev_request now _ => now | Ev_google now _ _ => now | Ev_verify now _ => now end.

Definition waiting_for (h : handled) : list PendingLogin := match h with Exchanging login _ => [login] | _ => [] end.

Definition sys_step (sy : sys) (e : event) : sys :=
  match e with
  | Ev_request now req =>
      let '(s, h) := handle config origin randomToken url_with authorizeUrl now req (sy_state sy) in
      {| sy_state := s; sy_waiting := sy_waiting sy ++ waiting_for h |}
  | Ev_google now i identity =>
      match sy_waiting sy !! i with
      | Some login =>
          {| sy_state := (handle_resumed config origin randomToken url_with url_origin now login identity (sy_state sy)).1;
             sy_waiting := delete i (sy_waiting sy) |}
      | None => sy
      end
  | Ev_verify now authorization =>
      {| sy_state := (verifyAccess config origin now authorization (sy_state sy)).1; sy_waiting := sy_waiting sy |}
  end.

Definition sys_run (events : list event) (sy : sys) : sys := fold_left sys_step events sy.
Definition started : sys := {| sy_state := empty_state; sy_waiting := [] |}.

Lemma sys_run_snoc events e sy : sys_run (events ++ [e]) sy = sys_step (sys_run events sy) e.
Proof. unfold sys_run. by rewrite fold_left_app. Qed.

Definition sys_ok (sy : sys) : Prop := tables_ok config (sy_state sy) ∧ Forall (login_ok config) (sy_waiting sy).

(** Google said the permitted subject signed in; the human chose [Allow]. *)
Definition signs_in (e : event) : bool :=
  match e with Ev_google _ _ identity => identity === Some (oc_allowedGoogleSub config) | _ => false end.
Definition allows_code (e : event) : bool := match e with Ev_request _ req => allowing req | _ => false end.

Definition mode_of (e : event) : mode := {| signed_in := signs_in e; allowed := allows_code e |}.

(** An event is a sequence of changes of its mode, at its time. *)
Lemma step_changes sy e : sys_ok sy →
  changes config randomToken (mode_of e) (ev_now e) (sy_state sy) (sy_state (sys_step sy e)) ∧ sys_ok (sys_step sy e).
Proof.
  intros [Ht Hw]. assert (H : changes config randomToken (mode_of e) (ev_now e) (sy_state sy) (sy_state (sys_step sy e)) ∧
    Forall (login_ok config) (sy_waiting (sys_step sy e))).
  { destruct e as [now req|now i identity|now authorization]; cbn [sys_step ev_now].
    - pose proof (handle_does config origin randomToken url_with authorizeUrl (mode_of (Ev_request now req)) now req (sy_state sy) (λ H, H) Ht) as H.
      destruct (handle _ _ _ _ _ _ _ _) as [s h]. destruct H as [Hc Hh]. cbn [sy_state sy_waiting]. split; [done|].
      apply Forall_app. split; [done|]. destruct h; constructor; try done.
    - destruct (sy_waiting sy !! i) as [login|] eqn:Ei; [|split; [apply rtc_refl|done]]. cbn [sy_state sy_waiting]. split.
      + pose proof (handle_resumed_does config origin randomToken url_with url_origin authorizeUrl (mode_of (Ev_google now i identity)) now login identity
          (sy_state sy) Ht) as H. destruct (handle_resumed _ _ _ _ _ _ _ _ _) as [s h]. apply H; [by eapply Forall_lookup_1|].
        intros ->. cbn. by rewrite bool_decide_true.
      + by apply Forall_delete.
    - cbn [sy_state sy_waiting]. split; [apply verifyAccess_does|done]. }
  destruct H as [Hc Hf]. split; [done|]. split; [by eapply changes_tables|done].
Qed.

Lemma started_ok : sys_ok started.
Proof. split; [|constructor]. constructor; split_and!; try constructor; simpl; unfold MAX_PENDING; lia. Qed.

Lemma sys_run_ok events sy : sys_ok sy → sys_ok (sys_run events sy).
Proof. revert sy. induction events as [|e events IH]; intros sy Hs; [done|]. by apply IH, step_changes. Qed.

(** A property every change keeps holds after a run. *)
Lemma run_keeps (P : OAuthState → Prop) events : ∀ sy,
  (∀ e s s', e ∈ events → tables_ok config s → change config randomToken (mode_of e) (ev_now e) s s' → P s → P s') →
  sys_ok sy → P (sy_state sy) → P (sy_state (sys_run events sy)).
Proof.
  induction events as [|e events IH]; intros sy HP Hok H; [done|]. destruct (step_changes sy e Hok) as [Hc Hok'].
  apply (IH (sys_step sy e)); [|done|].
  - intros e' s s' He. apply HP. by right.
  - assert (Hstep : ∀ s s', tables_ok config s → change config randomToken (mode_of e) (ev_now e) s s' → P s → P s')
      by (intros s s'; apply HP; by left).
    destruct Hok as [Ht _]. clear HP Hok' IH. induction Hc as [|s s1 s2 H1 _ IH]; [done|].
    apply IH; [by eapply change_tables|by apply (Hstep s)].
Qed.

(** *** What is pending is authorised *)

(** At every moment, whatever was requested before: a sign-in in progress belongs to a client
    the server signed, has the scope of the one profile its redirect URIs resolve to and goes
    back to one of the client's own URIs that is still allowed; a pending consent is moreover
    for the permitted Google subject, and so is every authorisation code, with that scope and
    one of those URIs; none of the three tables holds more than 1000 entries, or two under one
    key. And every token pair the token endpoint grants is for the permitted subject, to a
    client the server signed, with exactly its profile's scope. *)
Theorem pending_is_authorised events :
  let s := sy_state (sys_run events started) in
  tables_ok config s ∧
  ∀ now req r, (token config origin randomToken now req s).2 = inr r → granted config origin now r.
Proof.
  intros s. destruct (sys_run_ok events started started_ok) as [Ht _]. split; [done|]. intros now req r Hr.
  destruct (token_does config origin randomToken {| signed_in := false; allowed := false |} now req s Ht) as [_ H]. by rewrite Hr in H.
Qed.

(** C20: No open redirector: whatever arrives at a reachable server, and whatever Google answers
    for a sign-in in progress, a response that carries a location sends the browser to Google
    or to a redirect URI on the deployment's allow-list, with the issuer as a parameter. *)
Theorem redirects_stay_on_the_list events :
  let sy := sys_run events started in
  (∀ now req r, (handle config origin randomToken url_with authorizeUrl now req (sy_state sy)).2 = Answered r →
     lands config origin url_with authorizeUrl r) ∧
  (∀ now i login identity r, sy_waiting sy !! i = Some login →
     (handle_resumed config origin randomToken url_with url_origin now login identity (sy_state sy)).2 = Answered r →
     lands config origin url_with authorizeUrl r).
Proof.
  intros sy. destruct (sys_run_ok events started started_ok) as [Ht Hw]. split.
  - intros now req r Hr. pose proof (handle_does config origin randomToken url_with authorizeUrl {| signed_in := true; allowed := true |} now req
      (sy_state sy) (λ _, eq_refl) Ht) as H. destruct (handle _ _ _ _ _ _ _ _) as [s h]. cbn [snd] in Hr. subst h. apply H.
  - intros now i login identity r Hi Hr. pose proof (handle_resumed_does config origin randomToken url_with url_origin authorizeUrl
      {| signed_in := true; allowed := true |} now login identity (sy_state sy) Ht (Forall_lookup_1 _ _ _ _ Hw Hi) (λ _, eq_refl)) as H.
    destruct (handle_resumed _ _ _ _ _ _ _ _ _) as [s h]. cbn [snd] in Hr. subst h. apply H.
Qed.

(** *** No code without a sign-in and an [Allow] *)

Lemma take_nil {T} (expiresAt : T → Z) now key : OneShot.take expiresAt now key [] = ([], None).
Proof. unfold OneShot.take. by destruct (truthy key). Qed.

Lemma change_no_consent md now s s' : change config randomToken md now s s' → signed_in md = false →
  os_consents s = [] → os_consents s' = [].
Proof.
  intros Hc Hm Hs. destruct Hc; cbn [os_consents drawn logged set_windows set_logins set_consents set_codes set_revocation pruneRefresh];
    try done; [congruence|by rewrite Hs, take_nil|subst s1; cbn; by rewrite Hs, take_nil].
Qed.

Lemma change_no_code md now s s' : change config randomToken md now s s' → allowed md = false ∨ os_consents s = [] →
  os_codes s = [] → os_codes s' = [].
Proof.
  intros Hc Hm Hs. destruct Hc as [| | | | | | |ticket c e s Ha Ht| | | |];
    cbn [os_codes drawn logged set_windows set_logins set_consents set_codes set_revocation pruneRefresh]; try done.
  - exfalso. destruct Hm as [Hm|Hm]; [congruence|]. by rewrite Hm, take_nil in Ht.
  - by rewrite Hs, take_nil.
Qed.

Lemma consents_need_sign_in events :
  os_consents (sy_state (sys_run events started)) ≠ [] → ∃ e, e ∈ events ∧ signs_in e = true.
Proof.
  intros Hne. destruct (existsb signs_in events) eqn:Ex.
  { apply existsb_exists in Ex as (e & He & Hs). exists e. split; [by apply list_elem_of_In|done]. }
  destruct Hne. apply run_keeps; [|apply started_ok|done]. intros e s s' He _ Hc Hs. apply (change_no_consent _ _ _ _ Hc); [|done].
  cbn. destruct (signs_in e) eqn:E; [|done].
  assert (existsb signs_in events = true) by (apply existsb_exists; exists e; by rewrite <- list_elem_of_In). congruence.
Qed.

(** C16: An authorisation code exists only when the human chose [Allow] on the consent page, and
    before that Google confirmed that the permitted subject had signed in. *)
Theorem codes_need_consent events :
  os_codes (sy_state (sys_run events started)) ≠ [] →
  ∃ pre allow post sign_in, events = pre ++ allow :: post ∧ allows_code allow = true ∧ sign_in ∈ pre ∧ signs_in sign_in = true.
Proof.
  induction events as [|e events IH] using rev_ind; [done|]. rewrite sys_run_snoc. intros Hne.
  destruct (decide (os_codes (sy_state (sys_run events started)) = [])) as [Hnil|Hold].
  - pose proof (sys_run_ok events started started_ok) as Hok.
    assert (Hone : ∀ P : OAuthState → Prop, (∀ s s', change config randomToken (mode_of e) (ev_now e) s s' → P s → P s') →
      P (sy_state (sys_run events started)) → P (sy_state (sys_step (sys_run events started) e))).
    { intros P HP. apply (run_keeps P [e] (sys_run events started)); [|done]. intros e' s s' ->%list_elem_of_singleton _. apply HP. }
    destruct (allows_code e) eqn:Ea.
    + destruct (decide (os_consents (sy_state (sys_run events started)) = [])) as [Hc|(x & Hx & Hs)%consents_need_sign_in].
      * destruct Hne. apply (Hone (λ s, os_codes s = [] ∧ os_consents s = [])); [|done]. intros s s' H [Hk Hn].
        split; [apply (change_no_code _ _ _ _ H); auto|apply (change_no_consent _ _ _ _ H); [|done]]. by destruct e.
      * by exists events, e, [], x.
    + destruct Hne. apply (Hone (λ s, os_codes s = [])); [|done]. intros s s' H. apply (change_no_code _ _ _ _ H). by left.
  - destruct (IH Hold) as (pre & allow & post & sign_in & -> & Ha & Hs & Hsi). exists pre, allow, (post ++ [e]), sign_in.
    split_and!; try done. by rewrite <- app_assoc.
Qed.
End system.
