(* ===== verification/OAuthOnce.v ===== *)
(** * What is used once, and what is revoked

    Over the runs of OAuthFacts.v: an authorisation code is redeemed at most once; a refresh
    token presented a second time kills its family for good; what [verifyAccess] accepts, and
    that a token just issued is accepted. *)

From S2P Require Import Prelude JsNumber JsDate Digest Contracts Plan Capability Json Mission Codec OAuthTokens RateLimit OAuthServer.
From S2P Require Import OAuthTokenFacts OAuthFacts.
Local Open Scope Z_scope.
Local Open Scope js_scope.

#[local] Arguments TokenSigner.verify : simpl never.
#[local] Arguments TokenSigner.sign : simpl never.
#[local] Arguments profileFor : simpl never.

Section once.
Context (config : OAuthConfig) (origin : string) (randomToken : nat → Z → string).
Context (url_with : string → list (string * string) → option string) (url_origin : string → option string)
  (authorizeUrl : string → string → string → string).

Local Abbreviation run := (sys_run config origin randomToken url_with url_origin authorizeUrl).
Local Abbreviation step := (sys_step config origin randomToken url_with url_origin authorizeUrl).
Local Abbreviation handled_by := (handle config origin randomToken url_with authorizeUrl).

(** ** Codes are redeemed once *)

(** The request is a token request with this code, and was answered with tokens. *)
Definition redeems (code : string) (now : Z) (req : HttpRequest) (s : OAuthState) : Prop :=
  hr_method req = "POST" ∧ hr_path req = "/oauth/token" ∧
  (∃ form, form_of req = Some form ∧ map_get form "grant_type" = Some "authorization_code" ∧ map_get form "code" = Some code) ∧
  ∃ r, (handled_by now req s).2 = Answered r ∧ rs_status r = 200.

(** The refusals of the token endpoint have statuses of their own. *)
Definition refuses {A} (m : handler A) : Prop :=
  ∀ s, match (m s).2 with inl (OAuthError status _ _) => status ≠ 200 | _ => True end.

Lemma refuses_bind {A B} (m : handler A) (f : A → handler B) : refuses m → (∀ a, refuses (f a)) → refuses (m ≫= f).
Proof.
  intros Hm Hf s. unfold mbind, handler_bind. specialize (Hm s). destruct (m s) as [s1 [[status code description|]|a]]; cbn in *; [done|done|apply Hf].
Qed.

Lemma refuses_ok {A} (f : OAuthState → OAuthState * A) : refuses (λ s, ((f s).1, inr (f s).2)).
Proof. by intros s. Qed.

Lemma refuses_ret {A} (a : A) : refuses (mret a).
Proof. by intros s. Qed.

Lemma refuses_refuse {A} status code description : status ≠ 200 → refuses (refuse status code description : handler A).
Proof. by intros H s. Qed.

Lemma refuses_when c status code description : status ≠ 200 → refuses (refuse_when c status code description).
Proof. intros H s. by destruct c. Qed.

Ltac refuses :=
  repeat match goal with
  | |- refuses (_ ≫= _) => apply refuses_bind; [|intros ?]
  | |- refuses (mret _) => apply refuses_ret
  | |- refuses (refuse _ _ _) => apply refuses_refuse; lia
  | |- refuses (refuse_when _ _ _ _) => apply refuses_when; lia
  | |- refuses (gets _) => done
  | |- refuses (update _) => done
  | |- refuses (audit _ _) => done
  | |- refuses (draw _ _) => done
  | |- refuses crash => done
  | |- refuses (if ?c then _ else _) => destruct c
  | |- refuses (match ?o with _ => _ end) => destruct o
  end.

Lemma token_refuses now req : refuses (token config origin randomToken now req).
Proof.
  unfold token, readForm, readBody, authenticateClient, credentials. refuses.
  - unfold redeem_code, issueTokens. refuses.
  - unfold refresh, issueTokens. refuses.
Qed.

(** A token request answered 200 ran the token endpoint, past the limiter, to its end. *)
Lemma answered_token now req s r s' :
  hr_method req = "POST" → hr_path req = "/oauth/token" → handled_by now req s = (s', Answered r) → rs_status r = 200 →
  ∃ ws, token config origin randomToken now req (set_windows ws s) = (s', inr r).
Proof.
  intros Hm Hp. unfold handle. rewrite Hp. change (strip_text "/oauth/" "/oauth/token") with (Some "token"). cbv match.
  destruct (RateLimiter.check _ _ _ _ _) as [ws [|rule retry]]; [|intros E H200; injection E as <- <-; discriminate H200].
  intros Hc H200. exists ws. unfold dispatch in Hc. rewrite Hm, Hp in Hc.
  rewrite !bool_decide_false in Hc by (vm_compute; discriminate). cbn [orb] in Hc.
  rewrite bool_decide_true in Hc by (vm_compute; reflexivity).
  unfold answer, mbind, handler_bind in Hc. pose proof (token_refuses now req (set_windows ws s)) as Hr.
  destruct (token _ _ _ _ _ _) as [s1 [[status code description|]|r1]]; cbn [caught fst snd] in *.
  - injection Hc as <- <-. exfalso. apply Hr. by destruct (status =? 401).
  - by injection Hc as <- <-.
  - by injection Hc as <- <-.
Qed.

Lemma hbind_ok {A B} (m : handler A) (f : A → handler B) s s' b :
  (m ≫= f) s = (s', inr b) → ∃ a s1, m s = (s1, inr a) ∧ f a s1 = (s', inr b).
Proof. unfold mbind, handler_bind. destruct (m s) as [s1 [|a]]; [done|]. by exists a, s1. Qed.

Lemma when_ok c status code description s s' u : refuse_when c status code description s = (s', inr u) → s' = s ∧ c = false.
Proof. destruct c; [done|]. by intros [= <-]. Qed.

Lemma readForm_ok req s s' form : readForm req s = (s', inr form) → s' = s ∧ form_of req = Some form.
Proof.
  intros H.
  assert (readForm req s = (s, (readForm req empty_state).2)) as E.
  { unfold readForm, readBody, refuse_when. destruct (content_type req !== _); [done|]. destruct (MAX_FORM_BYTES <? _); [done|].
    unfold mbind, handler_bind, mret, handler_ret. cbn beta iota. by destruct (repeated_key _). }
  rewrite E in H. injection H as <- H. split; [done|]. unfold form_of. by rewrite H.
Qed.

Lemma authenticateClient_ok req form s s' ic : authenticateClient config req form s = (s', inr ic) → s' = s.
Proof.
  unfold authenticateClient, credentials. intros ([clientId secret] & s1 & H1 & H2)%hbind_ok.
  assert (s1 = s) as ->.
  { destruct (strip_text _ _) as [basic|]; [|by injection H1]. destruct (cut_at _ _) as [[id sec]|]; [|done].
    destruct (decodeURIComponent id), (decodeURIComponent sec); try done. by injection H1. }
  destruct (truthy clientId); [|done]. destruct (clientFrom config clientId); [|done].
  apply hbind_ok in H2 as (? & ? & [-> _]%when_ok & H2). by injection H2.
Qed.

Lemma issueTokens_ok now sub clientId scope family s s' v :
  issueTokens config origin randomToken now sub clientId scope family s = (s', inr v) →
  os_codes s' = os_codes s ∧ (os_draws s ≤ os_draws s')%nat ∧ os_usedRefresh s' = os_usedRefresh s ∧
  os_revokedFamilies s' = os_revokedFamilies s.
Proof. unfold issueTokens. destruct family; intros H; injection H as <- <-; cbn [os_codes os_draws os_usedRefresh os_revokedFamilies drawn]; repeat split; lia. Qed.

(** A code was redeemed: what the request proved, and what is left. *)
Lemma redeemed_code now req s s' r form code :
  token config origin randomToken now req s = (s', inr r) → form_of req = Some form →
  map_get form "grant_type" = Some "authorization_code" → map_get form "code" = Some code →
  ∃ issued verifier, (OneShot.take ic_expiresAt now (Some code) (os_codes s)).2 = Some issued ∧
    os_codes s' = (OneShot.take ic_expiresAt now (Some code) (os_codes s)).1 ∧ (os_draws s ≤ os_draws s')%nat ∧
    map_get form "redirect_uri" = Some (ic_redirectUri issued) ∧ map_get form "code_verifier" = Some verifier ∧
    pkceChallenge verifier = ic_codeChallenge issued.
Proof.
  unfold token. intros (form' & s1 & [-> Hf]%readForm_ok & H)%hbind_ok Hform Hg Hc. rewrite Hform in Hf. injection Hf as <-.
  apply hbind_ok in H as ([clientId client] & ? & ->%authenticateClient_ok & H).
  apply hbind_ok in H as (? & ? & [-> _]%when_ok & H). rewrite Hg, bool_decide_true in H by done.
  unfold redeem_code in H. rewrite Hc in H. unfold mbind at 1, handler_bind at 1, gets at 1 in H. cbn beta iota in H.
  destruct (OneShot.take ic_expiresAt now (Some code) (os_codes s)) as [codes' o]. cbn [fst snd].
  unfold mbind at 1, handler_bind at 1, update at 1 in H. cbn beta iota in H.
  destruct o as [issued|]; [|done]. apply hbind_ok in H as (? & ? & [-> Hr]%when_ok & H).
  apply hbind_ok in H as (? & ? & [-> Hv]%when_ok & H). apply hbind_ok in H as (v & s2 & Hi & H). injection H as -> _.
  apply issueTokens_ok in Hi as (Hk & Hd & _ & _). apply orb_false_iff in Hr as [_ Hr].
  destruct (map_get form "code_verifier") as [verifier|]; [|discriminate Hv]. exists issued, verifier.
  unfold safeEqual in Hv. apply negb_false_iff, andb_true_iff in Hv as [_ Hv]. to_prop. symmetry in Hr.
  split; [reflexivity|]. split; [exact Hk|]. split; [exact Hd|]. split; [exact Hr|]. by split.
Qed.

(** Every code's key was drawn. *)
Definition code_keys_drawn (s : OAuthState) : Prop :=
  ∀ k, k ∈ map_keys (os_codes s) → ∃ n, (n < os_draws s)%nat ∧ k = randomToken n 32.

(** A key that was drawn and is not in the store. *)
Definition spent (code : string) (s : OAuthState) : Prop :=
  code ∉ map_keys (os_codes s) ∧ ∃ n, (n < os_draws s)%nat ∧ code = randomToken n 32.

Lemma change_code_keys md now s s' : change config randomToken md now s s' → code_keys_drawn s → code_keys_drawn s'.
Proof.
  unfold code_keys_drawn. intros Hc H k. destruct Hc as [| | | | | | |ticket c e s Ha Ht s1| | | |]; try subst s1; cbn [os_codes os_draws drawn logged set_windows set_logins set_consents set_codes set_revocation pruneRefresh];
    try (apply H).
  - intros (n & Hn & E)%H. exists n. split; [lia|done].
  - intros [->|(n & Hn & E)%H]%put_keys; [exists (os_draws s)|exists n]; (split; [lia|done]).
  - intros Hk%take_keys. by apply H.
Qed.

Lemma change_spent md now s s' code :
  (∀ n n', randomToken n 32 = randomToken n' 32 → n = n') → change config randomToken md now s s' → spent code s → spent code s'.
Proof.
  intros Hinj Hc [Hout (n & Hn & E)]. unfold spent.
  destruct Hc as [| | | | | | |ticket c e s Ha Ht s1| | | |]; try subst s1; cbn [os_codes os_draws drawn logged set_windows set_logins set_consents set_codes set_revocation pruneRefresh];
    try (split; [done|exists n; split; [lia|done]]).
  - split; [|exists n; split; [lia|done]]. intros [Hk|Hk]%put_keys; [|done].
    rewrite E in Hk. apply Hinj in Hk. lia.
  - split; [by intros Hk%take_keys|by exists n].
Qed.

Lemma take_found now code items (c : IssuedCode) : (OneShot.take ic_expiresAt now (Some code) items).2 = Some c →
  (code, c) ∈ items ∧ now < ic_expiresAt c.
Proof.
  unfold OneShot.take. destruct (truthy (Some code)) as [k|] eqn:Ek; [|done]. apply truthy_some in Ek. injection Ek as <-.
  cbn [snd]. destruct (map_get _ code) as [c'|] eqn:Ec; [|done]. destruct (Z.ltb_spec now (ic_expiresAt c')); [|done].
  intros [= ->]. split; [by apply map_get_elem|done].
Qed.

(** A request that redeems a code: what it proved, and what it leaves. *)
Lemma redeems_ok code now req s s' h : redeems code now req s → handled_by now req s = (s', h) →
  ∃ form issued verifier, form_of req = Some form ∧ (OneShot.take ic_expiresAt now (Some code) (os_codes s)).2 = Some issued ∧
    os_codes s' = (OneShot.take ic_expiresAt now (Some code) (os_codes s)).1 ∧ (os_draws s ≤ os_draws s')%nat ∧
    map_get form "redirect_uri" = Some (ic_redirectUri issued) ∧ map_get form "code_verifier" = Some verifier ∧
    pkceChallenge verifier = ic_codeChallenge issued.
Proof.
  intros (Hm & Hp & (form & Hf & Hg & Hcode) & r & Hr & H200) Eh. rewrite Eh in Hr. cbn [snd] in Hr. subst h.
  destruct (answered_token _ _ _ _ _ Hm Hp Eh H200) as (ws & Ht).
  destruct (redeemed_code _ _ _ _ _ _ _ Ht Hf Hg Hcode) as (issued & verifier & H). by exists form, issued, verifier.
Qed.

(** C17: A code is good for one token response. Suppose the server's random tokens do not repeat.
    When a request redeems a code, its verifier hashes to the challenge the sign-in began with
    and its redirect URI is that of the sign-in; and after it, whatever else is requested, no
    request redeems that code again. *)
Theorem code_redeemed_once events1 events2 now1 req1 now2 req2 code :
  (∀ n n', randomToken n 32 = randomToken n' 32 → n = n') →
  let sy := run events1 started in
  redeems code now1 req1 (sy_state sy) →
  (∃ form issued verifier, form_of req1 = Some form ∧ (code, issued) ∈ os_codes (sy_state sy) ∧ now1 < ic_expiresAt issued ∧
     map_get form "redirect_uri" = Some (ic_redirectUri issued) ∧ map_get form "code_verifier" = Some verifier ∧
     pkceChallenge verifier = ic_codeChallenge issued) ∧
  ¬ redeems code now2 req2 (sy_state (run events2 (step sy (Ev_request now1 req1)))).
Proof.
  intros Hinj sy H1. assert (Hok : sys_ok config sy) by (apply sys_run_ok, started_ok).
  assert (Hdrawn : code_keys_drawn (sy_state sy)).
  { apply (run_keeps config origin randomToken url_with url_origin authorizeUrl code_keys_drawn events1 started); [|apply started_ok|by intros k ?%elem_of_nil].
    intros e s s' _ _ Hc. by apply (change_code_keys _ _ _ _ Hc). }
  destruct (handled_by now1 req1 (sy_state sy)) as [s1 h] eqn:Eh.
  destruct (redeems_ok _ _ _ _ _ _ H1 Eh) as (form & issued & verifier & Hf & Htake & Hcodes & Hdraws & Hred & Hver & Hpk).
  destruct (take_found _ _ _ _ Htake) as [Hin Hexp]. split; [by exists form, issued, verifier|].
  assert (Hspent : spent code (sy_state (step sy (Ev_request now1 req1)))).
  { assert (sy_state (step sy (Ev_request now1 req1)) = s1) as -> by (cbn [sys_step]; by rewrite Eh).
    split; [rewrite Hcodes; apply (take_gone _ _ _ _ issued); [|done]; apply Hok|].
    destruct (Hdrawn code) as (n & Hn & E); [apply list_elem_of_fmap; by exists (code, issued)|]. exists n. split; [lia|done]. }
  assert (Hlater : spent code (sy_state (run events2 (step sy (Ev_request now1 req1))))).
  { apply run_keeps; [|by apply step_changes|done]. intros e s s' _ _ Hc. by apply (change_spent _ _ _ _ _ Hinj Hc). }
  intros H2. destruct (handled_by now2 req2 (sy_state (run events2 (step sy (Ev_request now1 req1))))) as [s2 h2] eqn:Eh2.
  destruct (redeems_ok _ _ _ _ _ _ H2 Eh2) as (? & c & ? & _ & Htake2 & _). destruct Hlater as [Hout _]. apply Hout.
  apply list_elem_of_fmap. exists (code, c). split; [done|]. by apply (take_found now2).
Qed.

(** ** Revocation *)

(** Runs whose clock does not go back, from [now] to [last]. *)
Fixpoint clocked (now : Z) (events : list event) (last : Z) : Prop :=
  match events with
  | [] => now ≤ last
  | e :: events' => now ≤ ev_now e ∧ clocked (ev_now e) events' last
  end.

(** A property that time keeps and every change keeps, holds at the end of a run. *)
Lemma clocked_keeps (P : Z → OAuthState → Prop) events : ∀ now last sy,
  (∀ t t' s, t ≤ t' → P t s → P t' s) →
  (∀ t md s s', now ≤ t → change config randomToken md t s s' → P t s → P t s') →
  sys_ok config sy → clocked now events last → P now (sy_state sy) → P last (sy_state (run events sy)).
Proof.
  induction events as [|e events IH]; intros now last sy Ht HP Hok Hc H; [by eapply Ht|]. destruct Hc as [Hle Hc].
  apply (IH (ev_now e)); [done| |by apply step_changes|done|].
  - intros t md s s' Hte. apply HP. lia.
  - change (step sy e) with (run [e] sy). apply (run_keeps _ _ _ _ _ _ (P (ev_now e))); [|done|by eapply Ht].
    intros e' s s' ->%list_elem_of_singleton _. by apply HP.
Qed.

Lemma map_get_filter {V} (p : string * V → bool) (m : list (string * V)) k v :
  map_get m k = Some v → p (k, v) = true → map_get (List.filter p m) k = Some v.
Proof.
  intros Hk Hp. induction m as [|[j w] m IH]; [done|]. cbn [map_get] in Hk. cbn [List.filter].
  case_bool_decide as Hj.
  - subst j. injection Hk as ->. rewrite Hp. cbn. by rewrite bool_decide_true.
  - destruct (p (j, w)); cbn [map_get]; [rewrite bool_decide_false by done|]; auto.
Qed.

Definition revoked_until (fam : string) (until now : Z) (s : OAuthState) : Prop :=
  seconds now < until → ∃ t, map_get (os_revokedFamilies s) fam = Some t ∧ until ≤ t.

Definition used_until (jti : string) (exp now : Z) (s : OAuthState) : Prop :=
  seconds now < exp → map_get (os_usedRefresh s) jti = Some exp.

Lemma seconds_mono t t' : t ≤ t' → seconds t ≤ seconds t'.
Proof. intros H. apply Z.div_le_mono; lia. Qed.

Lemma change_revoked fam until t md s s' : until ≤ seconds t + REFRESH_TTL_S → change config randomToken md t s s' →
  revoked_until fam until t s → revoked_until fam until t s'.
Proof.
  unfold revoked_until. intros Hu Hc H Hlt. specialize (H Hlt) as (u & Hg & Hle).
  destruct Hc; cbn [os_revokedFamilies drawn logged set_windows set_logins set_consents set_codes set_revocation pruneRefresh]; eauto.
  - exists u. split; [|done]. apply map_get_filter; [done|]. unfold expired. cbn. lia.
  - rewrite map_get_set. case_bool_decide as Hf; [|eauto]. by exists (seconds t + REFRESH_TTL_S).
Qed.

Lemma change_used jti exp t md s s' : change config randomToken md t s s' → used_until jti exp t s → used_until jti exp t s'.
Proof.
  unfold used_until. intros Hc H Hlt. specialize (H Hlt).
  destruct Hc as [| | | | | | | | | |j x s Hn|]; cbn [os_usedRefresh drawn logged set_windows set_logins set_consents set_codes set_revocation pruneRefresh]; try done.
  - apply map_get_filter; [done|]. unfold expired. cbn. lia.
  - rewrite map_get_set_ne; [done|]. intros ->. unfold map_has in Hn. by rewrite H in Hn.
Qed.

(** The request presents this refresh token for its own client, at the token endpoint. *)
Definition presents (c : AccessClaims) (req : HttpRequest) : Prop :=
  ∃ form client, form_of req = Some form ∧ (authenticateClient config req form empty_state).2 = inr (ac_cid c, client) ∧
    map_get form "grant_type" = Some "refresh_token" ∧
    match map_get form "resource" with Some r => r = resource origin | None => True end ∧
    TokenSigner.verify (signer config) (map_get form "refresh_token") RefreshClaims_parse "refresh" = Some c.

Lemma authenticateClient_frame req form s :
  authenticateClient config req form s = (s, (authenticateClient config req form empty_state).2).
Proof.
  unfold authenticateClient, credentials, refuse_when, mbind, handler_bind, mret, handler_ret, refuse, crash.
  destruct (strip_text _ _) as [basic|]; [destruct (cut_at _ _) as [[id sec]|]; [|done]; destruct (decodeURIComponent id), (decodeURIComponent sec); try done|];
    cbn beta iota; (destruct (truthy _); [|done]); (destruct (clientFrom config _); [|done]); by destruct (_ && _).
Qed.

(** What the refresh grant says of a token, before it looks at what was used and revoked. *)
Definition refresh_admissible (now : Z) (c : AccessClaims) : Prop :=
  ac_iss c = issuer origin ∧ ac_aud c = resource origin ∧ seconds now < ac_exp c ∧ ac_sub c = oc_allowedGoogleSub config ∧
  ∃ p, clientFrom config (Some (ac_cid c)) ≫= profileOf config = Some p ∧ ac_scope c = pf_scope p.

Lemma readForm_run req form s : form_of req = Some form → readForm req s = (s, inr form).
Proof.
  intros H. assert (readForm req s = (s, (readForm req empty_state).2)) as ->.
  { unfold readForm, readBody, refuse_when. destruct (content_type req !== _); [done|]. destruct (MAX_FORM_BYTES <? _); [done|].
    unfold mbind, handler_bind, mret, handler_ret. cbn beta iota. by destruct (repeated_key _). }
  unfold form_of in H. destruct ((readForm req empty_state).2); [done|]. by injection H as ->.
Qed.

Lemma token_presents now c req s : presents c req →
  ∃ form, TokenSigner.verify (signer config) (map_get form "refresh_token") RefreshClaims_parse "refresh" = Some c ∧
    token config origin randomToken now req s = refresh config origin randomToken now (ac_cid c) form s.
Proof.
  intros (form & client & Hf & Ha & Hg & Hr & Hv). exists form. split; [done|].
  unfold token. unfold mbind at 1, handler_bind at 1. rewrite (readForm_run _ _ s Hf).
  unfold mbind at 1, handler_bind at 1. rewrite authenticateClient_frame, Ha.
  unfold mbind at 1, handler_bind at 1, refuse_when.
  assert (match map_get form "resource" with Some r => r !== resource origin | None => false end = false) as ->.
  { destruct (map_get form "resource"); [|done]. subst. by rewrite bool_decide_true. }
  unfold mret, handler_ret. cbn beta iota. rewrite Hg. by rewrite bool_decide_false, bool_decide_true.
Qed.

(** The refresh grant answers with tokens only when the token is admissible, its family is
    not revoked and it was not used; then it is marked used. *)
Lemma refresh_ok now c form s s' r :
  TokenSigner.verify (signer config) (map_get form "refresh_token") RefreshClaims_parse "refresh" = Some c →
  refresh config origin randomToken now (ac_cid c) form s = (s', inr r) →
  refresh_admissible now c ∧ map_has (os_revokedFamilies (pruneRefresh now s)) (ac_fam c) = false ∧
  map_get (os_usedRefresh s') (ac_jti c) = Some (ac_exp c).
Proof.
  intros Hv. unfold refresh. unfold mbind at 1, handler_bind at 1, update at 1. cbn beta iota. rewrite Hv.
  intros (? & ? & [-> Hg]%when_ok & H)%hbind_ok. apply hbind_ok in H as (rv & ? & [= <- <-] & H).
  apply hbind_ok in H as (? & ? & [-> Hs]%when_ok & H). apply hbind_ok in H as (? & ? & [-> Hp]%when_ok & H).
  apply orb_false_iff in Hs as [Hs Hrv]. apply orb_false_iff in Hg as [[[Hi Ha]%orb_false_iff He]%orb_false_iff _].
  apply negb_false_iff in Hi, Ha, Hs, Hp. apply bool_decide_eq_true in Hi, Ha, Hs.
  destruct (clientFrom config (Some (ac_cid c)) ≫= profileOf config) as [p|] eqn:Ep; [|discriminate Hp].
  apply bool_decide_eq_true in Hp.
  split; [split_and!; [exact Hi|exact Ha|lia|exact Hs|by exists p]|]. split; [exact Hrv|].
  apply hbind_ok in H as (used & ? & [= <- <-] & H). apply hbind_ok in H as (fams & ? & [= <- <-] & H).
  destruct (map_has _ (ac_jti c)); [apply hbind_ok in H as (? & ? & _ & (? & ? & _ & H)%hbind_ok); discriminate H|].
  apply hbind_ok in H as (? & ? & [= <- _] & H). apply hbind_ok in H as (v & s2 & Hi2 & H). injection H as -> _.
  apply issueTokens_ok in Hi2 as (_ & _ & -> & _). cbn [os_usedRefresh set_revocation]. apply map_get_set_eq.
Qed.

(** An admissible token that was used, of a family not yet revoked: the family is revoked. *)
Lemma refresh_again now c form s :
  TokenSigner.verify (signer config) (map_get form "refresh_token") RefreshClaims_parse "refresh" = Some c →
  refresh_admissible now c → map_has (os_revokedFamilies (pruneRefresh now s)) (ac_fam c) = false →
  map_get (os_usedRefresh s) (ac_jti c) = Some (ac_exp c) →
  ∃ s', refresh config origin randomToken now (ac_cid c) form s = (s', inl (OAuthError 400 "invalid_grant" "Refresh token reuse detected")) ∧
    map_get (os_revokedFamilies s') (ac_fam c) = Some (seconds now + REFRESH_TTL_S).
Proof.
  intros Hv (Hi & Ha & He & Hs & p & Hp & Hsc) Hrv Hu. unfold refresh. unfold mbind at 1, handler_bind at 1, update at 1. cbn beta iota.
  rewrite Hv. rewrite Hi, Ha, Hs, Hp, Hsc, !bool_decide_true by done. cbn [negb orb].
  destruct (Z.leb_spec (ac_exp c) (seconds now)); [lia|]. unfold gets, refuse_when, mbind, handler_bind, mret, handler_ret. cbn beta iota delta [orb].
  rewrite Hrv. cbn beta iota.
  assert (map_has (os_usedRefresh (pruneRefresh now s)) (ac_jti c) = true) as ->.
  { unfold map_has. cbn [os_usedRefresh pruneRefresh set_revocation]. rewrite (map_get_filter _ _ _ _ Hu); [done|]. unfold expired. cbn. lia. }
  eexists. split; [reflexivity|]. cbn [os_revokedFamilies logged set_revocation]. apply map_get_set_eq.
Qed.

(** ** Access *)

Lemma strip_text_app p s : strip_text p (p +:+ s) = Some s.
Proof.
  induction p as [|a p IH]; [done|]. change (strip_text (String a p) (String a (p +:+ s)) = Some s).
  cbn [strip_text]. by rewrite bool_decide_true.
Qed.

Lemma strip_text_some p : ∀ s t, strip_text p s = Some t → s = p +:+ t.
Proof.
  induction p as [|a p IH]; intros s t; [by intros [= ->]|]. destruct s as [|b s]; [done|]. cbn [strip_text]. case_bool_decide as E; [|done].
  subst b. intros H%IH. by rewrite H.
Qed.

(** What it takes to be let in. *)
Definition admitted (now : Z) (s : OAuthState) (token : string) (claims : AccessClaims) (profile : ClientProfile) (name : string) : Prop :=
  TokenSigner.verify (signer config) (Some token) AccessClaims_parse "access" = Some claims ∧
  ac_iss claims = issuer origin ∧ ac_aud claims = resource origin ∧ seconds now < ac_exp claims ∧
  ac_sub claims = oc_allowedGoogleSub config ∧ map_has (os_revokedFamilies (pruneRefresh now s)) (ac_fam claims) = false ∧
  ∃ client, clientFrom config (Some (ac_cid claims)) = Some client ∧ profileOf config client = Some profile ∧
    ac_scope claims = pf_scope profile ∧ name = cl_name client.

Lemma verifyAccess_admitted now authorization s claims profile name :
  (verifyAccess config origin now authorization s).2 = Some (claims, profile, name) ↔
  ∃ token, authorization = Some ("Bearer " +:+ token) ∧ admitted now s token claims profile name.
Proof.
  unfold verifyAccess, admitted, bearer. split.
  - destruct authorization as [v|]; [|done]. destruct (strip_text "Bearer " v) as [token|] eqn:Eb; [|done].
    apply strip_text_some in Eb as ->. destruct (TokenSigner.verify _ _ _ _) as [c|] eqn:Ev; [|done].
    destruct (_ || _) eqn:Eg; [done|]. apply orb_false_iff in Eg as [[Hi Ha]%orb_false_iff He].
    destruct (ac_sub c !== _) eqn:Es; [done|]. destruct (map_has _ _) eqn:Er; [done|]. cbn [snd].
    destruct (clientFrom config _) as [client|] eqn:Ec; [|done]. cbn [mbind option_bind].
    destruct (profileOf config client) as [p|] eqn:Ep; [|done]. cbn [mbind option_bind].
    apply negb_false_iff in Hi, Ha, Es. apply bool_decide_eq_true in Hi, Ha, Es.
    case_bool_decide as Hsc; [|done]. intros E. simplify_eq. exists token. split; [done|]. split_and!; try done; [lia|]. by exists client.
  - intros (token & -> & Hv & Hi & Ha & He & Hs & Hr & client & Hc & Hp & Hsc & ->). rewrite strip_text_app, Hv. cbn beta iota.
    rewrite Hi, Ha, Hs, !bool_decide_true by done. destruct (Z.leb_spec (ac_exp claims) (seconds now)); [lia|]. cbn [negb orb].
    rewrite Hr. cbn [snd]. rewrite Hc. cbn [mbind option_bind]. rewrite Hp. cbn [mbind option_bind]. by rewrite Hsc, bool_decide_true.
Qed.

(** C19: Who may call the tools. [verifyAccess] lets a bearer in exactly when it is this server's
    access token: signed with its key for access, its own issuer and audience, unexpired, for
    the permitted Google subject, of a family not revoked, for a client the server signed one
    of whose redirect URIs is still allowed, with exactly the scope of the profile those URIs
    resolve to. So whoever is let in with the right to act is ChatGPT's callback alone: a
    read-only client is never let in with the operator scope. *)
Theorem access_exactly now authorization s claims profile name :
  ((verifyAccess config origin now authorization s).2 = Some (claims, profile, name) ↔
   ∃ token, authorization = Some ("Bearer " +:+ token) ∧ admitted now s token claims profile name) ∧
  ((verifyAccess config origin now authorization s).2 = Some (claims, profile, name) →
   (pf_readOnly profile = false ↔ ac_scope claims = OPERATOR_SCOPE) ∧
   ∃ client, clientFrom config (Some (ac_cid claims)) = Some client ∧
     (∃ u, u ∈ cl_redirect_uris client ∧ u ∈ oc_allowedRedirectUris config) ∧
     ∀ u, u ∈ cl_redirect_uris client → u ∈ pf_redirectUris profile).
Proof.
  split; [apply verifyAccess_admitted|].
  intros (token & _ & _ & _ & _ & _ & _ & _ & client & Hc & Hp & Hsc & _)%verifyAccess_admitted. rewrite Hsc.
  unfold profileOf in Hp. destruct (existsb _ _) eqn:Ex; [|done]. apply profileFor_ok in Hp as (Hs & Hu).
  split; [done|]. exists client. split; [done|]. split; [|done].
  apply existsb_exists in Ex as (u & Hu1 & Hu2). exists u. split; [by apply list_elem_of_In|].
  unfold includes in Hu2. by apply bool_decide_eq_true in Hu2.
Qed.

(** A token just issued works. For a known client, the access token of a response granted at
    [now] is let in as that client with its profile, until an hour has passed, on every state
    in which its family is not revoked; and its expiry is an hour after [now], that of the
    refresh token thirty days after. *)
Theorem issued_token_accepted now now' s clientId client p fam jti :
  known config clientId client p → seconds now' < seconds now + ACCESS_TTL_S →
  map_has (os_revokedFamilies (pruneRefresh now' s)) fam = false →
  let claims := claims_of origin (oc_allowedGoogleSub config) clientId fam (pf_scope p) (seconds now) (seconds now + ACCESS_TTL_S) jti in
  let token := TokenSigner.sign (signer config) "access" (claims_json "access" claims) in
  safe (seconds now) → safe (seconds now + ACCESS_TTL_S) → well_formed (stringify (claims_json "access" claims)) → js_length token ≤ 4096 →
  (verifyAccess config origin now' (Some ("Bearer " +:+ token)) s).2 = Some (claims, p, cl_name client).
Proof.
  intros [Hc Hp] Ht Hr claims token Hi He Hw Hl. apply verifyAccess_admitted. exists token. split; [done|].
  split; [apply verify_sign; [by apply claims_json_wf|by apply Claims_parse_json|done|done]|].
  do 5 (split; [done|]). by exists client.
Qed.

(** The server after the token endpoint has handled a request. *)
Definition after (now : Z) (req : HttpRequest) (sy : sys) : sys :=
  {| sy_state := (token config origin randomToken now req (sy_state sy)).1; sy_waiting := sy_waiting sy |}.

(** C18: A refresh token presented twice. Suppose the token endpoint answered a refresh token with
    a new pair, and later, the clock never going back, the same unexpired token is presented
    again for the same client, its family not yet revoked. The answer is a refusal, and from
    then on, whatever is requested, no token of that family is accepted, neither as an access
    token nor as a refresh token, unless it expires later than any token issued up to the
    second presentation can: the family is dead. *)
Theorem refresh_reuse_kills_family events1 events2 sy1 sy2 now1 now2 req1 req2 c r :
  sy1 = run events1 started → sy2 = run events2 (after now1 req1 sy1) →
  presents c req1 → presents c req2 → (token config origin randomToken now1 req1 (sy_state sy1)).2 = inr r →
  clocked now1 events2 now2 → seconds now2 < ac_exp c →
  map_has (os_revokedFamilies (pruneRefresh now2 (sy_state sy2))) (ac_fam c) = false →
  (token config origin randomToken now2 req2 (sy_state sy2)).2 = inl (OAuthError 400 "invalid_grant" "Refresh token reuse detected") ∧
  ∀ events3 now3, clocked now2 events3 now3 →
    let s3 := sy_state (run events3 (after now2 req2 sy2)) in
    (∀ authorization claims profile name, (verifyAccess config origin now3 authorization s3).2 = Some (claims, profile, name) →
       ac_fam claims = ac_fam c → seconds now2 + REFRESH_TTL_S < ac_exp claims) ∧
    (∀ c' req' r', presents c' req' → ac_fam c' = ac_fam c → (token config origin randomToken now3 req' s3).2 = inr r' →
       seconds now2 + REFRESH_TTL_S < ac_exp c').
Proof.
  intros Hsy1 Hsy2 Hp1 Hp2 Hr1 Hclock Hexp Hrv.
  assert (Hafter : ∀ now req sy, sys_ok config sy → sys_ok config (after now req sy)).
  { intros now req sy [Ht Hw]. split; [|done]. cbn [sy_state after].
    eapply changes_tables, Ht. apply (token_does config origin randomToken {| signed_in := false; allowed := false |} now req _ Ht). }
  assert (Hok1 : sys_ok config sy1) by (rewrite Hsy1; apply sys_run_ok, started_ok).
  assert (Hok2 : sys_ok config sy2) by (rewrite Hsy2; apply sys_run_ok, Hafter, Hok1).
  destruct (token_presents now1 c req1 (sy_state sy1) Hp1) as (form1 & Hv1 & Ht1).
  destruct (refresh config origin randomToken now1 (ac_cid c) form1 (sy_state sy1)) as [s1 x1] eqn:E1.
  rewrite Ht1 in Hr1. cbn [snd] in Hr1. subst x1. destruct (refresh_ok _ _ _ _ _ _ Hv1 E1) as (Hadm & _ & Hused).
  assert (Hu2 : used_until (ac_jti c) (ac_exp c) now2 (sy_state sy2)).
  { rewrite Hsy2. apply (clocked_keeps (used_until (ac_jti c) (ac_exp c)) events2 now1); [| |by apply Hafter|done|].
    - intros t t' s Ht H Hlt. apply H. pose proof (seconds_mono t t' Ht). lia.
    - intros t md s s' _. apply change_used.
    - intros _. cbn [sy_state after]. by rewrite Ht1. }
  assert (Hadm2 : refresh_admissible now2 c) by (destruct Hadm as (? & ? & _ & ? & ?); by split_and!).
  destruct (token_presents now2 c req2 (sy_state sy2) Hp2) as (form2 & Hv2 & Ht2).
  destruct (refresh_again now2 c form2 (sy_state sy2) Hv2 Hadm2 Hrv (Hu2 Hexp)) as (s2 & E2 & Hs2).
  rewrite Ht2, E2. split; [done|]. intros events3 now3 Hclock3 s3.
  assert (Hdead : revoked_until (ac_fam c) (seconds now2 + REFRESH_TTL_S) now3 s3).
  { apply (clocked_keeps (revoked_until (ac_fam c) (seconds now2 + REFRESH_TTL_S)) events3 now2); [| |by apply Hafter|done|].
    - intros t t' s Ht H Hlt. apply H. pose proof (seconds_mono t t' Ht). lia.
    - intros t md s s' Ht. apply change_revoked. pose proof (seconds_mono now2 t Ht). lia.
    - intros _. cbn [sy_state after]. rewrite Ht2, E2. by exists (seconds now2 + REFRESH_TTL_S). }
  assert (Hno : ∀ fam exp, fam = ac_fam c → seconds now3 < exp → map_has (os_revokedFamilies (pruneRefresh now3 s3)) fam = false →
    seconds now2 + REFRESH_TTL_S < exp).
  { intros fam exp -> He Hf. destruct (Z.lt_ge_cases (seconds now2 + REFRESH_TTL_S) exp) as [|Hge]; [done|]. exfalso.
    destruct (Hdead ltac:(lia)) as (t & Hg & Hle). unfold map_has in Hf. cbn [os_revokedFamilies pruneRefresh set_revocation] in Hf.
    rewrite (map_get_filter _ _ _ _ Hg) in Hf; [done|]. unfold expired. cbn. lia. }
  split.
  - intros authorization claims profile name (token & _ & _ & _ & _ & He & _ & Hf & _)%verifyAccess_admitted Hfam. by apply (Hno (ac_fam claims)).
  - intros c' req' r' Hp' Hfam Hr'. destruct (token_presents now3 c' req' s3 Hp') as (form' & Hv' & Ht').
    rewrite Ht' in Hr'. destruct (refresh config origin randomToken now3 (ac_cid c') form' s3) as [s' x'] eqn:E'.
    cbn [snd] in Hr'. subst x'.
    destruct (refresh_ok _ _ _ _ _ _ Hv' E') as ((_ & _ & He & _) & Hf & _). by apply (Hno (ac_fam c')).
Qed.

(** ** Registration *)

(** The claims a registration is signed with. *)
Definition registered (now : Z) (rg : RegistrationRequest) (jti : string) : ClientClaims :=
  {| cl_iss := issuer origin; cl_name := default "Unnamed client" (rg_client_name rg); cl_redirect_uris := rg_redirect_uris rg;
     cl_auth := rg_auth rg; cl_iat := seconds now; cl_jti := jti |}.

Lemma z_array_length {A} lo hi (schema : json → result A) v l : z_array lo hi schema v = Ok l → lo ≤ Z.of_nat (length l) ≤ hi.
Proof. destruct v; try done. cbn. intros (ys & _ & [H <-%Ok_inj]%ensure_ok)%bind_ok. lia. Qed.

Lemma trimmed_length lo hi v x : z_trimmed lo hi v = Ok x → js_length x ≤ hi.
Proof. destruct v; try done. cbn. intros [H <-%Ok_inj]%ensure_ok. lia. Qed.

Lemma RegistrationRequest_parse_ok body rg : RegistrationRequest_parse body = Ok rg →
  (1 ≤ length (rg_redirect_uris rg) ≤ 5)%nat ∧ js_length (default "Unnamed client" (rg_client_name rg)) ≤ 100.
Proof.
  unfold RegistrationRequest_parse. intros (fs & _ & (uris & Hu & (name & Hn & (auth & _ & (gs & _ & (ts & _ & <-%Ok_inj)%bind_ok)%bind_ok)%bind_ok)%bind_ok)%bind_ok)%bind_ok.
  cbn [rg_redirect_uris rg_client_name]. apply z_field_ok in Hu as [v Hu]. apply z_array_length in Hu. split; [lia|].
  destruct name as [x|]; [|by vm_compute]. destruct (z_optional_ok _ _ _ _ _ Hn eq_refl) as [w Hw]. by apply trimmed_length in Hw.
Qed.

(** Who may register, and what a registration is worth. A registration is answered 201 only
    while registration is open and before its end, for redirect URIs every one of which is
    allowed here and which belong to one profile that may register; and the client id it
    returns is then recognised: it verifies to the very claims registered and resolves to that
    profile. *)
Theorem registration_recognised now body s s' r :
  register config origin randomToken now body s = (s', inr r) → rs_status r = 201 →
  oc_registrationOpen config = true ∧ (∀ u, oc_registrationUntil config = Some u → now < u) ∧
  ∃ rg p jti, RegistrationRequest_parse body = Ok rg ∧ profileFor (rg_redirect_uris rg) = Some p ∧
    (∀ u, u ∈ rg_redirect_uris rg → u ∈ oc_allowedRedirectUris config) ∧
    (∀ ps, oc_registrationProfiles config = Some ps → pf_name p ∈ ps) ∧
    let claims := registered now rg jti in
    let id := TokenSigner.sign (signer config) "client" (client_json claims) in
    (∃ rest, r = json_response 201 (JObj (("client_id", JStr id) :: rest))) ∧
    (safe (seconds now) → well_formed (stringify (client_json claims)) → js_length id ≤ 4096 → known config id claims p).
Proof.
  intros H H201. unfold register in H.
  assert (Herr : ∀ status e d (s0 : OAuthState), access_error status e d s0 = (s', inr r) → status = 201)
    by (intros status e d s0 [= <- <-]; exact H201).
  destruct (negb (oc_registrationOpen config) || _) eqn:Eo.
  { apply hbind_ok in H as (? & ? & _ & H). apply Herr in H. discriminate H. }
  apply orb_false_iff in Eo as [Ho%negb_false_iff Hu]. split; [exact Ho|]. split.
  { intros u Eu. rewrite Eu in Hu. lia. }
  destruct (RegistrationRequest_parse body) as [rg|] eqn:Erg; [|apply Herr in H; discriminate H].
  destruct (forallb (includes (redirectAllowList config)) (rg_redirect_uris rg)) eqn:Ea.
  2:{ apply hbind_ok in H as (? & ? & _ & H). apply Herr in H. discriminate H. }
  destruct (profileFor (rg_redirect_uris rg)) as [p|] eqn:Ep.
  2:{ apply hbind_ok in H as (? & ? & _ & H). apply Herr in H. discriminate H. }
  destruct (match oc_registrationProfiles config with Some _ => _ | None => _ end) eqn:Eps.
  { apply hbind_ok in H as (? & ? & _ & H). apply Herr in H. discriminate H. }
  destruct (negb (all_in _ (rg_grant_types rg))); [apply Herr in H; discriminate H|].
  destruct (negb (all_in _ (rg_response_types rg))); [apply Herr in H; discriminate H|].
  apply hbind_ok in H as (jti & s1 & _ & H). apply hbind_ok in H as (? & s2 & _ & H).
  assert (Hall : ∀ u, u ∈ rg_redirect_uris rg → u ∈ oc_allowedRedirectUris config).
  { intros u Hin%list_elem_of_In. rewrite forallb_forall in Ea. apply Ea in Hin. unfold includes in Hin. by apply bool_decide_eq_true in Hin. }
  destruct (RegistrationRequest_parse_ok _ _ Erg) as [Hlen Hname].
  exists rg, p, jti. split; [done|]. split; [done|]. split; [done|]. split.
  { intros ps Hps. rewrite Hps in Eps. apply bool_decide_eq_false in Eps. destruct (decide (pf_name p ∈ ps)); [done|contradiction]. }
  intros claims id. split; [eexists; by injection H as _ <-|]. intros Hi Hw Hl. split.
  - unfold clientFrom. assert (truthy (Some id) = Some id) as -> by done.
    apply verify_sign; [by apply client_json_wf|by apply ClientClaims_parse_json|done|done].
  - unfold profileOf. cbn [cl_redirect_uris registered claims].
    assert (existsb (includes (redirectAllowList config)) (rg_redirect_uris rg) = true) as ->; [|done].
    destruct (rg_redirect_uris rg) as [|u us]; [cbn in Hlen; lia|]. cbn [existsb forallb] in *. by apply andb_true_iff in Ea as [-> _].
Qed.

(** What is written into a page cannot leave its text: an escaped text has no bracket, no
    quote, and an ampersand only as the start of an escape. *)
Lemma escapeHtml_inert x : Forall (λ c, c ∉ ["<"%char; ">"%char; dquote; "'"%char]) (String.list_ascii_of_string (escapeHtml x)).
Proof.
  assert (H : ∀ c, forallb (λ d, negb (bool_decide (d ∈ ["<"%char; ">"%char; dquote; "'"%char]))) (String.list_ascii_of_string (escape_char c)) = true).
  { intros c. destruct c as [[] [] [] [] [] [] [] []]; vm_compute; reflexivity. }
  induction x as [|c x IH]; [constructor|]. cbn [escapeHtml]. rewrite list_of_string_app. apply Forall_app. split; [|done].
  apply Forall_forall. intros d Hd%list_elem_of_In. specialize (H c). rewrite forallb_forall in H. apply H in Hd. by to_prop.
Qed.
End once.
