(* ===== verification/OAuthSample.v ===== *)
(** * A connection made, used, refreshed and revoked, on concrete inputs

    A read-only client registers, its owner signs in with Google and allows it, it redeems its
    code, refreshes, and presents the spent refresh token again.  The theorems of OAuthFacts.v
    and OAuthOnce.v are applied to the states this run reaches. *)

From S2P Require Import Prelude JsNumber JsDate Digest Contracts Plan Capability Json Mission Codec OAuthTokens RateLimit OAuthServer.
From S2P Require Import OAuthTokenFacts OAuthFacts OAuthOnce.
Local Open Scope Z_scope.
Local Open Scope js_scope.

Definition sample_uri : string := "http://localhost:8787/callback".
Definition sample_sub : string := "1029384756".

Definition sample_config : OAuthConfig :=
  {| oc_publicUrl := "https://kj.example"; oc_allowedGoogleSub := sample_sub; oc_allowedRedirectUris := [sample_uri];
     oc_registrationOpen := true; oc_registrationUntil := Some 1790000060000; oc_registrationProfiles := Some [GROKBOT];
     oc_signer := sample_key; oc_rateLimits := None |}.
Definition sample_origin : string := "https://kj.example".

(** Random tokens that do not repeat, and URLs that show what they were made of. *)
Definition sample_random (n : nat) (bytes : Z) : string := "r" +:+ pretty n.
Definition sample_url_with (base : string) (params : list (string * string)) : option string :=
  Some (base +:+ "?" +:+ join "&" (map (λ kv, kv.1 +:+ "=" +:+ kv.2) params)).
Definition sample_url_origin (u : string) : option string := Some u.
Definition sample_authorizeUrl (state nonce challenge : string) : string := "https://accounts.google.com/?state=" +:+ state.

Lemma sample_random_inj n n' : sample_random n 32 = sample_random n' 32 → n = n'.
Proof.
  intros H. change (String "r" (pretty n) = String "r" (pretty n')) in H. injection H as H. by apply (inj pretty) in H.
Qed.

Local Abbreviation run_sample events := (sys_run sample_config sample_origin sample_random sample_url_with sample_url_origin sample_authorizeUrl events started).
Local Abbreviation sample_token := (token sample_config sample_origin sample_random).

Definition get (path : string) (query : list (string * string)) : HttpRequest :=
  {| hr_method := "GET"; hr_path := path; hr_query := query; hr_header := λ _, None; hr_body := []; hr_remote := Some "10.0.0.1" |}.
Definition post (path type body : string) : HttpRequest :=
  {| hr_method := "POST"; hr_path := path; hr_query := [];
     hr_header := λ h, if bool_decide (h = "content-type") then Some type else None;
     hr_body := bytes_of body; hr_remote := Some "10.0.0.1" |}.
Definition form_type : string := "application/x-www-form-urlencoded".

Definition t0 : Z := 1790000000000.

Definition sample_registration : json := JObj [("redirect_uris", JArr [JStr sample_uri]); ("client_name", JStr "Grok <Bot>")].
Definition sample_client : ClientClaims :=
  {| cl_iss := sample_origin; cl_name := "Grok <Bot>"; cl_redirect_uris := [sample_uri]; cl_auth := AUTH_NONE;
     cl_iat := 1790000000; cl_jti := "r0" |}.
Definition client_id : string := Eval vm_compute in TokenSigner.sign sample_key "client" (client_json sample_client).
Definition verifier : string := "dBjftJeZ4CVP-mB92K27uhbUJU1p1r_wW1gFWFOEjXk".
Definition challenge : string := "E9Melhoa2OwvFrEMTJguCHaoeK1t8URWbuGJSstw-cM".

Definition sign_in : list event :=
  [Ev_request t0 (post "/oauth/register" "application/json" (stringify sample_registration));
   Ev_request (t0 + 1000) (get "/oauth/authorize"
     [("client_id", client_id); ("redirect_uri", sample_uri); ("response_type", "code"); ("code_challenge_method", "S256");
      ("code_challenge", challenge); ("scope", "kerneljson.operator kerneljson.read"); ("state", "s")]);
   Ev_request (t0 + 2000) (get "/oauth/google/callback" [("state", "r1"); ("code", "g")]);
   Ev_google (t0 + 3000) 0 (Some sample_sub);
   Ev_request (t0 + 4000) (post "/oauth/consent" form_type "ticket=r4&decision=allow")].

Definition redeem : HttpRequest :=
  post "/oauth/token" form_type ("grant_type=authorization_code&code=r5&redirect_uri=" +:+ sample_uri +:+ "&client_id=" +:+ client_id
                                 +:+ "&code_verifier=" +:+ verifier).

Definition refresh_claims : AccessClaims :=
  claims_of sample_origin sample_sub client_id "r6" READ_SCOPE 1790000005 (1790000005 + REFRESH_TTL_S) "r8".
Definition access_claims : AccessClaims :=
  claims_of sample_origin sample_sub client_id "r6" READ_SCOPE 1790000005 (1790000005 + ACCESS_TTL_S) "r7".
Definition refresh_token : string := Eval vm_compute in TokenSigner.sign sample_key "refresh" (claims_json "refresh" refresh_claims).
Definition access_token : string := Eval vm_compute in TokenSigner.sign sample_key "access" (claims_json "access" access_claims).
Definition refreshing : HttpRequest :=
  post "/oauth/token" form_type ("grant_type=refresh_token&refresh_token=" +:+ refresh_token +:+ "&client_id=" +:+ client_id).

(** The state when the code has been issued, kept as a value. *)
Definition signed_in_state : OAuthState := Eval vm_compute in sy_state (run_sample sign_in).
Lemma signed_in_ok : sy_state (run_sample sign_in) = signed_in_state.
Proof. vm_compute. reflexivity. Qed.

(** ** Witnesses *)

Lemma codes_need_consent_witness : ∃ pre allow post signing, sign_in = pre ++ allow :: post ∧ allows_code allow = true ∧
  signing ∈ pre ∧ signs_in sample_config signing = true.
Proof.
  apply (codes_need_consent sample_config sample_origin sample_random sample_url_with sample_url_origin sample_authorizeUrl sign_in).
  rewrite signed_in_ok. discriminate.
Defined.

Lemma redeem_form : ∃ form, form_of redeem = Some form ∧ map_get form "grant_type" = Some "authorization_code" ∧ map_get form "code" = Some "r5".
Proof. eexists. split; [vm_compute; reflexivity|]. split; vm_compute; reflexivity. Qed.

Lemma redeem_answer : match (handle sample_config sample_origin sample_random sample_url_with sample_authorizeUrl (t0 + 5000) redeem signed_in_state).2 with
  | Answered r => rs_status r =? 200 | _ => false end = true.
Proof. vm_compute. reflexivity. Qed.

Lemma code_redeemed_once_witness :
  redeems sample_config sample_origin sample_random sample_url_with sample_authorizeUrl "r5" (t0 + 5000) redeem (sy_state (run_sample sign_in)) ∧
  ∀ events now req,
  ¬ redeems sample_config sample_origin sample_random sample_url_with sample_authorizeUrl "r5" now req
      (sy_state (sys_run sample_config sample_origin sample_random sample_url_with sample_url_origin sample_authorizeUrl events
        (sys_step sample_config sample_origin sample_random sample_url_with sample_url_origin sample_authorizeUrl
          (run_sample sign_in) (Ev_request (t0 + 5000) redeem)))).
Proof.
  assert (H1 : redeems sample_config sample_origin sample_random sample_url_with sample_authorizeUrl "r5" (t0 + 5000) redeem (sy_state (run_sample sign_in))).
  { rewrite signed_in_ok. split; [reflexivity|]. split; [reflexivity|]. split; [exact redeem_form|].
    pose proof redeem_answer as H.
    destruct ((handle sample_config sample_origin sample_random sample_url_with sample_authorizeUrl (t0 + 5000) redeem signed_in_state).2) as [r| |];
      [|discriminate H|discriminate H].
    exists r. split; [reflexivity|]. apply Z.eqb_eq, H. }
  split; [exact H1|]. intros events now req.
  exact (proj2 (code_redeemed_once sample_config sample_origin sample_random sample_url_with sample_url_origin sample_authorizeUrl
    sign_in events (t0 + 5000) redeem now req "r5" sample_random_inj H1)).
Defined.

(** The run continued to the tokens. *)
Definition connected : list event := sign_in ++ [Ev_request (t0 + 5000) redeem].
Definition connected_state : OAuthState := Eval vm_compute in sy_state (run_sample connected).
Definition connected_sys : sys := {| sy_state := connected_state; sy_waiting := [] |}.
Lemma connected_ok : connected_sys = run_sample connected.
Proof. vm_compute. reflexivity. Qed.

Lemma refreshing_presents : presents sample_config sample_origin refresh_claims refreshing.
Proof.
  eexists _, sample_client. split; [vm_compute; reflexivity|]. split; [vm_compute; reflexivity|]. split; [vm_compute; reflexivity|].
  split; [vm_compute; exact I|]. vm_compute. reflexivity.
Qed.

(** The first refresh is answered, and leaves the family unrevoked. *)
Definition refreshed_once : bool :=
  match sample_token (t0 + 6000) refreshing connected_state with
  | (s, inr _) => negb (map_has (os_revokedFamilies (pruneRefresh (t0 + 7000) s)) (ac_fam refresh_claims))
  | _ => false
  end.
Lemma refreshed_once_ok : refreshed_once = true.
Proof. vm_compute. reflexivity. Qed.

Lemma refresh_reuse_kills_family_witness : ∃ s, (sample_token (t0 + 6000) refreshing connected_state).1 = s ∧
  (sample_token (t0 + 7000) refreshing s).2 = inl (OAuthError 400 "invalid_grant" "Refresh token reuse detected").
Proof.
  pose proof refreshed_once_ok as H. unfold refreshed_once in H.
  destruct (sample_token (t0 + 6000) refreshing connected_state) as [s [f|r]] eqn:E; [discriminate H|].
  exists s. split; [reflexivity|]. apply negb_true_iff in H.
  assert (Hok : (sample_token (t0 + 6000) refreshing (sy_state connected_sys)).2 = inr r) by (cbn [sy_state connected_sys]; rewrite E; reflexivity).
  assert (Hst : sy_state (after sample_config sample_origin sample_random (t0 + 6000) refreshing connected_sys) = s)
    by (cbn [sy_state after connected_sys]; rewrite E; reflexivity).
  assert (H2 : map_has (os_revokedFamilies (pruneRefresh (t0 + 7000)
    (sy_state (after sample_config sample_origin sample_random (t0 + 6000) refreshing connected_sys)))) (ac_fam refresh_claims) = false)
    by (rewrite Hst; exact H).
  destruct (refresh_reuse_kills_family sample_config sample_origin sample_random sample_url_with sample_url_origin sample_authorizeUrl
    connected [] connected_sys _ (t0 + 6000) (t0 + 7000) refreshing refreshing refresh_claims r
    connected_ok eq_refl refreshing_presents refreshing_presents Hok) as [K _].
  - unfold clocked. lia.
  - apply Z.ltb_lt. vm_compute. reflexivity.
  - exact H2.
  - change (sys_run _ _ _ _ _ _ [] ?x) with x in K. rewrite Hst in K. exact K.
Defined.

Lemma sample_known : known sample_config client_id sample_client (CLIENT_PROFILES GROKBOT).
Proof. split; vm_compute; reflexivity. Qed.

Lemma issued_token_accepted_witness :
  (verifyAccess sample_config sample_origin (t0 + 3600000) (Some ("Bearer " +:+ access_token)) connected_state).2
  = Some (access_claims, CLIENT_PROFILES GROKBOT, "Grok <Bot>").
Proof.
  change access_token with (TokenSigner.sign (signer sample_config) "access" (claims_json "access" (claims_of sample_origin
    (oc_allowedGoogleSub sample_config) client_id "r6" (pf_scope (CLIENT_PROFILES GROKBOT)) (seconds (t0 + 5000)) (seconds (t0 + 5000) + ACCESS_TTL_S) "r7"))).
  apply (issued_token_accepted sample_config sample_origin (t0 + 5000) (t0 + 3600000) connected_state client_id sample_client (CLIENT_PROFILES GROKBOT) "r6" "r7").
  - exact sample_known.
  - apply Z.ltb_lt. vm_compute. reflexivity.
  - vm_compute. reflexivity.
  - split; apply Z.leb_le; vm_compute; reflexivity.
  - split; apply Z.leb_le; vm_compute; reflexivity.
  - unfold well_formed. vm_compute. reflexivity.
  - apply Z.leb_le. vm_compute. reflexivity.
Defined.

Lemma access_exactly_witness : pf_readOnly (CLIENT_PROFILES GROKBOT) = true ∧ ac_scope access_claims ≠ OPERATOR_SCOPE.
Proof.
  assert ((verifyAccess sample_config sample_origin (t0 + 3600000) (Some ("Bearer " +:+ access_token)) connected_state).2
    = Some (access_claims, CLIENT_PROFILES GROKBOT, "Grok <Bot>")) as H by (vm_compute; reflexivity).
  destruct (access_exactly sample_config sample_origin (t0 + 3600000) (Some ("Bearer " +:+ access_token)) connected_state
    access_claims (CLIENT_PROFILES GROKBOT) "Grok <Bot>") as [_ K].
  destruct (K H) as [[_ K2] _]. split; [reflexivity|]. intros Hs. apply K2 in Hs. discriminate Hs.
Defined.

(** The answer to the sample registration. *)
Local Abbreviation sample_register := (register sample_config sample_origin sample_random t0 sample_registration empty_state).
Lemma sample_register_201 : match sample_register with (_, inr r) => rs_status r =? 201 | _ => false end = true.
Proof. vm_compute. reflexivity. Qed.

Lemma registration_recognised_witness : ∃ s r rg, sample_register = (s, inr r) ∧ RegistrationRequest_parse sample_registration = Ok rg ∧
  profileFor (rg_redirect_uris rg) = Some (CLIENT_PROFILES GROKBOT).
Proof.
  pose proof sample_register_201 as H. destruct sample_register as [s [f|r]] eqn:E; [discriminate H|]. apply Z.eqb_eq in H.
  destruct (registration_recognised sample_config sample_origin sample_random t0 sample_registration empty_state s r E H)
    as (_ & _ & rg & p & jti & Hrg & Hp & _ & Hps & _).
  exists s, r, rg. split; [reflexivity|]. split; [exact Hrg|]. rewrite Hp. f_equal.
  assert (pf_name p ∈ [GROKBOT]) as Hn by (apply Hps; reflexivity). apply list_elem_of_singleton in Hn.
  unfold profileFor in Hp. destruct (rg_redirect_uris rg); [discriminate Hp|]. destruct (List.filter _ _) as [|[] [|]]; try discriminate Hp;
    apply (inj Some) in Hp; subst p; [discriminate Hn|reflexivity].
Defined.
