(* ===== verification/McpFacts.v ===== *)
(** * What a caller can make the operator server do

    The tool list is the safety boundary: whatever message arrives, the door is used only for
    the arguments below, and its two acts only for a caller that may act.  Each theorem says
    that the server behaves the same before a door that refuses everything else. *)

From S2P Require Import Prelude JsNumber JsDate Digest Contracts Plan Capability Json Mission Codec OAuthTokens RateLimit OAuthServer.
From S2P Require Import OAuthTokenFacts OAuthFacts OAuthOnce OAuthSample McpServer.
Local Open Scope Z_scope.
Local Open Scope js_scope.

#[local] Arguments parseMissionObjective : simpl never.
#[local] Arguments analysisObjective : simpl never.

(** ** A door behind a ward *)

(** An admission the tools may ask for: one of two recipes, an objective its mission grammar
    accepts, and an idempotency key of this channel's own. *)
Definition admission_ok (a : Admission) : bool :=
  (((ad_recipe a === recipe_name MorningBrief) && (ad_objective a === "morning brief")) ||
   ((ad_recipe a === recipe_name RepoAnalysisMission) && is_ok (parseMissionObjective (ad_objective a)))) &&
  match strip_text "mcp:" (ad_idempotencyKey a) with Some id => request_id_ok id | None => false end.

Definition view_ok (v : option string) : bool := bool_decide (v ∈ [None; Some "evidence"; Some "history"]).

Definition refusal {S A} : prog S A := throw_st (js_error "warded").

(** The door that serves the reads the tools make, and its acts only when [acts]. *)
Definition warded {S} (acts : bool) (door : OperatorDoor S) : OperatorDoor S :=
  {| od_listTasks := λ n, if (1 <=? n) && (n <=? 50) then od_listTasks door n else refusal;
     od_task := λ id v, if Id_ok id && view_ok v then od_task door id v else refusal;
     od_memory := od_memory door; od_world := od_world door; od_health := od_health door;
     od_admit := λ a, if acts && admission_ok a then od_admit door a else refusal;
     od_cancel := λ id, if acts && Id_ok id then od_cancel door id else refusal |}.

Section ward.
Context {S : Type} (door : OperatorDoor S) (release now : string) (json_schema : string → json)
  (issues : string → json → list string) (log : CallLog → S → S).

Lemma TaskRef_ok v id : TaskRef v = Ok id → Id_ok id = true.
Proof.
  unfold TaskRef. intros (fs & _ & (w & H)%z_field_ok)%bind_ok. destruct w; try done. by apply ensure_ok in H as [? <-%Ok_inj].
Qed.

Lemma request_id_field fs id : z_field fs "request_id" (z_string request_id_ok) = Ok id → request_id_ok id = true.
Proof. intros (w & H)%z_field_ok. destruct w; try done. by apply ensure_ok in H as [? <-%Ok_inj]. Qed.

Lemma brief_input_ok v id : brief_input v = Ok id → request_id_ok id = true.
Proof. unfold brief_input. intros (fs & _ & H)%bind_ok. by apply request_id_field in H. Qed.

Lemma analysis_input_ok v a : analysis_input v = Ok a →
  request_id_ok (aa_request_id a) = true ∧ is_ok (parseMissionObjective (analysisObjective a)) = true.
Proof.
  unfold analysis_input. intros (fs & _ & (id & Hid & (repo & _ & (fi & _ & (q & _ & H)%bind_ok)%bind_ok)%bind_ok)%bind_ok)%bind_ok.
  cbv zeta in H. destruct (parseMissionObjective _) eqn:Ep; [|done]. apply Ok_inj in H as <-. rewrite Ep. split; [|done].
  by apply request_id_field in Hid.
Qed.

Lemma list_input_ok v n : list_input v = Ok n → 1 ≤ n ≤ 50.
Proof.
  unfold list_input. intros (fs & _ & (o & Ho & <-%Ok_inj)%bind_ok)%bind_ok. destruct o as [n|]; [|simpl; lia].
  destruct (z_optional_ok _ _ _ _ _ Ho eq_refl) as [w Hw]. destruct w; try done. apply ensure_ok in Hw as [Hw <-%Ok_inj]. simpl. lia.
Qed.

Lemma strip_mcp id : strip_text "mcp:" (idempotencyKeyFor id) = Some id.
Proof. exact (strip_text_app "mcp:" id). Qed.

(** Two doors that serve the tools alike. *)
Record agrees (acts : bool) (d1 d2 : OperatorDoor S) : Prop := {
  ag_list n s : 1 ≤ n ≤ 50 → od_listTasks d1 n s = od_listTasks d2 n s;
  ag_task id v s : Id_ok id = true → view_ok v = true → od_task d1 id v s = od_task d2 id v s;
  ag_memory q s : od_memory d1 q s = od_memory d2 q s;
  ag_world q s : od_world d1 q s = od_world d2 q s;
  ag_health s : od_health d1 s = od_health d2 s;
  ag_admit a s : acts = true → admission_ok a = true → od_admit d1 a s = od_admit d2 a s;
  ag_cancel id s : acts = true → Id_ok id = true → od_cancel d1 id s = od_cancel d2 id s
}.

Lemma warded_agrees acts d : agrees acts d (warded acts d).
Proof.
  split; cbn [warded od_listTasks od_task od_memory od_world od_health od_admit od_cancel]; try done.
  - intros n s H. destruct (Z.leb_spec 1 n), (Z.leb_spec n 50); try lia. done.
  - by intros id v s -> ->.
  - by intros a s -> ->.
  - by intros id s -> ->.
Qed.

(** A tool that may be called asks the door only for what the ward lets through. *)
Lemma tool_agrees acts d1 d2 t args v s : agrees acts d1 d2 → t ∈ TOOLS (S := S) now → td_input t v = Ok args →
  (ta_readOnlyHint (td_annotations t) = true ∨ acts = true) → td_run t d1 args s = td_run t d2 args s.
Proof.
  intros [] Ht. repeat (apply elem_of_cons in Ht as [->|Ht]); [| | | | | | | | | |by apply elem_of_nil in Ht];
    cbn [td_input td_run td_annotations ta_readOnlyHint read]; eauto using list_input_ok, TaskRef_ok.
  - intros H%brief_input_ok [?|?]; [done|]. apply ag_admit0; [done|]. unfold admission_ok.
    cbn [ad_recipe ad_objective ad_idempotencyKey]. by rewrite strip_mcp, H.
  - intros [Hid Hp]%analysis_input_ok [?|?]; [done|]. apply ag_admit0; [done|]. unfold admission_ok.
    cbn [ad_recipe ad_objective ad_idempotencyKey]. rewrite strip_mcp, Hid, Hp.
    by rewrite (bool_decide_false (recipe_name RepoAnalysisMission = recipe_name MorningBrief)).
  - intros H%TaskRef_ok [?|?]; [done|]. eauto.
Qed.

Lemma find_tool_in name t : find_tool (S := S) now name = Some t → t ∈ TOOLS now.
Proof. intros [H _]%find_some. by apply list_elem_of_In. Qed.

(** What a caller's messages lead to depends on the door only where the ward lets them. *)
Lemma handleMessage_agrees d1 d2 raw caller s : agrees (negb (cr_readOnly caller)) d1 d2 →
  handleMessage d1 release now json_schema issues log raw caller s = handleMessage d2 release now json_schema issues log raw caller s.
Proof.
  intros Ha. unfold handleMessage. destruct raw; try done;
  (destruct (Message_parse _) as [m|]; [|done]; destruct (ms_id m) as [id|]; [|done];
   repeat (case_bool_decide; [done|]); case_bool_decide; [|done];
   destruct (find_tool now _) as [t|] eqn:Et; [|done]; apply find_tool_in in Et;
   unfold call_tool, permitted; destruct (negb (negb (cr_readOnly caller) || _)) eqn:Hp; [done|];
   apply negb_false_iff, orb_true_iff in Hp;
   destruct (td_input t _) as [args|] eqn:Ei; [|done];
   unfold mbind, prog_bind; by rewrite (tool_agrees _ _ _ _ _ _ s Ha Et Ei) by tauto).
Qed.

(** C15: The whole of what a message can do. For every message, caller and state, the server
    answers and changes the state exactly as it would before a door that only lists 1 to 50
    tasks, reads one task by UUID with its evidence or history, searches memory, the world and
    health, and, when the caller is not read-only, also admits a morning brief or a repository
    mission whose objective parses, under a key of the MCP channel, and cancels a task by
    UUID; every other use of the door would throw. A read-only caller never reaches an act. *)
Theorem tools_are_the_boundary raw caller s :
  handleMessage door release now json_schema issues log raw caller s =
  handleMessage (warded (negb (cr_readOnly caller)) door) release now json_schema issues log raw caller s.
Proof.
  apply handleMessage_agrees, warded_agrees.
Qed.
End ward.

(** ** The handler with the authorisation server in front *)

Section operator.
Context {S : Type} (release : string) (config : OAuthConfig) (origin publicHost : string) (allowedOrigins : list string).
Context (randomToken : nat → Z → string) (url_with : string → list (string * string) → option string)
  (authorizeUrl : string → string → string → string) (now : Z).
Context (time : string) (json_schema : string → json) (issues : string → json → list string) (correlationId : string).

Definition options_for (door : OperatorDoor S) : McpServerOptions (Operator (S := S)) handled :=
  oauth_options door release config origin publicHost allowedOrigins randomToken url_with authorizeUrl now.

Definition operator_request (door : OperatorDoor S) : HttpRequest → Operator → Operator * McpReply handled :=
  mcp_request (options_for door) time json_schema issues correlationId.

(** The bearer of the request is let in, as a caller that may act. *)
Definition may_act (req : HttpRequest) (s : Operator (S := S)) : bool :=
  match (verifyAccess config origin now (hr_header req "authorization") (op_oauth s)).2 with
  | Some access => negb (cr_readOnly (caller_of access))
  | None => false
  end.

Lemma behind_agrees acts (d1 d2 : OperatorDoor S) : agrees acts d1 d2 → agrees acts (behind_handler d1) (behind_handler d2).
Proof.
  intros []. split; intros; cbn [behind_handler od_listTasks od_task od_memory od_world od_health od_admit od_cancel]; unfold on_door.
  - by rewrite ag_list0.
  - by rewrite ag_task0.
  - by rewrite ag_memory0.
  - by rewrite ag_world0.
  - by rewrite ag_health0.
  - by rewrite ag_admit0.
  - by rewrite ag_cancel0.
Qed.

(** No route of the authorisation server is on the tools' path, whatever the method. *)
Lemma mcp_no_route (method route : string) :
  take 5 (rev (String.list_ascii_of_string route)) ≠ rev (String.list_ascii_of_string " /mcp") →
  method +:+ " " +:+ MCP_PATH ≠ route.
Proof.
  intros H <-. apply H. rewrite list_of_string_app, rev_app_distr. reflexivity.
Qed.

Lemma mcp_not_mine req (s : Operator (S := S)) : hr_path req = MCP_PATH →
  oauth_routes config origin randomToken url_with authorizeUrl now req s = (s, None).
Proof.
  intros Hp. unfold oauth_routes, handle, dispatch. rewrite Hp. change (strip_text "/oauth/" MCP_PATH) with (@None string).
  cbv beta iota zeta. rewrite !(bool_decide_false (_ +:+ " " +:+ MCP_PATH = _)) by (apply mcp_no_route; vm_compute; congruence).
  destruct s. reflexivity.
Qed.

Lemma serve_agrees (door : OperatorDoor S) access req (s : Operator (S := S)) :
  serve (options_for door) time json_schema issues correlationId req (caller_of access) s =
  serve (options_for (warded (negb (cr_readOnly (caller_of access))) door)) time json_schema issues correlationId req (caller_of access) s.
Proof.
  unfold serve. destruct (request_error req); [done|]. destruct (readJson req); [done|].
  cbn [options_for oauth_options mo_door mo_release mo_log].
  by rewrite (handleMessage_agrees _ _ _ _ _ _ (behind_handler (warded (negb (cr_readOnly (caller_of access))) door)))
    by apply behind_agrees, warded_agrees.
Qed.

Lemma profile_acts uris p : profileFor uris = Some p → negb (pf_readOnly (CLIENT_PROFILES (pf_name p))) = true →
  p = CLIENT_PROFILES CHATGPT ∧ ∀ u, u ∈ uris → u ∈ CHATGPT_REDIRECT_URIS.
Proof.
  intros Hp Ha. pose proof (profileFor_ok _ _ Hp) as [_ Hu]. destruct (profileFor_named _ _ Hp) as [[] ->]; done.
Qed.

(** C14: Only ChatGPT acts. With the authorisation server in front, every request to the operator
    server has the answer and the effect it would have before a door that refuses to admit and
    to cancel, unless its bearer is an access token this server signed, its own, unexpired and
    not revoked, for the permitted Google subject and the operator scope, of a registered
    client all of whose redirect URIs are ChatGPT's callback. *)
Theorem only_chatgpt_acts (door : OperatorDoor S) req s :
  operator_request door req s = operator_request (warded (may_act req s) door) req s ∧
  (may_act req s = true → ∃ token claims client name,
     hr_header req "authorization" = Some ("Bearer " +:+ token) ∧
     admitted config origin now (op_oauth s) token claims (CLIENT_PROFILES CHATGPT) name ∧
     ac_sub claims = oc_allowedGoogleSub config ∧ ac_scope claims = OPERATOR_SCOPE ∧
     clientFrom config (Some (ac_cid claims)) = Some client ∧
     ∀ u, u ∈ cl_redirect_uris client → u ∈ CHATGPT_REDIRECT_URIS).
Proof.
  split.
  - unfold operator_request, mcp_request, foreign_origin.
    cbn [options_for oauth_options mo_door mo_release mo_verify mo_allowedOrigins mo_resourceMetadataUrl mo_log mo_log_refused mo_routes mo_guard].
    destruct (_ && _); [done|]. destruct (truthy _); [done|].
    destruct (decide (hr_path req = MCP_PATH)) as [Hp|Hp].
    + rewrite mcp_not_mine by done. destruct (hr_path req !== MCP_PATH); [done|].
      destruct (match hr_header req "origin" with Some _ => _ | None => None end); [done|].
      unfold oauth_verify, may_act. destruct (verifyAccess _ _ _ _ _) as [o [access|]]; [|done]. apply serve_agrees.
    + rewrite (bool_decide_false _ Hp). by destruct (oauth_routes _ _ _ _ _ _ _ _) as [s' [w|]].
  - unfold may_act. destruct (verifyAccess _ _ _ _ _).2 as [[[claims p] name]|] eqn:Ev; [|done]. intros Ha.
    apply verifyAccess_admitted in Ev as (token & Et & Hv). exists token, claims.
    pose proof Hv as (_ & _ & _ & _ & Hs & _ & client & Hc & Hp & Hsc & _). exists client, name.
    unfold profileOf in Hp. destruct (existsb _ _); [|done].
    destruct (profile_acts _ _ Hp Ha) as [-> Hu]. done.
Qed.
End operator.

(** ** One call from ChatGPT and one from a read-only client *)

Definition act_config : OAuthConfig :=
  {| oc_publicUrl := sample_origin; oc_allowedGoogleSub := sample_sub;
     oc_allowedRedirectUris := CHATGPT_REDIRECT_URIS ++ [sample_uri]; oc_registrationOpen := false; oc_registrationUntil := None;
     oc_registrationProfiles := None; oc_signer := sample_key; oc_rateLimits := None |}.

Definition chatgpt_client : ClientClaims :=
  {| cl_iss := sample_origin; cl_name := "ChatGPT"; cl_redirect_uris := CHATGPT_REDIRECT_URIS; cl_auth := AUTH_NONE;
     cl_iat := 1790000000; cl_jti := "r0" |}.
Definition chatgpt_claims : AccessClaims :=
  claims_of sample_origin sample_sub (TokenSigner.sign sample_key "client" (client_json chatgpt_client)) "r6" OPERATOR_SCOPE
    1790000005 (1790000005 + ACCESS_TTL_S) "r7".
Definition chatgpt_token : string := Eval vm_compute in TokenSigner.sign sample_key "access" (claims_json "access" chatgpt_claims).

(** A door that writes down the acts it was asked for. *)
Definition noting_door : OperatorDoor (list string) :=
  let note x : prog (list string) DoorResult := λ s, (s ++ [x], Ok (DoorOk 200 (JObj [("taskId", JStr x)]))) in
  {| od_listTasks := λ _, note "list"; od_task := λ _ _, note "task"; od_memory := λ _, note "memory"; od_world := λ _, note "world";
     od_health := note "health"; od_admit := λ a, note ("admit " +:+ ad_idempotencyKey a); od_cancel := λ id, note ("cancel " +:+ id) |}.

Definition sample_task : string := "0b8f7a52-3c1d-4e5f-8a9b-0c1d2e3f4a5b".
Definition cancel_body : json :=
  JObj [("jsonrpc", JStr "2.0"); ("id", JNum 1); ("method", JStr "tools/call");
        ("params", JObj [("name", JStr "kj_cancel_task"); ("arguments", JObj [("task_id", JStr sample_task)])])].
Definition cancel_call (access : string) : HttpRequest :=
  {| hr_method := "POST"; hr_path := MCP_PATH; hr_query := [];
     hr_header := λ h, if bool_decide (h = "content-type") then Some "application/json"
                       else if bool_decide (h = "host") then Some "kj.example"
                       else if bool_decide (h = "authorization") then Some ("Bearer " +:+ access) else None;
     hr_body := bytes_of (stringify cancel_body); hr_remote := Some "10.0.0.1" |}.
Definition quiet : Operator (S := list string) := {| op_oauth := empty_state; op_door := []; op_log := [] |}.
Definition acts_after (access : string) : list string :=
  op_door (operator_request "v1" act_config sample_origin "kj.example" CHATGPT_ORIGINS sample_random sample_url_with sample_authorizeUrl
    (t0 + 3600000) "now" (λ _, JNull) (λ _ _, []) "c" noting_door (cancel_call access) quiet).1.

(** The same call cancels for ChatGPT, and does nothing for the read-only client. *)
Example cancel_needs_chatgpt : acts_after chatgpt_token = ["cancel " +:+ sample_task] ∧ acts_after access_token = [].
Proof. split; vm_compute; reflexivity. Qed.

Lemma only_chatgpt_acts_witness : ∃ token claims client name,
  hr_header (cancel_call chatgpt_token) "authorization" = Some ("Bearer " +:+ token) ∧
  admitted act_config sample_origin (t0 + 3600000) empty_state token claims (CLIENT_PROFILES CHATGPT) name ∧
  ac_sub claims = sample_sub ∧ ac_scope claims = OPERATOR_SCOPE ∧ clientFrom act_config (Some (ac_cid claims)) = Some client ∧
  ∀ u, u ∈ cl_redirect_uris client → u ∈ CHATGPT_REDIRECT_URIS.
Proof.
  apply (only_chatgpt_acts "v1" act_config sample_origin "kj.example" CHATGPT_ORIGINS sample_random sample_url_with sample_authorizeUrl
    (t0 + 3600000) "now" (λ _, JNull) (λ _ _, []) "c" noting_door (cancel_call chatgpt_token) quiet).
  vm_compute. reflexivity.
Defined.
