(* ===== verification/McpMission.v ===== *)
(** * The mission that runs is the one that was asked for

    [kj_run_analysis] writes its arguments as an objective, which the kernel reads back with the
    mission grammar: the theorem is that nothing of a question is read as a directive, and
    nothing is lost. *)

From S2P Require Import Prelude JsNumber JsDate Digest Contracts Plan Capability Json Mission Codec OAuthTokens RateLimit OAuthServer.
From S2P Require Import OAuthTokenFacts OAuthFacts OAuthOnce McpServer.
Local Open Scope Z_scope.
Local Open Scope js_scope.

(** ** Words *)

(** A visible ASCII byte, which is no part of a space. *)
Definition visible (b : Z) : bool := (33 <=? b) && (b <=? 126).

Lemma unspaced_nil seps : Forall (λ p, p ≠ []) seps → unspaced seps [].
Proof. intros H. apply first_some_None. intros p Hp. rewrite Forall_forall in H. specialize (H p Hp). by destruct p. Qed.

Lemma unspaced_visible seps b s :
  forallb (λ p, match p with a :: _ => negb (visible a) | [] => false end) seps = true → visible b = true → unspaced seps (b :: s).
Proof.
  intros Hs Hb. apply first_some_None. intros p Hp. rewrite forallb_forall in Hs. apply list_elem_of_In, Hs in Hp.
  destruct p as [|a p]; [done|]. cbn [strip_prefix]. destruct (Z.eqb_spec a b) as [->|]; [|done]. by rewrite Hb in Hp.
Qed.

Lemma front_visible b s : visible b = true → unspaced js_spaces (b :: s).
Proof. apply unspaced_visible. by vm_compute. Qed.

Lemma back_visible b s : visible b = true → unspaced (map (@rev Z) js_spaces) (b :: s).
Proof. apply unspaced_visible. by vm_compute. Qed.

(** A pattern that does not start a text does not start it when a space follows. *)
Lemma strip_prefix_within p : ∀ s t, s ≠ [] → 32 ∉ List.tl p → strip_prefix p s = None → strip_prefix p (s ++ 32 :: t) = None.
Proof.
  induction p as [|a p IH]; intros s t Hs Hp H; [done|]. destruct s as [|b s]; [done|]. cbn [strip_prefix app List.tl] in *.
  destruct (a =? b); [|done]. destruct s as [|b' s].
  - destruct p as [|a' p]; [done|]. cbn [app strip_prefix]. destruct (Z.eqb_spec a' 32) as [->|]; [|done]. destruct Hp. left.
  - apply IH; [done| |done]. destruct p; [done|]. intros Hin. apply Hp. by right.
Qed.

Lemma back_within s t : s ≠ [] → unspaced (map (@rev Z) js_spaces) s → unspaced (map (@rev Z) js_spaces) (s ++ 32 :: t).
Proof.
  intros Hs H. apply first_some_None. intros p Hp. apply strip_prefix_within; [done| |].
  - assert (forallb (λ p, negb (bool_decide (32 ∈ List.tl p))) (map (@rev Z) js_spaces) = true) as Hf by (by vm_compute).
    rewrite forallb_forall in Hf. apply list_elem_of_In, Hf in Hp. by apply negb_true_iff, bool_decide_eq_false in Hp.
  - unfold unspaced in H. rewrite first_some_None in H. by apply H.
Qed.

(** A nonempty text of visible bytes. *)
Definition word (s : string) : Prop := s ≠ EmptyString ∧ forallb visible (bytes_of s) = true.

(** A word, and after a space the rest if there is one. *)
Definition before (w rest : string) : string := if rest === EmptyString then w else w +:+ " " +:+ rest.

Lemma bytes_before w rest :
  bytes_of (before w rest) = bytes_of w ++ (if rest === EmptyString then [] else 32 :: bytes_of rest).
Proof. unfold before. case_bool_decide; [by rewrite app_nil_r|]. by rewrite !string_bytes_app. Qed.

Lemma bytes_empty s : bytes_of s = [] → s = EmptyString.
Proof. by destruct s. Qed.

Lemma word_first w : word w → ∃ b s, bytes_of w = b :: s ∧ visible b = true.
Proof. intros [Hw Hv]. destruct (bytes_of w) as [|b s] eqn:E; [by apply bytes_empty in E|]. apply andb_true_iff in Hv as [? _]. eauto. Qed.

Lemma word_last w : word w → ∃ b s, rev (bytes_of w) = b :: s ∧ visible b = true.
Proof.
  intros [Hw Hv]. destruct (rev (bytes_of w)) as [|b s] eqn:E.
  - apply (f_equal (@rev Z)) in E. rewrite rev_involutive in E. by apply bytes_empty in E.
  - exists b, s. split; [done|]. rewrite forallb_forall in Hv. apply Hv, in_rev. rewrite E. by left.
Qed.

Lemma trimmed_empty : trimmed EmptyString.
Proof. split; apply unspaced_nil; repeat constructor; discriminate. Qed.

Lemma trimmed_before w rest : word w → trimmed rest → trimmed (before w rest).
Proof.
  intros Hw [_ Hr]. split; rewrite bytes_before.
  - destruct (word_first w Hw) as (b & s & -> & Hb). by apply front_visible.
  - rewrite rev_app_distr. case_bool_decide as He.
    + destruct (word_last w Hw) as (b & s & -> & Hb). by apply back_visible.
    + cbn [rev]. rewrite <- app_assoc. apply back_within; [|done]. intros E. apply (f_equal (@rev Z)) in E.
      rewrite rev_involutive in E. by apply bytes_empty in E.
Qed.

Lemma first_token_word bs r : forallb visible bs = true →
  first_token (bs ++ r) = (bs ++ (first_token r).1, (first_token r).2).
Proof.
  induction bs as [|b bs IH]; intros H; [cbn [app]; by destruct (first_token r)|]. apply andb_true_iff in H as [Hb Hbs].
  cbn [app first_token]. rewrite (front_visible b (bs ++ r) Hb). by rewrite IH.
Qed.

Lemma js_trim_space s : trimmed s → js_trim (bytes_string (32 :: bytes_of s)) = s.
Proof.
  intros [Hf Hb]. unfold js_trim. rewrite bytes_string_bytes by (constructor; [lia|apply string_bytes_range]).
  change (strip_spaces (length (32 :: bytes_of s)) js_spaces (32 :: bytes_of s)) with (strip_spaces (length (bytes_of s)) js_spaces (bytes_of s)).
  rewrite (strip_spaces_unspaced _ js_spaces) by done. rewrite (strip_spaces_unspaced _ (map (@rev Z) js_spaces) _ Hb).
  by rewrite rev_involutive, bytes_of_string.
Qed.

Lemma split_before w rest : word w → trimmed rest → split_token (before w rest) = Some (w, rest).
Proof.
  intros Hw Hr. unfold split_token. rewrite bytes_before. destruct Hw as [Hne Hv]. rewrite first_token_word by done.
  assert (first_token (if rest === EmptyString then [] else 32 :: bytes_of rest) = ([], if rest === EmptyString then [] else 32 :: bytes_of rest)) as ->
    by (by case_bool_decide). cbn [fst snd]. rewrite app_nil_r. destruct (bytes_of w) as [|b bs] eqn:E; [by apply bytes_empty in E|].
  rewrite <- E, bytes_of_string. case_bool_decide as He; [by rewrite He|]. by rewrite js_trim_space.
Qed.

(** ** The objective and its words *)

Definition findings_word (n : Z) : string := "findings=" +:+ pretty n.

(** The objective of a request, as the grammar splits it. *)
Definition request_rest (a : AnalysisArgs) : string :=
  let q := default EmptyString (aa_question a) in
  match aa_findings a with Some n => before (findings_word n) q | None => q end.

Lemma findings_word_ok n : 1 ≤ n ≤ MISSION_HARD_MAX_FINDINGS →
  word (findings_word n) ∧ directive (findings_word n) = Some (true, pretty n) ∧ count_of (pretty n) = n.
Proof.
  intros Hn. assert (forallb (λ n, (findings_word n !== EmptyString) && forallb visible (bytes_of (findings_word n)) &&
    bool_decide (directive (findings_word n) = Some (true, pretty n)) && (count_of (pretty n) =? n)) (seqZ 1 12) = true) as H by (by vm_compute).
  rewrite forallb_forall in H. specialize (H n). rewrite <- list_elem_of_In, elem_of_seqZ in H.
  specialize (H ltac:(unfold MISSION_HARD_MAX_FINDINGS in Hn; lia)). unfold word. by to_prop.
Qed.

Lemma cut_at_app c s : ∀ k v, cut_at c s = Some (k, v) → s = k +:+ String c v.
Proof.
  induction s as [|x s IH]; intros k v; [done|]. cbn [cut_at]. case_bool_decide as E.
  - intros [= <- <-]. by subst x.
  - destruct (cut_at c s) as [[a b]|]; [|done]. intros [= <- <-]. by rewrite (IH a b).
Qed.

Lemma visible_char c : is_alpha c = true ∨ is_num c = true ∨ c ∈ ["."; "_"; "-"]%char → visible (Z.of_N (N_of_ascii c)) = true.
Proof.
  unfold visible, is_alpha, is_num. intros [H|[H|H]]; [lia|lia|].
  rewrite !elem_of_cons in H. destruct H as [->|[->|[->|?%elem_of_nil]]]; done.
Qed.

Lemma chars_visible others s : (∀ c, c ∈ others → c ∈ ["."; "_"; "-"]%char) →
  chars_ok others s = true → forallb visible (bytes_of s) = true.
Proof.
  intros Ho H. apply forallb_forall. intros b (c & <- & Hc)%in_map_iff. unfold chars_ok in H. rewrite forallb_forall in H.
  apply H, orb_true_iff in Hc as [[?|?]%orb_true_iff|Hc]; apply visible_char; auto. apply bool_decide_eq_true in Hc. auto.
Qed.

Lemma RepoSlug_word s : RepoSlug_ok s = true → word s.
Proof.
  unfold RepoSlug_ok. destruct (cut_at "/" s) as [[[|c owner] name]|] eqn:E; try done. apply cut_at_app in E as ->. intros H.
  rewrite !andb_true_iff in H. destruct H as [[[[[Hc Ho] _] Hn] _] _]. split; [done|].
  rewrite string_bytes_app, forallb_app. unfold token_ok in Hn. rewrite !andb_true_iff in Hn. destruct Hn as [_ Hn].
  change (bytes_of (String "/" name)) with (47 :: bytes_of name). cbn [forallb].
  change (bytes_of (String c owner)) with (Z.of_N (N_of_ascii c) :: bytes_of owner). cbn [forallb].
  rewrite visible_char by (apply orb_true_iff in Hc; tauto).
  rewrite (chars_visible ["-"%char] owner), (chars_visible ["."; "_"; "-"]%char name); set_solver.
Qed.

Lemma ascii_lower_app a b : ascii_lower (a +:+ b) = ascii_lower a +:+ ascii_lower b.
Proof. induction a as [|c a IH]; [done|]. exact (f_equal (String _) IH). Qed.

(** A question that does not look like a directive is none. *)
Lemma question_no_directive q tok r : split_token q = Some (tok, r) → directive_like q = false → directive tok = None.
Proof.
  unfold split_token. pose proof (first_token_app (bytes_of q)) as Hq. destruct (first_token (bytes_of q)) as [t r'].
  destruct t as [|b t]; [done|]. intros [= <- <-]. cbn [fst snd] in Hq.
  assert (Eq : q = bytes_string (b :: t) +:+ bytes_string r').
  { rewrite <- (bytes_of_string q), Hq. unfold bytes_string. rewrite map_app. apply string_of_list_app_str. }
  unfold directive, directive_like. destruct (cut_at "=" (bytes_string (b :: t))) as [[k v]|] eqn:Ec; [|done].
  apply cut_at_app in Ec. rewrite Eq, Ec, !ascii_lower_app. cbv zeta.
  change (ascii_lower (String "=" v)) with (String "=" (ascii_lower v)).
  set (rest := ascii_lower v +:+ ascii_lower (bytes_string r')).
  case_bool_decide as E1.
  - rewrite E1. change (("findings" +:+ String "=" (ascii_lower v)) +:+ ascii_lower (bytes_string r')) with ("findings=" +:+ rest).
    by rewrite strip_text_app.
  - case_bool_decide as E2; [|done].
    rewrite E2. change (("max-findings" +:+ String "=" (ascii_lower v)) +:+ ascii_lower (bytes_string r')) with ("max-findings=" +:+ rest).
    rewrite strip_text_app. by destruct (strip_text "findings=" _).
Qed.

Lemma directives_question fuel q exact atMost : directive_like q = false → directives (S fuel) q exact atMost = Ok (q, exact, atMost).
Proof.
  intros Hq. cbn [directives]. destruct (split_token q) as [[tok r]|] eqn:Es; [|done]. by rewrite (question_no_directive _ _ _ Es Hq).
Qed.

(** What the schema of the tool gives. *)
Lemma analysis_input_fields v a : analysis_input v = Ok a →
  RepoSlug_ok (aa_repo a) = true ∧ (∀ n, aa_findings a = Some n → 1 ≤ n ≤ MISSION_HARD_MAX_FINDINGS) ∧
  (∀ q, aa_question a = Some q → trimmed q ∧ q ≠ EmptyString ∧ directive_like q = false) ∧
  is_ok (parseMissionObjective (analysisObjective a)) = true.
Proof.
  unfold analysis_input. intros (fs & _ & (id & Hid & (repo & Hr & (fi & Hf & (q & Hq & H)%bind_ok)%bind_ok)%bind_ok)%bind_ok)%bind_ok.
  cbv zeta in H. destruct (parseMissionObjective _) eqn:Ep; [|done]. apply Ok_inj in H as <-. rewrite Ep.
  cbn [aa_repo aa_findings aa_question]. split; [|split; [|split; [|done]]].
  - apply z_field_ok in Hr as (w & Hw). destruct w; try done. by apply ensure_ok in Hw as [? <-%Ok_inj].
  - intros n ->. destruct (z_optional_ok _ _ _ _ _ Hf eq_refl) as [w Hw]. destruct w; try done. apply ensure_ok in Hw as [Hw <-%Ok_inj]. lia.
  - intros x ->. destruct (z_optional_ok _ _ _ _ _ Hq eq_refl) as [w Hw]. unfold question_schema in Hw.
    apply bind_ok in Hw as (y & Hy & [Hd <-%Ok_inj]%ensure_ok). destruct w as [| | |s| | |]; try done.
    apply ensure_ok in Hy as [Hl <-%Ok_inj]. split; [apply js_trim_trimmed|]. split; [|by apply negb_true_iff].
    intros E. by rewrite E in Hl.
Qed.

Lemma objective_words a : (∀ q, aa_question a = Some q → q ≠ EmptyString) → analysisObjective a = before (aa_repo a) (request_rest a).
Proof.
  intros Hq. unfold analysisObjective, request_rest, before, findings_word.
  destruct (aa_findings a) as [n|], (aa_question a) as [q|]; cbn [default app join].
  - rewrite (bool_decide_false (q = EmptyString)) by auto. by rewrite bool_decide_false.
  - done.
  - by rewrite (bool_decide_false (q = EmptyString)) by auto.
  - done.
Qed.

(** The mission asked for. *)
Definition requested (a : AnalysisArgs) : MissionObjective :=
  {| mo_repo := aa_repo a; mo_question := default DEFAULT_MISSION_QUESTION (aa_question a);
     mo_contract := {| requestedFindings := aa_findings a; minFindings := default 1 (aa_findings a);
                       maxFindings := default MISSION_DEFAULT_MAX_FINDINGS (aa_findings a) |} |}.

Lemma request_rest_read a :
  (∀ n, aa_findings a = Some n → 1 ≤ n ≤ MISSION_HARD_MAX_FINDINGS) →
  trimmed (default EmptyString (aa_question a)) → directive_like (default EmptyString (aa_question a)) = false →
  trimmed (request_rest a) ∧
  directives (S (String.length (request_rest a))) (request_rest a) None None
  = Ok (default EmptyString (aa_question a), aa_findings a, None).
Proof.
  intros Hf Ht Hd. unfold request_rest. destruct (aa_findings a) as [n|]; [|split; [exact Ht|by apply directives_question]].
  destruct (findings_word_ok n (Hf n eq_refl)) as (Hw & Hdn & Hc). split; [by apply trimmed_before|].
  cbn [directives]. rewrite (split_before _ _ Hw Ht), Hdn, Hc. unfold in_findings.
  rewrite (proj2 (Z.leb_le 1 n)), (proj2 (Z.leb_le n _)) by (apply Hf; done). cbn [andb ensure mbind result_bind].
  destruct (String.length (before _ _)) eqn:El; [|by apply directives_question].
  unfold before in El. by case_bool_decide.
Qed.

(** C38: Writing an analysis request as an objective and reading it back. Whatever arguments
    [kj_run_analysis] accepts, the objective it submits is read by the kernel's mission grammar
    as exactly that repository, that number of findings or none, and that question to the
    character, the default where none was asked: no question is taken for a directive. *)
Theorem analysis_runs_as_asked v a : analysis_input v = Ok a →
  parseMissionObjective (analysisObjective a) = Ok (requested a).
Proof.
  intros (Hrepo & Hf & Hq & Hok)%analysis_input_fields. rewrite objective_words in * by (intros q Hs; by apply Hq).
  assert (Hq' : trimmed (default EmptyString (aa_question a)) ∧ directive_like (default EmptyString (aa_question a)) = false).
  { destruct (aa_question a) as [q|]; [by destruct (Hq q eq_refl) as (? & _ & ?)|]. split; [apply trimmed_empty|done]. }
  destruct (request_rest_read a Hf (proj1 Hq') (proj2 Hq')) as [Hr Hdir]. pose proof (RepoSlug_word _ Hrepo) as Hw.
  unfold parseMissionObjective in *. rewrite (js_trim_id _ (trimmed_before _ _ Hw Hr)), (split_before _ _ Hw Hr), Hdir in *.
  rewrite Hrepo in *. cbn [ensure mbind result_bind] in *.
  assert (Hm : (match aa_findings a with Some _ => true | None => true end) = true) by (by destruct (aa_findings a)). rewrite Hm in *.
  cbn [ensure mbind result_bind] in *. cbv zeta in *.
  assert (Hqq : (if default EmptyString (aa_question a) === EmptyString then DEFAULT_MISSION_QUESTION else default EmptyString (aa_question a))
    = default DEFAULT_MISSION_QUESTION (aa_question a)).
  { destruct (aa_question a) as [q|]; [|done]. cbn [default]. rewrite bool_decide_false; [done|]. by apply Hq. }
  rewrite Hqq in *. destruct (js_length _ <=? 2000); [|done]. cbn [ensure mbind result_bind] in *. unfold MissionContract_parse, ok_or in *.
  destruct (MissionContract_ok _); [|done]. cbn [ensure mbind result_bind]. unfold requested. by destruct (aa_findings a).
Qed.

Definition sample_request : json :=
  JObj [("request_id", JStr "a1b2c3d4-e5"); ("repo", JStr "jonnyallum/kerneljson"); ("findings", JNum 3);
        ("question", JStr "  Which findings=2 texts are read?  ")].

Lemma analysis_runs_as_asked_witness :
  parseMissionObjective "jonnyallum/kerneljson findings=3 Which findings=2 texts are read?" =
  Ok {| mo_repo := "jonnyallum/kerneljson"; mo_question := "Which findings=2 texts are read?";
        mo_contract := {| requestedFindings := Some 3; minFindings := 3; maxFindings := 3 |} |}.
Proof.
  apply (analysis_runs_as_asked sample_request {| aa_request_id := "a1b2c3d4-e5"; aa_repo := "jonnyallum/kerneljson"; aa_findings := Some 3;
    aa_question := Some "Which findings=2 texts are read?" |}).
  vm_compute. reflexivity.
Defined.
